(* ===== verification/_CoqProject ===== *)
-Q . S2P
Prelude.v
Apdu.v
Handover.v
StatusBits.v
KeySelection.v
RevocationRepo.v
RevocationMethod.v
BitstringMethod.v
TokenMethod.v
ListFilter.v
Validity.v
StatusMethods.v
Paths.v
Dcql.v
DcqlSpec.v
Datatypes.v
CreateClaims.v
SchemaClaims.v
SchemaRequest.v
SchemaStore.v
SchemaService.v
Cache.v
CacheStorage.v
WalletStore.v
WalletProvider.v
WalletSpec.v
WalletIssuance.v
WalletLifecycle.v
WalletRevocation.v
WalletTheorems.v
SdValue.v
SdDisclosures.v
SdTree.v
SdSelect.v
SdIssue.v
SdView.v
SdPresent.v
SdToken.v
Jwt.v
SdFlow.v
SdClaims.v
SdTheorems.v
SdExample.v
VciStore.v
VciService.v
VciSpec.v
VciLife.v
VciTheorems.v
VciExample.v
VpStore.v
VpValidator.v
VpService.v
VpProofs.v
VpSpec.v
VpLife.v
VpTheorems.v
VpStatus.v
VpExample.v
