(* ===== verification/Prelude.v ===== *)
(** * One Core: a verification development

    Procivis One Core issues, holds and verifies digital credentials. This
    library models its credential status machinery from the bit level to the
    services, the repository below it, credential schemas and the claims of
    credentials from the request to the selection for a verifier, the selection
    of signing keys, the list filters of its queries, the cache of remote
    documents, the wallet provider with its attestations, SD-JWT credentials, the
    issuance of credentials over OpenID4VCI, their verification over OpenID4VP,
    and the NFC engagement of its wallet. Paths below are under [src/lib].

    ** The program and its model

    An issuer enters a credential on a status list when it issues it, and
    changes the entry when it revokes, suspends or reactivates the credential.
    The list is a packed array of bits, compressed, encoded and signed, that
    anybody may download. A verifier or a wallet reads the bits at the index
    that the credential carries. The parts, from the bottom:

    - [Apdu.v]: the APDU codec, [one-core/src/proto/nfc/apdu.rs], and the known
      commands, [command.rs].
    - [Handover.v]: the NFC type 4 tag that a wallet emulates,
      [static_handover_handler.rs]. Its mutex-protected state is the record
      [State]; a command handler is a function from the state and the bytes
      to the state and the answer.
    - [StatusBits.v]: packing and extraction of bitstrings and token lists,
      [one-core/src/provider/revocation/utils.rs] and the [util.rs] of
      [bitstring_status_list] and [token_status_list].
    - [KeySelection.v]: [Identifier::select_key] and the filters of
      [one-core/src/util/key_selection.rs].
    - [RevocationRepo.v]: the tables of revocation lists and their entries, and
      every operation of [sql-data-provider/src/revocation_list/repository.rs].
      The state is the record [Db]; an operation is a function
      [Db -> res E A * Db].
    - [RevocationMethod.v]: credentials, statuses and errors, and the loop that
      allocates an index while other clients write.
    - [BitstringMethod.v], [TokenMethod.v]: the methods of
      [bitstring_status_list/mod.rs] and [token_status_list/mod.rs]: issuance,
      marking, publication, attestations, signatures, and the verifier's check.
    - [ListFilter.v]: the conditions of [one-core-portable/src/model/list_filter.rs]
      and their SQL meaning, [sql-data-provider/src/list_query_generic.rs].
    - [Validity.v]: the credential validity manager
      [one-core/src/proto/credential_validity_manager], the state operations of
      [service/credential/service.rs], the task [provider/task/suspend_check],
      and the operations of [sql-data-provider/src/credential] that they call.
      It sees a revocation method through the class [RevocationMethodLaws].
    - [StatusMethods.v]: the bitstring and token methods as instances of that
      class, and the way of a state from the issuer to the wallet.

    A credential schema declares nested claims; they are stored as a flat list
    of keys with a slash between the levels. A credential of the schema has a
    claim for each leaf, object, array and array element, with a path. A
    verifier asks for claims with a DCQL query, and the wallet selects what it
    has to disclose.

    - [Paths.v]: the string operations on keys and paths.
    - [Dcql.v], [DcqlSpec.v]: the queries of [dcql/src] and the matching and
      selection of claims of
      [one-core/src/provider/verification_protocol/openid4vp/dcql.rs]; the
      second file has what they mean and the theorems.
    - [Datatypes.v]: claim values by datatype,
      [one-core-portable/src/config/validator/datatype.rs].
    - [CreateClaims.v]: the checks of a credential request and the claims made
      of it, [one-core/src/service/credential/validator.rs] and [mapper.rs].
    - [SchemaClaims.v]: nesting and unnesting of the claims of a schema,
      [one-core/src/service/credential_schema/mapper.rs].
    - [SchemaRequest.v]: the checks of [credential_schema/validator.rs].
    - [SchemaStore.v]: the tables and the repository
      [sql-data-provider/src/credential_schema/repository.rs]; the state is the
      record [SchemaDb].
    - [SchemaService.v]: [credential_schema/service.rs]: create, get, delete and
      share.

    Documents of others (status lists, DID documents, JSON-LD contexts, trust
    lists) are loaded through a cache.

    - [Cache.v]: the loader [one-core/src/provider/caching_loader/mod.rs] over any
      storage of the class [RemoteEntityStorage] that keeps [StorageLaws].
    - [CacheStorage.v]: the storages of [provider/remote_entity_storage], in memory
      and over [sql-data-provider/src/remote_entity_cache/repository.rs], as
      instances of both classes.

    A wallet provider knows its wallets as wallet units. A unit is registered,
    proves that it runs on a genuine device, and then gets attestations for its
    keys, which are entered on token status lists.

    - [WalletStore.v]: the tables and repositories [sql-data-provider/src/wallet_unit]
      and [wallet_unit_attested_key]; the state is the record [WalletDb], with the
      store of the revocation lists inside.
    - [WalletProvider.v]: [one-core/src/service/wallet_provider], from registration
      to deletion; a revocation method is a record of operations.
    - [WalletSpec.v], [WalletIssuance.v], [WalletLifecycle.v]: what each operation
      does, and the invariant of the tables.
    - [WalletRevocation.v]: the token method as that record, and the way of a key
      from the issuance to the revocation.
    - [WalletTheorems.v]: the theorems and an example that runs.

    A credential in the SD-JWT format is a signed JWT with the digests of its
    claims, and the disclosures of the claims as texts behind it. The holder
    presents a selection of the disclosures and binds it to its key; the
    verifier puts the disclosed claims back in their places.

    - [SdValue.v]: JSON values, claims and errors,
      [one-core/src/provider/credential_formatter/mapper.rs] and [model.rs].
    - [SdDisclosures.v]: [credential_formatter/sdjwt/disclosures.rs]: making,
      reading, selecting and expanding disclosures.
    - [SdTree.v]: credentials as trees, their payload and what is revealed of
      them, and the expansion as an operation on trees; [SdSelect.v]: the
      selection on trees; [SdIssue.v]: the trees that are issued; [SdView.v],
      [SdPresent.v]: what a selection shows of them.
    - [SdToken.v], [Jwt.v]: the text of SD-JWTs and of JWTs, [proto/jwt].
    - [SdFlow.v]: [sdjwt/mod.rs], from [format_credential] to
      [verify_holder_binding]; [SdClaims.v]: the typed payloads [VcClaim] and
      [SdJwtVc].
    - [SdTheorems.v], [SdExample.v]: the theorems, and a deployment that runs.

    A credential is issued over OpenID4VCI: the issuer shares an offer with a
    code, the wallet exchanges the code for an access token, gets a nonce, and
    requests the credential with a proof of its key that holds the nonce.

    - [VciStore.v]: interactions, blobs, validity credentials and the columns of
      the issuance, with the repositories [sql-data-provider/src/interaction],
      [blob], [validity_credential] and [credential]; the state is the record
      [VciDb], with the store of [Validity.v] inside.
    - [VciService.v]: the token, credential, nonce and notification endpoints of
      [one-core/src/service/oid4vci_final1_0], what they call of
      [provider/issuance_protocol/openid4vci_final1_0], and [share_credential] of
      [service/credential/service.rs].
    - [VciSpec.v]: what each part leaves alone, and what it means that an endpoint
      succeeds; [VciLife.v]: the invariant of the tables and the states after a
      state.
    - [VciTheorems.v], [VciExample.v]: the theorems, and a deployment that runs.

    A verifier asks for credentials over OpenID4VP: it shares a proof request with
    a nonce and a DCQL query that is made of a proof schema, checks the response
    of the wallet, and stores the claims that it proves.

    - [VpStore.v]: proofs, claims and proof schemas, with the repositories
      [sql-data-provider/src/proof] and [claim]; the state is the record [VpDb],
      with the tables [VciDb] inside.
    - [VpValidator.v]: the checks of a response,
      [one-core/src/proto/openid4vp_proof_validator] and what it calls of
      [provider/verification_protocol/openid4vp]: presentations, credentials,
      claims, and the credentials that are stored.
    - [VpService.v]: the response endpoint of [service/oid4vp_final1_0], with
      [util/openid4vp.rs].
    - [VpProofs.v]: the query, the client id and the sharing of a request
      ([openid4vp/final1_0]), and the operations of [service/proof/service.rs] that
      share, retract and delete.
    - [VpSpec.v]: what a checked response means; [VpLife.v]: what an accepted one
      writes, and that an answered request stays answered.
    - [VpTheorems.v], [VpExample.v]: the theorems, and a deployment that runs;
      [VpStatus.v]: the way of a state from the issuer to the verifier.

    This file has what they share: results with panics, state and transactions,
    lists and machine integers, decimal numbers, and the tactics and hints.

    ** How code is modelled

    [Result<A, E>] is [res E A], whose third value [Panic] stands for an index
    out of range, a division by zero or a failed allocation. Code that runs on
    a store is a function from the store to a result and a store: an early
    return keeps what was written, a [transaction] does not. Integers are [Z]
    with the width's range and wrap-around written out: [usize] arithmetic wraps
    at 64 bits, as in the release profile; an [as u32] conversion of an index
    wraps at 32. An [await] is a plain call, except where another client of the
    database may come between a read and a write: there the definitions take an
    argument [interfere], any transactions that others commit at that point.

    Code of other crates is a class of operations with its documented laws in a
    second class: bit vectors, base64, gzip and zlib ([BitVec], [StatusCodec]),
    X.509 parsing ([X509]), UUIDs ([UuidSupply]), the iteration order of hash
    maps ([HashOrder]), regular expressions, floats and dates ([ValueOps]), the
    formatters ([DcqlFormatters], [SchemaProviders]), formatters, signers and URL
    parsing ([StatusProviders]), the loading of lists ([StatusListReader],
    [TokenListReader]), the world of the wallet ([HolderWorld]), the resolvers of
    remote documents ([Resolver]), tokens, keys and platform attestations of
    wallet units ([WalletCrypto]), the clock ([WalletClock]), base64 and serde of
    JSON texts ([SdCodec], [HeaderCodec], [PayloadCodec], [TypedPayloads]), the
    hash ([Hasher]), signatures ([SignatureProvider], [TokenVerifier]), and DIDs,
    JWKS and certificates of issuers ([SdProviders]), random texts ([Randoms]),
    hashes, UUIDs as text and serde of what the issuance stores ([VciCodec], with
    the laws [VciLaws] and [NonceLaws]), keys, DIDs, identifiers of holders and
    the formatter of the issued credential ([VciProviders]), the revocation
    methods at the issuance ([IssuanceMethods]), and what sharing reads of the
    identifier and the protocols ([ShareWorld]), formatters, DID documents, status
    checks and certificates of presented credentials ([VpProviders]), serde, JWE
    and the identifiers of remote parties ([VpWorld]), the configuration and keys
    of a verifier ([ProofWorld]), and what a database does with an insertion of
    no rows ([SqlDialect]). Each has a concrete
    instance, with which the witnesses are evaluated.

    ** What the theorems show

    - Bits and bytes: what is packed at an index is what is read there, inside
      stated bounds, and nothing panics within them; APDUs survive the wire.
    - The tables: every operation keeps ids and keys unique and the indexes of a
      list without gaps; a list never shrinks. Allocation gives an index to one
      entry only, whatever other clients do, and ends after at most 102
      attempts.
    - The methods: an issued credential is entered at the index its status
      names; after a state change exactly its entries are changed, and a
      verifier of the published list reads the state of every entry.
    - The service: state changes happen under their guards only, move along the
      life cycle, and keep the lists and the credential table together; the
      suspension task reactivates what is due; the wallet stores the worst of
      the states that its lists report.
    - End to end: the state that the issuer's service sets is the state that the
      wallet's check detects, and decides whether a verifier accepts the
      credential.
    - Schemas: a request that is accepted is stored with keys that are unique and
      complete, and is read back as it was, whatever others do to the tables;
      creation and deletion succeed under their guards and touch nothing else.
    - Claims: the checks of a credential request are equivalent to a description
      of what may be requested; the claims made of it are the requested leaves
      and what is above them.
    - Disclosure: a DCQL path matches the claims it denotes; the selection is
      exactly what cannot be withheld and what the query asks for, in the first
      claim set that the credential can serve, and no more.
    - The cache: a call asks the resolver when it has to and only then; what it
      returns is fresh, confirmed, persistent, or was fetched within the timeout,
      however loaders share the cache; both storages evict the least recently
      used entries, as many as needed, and agree on everything else.
    - The wallet provider: a unit is activated only with the attestation of its
      platform for its nonce, gets attestations only for keys it holds, moves
      along its life cycle over any sequence of calls, and when it is revoked the
      entries of its attestations are revoked and published.
    - SD-JWT: an issued credential can be read; of a presented one the verifier
      sees the claims on the way to the presented keys and below them, and no
      other; a key binding is accepted for the presentation, nonce and audience
      it was made for, and for no other unless the hash collides. The
      disclosures of one credential are assumed to have distinct hashes, and the
      claims to have no member named [_sd] or [...].
    - Issuance: a code is exchanged once and an interaction issues once, whatever
      runs at the same time; a token and a credential are returned under their
      guards only, to the holder of the proved key; one wrong transaction code
      ends the offer; the states of credentials only move forward over any
      sequence of calls; a nonce is accepted from its issuance to its expiry.
      Fresh UUIDs are assumed not to repeat those in use.
    - Verification: what is stored of an accepted response was proved by genuine
      credentials that their holder presented for the nonce of the request, and
      every required claim was; a request is answered once, whatever runs at the
      same time; a response that passes the check is accepted, and a refused one
      leaves nothing but itself and a failed request; a request that is shared can
      be answered, and its query leads back to its inputs.
    - Key selection is sound, and complete but for one stated case; filters mean
      what their operators say; the NFC reader gets the message, and failure is
      signalled once.
    - Limits of the code that are theorems too: a list of more than 131072
      entries, not a multiple of 4, can become impossible to publish
      ([token_generation_panics]); a received token with a bad entry size makes
      the verifier panic ([token_entry_size_panics]); an index of 2^63 reads
      entry 0 ([token_index_wraps]); the JSON-LD formatter of bitstring lists is
      chosen the wrong way round ([bbs_formatter_inverted]); a DCQL [null]
      selects an array property of an object ([null_selects_property]); the
      length of nested keys is not limited ([key_length_unchecked]); a cache entry
      that was confirmed is dropped all the same ([confirmed_entry_dropped]); a
      key attested twice in one request has an attestation that cannot be revoked
      ([repeated_key_unrevocable]); a revocation of a wallet unit that fails half
      way cannot be repeated ([failed_revocation_is_final]); disclosures below a
      plain member of a selected claim are not presented
      ([plain_member_not_collected]); an issuance that fails is not recorded as
      failed ([failed_issuance_unrecorded]), and [issue_once] also rules out the
      refresh of an mdoc; a token request that was waiting survives the wrong
      transaction code of another one ([lockout_race]); a deleted offer can be
      issued ([deleted_offer_issued]); a second response turns an accepted proof
      into a failed one ([replay_discards_proof]); a request with optional claims
      only accepts no response ([optional_claims_refused]); a malformed path in a
      response makes the verifier panic ([token_path_panics]).

    ** Bounds and fuel

    The allocation loop has fuel 102, the number of values its counter takes;
    its theorems say that the fuel is never used up. Decimal numbers have at
    most 20 digits, which is enough for 64 bits, and their round trip is proved.
    The walks along paths and nested keys have as fuel the number of slashes or
    the length of the path, and the theorems on them say that a result is
    returned (the search for the value of a proved claim takes one segment off the
    key at each step); nesting never runs out ([nesting_terminates]). The recursions of the
    SD-JWT code follow digests, so they have the depth of the stack as fuel and
    panic without it; [stack_depth] is enough for an issued credential. All other
    recursion is structural.

    ** What is not modelled

    Cryptography, credential formats other than SD-JWT, HTTP, MQTT and Bluetooth,
    key storages, and the REST and mobile interfaces are not modelled: they are
    calls into other crates or glue. Of the mdoc refresh the decision is
    modelled and the exchange with the issuer is not. Isolation levels and row
    locks are not relied on: interference is allowed wherever the code does not
    hold one transaction. In the issuance, other calls commit before the nonce is
    marked and before a transaction begins; the random values that a failed
    transaction drew are drawn again. The issuer metadata, the holder's side and
    the older versions of the protocol are not modelled. In the verification, other
    calls commit between the check of a response and the transaction that accepts
    it; creation of proof requests, the signed authorization request, the views
    and the holder's side are not modelled.

    ** Plan

    Next are the presentation definitions around the selection of claims, the
    detail view of a credential, the creation of proofs and proof schemas,
    did:webvh logs, and the CRL method. *)

From stdpp Require Export base tactics option list gmap strings sets.
From Stdlib Require Export ZArith Lia.
From Stdlib Require Ascii String.

#[global] Set Default Goal Selector "!".

#[global] Arguments Z.add : simpl never.
#[global] Arguments Z.sub : simpl never.
#[global] Arguments Z.mul : simpl never.
#[global] Arguments Z.leb : simpl never.
#[global] Arguments Z.ltb : simpl never.
#[global] Arguments Z.eqb : simpl nomatch.
#[global] Arguments Z.modulo : simpl never.
#[global] Arguments Z.div : simpl never.

(** ** Results

    Rust's [Result<A, E>], with a third outcome for a panic (an index out of
    range, a division by zero): a panic is not an [Err] the caller can
    handle, and several of the theorems say that it cannot happen. *)
Inductive res (E A : Type) : Type :=
| Ok (a : A)
| Err (e : E)
| Panic.
Arguments Ok {E A} _.
Arguments Err {E A} _.
Arguments Panic {E A}.

(** The [?] operator: [x ← m; k] continues with the value of an [Ok] and
    returns early on an [Err]. *)
#[export] Instance res_ret (E : Type) : MRet (res E) := fun _ a => Ok a.
#[export] Instance res_bind (E : Type) : MBind (res E) := fun _ _ f m =>
  match m with Ok a => f a | Err e => Err e | Panic => Panic end.

Definition map_err {E F A : Type} (f : E -> F) (m : res E A) : res F A :=
  match m with Ok a => Ok a | Err e => Err (f e) | Panic => Panic end.

(** [Option::ok_or]. *)
Definition ok_or {E A : Type} (o : option A) (e : E) : res E A :=
  match o with Some a => Ok a | None => Err e end.

(** The result of a call into another crate, which returns or fails. *)
Definition of_sum {E A : Type} (x : E + A) : res E A :=
  match x with inl e => Err e | inr a => Ok a end.

(** [if cond { return Err(e) }]. *)
Definition fail_if {E : Type} (cond : bool) (e : E) : res E unit :=
  if cond then Err e else Ok tt.

(** [iter.map(f).collect::<Result<Vec<_>, _>>()]: the first error wins. *)
Fixpoint try_map {E A B : Type} (f : A -> res E B) (l : list A) : res E (list B) :=
  match l with
  | [] => Ok []
  | x :: l => y ← f x; ys ← try_map f l; Ok (y :: ys)
  end.

(** [iter.try_for_each(f)] on a mutable accumulator. *)
Fixpoint try_fold {E A B : Type} (f : B -> A -> res E B) (b : B) (l : list A) : res E B :=
  match l with
  | [] => Ok b
  | x :: l => b' ← f b x; try_fold f b' l
  end.

Definition is_ok {E A : Type} (m : res E A) : bool :=
  match m with Ok _ => true | _ => false end.

(** ** Stateful code

    A service method runs on a store [S] (the database, a mutex-protected
    state) and returns a result; an early return keeps the writes made
    before it. *)
Definition M (S E A : Type) : Type := S -> res E A * S.

#[export] Instance M_ret (S E : Type) : MRet (M S E) := fun _ a s => (Ok a, s).
#[export] Instance M_bind (S E : Type) : MBind (M S E) := fun _ _ f m s =>
  match m s with
  | (Ok a, s') => f a s'
  | (Err e, s') => (Err e, s')
  | (Panic, s') => (Panic, s')
  end.

Definition lift {S E A : Type} (m : res E A) : M S E A := fun s => (m, s).
Definition get {S E : Type} : M S E S := fun s => (Ok s, s).
Definition put {S E : Type} (s : S) : M S E unit := fun _ => (Ok tt, s).
Definition throw {S E A : Type} (e : E) : M S E A := fun s => (Err e, s).
Definition M_map_err {S E F A : Type} (f : E -> F) (m : M S E A) : M S F A :=
  fun s => let '(r, s') := m s in (map_err f r, s').

(** [for x in l { f(x)?; }]. *)
Fixpoint for_each {S E A : Type} (f : A -> M S E unit) (l : list A) : M S E unit :=
  match l with
  | [] => mret tt
  | x :: l => f x;; for_each f l
  end.

Lemma M_map_err_run {S E F A : Type} (f : E -> F) (m : M S E A) (s s' : S) (r : res E A) :
  m s = (r, s') -> M_map_err f m s = (map_err f r, s').
Proof. unfold M_map_err. by intros ->. Qed.

(** A database transaction: the writes are kept only when the body returns
    [Ok]. *)
Definition transaction {S E A : Type} (m : M S E A) : M S E A :=
  fun s => match m s with
           | (Ok a, s') => (Ok a, s')
           | (r, _) => (r, s)
           end.

(** ** Tactics and hints *)

Create HintDb core_db.
Create Rewrite HintDb core_db.

(** Case on the scrutinee of the first [match] of the goal. *)
Ltac case_goal :=
  match goal with
  | |- context [match ?x with _ => _ end] => destruct x eqn:?
  end.

(** Invert the binds of a hypothesis [m = Ok a]. *)
Ltac inv_res :=
  repeat match goal with
  | H : Ok _ = Ok _ |- _ => injection H as H
  | H : Err _ = Err _ |- _ => injection H as H
  | H : Ok _ = Err _ |- _ => discriminate H
  | H : Err _ = Ok _ |- _ => discriminate H
  | H : Panic = _ |- _ => discriminate H
  | H : _ = Panic |- _ => discriminate H
  | H : (_, _) = (_, _) |- _ => injection H as ? ?
  | H : mbind (M := res _) _ ?m = _ |- _ =>
      let E := fresh "Hm" in
      destruct m eqn:E; simpl in H; try discriminate H
  | H : ok_or ?o _ = Ok _ |- _ =>
      let E := fresh "Ho" in
      destruct o eqn:E; simpl in H; try discriminate H
  | H : fail_if ?c _ = Ok _ |- _ =>
      let E := fresh "Hc" in
      destruct c eqn:E; simpl in H; try discriminate H
  | H : ?x = ?y |- _ => is_var x; is_var y; subst x
  end.

(** Run the state monad one step further. *)
Ltac run_M :=
  cbv [mbind M_bind mret M_ret get put throw lift].

Lemma res_bind_ok {E A B : Type} (f : A -> res E B) (m : res E A) (b : B) :
  m ≫= f = Ok b <-> exists a, m = Ok a /\ f a = Ok b.
Proof.
  destruct m; simpl; split; [by eauto | by intros (? & [= <-] & ?) | done | by intros (? & ? & ?) | done | by intros (? & ? & ?)].
Qed.

Lemma map_err_ok {E F A : Type} (f : E -> F) (m : res E A) (a : A) :
  map_err f m = Ok a <-> m = Ok a.
Proof. destruct m; simpl; split; congruence. Qed.

Lemma of_sum_ok {E A : Type} (x : E + A) (a : A) : of_sum x = Ok a <-> x = inr a.
Proof. destruct x; simpl; split; congruence. Qed.

(** ** Absence of panics *)

Lemma bind_no_panic {E A B : Type} (f : A -> res E B) (m : res E A) :
  m <> Panic -> (forall a, f a <> Panic) -> m ≫= f <> Panic.
Proof. destruct m; simpl; auto; discriminate. Qed.

Lemma ok_or_no_panic {E A : Type} (o : option A) (e : E) : ok_or o e <> Panic.
Proof. by destruct o. Qed.

Lemma of_sum_no_panic {E A : Type} (x : E + A) : of_sum x <> Panic.
Proof. by destruct x. Qed.

Lemma fail_if_no_panic {E : Type} (c : bool) (e : E) : fail_if c e <> Panic.
Proof. by destruct c. Qed.

Lemma map_err_no_panic {E F A : Type} (f : E -> F) (m : res E A) :
  m <> Panic -> map_err f m <> Panic.
Proof. by destruct m. Qed.

#[export] Hint Resolve bind_no_panic ok_or_no_panic of_sum_no_panic fail_if_no_panic
  map_err_no_panic : core_db.

(** Follow the binds and branches of code that returns or fails. *)
Ltac no_panic :=
  repeat first
    [ progress intros
    | apply bind_no_panic
    | solve [auto with core_db | discriminate]
    | case_match ].

(** ** What every run of stateful code does to the store

    [preserves P m]: every run of [m], whatever its result, relates the store
    it starts with and the store it ends with by the preorder [P]. *)
Definition preserves {S : Type} (P : S -> S -> Prop) {E A : Type} (m : M S E A) : Prop :=
  forall s, P s (m s).2.

Section preserving.
Context {S : Type} (P : S -> S -> Prop) `{!PreOrder P} {E : Type}.

Lemma preserves_lift {A : Type} (r : res E A) : preserves P (lift r).
Proof. intros s. simpl. reflexivity. Qed.

Lemma preserves_ret {A : Type} (a : A) : preserves P (mret a : M S E A).
Proof. intros s. simpl. reflexivity. Qed.

Lemma preserves_bind {A B : Type} (f : A -> M S E B) (m : M S E A) :
  preserves P m -> (forall a, preserves P (f a)) -> preserves P (m ≫= f).
Proof.
  intros Hm Hf s. specialize (Hm s). unfold mbind, M_bind.
  destruct (m s) as [[a|e|] s1]; simpl in *; [|done..]. etrans; [done|]. apply Hf.
Qed.

Lemma preserves_get_bind {A : Type} (f : S -> M S E A) :
  (forall s, P s (f s s).2) -> preserves P (get ≫= f).
Proof. intros Hf s. apply Hf. Qed.

Lemma preserves_map_err {F A : Type} (f : F -> E) (m : M S F A) :
  preserves P m -> preserves P (M_map_err f m).
Proof. intros Hm s. specialize (Hm s). unfold M_map_err. by destruct (m s). Qed.

Lemma preserves_for_each {A : Type} (f : A -> M S E unit) (l : list A) :
  (forall x, preserves P (f x)) -> preserves P (for_each f l).
Proof.
  intros Hf. induction l as [|x l IH]; simpl; [apply preserves_ret|]. by apply preserves_bind.
Qed.
End preserving.

#[export] Hint Resolve preserves_lift preserves_ret preserves_map_err : core_db.

Section results.
Context {E A B : Type}.

Lemma ok_or_ok (o : option A) (e : E) (a : A) : ok_or o e = Ok a <-> o = Some a.
Proof. destruct o; simpl; naive_solver. Qed.

Lemma fail_if_ok (c : bool) (e : E) : fail_if c e = Ok tt <-> c = false.
Proof. destruct c; simpl; naive_solver. Qed.

Lemma try_map_ok (f : A -> res E B) (l : list A) (ys : list B) :
  try_map f l = Ok ys <-> Forall2 (fun x y => f x = Ok y) l ys.
Proof.
  revert ys; induction l as [|x l IH]; intros ys; simpl.
  - split.
    + intros H; injection H as <-. constructor.
    + inversion 1. done.
  - rewrite res_bind_ok. setoid_rewrite res_bind_ok. setoid_rewrite IH. split.
    + intros (y & Hy & ys' & Hys & Heq). injection Heq as <-. by constructor.
    + inversion 1; subst. eauto 10.
Qed.

Lemma try_map_total (f : A -> res E B) (g : A -> B) (l : list A) :
  (forall x, x ∈ l -> f x = Ok (g x)) -> try_map f l = Ok (g <$> l).
Proof.
  intros H. apply try_map_ok. induction l as [|x l IH]; constructor.
  - apply H. left.
  - apply IH. intros y Hy. apply H. by right.
Qed.

Lemma try_map_fails (f : A -> res E B) (l : list A) (x : A) (e : E) :
  x ∈ l -> f x = Err e -> (forall y, y ∈ l -> f y <> Panic) -> exists e', try_map f l = Err e'.
Proof.
  induction l as [|y l IH]; intros Hin Hx Hp; [by apply elem_of_nil in Hin|]. simpl.
  pose proof (Hp y ltac:(left)) as Hy. destruct (f y) as [b|e'|] eqn:Hfy; simpl; [|by eauto|done].
  apply elem_of_cons in Hin as [->|Hin]; [congruence|].
  destruct IH as [e' ->]; [done..| |by eauto]. intros z Hz. apply Hp. by right.
Qed.

(** What fails is the call on some element. *)
Lemma try_map_err (f : A -> res E B) (l : list A) (e : E) :
  try_map f l = Err e -> exists x, x ∈ l /\ f x = Err e.
Proof.
  induction l as [|y l IH]; simpl; [done|]. destruct (f y) as [b|e'|] eqn:Hy; simpl; [|by intros [= ->]; exists y; split; [left|]|done].
  destruct (try_map f l) as [bs|e'|]; simpl; [done| |done]. intros [= ->].
  destruct (IH eq_refl) as (x & Hx & He). exists x. by split; [right|].
Qed.

Lemma try_map_no_panic (f : A -> res E B) (l : list A) :
  (forall x, x ∈ l -> f x <> Panic) -> try_map f l <> Panic.
Proof.
  induction l as [|y l IH]; intros Hp; simpl; [done|].
  pose proof (Hp y ltac:(left)). destruct (f y); simpl; [|done..].
  assert (Hl : try_map f l <> Panic) by (apply IH; intros; apply Hp; by right). by destruct (try_map f l).
Qed.

(** A fold whose steps preserve [P] ends in [P]. *)
Lemma try_fold_inv (P : B -> Prop) (f : B -> A -> res E B) (l : list A) (b b' : B) :
  P b -> (forall b x b', x ∈ l -> P b -> f b x = Ok b' -> P b') ->
  try_fold f b l = Ok b' -> P b'.
Proof.
  revert b; induction l as [|x l IH]; intros b Hb Hstep; simpl.
  - intros H; by injection H as <-.
  - intros (b1 & H1 & H2)%res_bind_ok. eapply IH; [| |exact H2].
    + eapply Hstep; eauto. left.
    + intros ??? Hin. apply Hstep. by right.
Qed.
End results.

Lemma try_fold_app {E A B : Type} (f : B -> A -> res E B) (l1 l2 : list A) (b : B) :
  try_fold f b (l1 ++ l2) = (try_fold f b l1 ≫= fun b' => try_fold f b' l2).
Proof.
  revert b; induction l1 as [|x l1 IH]; intros b; simpl; [done|].
  destruct (f b x); simpl; auto.
Qed.

(** ** Machine integers

    [u8], [u16] and [usize] values are [Z]s; the type's range is the
    predicate below. [as u8] and [as u16] truncate; [usize] arithmetic wraps
    at 64 bits, the behaviour of the release profile, which does not enable
    overflow checks. *)
Declare Scope rust_scope.
Delimit Scope rust_scope with rust.
#[local] Open Scope Z_scope.

Definition is_u8 (z : Z) : Prop := 0 <= z < 256.
Definition is_u16 (z : Z) : Prop := 0 <= z < 65536.
Definition usize_max : Z := 18446744073709551615.
Definition is_usize (z : Z) : Prop := 0 <= z <= usize_max.
Definition as_u8 (z : Z) : Z := z mod 256.
Definition as_u16 (z : Z) : Z := z mod 65536.
Definition wrap (z : Z) : Z := z mod (usize_max + 1).

(** The length of a [Vec], a [usize]. *)
Definition len {A : Type} (l : list A) : Z := Z.of_nat (length l).

(** [slice.get(i)] and [slice.get(a..b)]. *)
Definition get_at {A : Type} (l : list A) (i : Z) : option A :=
  if i <? 0 then None else l !! Z.to_nat i.
Definition get_range {A : Type} (l : list A) (a b : Z) : option (list A) :=
  if (0 <=? a) && (a <=? b) && (b <=? len l)
  then Some (take (Z.to_nat (b - a)) (drop (Z.to_nat a) l)) else None.

(** [u16::to_be_bytes] and [u16::from_be_bytes]. *)
Definition to_be_bytes (z : Z) : list Z := [Z.shiftr z 8; Z.land z 255].
Definition from_be_bytes (hi lo : Z) : Z := Z.lor (Z.shiftl hi 8) lo.

Notation "a '+w' b" := (wrap (a + b)) (at level 50, left associativity) : rust_scope.
Notation "a '-w' b" := (wrap (a - b)) (at level 50, left associativity) : rust_scope.
Notation "a '*w' b" := (wrap (a * b)) (at level 40, left associativity) : rust_scope.

Lemma len_nil {A : Type} : len (@nil A) = 0.
Proof. done. Qed.
Lemma len_cons {A : Type} (x : A) (l : list A) : len (x :: l) = 1 + len l.
Proof. unfold len. simpl. lia. Qed.
Lemma len_app {A : Type} (l1 l2 : list A) : len (l1 ++ l2) = len l1 + len l2.
Proof. unfold len. rewrite length_app. lia. Qed.
Lemma len_nonneg {A : Type} (l : list A) : 0 <= len l.
Proof. unfold len. lia. Qed.
Lemma len_0 {A : Type} (l : list A) : len l = 0 <-> l = [].
Proof. destruct l; unfold len; simpl; split; (done || lia). Qed.

Lemma get_range_app {A : Type} (l1 l2 l3 : list A) (a b : Z) :
  a = len l1 -> b = len l1 + len l2 -> get_range (l1 ++ l2 ++ l3) a b = Some l2.
Proof.
  intros -> ->. unfold get_range. rewrite !len_app.
  pose proof (len_nonneg l1). pose proof (len_nonneg l2). pose proof (len_nonneg l3).
  destruct (_ && _) eqn:E; [|lia].
  f_equal. unfold len. rewrite Nat2Z.id.
  replace (Z.to_nat _) with (length l2) by lia.
  rewrite drop_app_length. apply take_app_length.
Qed.

Lemma get_at_app_r {A : Type} (l1 l2 : list A) (i : Z) :
  len l1 <= i -> get_at (l1 ++ l2) i = get_at l2 (i - len l1).
Proof.
  intros H. unfold get_at. pose proof (len_nonneg l1).
  destruct (i <? 0) eqn:E1, (i - len l1 <? 0) eqn:E2; try lia; [].
  rewrite lookup_app_r by (unfold len in *; lia).
  f_equal. unfold len in *. lia.
Qed.

Lemma wrap_small (z : Z) : is_usize z -> wrap z = z.
Proof. unfold wrap, is_usize. intros. apply Z.mod_small. lia. Qed.

Lemma to_be_bytes_spec (z : Z) : is_u16 z ->
  to_be_bytes z = [z / 256; z mod 256] /\ is_u8 (z / 256) /\ is_u8 (z mod 256).
Proof.
  intros Hz. unfold to_be_bytes, is_u8, is_u16 in *.
  rewrite Z.shiftr_div_pow2 by lia.
  change 255 with (Z.ones 8). rewrite Z.land_ones by lia.
  change (2 ^ 8) with 256. split; [done|]. split.
  - split; [apply Z.div_pos; lia | apply Z.div_lt_upper_bound; lia].
  - apply Z.mod_pos_bound. lia.
Qed.

Lemma land_shiftl_small (hi lo : Z) : is_u8 lo -> Z.land (Z.shiftl hi 8) lo = 0.
Proof.
  intros Hlo. unfold is_u8 in Hlo. apply Z.bits_inj'. intros n Hn.
  rewrite Z.land_spec, Z.bits_0, Z.shiftl_spec by done.
  destruct (Z_lt_le_dec n 8).
  - by rewrite (Z.testbit_neg_r hi) by lia.
  - replace lo with (lo mod 2 ^ 8) by (apply Z.mod_small; lia).
    rewrite Z.mod_pow2_bits_high by lia. apply andb_false_r.
Qed.

Lemma from_be_bytes_spec (hi lo : Z) : is_u8 lo -> from_be_bytes hi lo = 256 * hi + lo.
Proof.
  intros Hlo. unfold from_be_bytes.
  rewrite <- Z.lxor_lor, <- Z.add_nocarry_lxor, Z.shiftl_mul_pow2
    by (lia || by apply land_shiftl_small). lia.
Qed.

Lemma from_to_be_bytes (z : Z) : is_u16 z ->
  from_be_bytes (z / 256) (z mod 256) = z.
Proof.
  intros Hz. destruct (to_be_bytes_spec z Hz) as (_ & _ & Hlo).
  rewrite from_be_bytes_spec by done. pose proof (Z.div_mod z 256). lia.
Qed.

#[export] Hint Rewrite @len_nil @len_cons @len_app : core_db.
#[export] Hint Resolve len_nonneg : core_db.

Ltac len_simp := autorewrite with core_db in *.

(** ** Decimal numbers

    [usize::to_string] and [str::parse::<usize>]. *)
Fixpoint digits (fuel : nat) (n : Z) : list Z :=
  match fuel with
  | O => []
  | S fuel => if n <? 10 then [n] else digits fuel (n / 10) ++ [n mod 10]
  end.

Definition digit_char (d : Z) : Ascii.ascii := Ascii.ascii_of_nat (48 + Z.to_nat d).

(** 20 digits are enough for 64 bits. *)
Definition usize_to_string (n : Z) : string :=
  String.string_of_list_ascii (digit_char <$> digits 20 n).

Definition char_digit (c : Ascii.ascii) : option Z :=
  let n := Z.of_nat (Ascii.nat_of_ascii c) in
  if (48 <=? n) && (n <=? 57) then Some (n - 48) else None.

(** One more digit; [None] for a character that is no digit or an overflow. *)
Definition push_digit (acc : option Z) (c : Ascii.ascii) : option Z :=
  match acc, char_digit c with
  | Some a, Some d => if a * 10 + d <=? usize_max then Some (a * 10 + d) else None
  | _, _ => None
  end.

Definition plus_char : Ascii.ascii := Ascii.ascii_of_nat 43.

Definition usize_from_str (s : string) : option Z :=
  match String.list_ascii_of_string s with
  | [] => None
  | c :: cs =>
      let ds := if Ascii.eqb c plus_char then cs else c :: cs in
      match ds with [] => None | _ => foldl push_digit (Some 0) ds end
  end.

Lemma char_digit_char (d : Z) : 0 <= d < 10 -> char_digit (digit_char d) = Some d.
Proof.
  intros Hd. assert (d ∈ seqZ 0 10) as Hin by (apply elem_of_seqZ; lia).
  revert Hin. rewrite list_elem_of_In. simpl.
  repeat (intros [<-|Hin]; [reflexivity|revert Hin]). done.
Qed.

Lemma push_digit_char (a d n : Z) : 0 <= d < 10 -> n = a * 10 + d -> n <= usize_max ->
  push_digit (Some a) (digit_char d) = Some n.
Proof.
  intros Hd -> Hn. unfold push_digit. rewrite char_digit_char by done.
  by destruct (Z.leb_spec (a * 10 + d) usize_max); [|lia].
Qed.

#[local] Opaque push_digit digit_char.

Lemma digits_parse (fuel : nat) (n : Z) : 0 <= n <= usize_max -> n < 10 ^ Z.of_nat fuel ->
  foldl push_digit (Some 0) (digit_char <$> digits fuel n) = Some n.
Proof.
  revert n; induction fuel as [|fuel IH]; intros n Hn Hf.
  { change (10 ^ Z.of_nat 0) with 1 in Hf. assert (n = 0) as -> by lia. done. }
  rewrite Nat2Z.inj_succ, Z.pow_succ_r in Hf by lia. simpl.
  destruct (Z.ltb_spec n 10).
  - simpl. apply push_digit_char; lia.
  - rewrite fmap_app, foldl_app, IH.
    + simpl. pose proof (Z.div_mod n 10). assert (0 <= n mod 10 < 10) by (apply Z.mod_pos_bound; lia).
      apply push_digit_char; lia.
    + split; [apply Z.div_pos; lia|]. etrans; [|apply Hn]. apply Z.div_le_upper_bound; lia.
    + apply Z.div_lt_upper_bound; lia.
Qed.

Lemma digits_cons (fuel : nat) (n : Z) : 0 <= n ->
  exists d ds, digits (S fuel) n = d :: ds /\ 0 <= d < 10.
Proof.
  revert n; induction fuel as [|fuel IH]; intros n Hn; simpl.
  - destruct (Z.ltb_spec n 10); [by exists n, []; split; [|lia]|].
    exists (n mod 10), []. split; [done|]. apply Z.mod_pos_bound. lia.
  - destruct (Z.ltb_spec n 10); [by exists n, []; split; [|lia]|].
    destruct (IH (n / 10)) as (d & ds & Hd & Hr); [apply Z.div_pos; lia|].
    simpl in Hd. rewrite Hd. by exists d, (ds ++ [n mod 10]).
Qed.

Lemma digit_char_not_plus (d : Z) : 0 <= d < 10 -> Ascii.eqb (digit_char d) plus_char = false.
Proof.
  intros Hd. assert (d ∈ seqZ 0 10) as Hin by (apply elem_of_seqZ; lia).
  revert Hin. rewrite list_elem_of_In. simpl.
  repeat (intros [<-|Hin]; [reflexivity|revert Hin]). done.
Qed.

Lemma usize_from_to_string (n : Z) : is_usize n -> usize_from_str (usize_to_string n) = Some n.
Proof.
  intros Hn. unfold usize_from_str, usize_to_string, is_usize in *.
  rewrite String.list_ascii_of_string_of_list_ascii.
  destruct (digits_cons 19 n) as (d & ds & Hd & Hr); [lia|].
  pose proof (digits_parse 20 n Hn) as Hp. rewrite Hd in *. rewrite fmap_cons in *.
  rewrite digit_char_not_plus by done. apply Hp.
  change (10 ^ Z.of_nat 20) with 100000000000000000000. unfold usize_max in Hn. lia.
Qed.

(** ** Hash maps *)

(** The order in which a hash map is iterated. *)
Class HashOrder := { hash_order : forall A : Type, list A -> list A }.
Class HashOrderLaws `{HashOrder} := {
  hash_order_perm : forall (A : Type) (l : list A), hash_order A l ≡ₚ l
}.

(** ** Filters and sorting *)

Lemma existsb_false {A : Type} (p : A -> bool) (l : list A) :
  existsb p l = false <-> forall x, x ∈ l -> p x = false.
Proof.
  split.
  - intros He x Hx%list_elem_of_In. destruct (p x) eqn:Hp; [|done].
    assert (existsb p l = true) by (apply List.existsb_exists; eauto). congruence.
  - intros Hall. apply not_true_iff_false. intros (x & Hx & Hp)%List.existsb_exists.
    rewrite Hall in Hp; [done|]. by apply list_elem_of_In.
Qed.

Lemma existsb_elem {A : Type} (p : A -> bool) (l : list A) :
  existsb p l = true <-> exists x, x ∈ l /\ p x = true.
Proof. rewrite List.existsb_exists. split; intros (x & Hx & Hp); exists x; split; [by apply list_elem_of_In|done|by apply list_elem_of_In|done]. Qed.

Lemma filter_none {A : Type} (p : A -> bool) (l : list A) : (forall x, x ∈ l -> p x = false) -> List.filter p l = [].
Proof.
  induction l as [|x l IH]; intros Hp; [done|]. cbn [List.filter]. rewrite (Hp x ltac:(left)).
  apply IH. intros y Hy. apply Hp. by right.
Qed.

Lemma filter_all {A : Type} (p : A -> bool) (l : list A) : (forall x, x ∈ l -> p x = true) -> List.filter p l = l.
Proof.
  induction l as [|x l IH]; intros Hp; [done|]. cbn [List.filter]. rewrite (Hp x ltac:(left)). f_equal.
  apply IH. intros y Hy. apply Hp. by right.
Qed.

(** [sorted_by], [ORDER BY]: a stable sort. *)
Fixpoint insert_by {A : Type} (le : A -> A -> bool) (x : A) (l : list A) : list A :=
  match l with
  | [] => [x]
  | y :: l => if le x y then x :: y :: l else y :: insert_by le x l
  end.
Definition sort_by {A : Type} (le : A -> A -> bool) (l : list A) : list A := foldr (insert_by le) [] l.

Lemma insert_by_perm {A : Type} (le : A -> A -> bool) (x : A) (l : list A) : insert_by le x l ≡ₚ x :: l.
Proof.
  induction l as [|y l IH]; [done|]. cbn [insert_by]. destruct (le x y); [done|]. rewrite IH. apply Permutation_swap.
Qed.

Lemma sort_by_perm {A : Type} (le : A -> A -> bool) (l : list A) : sort_by le l ≡ₚ l.
Proof. unfold sort_by. induction l as [|x l IH]; [done|]. cbn [foldr]. by rewrite insert_by_perm, IH. Qed.

Lemma sort_by_sorted {A : Type} (le : A -> A -> bool) (l : list A) :
  (forall i a b, l !! i = Some a -> l !! S i = Some b -> le a b = true) -> sort_by le l = l.
Proof.
  unfold sort_by. induction l as [|x l IH]; intros Hl; [done|]. cbn [foldr]. rewrite IH; [|intros i; apply (Hl (S i))].
  destruct l as [|y l]; [done|]. cbn [insert_by]. by rewrite (Hl O x y).
Qed.

Lemma elem_of_filter_bool {A : Type} (p : A -> bool) (l : list A) (x : A) :
  x ∈ List.filter p l <-> p x = true /\ x ∈ l.
Proof. rewrite !list_elem_of_In, List.filter_In. tauto. Qed.

Lemma NoDup_filter_fmap {A B : Type} (f : A -> B) (p : A -> bool) (l : list A) :
  NoDup (f <$> l) -> NoDup (f <$> List.filter p l).
Proof.
  induction l as [|x l IH]; [done|]. rewrite fmap_cons. intros [Hx Hl]%NoDup_cons. simpl.
  destruct (p x); [|auto]. rewrite fmap_cons. apply NoDup_cons. split; [|auto].
  intros (y & Hy & [_ Hin]%elem_of_filter_bool)%list_elem_of_fmap. apply Hx.
  rewrite Hy. by apply list_elem_of_fmap_2.
Qed.

Lemma NoDup_fmap_inj_elem {A B : Type} (f : A -> B) (l : list A) (x y : A) :
  NoDup (f <$> l) -> x ∈ l -> y ∈ l -> f x = f y -> x = y.
Proof.
  intros Hnd [i Hi]%list_elem_of_lookup [j Hj]%list_elem_of_lookup Hf.
  assert (i = j) as ->; [|congruence].
  eapply NoDup_lookup; [exact Hnd| |]; rewrite list_lookup_fmap; [by rewrite Hi|by rewrite Hj, Hf].
Qed.

(** ** Outcomes of stateful code

    [wp m s Q]: the result of [m] on [s] and the store it leaves satisfy [Q]. *)
Definition wp {S E A : Type} (m : M S E A) (s : S) (Q : res E A -> S -> Prop) : Prop :=
  let '(r, s') := m s in Q r s'.

Section wp.
Context {S E : Type}.
Implicit Types (s : S).

Lemma wp_mono {A : Type} (m : M S E A) s (P Q : res E A -> S -> Prop) :
  wp m s P -> (forall r s', P r s' -> Q r s') -> wp m s Q.
Proof. unfold wp. destruct (m s). auto. Qed.

Lemma wp_bind {A B : Type} (m : M S E A) (k : A -> M S E B) s (Q : res E B -> S -> Prop) :
  wp m s (fun r s' => match r with Ok a => wp (k a) s' Q | Err e => Q (Err e) s' | Panic => Q Panic s' end) ->
  wp (mbind k m) s Q.
Proof. unfold wp, mbind, M_bind. destruct (m s) as [[] ?]; done. Qed.

Lemma wp_run {A B : Type} (m : M S E A) (k : A -> M S E B) s s' (a : A) (Q : res E B -> S -> Prop) :
  m s = (Ok a, s') -> wp (k a) s' Q -> wp (mbind k m) s Q.
Proof. intros Hm Hk. apply wp_bind. unfold wp at 1. by rewrite Hm. Qed.

Lemma wp_lift {A B : Type} (m : res E A) (k : A -> M S E B) s (Q : res E B -> S -> Prop) :
  m <> Panic -> (forall e, m = Err e -> Q (Err e) s) -> (forall a, m = Ok a -> wp (k a) s Q) -> wp (mbind k (lift m)) s Q.
Proof. intros Hp He Hk. apply wp_bind. unfold wp at 1, lift. destruct m; auto. done. Qed.

Lemma wp_map_err {F A : Type} (f : F -> E) (m : M S F A) s (Q : res E A -> S -> Prop) :
  wp m s (fun r s' => Q (map_err f r) s') -> wp (M_map_err f m) s Q.
Proof. unfold wp, M_map_err. by destruct (m s). Qed.

Lemma wp_transaction {A : Type} (m : M S E A) s (Q : res E A -> S -> Prop) :
  wp m s (fun r s' => Q r (if is_ok r then s' else s)) -> wp (transaction m) s Q.
Proof. unfold wp, transaction. by destruct (m s) as [[] ?]. Qed.

Lemma wp_intro {A : Type} (m : M S E A) s (Q : res E A -> S -> Prop) r s' : m s = (r, s') -> wp m s Q -> Q r s'.
Proof. unfold wp. by intros ->. Qed.
End wp.
