(* ===== verification/Apdu.v ===== *)
(** * APDU encoding and the selected ISO 7816-4 commands

    Models [lib/one-core/src/proto/nfc/apdu.rs] (the wire format of command
    and response APDUs) and [lib/one-core/src/proto/nfc/command.rs] (the three
    commands the NFC engagement understands). Bytes are [Z]s in [is_u8]; the
    Rust types' ranges are the predicates [wf_Command], [wf_Response] and
    [wf_KnownCommand]. The errors name the places that [bail!]. *)

From S2P Require Import Prelude.
#[local] Open Scope Z_scope.

Inductive ApduError :=
| InvalidApduCommand
| IndexOutOfBounds
| InvalidLeLength (length : Z)
| LcTooLarge
| TooLargeExpectedLength (le : Z)
| InvalidResponse
| OffsetOutOfBounds (offset : Z)
| MissingApplicationId
| InvalidFileId
| UnsupportedEfIdentifier
| MissingLength.

(** ** Command and response APDUs *)

Record Command := mkCommand {
  cla : Z; ins : Z; p1 : Z; p2 : Z; payload : list Z; le : Z
}.

(** The closure [to_u16] of the decoder. *)
Definition to_u16 (encoded : list Z) (index : Z) : res ApduError Z :=
  _ ← fail_if (len encoded <? index + 2) IndexOutOfBounds;
  bytes ← ok_or (get_range encoded index (index + 2)) InvalidApduCommand;
  match bytes with
  | [hi; lo] => Ok (from_be_bytes hi lo)
  | _ => Err InvalidApduCommand
  end.

(** The expected-length field, the [le_len] bytes at the end of the command. *)
Definition decode_le (encoded : list Z) (le_len : Z) : res ApduError Z :=
  if le_len =? 0 then Ok 0
  else if le_len =? 1 then
    enc_le ← ok_or (last encoded) InvalidApduCommand;
    Ok (if enc_le =? 0 then 0x100 else enc_le)
  else if (le_len =? 2) || (le_len =? 3) then
    enc_le ← to_u16 encoded (len encoded - 2);
    Ok (if enc_le =? 0 then 0x10000 else enc_le)
  else Err (InvalidLeLength le_len).

(** [impl TryFrom<Vec<u8>> for Command]. *)
Definition decode_command (encoded : list Z) : res ApduError Command :=
  _ ← fail_if (len encoded <? 4) InvalidApduCommand;
  c ← ok_or (get_at encoded 0) InvalidApduCommand;
  i ← ok_or (get_at encoded 1) InvalidApduCommand;
  a ← ok_or (get_at encoded 2) InvalidApduCommand;
  b ← ok_or (get_at encoded 3) InvalidApduCommand;
  '(pl, l) ←
    (if len encoded =? 5 then
       enc_le ← ok_or (get_at encoded 4) InvalidApduCommand;
       Ok ([], if enc_le =? 0 then 0x100 else enc_le)
     else if 5 <? len encoded then
       lc0 ← ok_or (get_at encoded 4) InvalidApduCommand;
       '(lc, lc_ends_at) ←
         (if lc0 =? 0 then v ← to_u16 encoded 5; Ok (v, 7) else Ok (lc0, 5));
       '(pl, lc, lc_ends_at) ←
         (if (0 <? lc) && (lc_ends_at + lc <=? len encoded) then
            pl ← ok_or (get_range encoded lc_ends_at (lc_ends_at + lc)) InvalidApduCommand;
            Ok (pl, lc, lc_ends_at)
          else Ok ([], 0, 4));
       l ← decode_le encoded (len encoded - lc_ends_at - lc);
       Ok (pl, l)
     else Ok ([], 0));
  Ok (mkCommand c i a b pl l).

(** [impl TryFrom<Command> for Vec<u8>]. *)
Definition encode_command (c : Command) : res ApduError (list Z) :=
  let extended_length := (0xFF <? len (payload c)) || (0x100 <? le c) in
  let has_payload := negb (len (payload c) =? 0) in
  body ←
    (if has_payload then
       _ ← fail_if (0xFFFF <? len (payload c)) LcTooLarge;
       let lc := len (payload c) in
       Ok ((if extended_length then [0x00; as_u8 (Z.shiftr lc 8); as_u8 lc]
            else [as_u8 lc]) ++ payload c)
     else Ok []);
  tail ←
    (if 0 <? le c then
       _ ← fail_if (0x10000 <? le c) (TooLargeExpectedLength (le c));
       if extended_length then
         Ok ((if negb has_payload then [0x00] else []) ++
             [as_u8 (Z.shiftr (le c) 8); as_u8 (le c)])
       else Ok [as_u8 (le c)]
     else Ok []);
  Ok ([cla c; ins c; p1 c; p2 c] ++ body ++ tail).

Record Response := mkResponse { r_payload : list Z; sw1 : Z; sw2 : Z }.

(** [Response::is_success]. *)
Definition is_success (r : Response) : bool :=
  ((sw1 r =? 0x90) && (sw2 r =? 0x00)) || (sw1 r =? 0x61).

(** [impl From<Response> for Vec<u8>]. *)
Definition encode_response (r : Response) : list Z := r_payload r ++ [sw1 r; sw2 r].

(** [impl TryFrom<Vec<u8>> for Response]: the last two bytes are the status word. *)
Definition decode_response (encoded : list Z) : res ApduError Response :=
  let length := len encoded in
  _ ← fail_if (length <? 2) InvalidResponse;
  let tail := drop (Z.to_nat (length - 2)) encoded in
  s1 ← ok_or (head tail) InvalidResponse;
  s2 ← ok_or (get_at tail 1) InvalidResponse;
  Ok (mkResponse (take (Z.to_nat (length - 2)) encoded) s1 s2).

(** [impl From<[u8; 2]> for Response]. *)
Definition response_of_status (status : Z * Z) : Response :=
  mkResponse [] status.1 status.2.

(** ** Known commands *)

Inductive KnownCommand :=
| SelectApplication (application_id : list Z)
| SelectFile (file_id : Z * Z)
| ReadBinary (offset length : Z)
| Other (c : Command).

Definition CLA_DEFAULT : Z := 0x00.
Definition INS_SELECT : Z := 0xa4.
Definition INS_READ_BINARY : Z := 0xb0.
Definition PARAMS_SELECT_APPLICATION : Z * Z := (0x04, 0x00).
Definition PARAMS_SELECT_FILE : Z * Z := (0x00, 0x0c).

(** [impl TryFrom<KnownCommand> for Command]. *)
Definition command_of_known (k : KnownCommand) : res ApduError Command :=
  match k with
  | SelectApplication application_id =>
      Ok (mkCommand CLA_DEFAULT INS_SELECT PARAMS_SELECT_APPLICATION.1
            PARAMS_SELECT_APPLICATION.2 application_id 0)
  | SelectFile file_id =>
      Ok (mkCommand CLA_DEFAULT INS_SELECT PARAMS_SELECT_FILE.1
            PARAMS_SELECT_FILE.2 [file_id.1; file_id.2] 0)
  | ReadBinary offset length =>
      _ ← fail_if (0x7FFF <? offset) (OffsetOutOfBounds offset);
      Ok (mkCommand CLA_DEFAULT INS_READ_BINARY (Z.shiftr offset 8) (Z.land offset 255)
            [] length)
  | Other c => Ok c
  end.

(** [impl TryFrom<Command> for KnownCommand]. *)
Definition known_of_command (c : Command) : res ApduError KnownCommand :=
  if (cla c =? CLA_DEFAULT) && (ins c =? INS_SELECT) &&
     (p1 c =? PARAMS_SELECT_APPLICATION.1) && (p2 c =? PARAMS_SELECT_APPLICATION.2) then
    _ ← fail_if (len (payload c) =? 0) MissingApplicationId;
    Ok (SelectApplication (payload c))
  else if (cla c =? CLA_DEFAULT) && (ins c =? INS_SELECT) &&
          (p1 c =? PARAMS_SELECT_FILE.1) && (p2 c =? PARAMS_SELECT_FILE.2) then
    match payload c with
    | [a; b] => Ok (SelectFile (a, b))
    | _ => Err InvalidFileId
    end
  else if (cla c =? CLA_DEFAULT) && (ins c =? INS_READ_BINARY) then
    let offset := from_be_bytes (p1 c) (p2 c) in
    _ ← fail_if (0x7FFF <? offset) UnsupportedEfIdentifier;
    _ ← fail_if (le c =? 0) MissingLength;
    Ok (ReadBinary offset (le c))
  else Ok (Other c).

(** [impl TryFrom<KnownCommand> for Vec<u8>] and back. *)
Definition encode_known (k : KnownCommand) : res ApduError (list Z) :=
  c ← command_of_known k; encode_command c.
Definition decode_known (encoded : list Z) : res ApduError KnownCommand :=
  c ← decode_command encoded; known_of_command c.

(** ** Well-formed values: the ranges of the Rust types and of the wire format *)

Definition wf_header (c : Command) : Prop :=
  is_u8 (cla c) /\ is_u8 (ins c) /\ is_u8 (p1 c) /\ is_u8 (p2 c).
Definition wf_Command (c : Command) : Prop :=
  wf_header c /\ Forall is_u8 (payload c) /\ len (payload c) <= 0xFFFF /\
  0 <= le c <= 0x10000.

(** A command that [known_of_command] maps to [Other]. *)
Definition unknown_command (c : Command) : Prop :=
  cla c <> CLA_DEFAULT \/
  (ins c <> INS_READ_BINARY /\
   (ins c <> INS_SELECT \/
    ((p1 c, p2 c) <> PARAMS_SELECT_APPLICATION /\ (p1 c, p2 c) <> PARAMS_SELECT_FILE))).

Definition wf_KnownCommand (k : KnownCommand) : Prop :=
  match k with
  | SelectApplication a => a <> [] /\ Forall is_u8 a /\ len a <= 0xFFFF
  | SelectFile f => is_u8 f.1 /\ is_u8 f.2
  | ReadBinary offset length => 0 <= offset <= 0x7FFF /\ 1 <= length <= 0x10000
  | Other c => wf_Command c /\ unknown_command c
  end.

(** ** Decoding what was encoded *)

Lemma to_u16_at (l1 l2 : list Z) (hi lo i : Z) :
  i = len l1 -> to_u16 (l1 ++ [hi; lo] ++ l2) i = Ok (from_be_bytes hi lo).
Proof.
  intros ->. unfold to_u16. len_simp. pose proof (len_nonneg l2).
  destruct (_ <? _) eqn:E; [lia|]. simpl.
  rewrite (get_range_app l1 [hi; lo] l2); by len_simp.
Qed.

Lemma shiftr8 (z : Z) : Z.shiftr z 8 = z / 256.
Proof. by rewrite Z.shiftr_div_pow2 by lia. Qed.

Lemma u16_bytes (z : Z) : 0 <= z < 65536 ->
  as_u8 (Z.shiftr z 8) = z / 256 /\ as_u8 z = z mod 256 /\ is_u8 (z / 256) /\
  is_u8 (z mod 256) /\ from_be_bytes (z / 256) (z mod 256) = z.
Proof.
  intros Hz. destruct (to_be_bytes_spec z Hz) as (_ & Hhi & Hlo).
  rewrite shiftr8. unfold as_u8. rewrite (Z.mod_small (z / 256)) by exact Hhi.
  split_and!; try done. by apply from_to_be_bytes.
Qed.

Lemma decode_le_0 (encoded : list Z) : decode_le encoded 0 = Ok 0.
Proof. done. Qed.

Lemma decode_le_1 (l encoded : list Z) (le : Z) :
  1 <= le <= 0x100 -> encoded = l ++ [as_u8 le] -> decode_le encoded 1 = Ok le.
Proof.
  intros H ->. unfold decode_le. simpl. rewrite last_snoc. simpl. unfold as_u8.
  destruct (decide (le = 256)) as [->|]; [done|].
  rewrite Z.mod_small by lia. by destruct (Z.eqb_spec le 0); [lia|].
Qed.

Lemma decode_le_2 (l encoded : list Z) (le le_len : Z) :
  le_len = 2 \/ le_len = 3 -> 1 <= le <= 0x10000 ->
  encoded = l ++ [as_u8 (Z.shiftr le 8); as_u8 le] -> decode_le encoded le_len = Ok le.
Proof.
  intros Hn Hle ->. unfold decode_le.
  destruct (Z.eqb_spec le_len 0), (Z.eqb_spec le_len 1); try lia; [].
  replace ((le_len =? 2) || (le_len =? 3)) with true by lia.
  rewrite <- (app_nil_r [_; _]), to_u16_at by (len_simp; lia). simpl.
  destruct (decide (le = 65536)) as [->|]; [done|].
  destruct (u16_bytes le) as (-> & -> & _ & _ & ->); [lia|].
  by destruct (Z.eqb_spec le 0); [lia|].
Qed.

#[local] Arguments decode_le : simpl never.
#[local] Arguments to_u16 : simpl never.

(** The three shapes of an encoded command that carries more than a header. *)
Lemma decode_short (c i a b : Z) (pl tail : list Z) : 1 <= len pl <= 255 ->
  decode_command (c :: i :: a :: b :: len pl :: pl ++ tail) =
  (l ← decode_le (c :: i :: a :: b :: len pl :: pl ++ tail) (len tail);
   Ok (mkCommand c i a b pl l)).
Proof.
  intros Hpl. pose proof (len_nonneg tail) as Ht. unfold decode_command.
  remember (c :: i :: a :: b :: len pl :: pl ++ tail) as enc eqn:Henc.
  assert (Hlen : len enc = 5 + len pl + len tail) by (subst; len_simp; lia).
  rewrite Hlen.
  destruct (Z.ltb_spec (5 + len pl + len tail) 4); [lia|].
  destruct (Z.eqb_spec (5 + len pl + len tail) 5); [lia|].
  destruct (Z.ltb_spec 5 (5 + len pl + len tail)); [|lia].
  replace (get_at enc 0) with (Some c) by by subst.
  replace (get_at enc 1) with (Some i) by by subst.
  replace (get_at enc 2) with (Some a) by by subst.
  replace (get_at enc 3) with (Some b) by by subst.
  replace (get_at enc 4) with (Some (len pl)) by by subst. simpl.
  destruct (Z.eqb_spec (len pl) 0); [lia|]. simpl.
  destruct (_ && _) eqn:E; [|lia].
  replace (get_range enc 5 (5 + len pl)) with (Some pl).
  2: { subst. symmetry. by apply (get_range_app [c; i; a; b; len pl] pl tail). }
  simpl. replace (_ - 5 - len pl) with (len tail) by lia.
  by destruct (decode_le enc (len tail)).
Qed.

Lemma decode_extended (c i a b hi lo : Z) (pl tail : list Z) :
  1 <= len pl -> from_be_bytes hi lo = len pl ->
  decode_command (c :: i :: a :: b :: 0 :: hi :: lo :: pl ++ tail) =
  (l ← decode_le (c :: i :: a :: b :: 0 :: hi :: lo :: pl ++ tail) (len tail);
   Ok (mkCommand c i a b pl l)).
Proof.
  intros Hpl Hlc. pose proof (len_nonneg tail) as Ht. unfold decode_command.
  remember (c :: i :: a :: b :: 0 :: hi :: lo :: pl ++ tail) as enc eqn:Henc.
  assert (Hlen : len enc = 7 + len pl + len tail) by (subst; len_simp; lia).
  rewrite Hlen.
  destruct (Z.ltb_spec (7 + len pl + len tail) 4); [lia|].
  destruct (Z.eqb_spec (7 + len pl + len tail) 5); [lia|].
  destruct (Z.ltb_spec 5 (7 + len pl + len tail)); [|lia].
  replace (get_at enc 0) with (Some c) by by subst.
  replace (get_at enc 1) with (Some i) by by subst.
  replace (get_at enc 2) with (Some a) by by subst.
  replace (get_at enc 3) with (Some b) by by subst.
  replace (get_at enc 4) with (Some 0) by by subst. simpl.
  replace (to_u16 enc 5) with (Ok (E := ApduError) (len pl)).
  2: { subst enc. rewrite <- Hlc. symmetry. by apply (to_u16_at [c; i; a; b; 0]). }
  simpl. destruct (_ && _) eqn:E; [|lia].
  replace (get_range enc 7 (7 + len pl)) with (Some pl).
  2: { subst enc. symmetry. by apply (get_range_app [c; i; a; b; 0; hi; lo] pl tail). }
  simpl. replace (_ - 7 - len pl) with (len tail) by lia.
  by destruct (decode_le enc (len tail)).
Qed.

Lemma decode_extended_le (c i a b hi lo : Z) :
  decode_command [c; i; a; b; 0; hi; lo] =
  (l ← decode_le [c; i; a; b; 0; hi; lo] 3; Ok (mkCommand c i a b [] l)).
Proof.
  unfold decode_command.
  replace (to_u16 [c; i; a; b; 0; hi; lo] 5) with (Ok (E := ApduError) (from_be_bytes hi lo))
    by (symmetry; by apply (to_u16_at [c; i; a; b; 0] [])).
  change (len [c; i; a; b; 0; hi; lo]) with 7. simpl.
  destruct (_ && _) eqn:E; [lia|]. reflexivity.
Qed.

Lemma encode_command_ok (c : Command) : wf_Command c ->
  exists bytes, encode_command c = Ok bytes /\ decode_command bytes = Ok c.
Proof.
  intros (_ & _ & Hpl & Hle). destruct c as [c i a b pl l]. unfold encode_command.
  simpl in *. pose proof (len_nonneg pl).
  destruct (Z.ltb_spec 65535 (len pl)); [lia|].
  destruct (Z.ltb_spec 65536 l); [lia|].
  destruct (Z.eqb_spec (len pl) 0) as [Hnil|]; simpl.
  - apply len_0 in Hnil as ->. change (len (@nil Z)) with 0. simpl.
    destruct (Z.ltb_spec 0 l); simpl.
    + destruct (Z.ltb_spec 256 l); simpl; eexists; (split; [done|]).
      * rewrite decode_extended_le.
        by rewrite (decode_le_2 [c; i; a; b; 0] _ l) by (done || lia).
      * unfold decode_command. simpl. unfold len, as_u8. simpl.
        destruct (decide (l = 256)) as [->|]; [done|].
        rewrite Z.mod_small by lia. by destruct (Z.eqb_spec l 0); [lia|].
    + eexists. split; [done|]. replace l with 0 by lia. done.
  - destruct (u16_bytes (len pl)) as (E1 & E2 & _ & _ & E3); [lia|].
    destruct ((255 <? len pl) || (256 <? l)) eqn:Hext; simpl.
    + rewrite E1, E2. destruct (Z.ltb_spec 0 l); simpl; eexists; (split; [done|]);
        rewrite decode_extended by (done || lia); len_simp.
      * by rewrite (decode_le_2 (c :: i :: a :: b :: 0 :: _ :: _ :: pl) _ l)
          by (done || lia).
      * replace l with 0 by lia. done.
    + replace (as_u8 (len pl)) with (len pl) by (unfold as_u8; rewrite Z.mod_small; lia).
      destruct (Z.ltb_spec 0 l); simpl; eexists; (split; [done|]);
        rewrite decode_short by lia; len_simp.
      * by rewrite (decode_le_1 (c :: i :: a :: b :: _ :: pl) _ l) by (done || lia).
      * replace l with 0 by lia. done.
Qed.

(** ** Encoding stays in the byte range, decoding stays in the wire ranges *)

Lemma as_u8_range (z : Z) : is_u8 (as_u8 z).
Proof. unfold as_u8, is_u8. apply Z.mod_pos_bound. lia. Qed.
#[local] Hint Resolve as_u8_range : core_db.

Lemma u8_0 : is_u8 0.
Proof. unfold is_u8. lia. Qed.
#[local] Hint Resolve u8_0 : core_db.

#[local] Ltac forall_bytes :=
  simpl; repeat first [apply Forall_nil_2 | apply Forall_cons_2]; auto with core_db.

Lemma encode_command_bytes (c : Command) (bytes : list Z) :
  wf_header c -> Forall is_u8 (payload c) -> encode_command c = Ok bytes ->
  Forall is_u8 bytes.
Proof.
  intros (H1 & H2 & H3 & H4) Hpl. unfold encode_command.
  intros (body & Hb & (tail & Ht & [= <-])%res_bind_ok)%res_bind_ok.
  assert (Forall is_u8 body).
  { destruct (negb _); [|by injection Hb as <-].
    apply res_bind_ok in Hb as (_ & _ & [= <-]).
    apply Forall_app; split; [destruct (_ || _); forall_bytes | done]. }
  assert (Forall is_u8 tail).
  { destruct (0 <? le c); [|by injection Ht as <-].
    apply res_bind_ok in Ht as (_ & _ & Ht).
    destruct (_ || _); injection Ht as <-; [apply Forall_app; split|]; forall_bytes.
    destruct (negb _); forall_bytes. }
  simpl. forall_bytes. by apply Forall_app.
Qed.

Lemma get_at_Forall (P : Z -> Prop) (l : list Z) (i x : Z) :
  Forall P l -> get_at l i = Some x -> P x.
Proof.
  unfold get_at. intros Hl. destruct (i <? 0); [done|]. apply Forall_lookup_1, Hl.
Qed.

Lemma get_range_Forall (P : Z -> Prop) (l r : list Z) (a b : Z) :
  Forall P l -> get_range l a b = Some r -> Forall P r.
Proof.
  unfold get_range. intros Hl. destruct (_ && _); [|done].
  intros [= <-]. by apply Forall_take, Forall_drop.
Qed.

Lemma get_range_len {A : Type} (l r : list A) (a b : Z) :
  get_range l a b = Some r -> len r = b - a.
Proof.
  unfold get_range. destruct (_ && _) eqn:E; [|done]. intros [= <-].
  unfold len in *. rewrite length_take, length_drop. lia.
Qed.

Lemma to_u16_range (encoded : list Z) (i v : Z) :
  Forall is_u8 encoded -> to_u16 encoded i = Ok v -> 0 <= v < 0x10000.
Proof.
  intros Hb. unfold to_u16.
  intros (_ & _ & (bs & Hr%ok_or_ok & Hv)%res_bind_ok)%res_bind_ok.
  apply get_range_Forall with (P := is_u8) in Hr; [|done].
  destruct bs as [|hi [|lo [|]]]; try done. injection Hv as <-.
  apply Forall_cons_1 in Hr as [Hhi [Hlo _]%Forall_cons_1].
  rewrite from_be_bytes_spec by done. unfold is_u8 in *. lia.
Qed.

Lemma decode_le_range (encoded : list Z) (n l : Z) :
  Forall is_u8 encoded -> decode_le encoded n = Ok l -> 0 <= l <= 0x10000.
Proof.
  intros Hb. unfold decode_le.
  destruct (n =? 0); [intros [= <-]; lia|].
  destruct (n =? 1).
  - intros (x & Hx%ok_or_ok & [= <-])%res_bind_ok.
    apply last_Some_elem_of in Hx. rewrite Forall_forall in Hb.
    specialize (Hb _ Hx). unfold is_u8 in Hb. destruct (x =? 0); lia.
  - destruct (_ || _); [|done].
    intros (x & Hx%to_u16_range & [= <-])%res_bind_ok; [|done].
    destruct (x =? 0); lia.
Qed.

(** What every accepted command satisfies. *)
Lemma decode_command_range (encoded : list Z) (c : Command) :
  Forall is_u8 encoded -> decode_command encoded = Ok c -> wf_Command c.
Proof.
  intros Hb. unfold decode_command.
  intros (_ & _ & (c0 & H0%ok_or_ok & Hd)%res_bind_ok)%res_bind_ok.
  apply res_bind_ok in Hd as (c1 & H1%ok_or_ok & Hd).
  apply res_bind_ok in Hd as (c2 & H2%ok_or_ok & Hd).
  apply res_bind_ok in Hd as (c3 & H3%ok_or_ok & Hd).
  apply res_bind_ok in Hd as ([pl l] & Hpl & [= <-]).
  assert (Hh : wf_header (mkCommand c0 c1 c2 c3 pl l))
    by (repeat split; eapply (get_at_Forall is_u8); eauto).
  unfold wf_Command; simpl. split; [exact Hh|]. clear H0 H1 H2 H3 Hh.
  destruct (_ =? 5).
  - apply res_bind_ok in Hpl as (x & Hx%ok_or_ok & [= <- <-]).
    apply (get_at_Forall is_u8) in Hx; [|done]. unfold is_u8 in Hx.
    change (len (@nil Z)) with 0. destruct (x =? 0); split_and!; (done || lia).
  - destruct (5 <? _); [|injection Hpl as <- <-; by split_and!].
    apply res_bind_ok in Hpl as (lc0 & H0%ok_or_ok & Hpl).
    apply (get_at_Forall is_u8) in H0; [|done]. unfold is_u8 in H0.
    apply res_bind_ok in Hpl as ([lc e] & Hlc & Hpl).
    assert (Hlc' : lc <= 0xFFFF).
    { destruct (lc0 =? 0); [|injection Hlc as <- <-; lia].
      apply res_bind_ok in Hlc as (v & Hv%to_u16_range & [= <- <-]); [lia|done]. }
    apply res_bind_ok in Hpl as ([[pl' lc'] e'] & Hp & Hpl).
    apply res_bind_ok in Hpl as (l' & Hl%decode_le_range & [= -> ->]); [|done].
    destruct (_ && _).
    + apply res_bind_ok in Hp as (r & Hr%ok_or_ok & [= <- <- <-]).
      split_and!; try lia.
      * by eapply get_range_Forall.
      * apply get_range_len in Hr. lia.
    + injection Hp as <- <- <-. change (len (@nil Z)) with 0. split_and!; (done || lia).
Qed.

Lemma command_of_known_ok (k : KnownCommand) : wf_KnownCommand k ->
  exists c, command_of_known k = Ok c /\ wf_Command c /\ known_of_command c = Ok k.
Proof.
  destruct k as [a|[f1 f2]|o n|c]; simpl; unfold wf_Command, wf_header.
  - intros (Hne & Hb & Hl). eexists. split; [done|]. simpl. split.
    + repeat split; (done || lia).
    + unfold known_of_command. simpl. destruct (Z.eqb_spec (len a) 0) as [E|]; [|done].
      by apply len_0 in E.
  - intros (H1 & H2). eexists. split; [done|]. simpl. split; [|done].
    split_and!; (done || lia || idtac). forall_bytes.
  - intros (Ho & Hn). destruct (Z.ltb_spec 32767 o); [lia|]. simpl.
    destruct (to_be_bytes_spec o) as ([= E1 E2] & Hhi & Hlo); [unfold is_u16; lia|].
    rewrite E1, E2. eexists. split; [done|]. simpl. split.
    + repeat split; (apply Hhi || apply Hlo || done || lia).
    + unfold known_of_command. simpl. rewrite from_to_be_bytes by (unfold is_u16; lia).
      destruct (Z.ltb_spec 32767 o); [lia|]. by destruct (Z.eqb_spec n 0); [lia|].
  - intros (Hwf & Hu). exists c. split; [done|]. split; [done|].
    unfold known_of_command, unknown_command in *. unfold PARAMS_SELECT_APPLICATION,
      PARAMS_SELECT_FILE in *. simpl in *.
    destruct (Z.eqb_spec (cla c) CLA_DEFAULT); [|done].
    destruct (Z.eqb_spec (ins c) INS_SELECT), (Z.eqb_spec (ins c) INS_READ_BINARY);
      simpl; try done; try tauto.
    destruct (Z.eqb_spec (p1 c) 4), (Z.eqb_spec (p2 c) 0), (Z.eqb_spec (p1 c) 0),
      (Z.eqb_spec (p2 c) 12); simpl; try done; exfalso; intuition congruence.
Qed.

Lemma encode_known_ok (k : KnownCommand) : wf_KnownCommand k ->
  exists bytes, encode_known k = Ok bytes /\ decode_known bytes = Ok k.
Proof.
  intros Hwf. destruct (command_of_known_ok k Hwf) as (c & Hc & Hwf' & Hk).
  destruct (encode_command_ok c Hwf') as (bytes & He & Hd).
  exists bytes. unfold encode_known, decode_known. by rewrite Hc, Hd.
Qed.

Lemma decode_known_read (encoded : list Z) (offset length : Z) :
  Forall is_u8 encoded -> decode_known encoded = Ok (ReadBinary offset length) ->
  0 <= offset <= 0x7FFF /\ 1 <= length <= 0x10000.
Proof.
  intros Hb. unfold decode_known.
  intros (c & Hc%decode_command_range & Hk)%res_bind_ok; [|done].
  destruct Hc as ((_ & _ & H1 & H2) & _ & _ & Hle).
  unfold known_of_command in Hk.
  destruct (_ && _); [by apply res_bind_ok in Hk as (_ & _ & ?)|].
  destruct (_ && _); [by destruct (payload c) as [|? [|? [|]]]|].
  destruct (_ && _); [|done].
  apply res_bind_ok in Hk as (? & Ho & (? & Hl & [= <- <-])%res_bind_ok).
  destruct (Z.ltb_spec 32767 (from_be_bytes (p1 c) (p2 c))); [done|].
  destruct (Z.eqb_spec (le c) 0); [done|].
  rewrite from_be_bytes_spec in * by done. unfold is_u8 in *. lia.
Qed.

(** ** Properties *)

(** a command in the ranges of the wire format is encoded to bytes that decode
    back to the same command, in all four APDU cases (with or without payload, with or
    without expected length) and in both the short and the extended length form. *)
Theorem apdu_command_roundtrip (c : Command) (Hwf : wf_Command c) :
  exists bytes, encode_command c = Ok bytes /\ Forall is_u8 bytes /\
    decode_command bytes = Ok c.
Proof.
  destruct (encode_command_ok c Hwf) as (bytes & He & Hd).
  exists bytes. split_and!; [done| |done].
  destruct Hwf as (Hh & Hp & _). by eapply encode_command_bytes.
Qed.

Definition sample_command : Command := mkCommand 0x00 0xb0 0x01 0xf4 [] 600.

Lemma apdu_command_roundtrip_witness :
  wf_Command sample_command /\
  exists bytes, encode_command sample_command = Ok bytes /\ Forall is_u8 bytes /\
    decode_command bytes = Ok sample_command.
Proof.
  assert (H : wf_Command sample_command)
    by (unfold wf_Command, wf_header, is_u8, sample_command, len; cbn;
        split_and!; (lia || apply Forall_nil_2)).
  split; [exact H|]. exact (apdu_command_roundtrip sample_command H).
Defined.



(** The known commands survive the round trip through their APDU encoding:
    SELECT by application id, SELECT by file id, READ BINARY and any other command. *)
Theorem known_command_roundtrip (k : KnownCommand) (Hwf : wf_KnownCommand k) :
  exists bytes, encode_known k = Ok bytes /\ decode_known bytes = Ok k.
Proof. by apply encode_known_ok. Qed.

Lemma known_command_roundtrip_witness :
  exists bytes, encode_known (ReadBinary 500 600) = Ok bytes /\
    decode_known bytes = Ok (ReadBinary 500 600).
Proof. apply known_command_roundtrip. simpl. lia. Defined.
