(* ===== verification/Handover.v ===== *)
(** * NFC static handover

    Models [lib/one-core/src/proto/nfc/static_handover_handler.rs]: the tag
    emulation through which a reader obtains the engagement message. The
    handler's mutex-protected state is [State]; [poisoned] is the flag of the
    mutex. The [oneshot] channel's two ends are present or taken; the message
    sent over it and the request to stop hosting are outputs of the
    callbacks. *)

From S2P Require Import Prelude Apdu.
#[local] Open Scope Z_scope.

Inductive File := CapabilityContainer | NDEFMessage.
#[export] Instance File_eq_dec : EqDecision File.
Proof. solve_decision. Defined.

Record State := mkState {
  message_read : bool;
  current_file : option File;
  failure_sender : bool;
  failure_receiver : bool
}.

Record NfcStaticHandoverHandler := mkHandler {
  cc_file_content : list Z;
  ndef_file_content : list Z;
  state : State;
  poisoned : bool
}.

Inductive HandoverError :=
| ApduFailed (e : ApduError)
| NoFileSelected
| ReadOutOfBounds (offset length : Z)
| InvalidApduResponse
| UnknownCommand (c : Command)
| NdefTooLarge (length : Z)
| LockFailed.

Definition RESPONSE_STATUS_SUCCESS : Z * Z := (0x90, 0x00).
Definition RESPONSE_STATUS_ERROR_FILE_OR_APPLICATION_NOT_FOUND : Z * Z := (0x6a, 0x82).
Definition RESPONSE_STATUS_ERROR_NO_PRECISE_DIAGNOSIS : Z * Z := (0x6f, 0x00).
Definition ENGAGEMENT_APPLICATION_ID : list Z := [0xd2; 0x76; 0x00; 0x00; 0x85; 0x01; 0x01].
Definition CAPABILITY_CONTAINER_FILE_ID : Z * Z := (0xe1, 0x03).
Definition NDEF_FILE_ID : Z * Z := (0xe1, 0x04).
Definition MAX_C_APDU : Z := 255.
Definition MAX_R_APDU : Z := 256.
Definition MAX_NDEF_SIZE : Z := 0xFFFE.

Definition capability_container_content : list Z :=
  [0x00; 0x0f; 0x20] ++ to_be_bytes MAX_R_APDU ++ to_be_bytes MAX_C_APDU ++
  [0x04; 0x06] ++ [NDEF_FILE_ID.1; NDEF_FILE_ID.2] ++ to_be_bytes MAX_NDEF_SIZE ++
  [0x00; 0xFF].

(** [NfcStaticHandoverHandler::new]. *)
Definition new (ndef : list Z) : res HandoverError NfcStaticHandoverHandler :=
  let ndef_length := len ndef in
  _ ← fail_if (0xFFFF <? ndef_length) (NdefTooLarge ndef_length);
  let l := as_u16 ndef_length in
  Ok (mkHandler capability_container_content (to_be_bytes l ++ ndef)
        (mkState false None true true) false).

(** [NfcStaticHandoverHandler::message_read]. *)
Definition get_message_read (h : NfcStaticHandoverHandler) : res HandoverError bool :=
  _ ← fail_if (poisoned h) LockFailed; Ok (message_read (state h)).

(** [with_lock]: the writes of a failing closure stay, its value is the fallback. *)
Definition with_lock {R : Type} (f : M State HandoverError R) (fallback : R)
  (h : NfcStaticHandoverHandler) : R * NfcStaticHandoverHandler :=
  if poisoned h then (fallback, h)
  else match f (state h) with
       | (Ok r, s) =>
           (r, mkHandler (cc_file_content h) (ndef_file_content h) s (poisoned h))
       | (_, s) =>
           (fallback, mkHandler (cc_file_content h) (ndef_file_content h) s (poisoned h))
       end.

Definition set_file (f : option File) : M State HandoverError unit := fun s =>
  (Ok tt, mkState (message_read s) f (failure_sender s) (failure_receiver s)).
Definition set_message_read : M State HandoverError unit := fun s =>
  (Ok tt, mkState true (current_file s) (failure_sender s) (failure_receiver s)).

(** [handle_apdu_command]. *)
Definition handle_apdu_command (command : list Z) (h : NfcStaticHandoverHandler) :
  M State HandoverError Response :=
  known ← lift (map_err ApduFailed (decode_known command));
  match known with
  | SelectApplication application_id =>
      if negb (bool_decide (application_id = ENGAGEMENT_APPLICATION_ID)) then
        mret (response_of_status RESPONSE_STATUS_ERROR_FILE_OR_APPLICATION_NOT_FOUND)
      else
        _ ← set_file None;
        mret (response_of_status RESPONSE_STATUS_SUCCESS)
  | SelectFile file_id =>
      if bool_decide (file_id = CAPABILITY_CONTAINER_FILE_ID) then
        _ ← set_file (Some CapabilityContainer);
        mret (response_of_status RESPONSE_STATUS_SUCCESS)
      else if bool_decide (file_id = NDEF_FILE_ID) then
        _ ← set_file (Some NDEFMessage);
        mret (response_of_status RESPONSE_STATUS_SUCCESS)
      else
        mret (response_of_status RESPONSE_STATUS_ERROR_FILE_OR_APPLICATION_NOT_FOUND)
  | ReadBinary offset length =>
      s ← get;
      file ← lift (ok_or (current_file s) NoFileSelected);
      let content := match file with
                     | CapabilityContainer => cc_file_content h
                     | NDEFMessage => ndef_file_content h
                     end in
      let end_ := offset + length in
      _ ← lift (fail_if (len content <? end_) (ReadOutOfBounds offset length));
      _ ← (if bool_decide (file = NDEFMessage) && (end_ =? len content)
           then set_message_read else mret tt);
      payload ← lift (ok_or (get_range content offset end_) InvalidApduResponse);
      mret (mkResponse payload RESPONSE_STATUS_SUCCESS.1 RESPONSE_STATUS_SUCCESS.2)
  | Other c => throw (UnknownCommand c)
  end.

(** [NfcHceHandler::handle_command]. *)
Definition handle_command (apdu : list Z) (h : NfcStaticHandoverHandler) :
  list Z * NfcStaticHandoverHandler :=
  with_lock (r ← handle_apdu_command apdu h; mret (encode_response r))
    [RESPONSE_STATUS_ERROR_NO_PRECISE_DIAGNOSIS.1; RESPONSE_STATUS_ERROR_NO_PRECISE_DIAGNOSIS.2] h.

(** [NfcHceHandler::on_scanner_disconnected]; the output says whether
    [hce.stop_hosting(true)] is called. *)
Definition on_scanner_disconnected (h : NfcStaticHandoverHandler) :
  bool * NfcStaticHandoverHandler :=
  with_lock (_ ← set_file None; s ← get; mret (message_read s)) false h.

(** [NfcHceHandler::on_session_stopped]; the output is the reason sent over the
    failure channel, if any. *)
Definition on_session_stopped {R : Type} (reason : R) (h : NfcStaticHandoverHandler) :
  option R * NfcStaticHandoverHandler :=
  with_lock (fun s =>
    if negb (message_read s) && failure_sender s then
      (Ok (Some reason),
        mkState (message_read s) (current_file s) false (failure_receiver s))
    else (Ok None, s)) None h.

(** [session_failure] takes the receiving end once. *)
Definition session_failure (h : NfcStaticHandoverHandler) : bool * NfcStaticHandoverHandler :=
  with_lock (fun s =>
    (Ok (failure_receiver s),
      mkState (message_read s) (current_file s) (failure_sender s) false)) false h.

(** ** A reader's session

    [exchange] is the reader's side: it encodes each command, hands the bytes
    to the handler and decodes the answer. *)
Fixpoint exchange (cmds : list KnownCommand) (h : NfcStaticHandoverHandler) :
  list (res ApduError Response) * NfcStaticHandoverHandler :=
  match cmds with
  | [] => ([], h)
  | k :: cmds =>
      match encode_known k with
      | Ok apdu =>
          let '(answer, h1) := handle_command apdu h in
          let '(rs, h2) := exchange cmds h1 in
          (decode_response answer :: rs, h2)
      | Err e => let '(rs, h2) := exchange cmds h in (Err e :: rs, h2)
      | Panic => let '(rs, h2) := exchange cmds h in (Panic :: rs, h2)
      end
  end.

(** Reads of the given lengths, one after the other from [offset] on. *)
Fixpoint read_commands (offset : Z) (lengths : list Z) : list KnownCommand :=
  match lengths with
  | [] => []
  | n :: ns => ReadBinary offset n :: read_commands (offset + n) ns
  end.

(** Every read starts at an offset that READ BINARY can carry. *)
Fixpoint readable (offset : Z) (lengths : list Z) : Prop :=
  match lengths with
  | [] => True
  | n :: ns => offset <= 0x7FFF /\ 1 <= n <= 0x10000 /\ readable (offset + n) ns
  end.

Definition sum (l : list Z) : Z := foldr Z.add 0 l.

Definition payload_of (r : res ApduError Response) : list Z :=
  match r with Ok r => r_payload r | _ => [] end.
Definition answered (r : res ApduError Response) : bool :=
  match r with Ok r => is_success r | _ => false end.

Definition set_state (h : NfcStaticHandoverHandler) (s : State) : NfcStaticHandoverHandler :=
  mkHandler (cc_file_content h) (ndef_file_content h) s (poisoned h).

Lemma decode_encode_response (payload : list Z) (s1 s2 : Z) :
  decode_response (payload ++ [s1; s2]) = Ok (mkResponse payload s1 s2).
Proof.
  unfold decode_response. rewrite len_app. change (len [s1; s2]) with 2.
  pose proof (len_nonneg payload). destruct (Z.ltb_spec (len payload + 2) 2); [lia|]. simpl.
  replace (Z.to_nat (len payload + 2 - 2)) with (length payload) by (unfold len; lia).
  by rewrite drop_app_length, take_app_length.
Qed.

(** The handler's answer to a read that stays inside the NDEF file. *)
Lemma handle_read_ndef (h : NfcStaticHandoverHandler) (apdu pre chunk post : list Z) :
  poisoned h = false -> current_file (state h) = Some NDEFMessage ->
  ndef_file_content h = pre ++ chunk ++ post ->
  decode_known apdu = Ok (ReadBinary (len pre) (len chunk)) ->
  handle_command apdu h =
    (chunk ++ [0x90; 0x00],
     set_state h (mkState (message_read (state h) || (len post =? 0)) (Some NDEFMessage)
                    (failure_sender (state h)) (failure_receiver (state h)))).
Proof.
  intros Hp Hf Hc Hd. unfold handle_command, with_lock. rewrite Hp.
  destruct h as [cc ndef [mr cf fs fr] po]. simpl in *. subst.
  unfold handle_apdu_command, mbind, M_bind, lift. rewrite Hd. simpl.
  rewrite len_app, len_app. pose proof (len_nonneg post).
  destruct (Z.ltb_spec (len pre + (len chunk + len post)) (len pre + len chunk)); [lia|]. simpl.
  replace (len pre + len chunk =? len pre + (len chunk + len post)) with (len post =? 0) by lia.
  rewrite (get_range_app pre chunk post) by done.
  destruct (len post =? 0); simpl; by rewrite ?orb_true_r, ?orb_false_r.
Qed.

Lemma readable_sum (ns : list Z) : forall (o : Z), readable o ns -> 0 <= sum ns.
Proof.
  induction ns as [|m ns IH]; simpl; [lia|]. intros o (_ & ? & Hr).
  specialize (IH _ Hr). unfold sum in *. simpl. lia.
Qed.

Lemma split_at (post : list Z) (n : Z) : 0 <= n <= len post ->
  exists chunk rest, post = chunk ++ rest /\ len chunk = n.
Proof.
  intros H. exists (take (Z.to_nat n) post), (drop (Z.to_nat n) post).
  rewrite take_drop. split; [done|]. unfold len in *. rewrite length_take. lia.
Qed.

Lemma exchange_reads (ns : list Z) : forall (h : NfcStaticHandoverHandler) (pre post : list Z),
  poisoned h = false -> current_file (state h) = Some NDEFMessage ->
  ndef_file_content h = pre ++ post -> readable (len pre) ns -> sum ns = len post ->
  let '(rs, h') := exchange (read_commands (len pre) ns) h in
  forallb answered rs = true /\ concat (payload_of <$> rs) = post /\
  message_read (state h') = message_read (state h) || negb (bool_decide (ns = [])) /\
  failure_sender (state h') = failure_sender (state h).
Proof.
  induction ns as [|n ns IH]; intros h pre post Hp Hf Hc Hr Hs; simpl in *.
  - symmetry in Hs. apply len_0 in Hs as ->. by rewrite orb_false_r.
  - destruct Hr as (Ho & Hn & Hr). pose proof (readable_sum _ _ Hr) as Hsum.
    assert (Hs' : n + sum ns = len post) by exact Hs. clear Hs.
    destruct (split_at post n) as (chunk & rest & -> & <-); [lia|].
    rewrite len_app in Hs'. pose proof (len_nonneg pre).
    destruct (encode_known_ok (ReadBinary (len pre) (len chunk))) as (apdu & -> & Hd);
      [simpl; lia|].
    rewrite (handle_read_ndef h apdu pre chunk rest) by done.
    set (h1 := set_state h _). rewrite <- len_app in Hr |- *.
    specialize (IH h1 (pre ++ chunk) rest Hp eq_refl).
    rewrite <- (app_assoc pre) in IH. specialize (IH Hc Hr). 
    destruct (exchange (read_commands (len (pre ++ chunk)) ns) h1) as [rs h2].
    destruct IH as (Hans & Hcat & Hmr & Hfs); [lia|].
    rewrite (decode_encode_response chunk 0x90 0x00). split_and!.
    + simpl. by rewrite Hans.
    + rewrite fmap_cons. simpl. f_equal. exact Hcat.
    + rewrite Hmr. simpl. rewrite orb_true_r.
      destruct ns; simpl; [|by rewrite orb_true_r].
      replace (len rest =? 0) with true by (unfold sum in Hs'; simpl in Hs'; lia).
      by rewrite !orb_true_r.
    + by rewrite Hfs.
Qed.

Lemma handle_select (k : KnownCommand) (h : NfcStaticHandoverHandler) (apdu : list Z)
  (f : option File) :
  poisoned h = false -> decode_known apdu = Ok k ->
  (k = SelectApplication ENGAGEMENT_APPLICATION_ID /\ f = None \/
   k = SelectFile NDEF_FILE_ID /\ f = Some NDEFMessage \/
   k = SelectFile CAPABILITY_CONTAINER_FILE_ID /\ f = Some CapabilityContainer) ->
  handle_command apdu h =
    ([0x90; 0x00],
     set_state h (mkState (message_read (state h)) f (failure_sender (state h))
                    (failure_receiver (state h)))).
Proof.
  intros Hp Hd Hk. unfold handle_command, with_lock. rewrite Hp.
  unfold handle_apdu_command, mbind, M_bind, lift. rewrite Hd. simpl.
  unfold set_state. rewrite Hp. by destruct Hk as [[-> ->]|[[-> ->]|[-> ->]]].
Qed.

(** ** Properties *)

(** C37: a reader that selects the NDEF application and file and then reads the file in
    consecutive pieces of any sizes (whose offsets READ BINARY can express) gets a success
    answer to every command, obtains exactly the two-byte length followed by the engagement
    message, and leaves the handler with [message_read] set. *)
Theorem handover_delivers_ndef (ndef : list Z) (ns : list Z) (h : NfcStaticHandoverHandler)
  (Hnew : new ndef = Ok h) (Hr : readable 0 ns) (Hs : sum ns = len ndef + 2) :
  let '(rs, h') :=
    exchange (SelectApplication ENGAGEMENT_APPLICATION_ID :: SelectFile NDEF_FILE_ID ::
              read_commands 0 ns) h in
  forallb answered rs = true /\
  concat (payload_of <$> rs) = to_be_bytes (len ndef) ++ ndef /\
  message_read (state h') = true.
Proof.
  unfold new in Hnew. destruct (Z.ltb_spec 65535 (len ndef)); [done|]. simpl in Hnew.
  injection Hnew as <-. pose proof (len_nonneg ndef).
  replace (as_u16 (len ndef)) with (len ndef) by (unfold as_u16; rewrite Z.mod_small; lia).
  cbn [exchange].
  destruct (encode_known_ok (SelectApplication ENGAGEMENT_APPLICATION_ID))
    as (a1 & -> & Hd1).
  { split_and!; [done| |by vm_compute]. unfold is_u8.
    repeat (apply Forall_cons_2; [lia|]). apply Forall_nil_2. }
  rewrite (handle_select _ _ a1 None) by (done || auto).
  destruct (encode_known_ok (SelectFile NDEF_FILE_ID)) as (a2 & -> & Hd2).
  { simpl. unfold is_u8. lia. }
  rewrite (handle_select _ _ a2 (Some NDEFMessage)) by (done || auto).
  match goal with |- context [exchange _ ?h2] =>
    pose proof (exchange_reads ns h2 [] (to_be_bytes (len ndef) ++ ndef) eq_refl eq_refl
                  eq_refl Hr) as Hreads
  end.
  change (len []) with 0 in Hreads. rewrite len_app in Hreads.
  destruct (exchange (read_commands 0 ns) _) as [rs h'].
  destruct Hreads as (Hans & Hcat & Hmr & _); [change (len (to_be_bytes _)) with 2; lia|].
  change [144; 0] with ([] ++ [144; 0]). rewrite (decode_encode_response []).
  split_and!; [by simpl | by rewrite !fmap_cons | rewrite Hmr].
  destruct ns; [unfold sum in Hs; simpl in Hs; lia | done].
Qed.

Lemma handover_delivers_ndef_witness :
  let '(rs, h') :=
    exchange (SelectApplication ENGAGEMENT_APPLICATION_ID :: SelectFile NDEF_FILE_ID ::
              read_commands 0 [2; 2; 1])
      (mkHandler capability_container_content [0; 3; 7; 8; 9] (mkState false None true true)
         false) in
  forallb answered rs = true /\
  concat (payload_of <$> rs) = to_be_bytes 3 ++ [7; 8; 9] /\
  message_read (state h') = true.
Proof.
  apply (handover_delivers_ndef [7; 8; 9] [2; 2; 1]); [reflexivity | | reflexivity].
  simpl. lia.
Defined.

(** ** The handler as a state machine

    The reader's commands and the platform's callbacks arrive in any order;
    [reach h0 tr h] says that the events [tr] (latest first) lead from [h0]
    to [h]. *)
Inductive event :=
| EvCommand (apdu answer : list Z)
| EvDisconnected (stop_hosting : bool)
| EvStopped (signalled : bool)
| EvFailureTaken (received : bool).

Inductive step (h : NfcStaticHandoverHandler) : event -> NfcStaticHandoverHandler -> Prop :=
| step_command apdu answer h' :
    Forall is_u8 apdu -> handle_command apdu h = (answer, h') ->
    step h (EvCommand apdu answer) h'
| step_disconnected stop h' :
    on_scanner_disconnected h = (stop, h') -> step h (EvDisconnected stop) h'
| step_stopped signalled h' :
    on_session_stopped tt h = (signalled, h') ->
    step h (EvStopped (bool_decide (is_Some signalled))) h'
| step_failure_taken r h' :
    session_failure h = (r, h') -> step h (EvFailureTaken r) h'.

Inductive reach (h0 : NfcStaticHandoverHandler) : list event -> NfcStaticHandoverHandler -> Prop :=
| reach_refl : reach h0 [] h0
| reach_step tr h e h' : reach h0 tr h -> step h e h' -> reach h0 (e :: tr) h'.

(** The event is a READ BINARY that was answered with the last bytes of [file]. *)
Definition completes (file : list Z) (e : event) : Prop :=
  exists apdu offset length chunk,
    e = EvCommand apdu (chunk ++ [0x90; 0x00]) /\
    decode_known apdu = Ok (ReadBinary offset length) /\
    offset + length = len file /\ get_range file offset (len file) = Some chunk.

Definition is_signal (e : event) : bool :=
  match e with EvStopped b => b | _ => false end.

(** What a command can change: the selected file, and [message_read] by completing the read. *)
Lemma handle_command_effect (h h' : NfcStaticHandoverHandler) (apdu answer : list Z) :
  Forall is_u8 apdu -> handle_command apdu h = (answer, h') ->
  exists f mr, h' = set_state h (mkState mr f (failure_sender (state h)) (failure_receiver (state h))) /\
    (mr = message_read (state h) \/
     mr = true /\ completes (ndef_file_content h) (EvCommand apdu answer)).
Proof.
  intros Hu8. unfold handle_command, with_lock.
  destruct h as [cc ndef [mr cf fs fr] po]; simpl. destruct po; [intros [= <- <-]; exists cf, mr; auto|].
  unfold handle_apdu_command, mbind, M_bind, lift, throw, get, mret, M_ret, set_file,
    set_message_read.
  destruct (decode_known apdu) as [k| |] eqn:Hd; simpl; try (intros [= <- <-]; by exists cf, mr; auto).
  destruct k as [a|f|o n|c]; repeat case_bool_decide; simpl;
    try (intros [= <- <-]; (by eexists _, mr; auto)).
  destruct cf as [f|]; simpl; [|intros [= <- <-]; by eexists _, mr; auto].
  destruct (_ <? _) eqn:Hb; simpl; [intros [= <- <-]; by eexists _, mr; auto|].
  destruct f; simpl.
  { destruct (get_range _ _ _); simpl; intros [= <- <-]; by eexists _, mr; auto. }
  destruct (Z.eqb_spec (o + n) (len ndef)) as [Hend|]; simpl.
  2: { destruct (get_range _ _ _); simpl; intros [= <- <-]; by eexists _, mr; auto. }
  rewrite Hend. destruct (get_range ndef o (len ndef)) as [chunk|] eqn:Hg; simpl.
  - intros [= <- <-]. eexists _, true. split; [done|]. right. split; [done|].
    by exists apdu, o, n, chunk.
  - apply decode_known_read in Hd; [|done]. unfold get_range in Hg.
    destruct (_ && _) eqn:E; [done | lia].
Qed.

(** The invariant behind the safety property. *)
Definition handover_inv (h0 : NfcStaticHandoverHandler) (tr : list event)
  (h : NfcStaticHandoverHandler) : Prop :=
  ndef_file_content h = ndef_file_content h0 /\
  (message_read (state h) = true -> Exists (completes (ndef_file_content h0)) tr) /\
  (EvDisconnected true ∈ tr -> Exists (completes (ndef_file_content h0)) tr) /\
  length (filter is_signal tr) = (if failure_sender (state h) then 0 else 1)%nat.

Lemma handover_inv_step (h0 h h' : NfcStaticHandoverHandler) (tr : list event) (e : event) :
  handover_inv h0 tr h -> step h e h' -> handover_inv h0 (e :: tr) h'.
Proof.
  intros (Hc & Hm & Hd & Hs) Hstep. unfold handover_inv. rewrite elem_of_cons.
  setoid_rewrite Exists_cons.
  destruct Hstep as [apdu answer h' Hu8 Heff|stop h' Heff|sig h' Heff|r h' Heff].
  - apply handle_command_effect in Heff as (f & mr & -> & Hmr); [|done]. simpl.
    rewrite Hc in Hmr. split_and!; try done.
    + destruct Hmr as [->|[-> ?]]; auto.
    + intros [?|?]; auto. done.
  - unfold on_scanner_disconnected, with_lock in Heff. destruct (poisoned h).
    + injection Heff as <- <-. split_and!; auto. by intros [?|?]; auto.
    + simpl in Heff. injection Heff as <- <-. simpl.
      split_and!; auto. intros [[= E]|?]; auto.
  - unfold on_session_stopped, with_lock in Heff. destruct (poisoned h).
    + injection Heff as <- <-. split_and!; auto. by intros [?|?]; auto.
    + simpl in Heff. destruct (message_read (state h)) eqn:E1, (failure_sender (state h)) eqn:E2;
        injection Heff as <- <-; simpl; rewrite ?E1, ?E2; split_and!; auto;
        by intros [?|?]; auto.
  - unfold session_failure, with_lock in Heff. destruct (poisoned h).
    + injection Heff as <- <-. split_and!; auto. by intros [?|?]; auto.
    + simpl in Heff. injection Heff as <- <-. simpl. split_and!; auto. by intros [?|?]; auto.
Qed.

(** In every run of the handler, whatever commands and callbacks arrive in whatever
    order, [message_read] is set only after a READ BINARY was answered with the last bytes
    of the engagement message, hosting is stopped only after such a read, and the failure
    channel is used at most once. *)
Theorem handover_safety (ndef : list Z) (h0 h : NfcStaticHandoverHandler) (tr : list event)
  (Hnew : new ndef = Ok h0) (Hreach : reach h0 tr h) :
  (message_read (state h) = true -> Exists (completes (ndef_file_content h0)) tr) /\
  (EvDisconnected true ∈ tr -> Exists (completes (ndef_file_content h0)) tr) /\
  (length (filter is_signal tr) <= 1)%nat.
Proof.
  assert (Hinv : handover_inv h0 tr h).
  { induction Hreach as [|tr h e h' _ IH Hstep]; [|by eapply handover_inv_step].
    unfold new in Hnew. destruct (_ <? _); [done|]. injection Hnew as <-.
    repeat split; simpl; try done. by intros ?%not_elem_of_nil. }
  destruct Hinv as (_ & Hm & Hd & Hs). split_and!; [done|done|].
  rewrite Hs. destruct (failure_sender _); lia.
Qed.

Lemma handover_safety_witness :
  Exists (completes [0; 1; 7])
    [EvCommand [0x00; 0xb0; 0x00; 0x00; 0x03] [0; 1; 7; 0x90; 0x00];
     EvCommand [0x00; 0xa4; 0x00; 0x0c; 0x02; 0xe1; 0x04] [0x90; 0x00]].
Proof.
  pose (h0 := mkHandler capability_container_content [0; 1; 7]
                (mkState false None true true) false).
  pose (h1 := set_state h0 (mkState false (Some NDEFMessage) true true)).
  pose (h2 := set_state h0 (mkState true (Some NDEFMessage) true true)).
  refine (proj1 (handover_safety [7] h0 h2 _ eq_refl _) eq_refl).
  apply (reach_step _ _ h1); [apply (reach_step _ _ h0); [constructor|]|];
    (constructor; [unfold is_u8; repeat (apply Forall_cons_2; [lia|]); apply Forall_nil_2
                  |vm_compute; reflexivity]).
Defined.
