(* ===== verification/StatusBits.v ===== *)
(** * The bit level of the status lists

    Models [provider/revocation/utils.rs], [bitstring_status_list/util.rs]
    and [token_status_list/util.rs] of [lib/one-core/src]: how the entries of
    a revocation list become the bit string that is published, and how a
    verifier reads one entry back.

    The bit vector ([bit_vec::BitVec]), the base64 codec ([ct_codecs]) and
    the compressors ([flate2]) are other crates: they are the operations of
    the classes [BitVec] and [StatusCodec], and what this code relies on is
    stated by the law classes, from those crates' documentation. [usize]
    arithmetic wraps at 64 bits; a division by zero and a [BitVec::set] out
    of range panic. *)

From Stdlib Require Import Ascii.
From S2P Require Import Prelude.
#[local] Open Scope Z_scope.
#[local] Open Scope rust_scope.

(** ** Interfaces of the crates *)

(** [bit_vec::BitVec]; [bv_set] is [None] where the crate panics. *)
Class BitVec (V : Type) := {
  from_elem : Z -> bool -> V;
  bv_len : V -> Z;
  bv_get : V -> Z -> option bool;
  bv_set : V -> Z -> bool -> option V;
  from_bytes : list Z -> V;
  to_bytes : V -> list Z
}.

(** The crate's documentation: bits are numbered from the most significant
    bit of the first byte; [to_bytes] fills the last byte up with [false]. *)
Class BitVecLaws (V : Type) `{BitVec V} := {
  from_elem_len : forall n b, 0 <= n -> bv_len (from_elem n b) = n;
  from_elem_get : forall n b i, 0 <= i < n -> bv_get (from_elem n b) i = Some b;
  bv_get_None : forall v i, 0 <= i -> (bv_get v i = None <-> bv_len v <= i);
  bv_set_in : forall v i b, 0 <= i < bv_len v -> exists v', bv_set v i b = Some v' /\
    bv_len v' = bv_len v /\ forall j, bv_get v' j = if j =? i then Some b else bv_get v j;
  bv_set_out : forall v i b, bv_len v <= i -> bv_set v i b = None;
  from_bytes_get : forall bytes i, 0 <= i ->
    bv_get (from_bytes bytes) i =
      (fun byte => Z.testbit byte (7 - i mod 8)) <$> get_at bytes (i / 8);
  to_bytes_len : forall v, len (to_bytes v) = (bv_len v + 7) / 8;
  to_bytes_bit : forall v i, 0 <= i < 8 * len (to_bytes v) -> exists byte,
    get_at (to_bytes v) (i / 8) = Some byte /\
    Z.testbit byte (7 - i mod 8) = default false (bv_get v i)
}.

(** [std::io::Error], as far as the code looks at its kind. *)
Inductive IoError := UnexpectedEof | OtherIo.

(** [ct_codecs::Base64UrlSafeNoPadding] (the second decoder skips ['=']) and
    the [flate2] streams: [gz_encode] is [GzEncoder] with [write_all] and
    [finish], [gz_read_exact c n] is [GzDecoder::read_exact] into a buffer of
    [n] bytes, [zlib_decode] reads a [ZlibDecoder] to its end. *)
Class StatusCodec := {
  b64_encode : list Z -> option string;
  b64_decode : string -> option (list Z);
  b64_decode_padded : string -> option (list Z);
  gz_encode : list Z -> IoError + list Z;
  gz_read_exact : list Z -> Z -> IoError + list Z;
  zlib_encode : list Z -> IoError + list Z;
  zlib_decode : list Z -> IoError + list Z;
  (** the largest buffer the allocator provides; a larger [vec!] aborts *)
  alloc_max : Z
}.

Class StatusCodecLaws `{StatusCodec} := {
  b64_decode_encode : forall b s, b64_encode b = Some s -> b64_decode s = Some b;
  b64_decode_padded_encode : forall b s, b64_encode b = Some s ->
    b64_decode_padded s = Some b;
  (** RFC 4648: the bytes 1f 8b 08 are encoded as "H4sI" *)
  b64_encode_gzip_magic : forall b s, b64_encode (0x1f :: 0x8b :: 0x08 :: b) = Some s ->
    exists t, s = ("H4s" ++ t)%string;
  (** RFC 1952: magic number and the deflate method *)
  gz_encode_magic : forall b c, gz_encode b = inr c -> exists c', c = 0x1f :: 0x8b :: 0x08 :: c';
  gz_read_exact_encode : forall b c n, gz_encode b = inr c -> 0 <= n ->
    gz_read_exact c n =
      if n <=? len b then inr (take (Z.to_nat n) b) else inl UnexpectedEof;
  zlib_decode_encode : forall b c, zlib_encode b = inr c -> zlib_decode c = inr b
}.

(** ** Revocation states ([provider/revocation/model.rs], [model/revocation_list.rs]) *)

Inductive RevocationState :=
| Valid
| Revoked
| Suspended (suspend_end_date : option Z).

Inductive RevocationListEntryStatus := EntryActive | EntryRevoked | EntrySuspended.
#[export] Instance EntryStatus_eq_dec : EqDecision RevocationListEntryStatus.
Proof. solve_decision. Defined.
#[export] Instance RevocationState_eq_dec : EqDecision RevocationState.
Proof. solve_decision. Defined.

(** [impl From<RevocationState> for RevocationListEntryStatus]. *)
Definition entry_status_of (s : RevocationState) : RevocationListEntryStatus :=
  match s with
  | Valid => EntryActive
  | Revoked => EntryRevoked
  | Suspended _ => EntrySuspended
  end.

(** ** Bitstring status list *)

Inductive BitstringError :=
| BsBase64Encoding | BsBase64Decoding
| BsCompression (e : IoError) | BsDecompression (e : IoError)
| BsIndexOutOfBounds (index : Z)
| BsInvalidPrefix (input : string).

Section bitstring.
Context `{BV : BitVec V} `{StatusCodec}.

Definition MULTIBASE_PREFIX : string := "u".
Definition GZIP_PREFIX : string := "H4s".

(** [str::strip_prefix]. *)
Definition strip_prefix (p s : string) : option string :=
  if String.prefix p s
  then Some (String.substring (String.length p) (String.length s - String.length p) s)
  else None.

(** [gzip_compress]. *)
Definition gzip_compress (input : list Z) : res IoError (list Z) :=
  of_sum (gz_encode input).

(** [gzip_decompress]: a zeroed buffer of [index / 8 + 1] bytes, filled exactly. *)
Definition gzip_decompress (input : list Z) (index : Z) : res IoError (list Z) :=
  let size := index / 8 + 1 in
  if alloc_max <? size then Panic else of_sum (gz_read_exact input size).

Definition extract_bitstring_index (compressed_list : string) (index : Z) :
  res BitstringError bool :=
  match strip_prefix MULTIBASE_PREFIX compressed_list with
  | None => Err (BsInvalidPrefix compressed_list)
  | Some compressed_list =>
      _ ← fail_if (negb (String.prefix GZIP_PREFIX compressed_list))
            (BsInvalidPrefix compressed_list);
      compressed ← ok_or (b64_decode compressed_list) BsBase64Decoding;
      bytes ← map_err (fun e => match e with
                                | UnexpectedEof => BsIndexOutOfBounds index
                                | _ => BsDecompression e
                                end) (gzip_decompress compressed index);
      ok_or (bv_get (from_bytes (V := V) bytes) index) (BsIndexOutOfBounds index)
  end.

Definition calculate_bitstring_size (input_size : Z) : Z := Z.max input_size 131072.

(** [BitVec::set], a panic out of range. *)
Definition set_bit {E : Type} (v : V) (i : Z) : res E V :=
  match bv_set v i true with Some v' => Ok v' | None => Panic end.

(** The closure of [generate_bitstring]. *)
Definition set_index (bits : V) (entry : Z * bool) : res BitstringError V :=
  let '(index, state) := entry in
  if state : bool then set_bit bits index else Ok bits.

Definition generate_bitstring (input : list (Z * bool)) : res BitstringError string :=
  let size := calculate_bitstring_size (len input) in
  bits ← try_fold set_index (from_elem size false) input;
  let bytes := to_bytes bits in
  compressed ← map_err BsCompression (gzip_compress bytes);
  s ← ok_or (b64_encode compressed) BsBase64Encoding;
  Ok (MULTIBASE_PREFIX ++ s)%string.
End bitstring.

(** ** Token status list *)

Inductive TokenError :=
| TkBase64Encoding | TkBase64Decoding
| TkCompression (e : IoError) | TkDecompression (e : IoError)
| TkIndexOutOfBounds (index : Z)
| SuspensionRequiresAtLeastTwoBits.

Definition PREFERRED_ENTRY_SIZE : Z := 2.

(** [TokenStatusListSubject] of [jwt_formatter/model.rs]. *)
Record TokenStatusListSubject := mkSubject { bits : Z; value : string }.

(** A [usize] division. *)
Definition div_usize {E : Type} (a b : Z) : res E Z :=
  if b =? 0 then Panic else Ok (a / b).

Definition get_most_significant_bit_index {E : Type} (index bit_size : Z) : res E Z :=
  let BYTE_SIZE := 8 in
  words_in_byte ← div_usize BYTE_SIZE bit_size;
  word_size ← div_usize BYTE_SIZE words_in_byte;
  byte_number ← div_usize (index *w word_size) BYTE_SIZE;
  let byte_start_index := BYTE_SIZE *w byte_number in
  let smallest_index_in_byte := byte_number *w words_in_byte in
  let word_index_within_byte := index -w smallest_index_in_byte in
  Ok (byte_start_index +w BYTE_SIZE -w (word_index_within_byte *w word_size) -w word_size).

Definition calculate_preferred_token_size (input_size bits : Z) : Z :=
  Z.max (input_size *w bits) (131072 *w bits).

Section token.
Context `{BV : BitVec V} `{StatusCodec}.

Definition extract_state_from_token (status_list : TokenStatusListSubject) (index : Z) :
  res TokenError RevocationState :=
  let entry_size := bits status_list in
  compressed ← ok_or (b64_decode_padded (value status_list)) TkBase64Decoding;
  bytes ← map_err (fun e => match e with
                            | UnexpectedEof => TkIndexOutOfBounds index
                            | _ => TkDecompression e
                            end) (of_sum (zlib_decode compressed));
  let bitv := from_bytes (V := V) bytes in
  most_significant_bit_index ← get_most_significant_bit_index index entry_size;
  suspended ←
    (if 1 <? entry_size then
       let suspension_bit_index := most_significant_bit_index +w entry_size -w 2 in
       ok_or (bv_get bitv suspension_bit_index) (TkIndexOutOfBounds index)
     else Ok false);
  let revocation_bit_index := most_significant_bit_index +w entry_size -w 1 in
  revoked ← ok_or (bv_get bitv revocation_bit_index) (TkIndexOutOfBounds index);
  match revoked, suspended with
  | true, _ => Ok Revoked
  | false, true => Ok (Suspended None)
  | _, _ => Ok Valid
  end.

(** The closure of [generate_token]: the bits of one entry. *)
Definition set_entry (bits : Z) (bitvec : V) (entry : Z * RevocationListEntryStatus) :
  res TokenError V :=
  let '(index, state) := entry in
  most_significant_bit_index ← get_most_significant_bit_index index bits;
  match state with
  | EntryActive => Ok bitvec
  | EntryRevoked => set_bit bitvec (most_significant_bit_index +w bits -w 1)
  | EntrySuspended =>
      _ ← fail_if (bits <? PREFERRED_ENTRY_SIZE) SuspensionRequiresAtLeastTwoBits;
      set_bit bitvec (most_significant_bit_index +w bits -w 2)
  end.

Definition generate_token (input : list (Z * RevocationListEntryStatus))
  (bits preferred_token_size : Z) : res TokenError string :=
  bitvec ← try_fold (set_entry bits) (from_elem preferred_token_size false) input;
  compressed ← map_err TkCompression (of_sum (zlib_encode (to_bytes bitvec)));
  ok_or (b64_encode compressed) TkBase64Encoding.
End token.

(** ** Bits and bytes *)

Section bits.
Context `{BV : BitVec V} `{!BitVecLaws V}.

Lemma bv_get_lt (v : V) (i : Z) (b : bool) : 0 <= i -> bv_get v i = Some b -> i < bv_len v.
Proof.
  intros Hi Hg. destruct (Z_lt_le_dec i (bv_len v)) as [|Hge]; [done|].
  apply bv_get_None in Hge; [congruence|done].
Qed.

Lemma bv_get_Some (v : V) (i : Z) : 0 <= i < bv_len v -> is_Some (bv_get v i).
Proof.
  intros Hi. destruct (bv_get v i) eqn:E; [done|]. apply bv_get_None in E; lia.
Qed.

(** A bit read from the first bytes of an encoded vector. *)
Lemma from_to_bytes_get (v : V) (n : nat) (i : Z) :
  0 <= i < 8 * len (take n (to_bytes v)) ->
  bv_get (from_bytes (V := V) (take n (to_bytes v))) i = Some (default false (bv_get v i)).
Proof.
  intros Hi. rewrite from_bytes_get by lia. unfold len in Hi. rewrite length_take in Hi.
  destruct (to_bytes_bit v i) as (byte & Hb & Ht); [unfold len; lia|].
  assert (Hq : 0 <= i / 8) by (apply Z.div_pos; lia).
  assert (Hq' : i / 8 < Z.of_nat (n `min` length (to_bytes v)))
    by (apply Z.div_lt_upper_bound; lia).
  unfold get_at in *. destruct (Z.ltb_spec (i / 8) 0); [lia|].
  rewrite lookup_take_lt by lia. rewrite Hb. simpl. by rewrite Ht.
Qed.

Lemma from_bytes_get_ge (bytes : list Z) (i : Z) :
  8 * len bytes <= i -> bv_get (from_bytes (V := V) bytes) i = None.
Proof.
  intros Hi. pose proof (len_nonneg bytes). rewrite from_bytes_get by lia. unfold get_at.
  destruct (Z.ltb_spec (i / 8) 0); [done|].
  assert (len bytes <= i / 8) by (apply Z.div_le_lower_bound; lia).
  rewrite (proj2 (lookup_ge_None _ _)); [done|]. unfold len in *. lia.
Qed.

(** Setting bits one after the other. [pos] says which bit, if any, an element sets. *)
Lemma set_bits_spec {E A : Type} (f : V -> A -> res E V) (pos : A -> option Z)
  (l : list A) : forall (v : V),
  (forall v x, x ∈ l -> f v x = match pos x with Some p => set_bit v p | None => Ok v end) ->
  (forall x p, x ∈ l -> pos x = Some p -> 0 <= p < bv_len v) ->
  exists v', try_fold f v l = Ok v' /\ bv_len v' = bv_len v /\
    forall i, bv_get v' i = if bool_decide (i ∈ omap pos l) then Some true else bv_get v i.
Proof.
  induction l as [|x l IH]; intros v Hf Hp; simpl.
  - exists v. split_and!; try done.
  - rewrite Hf by left. destruct (pos x) as [p|] eqn:Hx; simpl.
    + unfold set_bit.
      destruct (bv_set_in v p true) as (v1 & -> & Hl1 & Hg1); [eapply Hp; [left|done]|].
      simpl. destruct (IH v1) as (v' & -> & Hl' & Hg').
      { intros. apply Hf. by right. }
      { intros. rewrite Hl1. eapply Hp; [by right|done]. }
      exists v'. rewrite Hl'. split_and!; try done. intros i. rewrite Hg', Hg1.
      destruct (Z.eqb_spec i p) as [->|Hne].
      * rewrite (bool_decide_eq_true_2 (p ∈ p :: _)) by left. by case_bool_decide.
      * apply (f_equal (fun b : bool => if b then Some true else bv_get v i)).
        apply bool_decide_ext. rewrite elem_of_cons. intuition.
    + destruct (IH v) as (v' & -> & Hl' & Hg').
      { intros. apply Hf. by right. }
      { intros. eapply Hp; [by right|done]. }
      by exists v'.
Qed.
End bits.

(** ** The slots of the token status list *)

Definition supported_bits (bits : Z) : Prop := bits ∈ [1; 2; 4; 8].

(** The position of the most significant bit of entry [index], for an entry
    size that divides a byte: entries fill a byte from its low end. *)
Definition slot (index bits : Z) : Z :=
  8 * (index * bits / 8) + 8 - (index mod (8 / bits)) * bits - bits.

Ltac byte_div :=
  repeat (progress (change (8 / 1) with 8; change (8 / 2) with 4;
                    change (8 / 4) with 2; change (8 / 8) with 1)).
Ltac split_bits H :=
  unfold supported_bits in H; rewrite !elem_of_cons, elem_of_nil in H;
  destruct H as [->|[->|[->|[->|[]]]]]; byte_div.

Lemma slot_bounds (index bits : Z) : supported_bits bits -> 0 <= index ->
  index * bits - 8 < slot index bits /\
  8 * (index * bits / 8) <= slot index bits /\
  slot index bits + bits <= 8 * (index * bits / 8) + 8.
Proof. intros H Hi. unfold slot. split_bits H; simpl; Z.to_euclidean_division_equations; lia. Qed.

Lemma slot_disjoint (i j bits a b : Z) : supported_bits bits -> 0 <= i -> 0 <= j ->
  0 <= a < bits -> 0 <= b < bits -> slot i bits + a = slot j bits + b -> i = j /\ a = b.
Proof.
  intros H Hi Hj Ha Hb. unfold slot.
  split_bits H; simpl; Z.to_euclidean_division_equations; lia.
Qed.

Lemma msb_slot {E : Type} (index bits : Z) : supported_bits bits ->
  0 <= index -> index * bits + 16 <= usize_max ->
  get_most_significant_bit_index (E := E) index bits = Ok (slot index bits).
Proof.
  intros H Hi Hmax. unfold get_most_significant_bit_index, slot.
  split_bits H; simpl; f_equal; byte_div;
    repeat match goal with
    | |- context [wrap ?z] =>
        lazymatch z with
        | context [wrap _] => fail
        | _ => rewrite (wrap_small z)
                 by (unfold is_usize, usize_max in *;
                     Z.to_euclidean_division_equations; lia)
        end
    end; Z.to_euclidean_division_equations; lia.
Qed.

(** ** What a published list says about an index *)

Section published.
Context `{BV : BitVec V} `{!BitVecLaws V} `{SC : StatusCodec} `{!StatusCodecLaws}.

Lemma string_prefix_app (p t : string) : String.prefix p (p ++ t) = true.
Proof. apply String.prefix_correct. induction p; simpl; [by destruct t|by f_equal]. Qed.

Lemma string_length_app (p t : string) :
  String.length (p ++ t) = (String.length p + String.length t)%nat.
Proof. induction p; simpl; auto. Qed.

Lemma substring_all (t : string) : String.substring 0 (String.length t) t = t.
Proof. induction t; simpl; by f_equal. Qed.

Lemma strip_prefix_app (p t : string) : strip_prefix p (p ++ t) = Some t.
Proof.
  unfold strip_prefix. rewrite string_prefix_app, string_length_app.
  replace (_ - _)%nat with (String.length t) by lia. f_equal.
  induction p; simpl; [apply substring_all|done].
Qed.

(** The bit that an entry of the bitstring status list sets. *)
Definition index_pos (entry : Z * bool) : option Z :=
  if entry.2 then Some entry.1 else None.

Lemma index_pos_elem (input : list (Z * bool)) (i : Z) :
  i ∈ omap index_pos input <-> (i, true) ∈ input.
Proof.
  rewrite list_elem_of_omap. split.
  - by intros ([? []] & ? & [= <-]).
  - by exists (i, true).
Qed.

(** The bit vector that [generate_bitstring] encodes. *)
Lemma generate_bitstring_bits (input : list (Z * bool)) (size : Z) : 0 <= size ->
  (forall i b, (i, b) ∈ input -> 0 <= i < size) ->
  exists v : V, try_fold set_index (from_elem size false) input = Ok v /\ bv_len v = size /\
    forall i, 0 <= i < size -> bv_get v i = Some (bool_decide ((i, true) ∈ input)).
Proof.
  intros Hs Hin.
  destruct (set_bits_spec (set_index (V := V)) index_pos input (from_elem size false))
    as (v & Hv & Hlen & Hget).
  { by intros ? [? []]. }
  { rewrite from_elem_len by done. intros [i []] p Hx [= ->]. by eapply Hin. }
  rewrite from_elem_len in Hlen by done. exists v. split_and!; [done..|].
  intros i Hi. rewrite Hget, from_elem_get by done.
  rewrite (bool_decide_ext _ _ (index_pos_elem input i)). by case_bool_decide.
Qed.

Lemma extract_bitstring_ok (v : V) (c : list Z) (t : string) (i : Z) :
  gz_encode (to_bytes v) = inr c -> b64_encode c = Some t -> 0 <= i -> i / 8 + 1 <= alloc_max ->
  extract_bitstring_index (V := V) (MULTIBASE_PREFIX ++ t) i =
    if i / 8 + 1 <=? len (to_bytes v) then Ok (default false (bv_get v i))
    else Err (BsIndexOutOfBounds i).
Proof.
  intros Hc Ht Hi Ha. unfold extract_bitstring_index. rewrite strip_prefix_app.
  destruct (gz_encode_magic _ _ Hc) as (c' & Hmagic).
  destruct (b64_encode_gzip_magic c' t) as (t' & ->); [by rewrite <- Hmagic|].
  unfold GZIP_PREFIX. rewrite string_prefix_app. simpl.
  rewrite (b64_decode_encode _ _ Ht). simpl. unfold gzip_decompress.
  assert (Hq : 0 <= i / 8) by (apply Z.div_pos; lia).
  destruct (Z.ltb_spec alloc_max (i / 8 + 1)); [lia|].
  rewrite (gz_read_exact_encode _ _ _ Hc) by lia.
  destruct (Z.leb_spec (i / 8 + 1) (len (to_bytes v))) as [Hle|Hgt]; simpl; [|done].
  rewrite from_to_bytes_get; [done|].
  unfold len in *. rewrite length_take. split; [done|].
  pose proof (Z.mul_div_le i 8). Z.to_euclidean_division_equations. lia.
Qed.

(** The bit that an entry of the token status list sets. *)
Definition entry_pos (bits : Z) (entry : Z * RevocationListEntryStatus) : option Z :=
  match entry.2 with
  | EntryActive => None
  | EntryRevoked => Some (slot entry.1 bits + bits - 1)
  | EntrySuspended => Some (slot entry.1 bits + bits - 2)
  end.

(** An index whose slot is computed without wrapping. *)
Definition small_index (bits index : Z) : Prop := 0 <= index /\ index * bits + 16 <= usize_max.

Definition fits (bits size : Z) (entry : Z * RevocationListEntryStatus) : Prop :=
  small_index bits entry.1 /\ slot entry.1 bits + bits <= size /\
  (entry.2 = EntrySuspended -> 2 <= bits).

Lemma slot_bit_wrap (bits index a : Z) : supported_bits bits -> small_index bits index ->
  1 <= a <= bits -> slot index bits +w bits -w a = slot index bits + bits - a.
Proof.
  intros Hb [Hi Hm] Ha. destruct (slot_bounds index bits Hb Hi) as (H1 & H2 & H3).
  assert (0 <= index * bits / 8) by (split_bits Hb; apply Z.div_pos; lia).
  assert (8 * (index * bits / 8) <= index * bits) by (apply Z.mul_div_le; lia).
  assert (bits <= 8) by (split_bits Hb; lia).
  rewrite (wrap_small (slot index bits + bits)), wrap_small; unfold is_usize; lia.
Qed.

Lemma set_entry_pos (bits size : Z) (v : V) (entry : Z * RevocationListEntryStatus) :
  supported_bits bits -> fits bits size entry ->
  set_entry bits v entry =
    match entry_pos bits entry with Some p => set_bit v p | None => Ok v end.
Proof.
  intros Hb (Hsm & Hsz & Hs). destruct entry as [i st]. unfold set_entry, entry_pos. simpl in *.
  rewrite msb_slot by (done || apply Hsm). simpl.
  destruct st; simpl; [done| |].
  - by rewrite slot_bit_wrap by (done || (split_bits Hb; lia)).
  - unfold PREFERRED_ENTRY_SIZE. specialize (Hs eq_refl).
    destruct (Z.ltb_spec bits 2); [lia|]. simpl. by rewrite slot_bit_wrap by (done || lia).
Qed.

Lemma entry_pos_range (bits size p : Z) (entry : Z * RevocationListEntryStatus) :
  supported_bits bits -> fits bits size entry -> entry_pos bits entry = Some p -> 0 <= p < size.
Proof.
  intros Hb ([Hi _] & Hsz & Hs). destruct (slot_bounds entry.1 bits Hb Hi) as (_ & H2 & _).
  assert (0 <= entry.1 * bits / 8) by (split_bits Hb; apply Z.div_pos; lia).
  assert (1 <= bits) by (split_bits Hb; lia).
  unfold entry_pos. destruct entry.2; intros [= <-]; [lia|]. specialize (Hs eq_refl). lia.
Qed.

(** The bit vector that [generate_token] encodes. *)
Lemma generate_token_bits (input : list (Z * RevocationListEntryStatus)) (bits size : Z) :
  supported_bits bits -> 0 <= size -> Forall (fits bits size) input ->
  exists v : V, try_fold (set_entry bits) (from_elem size false) input = Ok v /\
    bv_len v = size /\
    forall i, 0 <= i < size -> bv_get v i = Some (bool_decide (i ∈ omap (entry_pos bits) input)).
Proof.
  intros Hb Hs Hf. rewrite Forall_forall in Hf.
  destruct (set_bits_spec (set_entry (V := V) bits) (entry_pos bits) input
              (from_elem size false)) as (v & Hv & Hlen & Hget).
  { intros v x Hx. eapply set_entry_pos; [done|by apply Hf]. }
  { intros x p Hx. rewrite from_elem_len by done. eapply entry_pos_range; [done|by apply Hf]. }
  rewrite from_elem_len in Hlen by done. exists v. split_and!; [done..|].
  intros i Hi. rewrite Hget, from_elem_get by done. by case_bool_decide.
Qed.

(** What the list says about an index: the entry's state, [Valid] where it has none. *)
Definition published_state (input : list (Z * RevocationListEntryStatus)) (index : Z) :
  RevocationState :=
  if bool_decide ((index, EntryRevoked) ∈ input) then Revoked
  else if bool_decide ((index, EntrySuspended) ∈ input) then Suspended None
  else Valid.

Lemma entry_pos_elem (input : list (Z * RevocationListEntryStatus)) (bits size index : Z)
  (st : RevocationListEntryStatus) (p : Z) :
  supported_bits bits -> Forall (fits bits size) input -> 0 <= index ->
  entry_pos bits (index, st) = Some p -> (st = EntrySuspended -> 2 <= bits) ->
  p ∈ omap (entry_pos bits) input <-> (index, st) ∈ input.
Proof.
  intros Hb Hf Hi Hp Hs. rewrite Forall_forall in Hf. rewrite list_elem_of_omap. split.
  - intros ([j st'] & Hj & Hp'). destruct (Hf _ Hj) as ([Hj0 _] & _ & Hs').
    assert (1 <= bits) by (split_bits Hb; lia).
    unfold entry_pos in Hp, Hp'. simpl in *.
    destruct st, st'; try done; simplify_eq;
      try specialize (Hs eq_refl); try specialize (Hs' eq_refl);
      match goal with
      | E : slot ?a bits + bits - ?x = slot ?b bits + bits - ?y |- _ =>
          destruct (slot_disjoint a b bits (bits - x) (bits - y)) as [? ?]; try lia; by subst
      end.
  - by exists (index, st).
Qed.

Lemma from_to_bytes_get_all (v : V) (i : Z) : 0 <= i < 8 * len (to_bytes v) ->
  bv_get (from_bytes (V := V) (to_bytes v)) i = Some (default false (bv_get v i)).
Proof.
  intros Hi. rewrite <- (firstn_all (to_bytes v)). apply from_to_bytes_get.
  by rewrite firstn_all.
Qed.

(** Reading an entry back from an encoded vector. *)
Lemma extract_token_ok (v : V) (c : list Z) (t : string) (bits index : Z) :
  supported_bits bits -> small_index bits index ->
  zlib_encode (to_bytes v) = inr c -> b64_encode c = Some t ->
  extract_state_from_token (V := V) (mkSubject bits t) index =
    if 8 * len (to_bytes v) <=? slot index bits then Err (TkIndexOutOfBounds index)
    else if default false (bv_get v (slot index bits + bits - 1)) then Ok Revoked
    else if (1 <? bits) && default false (bv_get v (slot index bits + bits - 2))
    then Ok (Suspended None) else Ok Valid.
Proof.
  intros Hb Hsm Hz Ht. unfold extract_state_from_token. simpl.
  rewrite (b64_decode_padded_encode _ _ Ht). simpl. rewrite (zlib_decode_encode _ _ Hz). simpl.
  rewrite msb_slot by (done || apply Hsm). simpl.
  destruct (slot_bounds index bits Hb) as (_ & H2 & H3); [apply Hsm|].
  assert (0 <= index * bits / 8)
    by (destruct Hsm; split_bits Hb; apply Z.div_pos; lia).
  assert (1 <= bits) by (split_bits Hb; lia).
  rewrite (slot_bit_wrap bits index 1) by (done || lia).
  destruct (Z.leb_spec (8 * len (to_bytes v)) (slot index bits)) as [Hge|Hlt].
  - assert (Hout : forall p, slot index bits <= p ->
              bv_get (from_bytes (V := V) (to_bytes v)) p = None)
      by (intros; apply from_bytes_get_ge; lia).
    destruct (Z.ltb_spec 1 bits).
    + rewrite slot_bit_wrap by (done || lia).
      by rewrite (Hout (slot index bits + bits - 2)) by lia.
    + simpl. by rewrite Hout by lia.
  - rewrite (from_to_bytes_get_all v (slot index bits + bits - 1)) by lia.
    destruct (Z.ltb_spec 1 bits); simpl.
    + rewrite slot_bit_wrap by (done || lia). rewrite from_to_bytes_get_all by lia. simpl.
      by destruct (default false (bv_get v (slot index bits + bits - 1))),
        (default false (bv_get v (slot index bits + bits - 2))).
    + by destruct (default false (bv_get v (slot index bits + bits - 1))).
Qed.
End published.

(** ** A concrete instance of the interfaces

    Shows that the laws can hold together: a bit vector as a length and a
    function, a base64 that copies bytes to characters, compressors that only
    add the gzip magic. *)
Module Concrete.
Definition vec : Type := Z * (Z -> bool).

Definition byte_of (f : Z -> bool) : Z :=
  Z.b2z (f 7) + 2 * (Z.b2z (f 6) + 2 * (Z.b2z (f 5) + 2 * (Z.b2z (f 4) + 2 *
  (Z.b2z (f 3) + 2 * (Z.b2z (f 2) + 2 * (Z.b2z (f 1) + 2 * Z.b2z (f 0))))))).

(** [n] numbers from [k]. *)
Fixpoint count (n : nat) (k : Z) : list Z :=
  match n with O => [] | S n => k :: count n (k + 1) end.

Lemma count_length (n : nat) (k : Z) : length (count n k) = n.
Proof. revert k; induction n; intros k; simpl; auto. Qed.

Lemma count_lookup (n : nat) (i : nat) (k : Z) : (i < n)%nat ->
  count n k !! i = Some (k + Z.of_nat i).
Proof.
  revert i k; induction n as [|n IH]; intros i k Hi; [lia|].
  destruct i as [|i]; simpl; [f_equal; lia|]. rewrite IH by lia. f_equal. lia.
Qed.

Lemma elem_of_count (n : nat) (k i : Z) : i ∈ count n k <-> k <= i < k + Z.of_nat n.
Proof.
  revert k; induction n as [|n IH]; intros k; simpl.
  - rewrite elem_of_nil. lia.
  - rewrite elem_of_cons, IH. lia.
Qed.

#[export] Instance vec_BitVec : BitVec vec := {
  from_elem n b := (n, fun _ => b);
  bv_len v := Z.max 0 v.1;
  bv_get v i := if (0 <=? i) && (i <? v.1) then Some (v.2 i) else None;
  bv_set v i b :=
    if i <? Z.max 0 v.1 then Some (v.1, fun j => if j =? i then b else v.2 j) else None;
  from_bytes bytes :=
    (8 * len bytes,
     fun i => Z.testbit (default 0 (get_at bytes (i / 8))) (7 - i mod 8));
  to_bytes v :=
    (fun k => byte_of (fun j => (8 * k + j <? v.1) && v.2 (8 * k + j)))
      <$> count (Z.to_nat ((Z.max 0 v.1 + 7) / 8)) 0
}.

Lemma byte_of_testbit (f : Z -> bool) (j : Z) : 0 <= j < 8 ->
  Z.testbit (byte_of f) (7 - j) = f j.
Proof.
  intros Hj. unfold byte_of.
  assert (j = 0 \/ j = 1 \/ j = 2 \/ j = 3 \/ j = 4 \/ j = 5 \/ j = 6 \/ j = 7) as Hcase by lia.
  destruct_or! Hcase; subst; by destruct (f 0), (f 1), (f 2), (f 3), (f 4), (f 5), (f 6), (f 7).
Qed.

Lemma bytes_div (v : vec) : 0 <= (Z.max 0 v.1 + 7) / 8.
Proof. apply Z.div_pos; lia. Qed.

#[export] Instance vec_BitVecLaws : BitVecLaws vec.
Proof.
  split; simpl.
  - intros. lia.
  - intros n b i Hi. destruct (_ && _) eqn:E; [done|lia].
  - intros v i Hi. destruct (_ && _) eqn:E; split; intros; (done || lia).
  - intros v i b Hi. destruct (Z.ltb_spec i (Z.max 0 v.1)); [|lia].
    eexists. split; [done|]. simpl. split; [done|]. intros j.
    destruct (Z.eqb_spec j i); destruct (_ && _) eqn:E; (done || lia).
  - intros v i b Hi. destruct (Z.ltb_spec i (Z.max 0 v.1)); [lia|done].
  - intros bytes i Hi. unfold get_at.
    assert (0 <= i / 8) by (apply Z.div_pos; lia).
    destruct (Z.ltb_spec (i / 8) 0); [lia|].
    destruct (bytes !! Z.to_nat (i / 8)) as [byte|] eqn:Hl; simpl.
    + apply lookup_lt_Some in Hl. destruct (_ && _) eqn:E; [done|]. exfalso.
      unfold len in E. Z.to_euclidean_division_equations. lia.
    + apply lookup_ge_None in Hl. destruct (_ && _) eqn:E; [|done]. exfalso.
      unfold len in E. Z.to_euclidean_division_equations. lia.
  - intros v. unfold len. rewrite length_fmap, count_length.
    pose proof (bytes_div v). lia.
  - intros v i Hi. unfold len in Hi. rewrite length_fmap, count_length in Hi.
    pose proof (bytes_div v). assert (Hq : 0 <= i / 8) by (apply Z.div_pos; lia).
    assert (Hm : 0 <= i mod 8 < 8) by (apply Z.mod_pos_bound; lia).
    assert (Hq' : i / 8 < (Z.max 0 v.1 + 7) / 8) by (apply Z.div_lt_upper_bound; lia).
    eexists. split.
    { unfold get_at. destruct (Z.ltb_spec (i / 8) 0); [lia|].
      rewrite list_lookup_fmap, count_lookup by lia. simpl. reflexivity. }
    rewrite byte_of_testbit by done. rewrite Z.add_0_l, Z2Nat.id by done.
    replace (8 * (i / 8) + i mod 8) with i by (Z.to_euclidean_division_equations; lia).
    destruct (Z.leb_spec 0 i), (Z.ltb_spec i v.1); simpl; (done || lia).
Qed.

(** Bytes as characters. *)
Fixpoint chars (l : list Z) : option string :=
  match l with
  | [] => Some ""%string
  | z :: l => if (0 <=? z) && (z <? 256)
              then String (ascii_of_N (Z.to_N z)) <$> chars l else None
  end.
Fixpoint codes (s : string) : list Z :=
  match s with
  | EmptyString => []
  | String a s => Z.of_N (N_of_ascii a) :: codes s
  end.

Lemma codes_chars (l : list Z) : forall s, chars l = Some s -> codes s = l.
Proof.
  induction l as [|z l IH]; simpl; [by intros s [= <-]|].
  destruct (_ && _) eqn:E; [|done]. intros s (t & Ht & ->)%fmap_Some.
  simpl. rewrite N_ascii_embedding by lia. rewrite (IH _ Ht). f_equal. lia.
Qed.

Definition magic : list Z := [0x1f; 0x8b; 0x08].
Definition b64_enc (l : list Z) : option string :=
  if bool_decide (take 3 l = magic)
  then (fun t => "H4s" ++ t)%string <$> chars (drop 3 l)
  else (fun t => "x" ++ t)%string <$> chars l.
Definition b64_dec (s : string) : option (list Z) :=
  match strip_prefix "x" s with
  | Some t => Some (codes t)
  | None => (fun t => magic ++ codes t) <$> strip_prefix "H4s" s
  end.

Lemma b64_dec_enc (b : list Z) (s : string) : b64_enc b = Some s -> b64_dec s = Some b.
Proof.
  unfold b64_enc, b64_dec. case_bool_decide as Hm; intros (t & Ht & ->)%fmap_Some.
  - rewrite (strip_prefix_app "H4s" t). simpl. rewrite (codes_chars _ _ Ht).
    f_equal. by rewrite <- (take_drop 3 b) at 2; rewrite Hm.
  - rewrite (strip_prefix_app "x" t). by rewrite (codes_chars _ _ Ht).
Qed.

#[export] Instance codec : StatusCodec := {
  b64_encode := b64_enc;
  b64_decode := b64_dec;
  b64_decode_padded := b64_dec;
  gz_encode b := inr (0x1f :: 0x8b :: 0x08 :: b);
  gz_read_exact c n :=
    if n <=? len (drop 3 c) then inr (take (Z.to_nat n) (drop 3 c)) else inl UnexpectedEof;
  zlib_encode b := inr b;
  zlib_decode c := inr c;
  alloc_max := 2 ^ 40
}.

#[export] Instance codec_laws : StatusCodecLaws.
Proof.
  split; simpl.
  - apply b64_dec_enc.
  - apply b64_dec_enc.
  - unfold b64_enc. simpl. intros b s (t & _ & ->)%fmap_Some. by exists t.
  - intros b c [= <-]. eauto.
  - intros b c n [= <-] Hn. done.
  - by intros b c [= <-].
Qed.
End Concrete.

(** ** Lists that cannot be generated, lists that cannot be read *)

(** A fold in which one element panics from every state that is reached. *)
Lemma try_fold_panics {E A B : Type} (P : B -> Prop) (f : B -> A -> res E B) (y : A) (l : list A) :
  forall b, y ∈ l -> P b ->
  (forall b x, x ∈ l -> P b -> (exists b', f b x = Ok b' /\ P b') \/ f b x = Panic) ->
  (forall b, P b -> f b y = Panic) -> try_fold f b l = Panic.
Proof.
  induction l as [|x l IH]; intros b Hin Hb Hstep Hy; [by apply not_elem_of_nil in Hin|].
  simpl. destruct (Hstep b x) as [(b' & Hx & Hb')|Hp]; [left|done| |by rewrite Hp].
  apply elem_of_cons in Hin as [<-|Hin]; [by rewrite Hy|].
  rewrite Hx. apply IH; auto. intros. apply Hstep; auto. by right.
Qed.

Section limits.
Context `{BV : BitVec V} `{!BitVecLaws V} `{SC : StatusCodec} `{!StatusCodecLaws}.

Lemma set_bit_cases {E : Type} (v : V) (p : Z) : 0 <= p ->
  (exists v', set_bit (E := E) v p = Ok v' /\ bv_len v' = bv_len v) \/
  set_bit (E := E) v p = Panic.
Proof.
  intros Hp. unfold set_bit. destruct (Z_lt_le_dec p (bv_len v)).
  - destruct (bv_set_in v p true) as (v' & -> & ? & _); eauto.
  - rewrite bv_set_out by done. auto.
Qed.

(** Two-bit entries never report an error: they set a bit or panic. *)
Lemma set_entry_2_cases (v : V) (entry : Z * RevocationListEntryStatus) :
  small_index 2 entry.1 ->
  (exists v', set_entry 2 v entry = Ok v' /\ bv_len v' = bv_len v) \/
  set_entry 2 v entry = Panic.
Proof.
  intros Hsm. assert (Hb : supported_bits 2) by (unfold supported_bits; set_solver).
  destruct (slot_bounds entry.1 2 Hb) as (_ & H2 & _); [apply Hsm|].
  assert (0 <= entry.1 * 2 / 8) by (destruct Hsm; apply Z.div_pos; lia).
  rewrite (set_entry_pos 2 (slot entry.1 2 + 2)) by (done || (unfold fits; simpl; split_and!; (done || lia))).
  unfold entry_pos. destruct entry.2; [eauto|apply set_bit_cases; lia..].
Qed.

Lemma generate_token_panics (input : list (Z * RevocationListEntryStatus)) (size index : Z) :
  0 <= size -> Forall (fun e => small_index 2 e.1) input ->
  (index, EntryRevoked) ∈ input -> size <= slot index 2 + 1 ->
  generate_token (V := V) input 2 size = Panic.
Proof.
  intros Hs Hf Hin Hout. rewrite Forall_forall in Hf. unfold generate_token.
  rewrite (try_fold_panics (fun v => bv_len v = size) _ (index, EntryRevoked)); [done|done|..].
  - by apply from_elem_len.
  - intros v x Hx <-. by apply set_entry_2_cases, Hf.
  - intros v <-. specialize (Hf _ Hin). simpl in Hf.
    assert (Hb : supported_bits 2) by (unfold supported_bits; set_solver).
    rewrite (set_entry_pos 2 (slot index 2 + 2)) by (done || (unfold fits; simpl; split_and!; (done || lia))).
    unfold entry_pos, set_bit. simpl. by rewrite bv_set_out by lia.
Qed.

(** An entry size of zero, or above eight bits, divides by zero. *)
Lemma msb_unsupported {E : Type} (index bits : Z) : bits = 0 \/ 8 < bits ->
  get_most_significant_bit_index (E := E) index bits = Panic.
Proof.
  unfold get_most_significant_bit_index, div_usize. intros [->|Hgt]; [done|].
  destruct (Z.eqb_spec bits 0); [lia|]. simpl. by rewrite Z.div_small by lia.
Qed.
End limits.

(** A reader of a token status list whose [bits] field is 0 or above 8 panics as soon as
    the list decompresses. *)
Theorem token_entry_size_panics `{BV : BitVec V} `{SC : StatusCodec} (t : string)
  (c bytes : list Z) (bits index : Z) :
  bits = 0 \/ 8 < bits -> b64_decode_padded t = Some c -> zlib_decode c = inr bytes ->
  extract_state_from_token (V := V) (mkSubject bits t) index = Panic.
Proof.
  intros Hb Ht Hz. unfold extract_state_from_token. simpl. rewrite Ht. simpl. rewrite Hz. simpl.
  by rewrite msb_unsupported.
Qed.

(** Index [2^63] of a list with two-bit entries wraps around to index 0: the reader gets the
    state of the first entry, not an out-of-bounds error. *)
Theorem token_index_wraps `{BV : BitVec V} `{SC : StatusCodec} (t : string) (st : RevocationState) :
  extract_state_from_token (V := V) (mkSubject 2 t) 0 = Ok st ->
  extract_state_from_token (V := V) (mkSubject 2 t) (2 ^ 63) = Ok st.
Proof.
  unfold extract_state_from_token. cbn [bits value].
  replace (get_most_significant_bit_index (E := TokenError) (2 ^ 63) 2) with
    (get_most_significant_bit_index (E := TokenError) 0 2) by (vm_compute; reflexivity).
  destruct (b64_decode_padded t); simpl; [|done].
  destruct (zlib_decode _) as [[]|]; simpl; [by intros [=]..|].
  intros (su & Hsu%ok_or_ok & (re & Hre%ok_or_ok & Hst)%res_bind_ok)%res_bind_ok.
  rewrite Hsu. simpl. rewrite Hre. exact Hst.
Qed.

(** ** Publication *)

Lemma bitstring_publishes `{BV : BitVec V} `{!BitVecLaws V} `{SC : StatusCodec}
  `{!StatusCodecLaws}
  (input : list (Z * bool))
  (Hin : forall i b, (i, b) ∈ input -> 0 <= i < calculate_bitstring_size (len input)) :
  match generate_bitstring (V := V) input with
  | Ok s => forall i, 0 <= i -> i / 8 + 1 <= alloc_max ->
      extract_bitstring_index (V := V) s i =
        if i <? 8 * ((calculate_bitstring_size (len input) + 7) / 8)
        then Ok (bool_decide ((i, true) ∈ input)) else Err (BsIndexOutOfBounds i)
  | Err e => (exists io, e = BsCompression io) \/ e = BsBase64Encoding
  | Panic => False
  end.
Proof.
  set (size := calculate_bitstring_size (len input)) in *.
  destruct (generate_bitstring_bits (V := V) input size) as (v & Hv & Hlen & Hget);
    [unfold size, calculate_bitstring_size; lia | done |].
  unfold generate_bitstring. fold size. rewrite Hv. simpl. unfold gzip_compress.
  destruct (gz_encode (to_bytes v)) as [io|c] eqn:Hc; simpl; [by eauto|].
  destruct (b64_encode c) as [t|] eqn:Ht; simpl; [|by auto].
  intros i Hi Ha. rewrite (extract_bitstring_ok v c t i) by done. rewrite to_bytes_len, Hlen.
  replace (i / 8 + 1 <=? (size + 7) / 8) with (i <? 8 * ((size + 7) / 8))
    by (Z.to_euclidean_division_equations; lia).
  destruct (Z.ltb_spec i (8 * ((size + 7) / 8))); [|done]. f_equal.
  destruct (Z_lt_le_dec i size); [by rewrite Hget by lia|].
  rewrite (proj2 (bv_get_None v i Hi)) by lia. symmetry. apply bool_decide_eq_false.
  intros Hi'%Hin. lia.
Qed.

Lemma token_publishes `{BV : BitVec V} `{!BitVecLaws V} `{SC : StatusCodec}
  `{!StatusCodecLaws}
  (input : list (Z * RevocationListEntryStatus)) (bits size index : Z)
  (Hb : supported_bits bits) (Hsize : 0 <= size) (Hfits : Forall (fits bits size) input)
  (Hsmall : small_index bits index) (Hindex : slot index bits + bits <= size) :
  match generate_token (V := V) input bits size with
  | Ok t => extract_state_from_token (V := V) (mkSubject bits t) index =
              Ok (published_state input index)
  | Err e => (exists io, e = TkCompression io) \/ e = TkBase64Encoding
  | Panic => False
  end.
Proof.
  destruct (generate_token_bits (V := V) input bits size) as (v & Hv & Hlen & Hget); [done..|].
  unfold generate_token. rewrite Hv. simpl.
  destruct (zlib_encode (to_bytes v)) as [io|c] eqn:Hc; simpl; [by eauto|].
  destruct (b64_encode c) as [t|] eqn:Ht; simpl; [|by auto].
  rewrite (extract_token_ok v c t bits index) by done.
  destruct (slot_bounds index bits Hb) as (_ & H2 & _); [apply Hsmall|].
  assert (0 <= index * bits / 8) by (destruct Hsmall; split_bits Hb; apply Z.div_pos; lia).
  assert (1 <= bits) by (split_bits Hb; lia).
  rewrite to_bytes_len, Hlen.
  destruct (Z.leb_spec (8 * ((size + 7) / 8)) (slot index bits));
    [Z.to_euclidean_division_equations; lia|].
  rewrite Hget by lia. simpl. unfold published_state.
  rewrite (bool_decide_ext _ ((index, EntryRevoked) ∈ input))
    by (apply (entry_pos_elem input bits size); (done || apply Hsmall)).
  case_bool_decide; [done|].
  destruct (Z.ltb_spec 1 bits).
  - rewrite Hget by lia. simpl.
    rewrite (bool_decide_ext _ ((index, EntrySuspended) ∈ input))
      by (apply (entry_pos_elem input bits size); (done || apply Hsmall || lia)).
    by case_bool_decide.
  - simpl. rewrite bool_decide_eq_false_2; [done|]. intros Hin.
    rewrite Forall_forall in Hfits. destruct (Hfits _ Hin) as (_ & _ & Hs).
    specialize (Hs eq_refl). lia.
Qed.

(** ** Properties *)

Import Concrete.

(** Publishing a bitstring status list succeeds unless the compressor or the base64
    encoder fails (it cannot panic while every index is inside the list), and a verifier who
    reads index [i] of the published string gets exactly whether entry [i] was set, or an
    out-of-bounds error past the last byte. *)
Theorem bitstring_publication `{BV : BitVec V} `{!BitVecLaws V} `{SC : StatusCodec}
  `{!StatusCodecLaws}
  (input : list (Z * bool))
  (Hin : forall i b, (i, b) ∈ input -> 0 <= i < calculate_bitstring_size (len input)) :
  match generate_bitstring (V := V) input with
  | Ok s => forall i, 0 <= i -> i / 8 + 1 <= alloc_max ->
      extract_bitstring_index (V := V) s i =
        if i <? 8 * ((calculate_bitstring_size (len input) + 7) / 8)
        then Ok (bool_decide ((i, true) ∈ input)) else Err (BsIndexOutOfBounds i)
  | Err e => (exists io, e = BsCompression io) \/ e = BsBase64Encoding
  | Panic => False
  end.
Proof. by apply bitstring_publishes. Qed.

Lemma bitstring_publication_witness :
  match generate_bitstring (V := Concrete.vec) [(0, false); (1, true)] with
  | Ok s => forall i, 0 <= i -> i / 8 + 1 <= alloc_max ->
      extract_bitstring_index (V := Concrete.vec) s i =
        if i <? 8 * ((calculate_bitstring_size (len [(0, false); (1, true)]) + 7) / 8)
        then Ok (bool_decide ((i, true) ∈ [(0, false); (1, true)]))
        else Err (BsIndexOutOfBounds i)
  | Err e => (exists io, e = BsCompression io) \/ e = BsBase64Encoding
  | Panic => False
  end.
Proof.
  refine (@bitstring_publication vec vec_BitVec vec_BitVecLaws codec codec_laws
            [(0, false); (1, true)] _).
  intros i b Hin. unfold calculate_bitstring_size.
  rewrite !elem_of_cons, elem_of_nil in Hin. destruct Hin as [[= -> ->]|[[= -> ->]|[]]]; lia.
Defined.

(** For every supported entry size, a token status list whose entries fit into its
    [size] bits is published unless the compressor or the base64 encoder fails, and a
    verifier who reads an index inside it gets the state of that entry: revoked, suspended,
    or valid where the list has no such entry. *)
Theorem token_publication `{BV : BitVec V} `{!BitVecLaws V} `{SC : StatusCodec}
  `{!StatusCodecLaws}
  (input : list (Z * RevocationListEntryStatus)) (bits size index : Z)
  (Hb : supported_bits bits) (Hsize : 0 <= size) (Hfits : Forall (fits bits size) input)
  (Hsmall : small_index bits index) (Hindex : slot index bits + bits <= size) :
  match generate_token (V := V) input bits size with
  | Ok t => extract_state_from_token (V := V) (mkSubject bits t) index =
              Ok (published_state input index)
  | Err e => (exists io, e = TkCompression io) \/ e = TkBase64Encoding
  | Panic => False
  end.
Proof. by apply token_publishes. Qed.

Lemma token_publication_witness :
  match generate_token (V := Concrete.vec) [(0, EntryActive); (1, EntryRevoked); (2, EntrySuspended)]
          2 262144 with
  | Ok t => extract_state_from_token (V := Concrete.vec) (mkSubject 2 t) 2 =
              Ok (published_state [(0, EntryActive); (1, EntryRevoked); (2, EntrySuspended)] 2)
  | Err e => (exists io, e = TkCompression io) \/ e = TkBase64Encoding
  | Panic => False
  end.
Proof.
  refine (@token_publication vec vec_BitVec vec_BitVecLaws codec codec_laws
            [(0, EntryActive); (1, EntryRevoked); (2, EntrySuspended)] 2 262144 2 _ _ _ _ _).
  - unfold supported_bits. set_solver.
  - lia.
  - repeat (apply Forall_cons_2;
      [split_and!; [split; vm_compute; discriminate | vm_compute; discriminate | simpl; lia]|]).
    apply Forall_nil_2.
  - split; vm_compute; discriminate.
  - vm_compute; discriminate.
Defined.

Lemma token_entry_size_panics_witness :
  extract_state_from_token (V := vec) (mkSubject 0 "xA") 5 = Panic.
Proof.
  refine (@token_entry_size_panics vec vec_BitVec codec "xA" [65] [65] 0 5 (or_introl eq_refl) _ _);
    reflexivity.
Defined.

Lemma token_index_wraps_witness :
  extract_state_from_token (V := vec) (mkSubject 2 "xA") (2 ^ 63) = Ok Revoked.
Proof.
  refine (@token_index_wraps vec vec_BitVec codec "xA" Revoked _). vm_compute. reflexivity.
Defined.
