(* ===== verification/KeySelection.v ===== *)
(** * Identifiers and the selection of a signing key

    Models [lib/one-core/src/util/key_selection.rs] with the parts of the
    data model it reads: [Key], [RelatedKey], [Did], [Certificate] and
    [Identifier] of [model/]. Identifiers of rows (UUIDs) are [Z]s. The X.509
    and PEM parsers are other crates: they are the operations of [X509]. *)

From S2P Require Import Prelude.
#[local] Open Scope Z_scope.

(** ** The data model *)

(** [KeyAlgorithmType]; [from_str] is strum's, on the serialized names. *)
Inductive KeyAlgorithmType := Eddsa | Ecdsa | BbsPlus | MlDsa.
#[export] Instance KeyAlgorithmType_eq_dec : EqDecision KeyAlgorithmType.
Proof. solve_decision. Defined.

Definition algorithm_from_str (s : string) : option KeyAlgorithmType :=
  if decide (s = "EDDSA"%string) then Some Eddsa
  else if decide (s = "ECDSA"%string) then Some Ecdsa
  else if decide (s = "BBS_PLUS"%string) then Some BbsPlus
  else if decide (s = "ML_DSA"%string) then Some MlDsa
  else None.

Definition algorithm_to_string (a : KeyAlgorithmType) : string :=
  match a with
  | Eddsa => "EDDSA" | Ecdsa => "ECDSA" | BbsPlus => "BBS_PLUS" | MlDsa => "ML_DSA"
  end.

Record Key := mkKey { key_id : Z; key_type : string; key_reference : option (list Z) }.

Definition key_algorithm_type (k : Key) : option KeyAlgorithmType :=
  algorithm_from_str (key_type k).

Inductive KeyRole :=
| Authentication | AssertionMethod | KeyAgreementRole | CapabilityInvocation
| CapabilityDelegation | UpdateKey.
#[export] Instance KeyRole_eq_dec : EqDecision KeyRole.
Proof. solve_decision. Defined.

Record RelatedKey := mkRelatedKey { rk_role : KeyRole; rk_key : Key; rk_reference : string }.

Record Did := mkDid {
  did_id : Z;
  did_value : string;
  did_deactivated : bool;
  did_keys : option (list RelatedKey)
}.

(** [Did::verification_method_id]. *)
Definition verification_method_id (d : Did) (k : RelatedKey) : string :=
  (did_value d ++ "#" ++ rk_reference k)%string.

Inductive CertificateState := NotYetActive | CertActive | CertRevoked | CertExpired.
#[export] Instance CertificateState_eq_dec : EqDecision CertificateState.
Proof. solve_decision. Defined.

Record Certificate := mkCertificate {
  cert_id : Z;
  cert_chain : string;
  cert_fingerprint : string;
  cert_expiry_date : Z;
  cert_state : CertificateState;
  cert_key : option Key
}.

Inductive IdentifierType := TypeKey | TypeDid | TypeCertificate | TypeCertificateAuthority.
#[export] Instance IdentifierType_eq_dec : EqDecision IdentifierType.
Proof. solve_decision. Defined.

Record Identifier := mkIdentifier {
  identifier_id : Z;
  identifier_type : IdentifierType;
  is_remote : bool;
  idn_did : option Did;
  idn_key : option Key;
  idn_certificates : option (list Certificate)
}.

(** ** The X.509 parser *)

Inductive KeyUsagePurpose :=
| DigitalSignature | ContentCommitment | KeyEncipherment | DataEncipherment | KeyAgreement
| KeyCertSign | CrlSign | EncipherOnly | DecipherOnly.

(** [x509_parser]: the first PEM block of a buffer ([None] for no block), the
    certificate in it and its key-usage extension, with the extension's nine
    flag accessors. *)
Class X509 := {
  pem_block : Type;
  x509_cert : Type;
  key_usage_ext : Type;
  pem_first : string -> option (unit + pem_block);
  parse_x509 : pem_block -> unit + x509_cert;
  cert_key_usage : x509_cert -> unit + option key_usage_ext;
  digital_signature : key_usage_ext -> bool;
  non_repudiation : key_usage_ext -> bool;
  key_encipherment : key_usage_ext -> bool;
  data_encipherment : key_usage_ext -> bool;
  key_agreement : key_usage_ext -> bool;
  key_cert_sign : key_usage_ext -> bool;
  crl_sign : key_usage_ext -> bool;
  encipher_only : key_usage_ext -> bool;
  decipher_only : key_usage_ext -> bool
}.

(** ** Filters and selections *)

Record KeyFilter := mkKeyFilter {
  did_role : option KeyRole;
  certificate_key_usage : option (list KeyUsagePurpose);
  algorithms : option (list KeyAlgorithmType)
}.

Definition default_filter : KeyFilter := mkKeyFilter None None None.
Definition role_filter (role : KeyRole) : KeyFilter := mkKeyFilter (Some role) None None.
Definition cert_usage_filter (usage : list KeyUsagePurpose) : KeyFilter :=
  mkKeyFilter None (Some usage) None.

Definition matches_key (f : KeyFilter) (k : Key) : bool :=
  match algorithms f with
  | None => true
  | Some algs => match key_algorithm_type k with
                 | None => false
                 | Some a => bool_decide (a ∈ algs)
                 end
  end.

Definition matches_related_key (f : KeyFilter) (k : RelatedKey) : bool :=
  let role_match := match did_role f with
                    | Some role => bool_decide (role = rk_role k)
                    | None => true
                    end in
  let algorithm_match := matches_key f (rk_key k) in
  role_match && algorithm_match.

Record KeySelection := mkKeySelection {
  sel_key : option Z;
  sel_did : option Z;
  sel_certificate : option Z;
  sel_key_filter : option KeyFilter
}.

(** [impl From<KeyFilter> for KeySelection]. *)
Definition selection_of_filter (f : KeyFilter) : KeySelection :=
  mkKeySelection None None None (Some f).

Inductive SelectedKey :=
| SelKey (key : Key)
| SelCertificate (certificate : Certificate) (key : Key)
| SelDid (did : Did) (key : RelatedKey).

Definition selected_key (s : SelectedKey) : Key :=
  match s with
  | SelKey key => key
  | SelCertificate _ key => key
  | SelDid _ key => rk_key key
  end.

Definition selected_certificate (s : SelectedKey) : option Certificate :=
  match s with SelCertificate certificate _ => Some certificate | _ => None end.

Definition selected_did (s : SelectedKey) : option Did :=
  match s with SelDid did _ => Some did | _ => None end.

Inductive KeySelectionError :=
| SelectionNotApplicableForType (identifier : Z) (id_type : string) (type : IdentifierType)
| RemoteIdentifier
| KeyNotFound (identifier key : Z)
| DidIdentifierMismatch (identifier did : Z)
| DidDeactivated (did : Z)
| NoKeyMatchingFilter (identifier : Z) (filter : KeyFilter)
| KeyNotMatchingFilter (key : Z) (filter : KeyFilter)
| CertificateNotFound (identifier certificate : Z)
| CertificateInvalidState (certificate : Z) (state : CertificateState)
| NoActiveMatchingCertificate (identifier : Z) (filter : KeyFilter)
| KeyCertificateMismatch (certificate key : Z)
| KeyDidMismatch (did key : Z)
| SelMappingError (what : string).

(** [Iterator::find]. *)
Definition find_first {A : Type} (p : A -> bool) (l : list A) : option A := List.find p l.

(** [Did::find_key]. *)
Definition find_key (d : Did) (id : Z) (f : KeyFilter) : res KeySelectionError RelatedKey :=
  keys ← ok_or (did_keys d) (SelMappingError "keys is None");
  let same_id_keys := List.filter (fun entry => key_id (rk_key entry) =? id) keys in
  match same_id_keys with
  | [] => Err (KeyDidMismatch (did_id d) id)
  | _ => ok_or (find_first (matches_related_key f) same_id_keys) (KeyNotMatchingFilter id f)
  end.

(** [Did::find_first_matching_key]. *)
Definition find_first_matching_key (d : Did) (f : KeyFilter) :
  res KeySelectionError (option RelatedKey) :=
  keys ← ok_or (did_keys d) (SelMappingError "keys is None");
  Ok (find_first (matches_related_key f) keys).

(** [Identifier::throw_on_certificate_id], [Identifier::throw_on_did_id]. *)
Definition throw_on_certificate_id (i : Identifier) (s : KeySelection) :
  res KeySelectionError unit :=
  fail_if (bool_decide (is_Some (sel_certificate s)))
    (SelectionNotApplicableForType (identifier_id i) "Certificate" (identifier_type i)).

Definition throw_on_did_id (i : Identifier) (s : KeySelection) : res KeySelectionError unit :=
  fail_if (bool_decide (is_Some (sel_did s)))
    (SelectionNotApplicableForType (identifier_id i) "Did" (identifier_type i)).

(** [if let Some(id) = requested && id != actual]. *)
Definition requested_other (requested : option Z) (actual : Z) : option Z :=
  match requested with
  | Some id => if id =? actual then None else Some id
  | None => None
  end.

Section selection.
Context `{X509}.

Definition key_usage_matches (u : key_usage_ext) (p : KeyUsagePurpose) : bool :=
  match p with
  | DigitalSignature => digital_signature u
  | ContentCommitment => non_repudiation u
  | KeyEncipherment => key_encipherment u
  | DataEncipherment => data_encipherment u
  | KeyAgreement => key_agreement u
  | KeyCertSign => key_cert_sign u
  | CrlSign => crl_sign u
  | EncipherOnly => encipher_only u
  | DecipherOnly => decipher_only u
  end.

(** [Certificate::matches_key_usage]. *)
Definition matches_key_usage (c : Certificate) (usage : list KeyUsagePurpose) : bool :=
  match pem_first (cert_chain c) with
  | Some (inr pem) =>
      match parse_x509 pem with
      | inr cert =>
          match cert_key_usage cert with
          | inr (Some key_usage) => forallb (key_usage_matches key_usage) usage
          | _ => false
          end
      | inl _ => false
      end
  | _ => false
  end.

(** [Certificate::has_matching_key]. *)
Definition has_matching_key (c : Certificate) (f : KeyFilter) : bool :=
  let usage_mismatch := match certificate_key_usage f with
                        | Some usage => negb (matches_key_usage c usage)
                        | None => false
                        end in
  if usage_mismatch then false
  else match cert_key c with Some k => matches_key f k | None => false end.

(** The branch of [Identifier::select_key] for certificates and
    certificate authorities. *)
Definition select_from_certificates (i : Identifier) (selection : KeySelection)
  (filter : KeyFilter) : res KeySelectionError SelectedKey :=
  _ ← throw_on_did_id i selection;
  certs ← ok_or (idn_certificates i) (SelMappingError "Missing identifier certificates");
  certificate ←
    match sel_certificate selection with
    | Some requested_id =>
        requested_cert ← ok_or (find_first (fun c => cert_id c =? requested_id) certs)
          (CertificateNotFound (identifier_id i) requested_id);
        if bool_decide (cert_state requested_cert <> CertActive)
        then Err (CertificateInvalidState (cert_id requested_cert) (cert_state requested_cert))
        else Ok requested_cert
    | None =>
        ok_or (find_first (fun c => bool_decide (cert_state c = CertActive)
                                    && has_matching_key c filter) certs)
          (NoActiveMatchingCertificate (identifier_id i) filter)
    end;
  key ← ok_or (cert_key certificate) (SelMappingError "Missing certificate key");
  if negb (matches_key filter key)
  then Err (KeyNotMatchingFilter (key_id key) filter) else
  match requested_other (sel_key selection) (key_id key) with
  | Some id => Err (KeyCertificateMismatch (cert_id certificate) id)
  | None => Ok (SelCertificate certificate key)
  end.

(** [Identifier::select_key]. *)
Definition select_key (i : Identifier) (selection : KeySelection) :
  res KeySelectionError SelectedKey :=
  if is_remote i then Err RemoteIdentifier else
  let filter := default default_filter (sel_key_filter selection) in
  match identifier_type i with
  | TypeKey =>
      _ ← throw_on_certificate_id i selection;
      _ ← throw_on_did_id i selection;
      key ← ok_or (idn_key i) (SelMappingError "Missing identifier key");
      if negb (matches_key filter key)
      then Err (NoKeyMatchingFilter (identifier_id i) filter) else
      match requested_other (sel_key selection) (key_id key) with
      | Some id => Err (KeyNotFound (identifier_id i) id)
      | None => Ok (SelKey key)
      end
  | TypeDid =>
      _ ← throw_on_certificate_id i selection;
      did ← ok_or (idn_did i) (SelMappingError "Missing identifier did");
      if did_deactivated did then Err (DidDeactivated (did_id did)) else
      match requested_other (sel_did selection) (did_id did) with
      | Some id => Err (DidIdentifierMismatch (identifier_id i) id)
      | None =>
          key ← match sel_key selection with
                | Some id => find_key did id filter
                | None =>
                    found ← find_first_matching_key did filter;
                    ok_or found (NoKeyMatchingFilter (identifier_id i) filter)
                end;
          Ok (SelDid did key)
      end
  | TypeCertificate | TypeCertificateAuthority =>
      select_from_certificates i selection filter
  end.
End selection.

(** ** What a selection may return *)

(** A requested id, when there is one, is the id found. *)
Definition agrees (requested : option Z) (actual : Z) : Prop :=
  requested = None \/ requested = Some actual.

Lemma requested_other_None (requested : option Z) (actual : Z) :
  requested_other requested actual = None <-> agrees requested actual.
Proof.
  unfold requested_other, agrees. destruct requested as [id|]; [|tauto].
  destruct (Z.eqb_spec id actual) as [->|Hne]; split; intros Hq; try done; [by right|].
  destruct Hq as [Hq|Hq]; congruence.
Qed.

Lemma agrees_Some (id actual : Z) : agrees (Some id) actual <-> id = actual.
Proof. unfold agrees. split; [intros [|]; congruence|intros ->; by right]. Qed.

Section usable.
Context `{X509}.

(** The keys of an identifier that a selection admits: they belong to the
    identifier, carry the requested ids, pass the filter, and their DID or
    certificate is active. The key usage of a certificate is looked at when
    the certificate is not requested by its id. *)
Inductive usable (i : Identifier) (sel : KeySelection) : SelectedKey -> Prop :=
| usable_key (k : Key) :
    is_remote i = false -> identifier_type i = TypeKey ->
    sel_certificate sel = None -> sel_did sel = None ->
    idn_key i = Some k ->
    matches_key (default default_filter (sel_key_filter sel)) k = true ->
    agrees (sel_key sel) (key_id k) ->
    usable i sel (SelKey k)
| usable_did (d : Did) (ks : list RelatedKey) (k : RelatedKey) :
    is_remote i = false -> identifier_type i = TypeDid ->
    sel_certificate sel = None -> agrees (sel_did sel) (did_id d) ->
    idn_did i = Some d -> did_deactivated d = false ->
    did_keys d = Some ks -> k ∈ ks ->
    matches_related_key (default default_filter (sel_key_filter sel)) k = true ->
    agrees (sel_key sel) (key_id (rk_key k)) ->
    usable i sel (SelDid d k)
| usable_certificate (cs : list Certificate) (c : Certificate) (k : Key) :
    is_remote i = false ->
    identifier_type i = TypeCertificate \/ identifier_type i = TypeCertificateAuthority ->
    sel_did sel = None -> agrees (sel_certificate sel) (cert_id c) ->
    idn_certificates i = Some cs -> c ∈ cs -> cert_state c = CertActive ->
    cert_key c = Some k ->
    matches_key (default default_filter (sel_key_filter sel)) k = true ->
    (sel_certificate sel = None ->
      has_matching_key c (default default_filter (sel_key_filter sel)) = true) ->
    agrees (sel_key sel) (key_id k) ->
    usable i sel (SelCertificate c k).

(** The selections for which [select_key] looks at every key: with a key id
    but no certificate id it only looks at the first matching certificate. *)
Definition exhaustive (i : Identifier) (sel : KeySelection) : Prop :=
  identifier_type i = TypeKey \/ identifier_type i = TypeDid \/
  sel_key sel = None \/ sel_certificate sel <> None.

Definition unique_certificates (i : Identifier) : Prop :=
  NoDup (cert_id <$> default [] (idn_certificates i)).
End usable.

(** ** Lemmas *)

Lemma find_first_Some {A : Type} (p : A -> bool) (l : list A) (x : A) :
  find_first p l = Some x -> x ∈ l /\ p x = true.
Proof.
  intros Hf. apply List.find_some in Hf as [Hin Hp]. split; [|done].
  by apply list_elem_of_In.
Qed.

Lemma find_first_exists {A : Type} (p : A -> bool) (l : list A) (x : A) :
  x ∈ l -> p x = true -> exists y, find_first p l = Some y /\ y ∈ l /\ p y = true.
Proof.
  intros Hin Hp. destruct (find_first p l) as [y|] eqn:Hf.
  - exists y. by split; [|apply find_first_Some].
  - apply list_elem_of_In in Hin. pose proof (List.find_none _ _ Hf _ Hin). congruence.
Qed.

Lemma find_first_cons {A : Type} (p : A -> bool) (x : A) (l : list A) :
  find_first p (x :: l) = if p x then Some x else find_first p l.
Proof. done. Qed.

Lemma find_first_app {A : Type} (p : A -> bool) (l1 l2 : list A) : is_Some (find_first p l1) ->
  find_first p (l1 ++ l2) = find_first p l1.
Proof. induction l1 as [|x l1 IH]; [by intros []|]. cbn [app]. rewrite !find_first_cons. by destruct (p x). Qed.

(** With unique ids the search by id finds the element. *)
Lemma find_first_id {A : Type} (id : A -> Z) (l : list A) (x : A) :
  NoDup (id <$> l) -> x ∈ l -> find_first (fun y => id y =? id x) l = Some x.
Proof.
  intros Hnd Hin. destruct (find_first_exists (fun y => id y =? id x) l x) as (y & Hy & Hyl & Hid);
    [done|apply Z.eqb_refl|].
  rewrite Hy. f_equal. apply Z.eqb_eq in Hid.
  apply list_elem_of_lookup in Hin as [n Hn]. apply list_elem_of_lookup in Hyl as [m Hm].
  assert (m = n) as ->; [|congruence].
  eapply (NoDup_lookup _ _ _ _ Hnd); rewrite list_lookup_fmap.
  - by rewrite Hm.
  - rewrite Hn. simpl. congruence.
Qed.

Lemma find_key_ok (d : Did) (id : Z) (f : KeyFilter) (k : RelatedKey) :
  find_key d id f = Ok k ->
  exists ks, did_keys d = Some ks /\ k ∈ ks /\ key_id (rk_key k) = id /\
    matches_related_key f k = true.
Proof.
  unfold find_key. intros Hk. inv_res.
  destruct (List.filter _ _) as [|k0 l0] eqn:Hl in Hk; [done|].
  apply ok_or_ok, find_first_Some in Hk as [Hin Hm]. rewrite <-Hl in Hin.
  apply list_elem_of_In, List.filter_In in Hin as [Hin Hid].
  apply Z.eqb_eq in Hid. apply list_elem_of_In in Hin. eauto 10.
Qed.

Lemma find_key_complete (d : Did) (f : KeyFilter) (ks : list RelatedKey) (k : RelatedKey) :
  did_keys d = Some ks -> k ∈ ks -> matches_related_key f k = true ->
  exists k', find_key d (key_id (rk_key k)) f = Ok k'.
Proof.
  intros Hks Hin Hm. unfold find_key. rewrite Hks. simpl.
  set (l := List.filter _ ks). assert (Hl : k ∈ l).
  { apply list_elem_of_In, List.filter_In. split; [by apply list_elem_of_In|apply Z.eqb_refl]. }
  destruct (find_first_exists _ _ _ Hl Hm) as (y & -> & _).
  destruct l; [by apply elem_of_nil in Hl|]. by exists y.
Qed.

Section select_key_lemmas.
Context `{X509} (i : Identifier) (sel : KeySelection).

Lemma throw_on_certificate_id_ok :
  throw_on_certificate_id i sel = Ok tt <-> sel_certificate sel = None.
Proof.
  unfold throw_on_certificate_id. rewrite fail_if_ok, bool_decide_eq_false.
  rewrite <-eq_None_not_Some. done.
Qed.

Lemma throw_on_did_id_ok : throw_on_did_id i sel = Ok tt <-> sel_did sel = None.
Proof.
  unfold throw_on_did_id. rewrite fail_if_ok, bool_decide_eq_false.
  rewrite <-eq_None_not_Some. done.
Qed.

Lemma select_from_certificates_sound (k : SelectedKey) :
  is_remote i = false ->
  identifier_type i = TypeCertificate \/ identifier_type i = TypeCertificateAuthority ->
  select_from_certificates i sel (default default_filter (sel_key_filter sel)) = Ok k ->
  usable i sel k.
Proof.
  intros Hr Ht Hk. unfold select_from_certificates in Hk.
  apply res_bind_ok in Hk as ([] & Hd%throw_on_did_id_ok & Hk).
  apply res_bind_ok in Hk as (cs & Hcs%ok_or_ok & Hk).
  apply res_bind_ok in Hk as (c & Hc & Hk).
  apply res_bind_ok in Hk as (key & Hkey%ok_or_ok & Hk).
  destruct (matches_key _ key) eqn:Hm; [|done].
  destruct (requested_other _ _) eqn:Hq; [done|]. injection Hk as <-.
  apply requested_other_None in Hq.
  destruct (sel_certificate sel) as [id|] eqn:Hs.
  - apply res_bind_ok in Hc as (c' & Hf%ok_or_ok & Hc).
    case_bool_decide as Hst; [done|]. injection Hc as ->.
    apply find_first_Some in Hf as [Hin Hid%Z.eqb_eq].
    eapply usable_certificate; eauto.
    + rewrite Hs. by apply agrees_Some.
    + rewrite Hs. done.
  - apply ok_or_ok, find_first_Some in Hc as [Hin [Hst%bool_decide_eq_true Hhm]%andb_true_iff].
    eapply usable_certificate; eauto. rewrite Hs. by left.
Qed.

Lemma select_key_usable (k : SelectedKey) : select_key i sel = Ok k -> usable i sel k.
Proof.
  unfold select_key. destruct (is_remote i) eqn:Hr; [done|]. intros Hk.
  destruct (identifier_type i) eqn:Ht;
    [| |eapply select_from_certificates_sound; eauto..].
  - apply res_bind_ok in Hk as ([] & Hc%throw_on_certificate_id_ok & Hk).
    apply res_bind_ok in Hk as ([] & Hd%throw_on_did_id_ok & Hk).
    apply res_bind_ok in Hk as (key & Hkey%ok_or_ok & Hk).
    destruct (matches_key _ key) eqn:Hm; [|done].
    destruct (requested_other _ _) eqn:Hq; [done|]. injection Hk as <-.
    apply requested_other_None in Hq. by apply usable_key.
  - apply res_bind_ok in Hk as ([] & Hc%throw_on_certificate_id_ok & Hk).
    apply res_bind_ok in Hk as (d & Hd%ok_or_ok & Hk).
    destruct (did_deactivated d) eqn:Hda; [done|].
    destruct (requested_other (sel_did sel) _) eqn:Hq; [done|].
    apply requested_other_None in Hq.
    apply res_bind_ok in Hk as (key & Hf & Hk). injection Hk as <-.
    destruct (sel_key sel) as [id|] eqn:Hs.
    + apply find_key_ok in Hf as (ks & Hks & Hin & Hid & Hm). eapply usable_did; eauto.
      rewrite Hs. by apply agrees_Some.
    + unfold find_first_matching_key in Hf.
      apply res_bind_ok in Hf as (o & Ho & Hf%ok_or_ok).
      apply res_bind_ok in Ho as (ks & Hks%ok_or_ok & Ho). injection Ho as <-.
      apply find_first_Some in Hf as [Hin Hm]. eapply usable_did; eauto.
      rewrite Hs. by left.
Qed.

Lemma select_key_no_panic : select_key i sel <> Panic.
Proof.
  unfold select_key, select_from_certificates, throw_on_certificate_id, throw_on_did_id,
    find_key, find_first_matching_key. no_panic.
Qed.

Lemma has_matching_key_key (c : Certificate) (f : KeyFilter) :
  has_matching_key c f = true -> exists k, cert_key c = Some k /\ matches_key f k = true.
Proof.
  unfold has_matching_key. cbv zeta. case_goal; [done|].
  destruct (cert_key c); [eauto|done].
Qed.

Lemma select_from_certificates_complete (cs : list Certificate) (c : Certificate) (k : Key) :
  let f := default default_filter (sel_key_filter sel) in
  unique_certificates i -> sel_key sel = None \/ sel_certificate sel <> None ->
  sel_did sel = None -> agrees (sel_certificate sel) (cert_id c) ->
  idn_certificates i = Some cs -> c ∈ cs -> cert_state c = CertActive ->
  cert_key c = Some k -> matches_key f k = true ->
  (sel_certificate sel = None -> has_matching_key c f = true) ->
  agrees (sel_key sel) (key_id k) ->
  exists k', select_from_certificates i sel f = Ok k'.
Proof.
  intros f Hu Hex Hd Hag Hcs Hin Hst Hk Hm Huse Hkid. unfold select_from_certificates.
  rewrite (proj2 throw_on_did_id_ok Hd). simpl. rewrite Hcs. simpl.
  unfold unique_certificates in Hu. rewrite Hcs in Hu. simpl in Hu.
  destruct (sel_certificate sel) as [id|].
  - apply agrees_Some in Hag as ->. rewrite (find_first_id cert_id cs c Hu Hin). simpl.
    rewrite bool_decide_eq_false_2 by naive_solver. simpl. rewrite Hk. simpl.
    rewrite Hm. simpl. rewrite (proj2 (requested_other_None _ _) Hkid). eauto.
  - destruct Hex as [Hex|Hex]; [|done]. rewrite Hex.
    destruct (find_first_exists (fun c => bool_decide (cert_state c = CertActive)
                                          && has_matching_key c f) cs c)
      as (c' & -> & Hin' & [Hst' Hm']%andb_true_iff); [done| |].
    { rewrite bool_decide_eq_true_2 by done. by apply Huse. }
    destruct (has_matching_key_key _ _ Hm') as (k' & Hk' & Hmk). simpl. rewrite Hk'. simpl.
    rewrite Hmk. simpl. eauto.
Qed.

Lemma select_key_complete_lem (k : SelectedKey) :
  unique_certificates i -> exhaustive i sel -> usable i sel k ->
  exists k', select_key i sel = Ok k'.
Proof.
  intros Hu Hex Hus. unfold select_key.
  destruct Hus as [k Hr Ht Hc Hd Hk Hm Hkid
                  |d ks k Hr Ht Hc Hd Hdid Hda Hks Hin Hm Hkid
                  |cs c k Hr Ht Hd Hag Hcs Hin Hst Hk Hm Huse Hkid]; rewrite Hr.
  - rewrite Ht, (proj2 throw_on_certificate_id_ok Hc), (proj2 throw_on_did_id_ok Hd), Hk. simpl.
    rewrite Hm. simpl. rewrite (proj2 (requested_other_None _ _) Hkid). eauto.
  - rewrite Ht, (proj2 throw_on_certificate_id_ok Hc), Hdid. simpl. rewrite Hda.
    rewrite (proj2 (requested_other_None _ _) Hd).
    destruct (sel_key sel) as [id|].
    + apply agrees_Some in Hkid as ->.
      destruct (find_key_complete _ _ _ _ Hks Hin Hm) as (k' & ->). simpl. eauto.
    + unfold find_first_matching_key. rewrite Hks. simpl.
      destruct (find_first_exists _ _ _ Hin Hm) as (y & -> & _). simpl. eauto.
  - assert (Hex' : sel_key sel = None \/ sel_certificate sel <> None).
    { destruct Hex as [He|[He|[He|He]]]; [destruct Ht; congruence..|by left|by right]. }
    destruct (select_from_certificates_complete cs c k) as (k' & Hk'); try done.
    exists k'. by destruct Ht as [-> | ->].
Qed.
End select_key_lemmas.

(** ** Properties *)

(** The key an identifier signs with is one the selection admits: it is a
    key of a local identifier, of an active DID or certificate, with the ids
    the caller asked for, in the role and with an algorithm of the filter. *)
Theorem select_key_sound `{X509} (i : Identifier) (sel : KeySelection) (k : SelectedKey) :
  select_key i sel = Ok k -> usable i sel k.
Proof. apply select_key_usable. Qed.

(** A selection fails only when the identifier has no key it admits, for
    every selection but a certificate's key requested without its certificate. *)
Theorem select_key_complete `{X509} (i : Identifier) (sel : KeySelection) :
  unique_certificates i -> exhaustive i sel ->
  ((exists k, select_key i sel = Ok k) <-> exists k, usable i sel k).
Proof.
  intros Hu Hex. split; intros [k Hk]; [eauto using select_key_usable|].
  by eapply select_key_complete_lem.
Qed.

(** ** Witnesses *)

Module SelectionWitness.
(** A parser for which every chain is a certificate with no restriction
    but [crl_sign]. *)
Definition x509 : X509 := {|
  pem_block := string; x509_cert := string; key_usage_ext := unit;
  pem_first s := Some (inr s); parse_x509 := inr; cert_key_usage _ := inr (Some tt);
  digital_signature _ := true; non_repudiation _ := true; key_encipherment _ := true;
  data_encipherment _ := true; key_agreement _ := true; key_cert_sign _ := true;
  crl_sign _ := false; encipher_only _ := true; decipher_only _ := true
|}.
Definition key_a : Key := mkKey 1 "ECDSA" None.
Definition key_b : Key := mkKey 2 "EDDSA" None.
Definition cert_a : Certificate := mkCertificate 11 "a" "fa" 0 CertExpired (Some key_a).
Definition cert_b : Certificate := mkCertificate 12 "b" "fb" 0 CertActive (Some key_b).
Definition issuer : Identifier :=
  mkIdentifier 7 TypeCertificate false None None (Some [cert_a; cert_b]).
Definition selection : KeySelection :=
  selection_of_filter (mkKeyFilter (Some AssertionMethod) (Some [DigitalSignature]) None).
End SelectionWitness.

(** The expired certificate is skipped. *)
Lemma select_key_sound_witness :
  usable (H := SelectionWitness.x509) SelectionWitness.issuer SelectionWitness.selection
    (SelCertificate SelectionWitness.cert_b SelectionWitness.key_b).
Proof.
  exact (select_key_sound (H := SelectionWitness.x509) SelectionWitness.issuer
           SelectionWitness.selection _ eq_refl).
Defined.

(** No certificate may sign revocation lists, so that nothing is admitted. *)
Lemma select_key_complete_witness :
  ~ exists k, usable (H := SelectionWitness.x509) SelectionWitness.issuer
    (selection_of_filter (cert_usage_filter [CrlSign])) k.
Proof.
  intros Hk.
  apply (select_key_complete (H := SelectionWitness.x509) SelectionWitness.issuer) in Hk.
  - destruct Hk as [k Hk]. vm_compute in Hk. discriminate Hk.
  - vm_compute. apply NoDup_cons_2; [set_solver|]. apply NoDup_singleton.
  - right; right; left. reflexivity.
Defined.
