(* ===== verification/RevocationRepo.v ===== *)
(** * The revocation list tables and their repository

    Models [lib/sql-data-provider/src/revocation_list/repository.rs] (every
    operation of [RevocationListRepository]), the entities it stores
    ([sql-data-provider/src/entity/revocation_list.rs],
    [revocation_list_entry.rs]), the data model [one-core/src/model/revocation_list.rs]
    and the error mapping of [sql-data-provider/src/mapper.rs].

    The database is a record of tables, each a list of rows. An insert checks
    the constraints the migrations declare: the primary keys, the unique
    indexes (issuer, certificate, purpose, type) of a list, (list, index) and
    (list, serial) of an entry, where SQL never equates two NULLs, and the
    foreign keys. A violated unique index is [AlreadyExists], a violated
    foreign key [IncorrectParameters]; a connection that breaks is not
    modelled. The clock and the UUID generator are fields of the store. The
    identifier and certificate repositories are looked up by id. *)

From stdpp Require Import sorting pretty.
From S2P Require Import Prelude StatusBits KeySelection.
#[local] Open Scope Z_scope.

(** ** Data *)

Inductive RevocationListPurpose := PRevocation | PSuspension | PRevocationAndSuspension.
#[export] Instance Purpose_eq_dec : EqDecision RevocationListPurpose.
Proof. solve_decision. Defined.

Inductive StatusListCredentialFormat := FJwt | FJsonLdClassic | FX509Crl.
#[export] Instance Format_eq_dec : EqDecision StatusListCredentialFormat.
Proof. solve_decision. Defined.

Inductive RevocationListEntityId :=
| EntityCredential (credential : Z)
| EntitySignature (type : string) (serial : option (list Z))
| EntityWalletUnitAttestedKey (key : Z).

Inductive RevocationListEntityInfo :=
| InfoCredential (credential : Z)
| InfoSignature (type : string) (serial : option (list Z))
| InfoWalletUnitAttestedKey.

Inductive UpdateRevocationListEntryId :=
| UpdateCredentialEntry (credential : Z)
| UpdateEntryId (id : Z)
| UpdateEntryIndex (revocation_list : Z) (index : Z).

(** The rows of [revocation_list] and [revocation_list_entry]. *)
Record ListRow := mkListRow {
  rl_id : Z;
  rl_created_date : Z;
  rl_last_modified : Z;
  rl_formatted_list : string;
  rl_purpose : RevocationListPurpose;
  rl_format : StatusListCredentialFormat;
  rl_type : string;
  rl_issuer_identifier_id : Z;
  rl_issuer_certificate_id : option Z
}.

Inductive RevocationListEntryType := EtCredential | EtWalletUnitAttestedKey | EtSignature.

Record EntryRow := mkEntryRow {
  e_id : Z;
  e_created_date : Z;
  e_last_modified : Z;
  e_list_id : Z;
  e_index : option Z;
  e_credential_id : option Z;
  e_type : RevocationListEntryType;
  e_signature_type : option string;
  e_status : RevocationListEntryStatus;
  e_serial : option (list Z)
}.

(** [RevocationList] and [RevocationListEntry] of the model. *)
Record RevocationList := mkRevocationList {
  list_id : Z;
  list_created_date : Z;
  list_last_modified : Z;
  formatted_list : string;
  list_format : StatusListCredentialFormat;
  list_type : string;
  list_purpose : RevocationListPurpose;
  list_issuer_identifier : option Identifier;
  list_issuer_certificate : option Certificate
}.

Record RevocationListEntry := mkRevocationListEntry {
  entry_id : Z;
  entry_created_date : Z;
  entry_last_modified : Z;
  entity_info : RevocationListEntityInfo;
  entry_index : option Z;
  entry_status : RevocationListEntryStatus
}.

(** [RevocationListRelations]: which relations the caller wants loaded. *)
Record RevocationListRelations := mkRelations {
  with_issuer_identifier : bool;
  with_issuer_certificate : bool
}.
Definition no_relations : RevocationListRelations := mkRelations false false.

Inductive DataLayerError :=
| AlreadyExists
| IncorrectParameters
| RecordNotUpdated
| DlMappingError
| MissingRequiredRelation (relation : string) (id : Z)
| TransactionError (what : string)
| DlDb.

(** The store. [attested_keys] is the column [revocation_list_entry_id] of
    [wallet_unit_attested_key] by key; [credential_ids] are the primary keys
    of the credential table. *)
Record Db := mkDb {
  lists : list ListRow;
  entries : list EntryRow;
  attested_keys : list (Z * option Z);
  identifiers : list Identifier;
  certificates : list Certificate;
  credential_ids : list Z;
  now_utc : Z;
  uuid_state : nat
}.

Definition set_lists (ls : list ListRow) (d : Db) : Db :=
  mkDb ls (entries d) (attested_keys d) (identifiers d) (certificates d) (credential_ids d)
    (now_utc d) (uuid_state d).
Definition set_entries (es : list EntryRow) (d : Db) : Db :=
  mkDb (lists d) es (attested_keys d) (identifiers d) (certificates d) (credential_ids d)
    (now_utc d) (uuid_state d).
Definition set_attested_keys (ks : list (Z * option Z)) (d : Db) : Db :=
  mkDb (lists d) (entries d) ks (identifiers d) (certificates d) (credential_ids d)
    (now_utc d) (uuid_state d).
Definition set_uuid_state (n : nat) (d : Db) : Db :=
  mkDb (lists d) (entries d) (attested_keys d) (identifiers d) (certificates d)
    (credential_ids d) (now_utc d) n.

(** The [uuid] crate: the ids [Uuid::new_v4] returns, in the order of the
    calls, and their text form. *)
Class UuidSupply := { uuid_at : nat -> Z; uuid_to_string : Z -> string }.

Definition u32_wrap (z : Z) : Z := z mod 4294967296.

(** ** The tables *)

Section repository.
Context `{UuidSupply}.

Definition new_v4 {E : Type} : M Db E Z :=
  fun d => (Ok (uuid_at (uuid_state d)), set_uuid_state (S (uuid_state d)) d).

(** The unique index on the issuer, certificate, purpose and type: the
    certificate column is compared with COALESCE. *)
Definition same_list_key (a b : ListRow) : bool :=
  bool_decide (rl_issuer_identifier_id a = rl_issuer_identifier_id b) &&
  bool_decide (rl_issuer_certificate_id a = rl_issuer_certificate_id b) &&
  bool_decide (rl_purpose a = rl_purpose b) && bool_decide (rl_type a = rl_type b).

Definition insert_list (row : ListRow) : M Db DataLayerError unit := fun d =>
  if existsb (fun r => (rl_id r =? rl_id row) || same_list_key r row) (lists d)
  then (Err AlreadyExists, d)
  else if negb (existsb (fun i => identifier_id i =? rl_issuer_identifier_id row) (identifiers d)
                && match rl_issuer_certificate_id row with
                   | Some c => existsb (fun x => cert_id x =? c) (certificates d)
                   | None => true
                   end)
  then (Err IncorrectParameters, d)
  else (Ok tt, set_lists (lists d ++ [row]) d).

(** Two entries of a list collide on an index or on a serial. *)
Definition entry_conflict (a b : EntryRow) : bool :=
  (e_id a =? e_id b) ||
  (e_list_id a =? e_list_id b) &&
    (match e_index a, e_index b with Some i, Some j => i =? j | _, _ => false end
     || match e_serial a, e_serial b with
        | Some s, Some t => bool_decide (s = t)
        | _, _ => false
        end).

Definition insert_entry (row : EntryRow) : M Db DataLayerError unit := fun d =>
  if existsb (fun r => entry_conflict r row) (entries d) then (Err AlreadyExists, d)
  else if negb (existsb (fun l => rl_id l =? e_list_id row) (lists d)
                && match e_credential_id row with
                   | Some c => bool_decide (c ∈ credential_ids d)
                   | None => true
                   end)
  then (Err IncorrectParameters, d)
  else (Ok tt, set_entries (entries d ++ [row]) d).

(** ** The repository *)

(** [entity_model_to_repository_model]. *)
Definition entity_model_to_repository_model (row : ListRow)
  (relations : RevocationListRelations) : M Db DataLayerError RevocationList :=
  d ← get;
  issuer_identifier ←
    (if with_issuer_identifier relations then
       match find_first (fun i => identifier_id i =? rl_issuer_identifier_id row) (identifiers d) with
       | Some i => mret (Some i)
       | None => throw (MissingRequiredRelation "revocation_list-identifier"
                          (rl_issuer_identifier_id row))
       end
     else mret None);
  issuer_certificate ←
    match with_issuer_certificate relations, rl_issuer_certificate_id row with
    | true, Some c =>
        match find_first (fun x => cert_id x =? c) (certificates d) with
        | Some x => mret (Some x)
        | None => throw (MissingRequiredRelation "revocation_list-certificate" c)
        end
    | _, _ => mret None
    end;
  mret (mkRevocationList (rl_id row) (rl_created_date row) (rl_last_modified row)
          (rl_formatted_list row) (rl_format row) (rl_type row) (rl_purpose row)
          issuer_identifier issuer_certificate).

Definition create_revocation_list (request : RevocationList) : M Db DataLayerError Z :=
  issuer_identifier ← lift (ok_or (list_issuer_identifier request) DlMappingError);
  insert_list (mkListRow (list_id request) (list_created_date request)
                 (list_last_modified request) (formatted_list request) (list_purpose request)
                 (list_format request) (list_type request) (identifier_id issuer_identifier)
                 (cert_id <$> list_issuer_certificate request));;
  mret (list_id request).

Definition find_list (id : Z) (d : Db) : option ListRow :=
  find_first (fun l => rl_id l =? id) (lists d).

Definition get_revocation_list (id : Z) (relations : RevocationListRelations) :
  M Db DataLayerError (option RevocationList) :=
  d ← get;
  match find_list id d with
  | None => mret None
  | Some row => l ← entity_model_to_repository_model row relations; mret (Some l)
  end.

Definition get_revocation_list_by_entry_id (id : Z) (relations : RevocationListRelations) :
  M Db DataLayerError (option RevocationList) :=
  d ← get;
  match find_first (fun e => e_id e =? id) (entries d) with
  | Some entry => get_revocation_list (e_list_id entry) relations
  | None => mret None
  end.

(** The row a list is looked up by: with no certificate the column must be NULL. *)
Definition is_list_of (issuer : Z) (certificate : option Z) (purpose : RevocationListPurpose)
  (type : string) (l : ListRow) : bool :=
  bool_decide (rl_issuer_identifier_id l = issuer) && bool_decide (rl_purpose l = purpose) &&
  bool_decide (rl_type l = type) && bool_decide (rl_issuer_certificate_id l = certificate).

Definition get_revocation_by_issuer_identifier_id (issuer_identifier_id : Z)
  (issuer_certificate_id : option Z) (purpose : RevocationListPurpose)
  (status_list_type : string) (relations : RevocationListRelations) :
  M Db DataLayerError (option RevocationList) :=
  d ← get;
  match find_first (is_list_of issuer_identifier_id issuer_certificate_id purpose
                      status_list_type) (lists d) with
  | None => mret None
  | Some row => l ← entity_model_to_repository_model row relations; mret (Some l)
  end.

(** The rows with their [formatted_list] replaced. *)
Definition with_formatted (id : Z) (now : Z) (content : string) (l : ListRow) : ListRow :=
  if rl_id l =? id then
    mkListRow (rl_id l) (rl_created_date l) now content (rl_purpose l) (rl_format l) (rl_type l)
      (rl_issuer_identifier_id l) (rl_issuer_certificate_id l)
  else l.

Definition update_formatted_list (id : Z) (content : string) : M Db DataLayerError unit :=
  d ← get;
  match find_list id d with
  | None => throw RecordNotUpdated
  | Some _ => put (set_lists (with_formatted id (now_utc d) content <$> lists d) d)
  end.

(** The first row by descending index (NULLs come last), then its column. *)
Definition max_index (l : list (option Z)) : option Z :=
  foldr (fun i m => match i, m with
                    | Some i, Some m => Some (Z.max i m)
                    | Some i, None => Some i
                    | None, m => m
                    end) None l.

Definition entries_of (id : Z) (d : Db) : list EntryRow :=
  List.filter (fun e => e_list_id e =? id) (entries d).

Definition next_free_index (id : Z) : M Db DataLayerError Z :=
  d ← get;
  match max_index (e_index <$> entries_of id d) with
  | Some index => mret (u32_wrap (index + 1))
  | None =>
      match find_list id d with
      | None => throw (MissingRequiredRelation "revocation_list" id)
      | Some _ => mret 0
      end
  end.

(** The parts of [create_entry]: either the serial is set or the index, not
    both and not none; the row; the link from an attested key. *)
Definition entry_serial (entity_id : RevocationListEntityId) (index_on_status_list : option Z) :
  res DataLayerError (option (list Z)) :=
  match entity_id with
  | EntitySignature _ (Some serial) =>
      if bool_decide (is_Some index_on_status_list) then Err IncorrectParameters
      else Ok (Some serial)
  | _ => if bool_decide (index_on_status_list = None) then Err IncorrectParameters
         else Ok None
  end.

Definition new_entry_row (entry_id now list_id : Z) (entity_id : RevocationListEntityId)
  (index_on_status_list : option Z) (serial : option (list Z)) : EntryRow :=
  let credential_id := match entity_id with EntityCredential c => Some c | _ => None end in
  let signature_type := match entity_id with EntitySignature t _ => Some t | _ => None end in
  let type := match entity_id with
              | EntityCredential _ => EtCredential
              | EntitySignature _ _ => EtSignature
              | EntityWalletUnitAttestedKey _ => EtWalletUnitAttestedKey
              end in
  mkEntryRow entry_id now now list_id (u32_wrap <$> index_on_status_list) credential_id type
    signature_type EntryActive serial.

Definition link_attested_key (entity_id : RevocationListEntityId) (entry_id : Z) :
  M Db DataLayerError unit :=
  match entity_id with
  | EntityWalletUnitAttestedKey key =>
      d ← get;
      if existsb (fun k => k.1 =? key) (attested_keys d) then
        put (set_attested_keys
               ((fun k => if k.1 =? key then (key, Some entry_id) else k) <$> attested_keys d) d)
      else throw RecordNotUpdated
  | _ => mret tt
  end.

Definition create_entry (list_id : Z) (entity_id : RevocationListEntityId)
  (index_on_status_list : option Z) : M Db DataLayerError Z :=
  serial ← lift (entry_serial entity_id index_on_status_list);
  d ← get;
  entry_id ← new_v4;
  insert_entry (new_entry_row entry_id (now_utc d) list_id entity_id index_on_status_list serial);;
  link_attested_key entity_id entry_id;;
  mret entry_id.

(** The filter of [update_entry]. *)
Definition updates (id : UpdateRevocationListEntryId) (e : EntryRow) : bool :=
  match id with
  | UpdateCredentialEntry c => bool_decide (e_credential_id e = Some c)
  | UpdateEntryId i => e_id e =? i
  | UpdateEntryIndex l index =>
      (e_list_id e =? l) && bool_decide (e_index e = Some (u32_wrap index))
  end.

Definition with_status (now : Z) (status : option RevocationListEntryStatus) (e : EntryRow) :
  EntryRow :=
  mkEntryRow (e_id e) (e_created_date e) now (e_list_id e) (e_index e) (e_credential_id e)
    (e_type e) (e_signature_type e) (default (e_status e) status) (e_serial e).

Definition update_entry (id : UpdateRevocationListEntryId)
  (status : option RevocationListEntryStatus) : M Db DataLayerError unit :=
  d ← get;
  put (set_entries ((fun e => if updates id e then with_status (now_utc d) status e else e)
                      <$> entries d) d).

(** [CertificateSerial::try_from]. *)
Definition serial_try_from (bytes : list Z) : res DataLayerError (list Z) :=
  if 20 <? len bytes then Err DlDb else Ok bytes.

(** The closure of [get_filtered_entries]. *)
Definition entity_info_of (e : EntryRow) : res DataLayerError RevocationListEntityInfo :=
  match e_type e with
  | EtCredential => c ← ok_or (e_credential_id e) DlMappingError; Ok (InfoCredential c)
  | EtWalletUnitAttestedKey => Ok InfoWalletUnitAttestedKey
  | EtSignature =>
      t ← ok_or (e_signature_type e) DlMappingError;
      serial ← match e_serial e with
               | Some s => s' ← serial_try_from s; Ok (Some s')
               | None => Ok None
               end;
      Ok (InfoSignature t serial)
  end.

Definition entry_of_row (e : EntryRow) : res DataLayerError RevocationListEntry :=
  info ← entity_info_of e;
  Ok (mkRevocationListEntry (e_id e) (e_created_date e) (e_last_modified e) info (e_index e)
        (e_status e)).

(** ORDER BY index ascending, NULLs first. *)
Definition index_le (a b : EntryRow) : Prop :=
  match e_index a, e_index b with
  | None, _ => True
  | Some _, None => False
  | Some i, Some j => i <= j
  end.
#[export] Instance index_le_dec : RelDecision index_le.
Proof. intros a b. unfold index_le. destruct (e_index a), (e_index b); apply _. Defined.

Definition get_filtered_entries (filter : EntryRow -> bool) :
  M Db DataLayerError (list RevocationListEntry) :=
  d ← get;
  lift (try_map entry_of_row (merge_sort index_le (List.filter filter (entries d)))).

(** [Vec::pop]. *)
Definition get_entry_by_id (id : Z) : M Db DataLayerError (option RevocationListEntry) :=
  es ← get_filtered_entries (fun e => e_id e =? id);
  mret (last es).

Definition get_entries (list_id : Z) : M Db DataLayerError (list RevocationListEntry) :=
  get_filtered_entries (fun e => e_list_id e =? list_id).

Definition get_entries_by_id (ids : list Z) : M Db DataLayerError (list RevocationListEntry) :=
  get_filtered_entries (fun e => bool_decide (e_id e ∈ ids)).
End repository.

(** ** The invariant of the tables *)

(** The ids the generator returns are pairwise different, and so are their texts. *)
Class UuidLaws `{UuidSupply} := {
  uuid_inj :: Inj (=) (=) uuid_at;
  uuid_to_string_inj :: Inj (=) (=) uuid_to_string
}.

Definition list_key (l : ListRow) : Z * option Z * RevocationListPurpose * string :=
  (rl_issuer_identifier_id l, rl_issuer_certificate_id l, rl_purpose l, rl_type l).

(** The indexes taken on a list. *)
Definition indices (id : Z) (d : Db) : list Z := omap e_index (entries_of id d).

(** The indexes of a list are 0, 1, ..., n-1, in any order. *)
Definition dense (l : list Z) : Prop := l ≡ₚ seqZ 0 (len l).

Record wf `{UuidSupply} (d : Db) : Prop := mkWf {
  wf_list_ids : NoDup (rl_id <$> lists d);
  wf_list_keys : NoDup (list_key <$> lists d);
  wf_entry_ids : NoDup (e_id <$> entries d);
  wf_entry_list : forall e, e ∈ entries d -> is_Some (find_list (e_list_id e) d);
  wf_entry_row : forall e, e ∈ entries d -> exists x, entry_of_row e = Ok x;
  wf_indices : forall id, dense (indices id d) /\ len (indices id d) <= 4294967296;
  wf_fresh : forall n, (uuid_state d <= n)%nat ->
    (uuid_at n ∉ (rl_id <$> lists d)) /\ (uuid_at n ∉ (e_id <$> entries d))
}.

(** ** Lemmas on indexes *)

Lemma seqZ_snoc (n : Z) : 0 <= n -> seqZ 0 (n + 1) = seqZ 0 n ++ [n].
Proof.
  intros Hn. rewrite seqZ_app by lia. reflexivity.
Qed.

Lemma dense_nil : dense [].
Proof. unfold dense. done. Qed.

Lemma dense_snoc (l : list Z) : dense l -> dense (l ++ [len l]).
Proof.
  unfold dense. intros Hl. rewrite len_app. change (len [len l]) with 1.
  rewrite seqZ_snoc by apply len_nonneg. by rewrite <-Hl.
Qed.

Lemma dense_elem (l : list Z) (i : Z) : dense l -> (i ∈ l <-> 0 <= i < len l).
Proof. unfold dense. intros Hd. rewrite Hd at 1. rewrite elem_of_seqZ. lia. Qed.

Lemma dense_NoDup (l : list Z) : dense l -> NoDup l.
Proof. unfold dense. intros Hd. rewrite Hd. apply NoDup_seqZ. Qed.

Lemma max_index_spec (l : list (option Z)) :
  match max_index l with
  | Some m => Some m ∈ l /\ forall i, Some i ∈ l -> i <= m
  | None => forall i, Some i ∉ l
  end.
Proof.
  induction l as [|o l IH]; simpl; [by intros i ?%elem_of_nil|].
  destruct o as [i|].
  - destruct (max_index l) as [m|].
    + destruct IH as [Hin Hle]. split.
      * destruct (Z.max_spec i m) as [[? ->]|[? ->]]; [by right|left].
      * intros j [[= ->]|Hj]%elem_of_cons; [lia|]. specialize (Hle j Hj). lia.
    + split; [left|]. intros j [[= ->]|Hj]%elem_of_cons; [lia|]. by destruct (IH j).
  - destruct (max_index l) as [m|].
    + destruct IH as [Hin Hle]. split; [by right|]. intros j [?|Hj]%elem_of_cons; auto; done.
    + intros j [?|Hj]%elem_of_cons; [done|]. by destruct (IH j).
Qed.

Lemma elem_of_indices (id i : Z) (d : Db) :
  i ∈ indices id d <-> exists e, e ∈ entries d /\ e_list_id e = id /\ e_index e = Some i.
Proof.
  unfold indices, entries_of. rewrite list_elem_of_omap. split.
  - intros (e & Hin & He). apply list_elem_of_In, List.filter_In in Hin as [Hin Hl].
    apply Z.eqb_eq in Hl. apply list_elem_of_In in Hin. eauto.
  - intros (e & Hin & Hl & He). exists e. split; [|done].
    apply list_elem_of_In, List.filter_In. rewrite Z.eqb_eq. split; [|done].
    by apply list_elem_of_In.
Qed.

Lemma elem_of_index_column (id i : Z) (d : Db) :
  Some i ∈ (e_index <$> entries_of id d) <-> i ∈ indices id d.
Proof.
  unfold indices. rewrite list_elem_of_fmap, list_elem_of_omap.
  split; intros (e & He & Hin); exists e; auto.
Qed.

(** The highest index of a dense list of [n] entries is [n - 1]. *)
Lemma max_index_dense (id : Z) (d : Db) : dense (indices id d) ->
  max_index (e_index <$> entries_of id d) =
    if len (indices id d) =? 0 then None else Some (len (indices id d) - 1).
Proof.
  intros Hd. pose proof (max_index_spec (e_index <$> entries_of id d)) as Hm.
  pose proof (len_nonneg (indices id d)) as Hn.
  destruct (max_index _) as [m|].
  - destruct Hm as [Hin Hle]. rewrite elem_of_index_column, dense_elem in Hin by done.
    destruct (Z.eqb_spec (len (indices id d)) 0); [lia|]. f_equal.
    assert (len (indices id d) - 1 <= m); [|lia].
    apply Hle. rewrite elem_of_index_column, dense_elem by done. lia.
  - destruct (Z.eqb_spec (len (indices id d)) 0) as [|Hne]; [done|].
    destruct (Hm 0). rewrite elem_of_index_column, dense_elem by done. lia.
Qed.

(** ** Lemmas on the operations *)

(** The serial of an entity fits its column. *)
Definition entity_ok (entity : RevocationListEntityId) : Prop :=
  match entity with EntitySignature _ (Some serial) => len serial <= 20 | _ => True end.

Definition entity_credential (entity : RevocationListEntityId) : option Z :=
  match entity with EntityCredential c => Some c | _ => None end.

(** The tables other than the entries are those of [d]. *)
Definition same_lists (d d' : Db) : Prop :=
  lists d' = lists d /\ identifiers d' = identifiers d /\ certificates d' = certificates d /\
  credential_ids d' = credential_ids d.

Section operations.
Context `{UuidSupply} `{!UuidLaws}.

Lemma insert_entry_spec (row : EntryRow) (d : Db) :
  match insert_entry row d with
  | (Ok _, d') => d' = set_entries (entries d ++ [row]) d /\
      (forall r, r ∈ entries d -> entry_conflict r row = false) /\
      is_Some (find_list (e_list_id row) d)
  | (Err AlreadyExists, d') => d' = d /\ exists r, r ∈ entries d /\ entry_conflict r row = true
  | (Err IncorrectParameters, d') => d' = d /\
      (find_list (e_list_id row) d = None \/
       exists c, e_credential_id row = Some c /\ c ∉ credential_ids d)
  | _ => False
  end.
Proof.
  unfold insert_entry. destruct (existsb _ (entries d)) eqn:Hc.
  { split; [done|]. apply existsb_exists in Hc as (r & Hin & Hr).
    exists r. split; [by apply list_elem_of_In|done]. }
  destruct (existsb _ (lists d)) eqn:Hl; simpl.
  - destruct (match e_credential_id row with Some c => bool_decide (c ∈ credential_ids d)
              | None => true end) eqn:Hcr; simpl.
    + split_and!; [done| |].
      * intros r Hin. apply not_true_is_false. intros Hr.
        apply not_true_iff_false in Hc. apply Hc, existsb_exists. exists r.
        split; [by apply list_elem_of_In|done].
      * apply existsb_exists in Hl as (l & Hin & Hid). unfold find_list.
        destruct (find_first_exists (fun l => rl_id l =? e_list_id row) (lists d) l)
          as (y & -> & _); [by apply list_elem_of_In|done|by eexists].
    + split; [done|]. right. destruct (e_credential_id row) as [c|]; [|done].
      exists c. by apply bool_decide_eq_false in Hcr.
  - split; [done|]. left. unfold find_list.
    destruct (find_first _ _) as [l|] eqn:Hf; [|done].
    apply find_first_Some in Hf as [Hin Hid]. apply not_true_iff_false in Hl.
    destruct Hl. apply existsb_exists. exists l. split; [by apply list_elem_of_In|done].
Qed.

(** What a successful [create_entry] adds. *)
Definition created (lid : Z) (entity : RevocationListEntityId) (index : option Z) (d : Db)
  (eid : Z) (row : EntryRow) : Prop :=
  eid = uuid_at (uuid_state d) /\ e_id row = eid /\ e_list_id row = lid /\
  e_index row = u32_wrap <$> index /\ e_status row = EntryActive /\
  e_credential_id row = entity_credential entity /\
  (entity_ok entity -> exists x, entry_of_row row = Ok x) /\
  (forall r, r ∈ entries d -> entry_conflict r row = false) /\
  is_Some (find_list lid d).

Lemma link_attested_key_spec (entity : RevocationListEntityId) (eid : Z) (d : Db) :
  match link_attested_key entity eid d with
  | (Ok _, d') => exists ks, d' = set_attested_keys ks d
  | (Err e, d') => d' = d /\ e = RecordNotUpdated
  | (Panic, _) => False
  end.
Proof.
  unfold link_attested_key. destruct entity as [| |key]; run_M.
  - by exists (attested_keys d); destruct d.
  - by exists (attested_keys d); destruct d.
  - destruct (existsb _ _); [by eexists|done].
Qed.

Lemma new_entry_row_ok (eid now lid : Z) (entity : RevocationListEntityId) (index : option Z)
  (serial : option (list Z)) :
  entry_serial entity index = Ok serial -> entity_ok entity ->
  exists x, entry_of_row (new_entry_row eid now lid entity index serial) = Ok x.
Proof.
  unfold entry_serial, entity_ok. destruct entity as [c|t [s|]|k]; simpl; try by eexists.
  - case_bool_decide; [done|]. intros [= <-] Hs. unfold entry_of_row, entity_info_of, serial_try_from. simpl.
    destruct (Z.ltb_spec 20 (len s)); [lia|]. by eexists.
  - case_bool_decide; [done|]. intros [= <-] _. by eexists.
Qed.

Lemma entry_serial_err (entity : RevocationListEntityId) (index : option Z) (e : DataLayerError) :
  entry_serial entity index = Err e -> e = IncorrectParameters.
Proof. unfold entry_serial. destruct entity as [|? []|]; case_bool_decide; congruence. Qed.

Lemma create_entry_spec (lid : Z) (entity : RevocationListEntityId) (index : option Z) (d : Db) :
  match create_entry lid entity index d with
  | (Ok eid, d') => exists row, created lid entity index d eid row /\
      same_lists d d' /\ entries d' = entries d ++ [row] /\ uuid_state d' = S (uuid_state d)
  | (Err e, d') => same_lists d d' /\ now_utc d' = now_utc d /\
      (e = AlreadyExists -> entries d' = entries d /\ (uuid_state d <= uuid_state d')%nat) /\
      (e = AlreadyExists \/ e = IncorrectParameters \/ e = RecordNotUpdated)
  | (Panic, _) => False
  end.
Proof.
  unfold create_entry. run_M.
  destruct (entry_serial entity index) as [serial|e|] eqn:Hs.
  - simpl. set (d1 := set_uuid_state _ d). set (row := new_entry_row _ _ _ _ _ _).
    pose proof (insert_entry_spec row d1) as Hi.
    destruct (insert_entry row d1) as [[[]|[]|] d2]; try done; destruct Hi as [-> Hi];
      [|unfold d1, same_lists; by split_and!; simpl; auto..].
    destruct Hi as [Hconf Hl].
    pose proof (link_attested_key_spec entity (uuid_at (uuid_state d))
                  (set_entries (entries d1 ++ [row]) d1)) as Hk.
    destruct (link_attested_key _ _ _) as [[[]|e|] d3]; try done.
    + destruct Hk as [ks ->]. exists row. split; [|by split_and!].
      split_and!; try done. intros Ho. by apply (new_entry_row_ok _ _ _ _ _ _ Hs).
    + destruct Hk as [-> ->]. unfold d1. by split_and!; simpl; auto.
  - apply entry_serial_err in Hs as ->. by split_and!; auto.
  - unfold entry_serial in Hs. destruct entity as [|? []|]; case_bool_decide; done.
Qed.
End operations.

(** ** Preservation of the invariant *)

Lemma filter_app_list {A : Type} (p : A -> bool) (l k : list A) :
  List.filter p (l ++ k) = List.filter p l ++ List.filter p k.
Proof. apply List.filter_app. Qed.

Lemma filter_fmap_same {A : Type} (p : A -> bool) (f : A -> A) (l : list A) :
  (forall x, p (f x) = p x) -> List.filter p (f <$> l) = f <$> List.filter p l.
Proof.
  intros Hp. induction l as [|x l IH]; [done|]. rewrite fmap_cons. simpl. rewrite Hp, IH.
  by destruct (p x).
Qed.

Section invariant.
Context `{UuidSupply} `{!UuidLaws}.
Implicit Types (d : Db) (row : EntryRow).

Lemma find_list_ext (d d' : Db) (id : Z) : lists d' = lists d -> find_list id d' = find_list id d.
Proof. unfold find_list. by intros ->. Qed.

Lemma find_list_Some (d : Db) (id : Z) (l : ListRow) :
  find_list id d = Some l -> l ∈ lists d /\ rl_id l = id.
Proof. intros [Hin Hid%Z.eqb_eq]%find_first_Some. done. Qed.

Lemma indices_snoc (d d' : Db) (row : EntryRow) (id : Z) :
  entries d' = entries d ++ [row] ->
  indices id d' = indices id d ++
    (if e_list_id row =? id then option_list (e_index row) else []).
Proof.
  intros He. unfold indices, entries_of. rewrite He, filter_app_list, omap_app. f_equal.
  simpl. destruct (e_list_id row =? id); [|done]. simpl. by destruct (e_index row).
Qed.

Lemma wf_same_tables (d d' : Db) : wf d -> lists d' = lists d -> entries d' = entries d ->
  (uuid_state d <= uuid_state d')%nat -> wf d'.
Proof.
  intros [] Hl He Hu. split; rewrite ?Hl, ?He; try done.
  - intros e Hin. rewrite (find_list_ext d) by done. auto.
  - intros id. unfold indices, entries_of. rewrite He. apply wf_indices0.
  - intros n Hn. apply wf_fresh0. lia.
Qed.

Lemma wf_add_entry (d d' : Db) (row : EntryRow) : wf d ->
  lists d' = lists d -> entries d' = entries d ++ [row] -> uuid_state d' = S (uuid_state d) ->
  e_id row = uuid_at (uuid_state d) -> is_Some (find_list (e_list_id row) d) ->
  (exists x, entry_of_row row = Ok x) ->
  e_index row = None \/
    e_index row = Some (len (indices (e_list_id row) d)) /\
    len (indices (e_list_id row) d) < 4294967296 ->
  wf d'.
Proof.
  intros Hwf Hl He Hu Hid Hlist Hrow Hix. destruct (wf_fresh d Hwf (uuid_state d)) as [_ Hf]; [lia|].
  split; rewrite ?Hl, ?He.
  - apply Hwf.
  - apply Hwf.
  - rewrite fmap_app. apply NoDup_app. split_and!; [apply Hwf| |apply NoDup_singleton].
    intros x Hx ->%list_elem_of_singleton. rewrite Hid in Hx. done.
  - intros e [Hin| ->%list_elem_of_singleton]%elem_of_app; rewrite (find_list_ext d) by done;
      [by apply Hwf|done].
  - intros e [Hin| ->%list_elem_of_singleton]%elem_of_app; [by apply (wf_entry_row d)|done].
  - intros id. rewrite (indices_snoc d d' row id He).
    destruct (wf_indices d Hwf id) as [Hd Hn].
    destruct (Z.eqb_spec (e_list_id row) id) as [<-|Hne]; [|by rewrite app_nil_r].
    destruct Hix as [->|[-> Hlt]]; simpl; [by rewrite app_nil_r|].
    split; [by apply dense_snoc|]. rewrite len_app. change (len [_]) with 1. lia.
  - rewrite Hu. intros n Hn. destruct (wf_fresh d Hwf n) as [? Hn']; [lia|]. split; [done|].
    rewrite fmap_app, elem_of_app. intros [?|Hx%list_elem_of_singleton]; [done|].
    rewrite Hid in Hx. apply uuid_inj in Hx. lia.
Qed.

Lemma wf_add_list (d d' : Db) (row : ListRow) : wf d ->
  lists d' = lists d ++ [row] -> entries d' = entries d -> uuid_state d' = S (uuid_state d) ->
  rl_id row = uuid_at (uuid_state d) -> list_key row ∉ list_key <$> lists d -> wf d'.
Proof.
  intros Hwf Hl He Hu Hid Hk. destruct (wf_fresh d Hwf (uuid_state d)) as [Hf _]; [lia|].
  split; rewrite ?Hl, ?He.
  - rewrite fmap_app. apply NoDup_app. split_and!; [apply Hwf| |apply NoDup_singleton].
    intros x Hx ->%list_elem_of_singleton. rewrite Hid in Hx. done.
  - rewrite fmap_app. apply NoDup_app. split_and!; [apply Hwf| |apply NoDup_singleton].
    by intros x Hx ->%list_elem_of_singleton.
  - apply Hwf.
  - intros e [l Hfl]%(wf_entry_list d Hwf). apply find_list_Some in Hfl as [Hin Hlid].
    unfold find_list. rewrite Hl.
    destruct (find_first_exists (fun l => rl_id l =? e_list_id e) (lists d ++ [row]) l)
      as (y & -> & _); [set_solver|by apply Z.eqb_eq|by eexists].
  - apply Hwf.
  - intros id. unfold indices, entries_of. rewrite He. apply (wf_indices d Hwf).
  - rewrite Hu. intros n Hn. destruct (wf_fresh d Hwf n) as [Hn' ?]; [lia|]. split; [|done].
    rewrite fmap_app, elem_of_app. intros [?|Hx%list_elem_of_singleton]; [done|].
    rewrite Hid in Hx. apply uuid_inj in Hx. lia.
Qed.

(** An update of rows that keeps their keys, indexes and types. *)
Lemma wf_map_entries (d d' : Db) (f : EntryRow -> EntryRow) : wf d ->
  lists d' = lists d -> entries d' = f <$> entries d -> uuid_state d' = uuid_state d ->
  (forall e, e_id (f e) = e_id e /\ e_list_id (f e) = e_list_id e /\ e_index (f e) = e_index e) ->
  (forall e x, entry_of_row e = Ok x -> exists y, entry_of_row (f e) = Ok y) ->
  wf d' /\ forall id, indices id d' = indices id d.
Proof.
  intros Hwf Hl He Hu Hf Hx.
  assert (Hids : e_id <$> (f <$> entries d) = e_id <$> entries d).
  { rewrite <-list_fmap_compose. apply list_fmap_ext. intros ? e _. apply Hf. }
  assert (Hix : forall id, indices id d' = indices id d).
  { intros id. unfold indices, entries_of. rewrite He, filter_fmap_same.
    - apply list_omap_ext, Forall2_fmap_l, Forall_Forall2_diag, Forall_forall.
      intros e _. apply Hf.
    - intros e. by rewrite (proj1 (proj2 (Hf e))). }
  split; [|done]. split; rewrite ?Hl, ?He, ?Hids, ?Hu; try apply Hwf.
  - intros e (e0 & -> & Hin)%list_elem_of_fmap. rewrite (find_list_ext d) by done.
    rewrite (proj1 (proj2 (Hf e0))). by apply Hwf.
  - intros e (e0 & -> & Hin)%list_elem_of_fmap.
    destruct (wf_entry_row d Hwf e0 Hin) as [x Hx0]. eauto.
  - intros id. rewrite Hix. apply (wf_indices d Hwf).
Qed.
End invariant.

(** ** The operations on well-formed tables *)

(** Neither tables nor ids are lost: what other transactions may do to a store. *)
Definition same_slot (e e' : EntryRow) : Prop :=
  e_id e' = e_id e /\ e_list_id e' = e_list_id e /\ e_index e' = e_index e /\
  e_credential_id e' = e_credential_id e.

Definition grows (d d' : Db) : Prop :=
  (forall id, is_Some (find_list id d) -> is_Some (find_list id d')) /\
  (forall c, c ∈ credential_ids d -> c ∈ credential_ids d') /\
  (forall id, len (indices id d) <= len (indices id d')) /\
  (forall e, e ∈ entries d -> exists e', e' ∈ entries d' /\ same_slot e e').

Lemma same_entries_slots (d d' : Db) : entries d' = entries d ->
  forall e, e ∈ entries d -> exists e', e' ∈ entries d' /\ same_slot e e'.
Proof. intros -> e He. by exists e. Qed.

#[export] Instance grows_preorder : PreOrder grows.
Proof.
  split; [intros d; split_and!; [done..|by apply same_entries_slots]|].
  intros d1 d2 d3 (H1 & H2 & H3 & H4) (H5 & H6 & H7 & H8). split_and!; auto.
  - intros id. specialize (H3 id). specialize (H7 id). lia.
  - intros e (e' & He' & Hs)%H4. destruct (H8 e' He') as (e2 & He2 & Hs2).
    exists e2. split; [done|]. unfold same_slot in *. destruct_and!. split_and!; congruence.
Qed.

Section specs.
Context `{UuidSupply} `{!UuidLaws}.

Lemma next_free_index_spec (id : Z) (d : Db) : wf d -> is_Some (find_list id d) ->
  next_free_index id d = (Ok (u32_wrap (len (indices id d))), d).
Proof.
  intros Hwf [l Hl]. unfold next_free_index. run_M.
  destruct (wf_indices d Hwf id) as [Hd _]. rewrite max_index_dense by done.
  destruct (Z.eqb_spec (len (indices id d)) 0) as [->|Hne]; [by rewrite Hl|].
  repeat f_equal. lia.
Qed.

Lemma u32_wrap_small (z : Z) : 0 <= z < 4294967296 -> u32_wrap z = z.
Proof. apply Z.mod_small. Qed.

Lemma u32_wrap_idem (z : Z) : u32_wrap (u32_wrap z) = u32_wrap z.
Proof. apply Z.mod_mod. lia. Qed.

(** The index below which a list is full wraps around to one that is taken. *)
Lemma free_index_conflict (id : Z) (d : Db) : wf d ->
  u32_wrap (len (indices id d)) ∈ indices id d <-> len (indices id d) = 4294967296.
Proof.
  intros Hwf. destruct (wf_indices d Hwf id) as [Hd Hn]. rewrite dense_elem by done.
  pose proof (len_nonneg (indices id d)). split; intros Hx.
  - destruct (Z_lt_le_dec (len (indices id d)) 4294967296); [|lia].
    rewrite u32_wrap_small in Hx by lia. lia.
  - rewrite Hx. vm_compute. split; [discriminate|reflexivity].
Qed.

Lemma no_conflict_index (d : Db) (row : EntryRow) (i : Z) :
  (forall r, r ∈ entries d -> entry_conflict r row = false) -> e_index row = Some i ->
  i ∉ indices (e_list_id row) d.
Proof.
  intros Hc Hi (e & Hin & Hl & He)%elem_of_indices. specialize (Hc e Hin).
  unfold entry_conflict in Hc. rewrite Hl, He, Hi, !Z.eqb_refl in Hc.
  rewrite andb_true_l, orb_true_l, orb_true_r in Hc. done.
Qed.

(** An entry created at the next free index extends the dense indexes. *)
Lemma created_wf (lid : Z) (entity : RevocationListEntityId) (d d' : Db) (eid : Z)
  (row : EntryRow) (i : Z) : wf d -> entity_ok entity ->
  created lid entity (Some i) d eid row -> u32_wrap i = u32_wrap (len (indices lid d)) ->
  lists d' = lists d -> entries d' = entries d ++ [row] -> uuid_state d' = S (uuid_state d) ->
  wf d' /\ len (indices lid d) < 4294967296 /\ e_index row = Some (len (indices lid d)).
Proof.
  intros Hwf Ho (-> & Hid & Hl & Hi & _ & _ & Hrow & Hconf & Hlist) Hw Hls He Hu.
  simpl in Hi. rewrite Hw in Hi. destruct (wf_indices d Hwf lid) as [Hd Hn].
  assert (Hlt : len (indices lid d) < 4294967296).
  { destruct (Z_lt_le_dec (len (indices lid d)) 4294967296); [done|].
    destruct (no_conflict_index d row _ Hconf Hi). rewrite Hl.
    apply free_index_conflict; [done|lia]. }
  pose proof (len_nonneg (indices lid d)).
  rewrite u32_wrap_small in Hi by lia. split_and!; [|done..].
  eapply (wf_add_entry d d' row); eauto; rewrite Hl; auto.
Qed.

Lemma update_entry_wf (id : UpdateRevocationListEntryId) (st : option RevocationListEntryStatus)
  (d : Db) : wf d -> exists d', update_entry id st d = (Ok tt, d') /\ wf d' /\
    same_lists d d' /\ (forall l, indices l d' = indices l d) /\
    entries d' = (fun e => if updates id e then with_status (now_utc d) st e else e) <$> entries d.
Proof.
  intros Hwf. eexists. split; [reflexivity|].
  destruct (wf_map_entries d
    (set_entries ((fun e => if updates id e then with_status (now_utc d) st e else e)
                    <$> entries d) d)
    (fun e => if updates id e then with_status (now_utc d) st e else e)) as [Hw Hix]; try done.
  - intros e. by destruct (updates id e).
  - intros e x Hx. destruct (updates id e); [|eauto]. unfold entry_of_row in *. simpl.
    change (entity_info_of (with_status (now_utc d) st e)) with (entity_info_of e).
    destruct (entity_info_of e); simpl in *; [eauto|done..].
Qed.

Lemma with_formatted_key (id now : Z) (c : string) (l : ListRow) :
  rl_id (with_formatted id now c l) = rl_id l /\ list_key (with_formatted id now c l) = list_key l.
Proof. unfold with_formatted. by destruct (rl_id l =? id). Qed.

Lemma find_list_formatted (id now : Z) (c : string) (ls : list ListRow) (x : Z) :
  find_first (fun l => rl_id l =? x) (with_formatted id now c <$> ls) =
    with_formatted id now c <$> find_first (fun l => rl_id l =? x) ls.
Proof.
  induction ls as [|l ls IH]; [done|]. rewrite fmap_cons. unfold find_first in *. simpl.
  rewrite (proj1 (with_formatted_key id now c l)), IH. by destruct (rl_id l =? x).
Qed.

Lemma update_formatted_list_missing (id : Z) (content : string) (d : Db) :
  find_list id d = None -> update_formatted_list id content d = (Err RecordNotUpdated, d).
Proof. unfold update_formatted_list. run_M. by intros ->. Qed.

Lemma update_formatted_list_wf (id : Z) (content : string) (d : Db) :
  wf d -> is_Some (find_list id d) ->
  exists d', update_formatted_list id content d = (Ok tt, d') /\ wf d' /\
    entries d' = entries d /\ (forall l, indices l d' = indices l d) /\
    (exists l, find_list id d' = Some l /\ rl_formatted_list l = content) /\ grows d d' /\
    lists d' = with_formatted id (now_utc d) content <$> lists d.
Proof.
  intros Hwf [l Hl]. unfold update_formatted_list. run_M. rewrite Hl. eexists.
  split; [reflexivity|].
  assert (Hf : forall x, find_list x (set_lists (with_formatted id (now_utc d) content <$> lists d) d)
               = with_formatted id (now_utc d) content <$> find_list x d).
  { intros x. apply find_list_formatted. }
  split_and!; try done.
  - split; simpl; try apply Hwf.
    + rewrite <-list_fmap_compose. erewrite (list_fmap_ext _ rl_id); [apply Hwf|].
      intros ? x _. apply with_formatted_key.
    + rewrite <-list_fmap_compose. erewrite (list_fmap_ext _ list_key); [apply Hwf|].
      intros ? x _. apply with_formatted_key.
    + intros e He. rewrite Hf. destruct (wf_entry_list d Hwf e He) as [? ->]. by eexists.
    + intros n Hn. rewrite <-list_fmap_compose. erewrite (list_fmap_ext _ rl_id);
        [by apply (wf_fresh d Hwf)|]. intros ? x _. apply with_formatted_key.
  - exists (with_formatted id (now_utc d) content l). rewrite Hf, Hl. split; [done|].
    unfold with_formatted. apply find_list_Some in Hl as [_ ->]. by rewrite Z.eqb_refl.
  - split_and!; [|done..|by apply same_entries_slots]. intros x [y Hy]. rewrite Hf, Hy. by eexists.
Qed.
End specs.

(** ** Reading the entries of a list *)

(** The list has an entry at index [i] with status [st]. *)
Definition entry_at (lid i : Z) (st : RevocationListEntryStatus) (d : Db) : Prop :=
  exists e, e ∈ entries d /\ e_list_id e = lid /\ e_index e = Some i /\ e_status e = st.

(** Every entry of the list is addressed by an index (not by a serial). *)
Definition indexed (lid : Z) (d : Db) : Prop :=
  forall e, e ∈ entries d -> e_list_id e = lid -> is_Some (e_index e).

Section reading.
Context `{UuidSupply} `{!UuidLaws}.

Lemma entry_at_unique (lid i : Z) (st st' : RevocationListEntryStatus) (d : Db) : wf d ->
  entry_at lid i st d -> entry_at lid i st' d -> st = st'.
Proof.
  intros Hwf (e & He & Hl & Hi & <-) (e' & He' & Hl' & Hi' & <-).
  enough (e = e') as -> by done.
  assert (Hin : forall x, x ∈ entries d -> e_list_id x = lid -> x ∈ entries_of lid d).
  { intros x Hx Hxl. apply list_elem_of_In, List.filter_In. rewrite Z.eqb_eq.
    split; [by apply list_elem_of_In|done]. }
  pose proof (dense_NoDup _ (proj1 (wf_indices d Hwf lid))) as Hnd. unfold indices in Hnd.
  specialize (Hin e He Hl) as H1. specialize (Hin e' He' Hl') as H2.
  revert Hnd H1 H2 Hi Hi'. generalize (entries_of lid d). clear.
  induction l as [|x l IH]; intros Hnd H1 H2 Hi Hi'; [by apply elem_of_nil in H1|].
  apply elem_of_cons in H1, H2. simpl in Hnd.
  assert (Hnew : forall a, e_index x = Some i -> a ∈ l -> e_index a = Some i -> False).
  { intros a Hx Ha Hai. rewrite Hx in Hnd. apply NoDup_cons in Hnd as [Hn _]. apply Hn.
    apply list_elem_of_omap. eauto. }
  destruct H1 as [->|H1], H2 as [->|H2]; [done|exfalso; eauto..|].
  apply IH; auto. destruct (e_index x); [by apply NoDup_cons in Hnd as [_ Hnd]|done].
Qed.

Lemma get_entries_spec (lid : Z) (d : Db) : wf d ->
  exists es, get_entries lid d = (Ok es, d) /\
    (forall i st, (exists x, x ∈ es /\ entry_index x = Some i /\ entry_status x = st) <->
                  entry_at lid i st d) /\
    (indexed lid d <-> forall x, x ∈ es -> is_Some (entry_index x)) /\
    (indexed lid d -> len es = len (indices lid d)).
Proof.
  intros Hwf. unfold get_entries, get_filtered_entries. run_M.
  set (rows := merge_sort index_le _).
  assert (Hperm : rows ≡ₚ entries_of lid d) by apply merge_sort_Permutation.
  assert (Hel : forall e, e ∈ rows <-> e ∈ entries d /\ e_list_id e = lid).
  { intros e. rewrite Hperm. unfold entries_of. rewrite list_elem_of_In, List.filter_In, Z.eqb_eq.
    by rewrite list_elem_of_In. }
  set (f := fun e => mkRevocationListEntry (e_id e) (e_created_date e) (e_last_modified e)
                       (match entity_info_of e with Ok x => x | _ => InfoWalletUnitAttestedKey end)
                       (e_index e) (e_status e)).
  rewrite (try_map_total _ f).
  2: { intros e [He _]%Hel. destruct (wf_entry_row d Hwf e He) as [x Hx]. unfold f.
       unfold entry_of_row in *. destruct (entity_info_of e); simpl in *; done. }
  eexists. split; [reflexivity|]. split.
  - intros i st. split.
    + intros (x & (e & -> & [He Hl]%Hel)%list_elem_of_fmap & Hi & Hs). exists e. auto.
    + intros (e & He & Hl & Hi & Hs). exists (f e). split; [|done].
      apply list_elem_of_fmap. exists e. by rewrite Hel.
  - split; [split|]; intros Hix.
    + intros x (e & -> & [He Hl]%Hel)%list_elem_of_fmap. exact (Hix e He Hl).
    + intros e He Hl. apply (Hix (f e)), list_elem_of_fmap. exists e. by rewrite Hel.
    + unfold len. rewrite length_fmap, (Permutation_length Hperm). unfold indices. f_equal.
      assert (Hall : Forall (fun e => is_Some (e_index e)) (entries_of lid d)).
      { apply Forall_forall. intros e He. rewrite <-Hperm, Hel in He. by apply (Hix e (proj1 He)), He. }
      clear -Hall.
      induction Hall as [|e l [i Hi] _ IH]; simpl; [done|]. rewrite Hi.
      simpl. f_equal. apply IH.
Qed.
End reading.

(** The list of an entry. *)
Lemma list_by_entry_spec (id : Z) (rel : RevocationListRelations) (d : Db) :
  match get_revocation_list_by_entry_id id rel d with
  | (Ok (Some l), d') => d' = d /\ exists e, e ∈ entries d /\ e_id e = id /\ e_list_id e = list_id l
  | (Ok None, d') => d' = d
  | (Err _, d') => d' = d
  | (Panic, _) => False
  end.
Proof.
  unfold get_revocation_list_by_entry_id, get_revocation_list, entity_model_to_repository_model.
  run_M. destruct (find_first _ (entries d)) as [e|] eqn:He; [|done].
  apply find_first_Some in He as [Hin Hid%Z.eqb_eq].
  destruct (find_list (e_list_id e) d) as [row|] eqn:Hl; [|done].
  apply find_list_Some in Hl as [_ Hl].
  destruct (with_issuer_identifier rel), (with_issuer_certificate rel),
    (rl_issuer_certificate_id row); repeat case_match; simplify_eq/=; eauto 10.
Qed.

(** ** The steps of the repository *)

(** What happens to the store when the operations run, one after the other,
    for any number of clients: a list is created under a generated id, an
    entry is added at the next free index or under a serial, statuses and
    published lists are updated, the clock advances. *)
Inductive repo_step `{UuidSupply} : Db -> Db -> Prop :=
| step_create_list (mk : Z -> RevocationList) (d d' : Db) (id : Z) :
    (forall id, list_id (mk id) = id) ->
    (id ← new_v4; create_revocation_list (mk id)) d = (Ok id, d') -> repo_step d d'
| step_allocate (lid index eid : Z) (entity : RevocationListEntityId) (d d1 d' : Db) :
    entity_ok entity ->
    next_free_index lid d = (Ok index, d1) ->
    create_entry lid entity (Some index) d1 = (Ok eid, d') -> repo_step d d'
| step_serial (lid eid : Z) (type : string) (serial : list Z) (d d' : Db) :
    len serial <= 20 ->
    create_entry lid (EntitySignature type (Some serial)) None d = (Ok eid, d') -> repo_step d d'
| step_update_entry (id : UpdateRevocationListEntryId)
    (st : option RevocationListEntryStatus) (d d' : Db) :
    update_entry id st d = (Ok tt, d') -> repo_step d d'
| step_update_formatted (id : Z) (content : string) (d d' : Db) :
    update_formatted_list id content d = (Ok tt, d') -> repo_step d d'
| step_tick (now : Z) (d : Db) :
    repo_step d (mkDb (lists d) (entries d) (attested_keys d) (identifiers d) (certificates d)
                   (credential_ids d) now (uuid_state d)).

Section steps.
Context `{UuidSupply} `{!UuidLaws}.

Lemma find_list_snoc (d d' : Db) (row : ListRow) (id : Z) : lists d' = lists d ++ [row] ->
  is_Some (find_list id d) -> find_list id d' = find_list id d.
Proof.
  intros Hl [l Hf]. unfold find_list in *. rewrite Hl, Hf. revert Hf. generalize (lists d).
  unfold find_first. induction l0 as [|x l0 IH]; simpl; [done|].
  destruct (rl_id x =? id); auto.
Qed.

Lemma insert_list_spec (row : ListRow) (d : Db) :
  match insert_list row d with
  | (Ok _, d') => d' = set_lists (lists d ++ [row]) d /\ (list_key row ∉ list_key <$> lists d) /\
      rl_id row ∉ rl_id <$> lists d
  | (Err e, d') => d' = d /\ (e = AlreadyExists \/ e = IncorrectParameters)
  | (Panic, _) => False
  end.
Proof.
  unfold insert_list. destruct (existsb _ (lists d)) eqn:Hc; [by auto|].
  destruct (negb _); [by auto|]. split; [done|]. apply not_true_iff_false in Hc.
  rewrite existsb_exists in Hc.
  split; intros (r & Hr & Hin)%list_elem_of_fmap; apply Hc; exists r;
    (split; [by apply list_elem_of_In|]); apply orb_true_iff.
  - right. unfold same_list_key, list_key in *. injection Hr as <- <- <- <-.
    by rewrite !bool_decide_eq_true_2.
  - left. by apply Z.eqb_eq.
Qed.

(** Creating a list under a generated id. *)
Lemma create_list_spec (mk : Z -> RevocationList) (d : Db) :
  wf d -> (forall id, list_id (mk id) = id) ->
  match (id ← new_v4; create_revocation_list (mk id)) d with
  | (Ok id, d') => wf d' /\ grows d d' /\ id = uuid_at (uuid_state d) /\
      entries d' = entries d /\ indices id d' = [] /\
      (exists issuer row, list_issuer_identifier (mk id) = Some issuer /\
        find_list id d' = Some row /\ lists d' = lists d ++ [row] /\
        rl_issuer_identifier_id row = identifier_id issuer /\
        rl_issuer_certificate_id row = cert_id <$> list_issuer_certificate (mk id) /\
        rl_purpose row = list_purpose (mk id) /\ rl_type row = list_type (mk id) /\
        rl_formatted_list row = formatted_list (mk id))
  | (Err e, _) => e = DlMappingError \/ e = AlreadyExists \/ e = IncorrectParameters
  | (Panic, _) => False
  end.
Proof.
  intros Hwf Hid. unfold create_revocation_list. run_M. simpl.
  destruct (list_issuer_identifier _) as [issuer|] eqn:Hi; simpl; [|by auto].
  set (row := mkListRow _ _ _ _ _ _ _ _ _). set (d1 := set_uuid_state _ d).
  pose proof (insert_list_spec row d1) as Hs. destruct (insert_list row d1) as [[[]|e|] d'];
    [|by destruct Hs; auto|done].
  destruct Hs as (-> & Hk & Hr). rewrite Hid.
  assert (Hfind : find_first (fun l => rl_id l =? uuid_at (uuid_state d)) (lists d ++ [row])
                  = Some row).
  { destruct (wf_fresh d Hwf (uuid_state d)) as [Hf _]; [lia|]. revert Hf.
    unfold find_first. induction (lists d) as [|x ls IH]; simpl.
    - rewrite Hid, Z.eqb_refl. done.
    - rewrite not_elem_of_cons. intros [Hne Hf].
      destruct (Z.eqb_spec (rl_id x) (uuid_at (uuid_state d))); [congruence|auto]. }
  split_and!; try done.
  - apply (wf_add_list d _ row); auto. simpl. apply Hid.
  - split_and!; [|done..|by apply same_entries_slots].
    intros id Hl. rewrite (find_list_snoc d _ row); done.
  - match goal with |- ?l = [] => destruct l as [|i l'] eqn:Hn; [done|exfalso] end.
    assert (Hel : i ∈ i :: l') by left. rewrite <-Hn in Hel. revert Hel. intros (e & He & Hl & _)%elem_of_indices. simpl in He.
    destruct (wf_entry_list d Hwf e He) as [l [Hin Hx]%find_list_Some].
    destruct (wf_fresh d Hwf (uuid_state d)) as [Hf _]; [lia|]. apply Hf.
    apply list_elem_of_fmap. exists l. split; [congruence|done].
  - by exists issuer, row.
Qed.

Lemma same_lists_grows (d d' : Db) : same_lists d d' ->
  (forall id, len (indices id d) <= len (indices id d')) ->
  (forall e, e ∈ entries d -> exists e', e' ∈ entries d' /\ same_slot e e') -> grows d d'.
Proof.
  intros (Hl & _ & _ & Hc) Hi He. split_and!; [|by rewrite Hc|done..].
  intros id. unfold find_list. by rewrite Hl.
Qed.

Lemma created_grows (d d' : Db) (row : EntryRow) : same_lists d d' ->
  entries d' = entries d ++ [row] -> grows d d'.
Proof.
  intros Hs He. apply same_lists_grows; [done| |].
  2: { intros e Hin. exists e. split; [|done]. rewrite He. set_solver. }
  intros id. rewrite (indices_snoc d d' row id He), len_app. pose proof (len_nonneg
    (if e_list_id row =? id then option_list (e_index row) else [])). lia.
Qed.

Lemma next_free_index_ok (lid index : Z) (d d1 : Db) :
  wf d -> next_free_index lid d = (Ok index, d1) ->
  d1 = d /\ is_Some (find_list lid d) /\ index = u32_wrap (len (indices lid d)).
Proof.
  intros Hwf Hn. destruct (find_list lid d) as [l|] eqn:Hl.
  - rewrite next_free_index_spec in Hn by (done || by rewrite Hl). injection Hn as <- <-. by eauto.
  - exfalso. unfold next_free_index in Hn. revert Hn. run_M.
    destruct (max_index _) as [m|] eqn:Hm; [|by rewrite Hl].
    pose proof (max_index_spec (e_index <$> entries_of lid d)) as Hs. rewrite Hm in Hs.
    destruct Hs as [(e & Hin & Hlid & _)%elem_of_index_column%elem_of_indices _].
    destruct (wf_entry_list d Hwf e Hin) as [l Hx]. congruence.
Qed.

Lemma repo_step_wf (d d' : Db) : repo_step d d' -> wf d -> wf d' /\ grows d d'.
Proof.
  intros Hs Hwf. destruct Hs as [mk d d' id Hmk Hc|lid i eid ent d d1 d' Ho Hn Hc
    |lid eid t s d d' Hlen Hc|id st d d' Hu|id c d d' Hu|now d].
  - pose proof (create_list_spec mk d Hwf Hmk) as Hsp. rewrite Hc in Hsp. by destruct_and! Hsp.
  - apply next_free_index_ok in Hn as (-> & Hl & ->); [|done].
    pose proof (create_entry_spec lid ent (Some (u32_wrap (len (indices lid d)))) d) as Hsp.
    rewrite Hc in Hsp. destruct Hsp as (row & Hcr & Hsl & He & Hu).
    split; [|by eapply created_grows].
    eapply (created_wf lid ent d d' eid row); eauto; [apply u32_wrap_idem|apply Hsl].
  - pose proof (create_entry_spec lid (EntitySignature t (Some s)) None d) as Hsp.
    rewrite Hc in Hsp. destruct Hsp as (row & Hcr & Hsl & He & Hu).
    split; [|by eapply created_grows].
    destruct Hcr as (-> & Hid & Hl & Hi & _ & _ & Hrow & Hconf & Hlist).
    eapply (wf_add_entry d d' row); eauto; [apply Hsl|by rewrite Hl].
  - destruct (update_entry_wf id st d Hwf) as (d2 & Hu2 & Hw & Hsl & Hix & He).
    rewrite Hu in Hu2. injection Hu2 as <-. split; [done|]. apply same_lists_grows; [done| |].
    + intros l. by rewrite Hix.
    + intros e Hin. rewrite He. eexists. split; [by apply list_elem_of_fmap_2|].
      by destruct (updates id e).
  - destruct (find_list id d) as [l|] eqn:Hl.
    + destruct (update_formatted_list_wf id c d Hwf) as (d2 & Hu2 & Hw & _ & _ & _ & Hg & _);
        [by rewrite Hl|]. rewrite Hu in Hu2. by injection Hu2 as <-.
    + unfold update_formatted_list in Hu. revert Hu. run_M. by rewrite Hl.
  - split; [by eapply wf_same_tables|].
    split_and!; [done..|by apply same_entries_slots].
Qed.

Lemma repo_steps_wf (d d' : Db) : rtc repo_step d d' -> wf d -> wf d' /\ grows d d'.
Proof.
  induction 1 as [|d d1 d' Hs _ IH]; intros Hwf; [done|].
  destruct (repo_step_wf d d1 Hs Hwf) as [Hw Hg]. destruct (IH Hw) as [? Hg'].
  split; [done|]. by etrans.
Qed.
End steps.

(** ** Properties *)


(** ** Witnesses *)

Module RepoWitness.
#[export] Instance uuids : UuidSupply :=
  {| uuid_at n := Z.of_nat n + 1; uuid_to_string := pretty |}.
#[export] Instance uuid_laws : UuidLaws.
Proof. split; [intros n m; simpl; lia|apply _]. Qed.

Definition issuer_key : Key := mkKey 5 "ECDSA" None.
Definition issuer : Identifier :=
  mkIdentifier 7 TypeDid false
    (Some (mkDid 8 "did:key:issuer" false (Some [mkRelatedKey AssertionMethod issuer_key "k"])))
    None None.
Definition row (purpose : RevocationListPurpose) : ListRow :=
  mkListRow 1 0 0 "" purpose FJwt "STATUS_LIST" 7 None.

(** One list, no entries, two credentials. *)
Definition db_of (purpose : RevocationListPurpose) : Db :=
  mkDb [row purpose] [] [] [issuer] [] [50; 51] 1000 1.
Definition db : Db := db_of PRevocation.

Lemma db_of_wf (purpose : RevocationListPurpose) : wf (db_of purpose).
Proof.
  split; simpl.
  - apply NoDup_singleton.
  - apply NoDup_singleton.
  - constructor.
  - by intros e ?%elem_of_nil.
  - by intros e ?%elem_of_nil.
  - intros id. split; [apply dense_nil|]. vm_compute. discriminate.
  - intros n Hn. split; [|by intros ?%elem_of_nil]. intros Hx%list_elem_of_singleton. lia.
Qed.
Definition db_wf : wf db := db_of_wf PRevocation.

(** The store with credential 50 at index 0 of its list, entry 2. *)
Definition db_issued (purpose : RevocationListPurpose) : Db :=
  (create_entry 1 (EntityCredential 50) (Some 0) (db_of purpose)).2.
Lemma db_issued_wf (purpose : RevocationListPurpose) : wf (db_issued purpose).
Proof.
  eapply (repo_step_wf (db_of purpose)); [|apply db_of_wf].
  eapply (step_allocate 1 0 2 (EntityCredential 50)); [done|vm_compute; reflexivity..].
Qed.
End RepoWitness.

Import RepoWitness.

