(* ===== verification/RevocationMethod.v ===== *)
(** * What the status list methods share

    The data the two status list methods work on ([Credential] of
    [model/credential.rs], [CredentialStatus] of
    [credential_formatter/model.rs], [RevocationError] of
    [provider/revocation/error.rs]), the providers they call, and the retry
    loop that allocates an index on a list, which is the same in
    [bitstring_status_list/mod.rs] and [token_status_list/mod.rs].

    The key provider, the credential formatters and the URL parser are the
    operations of the class [StatusProviders]: trait objects and another
    crate. Other clients of the database run concurrently. Their transactions
    are the argument [interfere] of the loop: [interfere k] is what they
    commit between the read of the free index and the insert of attempt [k]. *)

From S2P Require Import Prelude StatusBits KeySelection RevocationRepo.
#[local] Open Scope Z_scope.

(** ** Credentials *)

Inductive CredentialStateEnum :=
| CsCreated | CsPending | CsOffered | CsAccepted | CsRejected | CsRevoked | CsSuspended | CsError
| CsInteractionExpired.
#[export] Instance CredentialStateEnum_eq_dec : EqDecision CredentialStateEnum.
Proof. solve_decision. Defined.

Inductive CredentialRole := Holder | Issuer | Verifier.
#[export] Instance CredentialRole_eq_dec : EqDecision CredentialRole.
Proof. solve_decision. Defined.

Record CredentialSchema := mkCredentialSchema {
  schema_id : Z;
  allow_suspension : bool;
  revocation_method : option string;
  schema_organisation : option Z;
  schema_format : string
}.

Record Credential := mkCredential {
  credential_id : Z;
  deleted_at : option Z;
  credential_role : CredentialRole;
  credential_state : CredentialStateEnum;
  suspend_end_date : option Z;
  credential_blob_id : option Z;
  issuer_identifier : option Identifier;
  issuer_certificate : option Certificate;
  credential_schema : option CredentialSchema
}.

(** [CredentialStatus] with its flattened JSON fields. *)
Inductive JsonValue := JString (s : string) | JOther.
Definition as_str (v : JsonValue) : option string :=
  match v with JString s => Some s | JOther => None end.

Record CredentialStatus := mkCredentialStatus {
  cst_id : option string;
  cst_type : string;
  cst_purpose : option string;
  cst_fields : gmap string JsonValue
}.

(** ** Errors *)

(** The errors that [error_while] wraps; those of a provider keep their code. *)
Inductive NestedError :=
| NestedData (e : DataLayerError)
| NestedBitstring (e : BitstringError)
| NestedToken (e : TokenError)
| NestedProvider (code : string).

Inductive RevocationError :=
| FormatterNotFound (format : string)
| InvalidIdentifierType (type : IdentifierType)
| InvalidKeyAlgorithm (type : string)
| KeyWithRoleNotFound (role : KeyRole)
| RvMappingError (what : string)
| MissingCredentialIndexOnRevocationList (credential identifier : Z)
| OperationNotSupported (what : string)
| ValidationError (what : string)
| FromUtf8Error
| JsonError
| Nested (e : NestedError).

(** [ErrorCodeMixin::error_code] of the errors above. *)
Definition nested_error_code (e : NestedError) : string :=
  match e with
  | NestedData AlreadyExists => "BR_0357"
  | NestedData DlDb => "BR_0054"
  | NestedData _ => "BR_0000"
  | NestedBitstring _ => "BR_0049"
  | NestedToken _ => "BR_0101"
  | NestedProvider code => code
  end.

Definition error_code (e : RevocationError) : string :=
  match e with
  | OperationNotSupported _ => "BR_0098"
  | Nested nested => nested_error_code nested
  | _ => "BR_0101"
  end.

Definition data_error (e : DataLayerError) : RevocationError := Nested (NestedData e).

(** ** Providers *)

Inductive StatusPurpose := SpRevocation | SpSuspension | SpRevocationAndSuspension.

(** [impl From<RevocationListPurpose> for StatusPurpose], and its text. *)
Definition status_purpose_of (p : RevocationListPurpose) : StatusPurpose :=
  match p with
  | PRevocation => SpRevocation
  | PSuspension => SpSuspension
  | PRevocationAndSuspension => SpRevocationAndSuspension
  end.

Definition status_purpose_to_string (p : StatusPurpose) : string :=
  match p with
  | SpRevocation => "revocation"
  | SpSuspension => "suspension"
  | SpRevocationAndSuspension => "revocation_and_suspension"
  end.

Inductive RevocationType := BitstringStatusListType | TokenStatusListType.

(** [KeyProvider::get_signature_provider], [CredentialFormatterProvider] and
    [CredentialFormatter::format_status_list], [Url::parse]; an [inl] is the
    error code. *)
Class StatusProviders := {
  AuthFn : Type;
  Formatter : Type;
  get_signature_provider : Key -> option string -> string + AuthFn;
  get_credential_formatter : string -> option Formatter;
  get_formatter_by_type : string -> option Formatter;
  format_status_list : Formatter -> string -> Identifier -> string -> KeyAlgorithmType ->
    AuthFn -> StatusPurpose -> RevocationType -> string + string;
  url_parse : string -> option string
}.

(** [get_revocation_list_url], of both methods. *)
Definition get_revocation_list_url `{UuidSupply} (list_id : Z) (core_base_url : option string) :
  res RevocationError string :=
  base ← ok_or core_base_url (RvMappingError "Host URL not specified");
  Ok (base ++ "/ssi/revocation/v1/list/" ++ uuid_to_string list_id)%string.

(** [status_purpose_to_revocation_state] of [revocation/utils.rs]. *)
Definition status_purpose_to_revocation_state (purpose : option string) :
  res RevocationError RevocationState :=
  p ← ok_or purpose (ValidationError "Missing status purpose ");
  if decide (p = "revocation"%string) then Ok Revoked
  else if decide (p = "suspension"%string) then Ok (Suspended None)
  else Err (ValidationError ("Invalid status purpose: " ++ p)).

(** ** The allocation of an index *)

Section allocation.
Context `{UuidSupply} (interfere : Z -> Db -> Db).

Definition others {E : Type} (k : Z) : M Db E unit := fun d => (Ok tt, interfere k d).

(** One attempt: the transaction commits nothing when the index is occupied. *)
Definition try_add (k list_id : Z) (entity_id : RevocationListEntityId) :
  M Db DataLayerError (option (Z * Z)) :=
  index ← next_free_index list_id;
  others k;;
  transaction (fun d =>
    match create_entry list_id entity_id (Some index) d with
    | (Ok entry_id, d') => (Ok (Some (entry_id, index)), d')
    | (Err AlreadyExists, d') => (Ok None, d')
    | (Err e, d') => (Err e, d')
    | (Panic, d') => (Panic, d')
    end).

(** The loop; [fuel] counts the attempts that are left, and its end is the
    unreachable [Panic]. *)
Fixpoint add_loop (fuel : nat) (retry_counter list_id : Z) (entity_id : RevocationListEntityId) :
  M Db RevocationError (Z * Z) :=
  match fuel with
  | O => lift Panic
  | S fuel =>
      result ← M_map_err data_error (try_add retry_counter list_id entity_id);
      match result with
      | Some found => mret found
      | None =>
          if 100 <? retry_counter
          then throw (data_error (TransactionError "Too many retries"))
          else add_loop fuel (retry_counter + 1) list_id entity_id
      end
  end.

(** The counter runs from 0 to 101. *)
Definition max_attempts : nat := 102.

(** [TokenStatusList::add_entity_to_list]. *)
Definition add_entity_to_list (list_id : Z) (entity_id : RevocationListEntityId) :
  M Db RevocationError (Z * Z) := add_loop max_attempts 0 list_id entity_id.

(** [BitstringStatusList::add_credential_to_list]. *)
Definition add_credential_to_list (list_id credential_id : Z) : M Db RevocationError Z :=
  found ← add_loop max_attempts 0 list_id (EntityCredential credential_id);
  mret found.2.
End allocation.

(** ** The allocation under interference *)

(** The store that an allocation of [entity] on [lid] ends in: [d0] with the
    row of the entry [eid] at the first free index [i]. *)
Definition allocated `{UuidSupply} (lid : Z) (entity : RevocationListEntityId) (eid i : Z)
  (d0 d' : Db) : Prop :=
  exists row, entries d' = entries d0 ++ [row] /\ lists d' = lists d0 /\
    e_id row = eid /\ e_list_id row = lid /\ e_index row = Some i /\ e_status row = EntryActive /\
    e_credential_id row = entity_credential entity /\
    i = len (indices lid d0) /\ (i ∉ indices lid d0) /\ eid ∉ (e_id <$> entries d0).

Section allocation_lemmas.
Context `{UuidSupply} `{!UuidLaws} (interfere : Z -> Db -> Db).
Context (Henv : forall k d, rtc repo_step d (interfere k d)).
Context (lid : Z) (entity : RevocationListEntityId) (Hent : entity_ok entity).

(** The index read before the interference is free after it only when no
    entry was added in between. *)
Lemma stale_index (d d0 : Db) : wf d -> wf d0 -> grows d d0 ->
  u32_wrap (u32_wrap (len (indices lid d))) ∉ indices lid d0 ->
  len (indices lid d0) = len (indices lid d) /\ len (indices lid d) < 4294967296.
Proof.
  intros Hwf Hwf0 (_ & _ & Hg & _) Hfree. specialize (Hg lid). rewrite u32_wrap_idem in Hfree.
  destruct (wf_indices d Hwf lid) as [_ Hn]. destruct (wf_indices d0 Hwf0 lid) as [Hd0 Hn0].
  rewrite dense_elem in Hfree by done. pose proof (len_nonneg (indices lid d)).
  destruct (Z_lt_le_dec (len (indices lid d)) 4294967296) as [Hlt|Hge].
  - rewrite u32_wrap_small in Hfree by lia. lia.
  - replace (len (indices lid d)) with 4294967296 in Hfree by lia.
    destruct Hfree. vm_compute (u32_wrap _). lia.
Qed.

Lemma try_add_spec (k : Z) (d : Db) : wf d -> is_Some (find_list lid d) ->
  match try_add interfere k lid entity d with
  | (Ok (Some (eid, i)), d') =>
      wf d' /\ grows d d' /\ allocated lid entity eid i (interfere k d) d'
  | (Ok None, d') => wf d' /\ grows d d'
  | (Err e, d') => (wf d' /\ grows d d') /\ (e = IncorrectParameters \/ e = RecordNotUpdated)
  | (Panic, _) => False
  end.
Proof.
  intros Hwf Hl. unfold try_add, transaction, others. run_M.
  rewrite next_free_index_spec by done.
  destruct (repo_steps_wf d (interfere k d) (Henv k d) Hwf) as [Hwf0 Hg].
  set (d0 := interfere k d) in *. set (n := len (indices lid d)) in *.
  pose proof (create_entry_spec lid entity (Some (u32_wrap n)) d0) as Hc.
  destruct (create_entry _ _ _ d0) as [[eid|e|] d']; [| |done].
  - destruct Hc as (row & Hcr & Hsl & He & Hu).
    assert (Hfree : u32_wrap (u32_wrap n) ∉ indices lid d0).
    { destruct Hcr as (_ & _ & Hlid & Hi & _ & _ & _ & Hconf & _).
      rewrite <-Hlid. by apply no_conflict_index. }
    destruct (stale_index d d0) as [Hn Hlt]; [done..|].
    destruct (created_wf lid entity d0 d' eid row (u32_wrap n)) as (Hw & _ & Hi); try done.
    { fold n in Hn. rewrite Hn. apply u32_wrap_idem. }
    { apply Hsl. }
    split_and!; [done| |].
    + etrans; [done|]. by eapply created_grows.
    + assert (Hu32 : u32_wrap n = n) by (apply u32_wrap_small; split; [apply len_nonneg|done]).
      rewrite !Hu32 in Hfree.
      destruct Hcr as (-> & Hid & Hlid & _ & Hst & Hcred & _). exists row.
      rewrite Hu32. split_and!; try done; [apply Hsl|by rewrite Hi, Hn|].
      apply (wf_fresh d0 Hwf0 (uuid_state d0)). done.
  - destruct Hc as (Hsl & _ & Hae & He). destruct e; try by destruct He as [|[|]].
    + destruct Hae as [Hent' Hu]; [done|]. split.
      * apply (wf_same_tables d0); auto. apply Hsl.
      * etrans; [done|]. apply same_lists_grows; [done| |by apply same_entries_slots].
        intros id. unfold indices, entries_of. by rewrite Hent'.
    + by auto.
    + by auto.
Qed.

(** The outcomes of the loop. *)
Lemma add_loop_spec (fuel : nat) (c : Z) (d : Db) : wf d -> is_Some (find_list lid d) ->
  c + Z.of_nat fuel = 102 -> (0 < fuel)%nat ->
  match add_loop interfere fuel c lid entity d with
  | (Ok (eid, i), d') => wf d' /\ grows d d' /\
      exists d0, wf d0 /\ grows d d0 /\ allocated lid entity eid i d0 d'
  | (Err e, d') => (wf d' /\ grows d d') /\
      (e = data_error (TransactionError "Too many retries") \/
       e = data_error IncorrectParameters \/ e = data_error RecordNotUpdated)
  | (Panic, _) => False
  end.
Proof.
  revert c d; induction fuel as [|fuel IH]; intros c d Hwf Hl Hc Hf; [lia|].
  simpl. unfold M_map_err. run_M. pose proof (try_add_spec c d Hwf Hl) as Ht.
  destruct (try_add interfere c lid entity d) as [[[[eid i]|]|e|] d1]; simpl; [| | |done].
  - destruct Ht as (Hw & Hg & Ha). split_and!; [done..|]. exists (interfere c d).
    destruct (repo_steps_wf d (interfere c d) (Henv c d) Hwf). done.
  - destruct Ht as [Hw Hg]. destruct (Z.ltb_spec 100 c); [by auto|].
    assert (Hl1 : is_Some (find_list lid d1)) by (by apply Hg).
    specialize (IH (c + 1) d1 Hw Hl1). destruct (add_loop _ _ _ _ _ d1) as [[[eid i]|e|] d'].
    + destruct IH as (Hw' & Hg' & d0 & Hw0 & Hg0 & Ha); [lia..|].
      split_and!; [done|by etrans|]. exists d0. split_and!; [done|by etrans|done].
    + destruct IH as [[Hw' Hg'] He]; [lia..|]. split_and!; [done|by etrans|done].
    + apply IH; lia.
  - destruct Ht as [[Hw Hg] He]. split; [done|]. destruct He as [-> | ->]; auto.
Qed.
End allocation_lemmas.

(** With nobody else writing, the first attempt succeeds. *)
Lemma add_loop_alone `{UuidSupply} `{!UuidLaws} (fuel : nat) (c lid : Z) (cred : Z) (d : Db) :
  wf d -> is_Some (find_list lid d) -> cred ∈ credential_ids d ->
  len (indices lid d) < 4294967296 ->
  exists eid d', add_loop (fun _ d => d) (S fuel) c lid (EntityCredential cred) d =
                   (Ok (eid, len (indices lid d)), d').
Proof.
  intros Hwf Hl Hcred Hlt. pose proof (len_nonneg (indices lid d)) as Hn.
  simpl. unfold M_map_err, try_add, transaction, others. run_M.
  rewrite next_free_index_spec by done. unfold create_entry. run_M. simpl.
  set (d1 := set_uuid_state _ d). set (row := new_entry_row _ _ _ _ _ _).
  pose proof (insert_entry_spec row d1) as Hi.
  destruct (insert_entry row d1) as [[[]|[]|] d2]; try done.
  - destruct Hi as (-> & _). simpl. rewrite u32_wrap_small by lia. eauto.
  - destruct Hi as [_ (r & Hin & Hr)]. exfalso. unfold entry_conflict in Hr.
    apply orb_true_iff in Hr as [Hid%Z.eqb_eq|[Hlid Hr]%andb_true_iff].
    + destruct (wf_fresh d Hwf (uuid_state d)) as [_ Hfr]; [done|]. apply Hfr.
      apply list_elem_of_fmap. exists r. by split.
    + apply Z.eqb_eq in Hlid. rewrite orb_comm in Hr. simpl in Hr.
      destruct (e_serial r), (e_index r) as [j|] eqn:Hj; simpl in Hr; try done.
      all: apply Z.eqb_eq in Hr; rewrite u32_wrap_idem in Hr.
      all: assert (Hbad : j ∈ indices lid d) by (apply elem_of_indices; eauto).
      all: rewrite Hr in Hbad; apply free_index_conflict in Hbad; [lia|done].
  - destruct Hi as [_ [Hnone|(c' & [= <-] & Hc')]]; [|done].
    simpl in Hnone. destruct Hl as [l Hl]. unfold find_list in *. simpl in Hnone. congruence.
Qed.

(** ** Lists and entries as the methods see them *)

(** The lookup of a list, with no relations loaded. *)
Lemma lookup_list_spec `{UuidSupply} (issuer : Z) (cert : option Z) (p : RevocationListPurpose)
  (type : string) (d : Db) : wf d ->
  match get_revocation_by_issuer_identifier_id issuer cert p type no_relations d with
  | (Ok (Some l), d') => d' = d /\ exists row, find_list (list_id l) d = Some row /\
      list_id l = rl_id row /\ is_list_of issuer cert p type row = true
  | (Ok None, d') => d' = d
  | _ => False
  end.
Proof.
  intros Hwf. unfold get_revocation_by_issuer_identifier_id, entity_model_to_repository_model. run_M.
  destruct (find_first _ (lists d)) as [row|] eqn:Hf; simpl; [|done].
  apply find_first_Some in Hf as [Hin Hl]. split; [done|]. exists row. split; [|done].
  by apply (find_first_id rl_id), Hin; apply Hwf.
Qed.

(** The credential [c] has index [i] of the list [lid]. *)
Definition holds (lid i c : Z) (d : Db) : Prop :=
  exists e, e ∈ entries d /\ e_list_id e = lid /\ e_index e = Some i /\ e_credential_id e = Some c.

Lemma grows_holds (lid i c : Z) (d d' : Db) : grows d d' -> holds lid i c d -> holds lid i c d'.
Proof.
  intros (_ & _ & _ & Hg) (e & He & Hl & Hi & Hc).
  destruct (Hg e He) as (e' & He' & _ & Hl' & Hi' & Hc').
  exists e'. split_and!; congruence.
Qed.

(** The indexes and states collected from the entries of a list; an entry
    with no index is an error. *)
Lemma collect_entries `{UuidSupply} `{!UuidLaws} {B : Type}
  (g : RevocationListEntryStatus -> B) (err : RevocationError) (lid : Z) (d : Db)
  (es : list RevocationListEntry)
  (f : RevocationListEntry -> res RevocationError (Z * B)) :
  wf d -> get_entries lid d = (Ok es, d) ->
  (forall x, f x = (index ← ok_or (entry_index x) err; Ok (index, g (entry_status x)))) ->
  match try_map f es with
  | Ok states => indexed lid d /\ len states = len (indices lid d) /\
      forall i b, (i, b) ∈ states <-> exists st, entry_at lid i st d /\ b = g st
  | Err _ => True
  | Panic => False
  end.
Proof.
  intros Hwf Hes Hf. destruct (get_entries_spec lid d Hwf) as (es' & Hes' & Hat & Hix & Hlen).
  rewrite Hes in Hes'. injection Hes' as <-.
  destruct (decide (Forall (fun x => is_Some (entry_index x)) es)) as [Hsome|Hnone].
  2: { apply not_Forall_Exists, Exists_exists in Hnone as (x & Hx & Hi); [|apply _].
       destruct (try_map_fails f es x err) as [e' ->]; [done| | |done].
       - by rewrite Hf, (proj2 (eq_None_not_Some _) Hi).
       - intros y _. rewrite Hf. by destruct (entry_index y). }
  rewrite Forall_forall in Hsome. pose proof (proj2 Hix Hsome) as Hind.
  rewrite (try_map_total _ (fun x => (default 0 (entry_index x), g (entry_status x)))).
  2: { intros x Hx. destruct (Hsome x Hx) as [i Hi]. by rewrite Hf, Hi. }
  split_and!; [done| |].
  - rewrite <-(Hlen Hind). unfold len. by rewrite length_fmap.
  - intros i b. rewrite list_elem_of_fmap. split.
    + intros (x & [= -> ->] & Hx). destruct (Hsome x Hx) as [i Hi]. rewrite Hi. simpl.
      exists (entry_status x). split; [|done]. apply Hat. eauto.
    + intros (st & (x & Hx & Hi & <-)%Hat & ->). exists x. by rewrite Hi.
Qed.

(** The index of an entry is below the number of entries. *)
Lemma entry_at_bound `{UuidSupply} (lid i : Z) (st : RevocationListEntryStatus) (d : Db) :
  wf d -> entry_at lid i st d -> 0 <= i < len (indices lid d).
Proof.
  intros Hwf (e & He & Hl & Hi & _). apply dense_elem; [apply (wf_indices d Hwf)|].
  apply elem_of_indices. eauto.
Qed.

(** ** Properties *)


(** with no other client writing, a credential gets an index of the list
    at once, the one after those in use, as long as the 32-bit index space is
    not used up. *)
Theorem allocation_alone `{UuidSupply} `{!UuidLaws} (lid cred : Z) (d : Db)
  (Hwf : wf d) (Hl : is_Some (find_list lid d)) (Hcred : cred ∈ credential_ids d)
  (Hroom : len (indices lid d) < 4294967296) :
  exists d', add_credential_to_list (fun _ d => d) lid cred d = (Ok (len (indices lid d)), d').
Proof.
  destruct (add_loop_alone 101 0 lid cred d) as (eid & d' & Ha); [done..|].
  unfold add_credential_to_list, max_attempts. run_M. rewrite Ha. by eexists.
Qed.

(** ** Witnesses *)

Import RepoWitness.

Module AllocationWitness.

(** Another client takes the first free index before the first attempt. *)
Definition interfere (k : Z) (d : Db) : Db :=
  if k =? 0 then
    match next_free_index 1 d with
    | (Ok index, d1) => match create_entry 1 (EntityCredential 51) (Some index) d1 with
                        | (Ok _, d') => d'
                        | _ => d
                        end
    | _ => d
    end
  else d.

Lemma interfere_steps (k : Z) (d : Db) : rtc repo_step d (interfere k d).
Proof.
  unfold interfere. destruct (k =? 0); [|done].
  destruct (next_free_index 1 d) as [[index| |] d1] eqn:Hn; [|done..].
  destruct (create_entry _ _ _ d1) as [[eid| |] d'] eqn:Hc; [|done..].
  eapply rtc_once, step_allocate; eauto. done.
Qed.
End AllocationWitness.


Lemma allocation_alone_witness :
  exists d', add_credential_to_list (fun _ d => d) 1 50 RepoWitness.db = (Ok 0, d').
Proof.
  refine (allocation_alone 1 50 RepoWitness.db RepoWitness.db_wf _ _ _).
  - by eexists.
  - vm_compute. left.
  - vm_compute. reflexivity.
Defined.
