(* ===== verification/BitstringMethod.v ===== *)
(** * The bitstring status list method

    Models [lib/one-core/src/provider/revocation/bitstring_status_list/mod.rs]:
    [BitstringStatusList] and its implementation of [RevocationMethod], on the
    tables of RevocationRepo.v. The issuer adds a credential to a revocation
    (and suspension) list and publishes the list again when the status of a
    credential changes; a verifier loads the published list and reads the bit
    of a credential.

    What a verifier calls (the caching loader, serde's parsers, the formatter
    that verifies the list credential) is the class [StatusListReader]. *)

From S2P Require Import Prelude StatusBits KeySelection RevocationRepo RevocationMethod.
#[local] Open Scope Z_scope.

(** ** The method *)

Record BitstringStatusList := mkBitstringStatusList {
  bs_config_id : string;
  bs_core_base_url : option string;
  bs_format : StatusListCredentialFormat
}.

Definition bitstring_new (config_id : string) (core_base_url : option string)
  (params : option StatusListCredentialFormat) : BitstringStatusList :=
  mkBitstringStatusList config_id core_base_url (default FJwt params).

Definition BITSTRING_STATUS_TYPE : string := "BitstringStatusListEntry".

(** [Display] of [StatusListCredentialFormat] (screaming snake case). *)
Definition format_to_string (f : StatusListCredentialFormat) : string :=
  match f with FJwt => "JWT" | FJsonLdClassic => "JSON_LD_CLASSIC" | FX509Crl => "X509_CRL" end.

(** What the verifier calls: [CachingLoader::get] (content and media type),
    [serde_json] on the cached entry and on the list credential (the
    cryptosuite of its proof), and [extract_credentials] (the claims). *)
Class StatusListReader `{StatusProviders} := {
  load_list : string -> bool -> string + (list Z * option string);
  parse_cache_entry : list Z -> option (list Z * option string);
  from_utf8 : list Z -> option string;
  vcdm_cryptosuite : string -> option (option string);
  extract_claims : Formatter -> string -> string + gmap string JsonValue
}.

Definition get_revocation_entry_state (status : RevocationListEntryStatus)
  (purpose : RevocationListPurpose) : bool :=
  match purpose with
  | PRevocation => bool_decide (status = EntryRevoked)
  | PSuspension => bool_decide (status = EntrySuspended)
  | PRevocationAndSuspension =>
      match status with EntryRevoked | EntrySuspended => true | EntryActive => false end
  end.

Section bitstring_method.
Context `{UuidSupply} `{StatusProviders} `{BV : BitVec V} `{StatusCodec}.
Context (self : BitstringStatusList).

Definition get_formatter_for_issuance (issuer : Identifier) : res RevocationError Formatter :=
  issuer_did ← ok_or (idn_did issuer) (RvMappingError "issuer did is None");
  keys ← ok_or (did_keys issuer_did) (RvMappingError "issuer_did keys are None");
  let is_bbs := negb (existsb (fun key => bool_decide (key_type (rk_key key) =
                                            algorithm_to_string BbsPlus)) keys) in
  format ← match bs_format self with
           | FJwt => Ok (format_to_string (bs_format self))
           | FJsonLdClassic =>
               Ok (if is_bbs then "JSON_LD_BBSPLUS"%string else format_to_string (bs_format self))
           | format => Err (FormatterNotFound (format_to_string format))
           end;
  ok_or (get_credential_formatter format) (FormatterNotFound (format_to_string (bs_format self))).

Definition get_formatter_for_parsing (content_type : string) (is_bbs : bool) :
  res RevocationError Formatter :=
  format ← if decide (content_type = "application/jwt"%string) then Ok "JWT"%string
           else if decide (content_type = "application/vc+ld+json"%string \/
                           content_type = "application/ld+json"%string \/
                           content_type = "application/json"%string)
           then Ok (if is_bbs then "JSON_LD_BBSPLUS" else "JSON_LD_CLASSIC")%string
           else Err (RvMappingError ("Invalid status list Content-Type: " ++ content_type));
  ok_or (get_credential_formatter format) (FormatterNotFound format).

Definition create_credential_status (list_id index_on_status_list : Z)
  (purpose : StatusPurpose) : M Db RevocationError CredentialStatus :=
  revocation_list_url ← lift (get_revocation_list_url list_id (bs_core_base_url self));
  id ← new_v4;
  url ← lift (ok_or (url_parse ("urn:uuid:" ++ uuid_to_string id))
                (ValidationError "Failed to parse URL"));
  mret (mkCredentialStatus (Some url) BITSTRING_STATUS_TYPE
          (Some (status_purpose_to_string purpose))
          (<["statusListCredential" := JString revocation_list_url]>
             (<["statusListIndex" := JString (usize_to_string index_on_status_list)]> ∅))).

(** [format_status_list_credential]. *)
Definition bitstring_format_list (list_id : Z) (issuer : Identifier) (encoded_list : string)
  (purpose : RevocationListPurpose) (formatter : Formatter) : res RevocationError string :=
  url ← get_revocation_list_url list_id (bs_core_base_url self);
  _ ← fail_if (bool_decide (identifier_type issuer <> TypeDid))
        (InvalidIdentifierType (identifier_type issuer));
  issuer_did ← ok_or (idn_did issuer) (RvMappingError "issuer did is None");
  found ← map_err (fun _ => KeyWithRoleNotFound AssertionMethod)
            (find_first_matching_key issuer_did (role_filter AssertionMethod));
  key ← ok_or found (KeyWithRoleNotFound AssertionMethod);
  let key_id := verification_method_id issuer_did key in
  let key := rk_key key in
  auth_fn ← map_err (fun code => Nested (NestedProvider code))
              (of_sum (get_signature_provider key (Some key_id)));
  algorithm ← ok_or (key_algorithm_type key) (InvalidKeyAlgorithm (key_type key));
  map_err (fun code => Nested (NestedProvider code))
    (of_sum (format_status_list formatter url issuer encoded_list algorithm auth_fn
               (status_purpose_of purpose) BitstringStatusListType)).

(** The closure of [generate_bitstring_from_entries]. *)
Definition entry_bit (purpose : RevocationListPurpose) (entry : RevocationListEntry) :
  res RevocationError (Z * bool) :=
  index ← ok_or (entry_index entry) (RvMappingError "revocation list entry index missing");
  Ok (index, get_revocation_entry_state (entry_status entry) purpose).

Definition generate_bitstring_from_entries (es : list RevocationListEntry)
  (purpose : RevocationListPurpose) : res RevocationError string :=
  states ← try_map (entry_bit purpose) es;
  map_err (fun e => Nested (NestedBitstring e)) (generate_bitstring (V := V) states).

Definition start_new_list_for_credential (credential_id : Z) (issuer : Identifier)
  (purpose : RevocationListPurpose) : M Db RevocationError Z :=
  revocation_list_id ← new_v4;
  encoded ← lift (map_err (fun e => Nested (NestedBitstring e)) (generate_bitstring (V := V) []));
  formatter ← lift (get_formatter_for_issuance issuer);
  list_credential ← lift (bitstring_format_list revocation_list_id issuer encoded purpose formatter);
  d ← get;
  M_map_err data_error (create_revocation_list
    (mkRevocationList revocation_list_id (now_utc d) (now_utc d) list_credential (bs_format self)
       (bs_config_id self) purpose (Some issuer) None));;
  M_map_err data_error (create_entry revocation_list_id (EntityCredential credential_id) (Some 0));;
  mret revocation_list_id.

(** The list of the issuer for [purpose]: found, or created in a
    transaction; when that fails another client created it in parallel, and
    it is fetched again. The second component is the index of the
    credential on a list created here. [interfere (-1)] is what other
    clients commit between the lookup and the insert. *)
Definition find_or_start_list (interfere : Z -> Db -> Db) (credential_id : Z)
  (issuer : Identifier) (purpose : RevocationListPurpose) :
  M Db RevocationError (Z * option Z) :=
  fun d =>
    match get_revocation_by_issuer_identifier_id (identifier_id issuer) None purpose
            (bs_config_id self) no_relations d with
    | (Ok (Some current_list), d1) => (Ok (list_id current_list, None), d1)
    | (Ok None, d1) =>
        match transaction (start_new_list_for_credential credential_id issuer purpose)
                (interfere (-1) d1) with
        | (Ok lid, d2) => (Ok (lid, Some 0), d2)
        | (_, d2) =>
            (current ← M_map_err data_error
               (get_revocation_by_issuer_identifier_id (identifier_id issuer) None purpose
                  (bs_config_id self) no_relations);
             current_list ← lift (ok_or current (RvMappingError "No revocation list found"));
             mret (list_id current_list, None)) d2
        end
    | (_, d1) =>
        (current ← M_map_err data_error
           (get_revocation_by_issuer_identifier_id (identifier_id issuer) None purpose
              (bs_config_id self) no_relations);
         current_list ← lift (ok_or current (RvMappingError "No revocation list found"));
         mret (list_id current_list, None)) d1
    end.

Definition create_credential_entry (interfere : Z -> Db -> Db) (credential_id : Z)
  (issuer : Identifier) (purpose : RevocationListPurpose) :
  M Db RevocationError CredentialStatus :=
  found ← find_or_start_list interfere credential_id issuer purpose;
  index ← match found.2 with
          | Some index => mret index
          | None => add_credential_to_list interfere found.1 credential_id
          end;
  create_credential_status found.1 index (status_purpose_of purpose).

Definition add_issued_credential (interfere : Z -> Db -> Db) (credential : Credential) :
  M Db RevocationError (list CredentialStatus) :=
  issuer ← lift (ok_or (issuer_identifier credential) (RvMappingError "issuer identifier is None"));
  schema ← lift (ok_or (credential_schema credential) (RvMappingError "credential schema is None"));
  info ← create_credential_entry interfere (credential_id credential) issuer PRevocation;
  if allow_suspension schema then
    info2 ← create_credential_entry interfere (credential_id credential) issuer PSuspension;
    mret [info; info2]
  else mret [info].

Definition mark_credential_as (credential : Credential) (new_state : RevocationState) :
  M Db RevocationError unit :=
  issuer ← lift (ok_or (issuer_identifier credential) (RvMappingError "issuer identifier is None"));
  let purpose := if decide (new_state = Revoked) then PRevocation else PSuspension in
  current ← M_map_err data_error
    (get_revocation_by_issuer_identifier_id (identifier_id issuer)
       (cert_id <$> issuer_certificate credential) purpose (bs_config_id self) no_relations);
  current_list ← lift (ok_or current (MissingCredentialIndexOnRevocationList
                                        (credential_id credential) (identifier_id issuer)));
  M_map_err data_error (update_entry (UpdateCredentialEntry (credential_id credential))
                          (Some (entry_status_of new_state)));;
  current_entries ← M_map_err data_error (get_entries (list_id current_list));
  encoded_list ← lift (generate_bitstring_from_entries current_entries purpose);
  formatter ← lift (get_formatter_for_issuance issuer);
  list_credential ← lift (bitstring_format_list (list_id current_list) issuer encoded_list purpose
                            formatter);
  M_map_err data_error (update_formatted_list (list_id current_list) list_credential).

(** ** The verifier *)

Definition is_bbs_credential `{!StatusListReader} (content : string) : bool :=
  match vcdm_cryptosuite content with
  | Some (Some suite) => bool_decide (suite = "bbs-2023"%string)
  | _ => false
  end.

Definition check_credential_revocation_status `{!StatusListReader} (status : CredentialStatus)
  (force_refresh : bool) : res RevocationError RevocationState :=
  _ ← fail_if (bool_decide (cst_type status <> BITSTRING_STATUS_TYPE))
        (ValidationError ("Invalid credential status type: " ++ cst_type status));
  list_url ← ok_or (cst_fields status !! "statusListCredential"%string ≫= as_str)
               (ValidationError "Missing status list url");
  list_index ← ok_or (cst_fields status !! "statusListIndex"%string ≫= as_str)
                 (ValidationError "Missing status list index");
  list_index ← ok_or (usize_from_str list_index) (ValidationError "Invalid list index");
  loaded ← map_err (fun code => Nested (NestedProvider code))
             (of_sum (load_list list_url force_refresh));
  let '(content, media_type) := loaded in
  response ← ok_or (parse_cache_entry content) JsonError;
  response_content ← ok_or (from_utf8 response.1) FromUtf8Error;
  let is_bbs := is_bbs_credential response_content in
  content_type ← match media_type, response.2 with
                 | Some media_type, _ => Ok media_type
                 | None, Some content_type => Ok content_type
                 | None, None => Err (ValidationError "Missing content type")
                 end;
  formatter ← get_formatter_for_parsing content_type is_bbs;
  claims ← map_err (fun code => Nested (NestedProvider code))
             (of_sum (extract_claims formatter response_content));
  encoded_list ← ok_or (claims !! "encodedList"%string ≫= as_str)
                   (ValidationError "Missing encodedList in status credential");
  set ← map_err (fun e => Nested (NestedBitstring e))
          (extract_bitstring_index (V := V) encoded_list list_index);
  if (set : bool) then status_purpose_to_revocation_state (cst_purpose status) else Ok Valid.
End bitstring_method.

(** ** Lemmas *)

#[local] Opaque update_entry get_entries update_formatted_list create_revocation_list create_entry
  get_revocation_by_issuer_identifier_id.

Section publication.
Context `{UuidSupply} `{!UuidLaws} `{StatusProviders}.
Context `{BV : BitVec V} `{!BitVecLaws V} `{SC : StatusCodec} `{!StatusCodecLaws}.

(** The bit string made from the entries of a list. *)
Lemma generate_from_entries_spec (lid : Z) (p : RevocationListPurpose) (d : Db)
  (es : list RevocationListEntry) :
  wf d -> get_entries lid d = (Ok es, d) ->
  match generate_bitstring_from_entries (V := V) es p with
  | Ok s => indexed lid d /\ forall i st, entry_at lid i st d -> i / 8 + 1 <= alloc_max ->
      extract_bitstring_index (V := V) s i = Ok (get_revocation_entry_state st p)
  | Err e => True
  | Panic => False
  end.
Proof.
  intros Hwf Hes. unfold generate_bitstring_from_entries.
  pose proof (collect_entries (fun st => get_revocation_entry_state st p)
    (RvMappingError "revocation list entry index missing") lid d es (entry_bit p) Hwf Hes
    (fun x => eq_refl)) as Hc.
  destruct (try_map (entry_bit p) es) as [states|e|]; simpl; [|done..].
  destruct Hc as (Hind & Hn & Hst).
  assert (Hbound : forall i b, (i, b) ∈ states -> 0 <= i < calculate_bitstring_size (len states)).
  { intros i b (st & Hat & _)%Hst. apply entry_at_bound in Hat; [|done].
    unfold calculate_bitstring_size. lia. }
  pose proof (bitstring_publishes (V := V) states Hbound) as Hp.
  destruct (generate_bitstring states) as [s|e|]; simpl; [|done..].
  split; [done|]. intros i st He Ha. pose proof (entry_at_bound lid i st d Hwf He) as Hi.
  rewrite Hp by lia. unfold calculate_bitstring_size.
  destruct (Z.ltb_spec i (8 * ((Z.max (len states) 131072 + 7) / 8)));
    [|Z.to_euclidean_division_equations; lia].
  f_equal. destruct (get_revocation_entry_state st p) eqn:Hb.
  - apply bool_decide_eq_true_2, Hst. eauto.
  - apply bool_decide_eq_false_2. intros (st' & He' & Hb')%Hst.
    rewrite (entry_at_unique lid i st' st d) in Hb' by done. congruence.
Qed.

Context (self : BitstringStatusList).

(** What [mark_credential_as] leaves behind for the list [lid] it publishes. *)
Definition marked (c : Credential) (st : RevocationState) (d d' : Db) : Prop :=
  let p := if decide (st = Revoked) then PRevocation else PSuspension in
  exists issuer lid row formatter encoded alg auth url,
    issuer_identifier c = Some issuer /\
    find_list lid d' = Some row /\
    is_list_of (identifier_id issuer) (cert_id <$> issuer_certificate c) p (bs_config_id self) row
      = true /\
    get_formatter_for_issuance self issuer = Ok formatter /\
    get_revocation_list_url lid (bs_core_base_url self) = Ok url /\
    format_status_list formatter url issuer encoded alg auth (status_purpose_of p)
      BitstringStatusListType = inr (rl_formatted_list row) /\
    (forall i st', entry_at lid i st' d' -> i / 8 + 1 <= alloc_max ->
      extract_bitstring_index (V := V) encoded i = Ok (get_revocation_entry_state st' p)) /\
    entries d' = (fun e => if updates (UpdateCredentialEntry (credential_id c)) e
                           then with_status (now_utc d) (Some (entry_status_of st)) e else e)
                   <$> entries d.

Lemma bitstring_format_list_ok (lid : Z) (issuer : Identifier) (enc s : string)
  (p : RevocationListPurpose) (f : Formatter) :
  bitstring_format_list self lid issuer enc p f = Ok s ->
  exists url alg auth, get_revocation_list_url lid (bs_core_base_url self) = Ok url /\
    format_status_list f url issuer enc alg auth (status_purpose_of p) BitstringStatusListType
      = inr s.
Proof.
  unfold bitstring_format_list. intros (url & Hurl & Hr)%res_bind_ok.
  apply res_bind_ok in Hr as ([] & _ & Hr). apply res_bind_ok in Hr as (did & _ & Hr).
  apply res_bind_ok in Hr as (found & _ & Hr). apply res_bind_ok in Hr as (key & _ & Hr).
  apply res_bind_ok in Hr as (auth & _ & Hr). apply res_bind_ok in Hr as (alg & _ & Hr).
  apply map_err_ok, of_sum_ok in Hr. eauto.
Qed.

Lemma get_formatter_no_panic (issuer : Identifier) : get_formatter_for_issuance self issuer <> Panic.
Proof.
  unfold get_formatter_for_issuance. no_panic.
Qed.

Lemma bitstring_format_list_no_panic (lid : Z) (issuer : Identifier) (enc : string)
  (p : RevocationListPurpose) (f : Formatter) : bitstring_format_list self lid issuer enc p f <> Panic.
Proof.
  unfold bitstring_format_list, get_revocation_list_url, find_first_matching_key. no_panic.
Qed.

Lemma mark_spec (c : Credential) (st : RevocationState) (d : Db) : wf d ->
  match mark_credential_as (V := V) self c st d with
  | (Ok _, d') => wf d' /\ marked c st d d'
  | (Err _, d') => wf d'
  | (Panic, _) => False
  end.
Proof.
  intros Hwf. unfold mark_credential_as. set (p := if decide (st = Revoked) then _ else _).
  unfold M_map_err. run_M.
  destruct (issuer_identifier c) as [issuer|] eqn:His; simpl; [|done].
  pose proof (lookup_list_spec (identifier_id issuer) (cert_id <$> issuer_certificate c) p
                (bs_config_id self) d Hwf) as Hl.
  destruct (get_revocation_by_issuer_identifier_id _ _ _ _ _ d) as [[[l|]|e|] d0]; try done;
    simpl; [|by subst].
  destruct Hl as (-> & row & Hrow & Hid & Hlist).
  destruct (update_entry_wf (UpdateCredentialEntry (credential_id c)) (Some (entry_status_of st)) d Hwf)
    as (d1 & -> & Hwf1 & Hsl & Hix1 & He1). simpl.
  destruct (get_entries_spec (list_id l) d1 Hwf1) as (es & Hes & _). rewrite Hes. simpl.
  pose proof (generate_from_entries_spec (list_id l) p d1 es Hwf1) as Hg.
  specialize (Hg Hes). destruct (generate_bitstring_from_entries es p) as [enc|e|]; simpl; [|done..].
  destruct Hg as [_ Hg].
  destruct (get_formatter_for_issuance self issuer) as [f|e|] eqn:Hf; simpl; [|done|].
  2: { revert Hf. apply get_formatter_no_panic. }
  destruct (bitstring_format_list self (list_id l) issuer enc p f) as [s|e|] eqn:Hs; simpl; [|done|].
  2: { revert Hs. apply bitstring_format_list_no_panic. }
  apply bitstring_format_list_ok in Hs as (url & alg & auth & Hurl & Hs).
  assert (Hl1 : find_list (list_id l) d1 = Some row) by (by rewrite (find_list_ext d); [|apply Hsl]).
  destruct (update_formatted_list_wf (list_id l) s d1 Hwf1) as
    (d2 & -> & Hwf2 & He2 & _ & (row2 & Hrow2 & Hs2) & _ & Hls2); [by rewrite Hl1|].
  simpl. split; [done|]. exists issuer, (list_id l), row2, f, enc, alg, auth, url.
  assert (Hrow2' : row2 = with_formatted (list_id l) (now_utc d1) s row).
  { unfold find_list in Hrow2. rewrite Hls2, find_list_formatted in Hrow2.
    unfold find_list in Hl1. rewrite Hl1 in Hrow2. by injection Hrow2. }
  split_and!; try done.
  - rewrite Hrow2'. unfold is_list_of, with_formatted in *. by destruct (rl_id row =? list_id l).
  - by rewrite Hs2.
  - intros i st' (e & He & Hrest). apply Hg. exists e. by rewrite <-He2.
  - by rewrite He2.
Qed.
End publication.

(** ** Issuance *)

(** A credential status names the list [lid], its purpose and the index [i]. *)
Definition refers `{UuidSupply} (self : BitstringStatusList) (status : CredentialStatus)
  (lid i : Z) (p : RevocationListPurpose) : Prop :=
  cst_type status = BITSTRING_STATUS_TYPE /\
  cst_purpose status = Some (status_purpose_to_string (status_purpose_of p)) /\
  exists url, get_revocation_list_url lid (bs_core_base_url self) = Ok url /\
    cst_fields status !! "statusListCredential"%string = Some (JString url) /\
    cst_fields status !! "statusListIndex"%string = Some (JString (usize_to_string i)).

Section issuance.
Context `{UuidSupply} `{!UuidLaws} `{StatusProviders}.
Context `{BV : BitVec V} `{!BitVecLaws V} `{SC : StatusCodec} `{!StatusCodecLaws}.
Context (self : BitstringStatusList) (interfere : Z -> Db -> Db).
Context (Henv : forall k d, rtc repo_step d (interfere k d)).

Lemma start_new_list_spec (c : Z) (issuer : Identifier) (p : RevocationListPurpose) (d : Db) :
  wf d ->
  match transaction (start_new_list_for_credential (V := V) self c issuer p) d with
  | (Ok lid, d') => wf d' /\ grows d d' /\ holds lid 0 c d'
  | (Err _, d') => d' = d
  | (Panic, _) => False
  end.
Proof.
  intros Hwf. unfold transaction, start_new_list_for_credential, M_map_err. run_M. simpl.
  pose proof (bitstring_publishes (V := V) []) as Hgen.
  destruct (generate_bitstring []) as [enc|e|]; simpl; [|done|].
  2: { apply Hgen. by intros i b ?%elem_of_nil. }
  destruct (get_formatter_for_issuance self issuer) as [f|e|] eqn:Hf; simpl; [|done|].
  2: { revert Hf. apply get_formatter_no_panic. }
  destruct (bitstring_format_list self _ issuer enc p f) as [s|e|] eqn:Hs; simpl; [|done|].
  2: { revert Hs. apply bitstring_format_list_no_panic. }
  pose proof (create_list_spec (fun id => mkRevocationList id (now_utc d) (now_utc d) s
    (bs_format self) (bs_config_id self) p (Some issuer) None) d Hwf ltac:(done)) as Hc.
  revert Hc. run_M. simpl. set (l := mkRevocationList _ _ _ _ _ _ _ _ _).
  destruct (create_revocation_list l _) as [[lid|e|] d1]; simpl; [|done..].
  intros (Hwf1 & Hg1 & -> & He1 & Hi1 & _).
  pose proof (create_entry_spec (uuid_at (uuid_state d)) (EntityCredential c) (Some 0) d1) as Hce.
  destruct (create_entry _ _ _ d1) as [[eid|e|] d2]; simpl; [|done..].
  destruct Hce as (row & Hcr & Hsl & He & Hu).
  destruct (created_wf _ (EntityCredential c) d1 d2 eid row 0 Hwf1 I Hcr) as (Hw2 & _ & Hi2); [by rewrite Hi1|apply Hsl|done..|].
  split_and!; [done|by etrans; [|eapply created_grows]|].
  rewrite Hi1 in Hi2. destruct Hcr as (_ & _ & Hl & _ & _ & Hcred & _).
  exists row. split_and!; try done. rewrite He. set_solver.
Qed.

(** The list to use exists, and a list started here has the credential at 0. *)
Lemma find_or_start_list_spec (c : Z) (issuer : Identifier) (p : RevocationListPurpose) (d : Db) :
  wf d ->
  match find_or_start_list (V := V) self interfere c issuer p d with
  | (Ok (lid, index), d') => wf d' /\ grows d d' /\ is_Some (find_list lid d') /\
      match index with Some i => holds lid i c d' | None => True end
  | (Err _, d') => wf d' /\ grows d d'
  | (Panic, _) => False
  end.
Proof.
  intros Hwf. unfold find_or_start_list.
  pose proof (lookup_list_spec (identifier_id issuer) None p (bs_config_id self) d Hwf) as Hl.
  destruct (get_revocation_by_issuer_identifier_id _ _ _ _ _ d) as [[[l|]|e|] d1]; try done.
  { destruct Hl as (-> & row & Hrow & _). split_and!; [done..|by rewrite Hrow|done]. }
  subst d1. destruct (repo_steps_wf d (interfere (-1) d) (Henv _ d) Hwf) as [Hwf0 Hg0].
  pose proof (start_new_list_spec c issuer p (interfere (-1) d) Hwf0) as Hs.
  destruct (transaction _ _) as [[lid|e|] d2]; [| |done].
  - destruct Hs as (Hw2 & Hg2 & Hh). split_and!; [done|by etrans| |done].
    destruct Hh as (e & He & <- & _). by apply Hw2.
  - subst d2. unfold M_map_err. run_M.
    pose proof (lookup_list_spec (identifier_id issuer) None p (bs_config_id self) _ Hwf0) as Hl.
    destruct (get_revocation_by_issuer_identifier_id _ _ _ _ _ _) as [[[l|]|e'|] d3]; try done; simpl.
    + destruct Hl as (-> & row & Hrow & _). split_and!; [done..|by rewrite Hrow|done].
    + by subst d3.
Qed.

Lemma create_credential_status_spec (lid i : Z) (p : RevocationListPurpose) (d : Db) : wf d ->
  match create_credential_status self lid i (status_purpose_of p) d with
  | (Ok status, d') => wf d' /\ grows d d' /\ refers self status lid i p
  | (Err _, d') => wf d' /\ grows d d'
  | (Panic, _) => False
  end.
Proof.
  intros Hwf. unfold create_credential_status. run_M.
  destruct (get_revocation_list_url lid _) as [url|e|] eqn:Hurl; [|done|].
  2: { unfold get_revocation_list_url in Hurl. by destruct (bs_core_base_url self). }
  assert (Hw : forall n, (uuid_state d <= n)%nat ->
    wf (set_uuid_state n d) /\ grows d (set_uuid_state n d)).
  { intros n Hn. split; [by eapply wf_same_tables|]. apply same_lists_grows; [done..|].
    by apply same_entries_slots. }
  destruct (Hw (S (uuid_state d))) as [Hw1 Hg1]; [lia|].
  simpl. destruct (url_parse _) as [u|]; simpl; [|done].
  split_and!; [done..|]. split_and!; [done..|]. by exists url.
Qed.

Lemma create_credential_entry_spec (c : Z) (issuer : Identifier) (p : RevocationListPurpose)
  (d : Db) : wf d ->
  match create_credential_entry (V := V) self interfere c issuer p d with
  | (Ok status, d') => wf d' /\ grows d d' /\
      exists lid i, refers self status lid i p /\ holds lid i c d'
  | (Err _, d') => wf d' /\ grows d d'
  | (Panic, _) => False
  end.
Proof.
  intros Hwf. unfold create_credential_entry. run_M.
  pose proof (find_or_start_list_spec c issuer p d Hwf) as Hf.
  destruct (find_or_start_list _ _ _ _ _ d) as [[[lid index]|e|] d1]; [|done..].
  destruct Hf as (Hw1 & Hg1 & Hl1 & Hh). simpl.
  assert (Hidx : match (match index with
                        | Some i => fun s => (Ok i, s)
                        | None => add_credential_to_list interfere lid c
                        end) d1 with
                 | (Ok i, d2) => wf d2 /\ grows d d2 /\ holds lid i c d2
                 | (Err _, d2) => wf d2 /\ grows d d2
                 | (Panic, _) => False
                 end).
  { destruct index as [i|]; [done|]. unfold add_credential_to_list. run_M.
    pose proof (add_loop_spec interfere Henv lid (EntityCredential c) I max_attempts 0 d1 Hw1 Hl1
                  eq_refl (Nat.lt_0_succ 101)) as Ha.
    destruct (add_loop _ _ _ _ _ d1) as [[[eid i]|e|] d2]; [| |done].
    - destruct Ha as (Hw2 & Hg2 & d0 & _ & _ & (row & He & _ & _ & Hl & Hi & _ & Hc & _)).
      split_and!; [done|by etrans|]. exists row. split_and!; try done. simpl in He.
      rewrite He. set_solver.
    - destruct Ha as [[Hw2 Hg2] _]. split; [done|by etrans]. }
  destruct (_ d1) as [[i|e|] d2]; [|done..]. destruct Hidx as (Hw2 & Hg2 & Hh2).
  pose proof (create_credential_status_spec lid i p d2 Hw2) as Hs.
  destruct (create_credential_status _ _ _ _ d2) as [[status|e|] d3]; [| |done].
  - destruct Hs as (Hw3 & Hg3 & Hr). split_and!; [done|by etrans|].
    exists lid, i. split; [done|]. by eapply grows_holds.
  - destruct Hs as [Hw3 Hg3]. split; [done|by etrans].
Qed.
End issuance.

(** ** Verification *)

(** The formatter that verifies a list credential returns the claims it was
    made with. *)
Class StatusListReaderLaws `{StatusListReader} := {
  extract_formatted : forall f url issuer encoded alg auth p s,
    format_status_list f url issuer encoded alg auth p BitstringStatusListType = inr s ->
    exists claims, extract_claims f s = inr claims /\
      claims !! "encodedList"%string = Some (JString encoded)
}.

(** Loading [url] gives the text [s] with a content type for which the
    verifier uses the formatter [f]. *)
Definition serves `{StatusListReader} (url : string) (force : bool) (s : string) (f : Formatter) :
  Prop :=
  exists content media bytes other ct,
    load_list url force = inr (content, media) /\ parse_cache_entry content = Some (bytes, other) /\
    from_utf8 bytes = Some s /\
    (media = Some ct \/ media = None /\ other = Some ct) /\
    get_formatter_for_parsing ct (is_bbs_credential s) = Ok f.

(** The state a set bit of a list stands for. *)
Definition purpose_state (p : RevocationListPurpose) : RevocationState :=
  match p with PRevocation => Revoked | _ => Suspended None end.

Section verification.
Context `{UuidSupply} `{!UuidLaws} `{SP : StatusProviders} `{!StatusListReader}
  `{!StatusListReaderLaws}.
Context `{BV : BitVec V} `{!BitVecLaws V} `{SC : StatusCodec} `{!StatusCodecLaws}.

(** The check reads the bit of the list that is served. *)
Lemma check_status_spec (self : BitstringStatusList) (status : CredentialStatus) (force b : bool)
  (lid i : Z) (p : RevocationListPurpose) (url encoded s : string) (f : Formatter)
  (issuer : Identifier) (alg : KeyAlgorithmType) (auth : AuthFn) (sp : StatusPurpose) :
  refers self status lid i p -> is_usize i -> p = PRevocation \/ p = PSuspension ->
  get_revocation_list_url lid (bs_core_base_url self) = Ok url ->
  format_status_list f url issuer encoded alg auth sp BitstringStatusListType = inr s ->
  serves url force s f -> extract_bitstring_index (V := V) encoded i = Ok b ->
  check_credential_revocation_status (V := V) status force =
    Ok (if b then purpose_state p else Valid).
Proof.
  intros (Ht & Hp & url' & Hurl' & Hfu & Hfi) Hi Hpp Hurl Hfmt
    (content & media & bytes & other & ct & Hload & Hparse & Hutf & Hct & Hform) Hb.
  rewrite Hurl in Hurl'. injection Hurl' as <-.
  destruct (extract_formatted f url issuer encoded alg auth sp s Hfmt) as (claims & Hcl & Henc).
  unfold check_credential_revocation_status. rewrite Ht, bool_decide_eq_false_2 by auto. simpl.
  rewrite Hfu. simpl. rewrite Hfi. simpl. rewrite usize_from_to_string by done. simpl.
  rewrite Hload. simpl. rewrite Hparse. simpl. rewrite Hutf. simpl.
  assert (Hmatch : match media, other with
                   | Some m, _ => Ok m
                   | None, Some c => Ok c
                   | None, None => Err (ValidationError "Missing content type")
                   end = Ok ct) by (destruct Hct as [->|[-> ->]]; done).
  rewrite Hmatch. simpl. rewrite Hform. simpl. rewrite Hcl. simpl. rewrite Henc. simpl.
  rewrite Hb. simpl. destruct b; [|done]. rewrite Hp. by destruct Hpp as [-> | ->].
Qed.
End verification.

(** ** Properties *)

(** Adding an issued credential to the revocation list of its issuer (and
    to the suspension list when the schema allows suspension) succeeds or
    fails without a panic, keeps the tables well-formed whatever other clients
    commit, and each returned status names a list, its purpose and an index at
    which the credential is entered. *)
Theorem bitstring_issuance `{UuidSupply} `{!UuidLaws} `{StatusProviders} `{BV : BitVec V}
  `{!BitVecLaws V} `{SC : StatusCodec} `{!StatusCodecLaws} (self : BitstringStatusList)
  (interfere : Z -> Db -> Db) (c : Credential) (d : Db)
  (Henv : forall k d, rtc repo_step d (interfere k d)) (Hwf : wf d) :
  match add_issued_credential (V := V) self interfere c d with
  | (Ok infos, d') => wf d' /\ grows d d' /\
      exists schema, credential_schema c = Some schema /\
        Forall2 (fun status p => exists lid i, refers self status lid i p /\
                   holds lid i (credential_id c) d') infos
          (PRevocation :: if allow_suspension schema then [PSuspension] else [])
  | (Err _, d') => wf d' /\ grows d d'
  | (Panic, _) => False
  end.
Proof.
  unfold add_issued_credential. run_M. destruct (issuer_identifier c) as [issuer|]; simpl; [|done].
  destruct (credential_schema c) as [schema|]; simpl; [|done].
  pose proof (create_credential_entry_spec (V := V) self interfere Henv (credential_id c) issuer
                PRevocation d Hwf) as Hsp1.
  destruct (create_credential_entry _ _ _ _ PRevocation d) as [[s1|e|] d1]; [|done..].
  destruct Hsp1 as (Hw1 & Hg1 & lid1 & i1 & Hr1 & Hh1).
  destruct (allow_suspension schema) eqn:Has.
  - pose proof (create_credential_entry_spec (V := V) self interfere Henv (credential_id c) issuer
                  PSuspension d1 Hw1) as Hsp2.
    destruct (create_credential_entry _ _ _ _ PSuspension d1) as [[s2|e|] d2]; [| |done].
    + destruct Hsp2 as (Hw2 & Hg2 & Hex). split_and!; [done|by etrans|]. exists schema.
      split; [done|]. rewrite Has. constructor; [by eauto using grows_holds|].
      by constructor.
    + destruct Hsp2. split; [done|by etrans].
  - split_and!; [done..|]. exists schema. split; [done|]. rewrite Has. by repeat (econstructor; eauto).
Qed.

(** Marking a credential never panics and keeps the tables well-formed.
    When it succeeds, the status of the credential is the new one, the status
    of every other entry is what it was, and a verifier who loads the
    published list reads for every index of the list the state of its entry. *)
Theorem bitstring_status_visible `{UuidSupply} `{!UuidLaws} `{SP : StatusProviders}
  `{!StatusListReader} `{!StatusListReaderLaws} `{BV : BitVec V} `{!BitVecLaws V}
  `{SC : StatusCodec} `{!StatusCodecLaws} (self : BitstringStatusList) (c : Credential)
  (st : RevocationState) (d : Db) (Hwf : wf d) :
  let p := if decide (st = Revoked) then PRevocation else PSuspension in
  match mark_credential_as (V := V) self c st d with
  | (Ok _, d') => wf d' /\
      entries d' = (fun e => if bool_decide (e_credential_id e = Some (credential_id c))
                             then with_status (now_utc d) (Some (entry_status_of st)) e else e)
                     <$> entries d /\
      exists issuer lid row f url,
        issuer_identifier c = Some issuer /\ find_list lid d' = Some row /\
        is_list_of (identifier_id issuer) (cert_id <$> issuer_certificate c) p (bs_config_id self)
          row = true /\
        get_formatter_for_issuance self issuer = Ok f /\
        get_revocation_list_url lid (bs_core_base_url self) = Ok url /\
        forall status i st' force,
          entry_at lid i st' d' -> i / 8 + 1 <= alloc_max -> refers self status lid i p ->
          serves url force (rl_formatted_list row) f ->
          check_credential_revocation_status (V := V) status force =
            Ok (if get_revocation_entry_state st' p then purpose_state p else Valid)
  | (Err _, d') => wf d'
  | (Panic, _) => False
  end.
Proof.
  intros p. pose proof (mark_spec (V := V) self c st d Hwf) as Hm. fold p in Hm.
  destruct (mark_credential_as self c st d) as [[[]|e|] d']; [|done..].
  destruct Hm as [Hw (issuer & lid & row & f & enc & alg & auth & url & Hi & Hf & Hl & Hfi & Hu &
                      Hfmt & Hbit & He)].
  split_and!; [done|exact He|]. exists issuer, lid, row, f, url. split_and!; [done..|].
  intros status i st' force Hat Ha Hr Hs.
  pose proof (entry_at_bound lid i st' d' Hw Hat). destruct (wf_indices d' Hw lid) as [_ Hn].
  eapply check_status_spec; eauto.
  - unfold is_usize, usize_max. lia.
  - unfold p. destruct (decide (st = Revoked)); auto.
Qed.

(** The formatter of a JSON-LD list is chosen the wrong way round: an issuer
    without a BBS+ key gets the BBS+ formatter, and an issuer with one the
    classic formatter. *)
Theorem bbs_formatter_inverted `{StatusProviders} (self : BitstringStatusList) (issuer : Identifier)
  (did : Did) (keys : list RelatedKey)
  (Hformat : bs_format self = FJsonLdClassic) (Hdid : idn_did issuer = Some did)
  (Hkeys : did_keys did = Some keys) :
  let has_bbs := existsb (fun key => bool_decide (key_type (rk_key key) =
                                       algorithm_to_string BbsPlus)) keys in
  get_formatter_for_issuance self issuer =
    ok_or (get_credential_formatter (if has_bbs then "JSON_LD_CLASSIC" else "JSON_LD_BBSPLUS"))
      (FormatterNotFound "JSON_LD_CLASSIC").
Proof.
  intros has_bbs. unfold get_formatter_for_issuance. rewrite Hdid. simpl. rewrite Hkeys. simpl.
  rewrite Hformat. unfold has_bbs. by destruct (existsb _ keys).
Qed.

(** ** Witnesses *)

Import RepoWitness Concrete.

Module BitstringWitness.
#[export] Instance providers : StatusProviders := {|
  AuthFn := unit; Formatter := unit;
  get_signature_provider _ _ := inr tt;
  get_credential_formatter _ := Some tt;
  get_formatter_by_type _ := Some tt;
  format_status_list _ _ _ encoded _ _ _ _ := inr encoded;
  url_parse := Some
|}.
(** A web that serves the text [s]. *)
Definition reader (s : string) : StatusListReader := {|
  load_list _ _ := inr ([], Some "application/jwt"%string);
  parse_cache_entry _ := Some ([], None);
  from_utf8 _ := Some s;
  vcdm_cryptosuite _ := None;
  extract_claims _ s := inr {["encodedList"%string := JString s]}
|}.
#[export] Instance reader_laws (s : string) : StatusListReaderLaws (H0 := reader s).
Proof.
  split. intros f url issuer enc alg auth p s' [= ->]. eexists. split; [reflexivity|].
  apply lookup_singleton_eq.
Qed.

Definition self : BitstringStatusList :=
  bitstring_new "STATUS_LIST" (Some "https://core.example"%string) None.
Definition schema : CredentialSchema := mkCredentialSchema 60 true (Some "STATUS_LIST"%string) (Some 9) "JWT".
Definition credential : Credential :=
  mkCredential 50 None Issuer CsAccepted None None (Some RepoWitness.issuer) None (Some schema).

Definition db_issued : Db := RepoWitness.db_issued PRevocation.
Definition db_issued_wf : wf db_issued := RepoWitness.db_issued_wf PRevocation.
End BitstringWitness.
Import BitstringWitness.

(** The list of the purpose suspension does not exist yet and is started. *)
Lemma bitstring_issuance_witness :
  match add_issued_credential (V := vec) self (fun _ d => d) credential RepoWitness.db with
  | (Ok infos, d') => length infos = 2%nat /\ wf d'
  | _ => False
  end.
Proof.
  pose proof (@bitstring_issuance uuids uuid_laws providers vec vec_BitVec vec_BitVecLaws codec
    codec_laws self (fun _ d => d) credential RepoWitness.db (fun _ _ => rtc_refl _ _)
    RepoWitness.db_wf) as Ha.
  assert (Hok : is_ok (add_issued_credential (V := vec) self (fun _ d => d) credential
                         RepoWitness.db).1 = true) by (vm_compute; reflexivity).
  destruct (add_issued_credential _ _ _ _) as [[infos|e|] d']; [|discriminate Hok..].
  destruct Ha as (Hw & _ & sch & Hsch & Hf). split; [|exact Hw].
  injection Hsch as <-. apply Forall2_length in Hf. exact Hf.
Defined.

(** The store after the credential was revoked, and a web that serves its list. *)
Definition db_revoked : Db := (mark_credential_as (V := vec) self credential Revoked db_issued).2.
Definition published : string :=
  match find_list 1 db_revoked with Some row => rl_formatted_list row | None => "" end.
Definition status_0 : CredentialStatus :=
  mkCredentialStatus None BITSTRING_STATUS_TYPE (Some "revocation"%string)
    {["statusListCredential"%string := JString "https://core.example/ssi/revocation/v1/list/1";
      "statusListIndex"%string := JString "0"]}.

(** A verifier who checks index 0 reads that the credential is revoked. *)
Lemma bitstring_status_visible_witness :
  is_ok (mark_credential_as (V := vec) self credential Revoked db_issued).1 = true /\
  check_credential_revocation_status (V := vec) (H2 := reader published) status_0 false = Ok Revoked.
Proof.
  pose proof (@bitstring_status_visible uuids uuid_laws providers (reader published)
    (reader_laws published) vec vec_BitVec vec_BitVecLaws codec codec_laws self credential Revoked
    db_issued db_issued_wf) as Ha.
  assert (Hok : is_ok (mark_credential_as (V := vec) self credential Revoked db_issued).1 = true)
    by (vm_compute; reflexivity).
  split; [exact Hok|].
  assert (Hent : entries db_revoked =
    [mkEntryRow 2 1000 1000 1 (Some 0) (Some 50) EtCredential None EntryRevoked None])
    by (vm_compute; reflexivity).
  assert (Hids : rl_id <$> lists db_revoked = [1]) by (vm_compute; reflexivity).
  assert (Hpub : forall row, find_list 1 db_revoked = Some row -> published = rl_formatted_list row).
  { intros row Hrow. unfold published. by rewrite Hrow. }
  unfold db_revoked in Hent, Hids, Hpub. cbv zeta in Ha.
  destruct (mark_credential_as _ _ _ _) as [[[]|e|] d']; [|discriminate Hok..].
  destruct Ha as (_ & _ & issuer' & lid & row & f & url & _ & Hrow & _ & _ & Hurl & Hcheck).
  assert (lid = 1) as ->.
  { apply find_list_Some in Hrow as [Hin <-]. apply list_elem_of_singleton.
    simpl in Hids. rewrite <-Hids. by apply list_elem_of_fmap_2. }
  injection Hurl as <-. apply (Hcheck status_0 0 EntryRevoked false).
  - eexists. simpl in Hent. rewrite Hent. split; [apply list_elem_of_singleton; reflexivity|].
    split_and!; reflexivity.
  - vm_compute. discriminate.
  - split_and!; [reflexivity..|]. eexists. split_and!; reflexivity.
  - destruct f. exists [], (Some "application/jwt"%string), [], None, "application/jwt"%string.
    split_and!; [reflexivity..| | |reflexivity].
    + simpl. f_equal. apply Hpub. exact Hrow.
    + left. reflexivity.
Defined.

(** The issuer has an ECDSA key only. *)
Lemma bbs_formatter_inverted_witness :
  get_formatter_for_issuance (mkBitstringStatusList "STATUS_LIST" None FJsonLdClassic)
    RepoWitness.issuer =
    ok_or (get_credential_formatter "JSON_LD_BBSPLUS") (FormatterNotFound "JSON_LD_CLASSIC").
Proof.
  refine (@bbs_formatter_inverted providers (mkBitstringStatusList "STATUS_LIST" None FJsonLdClassic)
            RepoWitness.issuer
            (mkDid 8 "did:key:issuer" false (Some [mkRelatedKey AssertionMethod issuer_key "k"]))
            [mkRelatedKey AssertionMethod issuer_key "k"] _ _ _); reflexivity.
Defined.
