(* ===== verification/TokenMethod.v ===== *)
(** * The token status list method

    Models [lib/one-core/src/provider/revocation/token_status_list/mod.rs]:
    [TokenStatusList] and its implementation of [RevocationMethod] for
    credentials, wallet unit attestations and signatures, on the tables of
    RevocationRepo.v; and the status entries read from an SD-JWT VC or an
    mdoc.

    [Jwt::build_from_token] and the loader are the class [TokenListReader];
    the wallet unit repository is the class [WalletUnits]. The iteration order
    of the hash map that groups attestations by list is the argument
    [hash_order] of [update_attestation_entries]. *)

From S2P Require Import Prelude StatusBits KeySelection RevocationRepo RevocationMethod.
#[local] Open Scope Z_scope.

(** ** The method *)

Record TokenStatusList := mkTokenStatusList {
  ts_config_id : string;
  ts_core_base_url : option string;
  ts_format : StatusListCredentialFormat
}.

(** [TokenStatusList::new]: only JWT lists. *)
Definition token_new (config_id : string) (core_base_url : option string)
  (params : option StatusListCredentialFormat) : res RevocationError TokenStatusList :=
  let format := default FJwt params in
  if bool_decide (format <> FJwt) then Err (ValidationError "Token revocation format must be JWT")
  else Ok (mkTokenStatusList config_id core_base_url format).

Definition TOKEN_STATUS_TYPE : string := "TokenStatusListEntry".
Definition URI_KEY : string := "uri".
Definition INDEX_KEY : string := "idx".

(** [IdentifierDetails]; a JWK is its serialization. *)
Inductive IdentifierDetails :=
| IdDid (did : string)
| IdCertificate (chain fingerprint : string) (expiry : Z) (subject_common_name : option string)
| IdKey (jwk : string).

Class TokenListReader := {
  load_token_list : string -> bool -> string + list Z;
  parse_token_cache_entry : list Z -> option (list Z);
  token_from_utf8 : list Z -> option string;
  (** verify the token (for a DID issuer, its DID) and parse its [status_list] *)
  build_from_token : string -> option string -> string + TokenStatusListSubject
}.

(** [WalletUnitRepository::get_wallet_unit] with the organisation loaded: its
    [wallet_provider_issuer]. *)
Class WalletUnits := {
  get_wallet_unit : Z -> res DataLayerError (option (option (option Z)))
}.

Record WalletUnitAttestedKey := mkAttestedKey { wua_id : Z; wua_wallet_unit_id : Z }.

Section token_method.
Context `{UuidSupply} `{StatusProviders} `{X509} `{BV : BitVec V} `{StatusCodec}.
Context (self : TokenStatusList).

(** [get_formatter_for_issuance]. *)
Definition token_formatter : res RevocationError Formatter :=
  format_type ← match ts_format self with
                | FJwt => Ok "JWT"%string
                | FJsonLdClassic => Ok "JSON_LD_CLASSIC"%string
                | FX509Crl => Err (FormatterNotFound "X509_CRL")
                end;
  ok_or (get_formatter_by_type format_type) (FormatterNotFound format_type).

(** [format_status_list_credential]. *)
Definition token_format_list (list_id : Z) (issuer : Identifier) (certificate : option Certificate)
  (encoded_list : string) (formatter : Formatter) : res RevocationError string :=
  url ← get_revocation_list_url list_id (ts_core_base_url self);
  selection ← map_err (fun _ => KeyWithRoleNotFound AssertionMethod)
    (select_key issuer (mkKeySelection None None (cert_id <$> certificate)
       (Some (mkKeyFilter (Some AssertionMethod) (Some [DigitalSignature]) None))));
  let key := selected_key selection in
  let key_id := match selection with
                | SelDid did key => Some (verification_method_id did key)
                | _ => None
                end in
  auth_fn ← map_err (fun code => Nested (NestedProvider code))
              (of_sum (get_signature_provider key key_id));
  algorithm ← ok_or (key_algorithm_type key) (InvalidKeyAlgorithm (key_type key));
  map_err (fun code => Nested (NestedProvider code))
    (of_sum (format_status_list formatter url issuer encoded_list algorithm auth_fn
               SpRevocation TokenStatusListType)).

(** The closure of [generate_token_from_entries]. *)
Definition entry_state (entry : RevocationListEntry) :
  res RevocationError (Z * RevocationListEntryStatus) :=
  index ← ok_or (entry_index entry) (RvMappingError "revocation list entry index missing");
  Ok (index, entry_status entry).

Definition generate_token_from_entries (es : list RevocationListEntry) : res RevocationError string :=
  index_states ← try_map entry_state es;
  let preferred_token_size := calculate_preferred_token_size (len index_states) PREFERRED_ENTRY_SIZE in
  map_err (fun e => Nested (NestedToken e))
    (generate_token (V := V) index_states PREFERRED_ENTRY_SIZE preferred_token_size).

(** Publish the list again from its entries: the tail that
    [mark_credential_as], [update_attestation_entries] and
    [revoke_signature] have in common. *)
Definition republish (list_id : Z) (issuer : res RevocationError Identifier)
  (certificate : option Certificate) : M Db RevocationError unit :=
  current_entries ← M_map_err data_error (get_entries list_id);
  encoded_list ← lift (generate_token_from_entries current_entries);
  issuer ← lift issuer;
  formatter ← lift token_formatter;
  list_credential ← lift (token_format_list list_id issuer certificate encoded_list formatter);
  M_map_err data_error (update_formatted_list list_id list_credential).

Definition start_new_list_for_entity (entity_id : RevocationListEntityId) (issuer : Identifier)
  (certificate : option Certificate) : M Db RevocationError (Z * Z) :=
  revocation_list_id ← new_v4;
  encoded_list ← lift (generate_token_from_entries []);
  formatter ← lift token_formatter;
  list_credential ← lift (token_format_list revocation_list_id issuer certificate encoded_list
                            formatter);
  d ← get;
  M_map_err data_error (create_revocation_list
    (mkRevocationList revocation_list_id (now_utc d) (now_utc d) list_credential (ts_format self)
       (ts_config_id self) PRevocationAndSuspension (Some issuer) certificate));;
  entry_id ← M_map_err data_error (create_entry revocation_list_id entity_id (Some 0));
  mret (revocation_list_id, entry_id).

Definition token_lookup (issuer : Identifier) (certificate : option Certificate) :
  M Db RevocationError (option RevocationList) :=
  M_map_err data_error
    (get_revocation_by_issuer_identifier_id (identifier_id issuer) (cert_id <$> certificate)
       PRevocationAndSuspension (ts_config_id self) no_relations).

(** Start the list in a transaction. Only a unique violation (BR_0357)
    means that another client was faster: its list is fetched instead. *)
Definition start_or_refetch (entity_id : RevocationListEntityId) (issuer : Identifier)
  (certificate : option Certificate) : M Db RevocationError (Z * option Z) := fun d =>
  match transaction (start_new_list_for_entity entity_id issuer certificate) d with
  | (Ok (new_list_id, new_entry_id), d1) => (Ok (new_list_id, Some new_entry_id), d1)
  | (Err error, d1) =>
      if decide (error_code error = "BR_0357"%string) then
        (current ← token_lookup issuer certificate;
         current_list ← lift (ok_or current (RvMappingError "No revocation list found"));
         mret (list_id current_list, None)) d1
      else (Err error, d1)
  | (Panic, d1) => (Panic, d1)
  end.

(** The first half of [create_entry]: the list to use, with the entry when
    the list was started for it. [interfere (-1)] is what other clients
    commit between the lookup and the insert. *)
Definition find_or_start_token_list (interfere : Z -> Db -> Db) (entity_id : RevocationListEntityId)
  (issuer : Identifier) (certificate : option Certificate) :
  M Db RevocationError (Z * option Z) :=
  current_list ← token_lookup issuer certificate;
  match current_list with
  | Some current_list => mret (list_id current_list, None)
  | None =>
      _ ← others interfere (-1);
      start_or_refetch entity_id issuer certificate
  end.

Definition create_token_status (list_id index_on_status_list : Z) :
  M Db RevocationError CredentialStatus :=
  revocation_list_url ← lift (get_revocation_list_url list_id (ts_core_base_url self));
  id ← new_v4;
  url ← lift (ok_or (url_parse ("urn:uuid:" ++ uuid_to_string id))
                (ValidationError "Failed to parse URL"));
  mret (mkCredentialStatus (Some url) TOKEN_STATUS_TYPE (Some "revocation"%string)
          (<[URI_KEY := JString revocation_list_url]>
             (<[INDEX_KEY := JString (usize_to_string index_on_status_list)]> ∅))).

(** [TokenStatusList::create_entry]. *)
Definition token_create_entry (interfere : Z -> Db -> Db) (entity_id : RevocationListEntityId)
  (issuer : Identifier) (certificate : option Certificate) :
  M Db RevocationError (Z * CredentialStatus) :=
  found ← find_or_start_token_list interfere entity_id issuer certificate;
  entry ← match found.2 with
          | Some entry_id => mret (entry_id, 0)
          | None => add_entity_to_list interfere found.1 entity_id
          end;
  status ← create_token_status found.1 entry.2;
  mret (entry.1, status).

(** The certificate of the issuer, for a certificate identifier. *)
Definition token_issuer_certificate (credential : Credential) (issuer : Identifier) :
  res RevocationError (option Certificate) :=
  if decide (identifier_type issuer = TypeCertificate) then
    c ← ok_or (issuer_certificate credential) (RvMappingError "issuer certificate is None");
    Ok (Some c)
  else Ok None.

Definition token_add_issued_credential (interfere : Z -> Db -> Db) (credential : Credential) :
  M Db RevocationError (list CredentialStatus) :=
  issuer ← lift (ok_or (issuer_identifier credential) (RvMappingError "issuer identifier is None"));
  certificate ← lift (token_issuer_certificate credential issuer);
  entry ← token_create_entry interfere (EntityCredential (credential_id credential)) issuer
            certificate;
  mret [entry.2].

Definition token_mark_credential_as (credential : Credential) (new_state : RevocationState) :
  M Db RevocationError unit :=
  issuer ← lift (ok_or (issuer_identifier credential) (RvMappingError "issuer identifier is None"));
  certificate ← lift (token_issuer_certificate credential issuer);
  current ← token_lookup issuer certificate;
  current_list ← lift (ok_or current (MissingCredentialIndexOnRevocationList
                                        (credential_id credential) (identifier_id issuer)));
  M_map_err data_error (update_entry (UpdateCredentialEntry (credential_id credential))
                          (Some (entry_status_of new_state)));;
  republish (list_id current_list) (Ok issuer) certificate.

(** ** Attestations *)

Definition add_issued_attestation `{WalletUnits} (interfere : Z -> Db -> Db)
  (attestation : WalletUnitAttestedKey) : M Db RevocationError CredentialStatus :=
  found ← lift (map_err data_error (get_wallet_unit (wua_wallet_unit_id attestation)));
  wallet_unit ← lift (ok_or found (RvMappingError "Missing wallet unit"));
  organisation ← lift (ok_or wallet_unit (RvMappingError "Missing organisation"));
  issuer_id ← lift (ok_or organisation (RvMappingError "Missing wallet_provider_issuer"));
  d ← get;
  issuer ← lift (ok_or (find_first (fun i => identifier_id i =? issuer_id) (identifiers d))
                   (RvMappingError "Missing issuer_identifier"));
  let certificate := match idn_certificates issuer with
                     | Some cs => find_first (fun c => bool_decide (cert_state c = CertActive)) cs
                     | None => None
                     end in
  result ← token_create_entry interfere (EntityWalletUnitAttestedKey (wua_id attestation)) issuer
             certificate;
  mret result.2.

Definition get_attestation_revocation_info (list_id index : Z) :
  M Db RevocationError CredentialStatus := create_token_status list_id index.

(** [into_group_map] keyed by the list's id: the indexes of each list, in
    the order of the keys. *)
Fixpoint group_by_list (keys : list (RevocationList * Z)) : list (RevocationList * list Z) :=
  match keys with
  | [] => []
  | (l, i) :: keys =>
      let same := List.filter (fun k => list_id k.1 =? list_id l) keys in
      (l, i :: (snd <$> same)) ::
        List.filter (fun g => negb (list_id g.1 =? list_id l)) (group_by_list keys)
  end.

(** One iteration of the loop over the lists. *)
Definition update_attestation_list (new_state : RevocationState)
  (group : RevocationList * list Z) : M Db RevocationError unit :=
  for_each (fun index => M_map_err data_error
              (update_entry (UpdateEntryIndex (list_id group.1) index)
                 (Some (entry_status_of new_state)))) group.2;;
  republish (list_id group.1)
    (ok_or (list_issuer_identifier group.1) (RvMappingError "Missing issuer_identifier"))
    (list_issuer_certificate group.1).

Definition update_attestation_entries
  (hash_order : list (RevocationList * list Z) -> list (RevocationList * list Z))
  (keys : list (RevocationList * Z)) (new_state : RevocationState) : M Db RevocationError unit :=
  transaction (for_each (update_attestation_list new_state) (hash_order (group_by_list keys))).

(** ** Signatures *)

Definition add_signature (interfere : Z -> Db -> Db) (signature_type : string)
  (issuer : Identifier) (certificate : option Certificate) :
  M Db RevocationError (Z * CredentialStatus) :=
  token_create_entry interfere (EntitySignature signature_type None) issuer certificate.

Definition revoke_signature (signature_id : Z) : M Db RevocationError unit :=
  transaction (
    M_map_err data_error (update_entry (UpdateEntryId signature_id) (Some EntryRevoked));;
    current ← M_map_err data_error
      (get_revocation_list_by_entry_id signature_id (mkRelations true true));
    current_list ← lift (ok_or current (RvMappingError "Missing list for revocation entry"));
    issuer ← lift (ok_or (list_issuer_identifier current_list)
                     (RvMappingError "Missing revocation list issuer"));
    republish (list_id current_list) (Ok issuer) (list_issuer_certificate current_list)).

(** ** The verifier *)

Definition token_check_credential_revocation_status `{TokenListReader} (status : CredentialStatus)
  (issuer_details : IdentifierDetails) (force_refresh : bool) :
  res RevocationError RevocationState :=
  _ ← fail_if (bool_decide (cst_type status <> TOKEN_STATUS_TYPE))
        (ValidationError ("Invalid credential status type: " ++ cst_type status));
  list_url ← ok_or (cst_fields status !! URI_KEY ≫= as_str)
               (ValidationError "Missing status list url");
  list_index ← ok_or (cst_fields status !! INDEX_KEY ≫= as_str)
                 (ValidationError "Missing status list index");
  list_index ← ok_or (usize_from_str list_index) (ValidationError "Invalid list index");
  content ← map_err (fun code => Nested (NestedProvider code))
              (of_sum (load_token_list list_url force_refresh));
  response ← ok_or (parse_token_cache_entry content) JsonError;
  response_content ← ok_or (token_from_utf8 response) FromUtf8Error;
  let issuer_did := match issuer_details with IdDid did => Some did | _ => None end in
  status_list ← map_err (fun code => Nested (NestedProvider code))
                  (of_sum (build_from_token response_content issuer_did));
  map_err (fun e => Nested (NestedToken e))
    (extract_state_from_token (V := V) status_list list_index).
End token_method.

(** ** Status entries of formatted credentials *)

Definition token_status_list_entry (uri : string) (index : Z) : CredentialStatus :=
  mkCredentialStatus None TOKEN_STATUS_TYPE (Some "revocation"%string)
    (<[URI_KEY := JString uri]> (<[INDEX_KEY := JString (usize_to_string index)]> ∅)).

Definition credential_status_from_sdjwt_status (status : option (string * Z)) :
  list CredentialStatus :=
  match status with Some (uri, index) => [token_status_list_entry uri index] | None => [] end.

(** [MsoStatus]: the [status_list] mechanism, and the names of the others. *)
Record MsoStatus := mkMsoStatus { mso_status_list : option (Z * string); mso_other : list string }.

Definition credential_status_from_mso_status (status : option MsoStatus) : list CredentialStatus :=
  match status with
  | None => []
  | Some s =>
      match mso_status_list s with
      | Some (idx, uri) => [token_status_list_entry uri idx]
      | None => (fun mechanism => mkCredentialStatus None mechanism None ∅) <$> mso_other s
      end
  end.

(** ** The published token *)

(** The state a verifier reads for an entry. *)
Definition read_state (st : RevocationListEntryStatus) : RevocationState :=
  match st with
  | EntryActive => Valid
  | EntryRevoked => Revoked
  | EntrySuspended => Suspended None
  end.

(** The lists that can be published whatever their entries' states: the token
    is not rounded up to a byte above the minimum size. *)
Definition room (n : Z) : Prop := n <= 131072 \/ n mod 4 = 0.

Lemma token_size (n : Z) : 0 <= n <= 4294967296 ->
  calculate_preferred_token_size n PREFERRED_ENTRY_SIZE = Z.max (2 * n) 262144.
Proof.
  intros Hn. unfold calculate_preferred_token_size, PREFERRED_ENTRY_SIZE.
  rewrite !wrap_small by (unfold is_usize, usize_max; lia). f_equal. lia.
Qed.

Lemma entry_fits (n i : Z) (st : RevocationListEntryStatus) : 0 <= i < n -> n <= 4294967296 ->
  room n -> fits 2 (Z.max (2 * n) 262144) (i, st).
Proof.
  intros Hi Hn Hr. unfold fits, small_index, slot, usize_max. simpl.
  change (8 / 2) with 4. split_and!; [lia|lia| |lia].
  unfold room in Hr. Z.to_euclidean_division_equations. lia.
Qed.

#[local] Opaque update_entry get_entries update_formatted_list create_revocation_list create_entry
  get_revocation_by_issuer_identifier_id get_revocation_list_by_entry_id.

Section token_publication.
Context `{UuidSupply} `{!UuidLaws} `{StatusProviders} `{X509}.
Context `{BV : BitVec V} `{!BitVecLaws V} `{SC : StatusCodec} `{!StatusCodecLaws}.
Context (self : TokenStatusList).

Lemma generate_token_spec (lid : Z) (d : Db) (es : list RevocationListEntry) :
  wf d -> room (len (indices lid d)) -> get_entries lid d = (Ok es, d) ->
  match generate_token_from_entries (V := V) es with
  | Ok t => forall i st, entry_at lid i st d ->
      extract_state_from_token (V := V) (mkSubject 2 t) i = Ok (read_state st)
  | Err e => True
  | Panic => False
  end.
Proof.
  intros Hwf Hroom Hes. unfold generate_token_from_entries.
  pose proof (collect_entries id (RvMappingError "revocation list entry index missing") lid d es
    entry_state Hwf Hes (fun x => eq_refl)) as Hc.
  destruct (try_map entry_state es) as [states|e|]; simpl; [|done..].
  destruct Hc as (Hind & Hn & Hst). destruct (wf_indices d Hwf lid) as [_ Hmax].
  pose proof (len_nonneg (indices lid d)) as Hpos. rewrite token_size by lia.
  assert (Hb : supported_bits PREFERRED_ENTRY_SIZE) by (unfold supported_bits; set_solver).
  assert (Hfits : Forall (fits PREFERRED_ENTRY_SIZE (Z.max (2 * len states) 262144)) states).
  { apply Forall_forall. intros [i st] (st' & Hat & ->)%Hst.
    apply entry_fits; rewrite ?Hn; [by eapply entry_at_bound|done..]. }
  destruct (generate_token (V := V) states _ _) as [t|e|] eqn:Hg; simpl; [|done|].
  - intros i st Hat. pose proof (entry_at_bound lid i st d Hwf Hat) as Hi.
    destruct (entry_fits (len states) i st) as (Hsm & Hslot & _); [lia..|by rewrite Hn|].
    pose proof (token_publishes (V := V) states PREFERRED_ENTRY_SIZE
      (Z.max (2 * len states) 262144) i Hb ltac:(lia) Hfits Hsm Hslot) as Hp.
    rewrite Hg in Hp. change (mkSubject 2 t) with (mkSubject PREFERRED_ENTRY_SIZE t). rewrite Hp.
    f_equal. unfold published_state.
    assert (Hiff : forall st', (i, st') ∈ states <-> st' = st).
    { intros st'. rewrite Hst. split.
      - intros (st2 & Hat2 & ->). unfold id. by apply (entry_at_unique lid i st2 st d).
      - intros ->. by exists st. }
    rewrite !(bool_decide_ext _ _ (Hiff _)). destruct st; repeat case_bool_decide; done.
  - pose proof (token_publishes (V := V) states PREFERRED_ENTRY_SIZE
      (Z.max (2 * len states) 262144) 0 Hb ltac:(lia) Hfits) as Hp.
    rewrite Hg in Hp. apply Hp; [vm_compute; split; discriminate|].
    change (slot 0 PREFERRED_ENTRY_SIZE + PREFERRED_ENTRY_SIZE) with 8. lia.
Qed.

(** The list [lid] is published: a verifier reads the states of its entries. *)
Definition token_published (issuer : Identifier) (lid : Z) (d : Db) : Prop :=
  exists row f encoded alg auth url,
    find_list lid d = Some row /\ token_formatter self = Ok f /\
    get_revocation_list_url lid (ts_core_base_url self) = Ok url /\
    format_status_list f url issuer encoded alg auth SpRevocation TokenStatusListType
      = inr (rl_formatted_list row) /\
    forall i st, entry_at lid i st d ->
      extract_state_from_token (V := V) (mkSubject 2 encoded) i = Ok (read_state st).

Lemma token_formatter_no_panic : token_formatter self <> Panic.
Proof.
  unfold token_formatter. no_panic.
Qed.

Lemma token_format_list_cases (lid : Z) (issuer : Identifier) (cert : option Certificate)
  (enc : string) (f : Formatter) :
  match token_format_list self lid issuer cert enc f with
  | Ok s => exists url alg auth, get_revocation_list_url lid (ts_core_base_url self) = Ok url /\
      format_status_list f url issuer enc alg auth SpRevocation TokenStatusListType = inr s
  | Err _ => True
  | Panic => False
  end.
Proof.
  unfold token_format_list. destruct (get_revocation_list_url lid _) as [url|e|] eqn:Hurl; simpl;
    [|done|by unfold get_revocation_list_url in Hurl; destruct (ts_core_base_url self)].
  destruct (select_key _ _) as [sel|e|] eqn:Hsel; simpl; [|done|by apply select_key_no_panic in Hsel].
  destruct (get_signature_provider _ _) as [|auth]; simpl; [done|].
  destruct (key_algorithm_type _) as [alg|]; simpl; [|done].
  destruct (format_status_list _ _ _ _ _ _ _ _) as [|s] eqn:Hf; simpl; [done|]. eauto.
Qed.

Lemma republish_spec (lid : Z) (issuer : res RevocationError Identifier)
  (cert : option Certificate) (d : Db) : wf d -> issuer <> Panic ->
  room (len (indices lid d)) ->
  match republish (V := V) self lid issuer cert d with
  | (Ok _, d') => wf d' /\ grows d d' /\ entries d' = entries d /\
      (forall l, indices l d' = indices l d) /\
      (forall l, l <> lid -> find_list l d' = find_list l d) /\
      (forall row, find_list lid d = Some row ->
         exists row', find_list lid d' = Some row' /\ list_key row' = list_key row) /\
      exists iss, issuer = Ok iss /\ token_published iss lid d'
  | (Err _, d') => d' = d
  | (Panic, _) => False
  end.
Proof.
  intros Hwf Hiss Hroom. unfold republish, M_map_err. run_M.
  destruct (get_entries_spec lid d Hwf) as (es & Hes & _). rewrite Hes. simpl.
  pose proof (generate_token_spec lid d es Hwf Hroom Hes) as Hg.
  destruct (generate_token_from_entries es) as [enc|e|]; simpl; [|done..].
  destruct issuer as [issuer|e|]; simpl; [|done..].
  destruct (token_formatter self) as [f|e|] eqn:Hf; simpl; [|done|by apply token_formatter_no_panic in Hf].
  pose proof (token_format_list_cases lid issuer cert enc f) as Hs.
  destruct (token_format_list self lid issuer cert enc f) as [s|e|]; simpl; [|done..].
  destruct Hs as (url & alg & auth & Hurl & Hs).
  destruct (find_list lid d) as [row|] eqn:Hl.
  - destruct (update_formatted_list_wf lid s d Hwf) as
      (d2 & -> & Hwf2 & He2 & Hix2 & (row2 & Hrow2 & Hs2) & Hg2 & Hls2); [by rewrite Hl|].
    assert (Hfl : forall l, find_list l d2 = with_formatted lid (now_utc d) s <$> find_list l d).
    { intros l. unfold find_list. rewrite Hls2. apply find_list_formatted. }
    simpl. split_and!; [done..| | |].
    + intros l Hne. rewrite Hfl. destruct (find_list l d) as [r|] eqn:Hr; [|done]. simpl. f_equal.
      apply find_list_Some in Hr as [_ Hid]. unfold with_formatted.
      destruct (Z.eqb_spec (rl_id r) lid); [congruence|done].
    + intros r [= <-]. rewrite Hfl, Hl. eexists. split; [reflexivity|]. apply with_formatted_key.
    + exists issuer. split; [done|]. exists row2, f, enc, alg, auth, url. split_and!; [done..|by rewrite Hs2|].
      intros i st (e & He & Hrest). apply Hg. exists e. by rewrite <-He2.
  - by rewrite update_formatted_list_missing.
Qed.
End token_publication.

(** ** Updates of several entries *)

(** [d'] is [d] with the status of the entries that satisfy [P] set to [st]. *)
Definition status_update (P : EntryRow -> Prop) (st : RevocationListEntryStatus) (d d' : Db) : Prop :=
  exists f, entries d' = f <$> entries d /\
    forall e, same_slot e (f e) /\ (P e -> e_status (f e) = st) /\ (~ P e -> f e = e).

(** Predicates on the place of an entry, not on its state. *)
Definition on_slot (P : EntryRow -> Prop) : Prop :=
  forall e e', same_slot e e' -> (P e <-> P e').

Definition at_indexes (lid : Z) (ixs : list Z) (e : EntryRow) : Prop :=
  e_list_id e = lid /\ exists i, i ∈ ixs /\ e_index e = Some (u32_wrap i).

Lemma at_indexes_on_slot (lid : Z) (ixs : list Z) : on_slot (at_indexes lid ixs).
Proof. intros e e' (_ & Hl & Hi & _). unfold at_indexes. by rewrite Hl, Hi. Qed.

#[export] Instance at_indexes_dec (lid : Z) (ixs : list Z) (e : EntryRow) :
  Decision (at_indexes lid ixs e).
Proof.
  destruct (decide (e_list_id e = lid)) as [Hl|Hl]; [|right; by intros [? _]].
  destruct (decide (Exists (fun i => e_index e = Some (u32_wrap i)) ixs)) as [Hx|Hx];
    rewrite Exists_exists in Hx; [by left|right; by intros [_ ?]].
Defined.

Lemma status_update_refl (st : RevocationListEntryStatus) (d d' : Db) : entries d' = entries d ->
  status_update (fun _ => False) st d d'.
Proof. intros He. exists id. by rewrite list_fmap_id. Qed.

Lemma status_update_ext (P Q : EntryRow -> Prop) (st : RevocationListEntryStatus) (d d' : Db) :
  (forall e, P e <-> Q e) -> status_update P st d d' -> status_update Q st d d'.
Proof.
  intros HPQ (f & He & Hf). exists f. split; [done|]. intros e. destruct (Hf e) as (Hs & HP & HN).
  rewrite <-!HPQ. done.
Qed.

Lemma status_update_trans (P Q : EntryRow -> Prop) (st : RevocationListEntryStatus) (d d1 d2 : Db) :
  on_slot Q -> (forall e, Decision (Q e)) ->
  status_update P st d d1 -> status_update Q st d1 d2 ->
  status_update (fun e => P e \/ Q e) st d d2.
Proof.
  intros HQ Hdec (f & He & Hf) (g & He1 & Hg). exists (g ∘ f). split.
  { by rewrite He1, He, list_fmap_compose. }
  intros e. destruct (Hf e) as (Hs & HP & HN), (Hg (f e)) as (Hs1 & HP1 & HN1). simpl.
  pose proof (HQ e (f e) Hs) as HQe. split_and!.
  - unfold same_slot in *. destruct_and!. split_and!; congruence.
  - intros Hor. destruct (Hdec (f e)) as [Hq|Hq]; [auto|]. rewrite (HN1 Hq). apply HP. tauto.
  - intros Hn. rewrite HN1 by tauto. apply HN. tauto.
Qed.

(** Entries of another list are not touched. *)
Lemma status_update_entry_at (P : EntryRow -> Prop) (st : RevocationListEntryStatus) (d d' : Db)
  (lid : Z) : status_update P st d d' -> (forall e, P e -> e_list_id e <> lid) ->
  forall i st', entry_at lid i st' d' -> entry_at lid i st' d.
Proof.
  intros (f & He & Hf) HP i st' (e & Hin & Hl & Hi & Hs). rewrite He in Hin.
  apply list_elem_of_fmap in Hin as (e0 & -> & Hin).
  destruct (Hf e0) as ((_ & Hl0 & _) & _ & HN).
  assert (Hn : ~ P e0) by (intros HPe; apply (HP e0 HPe); congruence).
  rewrite (HN Hn) in *. by exists e0.
Qed.

(** The groups are those of the keys, one per list. *)
Lemma group_by_list_elem (keys : list (RevocationList * Z)) (lid i : Z) :
  (exists g, g ∈ group_by_list keys /\ list_id g.1 = lid /\ i ∈ g.2) <->
  exists k, k ∈ keys /\ list_id k.1 = lid /\ k.2 = i.
Proof.
  induction keys as [|[l j] keys IH]; simpl.
  { split; intros (? & Hx & _); by apply elem_of_nil in Hx. }
  split.
  - intros (g & [->|[Hne Hg]%elem_of_filter_bool]%elem_of_cons & Hl & Hi); simpl in *.
    + apply elem_of_cons in Hi as [->|Hi]; [exists (l, j); split; [left|done]|].
      apply list_elem_of_fmap in Hi as (k & -> & [Hk%Z.eqb_eq Hin]%elem_of_filter_bool).
      exists k. split; [by right|]. split; [congruence|done].
    + destruct (proj1 IH) as (k & Hk & Hrest); [by eauto|]. exists k. split; [by right|done].
  - intros (k & [->|Hk]%elem_of_cons & Hl & Hi); simpl in *.
    + eexists. split; [left|]. simpl. split; [done|]. subst. left.
    + destruct (Z.eqb_spec (list_id l) lid) as [Heq|Hne].
      * eexists. split; [left|]. simpl. split; [done|]. right. apply list_elem_of_fmap.
        exists k. split; [done|]. apply elem_of_filter_bool. split; [apply Z.eqb_eq; congruence|done].
      * destruct (proj2 IH) as (g & Hg & Hgl & Hgi); [by eauto|]. exists g. split; [|done].
        right. apply elem_of_filter_bool. split; [|done]. apply negb_true_iff, Z.eqb_neq. congruence.
Qed.

Lemma group_by_list_NoDup (keys : list (RevocationList * Z)) :
  NoDup ((fun g => list_id g.1) <$> group_by_list keys).
Proof.
  induction keys as [|[l j] keys IH]; [constructor|]. simpl. apply NoDup_cons. split.
  - intros (g & Hg & [Hne _]%elem_of_filter_bool)%list_elem_of_fmap.
    apply negb_true_iff, Z.eqb_neq in Hne. congruence.
  - by apply NoDup_filter_fmap.
Qed.

Section token_updates.
Context `{UuidSupply} `{!UuidLaws} `{StatusProviders} `{X509}.
Context `{BV : BitVec V} `{!BitVecLaws V} `{SC : StatusCodec} `{!StatusCodecLaws}.
Context (self : TokenStatusList).

(** What an update of states leaves in place. *)
Definition keeps (d d' : Db) : Prop :=
  wf d' /\ grows d d' /\ forall l, indices l d' = indices l d.

Lemma keeps_trans (d d1 d2 : Db) : keeps d d1 -> keeps d1 d2 -> keeps d d2.
Proof.
  intros (_ & Hg & Hi) (Hw1 & Hg1 & Hi1). split_and!; [done|by etrans|].
  intros l. by rewrite Hi1.
Qed.

Lemma update_entry_keeps (id : UpdateRevocationListEntryId) (st : RevocationListEntryStatus)
  (d : Db) : wf d -> exists d', update_entry id (Some st) d = (Ok tt, d') /\ keeps d d' /\
    lists d' = lists d /\ status_update (fun e => updates id e = true) st d d'.
Proof.
  intros Hwf. destruct (update_entry_wf id (Some st) d Hwf) as (d' & Hu & Hw & Hsl & Hix & He).
  exists d'. split; [done|].
  assert (Hst : status_update (fun e => updates id e = true) st d d').
  { eexists. split; [exact He|]. intros e. simpl. destruct (updates id e); split_and!; done. }
  split_and!; [|apply Hsl|done]. split_and!; [done| |done].
  apply same_lists_grows; [done|intros l; by rewrite Hix|].
  intros e Hin. rewrite He. eexists. split; [by apply list_elem_of_fmap_2|].
  by destruct (updates id e).
Qed.

(** The inner loop of [update_attestation_entries]. *)
Lemma update_indexes_spec (lid : Z) (ixs : list Z) (st : RevocationListEntryStatus) (d : Db) :
  wf d -> exists d', for_each (fun index => M_map_err data_error
              (update_entry (UpdateEntryIndex lid index) (Some st))) ixs d = (Ok tt, d') /\
    keeps d d' /\ lists d' = lists d /\ status_update (at_indexes lid ixs) st d d'.
Proof.
  revert d; induction ixs as [|i ixs IH]; intros d Hwf; simpl.
  { exists d. split_and!; try done. eapply status_update_ext; [|by apply status_update_refl].
    intros e. split; [done|]. intros (_ & i & Hi & _). by apply elem_of_nil in Hi. }
  destruct (update_entry_keeps (UpdateEntryIndex lid i) st d Hwf) as (d1 & Hu1 & Hk1 & Hl1 & Hs1).
  destruct (IH d1) as (d2 & Hd2 & Hk2 & Hl2 & Hs2); [apply Hk1|]. exists d2. split.
  { run_M. erewrite M_map_err_run by exact Hu1. simpl. exact Hd2. }
  split_and!; [by eapply keeps_trans|congruence|].
  eapply status_update_ext;
    [|eapply status_update_trans; [apply at_indexes_on_slot|apply _|exact Hs1|exact Hs2]].
  intros e. simpl. unfold at_indexes. rewrite andb_true_iff, Z.eqb_eq, bool_decide_eq_true.
  split.
  - intros [[Hl Hi]|(Hl & j & Hj & Hi)]; split; eauto; [exists i|exists j]; split; auto; by constructor.
  - intros (Hl & j & [->|Hj]%elem_of_cons & Hi); eauto.
Qed.

Lemma token_published_same (issuer : Identifier) (lid : Z) (d d' : Db) : find_list lid d' = find_list lid d ->
  (forall i st, entry_at lid i st d' -> entry_at lid i st d) ->
  token_published (V := V) self issuer lid d -> token_published (V := V) self issuer lid d'.
Proof.
  intros Hf Hat (row & f & enc & alg & auth & url & Hl & Hff & Hurl & Hfmt & Hx).
  exists row, f, enc, alg, auth, url. rewrite Hf. by split_and!; auto.
Qed.

(** One list of [update_attestation_entries]. *)
Lemma update_attestation_list_spec (st : RevocationState) (g : RevocationList * list Z) (d : Db) :
  wf d -> room (len (indices (list_id g.1) d)) ->
  match update_attestation_list (V := V) self st g d with
  | (Ok _, d') => keeps d d' /\
      status_update (at_indexes (list_id g.1) g.2) (entry_status_of st) d d' /\
      (exists issuer, list_issuer_identifier g.1 = Some issuer /\
         token_published (V := V) self issuer (list_id g.1) d') /\
      forall l, l <> list_id g.1 -> find_list l d' = find_list l d
  | (Err _, _) => True
  | (Panic, _) => False
  end.
Proof.
  intros Hwf Hroom. unfold update_attestation_list. run_M.
  destruct (update_indexes_spec (list_id g.1) g.2 (entry_status_of st) d Hwf)
    as (d1 & Hd1 & Hk1 & Hl1 & Hs1).
  erewrite (surjective_pairing (for_each _ _ d)). rewrite Hd1. simpl.
  destruct Hk1 as (Hw1 & Hg1 & Hi1).
  match goal with |- context [republish self ?l ?i ?c d1] =>
    pose proof (republish_spec (V := V) self l i c d1 Hw1) as Hr;
    destruct (republish self l i c d1) as [[[]|e|] d2]
  end; [|done|].
  - destruct Hr as (Hw2 & Hg2 & He2 & Hi2 & Hf2 & _ & iss & Hiss%ok_or_ok & Hp);
      [apply ok_or_no_panic|by rewrite Hi1|].
    unfold keeps. split_and!; [done|by etrans|intros l; by rewrite Hi2| |by eauto|].
    + destruct Hs1 as (f & Hf & Hfe). exists f. by rewrite He2.
    + intros l Hne. rewrite Hf2 by done. unfold find_list. by rewrite Hl1.
  - apply Hr; [apply ok_or_no_panic|by rewrite Hi1].
Qed.

Lemma update_attestation_lists_spec (st : RevocationState)
  (gs : list (RevocationList * list Z)) (d : Db) :
  wf d -> (forall l, room (len (indices l d))) -> NoDup ((fun g => list_id g.1) <$> gs) ->
  match for_each (update_attestation_list (V := V) self st) gs d with
  | (Ok _, d') => keeps d d' /\
      status_update (fun e => exists g, g ∈ gs /\ at_indexes (list_id g.1) g.2 e)
        (entry_status_of st) d d' /\
      (forall g, g ∈ gs -> exists issuer, list_issuer_identifier g.1 = Some issuer /\
         token_published (V := V) self issuer (list_id g.1) d') /\
      (forall l, l ∉ (fun g => list_id g.1) <$> gs -> find_list l d' = find_list l d)
  | (Err _, _) => True
  | (Panic, _) => False
  end.
Proof.
  revert d; induction gs as [|g gs IH]; intros d Hwf Hroom Hnd; simpl.
  { split_and!; try done; [|by intros g ?%elem_of_nil].
    eapply status_update_ext; [|by apply status_update_refl].
    intros e. split; [done|]. intros (g & Hg & _). by apply elem_of_nil in Hg. }
  apply NoDup_cons in Hnd as [Hnin Hnd]. run_M.
  pose proof (update_attestation_list_spec st g d Hwf (Hroom _)) as Hg1.
  destruct (update_attestation_list self st g d) as [[[]|e|] d1]; [|done..].
  destruct Hg1 as (Hk1 & Hs1 & Hp1 & Hf1).
  pose proof (IH d1 (proj1 Hk1)) as IHd. destruct (for_each _ gs d1) as [[[]|e|] d2]; [|done|].
  2: { apply IHd; [|done]. intros l. destruct Hk1 as (_ & _ & ->). auto. }
  destruct IHd as (Hk2 & Hs2 & Hp2 & Hf2); [|done|].
  { intros l. destruct Hk1 as (_ & _ & ->). auto. }
  split_and!; [by eapply keeps_trans| | |].
  - eapply status_update_ext; [|eapply status_update_trans; [| |exact Hs1|exact Hs2]].
    + intros e. simpl. split.
      * intros [Ha|(g' & Hg' & Ha)]; [exists g; split; [left|done]|exists g'; split; [by right|done]].
      * intros (g' & [->|Hg']%elem_of_cons & Ha); eauto.
    + intros e e' Hslot. split; intros (g' & Hg' & Ha); exists g'; (split; [done|]);
        by apply (at_indexes_on_slot _ _ _ _ Hslot).
    + intros e. destruct (decide (Exists (fun g => at_indexes (list_id g.1) g.2 e) gs)) as [Hx|Hx];
        rewrite Exists_exists in Hx; [by left|by right].
  - intros g' [->|Hg']%elem_of_cons; [|auto].
    destruct Hp1 as (issuer & Hiss & Hp1). exists issuer. split; [done|].
    eapply token_published_same; [by apply Hf2| |exact Hp1].
    eapply status_update_entry_at; [exact Hs2|].
    intros e (g' & Hg' & Hl & _) He. apply Hnin. apply list_elem_of_fmap.
    exists g'. split; [congruence|done].
  - intros l [Hne Hl]%not_elem_of_cons. rewrite Hf2, Hf1 by done. done.
Qed.

(** Signatures: the entry's list is published with the entry revoked. *)
Lemma revoke_signature_spec (sig : Z) (d : Db) : wf d -> (forall l, room (len (indices l d))) ->
  match revoke_signature (V := V) self sig d with
  | (Ok _, d') => keeps d d' /\ status_update (fun e => e_id e = sig) EntryRevoked d d' /\
      exists e issuer, e ∈ entries d' /\ e_id e = sig /\ e_status e = EntryRevoked /\
        token_published (V := V) self issuer (e_list_id e) d'
  | (Err _, d') => d' = d
  | (Panic, _) => False
  end.
Proof.
  intros Hwf Hroom. unfold revoke_signature, transaction. run_M.
  destruct (update_entry_keeps (UpdateEntryId sig) EntryRevoked d Hwf) as (d1 & Hu1 & Hk1 & Hl1 & Hs1).
  erewrite M_map_err_run by exact Hu1. simpl.
  pose proof (list_by_entry_spec sig (mkRelations true true) d1) as Hle.
  unfold M_map_err.
  destruct (get_revocation_list_by_entry_id _ _ d1) as [[[l|]|e|] d1']; simpl; try done.
  destruct Hle as (-> & e & He & Hid & Hl). destruct Hk1 as (Hw1 & Hg1 & Hi1).
  destruct (list_issuer_identifier l) as [issuer|]; simpl; [|done].
  pose proof (republish_spec (V := V) self (list_id l) (Ok issuer) (list_issuer_certificate l) d1
                Hw1 ltac:(done)) as Hr. rewrite Hi1 in Hr.
  destruct (republish _ _ _ _ d1) as [[[]|e'|] d2]; [|done|by apply Hr].
  destruct Hr as (Hw2 & Hg2 & He2 & Hi2 & _ & _ & iss & [= <-] & Hp); [done|].
  unfold keeps. split_and!; [done|by etrans|intros x; by rewrite Hi2| |].
  - destruct Hs1 as (f & Hf & Hfe). exists f. rewrite He2. split; [done|]. intros x.
    destruct (Hfe x) as (? & HP & HN). simpl in HP, HN. rewrite Z.eqb_eq in HP, HN. done.
  - exists e, issuer. rewrite He2, Hl. split_and!; try done.
    destruct Hs1 as (f & Hf & Hfe). rewrite Hf in He. apply list_elem_of_fmap in He as (e0 & -> & _).
    destruct (Hfe e0) as ((Hid0 & _) & HP & _). apply HP. simpl. apply Z.eqb_eq. congruence.
Qed.

(** Credentials. *)
Lemma token_mark_spec (c : Credential) (st : RevocationState) (d : Db) :
  wf d -> (forall l, room (len (indices l d))) ->
  match token_mark_credential_as (V := V) self c st d with
  | (Ok _, d') => keeps d d' /\
      status_update (fun e => e_credential_id e = Some (credential_id c)) (entry_status_of st) d d' /\
      exists issuer cert lid row, issuer_identifier c = Some issuer /\
        token_issuer_certificate c issuer = Ok cert /\ find_list lid d' = Some row /\
        list_key row = (identifier_id issuer, cert_id <$> cert, PRevocationAndSuspension,
                        ts_config_id self) /\
        token_published (V := V) self issuer lid d'
  | (Err _, d') => keeps d d'
  | (Panic, _) => False
  end.
Proof.
  intros Hwf Hroom. assert (Hk0 : keeps d d) by (by split_and!).
  unfold token_mark_credential_as, token_lookup. run_M.
  destruct (issuer_identifier c) as [issuer|] eqn:His; simpl; [|done].
  destruct (token_issuer_certificate c issuer) as [cert|e|] eqn:Hc; simpl; [|done|].
  2: { exfalso. revert Hc. change (token_issuer_certificate c issuer <> Panic).
       unfold token_issuer_certificate. no_panic. }
  pose proof (lookup_list_spec (identifier_id issuer) (cert_id <$> cert) PRevocationAndSuspension
                (ts_config_id self) d Hwf) as Hl.
  unfold M_map_err at 1.
  destruct (get_revocation_by_issuer_identifier_id _ _ _ _ _ d) as [[[l|]|e|] d0]; try done;
    simpl; [|by subst].
  destruct Hl as (-> & row & Hrow & Hid & Hlist).
  destruct (update_entry_keeps (UpdateCredentialEntry (credential_id c)) (entry_status_of st) d Hwf)
    as (d1 & Hu1 & Hk1 & Hl1 & Hs1).
  erewrite M_map_err_run by exact Hu1. simpl. pose proof Hk1 as (Hw1 & Hg1 & Hi1).
  pose proof (republish_spec (V := V) self (list_id l) (Ok issuer) cert d1 Hw1 ltac:(done)) as Hr.
  rewrite Hi1 in Hr. destruct (republish _ _ _ _ d1) as [[[]|e'|] d2]; [| |by apply Hr].
  - destruct Hr as (Hw2 & Hg2 & He2 & Hi2 & _ & Hkey & iss & [= <-] & Hp); [done|].
    unfold keeps. split_and!; [done|by etrans|intros x; by rewrite Hi2| |].
    + destruct Hs1 as (f & Hf & Hfe). exists f. rewrite He2. split; [done|]. intros x.
      destruct (Hfe x) as (? & HP & HN). simpl in HP, HN.
      rewrite bool_decide_eq_true in HP, HN. done.
    + destruct (Hkey row) as (row' & Hrow' & Hk'); [unfold find_list in *; by rewrite Hl1|].
      exists issuer, cert, (list_id l), row'. split_and!; try done. rewrite Hk'.
      unfold is_list_of in Hlist. rewrite !andb_true_iff, !bool_decide_eq_true in Hlist.
      unfold list_key. destruct_and! Hlist. congruence.
  - by rewrite Hr.
Qed.
End token_updates.

(** ** Entering an entity *)

(** The entry [eid] is at index [i] of the list [lid], for [entity]'s credential. *)
Definition entered (lid i eid : Z) (entity : RevocationListEntityId) (d : Db) : Prop :=
  exists e, e ∈ entries d /\ e_id e = eid /\ e_list_id e = lid /\ e_index e = Some i /\
    e_credential_id e = entity_credential entity.

Lemma grows_entered (lid i eid : Z) (entity : RevocationListEntityId) (d d' : Db) :
  grows d d' -> entered lid i eid entity d -> entered lid i eid entity d'.
Proof.
  intros (_ & _ & _ & Hg) (e & He & Hid & Hl & Hi & Hc).
  destruct (Hg e He) as (e' & He' & Hid' & Hl' & Hi' & Hc'). exists e'. split_and!; congruence.
Qed.

(** A token status names the list [lid] and the index [i]. *)
Definition token_refers `{UuidSupply} (self : TokenStatusList) (status : CredentialStatus)
  (lid i : Z) : Prop :=
  cst_type status = TOKEN_STATUS_TYPE /\
  exists url, get_revocation_list_url lid (ts_core_base_url self) = Ok url /\
    cst_fields status !! URI_KEY = Some (JString url) /\
    cst_fields status !! INDEX_KEY = Some (JString (usize_to_string i)).

Section token_issuance.
Context `{UuidSupply} `{!UuidLaws} `{StatusProviders} `{X509}.
Context `{BV : BitVec V} `{!BitVecLaws V} `{SC : StatusCodec} `{!StatusCodecLaws}.
Context (self : TokenStatusList) (interfere : Z -> Db -> Db).
Context (Henv : forall k d, rtc repo_step d (interfere k d)).
Context (entity : RevocationListEntityId) (Hent : entity_ok entity).

(** An empty token is always generated (or the codec fails). *)
Lemma generate_empty_token : generate_token_from_entries (V := V) [] <> Panic.
Proof.
  unfold generate_token_from_entries. simpl. apply map_err_no_panic.
  assert (Hb : supported_bits PREFERRED_ENTRY_SIZE) by (unfold supported_bits; set_solver).
  pose proof (token_publishes (V := V) [] PREFERRED_ENTRY_SIZE
    (calculate_preferred_token_size 0 PREFERRED_ENTRY_SIZE) 0 Hb) as Hp.
  change (len _) with 0. intros Hg. rewrite Hg in Hp.
  apply Hp; [vm_compute; discriminate|constructor|vm_compute; split; discriminate|
             vm_compute; discriminate].
Qed.

Lemma start_token_list_spec (issuer : Identifier) (cert : option Certificate) (d : Db) : wf d ->
  match transaction (start_new_list_for_entity (V := V) self entity issuer cert) d with
  | (Ok (lid, eid), d') => wf d' /\ grows d d' /\ entered lid 0 eid entity d'
  | (Err _, d') => d' = d
  | (Panic, _) => False
  end.
Proof.
  intros Hwf. unfold transaction, start_new_list_for_entity, M_map_err. run_M. simpl.
  destruct (generate_token_from_entries []) as [enc|e|] eqn:Hgen; simpl; [|done|].
  2: { revert Hgen. apply generate_empty_token. }
  destruct (token_formatter self) as [f|e|] eqn:Hf; simpl; [|done|].
  2: { revert Hf. apply token_formatter_no_panic. }
  pose proof (token_format_list_cases self (uuid_at (uuid_state d)) issuer cert enc f) as Hs.
  destruct (token_format_list self _ issuer cert enc f) as [s|e|]; simpl; [|done..].
  pose proof (create_list_spec (fun id => mkRevocationList id (now_utc d) (now_utc d) s
    (ts_format self) (ts_config_id self) PRevocationAndSuspension (Some issuer) cert) d Hwf
    ltac:(done)) as Hc.
  revert Hc. run_M. simpl. set (l := mkRevocationList _ _ _ _ _ _ _ _ _).
  destruct (create_revocation_list l _) as [[lid|e|] d1]; simpl; [|done..].
  intros (Hwf1 & Hg1 & -> & He1 & Hi1 & _).
  pose proof (create_entry_spec (uuid_at (uuid_state d)) entity (Some 0) d1) as Hce.
  destruct (create_entry _ _ _ d1) as [[eid|e|] d2]; simpl; [|done..].
  destruct Hce as (row & Hcr & Hsl & He & Hu).
  destruct (created_wf _ entity d1 d2 eid row 0 Hwf1 Hent Hcr) as (Hw2 & _ & Hi2);
    [by rewrite Hi1|apply Hsl|done..|].
  split_and!; [done|by etrans; [|eapply created_grows]|].
  rewrite Hi1 in Hi2. destruct Hcr as (_ & Hid & Hl & _ & _ & Hcred & _).
  exists row. split_and!; try done. rewrite He. set_solver.
Qed.

Lemma token_lookup_spec (issuer : Identifier) (cert : option Certificate) (d : Db) : wf d ->
  match token_lookup self issuer cert d with
  | (Ok (Some l), d') => d' = d /\ is_Some (find_list (list_id l) d)
  | (Ok None, d') => d' = d
  | _ => False
  end.
Proof.
  intros Hwf. unfold token_lookup, M_map_err.
  pose proof (lookup_list_spec (identifier_id issuer) (cert_id <$> cert) PRevocationAndSuspension
                (ts_config_id self) d Hwf) as Hl.
  destruct (get_revocation_by_issuer_identifier_id _ _ _ _ _ d) as [[[l|]|e|] d0]; try done.
  destruct Hl as (-> & row & Hrow & _). split; [done|]. by exists row.
Qed.

Lemma find_or_start_token_list_spec (issuer : Identifier) (cert : option Certificate) (d : Db) :
  wf d ->
  match find_or_start_token_list (V := V) self interfere entity issuer cert d with
  | (Ok (lid, eid), d') => wf d' /\ grows d d' /\ is_Some (find_list lid d') /\
      match eid with Some eid => entered lid 0 eid entity d' | None => True end
  | (Err _, d') => wf d' /\ grows d d'
  | (Panic, _) => False
  end.
Proof.
  intros Hwf. unfold find_or_start_token_list, start_or_refetch, others. run_M.
  pose proof (token_lookup_spec issuer cert d Hwf) as Hl.
  destruct (token_lookup self issuer cert d) as [[[l|]|e|] d1]; try done.
  { destruct Hl as [-> Hl]. done. }
  subst d1. destruct (repo_steps_wf d (interfere (-1) d) (Henv _ d) Hwf) as [Hwf0 Hg0].
  pose proof (start_token_list_spec issuer cert (interfere (-1) d) Hwf0) as Hs.
  destruct (transaction _ _) as [[[lid eid]|e|] d2]; [| |done].
  - destruct Hs as (Hw2 & Hg2 & Hh). split_and!; [done|by etrans| |done].
    destruct Hh as (e & He & _ & <- & _). by apply Hw2.
  - subst d2. destruct (decide _); [|done].
    pose proof (token_lookup_spec issuer cert _ Hwf0) as Hl.
    destruct (token_lookup self issuer cert _) as [[[l|]|e'|] d3]; try done; simpl.
    + by destruct Hl as [-> Hl].
    + by subst d3.
Qed.

Lemma create_token_status_spec (lid i : Z) (d : Db) : wf d ->
  match create_token_status self lid i d with
  | (Ok status, d') => wf d' /\ grows d d' /\ token_refers self status lid i
  | (Err _, d') => wf d' /\ grows d d'
  | (Panic, _) => False
  end.
Proof.
  intros Hwf. unfold create_token_status. run_M.
  destruct (get_revocation_list_url lid _) as [url|e|] eqn:Hurl; [|done|].
  2: { unfold get_revocation_list_url in Hurl. by destruct (ts_core_base_url self). }
  assert (Hw : wf (set_uuid_state (S (uuid_state d)) d) /\
               grows d (set_uuid_state (S (uuid_state d)) d)).
  { split; [eapply wf_same_tables; eauto; simpl; lia|]. apply same_lists_grows; [done..|].
    by apply same_entries_slots. }
  simpl. destruct (url_parse _) as [u|]; simpl; [|done]. destruct Hw.
  split_and!; [done..|]. split; [done|]. by exists url.
Qed.

Lemma token_create_entry_spec (issuer : Identifier) (cert : option Certificate) (d : Db) : wf d ->
  match token_create_entry (V := V) self interfere entity issuer cert d with
  | (Ok (eid, status), d') => wf d' /\ grows d d' /\
      exists lid i, token_refers self status lid i /\ entered lid i eid entity d'
  | (Err _, d') => wf d' /\ grows d d'
  | (Panic, _) => False
  end.
Proof.
  intros Hwf. unfold token_create_entry. run_M.
  pose proof (find_or_start_token_list_spec issuer cert d Hwf) as Hf.
  destruct (find_or_start_token_list _ _ _ _ _ d) as [[[lid found]|e|] d1]; [|done..].
  destruct Hf as (Hw1 & Hg1 & Hl1 & Hh). simpl.
  assert (Hidx : match (match found with
                        | Some eid => fun s => (Ok (eid, 0), s)
                        | None => add_entity_to_list interfere lid entity
                        end) d1 with
                 | (Ok (eid, i), d2) => wf d2 /\ grows d d2 /\ entered lid i eid entity d2
                 | (Err _, d2) => wf d2 /\ grows d d2
                 | (Panic, _) => False
                 end).
  { destruct found as [eid|]; [done|]. unfold add_entity_to_list.
    pose proof (add_loop_spec interfere Henv lid entity Hent max_attempts 0 d1 Hw1 Hl1
                  eq_refl (Nat.lt_0_succ 101)) as Ha.
    destruct (add_loop _ _ _ _ _ d1) as [[[eid i]|e|] d2]; [| |done].
    - destruct Ha as (Hw2 & Hg2 & d0 & _ & _ & (row & He & _ & Hid & Hl & Hi & _ & Hc & _)).
      split_and!; [done|by etrans|]. exists row. split_and!; try done. rewrite He. set_solver.
    - destruct Ha as [[Hw2 Hg2] _]. split; [done|by etrans]. }
  destruct (_ d1) as [[[eid i]|e|] d2]; [|done..]. destruct Hidx as (Hw2 & Hg2 & Hh2). simpl.
  pose proof (create_token_status_spec lid i d2 Hw2) as Hs.
  destruct (create_token_status _ _ _ d2) as [[status|e|] d3]; [| |done].
  - destruct Hs as (Hw3 & Hg3 & Hr). split_and!; [done|by etrans|].
    exists lid, i. split; [done|]. by eapply grows_entered.
  - destruct Hs as [Hw3 Hg3]. split; [done|by etrans].
Qed.
End token_issuance.

(** ** Verification *)

(** The details of an issuer that a verifier knows do not contradict it. *)
Definition known_issuer (issuer : Identifier) (details : IdentifierDetails) : Prop :=
  match details with
  | IdDid did => exists d, idn_did issuer = Some d /\ did_value d = did
  | _ => True
  end.

(** Verifying a token that was formatted for [issuer] gives its status list. *)
Class TokenListReaderLaws `{StatusProviders} `{TokenListReader} := {
  build_formatted : forall f url issuer encoded alg auth p s did,
    format_status_list f url issuer encoded alg auth p TokenStatusListType = inr s ->
    did = None \/ (exists d, idn_did issuer = Some d /\ did = Some (did_value d)) ->
    build_from_token s did = inr (mkSubject PREFERRED_ENTRY_SIZE encoded)
}.

Definition token_serves `{TokenListReader} (url : string) (force : bool) (s : string) : Prop :=
  exists content bytes, load_token_list url force = inr content /\
    parse_token_cache_entry content = Some bytes /\ token_from_utf8 bytes = Some s.

Section token_verification.
Context `{UuidSupply} `{!UuidLaws} `{SP : StatusProviders} `{TR : TokenListReader}
  `{!TokenListReaderLaws} `{X509}.
Context `{BV : BitVec V} `{!BitVecLaws V} `{SC : StatusCodec} `{!StatusCodecLaws}.

(** A verifier of a published list reads the state of an entry. *)
Lemma token_check_spec (self : TokenStatusList) (issuer : Identifier) (lid i : Z) (d : Db)
  (status : CredentialStatus) (details : IdentifierDetails) (force : bool)
  (st : RevocationListEntryStatus) (row : ListRow) (url : string) :
  wf d -> token_published (V := V) self issuer lid d -> find_list lid d = Some row ->
  get_revocation_list_url lid (ts_core_base_url self) = Ok url ->
  entry_at lid i st d -> token_refers self status lid i -> known_issuer issuer details ->
  token_serves url force (rl_formatted_list row) ->
  token_check_credential_revocation_status (V := V) status details force = Ok (read_state st).
Proof.
  intros Hwf (row' & f & enc & alg & auth & url' & Hl & Hf & Hurl & Hfmt & Hx) Hrow Hurl2 Hat
    (Ht & url2 & Hu2 & Hfu & Hfi) Hkn (content & bytes & Hload & Hparse & Hutf).
  rewrite Hl in Hrow. injection Hrow as ->. rewrite Hurl in Hu2, Hurl2.
  injection Hu2 as <-. injection Hurl2 as <-.
  unfold token_check_credential_revocation_status.
  rewrite Ht, bool_decide_eq_false_2 by auto. simpl. rewrite Hfu. simpl. rewrite Hfi. simpl.
  rewrite usize_from_to_string.
  2: { pose proof (entry_at_bound lid i st d Hwf Hat). destruct (wf_indices d Hwf lid) as [_ Hn].
       unfold is_usize, usize_max. lia. }
  simpl. rewrite Hload. simpl. rewrite Hparse. simpl. rewrite Hutf. simpl.
  erewrite build_formatted; [|exact Hfmt|].
  - simpl. unfold PREFERRED_ENTRY_SIZE. by rewrite (Hx i st Hat).
  - destruct details; [|by left..]. right. simpl in Hkn. destruct Hkn as (dd & Hd & <-). eauto.
Qed.
End token_verification.

(** ** Properties *)

(** An entity (a credential, a signature or an attested key) is entered on
    the token status list of its issuer, which is started if there is none,
    without a panic and whatever other clients commit; the returned status
    names the list and the index of the returned entry, and the tables stay
    well-formed on every outcome. *)
Theorem token_issuance `{UuidSupply} `{!UuidLaws} `{StatusProviders} `{X509} `{BV : BitVec V}
  `{!BitVecLaws V} `{SC : StatusCodec} `{!StatusCodecLaws} (self : TokenStatusList)
  (interfere : Z -> Db -> Db) (entity : RevocationListEntityId) (issuer : Identifier)
  (cert : option Certificate) (d : Db)
  (Henv : forall k d, rtc repo_step d (interfere k d)) (Hent : entity_ok entity) (Hwf : wf d) :
  match token_create_entry (V := V) self interfere entity issuer cert d with
  | (Ok (eid, status), d') => wf d' /\ grows d d' /\
      exists lid i, token_refers self status lid i /\ entered lid i eid entity d'
  | (Err _, d') => wf d' /\ grows d d'
  | (Panic, _) => False
  end.
Proof. by apply token_create_entry_spec. Qed.

(** C3: marking a credential on a token status list never panics while the
    lists have room, and keeps the tables well-formed. When it succeeds, the
    entries of the credential have the new state, every other entry is
    untouched, and a verifier who loads the published list reads for every
    index of the list the state of its entry. *)
Theorem token_status_visible `{UuidSupply} `{!UuidLaws} `{SP : StatusProviders}
  `{TR : TokenListReader} `{!TokenListReaderLaws} `{X509} `{BV : BitVec V} `{!BitVecLaws V}
  `{SC : StatusCodec} `{!StatusCodecLaws} (self : TokenStatusList) (c : Credential)
  (st : RevocationState) (d : Db) (Hwf : wf d) (Hroom : forall l, room (len (indices l d))) :
  match token_mark_credential_as (V := V) self c st d with
  | (Ok _, d') => keeps d d' /\
      status_update (fun e => e_credential_id e = Some (credential_id c)) (entry_status_of st) d d' /\
      exists issuer cert lid row, issuer_identifier c = Some issuer /\
        token_issuer_certificate c issuer = Ok cert /\ find_list lid d' = Some row /\
        list_key row = (identifier_id issuer, cert_id <$> cert, PRevocationAndSuspension,
                        ts_config_id self) /\
        forall status i st' details force url,
          entry_at lid i st' d' -> token_refers self status lid i -> known_issuer issuer details ->
          get_revocation_list_url lid (ts_core_base_url self) = Ok url ->
          token_serves url force (rl_formatted_list row) ->
          token_check_credential_revocation_status (V := V) status details force =
            Ok (read_state st')
  | (Err _, d') => keeps d d'
  | (Panic, _) => False
  end.
Proof.
  pose proof (token_mark_spec (V := V) self c st d Hwf Hroom) as Hm.
  destruct (token_mark_credential_as self c st d) as [[[]|e|] d']; [|done..].
  destruct Hm as (Hk & Hs & issuer & cert & lid & row & Hi & Hc & Hrow & Hkey & Hp).
  split_and!; [done..|]. exists issuer, cert, lid, row. split_and!; [done..|].
  intros. eapply (token_check_spec self issuer lid i d'); eauto. apply Hk.
Qed.

Lemma attestation_update_spec `{UuidSupply} `{!UuidLaws} `{StatusProviders} `{X509} `{BV : BitVec V}
  `{!BitVecLaws V} `{SC : StatusCodec} `{!StatusCodecLaws} (self : TokenStatusList)
  (hash_order : list (RevocationList * list Z) -> list (RevocationList * list Z))
  (keys : list (RevocationList * Z)) (st : RevocationState) (d : Db)
  (Horder : forall l, hash_order l ≡ₚ l) (Hwf : wf d)
  (Hroom : forall l, room (len (indices l d))) :
  match update_attestation_entries (V := V) self hash_order keys st d with
  | (Ok _, d') => keeps d d' /\
      status_update (fun e => exists k, k ∈ keys /\ e_list_id e = list_id k.1 /\
                                e_index e = Some (u32_wrap k.2)) (entry_status_of st) d d' /\
      forall k, k ∈ keys -> exists issuer, token_published (V := V) self issuer (list_id k.1) d'
  | (Err _, d') => d' = d
  | (Panic, _) => False
  end.
Proof.
  unfold update_attestation_entries, transaction.
  pose proof (update_attestation_lists_spec (V := V) self st (hash_order (group_by_list keys)) d Hwf
                Hroom) as Hs.
  destruct (for_each _ _ d) as [[[]|e|] d']; [|done|apply Hs; rewrite Horder; apply group_by_list_NoDup].
  destruct Hs as (Hk & Hu & Hp & _); [rewrite Horder; apply group_by_list_NoDup|].
  split_and!; [done| |].
  - eapply status_update_ext; [|exact Hu]. intros e. setoid_rewrite Horder. unfold at_indexes. split.
    + intros (g & Hg & Hl & i & Hi & He).
      destruct (proj1 (group_by_list_elem keys (list_id g.1) i)) as (k & Hk' & Hkl & Hki); [by eauto|].
      exists k. split; [done|]. by rewrite Hkl, Hki.
    + intros (k & Hk' & Hl & He).
      destruct (proj2 (group_by_list_elem keys (list_id k.1) k.2)) as (g & Hg & Hgl & Hgi); [by eauto|].
      exists g. split; [done|]. rewrite Hgl. eauto.
  - intros k Hk'.
    destruct (proj2 (group_by_list_elem keys (list_id k.1) k.2)) as (g & Hg & Hgl & _); [by eauto|].
    destruct (Hp g) as (issuer & _ & Hpub); [by rewrite Horder|]. exists issuer. by rewrite <-Hgl.
Qed.

(** An update of attestation states is all or nothing: on an error the
    store is unchanged. When it succeeds, exactly the entries at the given
    indexes have the new state, for any iteration order of the groups, and
    every list that was touched is published with the states of its entries. *)
Theorem attestation_update `{UuidSupply} `{!UuidLaws} `{StatusProviders} `{X509} `{BV : BitVec V}
  `{!BitVecLaws V} `{SC : StatusCodec} `{!StatusCodecLaws} (self : TokenStatusList)
  (hash_order : list (RevocationList * list Z) -> list (RevocationList * list Z))
  (keys : list (RevocationList * Z)) (st : RevocationState) (d : Db)
  (Horder : forall l, hash_order l ≡ₚ l) (Hwf : wf d)
  (Hroom : forall l, room (len (indices l d))) :
  match update_attestation_entries (V := V) self hash_order keys st d with
  | (Ok _, d') => keeps d d' /\
      status_update (fun e => exists k, k ∈ keys /\ e_list_id e = list_id k.1 /\
                                e_index e = Some (u32_wrap k.2)) (entry_status_of st) d d' /\
      forall k, k ∈ keys -> exists issuer, token_published (V := V) self issuer (list_id k.1) d'
  | (Err _, d') => d' = d
  | (Panic, _) => False
  end.
Proof. by apply attestation_update_spec. Qed.

(** Revoking a signature is all or nothing: on an error the store is
    unchanged; on success the entry of the signature exists and is revoked, no
    other entry changed, and the list of the entry is published. *)
Theorem signature_revocation `{UuidSupply} `{!UuidLaws} `{StatusProviders} `{X509} `{BV : BitVec V}
  `{!BitVecLaws V} `{SC : StatusCodec} `{!StatusCodecLaws} (self : TokenStatusList) (sig : Z) (d : Db)
  (Hwf : wf d) (Hroom : forall l, room (len (indices l d))) :
  match revoke_signature (V := V) self sig d with
  | (Ok _, d') => keeps d d' /\ status_update (fun e => e_id e = sig) EntryRevoked d d' /\
      exists e issuer, e ∈ entries d' /\ e_id e = sig /\ e_status e = EntryRevoked /\
        token_published (V := V) self issuer (e_list_id e) d'
  | (Err _, d') => d' = d
  | (Panic, _) => False
  end.
Proof. by apply revoke_signature_spec. Qed.

(** C40: the limit that [room] excludes: with more than 131072 entries, a number
    that is not a multiple of 4, a revoked entry at the start of the last
    group of four makes the generation of the token panic. *)
Theorem token_generation_panics `{BV : BitVec V} `{!BitVecLaws V} `{SC : StatusCodec}
  `{!StatusCodecLaws} (es : list RevocationListEntry) (n : Z)
  (Hn : 131072 < n <= 4294967296) (Hmod : n mod 4 <> 0) (Hlen : len es = n)
  (Hidx : forall x, x ∈ es -> exists i, entry_index x = Some i /\ 0 <= i < n)
  (Hrev : exists x, x ∈ es /\ entry_index x = Some (4 * (n / 4)) /\ entry_status x = EntryRevoked) :
  generate_token_from_entries (V := V) es = Panic.
Proof.
  unfold generate_token_from_entries.
  rewrite (try_map_total _ (fun x => (default 0 (entry_index x), entry_status x))).
  2: { intros x Hx. destruct (Hidx x Hx) as (i & Hi & _). unfold entry_state. by rewrite Hi. }
  simpl. unfold len. rewrite length_fmap. fold (len es). rewrite Hlen, token_size by lia.
  destruct Hrev as (x & Hx & Hi & Hs). unfold PREFERRED_ENTRY_SIZE.
  rewrite (generate_token_panics (V := V) _ _ (4 * (n / 4))); [done|lia| | |].
  - apply Forall_fmap, Forall_forall. intros y Hy. destruct (Hidx y Hy) as (i & Hyi & Hib).
    simpl. rewrite Hyi. unfold small_index, usize_max. simpl. lia.
  - apply list_elem_of_fmap. exists x. by rewrite Hi, Hs.
  - unfold slot. change (8 / 2) with 4. Z.to_euclidean_division_equations. lia.
Qed.

(** ** Witnesses *)

Import RepoWitness Concrete.

Module TokenWitness.
#[export] Instance providers : StatusProviders := {|
  AuthFn := unit; Formatter := unit;
  get_signature_provider _ _ := inr tt;
  get_credential_formatter _ := Some tt;
  get_formatter_by_type _ := Some tt;
  format_status_list _ _ _ encoded _ _ _ _ := inr encoded;
  url_parse := Some
|}.
#[export] Instance x509 : X509 := SelectionWitness.x509.

(** A web that serves the text [s]. *)
Definition reader (s : string) : TokenListReader := {|
  load_token_list _ _ := inr [];
  parse_token_cache_entry _ := Some [];
  token_from_utf8 _ := Some s;
  build_from_token s _ := inr (mkSubject PREFERRED_ENTRY_SIZE s)
|}.
#[export] Instance reader_laws (s : string) : TokenListReaderLaws (H0 := reader s).
Proof. split. by intros f url issuer enc alg auth p s' did [= ->] _. Qed.

Definition self : TokenStatusList := mkTokenStatusList "STATUS_LIST" (Some "https://core.example"%string) FJwt.
Definition credential : Credential :=
  mkCredential 50 None Issuer CsAccepted None None (Some RepoWitness.issuer) None None.
Definition db : Db := RepoWitness.db_of PRevocationAndSuspension.
Definition db_wf : wf db := RepoWitness.db_of_wf PRevocationAndSuspension.
Definition db_issued : Db := RepoWitness.db_issued PRevocationAndSuspension.
Definition db_issued_wf : wf db_issued := RepoWitness.db_issued_wf PRevocationAndSuspension.

Lemma db_issued_room (l : Z) : room (len (indices l db_issued)).
Proof.
  left. destruct (Z.eq_dec l 1) as [->|Hne]; [vm_compute; discriminate|].
  assert (indices l db_issued = []) as ->; [|vm_compute; discriminate].
  unfold indices, entries_of. vm_compute (entries db_issued). simpl.
  destruct l as [|[]|]; try done.
Qed.

Definition the_list : RevocationList :=
  mkRevocationList 1 0 0 "" FJwt "STATUS_LIST" PRevocationAndSuspension (Some RepoWitness.issuer) None.

(** 131073 entries, the last one revoked. *)
Definition long_list : list RevocationListEntry :=
  (fun i => mkRevocationListEntry i 0 0 InfoWalletUnitAttestedKey (Some i)
              (if i =? 131072 then EntryRevoked else EntryActive))
    <$> count (Z.to_nat 131073) 0.
Lemma long_list_elem (x : RevocationListEntry) : x ∈ long_list ->
  exists i, entry_index x = Some i /\ 0 <= i < 131073.
Proof.
  intros (i & -> & Hi%elem_of_count)%list_elem_of_fmap. exists i. split; [done|lia].
Qed.
End TokenWitness.
Import TokenWitness.

Lemma token_issuance_witness :
  match token_create_entry (V := vec) self (fun _ d => d) (EntityCredential 50) RepoWitness.issuer
          None TokenWitness.db with
  | (Ok (eid, status), d') => exists lid i, token_refers self status lid i /\
      entered lid i eid (EntityCredential 50) d'
  | _ => False
  end.
Proof.
  pose proof (@token_issuance uuids uuid_laws providers x509 vec vec_BitVec vec_BitVecLaws codec
    codec_laws self (fun _ d => d) (EntityCredential 50) RepoWitness.issuer None TokenWitness.db
    (fun _ _ => rtc_refl _ _) I TokenWitness.db_wf) as Ha.
  assert (Hok : is_ok (token_create_entry (V := vec) self (fun _ d => d) (EntityCredential 50)
                         RepoWitness.issuer None TokenWitness.db).1 = true) by (vm_compute; reflexivity).
  destruct (token_create_entry _ _ _ _ _ _) as [[[eid status]|e|] d']; [|discriminate Hok..].
  apply Ha.
Defined.

(** The credential is suspended, and a verifier of the published list reads it. *)
Definition db_suspended : Db :=
  (token_mark_credential_as (V := vec) self credential (Suspended None) db_issued).2.
Definition published : string :=
  match find_list 1 db_suspended with Some row => rl_formatted_list row | None => "" end.
Definition status_0 : CredentialStatus :=
  token_status_list_entry "https://core.example/ssi/revocation/v1/list/1" 0.

Lemma token_status_visible_witness :
  is_ok (token_mark_credential_as (V := vec) self credential (Suspended None) db_issued).1 = true /\
  token_check_credential_revocation_status (V := vec) (H3 := reader published) status_0
    (IdDid "did:key:issuer") false = Ok (Suspended None).
Proof.
  pose proof (@token_status_visible uuids uuid_laws providers (reader published)
    (reader_laws published) x509 vec vec_BitVec vec_BitVecLaws codec codec_laws self credential
    (Suspended None) db_issued db_issued_wf db_issued_room) as Ha.
  assert (Hok : is_ok (token_mark_credential_as (V := vec) self credential (Suspended None)
                         db_issued).1 = true) by (vm_compute; reflexivity).
  split; [exact Hok|].
  assert (Hent : entries db_suspended =
    [mkEntryRow 2 1000 1000 1 (Some 0) (Some 50) EtCredential None EntrySuspended None])
    by (vm_compute; reflexivity).
  assert (Hids : rl_id <$> lists db_suspended = [1]) by (vm_compute; reflexivity).
  assert (Hpub : forall row, find_list 1 db_suspended = Some row -> published = rl_formatted_list row).
  { intros row Hrow. unfold published. by rewrite Hrow. }
  unfold db_suspended in Hent, Hids, Hpub.
  destruct (token_mark_credential_as _ _ _ _) as [[[]|e|] d']; [|discriminate Hok..].
  destruct Ha as (_ & _ & issuer' & cert & lid & row & Hiss & _ & Hrow & _ & Hcheck).
  injection Hiss as <-.
  assert (lid = 1) as ->.
  { apply find_list_Some in Hrow as [Hin <-]. apply list_elem_of_singleton.
    simpl in Hids. rewrite <-Hids. by apply list_elem_of_fmap_2. }
  apply (Hcheck status_0 0 EntrySuspended _ false "https://core.example/ssi/revocation/v1/list/1").
  - eexists. simpl in Hent. rewrite Hent. split; [apply list_elem_of_singleton; reflexivity|].
    split_and!; reflexivity.
  - split; [reflexivity|]. eexists. split_and!; reflexivity.
  - eexists. split; reflexivity.
  - reflexivity.
  - exists [], []. split_and!; [reflexivity..|]. simpl. f_equal. apply Hpub. exact Hrow.
Defined.

Lemma attestation_update_witness :
  match update_attestation_entries (V := vec) self (fun l => l) [(the_list, 0)] Revoked db_issued with
  | (Ok _, d') => exists issuer, token_published (V := vec) self issuer 1 d'
  | _ => False
  end.
Proof.
  pose proof (@attestation_update uuids uuid_laws providers x509 vec vec_BitVec vec_BitVecLaws codec
    codec_laws self (fun l => l) [(the_list, 0)] Revoked db_issued (fun l => Permutation_refl l)
    db_issued_wf db_issued_room) as Ha.
  assert (Hok : is_ok (update_attestation_entries (V := vec) self (fun l => l) [(the_list, 0)] Revoked
                         db_issued).1 = true) by (vm_compute; reflexivity).
  destruct (update_attestation_entries _ _ _ _ _) as [[[]|e|] d']; [|discriminate Hok..].
  destruct Ha as (_ & _ & Hp). apply (Hp (the_list, 0)). left.
Defined.

Lemma signature_revocation_witness :
  match revoke_signature (V := vec) self 2 db_issued with
  | (Ok _, d') => exists e, e ∈ entries d' /\ e_id e = 2 /\ e_status e = EntryRevoked
  | _ => False
  end.
Proof.
  pose proof (@signature_revocation uuids uuid_laws providers x509 vec vec_BitVec vec_BitVecLaws codec
    codec_laws self 2 db_issued db_issued_wf db_issued_room) as Ha.
  assert (Hok : is_ok (revoke_signature (V := vec) self 2 db_issued).1 = true)
    by (vm_compute; reflexivity).
  destruct (revoke_signature _ _ _) as [[[]|e|] d']; [|discriminate Hok..].
  destruct Ha as (_ & _ & e & issuer' & He & Hid & Hs & _). exists e. split_and!; assumption.
Defined.

Lemma token_generation_panics_witness :
  generate_token_from_entries (V := vec) long_list = Panic.
Proof.
  refine (@token_generation_panics vec vec_BitVec vec_BitVecLaws codec codec_laws long_list 131073
            _ _ _ long_list_elem _).
  - lia.
  - vm_compute. discriminate.
  - unfold len, long_list. rewrite length_fmap, count_length. lia.
  - eexists. split; [apply list_elem_of_fmap_2, (elem_of_count _ _ 131072); lia|].
    split; reflexivity.
Defined.
