(* ===== verification/ListFilter.v ===== *)
(** * List filters

    Models [lib/one-core-portable/src/model/list_filter.rs]: the tree of filter
    conditions with its operators [&] and [|], and what the SQL layer makes of
    it, [get_filter_condition] and [with_list_query] of
    [lib/sql-data-provider/src/list_query_generic.rs]. A [sea_query] condition
    is the predicate on rows it selects; the meaning of an empty
    [Condition::any()] is that crate's, the argument [any_empty]. *)

From S2P Require Import Prelude.
#[local] Open Scope Z_scope.

Inductive ComparisonType :=
| CmpEqual | CmpNotEqual | CmpLessThan | CmpGreaterThan | CmpLessThanOrEqual | CmpGreaterThanOrEqual.

Record ValueComparison (A : Type) := mkValueComparison { comparison : ComparisonType; cmp_value : A }.
Arguments mkValueComparison {A} _ _.
Arguments comparison {A} _.
Arguments cmp_value {A} _.

Inductive ListFilterCondition (FV : Type) :=
| LfAnd (conditions : list (ListFilterCondition FV))
| LfOr (conditions : list (ListFilterCondition FV))
| LfValue (v : FV).
Arguments LfAnd {FV} _.
Arguments LfOr {FV} _.
Arguments LfValue {FV} _.

Section list_filter.
Context {FV : Type}.
Implicit Types (a b c : ListFilterCondition FV).

(** [impl Default], [impl From<Option<FV>>]. *)
Definition default_condition : ListFilterCondition FV := LfAnd [].
Definition condition_of_option (v : option FV) : ListFilterCondition FV :=
  match v with Some filter => LfValue filter | None => default_condition end.

(** [impl BitAnd]. *)
Definition bitand (self rhs : ListFilterCondition FV) : ListFilterCondition FV :=
  match self with
  | LfAnd conditions => match rhs with
                        | LfAnd rhs => LfAnd (conditions ++ rhs)
                        | rhs => LfAnd (conditions ++ [rhs])
                        end
  | _ => LfAnd [self; rhs]
  end.
Definition bitand_option (self : ListFilterCondition FV) (rhs : option (ListFilterCondition FV)) :
  ListFilterCondition FV :=
  match rhs with Some rhs => bitand self rhs | None => self end.

(** [impl BitOr]. *)
Definition bitor (self rhs : ListFilterCondition FV) : ListFilterCondition FV :=
  match self with
  | LfOr conditions => match rhs with
                       | LfOr rhs => LfOr (conditions ++ rhs)
                       | rhs => LfOr (conditions ++ [rhs])
                       end
  | _ => LfOr [self; rhs]
  end.
Definition bitor_option (self : ListFilterCondition FV) (rhs : option (ListFilterCondition FV)) :
  ListFilterCondition FV :=
  match rhs with Some rhs => bitor self rhs | None => self end.

Definition is_empty (c : ListFilterCondition FV) : bool :=
  match c with
  | LfAnd conditions | LfOr conditions => match conditions with [] => true | _ => false end
  | LfValue _ => false
  end.

Fixpoint contains (matcher : FV -> bool) (c : ListFilterCondition FV) : bool :=
  match c with
  | LfAnd conditions | LfOr conditions => existsb (contains matcher) conditions
  | LfValue fv => matcher fv
  end.

(** ** SQL *)

Context {Row : Type} (any_empty : bool) (get_condition : FV -> Row -> bool).

(** [Condition::any()] with the conditions that were added to it. *)
Definition condition_any (cs : list bool) : bool :=
  match cs with [] => any_empty | _ => existsb id cs end.

Fixpoint get_filter_condition (c : ListFilterCondition FV) (row : Row) : bool :=
  match c with
  | LfAnd conditions =>
      forallb (fun c => is_empty c || get_filter_condition c row) conditions
  | LfOr conditions =>
      condition_any
        ((fix go (cs : list (ListFilterCondition FV)) : list bool :=
            match cs with
            | [] => []
            | c :: cs => if is_empty c then go cs else get_filter_condition c row :: go cs
            end) conditions)
  | LfValue value => get_condition value row
  end.

(** The filter of [with_list_query]: an empty filter selects every row. *)
Definition selects (filtering : option (ListFilterCondition FV)) (row : Row) : bool :=
  match filtering with
  | Some filter => if is_empty filter then true else get_filter_condition filter row
  | None => true
  end.
End list_filter.

(** [get_comparison_condition] on a nullable column of numbers: a comparison
    with NULL is not true. *)
Definition compare_column (c : ValueComparison Z) (column : option Z) : bool :=
  match column with
  | None => false
  | Some x =>
      match comparison c with
      | CmpEqual => x =? cmp_value c
      | CmpNotEqual => negb (x =? cmp_value c)
      | CmpLessThan => x <? cmp_value c
      | CmpGreaterThan => cmp_value c <? x
      | CmpLessThanOrEqual => x <=? cmp_value c
      | CmpGreaterThanOrEqual => cmp_value c <=? x
      end
  end.

(** ** Lemmas *)

Section filter_lemmas.
Context {FV Row : Type} (any_empty : bool) (get_condition : FV -> Row -> bool).
Let sem (c : ListFilterCondition FV) (row : Row) : bool :=
  selects any_empty get_condition (Some c) row.

(** A disjunction in which only empty conditions are left. *)
Definition vacuous (c : ListFilterCondition FV) : bool :=
  match c with LfOr cs => forallb is_empty cs | _ => is_empty c end.

Lemma selects_and (cs : list (ListFilterCondition FV)) (row : Row) :
  sem (LfAnd cs) row = forallb (fun c => sem c row) cs.
Proof.
  unfold sem.
  assert (selects any_empty get_condition (Some (LfAnd cs)) row =
          get_filter_condition any_empty get_condition (LfAnd cs) row) as -> by (by destruct cs).
  cbn [get_filter_condition]. induction cs as [|x cs IH]; [done|]. cbn [forallb]. rewrite IH. simpl. destruct (is_empty x); reflexivity.
Qed.

Lemma selects_or (cs : list (ListFilterCondition FV)) (row : Row) :
  forallb is_empty cs = false ->
  sem (LfOr cs) row = existsb (fun c => negb (is_empty c) && sem c row) cs.
Proof.
  unfold sem. intros Hv.
  assert (selects any_empty get_condition (Some (LfOr cs)) row =
          get_filter_condition any_empty get_condition (LfOr cs) row) as -> by (by destruct cs).
  cbn [get_filter_condition]. set (go := fix go (cs : list (ListFilterCondition FV)) : list bool := _).
  assert (Hgo : existsb id (go cs) = existsb (fun c => negb (is_empty c) &&
                  selects any_empty get_condition (Some c) row) cs).
  { clear Hv. induction cs as [|x cs IH]; [done|]. simpl.
    destruct (is_empty x) eqn:Hx; simpl; [done|]. by rewrite IH. }
  rewrite <-Hgo. unfold condition_any. destruct (go cs) eqn:Hg; [|done]. exfalso.
  clear Hgo. induction cs as [|x cs IH]; [done|]. simpl in Hg, Hv.
  destruct (is_empty x); simpl in *; [auto|done].
Qed.

Lemma bitand_sem (a b : ListFilterCondition FV) (row : Row) :
  sem (bitand a b) row = sem a row && sem b row.
Proof.
  unfold bitand. destruct a as [xs|xs|v].
  - destruct b as [ys|ys|w]; rewrite !selects_and, forallb_app; [done|..]; simpl;
      by rewrite andb_true_r.
  - rewrite selects_and. simpl. by rewrite andb_true_r.
  - rewrite selects_and. simpl. by rewrite andb_true_r.
Qed.

Lemma existsb_singleton {A : Type} (p : A -> bool) (x : A) : existsb p [x] = p x.
Proof. simpl. apply orb_false_r. Qed.

Lemma not_vacuous_not_empty (c : ListFilterCondition FV) :
  vacuous c = false -> is_empty c = false.
Proof. by destruct c as [|[]|]. Qed.

Lemma bitor_sem (a b : ListFilterCondition FV) (row : Row) :
  vacuous a = false -> vacuous b = false -> sem (bitor a b) row = sem a row || sem b row.
Proof.
  intros Ha Hb. pose proof (not_vacuous_not_empty b Hb) as Hbe.
  unfold bitor. destruct a as [xs|xs|v].
  - rewrite selects_or by (simpl in *; by rewrite Ha). simpl in Ha |- *.
    rewrite Ha, Hbe, orb_false_r. done.
  - assert (Hxs : forall ys, forallb is_empty (xs ++ ys) = false).
    { intros ys. rewrite forallb_app. simpl in Ha. by rewrite Ha. }
    destruct b as [ys|ys|w]; rewrite !selects_or, existsb_app by done;
      rewrite ?existsb_singleton, ?Hbe; done.
  - rewrite selects_or by done. simpl. by rewrite Hbe, orb_false_r.
Qed.

Lemma contains_and (matcher : FV -> bool) (a b : ListFilterCondition FV) :
  contains matcher (bitand a b) = contains matcher a || contains matcher b.
Proof.
  unfold bitand. destruct a as [xs|xs|v];
    [destruct b as [ys|ys|w]|..]; simpl; rewrite ?existsb_app; simpl; by rewrite ?orb_false_r.
Qed.

Lemma contains_or (matcher : FV -> bool) (a b : ListFilterCondition FV) :
  contains matcher (bitor a b) = contains matcher a || contains matcher b.
Proof.
  unfold bitor. destruct a as [xs|xs|v];
    [|destruct b as [ys|ys|w]|]; simpl; rewrite ?existsb_app; simpl; by rewrite ?orb_false_r.
Qed.
End filter_lemmas.

(** ** Properties *)

(** [a & b] selects the rows that both filters select, whatever their
    shape, an empty filter selecting every row; and [contains] finds a value
    in [a & b] when it is in one of them. *)
Theorem filter_and {FV Row : Type} (any_empty : bool) (get_condition : FV -> Row -> bool)
  (a b : ListFilterCondition FV) (row : Row) (matcher : FV -> bool) :
  selects any_empty get_condition (Some (bitand a b)) row =
    selects any_empty get_condition (Some a) row && selects any_empty get_condition (Some b) row /\
  contains matcher (bitand a b) = contains matcher a || contains matcher b.
Proof. split; [apply bitand_sem|apply contains_and]. Qed.

(** [a | b] selects the rows that one of the filters selects, for filters
    with a condition in them. *)
Theorem filter_or {FV Row : Type} (any_empty : bool) (get_condition : FV -> Row -> bool)
  (a b : ListFilterCondition FV) (row : Row) (matcher : FV -> bool) :
  vacuous a = false -> vacuous b = false ->
  selects any_empty get_condition (Some (bitor a b)) row =
    selects any_empty get_condition (Some a) row || selects any_empty get_condition (Some b) row /\
  contains matcher (bitor a b) = contains matcher a || contains matcher b.
Proof. intros Ha Hb. split; [by apply bitor_sem|apply contains_or]. Qed.

(** ** Witnesses *)

Lemma filter_or_witness :
  selects false (fun v row => v =? row) (Some (bitor (LfOr [LfValue 1]) (LfValue 2))) 2 =
    (selects false (fun v row => v =? row) (Some (LfOr [LfValue 1])) 2 ||
     selects false (fun v row => v =? row) (Some (LfValue 2)) 2)%bool /\
  contains (fun v => v =? 3) (bitor (LfOr [LfValue 1]) (LfValue 2)) = false.
Proof.
  exact (filter_or false (fun v row => v =? row) (LfOr [LfValue 1]) (LfValue 2) 2 (fun v => v =? 3)
           eq_refl eq_refl).
Defined.
