(* ===== verification/Validity.v ===== *)
(** * Credential validity

    Models [lib/one-core/src/proto/credential_validity_manager/mod.rs] and the
    decisions of its [mdoc.rs], the session checks of [validator/mod.rs], the
    state operations of [service/credential/service.rs] (revoke, suspend,
    reactivate, delete, check), the task [provider/task/suspend_check/mod.rs],
    and the parts of [sql-data-provider/src/credential/repository.rs] they
    call.

    A revocation method is the record [RevocationMethodOps] of its operations
    on a store [R] of its own; what the manager relies on is the class
    [RevocationMethodLaws], which the bitstring and token status list methods
    discharge in [StatusMethods.v]. The formatter, the blob storage, the
    configuration and the issuer's endpoints are the class [HolderWorld]. *)

From S2P Require Import Prelude StatusBits KeySelection RevocationRepo RevocationMethod.
From S2P Require Import BitstringMethod TokenMethod ListFilter.
#[local] Open Scope Z_scope.

(** ** Data *)

(** [impl From<RevocationState> for CredentialStateEnum]. *)
Definition credential_state_of (s : RevocationState) : CredentialStateEnum :=
  match s with Valid => CsAccepted | Revoked => CsRevoked | Suspended _ => CsSuspended end.

Inductive ValidityError :=
| VMappingError (what : string)
| VNotFound (credential : Z)
| VForbidden
| VNoRevocationMethod (schema : Z)
| VSuspensionNotSupported (revocation_method : string)
| VInvalidTransition (current target : CredentialStateEnum)
| VInvalidState (current : CredentialStateEnum)
| VIncompatibleIssuerIdentifier
| VCheckNotAllowedForRole (role : CredentialRole) (credential : Z)
| VMissingProvider (what : string)
| VRevocation (e : RevocationError)
| VData (e : DataLayerError)
| VProvider (code : string).

(** A session with its organisation, when the caller has one. *)
Record Session := mkSession { session_organisation : option Z }.

(** [RevocationMethod]: the operations the manager calls. *)
Record RevocationMethodOps (R : Type) := mkMethodOps {
  op_mark : Credential -> RevocationState -> M R RevocationError unit;
  op_check : CredentialStatus -> IdentifierDetails -> option Credential -> bool ->
    res RevocationError RevocationState
}.
Arguments op_mark {R} _ _ _ _.
Arguments op_check {R} _ _ _ _ _.

(** [RevocationMethodProvider::get_revocation_method]. *)
Class RevocationMethodProvider (R : Type) := {
  get_revocation_method : string -> option (RevocationMethodOps R)
}.

(** The store: the credential table (deleted rows included), the store of the
    revocation methods, the clock. *)
Record Store (R : Type) := mkStore { credentials : list Credential; revocation : R; clock : Z }.
Arguments mkStore {R} _ _ _.
Arguments credentials {R} _.
Arguments revocation {R} _.
Arguments clock {R} _.

Inductive Clearable (A : Type) := ForceSet (a : A) | DontTouch.
Arguments ForceSet {A} _.
Arguments DontTouch {A}.

(** The fields of [UpdateCredentialRequest] that are set here. *)
Record UpdateCredentialRequest := mkUpdateRequest {
  req_state : option CredentialStateEnum;
  req_suspend_end_date : Clearable (option Z);
  req_credential_blob_id : option Z
}.

(** ** The session checks *)

Definition throw_if_org_not_matching_session (organisation_id : Z) (session : option Session) :
  res ValidityError unit :=
  match session with
  | None => Ok tt
  | Some s =>
      org ← ok_or (session_organisation s) VForbidden;
      fail_if (negb (org =? organisation_id)) VForbidden
  end.

Definition throw_if_org_relation_not_matching_session (org_relation : option Z)
  (session : option Session) : res ValidityError unit :=
  org ← ok_or org_relation (VMappingError "organisation is None");
  throw_if_org_not_matching_session org session.

Definition throw_if_credential_schema_not_in_session_org (credential : Credential)
  (session : option Session) : res ValidityError unit :=
  schema ← ok_or (credential_schema credential) (VMappingError "credential_schema is None");
  throw_if_org_relation_not_matching_session (schema_organisation schema) session.

(** ** State transitions *)

Definition verify_suspension_support (schema : CredentialSchema) (method : string)
  (state : RevocationState) : res ValidityError unit :=
  fail_if (negb (allow_suspension schema) &&
           match state with Suspended _ => true | _ => false end)
    (VSuspensionNotSupported method).

Definition valid_states (target : RevocationState) : list CredentialStateEnum :=
  match target with
  | Revoked => [CsAccepted; CsSuspended]
  | Valid => [CsSuspended]
  | Suspended _ => [CsAccepted]
  end.

Definition validate_state_transition (current : CredentialStateEnum) (target : RevocationState) :
  res ValidityError unit :=
  fail_if (negb (bool_decide (current ∈ valid_states target)))
    (VInvalidTransition current (credential_state_of target)).

Definition throw_if_credential_state_eq (credential : Credential) (state : CredentialStateEnum) :
  res ValidityError unit :=
  fail_if (bool_decide (credential_state credential = state))
    (VInvalidState (credential_state credential)).

Definition issuer_details (issuer : Identifier) : res ValidityError IdentifierDetails :=
  match identifier_type issuer with
  | TypeDid =>
      did ← ok_or (idn_did issuer) (VMappingError "issuer_did is None");
      Ok (IdDid (did_value did))
  | TypeCertificate =>
      certs ← ok_or (idn_certificates issuer) (VMappingError "issuer certificates is None");
      c ← ok_or (head certs) (VMappingError "issuer certificate is missing");
      Ok (IdCertificate (cert_chain c) (cert_fingerprint c) (cert_expiry_date c) None)
  | _ => Err VIncompatibleIssuerIdentifier
  end.

Section validity.
Context {R : Type} `{RevocationMethodProvider R} (session : option Session).

(** ** The credential repository *)

Definition find_credential (id : Z) (s : Store R) : option Credential :=
  find_first (fun c => credential_id c =? id) (credentials s).

(** [CredentialRepository::get_credential] with the relations loaded. *)
Definition get_credential (id : Z) : M (Store R) ValidityError (option Credential) :=
  fun s => (Ok (find_credential id s), s).

Definition apply_update (id : Z) (request : UpdateCredentialRequest) (c : Credential) : Credential :=
  if credential_id c =? id then
    mkCredential (credential_id c) (deleted_at c) (credential_role c)
      (default (credential_state c) (req_state request))
      (match req_suspend_end_date request with
       | ForceSet date => date
       | DontTouch => suspend_end_date c
       end)
      (match req_credential_blob_id request with
       | Some blob_id => Some blob_id
       | None => credential_blob_id c
       end)
      (issuer_identifier c) (issuer_certificate c) (credential_schema c)
  else c.

Definition set_credentials (cs : list Credential) (s : Store R) : Store R :=
  mkStore cs (revocation s) (clock s).

Definition update_credential (id : Z) (request : UpdateCredentialRequest) :
  M (Store R) ValidityError unit := fun s =>
  match find_credential id s with
  | None => (Err (VData RecordNotUpdated), s)
  | Some _ => (Ok tt, set_credentials (apply_update id request <$> credentials s) s)
  end.

(** [CredentialRepository::delete_credential]: a soft delete of a row that is
    not deleted yet. *)
Definition mark_deleted (id now : Z) (c : Credential) : Credential :=
  if credential_id c =? id then
    mkCredential (credential_id c) (Some now) (credential_role c) (credential_state c)
      (suspend_end_date c) (credential_blob_id c) (issuer_identifier c) (issuer_certificate c)
      (credential_schema c)
  else c.

Definition delete_credential_row (id : Z) : M (Store R) DataLayerError unit := fun s =>
  match find_credential id s with
  | Some c => if bool_decide (deleted_at c = None)
              then (Ok tt, set_credentials (mark_deleted id (clock s) <$> credentials s) s)
              else (Err RecordNotUpdated, s)
  | None => (Err RecordNotUpdated, s)
  end.

(** A call of a revocation method on its part of the store. *)
Definition on_revocation {A : Type} (m : M R RevocationError A) : M (Store R) ValidityError A :=
  fun s => let '(r, rev) := m (revocation s) in
           (map_err VRevocation r, mkStore (credentials s) rev (clock s)).

(** ** The manager *)

Definition change_credential_validity_state (id : Z) (state : RevocationState) :
  M (Store R) ValidityError unit :=
  found ← get_credential id;
  credential ← lift (ok_or found (VNotFound id));
  _ ← lift (fail_if (bool_decide (deleted_at credential <> None)) (VNotFound id));
  schema ← lift (ok_or (credential_schema credential) (VMappingError "credential schema is None"));
  _ ← lift (throw_if_org_relation_not_matching_session (schema_organisation schema) session);
  method_id ← lift (ok_or (revocation_method schema) (VNoRevocationMethod (schema_id schema)));
  _ ← lift (verify_suspension_support schema method_id state);
  _ ← lift (validate_state_transition (credential_state credential) state);
  method ← lift (ok_or (get_revocation_method method_id) (VMissingProvider method_id));
  _ ← on_revocation (op_mark method credential state);
  let suspend_end_date := match state with Suspended date => date | _ => None end in
  update_credential id (mkUpdateRequest (Some (credential_state_of state))
                          (ForceSet suspend_end_date) None).

(** ** The credential service *)

Definition reactivate_credential (id : Z) : M (Store R) ValidityError unit :=
  change_credential_validity_state id Valid.

Definition suspend_credential (id : Z) (suspend_end_date : option Z) :
  M (Store R) ValidityError unit :=
  change_credential_validity_state id (Suspended suspend_end_date).

Definition revoke_credential (id : Z) : M (Store R) ValidityError unit :=
  change_credential_validity_state id Revoked.

(** [revocation_config] is the lookup of the method in the configuration. *)
Definition delete_credential (revocation_config : string -> string + unit) (id : Z) :
  M (Store R) ValidityError unit :=
  found ← get_credential id;
  credential ← lift (ok_or found (VNotFound id));
  schema ← lift (ok_or (credential_schema credential) (VMappingError "credential_schema is None"));
  _ ← lift (throw_if_org_relation_not_matching_session (schema_organisation schema) session);
  _ ← match credential_role credential, revocation_method schema with
      | Issuer, Some method_id =>
          _ ← lift (map_err VProvider (of_sum (revocation_config method_id)));
          lift (throw_if_credential_state_eq credential CsAccepted)
      | _, _ => mret tt
      end;
  M_map_err (fun e => match e with RecordNotUpdated => VNotFound id | e => VData e end)
    (delete_credential_row id).

(** ** The suspension task *)

Inductive CredentialFilterValue :=
| FvRoles (roles : list CredentialRole)
| FvStates (states : list CredentialStateEnum)
| FvSuspendEndDate (c : ValueComparison Z).

(** [IntoFilterCondition::get_condition] of these values. *)
Definition credential_condition (v : CredentialFilterValue) (c : Credential) : bool :=
  match v with
  | FvRoles roles => bool_decide (credential_role c ∈ roles)
  | FvStates states => bool_decide (credential_state c ∈ states)
  | FvSuspendEndDate comparison => compare_column comparison (suspend_end_date c)
  end.

(** [get_credential_list]: rows that are not deleted and pass the filter. *)
Definition get_credential_list (any_empty : bool)
  (filtering : option (ListFilterCondition CredentialFilterValue)) (s : Store R) :
  list Credential :=
  List.filter (fun c => bool_decide (deleted_at c = None)
                        && selects any_empty credential_condition filtering c) (credentials s).

Definition suspend_check_filter (now : Z) : ListFilterCondition CredentialFilterValue :=
  bitand (bitand (LfValue (FvStates [CsSuspended])) (LfValue (FvRoles [Issuer])))
    (LfValue (FvSuspendEndDate (mkValueComparison CmpLessThan now))).

(** [SuspendCheckProvider::run]: the ids that were reactivated. *)
Definition suspend_check (any_empty : bool) : M (Store R) ValidityError (list Z) :=
  s ← get;
  let found := get_credential_list any_empty (Some (suspend_check_filter (clock s))) s in
  for_each (fun c => change_credential_validity_state (credential_id c) Valid) found;;
  mret (credential_id <$> found).

(** ** The holder's check *)

(** The parts of [DetailCredential] that are read. *)
Record DetailCredential := mkDetailCredential {
  dc_status : list CredentialStatus;
  dc_valid_until : option Z;
  dc_update_at : option Z
}.

Inductive TokenCheckResult := RefreshNotPossible | RefreshPossible.

(** Blob storage, the UTF-8 decoding of a blob, the formatter's
    [extract_credentials_unverified], whether a format is mdoc, and the
    refresh of an mdoc: the interaction data and key from the configuration,
    the access token, the request for a new MSO, which ends with the id of
    the blob that holds it. *)
Class HolderWorld := {
  get_blob : Z -> string + option (list Z);
  blob_from_utf8 : list Z -> option string;
  get_holder_formatter : string -> option unit;
  extract_unverified : string -> string -> string + DetailCredential;
  format_is_mdoc : string -> string + bool;
  interaction_data : Credential -> string + unit;
  encryption_key : Credential -> string + unit;
  check_access_token : Credential -> string + TokenCheckResult;
  obtain_new_mso : Credential -> string + Z
}.

Record CheckResult := mkCheckResult {
  cr_credential_id : Z;
  cr_status : CredentialStateEnum;
  cr_success : bool
}.

Definition is_mso_expired (now : Z) (detail : DetailCredential) : bool :=
  match dc_valid_until detail with Some valid_until => valid_until <? now | None => false end.

Definition mso_requires_update (now : Z) (detail : DetailCredential) : bool :=
  match dc_update_at detail with
  | Some update_at => update_at <? now
  | None => is_mso_expired now detail
  end.

Context `{HolderWorld}.

(** The new MSO and the reference to its blob. *)
Definition obtain_and_update_new_mso (credential : Credential) :
  M (Store R) ValidityError unit :=
  blob_id ← lift (map_err VProvider (of_sum (obtain_new_mso credential)));
  update_credential (credential_id credential) (mkUpdateRequest None DontTouch (Some blob_id)).

Definition check_mdoc_update (credential : Credential) (detail : DetailCredential)
  (force_refresh : bool) : M (Store R) ValidityError CredentialStateEnum :=
  _ ← lift (map_err VProvider (of_sum (interaction_data credential)));
  s ← get;
  let expired := is_mso_expired (clock s) detail in
  let new_state := if expired then CsSuspended else CsAccepted in
  _ ← lift (map_err VProvider (of_sum (encryption_key credential)));
  match check_access_token credential with
  | inr RefreshPossible =>
      if force_refresh || mso_requires_update (clock s) detail then
        fun s => match obtain_and_update_new_mso credential s with
                 | (Ok _, s') => (Ok CsAccepted, s')
                 | (Err _, s') => (Ok new_state, s')
                 | (Panic, s') => (Panic, s')
                 end
      else mret new_state
  | inr RefreshNotPossible => mret (if expired then CsRevoked else new_state)
  | inl _ => mret new_state
  end.

Definition update_mdoc (credential : Credential) (detail : DetailCredential)
  (force_refresh : bool) : M (Store R) ValidityError CheckResult :=
  new_state ← check_mdoc_update credential detail force_refresh;
  _ ← (if decide (new_state = credential_state credential) then mret tt
       else update_credential (credential_id credential)
              (mkUpdateRequest (Some new_state) DontTouch None));
  mret (mkCheckResult (credential_id credential) new_state true).

(** The stored credential, parsed. *)
Definition load_detail (credential : Credential) (schema : CredentialSchema) :
  res ValidityError DetailCredential :=
  blob ← match credential_blob_id credential with
         | Some blob_id =>
             found ← map_err VProvider (of_sum (get_blob blob_id));
             ok_or found (VMappingError "credential blob is None")
         | None => Ok []
         end;
  credential_str ← ok_or (blob_from_utf8 blob) (VMappingError "invalid utf-8");
  _ ← ok_or (get_holder_formatter (schema_format schema))
        (VMissingProvider (schema_format schema));
  map_err VProvider (of_sum (extract_unverified (schema_format schema) credential_str)).

(** The loop over the statuses; [inl]: the check of one failed. *)
Fixpoint worst_revocation_state
  (check : CredentialStatus -> IdentifierDetails -> res RevocationError RevocationState)
  (details : res ValidityError IdentifierDetails) (statuses : list CredentialStatus)
  (worst : RevocationState) : res ValidityError (RevocationError + RevocationState) :=
  match statuses with
  | [] => Ok (inr worst)
  | status :: statuses =>
      issuer ← details;
      match check status issuer with
      | Err error => Ok (inl error)
      | Panic => Panic
      | Ok Valid => worst_revocation_state check details statuses worst
      | Ok Revoked => Ok (inr Revoked)
      | Ok (Suspended date) => worst_revocation_state check details statuses (Suspended date)
      end
  end.

(** The part of [check_holder_credential_validity] after the credential was
    parsed. *)
Definition check_statuses (credential : Credential) (schema : CredentialSchema)
  (statuses : list CredentialStatus) (force_refresh : bool) :
  M (Store R) ValidityError CheckResult :=
  let id := credential_id credential in
  let current_state := credential_state credential in
  match revocation_method schema with
  | None => mret (mkCheckResult id current_state false)
  | Some method_id =>
      method ← lift (ok_or (get_revocation_method method_id) (VMissingProvider method_id));
      issuer ← lift (ok_or (issuer_identifier credential) (VMappingError "issuer_identifier is None"));
      let data := match credential_role credential with
                  | Holder => Some credential
                  | Issuer | Verifier => None
                  end in
      outcome ← lift (worst_revocation_state
        (fun status details => op_check method status details data force_refresh)
        (issuer_details issuer) statuses Valid);
      match outcome with
      | inl _ => mret (mkCheckResult id current_state false)
      | inr worst =>
          let suspend_end_date := match worst with Suspended date => date | _ => None end in
          let detected_state := credential_state_of worst in
          _ ← (if decide (current_state = detected_state) then mret tt
               else update_credential id
                      (mkUpdateRequest (Some detected_state) (ForceSet suspend_end_date) None));
          mret (mkCheckResult id detected_state true)
      end
  end.

Definition check_holder_credential_validity (id : Z) (force_refresh : bool) :
  M (Store R) ValidityError CheckResult :=
  found ← get_credential id;
  credential ← lift (ok_or found (VNotFound id));
  _ ← lift (throw_if_credential_schema_not_in_session_org credential session);
  _ ← lift (fail_if (bool_decide (deleted_at credential <> None)) (VNotFound id));
  _ ← lift (fail_if (bool_decide (credential_role credential <> Holder))
              (VCheckNotAllowedForRole (credential_role credential) id));
  match credential_state credential with
  | CsRevoked => mret (mkCheckResult id CsRevoked true)
  | CsAccepted | CsSuspended =>
      schema ← lift (ok_or (credential_schema credential) (VMappingError "schema is None"));
      detail ← lift (load_detail credential schema);
      is_mdoc ← lift (map_err VProvider (of_sum (format_is_mdoc (schema_format schema))));
      if (is_mdoc : bool) then update_mdoc credential detail force_refresh
      else match dc_status detail with
           | [] => mret (mkCheckResult id CsAccepted true)
           | statuses => check_statuses credential schema statuses force_refresh
           end
  | state => mret (mkCheckResult id state false)
  end.

(** [CredentialService::check_revocation]. *)
Fixpoint check_revocation (ids : list Z) (force_refresh : bool) :
  M (Store R) ValidityError (list CheckResult) :=
  match ids with
  | [] => mret []
  | id :: ids =>
      r ← check_holder_credential_validity id force_refresh;
      rs ← check_revocation ids force_refresh;
      mret (r :: rs)
  end.
End validity.

(** ** What a revocation method promises *)

(** [rev_status r c st]: every entry that the store has for the credential [c]
    has status [st]. Marking a credential sets the status of its entries and
    of no other credential's; it does not panic. *)
Class RevocationMethodLaws (R : Type) `{RevocationMethodProvider R} := {
  rev_inv : R -> Prop;
  rev_status : R -> Z -> RevocationListEntryStatus -> Prop;
  mark_law : forall id method c st r,
    get_revocation_method id = Some method -> rev_inv r ->
    match op_mark method c st r with
    | (Ok _, r') => rev_inv r' /\ rev_status r' (credential_id c) (entry_status_of st) /\
        forall c' st', c' <> credential_id c -> rev_status r c' st' -> rev_status r' c' st'
    | (Err _, r') => rev_inv r' /\
        forall c' st', c' <> credential_id c -> rev_status r c' st' -> rev_status r' c' st'
    | (Panic, _) => False
    end
}.

(** The list entry of an issued credential. *)
Definition entry_status_of_state (s : CredentialStateEnum) : option RevocationListEntryStatus :=
  match s with
  | CsAccepted => Some EntryActive
  | CsRevoked => Some EntryRevoked
  | CsSuspended => Some EntrySuspended
  | _ => None
  end.

Definition unique_ids {R : Type} (s : Store R) : Prop := NoDup (credential_id <$> credentials s).

(** The lists agree with the credential table: the entries of every issued
    credential have the status of its state. *)
Definition consistent {R : Type} `{RevocationMethodLaws R} (s : Store R) : Prop :=
  rev_inv (revocation s) /\ unique_ids s /\
  forall c st, c ∈ credentials s -> credential_role c = Issuer ->
    entry_status_of_state (credential_state c) = Some st ->
    rev_status (revocation s) (credential_id c) st.

(** ** Lemmas *)

Section validity_lemmas.
Context {R : Type} `{RevocationMethodLaws R} (session : option Session).
Implicit Types (s : Store R) (c : Credential).

Lemma find_credential_Some (id : Z) (s : Store R) (c : Credential) :
  find_credential id s = Some c -> c ∈ credentials s /\ credential_id c = id.
Proof. intros [Hin Hid%Z.eqb_eq]%find_first_Some. done. Qed.

Lemma find_credential_unique (s : Store R) (c : Credential) : unique_ids s ->
  c ∈ credentials s -> find_credential (credential_id c) s = Some c.
Proof. intros Hu Hc. by apply (find_first_id credential_id). Qed.

Lemma apply_update_id (id : Z) (req : UpdateCredentialRequest) (c : Credential) :
  credential_id (apply_update id req c) = credential_id c /\
  credential_role (apply_update id req c) = credential_role c /\
  deleted_at (apply_update id req c) = deleted_at c.
Proof. unfold apply_update. by destruct (credential_id c =? id). Qed.

Lemma apply_update_other (id : Z) (req : UpdateCredentialRequest) (c : Credential) :
  credential_id c <> id -> apply_update id req c = c.
Proof. unfold apply_update. by destruct (Z.eqb_spec (credential_id c) id). Qed.

Lemma find_credential_map (f : Credential -> Credential) (x : Z) (s : Store R) :
  (forall c, credential_id (f c) = credential_id c) ->
  find_credential x (set_credentials (f <$> credentials s) s) = f <$> find_credential x s.
Proof.
  intros Hf. unfold find_credential, find_first. simpl.
  induction (credentials s) as [|c cs IH]; [done|].
  rewrite fmap_cons. simpl. rewrite Hf, IH. by destruct (credential_id c =? x).
Qed.

Lemma update_credential_found (id : Z) (req : UpdateCredentialRequest) (s : Store R)
  (c : Credential) : find_credential id s = Some c ->
  update_credential id req s = (Ok tt, set_credentials (apply_update id req <$> credentials s) s).
Proof. unfold update_credential. by intros ->. Qed.

(** The request that [change_credential_validity_state] makes. *)
Definition state_request (st : RevocationState) : UpdateCredentialRequest :=
  mkUpdateRequest (Some (credential_state_of st))
    (ForceSet (match st with Suspended date => date | _ => None end)) None.

(** The conditions under which a state may be changed. *)
Definition may_change (c : Credential) (st : RevocationState) : Prop :=
  exists schema org method_id, deleted_at c = None /\ credential_schema c = Some schema /\
    schema_organisation schema = Some org /\
    (session = None \/ session = Some (mkSession (Some org))) /\
    revocation_method schema = Some method_id /\
    is_Some (get_revocation_method (R := R) method_id) /\
    (allow_suspension schema = true \/ forall date, st <> Suspended date) /\
    credential_state c ∈ valid_states st.

Lemma org_check_ok (org : Z) :
  throw_if_org_not_matching_session org session = Ok tt <->
  session = None \/ session = Some (mkSession (Some org)).
Proof.
  unfold throw_if_org_not_matching_session. destruct session as [[o]|]; simpl; [|tauto].
  destruct o as [o|]; simpl; [|split; [done|intros [|[= ]]; done]].
  rewrite fail_if_ok, negb_false_iff, Z.eqb_eq. split; [intros ->; by right|intros [|[= ->]]; done].
Qed.

Lemma suspension_check_ok (schema : CredentialSchema) (m : string) (st : RevocationState) :
  verify_suspension_support schema m st = Ok tt <->
  allow_suspension schema = true \/ forall date, st <> Suspended date.
Proof.
  unfold verify_suspension_support. rewrite fail_if_ok. destruct (allow_suspension schema); simpl.
  - split; auto.
  - destruct st as [| |date]; split; auto; try done; [intros _; by right..|].
    intros [|Hs]; [done|by destruct (Hs date)].
Qed.

Lemma transition_ok (cur : CredentialStateEnum) (st : RevocationState) :
  validate_state_transition cur st = Ok tt <-> cur ∈ valid_states st.
Proof. unfold validate_state_transition. rewrite fail_if_ok, negb_false_iff. apply bool_decide_eq_true. Qed.

(** The guards of [change_credential_validity_state]. *)
Definition guards (c : Credential) (id : Z) (st : RevocationState) :
  res ValidityError (RevocationMethodOps R) :=
  _ ← fail_if (bool_decide (deleted_at c <> None)) (VNotFound id);
  schema ← ok_or (credential_schema c) (VMappingError "credential schema is None");
  _ ← throw_if_org_relation_not_matching_session (schema_organisation schema) session;
  method_id ← ok_or (revocation_method schema) (VNoRevocationMethod (schema_id schema));
  _ ← verify_suspension_support schema method_id st;
  _ ← validate_state_transition (credential_state c) st;
  ok_or (get_revocation_method method_id) (VMissingProvider method_id).

Lemma change_state_guards (id : Z) (st : RevocationState) (s : Store R) :
  change_credential_validity_state session id st s =
    match find_credential id s with
    | None => (Err (VNotFound id), s)
    | Some c =>
        match guards c id st with
        | Ok method =>
            (on_revocation (op_mark method c st);; update_credential id (state_request st)) s
        | Err e => (Err e, s)
        | Panic => (Panic, s)
        end
    end.
Proof.
  unfold change_credential_validity_state, get_credential, guards, state_request. run_M.
  destruct (find_credential id s) as [c|]; simpl; [|done].
  destruct (fail_if _ _) as [[]| |]; simpl; [|done..].
  destruct (credential_schema c) as [schema|]; simpl; [|done].
  destruct (throw_if_org_relation_not_matching_session _ _) as [[]| |]; simpl; [|done..].
  destruct (revocation_method schema) as [m|]; simpl; [|done].
  destruct (verify_suspension_support _ _ _) as [[]| |]; simpl; [|done..].
  destruct (validate_state_transition _ _) as [[]| |]; simpl; [|done..].
  by destruct (get_revocation_method m).
Qed.

Lemma guards_ok (c : Credential) (id : Z) (st : RevocationState) :
  (exists method, guards c id st = Ok method) <-> may_change c st.
Proof.
  unfold guards, may_change. split.
  - intros (method & Hg). apply res_bind_ok in Hg as ([] & Hd%fail_if_ok & Hg).
    apply res_bind_ok in Hg as (schema & Hs%ok_or_ok & Hg).
    apply res_bind_ok in Hg as ([] & Ho & Hg).
    apply res_bind_ok in Ho as (org & Horg%ok_or_ok & Ho%org_check_ok).
    apply res_bind_ok in Hg as (m & Hm%ok_or_ok & Hg).
    apply res_bind_ok in Hg as ([] & Hsu%suspension_check_ok & Hg).
    apply res_bind_ok in Hg as ([] & Ht%transition_ok & Hg%ok_or_ok).
    apply bool_decide_eq_false, dec_stable in Hd.
    exists schema, org, m. by split_and!.
  - intros (schema & org & m & Hd & Hs & Horg & Ho & Hm & [method Hg] & Hsu & Ht).
    exists method. rewrite bool_decide_eq_false_2 by naive_solver. simpl. rewrite Hs. simpl.
    unfold throw_if_org_relation_not_matching_session. rewrite Horg. simpl.
    rewrite (proj2 (org_check_ok org) Ho). simpl. rewrite Hm. simpl.
    rewrite (proj2 (suspension_check_ok schema m st) Hsu). simpl.
    rewrite (proj2 (transition_ok _ _) Ht). simpl. by rewrite Hg.
Qed.

Lemma guards_no_panic (c : Credential) (id : Z) (st : RevocationState) : guards c id st <> Panic.
Proof.
  unfold guards, throw_if_org_relation_not_matching_session, throw_if_org_not_matching_session,
    verify_suspension_support, validate_state_transition. no_panic.
Qed.

Lemma guards_method (c : Credential) (id : Z) (st : RevocationState)
  (method : RevocationMethodOps R) : guards c id st = Ok method ->
  exists m, get_revocation_method m = Some method.
Proof.
  unfold guards. intros Hg. do 6 (apply res_bind_ok in Hg as (? & _ & Hg)).
  apply ok_or_ok in Hg. eauto.
Qed.

(** What a state change does, given the credential it finds. *)
Lemma change_state_run (id : Z) (st : RevocationState) (s : Store R) (c : Credential) :
  find_credential id s = Some c -> rev_inv (revocation s) ->
  match change_credential_validity_state session id st s with
  | (Ok _, s') => may_change c st /\ clock s' = clock s /\
      credentials s' = apply_update id (state_request st) <$> credentials s /\
      rev_inv (revocation s') /\
      rev_status (revocation s') id (entry_status_of st) /\
      forall x st', x <> id -> rev_status (revocation s) x st' -> rev_status (revocation s') x st'
  | (Err e, s') => credentials s' = credentials s /\ clock s' = clock s /\
      rev_inv (revocation s') /\
      (forall x st', x <> id -> rev_status (revocation s) x st' ->
                     rev_status (revocation s') x st') /\
      (s' = s \/ may_change c st /\ exists e', e = VRevocation e')
  | (Panic, _) => False
  end.
Proof.
  intros Hc Hinv. rewrite change_state_guards, Hc.
  destruct (guards c id st) as [method|e|] eqn:Hg.
  - assert (Hmay : may_change c st) by (apply (guards_ok c id st); eauto).
    apply guards_method in Hg as [m Hm].
    pose proof (mark_law m method c st (revocation s) Hm Hinv) as Hl.
    apply find_credential_Some in Hc as Hid. destruct Hid as [_ <-].
    unfold on_revocation. run_M. destruct (op_mark method c st (revocation s)) as [[[]|e|] rev];
      simpl; [|naive_solver|done].
    rewrite (update_credential_found _ _ _ c) by done. simpl. naive_solver.
  - naive_solver.
  - by destruct (guards_no_panic c id st).
Qed.

Lemma change_state_missing (id : Z) (st : RevocationState) (s : Store R) :
  find_credential id s = None ->
  change_credential_validity_state session id st s = (Err (VNotFound id), s).
Proof. intros Hc. by rewrite change_state_guards, Hc. Qed.
End validity_lemmas.

(** ** The life of a credential *)

(** The transitions the operations may make: a revoked credential stays
    revoked, a credential that is not issued yet is left alone. *)
Definition lifecycle (a b : CredentialStateEnum) : Prop :=
  a = b \/ (a = CsAccepted \/ a = CsSuspended) /\ (b = CsAccepted \/ b = CsSuspended \/ b = CsRevoked).

#[export] Instance lifecycle_preorder : PreOrder lifecycle.
Proof. split; [by left|]. unfold lifecycle. intros a b c. naive_solver. Qed.

(** No credential is lost, states move along the life cycle, and a deleted
    credential does not change any more. *)
Definition evolves {R : Type} (s s' : Store R) : Prop :=
  forall id c, find_credential id s = Some c ->
    exists c', find_credential id s' = Some c' /\ lifecycle (credential_state c) (credential_state c') /\
      credential_role c' = credential_role c /\ credential_schema c' = credential_schema c /\
      (deleted_at c <> None -> c' = c).

#[export] Instance evolves_preorder {R : Type} : PreOrder (@evolves R).
Proof.
  split.
  - intros s id c Hc. exists c. by split_and!.
  - intros s1 s2 s3 H12 H23 id c Hc. destruct (H12 id c Hc) as (c2 & Hc2 & Hl2 & Hr2 & Hs2 & Hd2).
    destruct (H23 id c2 Hc2) as (c3 & Hc3 & Hl3 & Hr3 & Hs3 & Hd3). exists c3.
    split_and!; [done|by etrans|congruence..|]. intros Hd. specialize (Hd2 Hd) as ->. auto.
Qed.

Section lifecycle_lemmas.
Context {R : Type} `{RevocationMethodProvider R} (session : option Session).

Lemma evolves_map (f : Credential -> Credential) (s : Store R) :
  (forall id c, find_credential id s = Some c ->
     lifecycle (credential_state c) (credential_state (f c)) /\
     credential_role (f c) = credential_role c /\ credential_schema (f c) = credential_schema c /\
     (deleted_at c <> None -> f c = c)) ->
  (forall c, credential_id (f c) = credential_id c) ->
  evolves s (set_credentials (f <$> credentials s) s).
Proof.
  intros Hf Hid id c Hc. exists (f c). rewrite find_credential_map, Hc by done.
  destruct (Hf id c Hc) as (?&?&?&?). by split_and!.
Qed.

(** A request that may be made of the credential that it finds. *)
Definition admissible (id : Z) (req : UpdateCredentialRequest) (s : Store R) : Prop :=
  forall c, find_credential id s = Some c -> deleted_at c = None /\
    lifecycle (credential_state c) (default (credential_state c) (req_state req)).

Lemma update_evolves (id : Z) (req : UpdateCredentialRequest) (s : Store R) :
  admissible id req s -> evolves s (update_credential id req s).2.
Proof.
  intros Had. unfold update_credential. destruct (find_credential id s) as [c|] eqn:Hc; [|reflexivity].
  simpl. apply evolves_map; [|intros c'; apply apply_update_id]. intros x c' Hc'.
  unfold apply_update. destruct (Z.eqb_spec (credential_id c') id) as [Heq|]; [|by split_and!].
  apply find_credential_Some in Hc' as Hx. destruct Hx as [_ Hx].
  assert (x = id) as -> by congruence. destruct (Had c' Hc') as [Hd Hl]. simpl.
  split_and!; naive_solver.
Qed.

Lemma change_state_evolves (id : Z) (st : RevocationState) :
  preserves evolves (change_credential_validity_state (R := R) session id st).
Proof.
  intros s. rewrite change_state_guards. destruct (find_credential id s) as [c|] eqn:Hc; [|reflexivity].
  destruct (guards session c id st) as [method|e|] eqn:Hg; [|reflexivity..].
  assert (Hmay : may_change session c st) by (apply (guards_ok session c id st); eauto).
  destruct Hmay as (_ & _ & _ & Hd & _ & _ & _ & _ & _ & _ & Hv).
  unfold on_revocation. run_M. destruct (op_mark method c st (revocation s)) as [[[]|e|] rev]; simpl;
    [|by intros x cx Hx; exists cx; split_and!..].
  etrans; [|apply update_evolves].
  - intros x cx Hx. exists cx. by split_and!.
  - intros c' Hc'. change (find_credential id s = Some c') in Hc'. simplify_eq. split; [done|].
    simpl. unfold lifecycle. revert Hv. destruct st; simpl; set_solver.
Qed.

Lemma delete_run (config : string -> string + unit) (id : Z) (s : Store R) :
  (delete_credential session config id s).2 = s \/
  exists c, find_credential id s = Some c /\ deleted_at c = None /\
    (delete_credential session config id s).2 =
      set_credentials (mark_deleted id (clock s) <$> credentials s) s.
Proof.
  unfold delete_credential, get_credential, M_map_err, delete_credential_row. run_M.
  destruct (find_credential id s) as [c|] eqn:Hc; simpl; [|by left].
  destruct (ok_or (credential_schema c) _) as [schema|e|]; simpl; [|by left..].
  destruct (throw_if_org_relation_not_matching_session _ _) as [[]|e|]; simpl; [|by left..].
  destruct (credential_role c);
    [|destruct (revocation_method schema) as [m|];
        [destruct (map_err _ (of_sum (config m))) as [[]| |]; simpl; [|by left..];
         destruct (throw_if_credential_state_eq c CsAccepted) as [[]|e|]; [|by left..]|]|];
    simpl; rewrite Hc; (case_bool_decide; [|by left]); right; by exists c.
Qed.

Lemma mark_deleted_same (id now : Z) (c : Credential) :
  credential_id (mark_deleted id now c) = credential_id c /\
  credential_role (mark_deleted id now c) = credential_role c /\
  credential_state (mark_deleted id now c) = credential_state c /\
  credential_schema (mark_deleted id now c) = credential_schema c.
Proof. unfold mark_deleted. by destruct (credential_id c =? id). Qed.

Lemma delete_evolves (config : string -> string + unit) (id : Z) :
  preserves evolves (delete_credential (R := R) session config id).
Proof.
  intros s. destruct (delete_run config id s) as [->|(c & Hc & Hd & ->)]; [reflexivity|].
  apply evolves_map; [|intros c'; apply mark_deleted_same]. intros x c' Hc'.
  destruct (mark_deleted_same id (clock s) c') as (_ & -> & -> & ->). split_and!; [done..|].
  unfold mark_deleted. destruct (Z.eqb_spec (credential_id c') id); [|done].
  apply find_credential_Some in Hc' as Hx. destruct Hx as [_ Hx].
  assert (x = id) as -> by congruence. by simplify_eq.
Qed.

Lemma suspend_check_evolves (any_empty : bool) :
  preserves evolves (suspend_check (R := R) session any_empty).
Proof.
  apply preserves_get_bind. intros s. apply preserves_bind; [apply _| |intros ?; apply preserves_ret, _].
  apply preserves_for_each; [apply _|]. intros c. apply change_state_evolves.
Qed.
End lifecycle_lemmas.

Section holder_lemmas.
Context {R : Type} `{RevocationMethodProvider R} `{HolderWorld} (session : option Session).

(** What the holder's check writes: admissible updates of credentials that
    the holder has. *)
Inductive holder_update (s : Store R) : Store R -> Prop :=
| HolderUpdate (id : Z) (req : UpdateCredentialRequest) (c : Credential) :
    find_credential id s = Some c -> credential_role c = Holder -> admissible id req s ->
    holder_update s (set_credentials (apply_update id req <$> credentials s) s).

Lemma update_holder (id : Z) (req : UpdateCredentialRequest) (s : Store R) (c : Credential) :
  find_credential id s = Some c -> credential_role c = Holder -> admissible id req s ->
  rtc holder_update s (update_credential id req s).2.
Proof. intros Hc Hr Had. rewrite (update_credential_found _ _ _ c) by done. by eapply rtc_once, HolderUpdate. Qed.

Lemma holder_updates_evolve (s s' : Store R) : rtc holder_update s s' -> evolves s s'.
Proof.
  induction 1 as [|s _ s2 [id req c Hc Hr Had] _ IH]; [reflexivity|]. etrans; [|exact IH].
  pose proof (update_evolves id req s Had) as Hu.
  by rewrite (update_credential_found _ _ _ c) in Hu by done.
Qed.

Lemma mdoc_writes (c : Credential) (detail : DetailCredential) (force : bool) (s : Store R) :
  find_credential (credential_id c) s = Some c -> deleted_at c = None -> credential_role c = Holder ->
  credential_state c = CsAccepted \/ credential_state c = CsSuspended ->
  rtc holder_update s (update_mdoc c detail force s).2.
Proof.
  intros Hc Hd Hr Hst. unfold update_mdoc.
  assert (Hck : match check_mdoc_update c detail force s with
          | (Ok st, s1) => rtc holder_update s s1 /\ lifecycle (credential_state c) st /\
              exists c1, find_credential (credential_id c) s1 = Some c1 /\ deleted_at c1 = None /\
                credential_role c1 = Holder /\ credential_state c1 = credential_state c
          | (_, s1) => s1 = s
          end).
  { unfold check_mdoc_update. run_M.
    destruct (map_err _ (of_sum (interaction_data c))) as [[]| |]; [|done..].
    destruct (map_err _ (of_sum (encryption_key c))) as [[]| |]; [|done..].
    assert (Hnew : forall b : bool, lifecycle (credential_state c) (if b then CsSuspended else CsAccepted)).
    { intros []; unfold lifecycle; naive_solver. }
    assert (Hrev : lifecycle (credential_state c) CsRevoked) by (unfold lifecycle; naive_solver).
    assert (Hrefl : rtc holder_update s s) by reflexivity.
    destruct (check_access_token c) as [e|[]]; [by eauto 12| |].
    { split_and!; [done|destruct (is_mso_expired _ _); [done|exact (Hnew false)]|by eauto]. }
    destruct (force || _); [|by eauto 12]. unfold obtain_and_update_new_mso. run_M.
    destruct (map_err _ (of_sum (obtain_new_mso c))) as [b| |] eqn:Hb; [|by eauto 12|].
    2: { revert Hb. by destruct (obtain_new_mso c). }
    pose proof (update_holder (credential_id c) (mkUpdateRequest None DontTouch (Some b)) s c Hc Hr) as Hev.
    revert Hev. rewrite (update_credential_found _ _ _ c) by done. simpl. intros Hev. split_and!.
    - apply Hev. intros c' Hc'. simplify_eq. by split; [|left].
    - exact (Hnew false).
    - rewrite find_credential_map, Hc by (intros c'; apply apply_update_id). eexists. split; [done|].
      unfold apply_update. by rewrite Z.eqb_refl. }
  unfold mbind, M_bind. destruct (check_mdoc_update c detail force s) as [[st|e|] s1]; [|by subst..].
  destruct Hck as (Hev & Hl & c1 & Hc1 & Hd1 & Hr1 & Hs1). destruct (decide _); [done|].
  assert (Hu : rtc holder_update s1 (update_credential (credential_id c)
                             (mkUpdateRequest (Some st) DontTouch None) s1).2).
  { apply (update_holder _ _ _ c1); [done..|]. intros c' Hc'. simplify_eq. simpl. by rewrite Hs1. }
  destruct (update_credential _ _ s1) as [[[]| |] s2]; simpl in *; by etrans.
Qed.

Lemma check_statuses_writes (c : Credential) (schema : CredentialSchema)
  (statuses : list CredentialStatus) (force : bool) (s : Store R) :
  find_credential (credential_id c) s = Some c -> deleted_at c = None -> credential_role c = Holder ->
  credential_state c = CsAccepted \/ credential_state c = CsSuspended ->
  rtc holder_update s (check_statuses c schema statuses force s).2.
Proof.
  intros Hc Hd Hr Hst. unfold check_statuses. destruct (revocation_method schema) as [m|]; [|reflexivity].
  run_M. destruct (ok_or (get_revocation_method m) _) as [method|e|]; [|done..].
  destruct (ok_or (issuer_identifier c) _) as [issuer|e|]; [|done..].
  destruct (worst_revocation_state _ _ _ _) as [[e|worst]|e|]; [done| |done..].
  destruct (decide _); [done|].
  pose proof (update_holder (credential_id c) (state_request worst) s c Hc Hr) as Hu.
  unfold state_request in Hu.
  destruct (update_credential _ _ s) as [[[]| |] s2]; simpl in *; apply Hu; intros c' Hc';
    simplify_eq; (split; [done|]); unfold lifecycle; destruct worst; naive_solver.
Qed.

Lemma holder_check_writes (id : Z) (force : bool) :
  preserves (rtc holder_update) (check_holder_credential_validity (R := R) session id force).
Proof.
  intros s. unfold check_holder_credential_validity, get_credential. run_M.
  destruct (find_credential id s) as [c|] eqn:Hc; simpl; [|done].
  destruct (throw_if_credential_schema_not_in_session_org c session) as [[]|e|]; [|done..].
  destruct (fail_if _ (VNotFound id)) as [[]|e|] eqn:Hd; [|done..].
  apply fail_if_ok, bool_decide_eq_false, dec_stable in Hd.
  apply find_credential_Some in Hc as Hid. destruct Hid as [_ <-].
  destruct (fail_if _ (VCheckNotAllowedForRole _ _)) as [[]|e|] eqn:Hr; [|done..].
  apply fail_if_ok, bool_decide_eq_false, dec_stable in Hr.
  destruct (credential_state c) eqn:Hst; try done.
  all: destruct (ok_or (credential_schema c) _) as [schema|e|]; [|done..].
  all: destruct (load_detail c schema) as [detail|e|]; [|done..].
  all: destruct (map_err _ (of_sum (format_is_mdoc _))) as [[]|e|]; [| |done..].
  all: try (apply mdoc_writes; auto; fail).
  all: destruct (dc_status detail); [done|apply check_statuses_writes; auto].
Qed.

Lemma check_revocation_writes (ids : list Z) (force : bool) :
  preserves (rtc holder_update) (check_revocation (R := R) session ids force).
Proof.
  induction ids as [|id ids IH]; simpl; [apply preserves_ret, _|].
  apply preserves_bind; [apply _|apply holder_check_writes|intros r].
  apply preserves_bind; [apply _|done|intros rs; apply preserves_ret, _].
Qed.
End holder_lemmas.

(** ** The lists agree with the credentials *)

Section consistency.
Context {R : Type} `{RevocationMethodLaws R}.

Lemma unique_ids_map (f : Credential -> Credential) (s : Store R) :
  (forall c, credential_id (f c) = credential_id c) ->
  unique_ids s -> unique_ids (set_credentials (f <$> credentials s) s).
Proof.
  intros Hf. unfold unique_ids. simpl. rewrite <-list_fmap_compose.
  by rewrite (list_fmap_ext (credential_id ∘ f) credential_id) by (intros; apply Hf).
Qed.

(** A rewrite of the table after which the entries still have the status of
    their credential. *)
Lemma consistent_map (f : Credential -> Credential) (s s' : Store R) : consistent s ->
  credentials s' = f <$> credentials s -> rev_inv (revocation s') ->
  (forall c, credential_id (f c) = credential_id c) ->
  (forall c st, c ∈ credentials s -> credential_role (f c) = Issuer ->
     entry_status_of_state (credential_state (f c)) = Some st ->
     rev_status (revocation s') (credential_id c) st) ->
  consistent s'.
Proof.
  intros (_ & Hu & _) Hcs Hinv Hid Hf. split_and!; [done| |].
  - pose proof (unique_ids_map f s Hid Hu) as Hu'. unfold unique_ids in *. by rewrite Hcs.
  - intros c' st Hc'. rewrite Hcs in Hc'. apply list_elem_of_fmap in Hc' as (c & -> & Hc).
    rewrite Hid. by apply Hf.
Qed.

Lemma change_state_consistent (session : option Session) (id : Z) (st : RevocationState)
  (s s' : Store R) : consistent s ->
  change_credential_validity_state session id st s = (Ok tt, s') -> consistent s'.
Proof.
  intros Hcon Hrun. destruct (find_credential id s) as [c|] eqn:Hc.
  2: { rewrite change_state_missing in Hrun by done. done. }
  pose proof Hcon as (Hinv & _ & Hst).
  pose proof (change_state_run session id st s c Hc Hinv) as Hr. rewrite Hrun in Hr.
  destruct Hr as (_ & _ & Hcs & Hinv' & Hnew & Hframe).
  eapply consistent_map; [done..|intros x; apply apply_update_id|]. intros x st' Hx Hrole Hx'.
  destruct (Z.eq_dec (credential_id x) id) as [Heq|Hne].
  - rewrite Heq. revert Hx'. unfold apply_update. rewrite Heq, Z.eqb_refl. simpl.
    intros Hx'. destruct st; simpl in *; by simplify_eq.
  - rewrite apply_update_other in * by done. auto.
Qed.

Lemma delete_consistent (session : option Session) (config : string -> string + unit) (id : Z)
  (s : Store R) : consistent s -> consistent (delete_credential session config id s).2.
Proof.
  intros Hcon. destruct (delete_run session config id s) as [->|(c & _ & _ & ->)]; [done|].
  pose proof Hcon as (Hinv & _ & Hst).
  eapply consistent_map; [done..|intros x; apply mark_deleted_same|]. intros x st Hx.
  destruct (mark_deleted_same id (clock s) x) as (_ & -> & -> & _). auto.
Qed.

Lemma holder_update_consistent (s s' : Store R) : rtc holder_update s s' ->
  consistent s -> consistent s'.
Proof.
  induction 1 as [|s _ s2 [id req c Hc Hr _] _ IH]; [done|]. intros Hcon. apply IH.
  pose proof Hcon as (Hinv & Hu & Hst).
  eapply consistent_map; [done..|intros x; apply apply_update_id|]. intros x st Hx.
  destruct (Z.eq_dec (credential_id x) id) as [Heq|Hne].
  - apply find_credential_unique in Hx; [|done]. rewrite Heq in Hx. simplify_eq.
    destruct (apply_update_id (credential_id c) req c) as (_ & -> & _). congruence.
  - rewrite apply_update_other by done. auto.
Qed.

Lemma for_each_consistent (session : option Session) (l : list Credential) (s s' : Store R) :
  consistent s ->
  for_each (fun c => change_credential_validity_state session (credential_id c) Valid) l s
    = (Ok tt, s') -> consistent s'.
Proof.
  revert s. induction l as [|c l IH]; intros s Hcon; simpl; run_M; [by intros [= <-]|].
  destruct (change_credential_validity_state _ _ _ s) as [[[]|e|] s1] eqn:Hc; [|done..].
  intros Hrun. eapply IH; [|exact Hrun]. by eapply change_state_consistent.
Qed.
End consistency.

(** ** The suspension task *)

(** A suspension that has ended. *)
Definition due (now : Z) (c : Credential) : bool :=
  bool_decide (deleted_at c = None) && bool_decide (credential_state c = CsSuspended) &&
  bool_decide (credential_role c = Issuer) &&
  match suspend_end_date c with Some date => date <? now | None => false end.

(** The credential as the task leaves it. *)
Definition reactivated (c : Credential) : Credential :=
  mkCredential (credential_id c) (deleted_at c) (credential_role c) CsAccepted None
    (credential_blob_id c) (issuer_identifier c) (issuer_certificate c) (credential_schema c).

Section suspension.
Context {R : Type} `{RevocationMethodLaws R} (session : option Session).

Lemma suspend_filter_due (any_empty : bool) (now : Z) (s : Store R) :
  get_credential_list any_empty (Some (suspend_check_filter now)) s =
    List.filter (due now) (credentials s).
Proof.
  unfold get_credential_list. apply List.filter_ext. intros c.
  unfold suspend_check_filter, due. rewrite !bitand_sem. simpl.
  unfold compare_column. simpl.
  rewrite (bool_decide_ext (credential_state c ∈ [CsSuspended]) (credential_state c = CsSuspended))
    by set_solver.
  rewrite (bool_decide_ext (credential_role c ∈ [Issuer]) (credential_role c = Issuer)) by set_solver.
  by rewrite <-!andb_assoc.
Qed.

Definition reactivate_ids (ids : list Z) (c : Credential) : Credential :=
  if bool_decide (credential_id c ∈ ids) then reactivated c else c.

Lemma reactivate_ids_cons (id : Z) (ids : list Z) (c : Credential) :
  reactivate_ids (id :: ids) c = reactivate_ids ids (apply_update id (state_request Valid) c).
Proof.
  unfold reactivate_ids, apply_update. destruct (Z.eqb_spec (credential_id c) id) as [Heq|Hne]; simpl.
  - rewrite bool_decide_eq_true_2 by (rewrite Heq; left). by case_bool_decide.
  - by rewrite (bool_decide_ext (credential_id c ∈ id :: ids) (credential_id c ∈ ids)) by set_solver.
Qed.

(** The loop reactivates a prefix of the list: all of it unless it fails. *)
Lemma reactivation_loop (l : list Credential) (s : Store R) : rev_inv (revocation s) ->
  match for_each (fun c => change_credential_validity_state session (credential_id c) Valid) l s with
  | (Ok _, s') => credentials s' = reactivate_ids (credential_id <$> l) <$> credentials s
  | (Err _, s') => exists pre post, l = pre ++ post /\ post <> [] /\
      credentials s' = reactivate_ids (credential_id <$> pre) <$> credentials s
  | (Panic, _) => False
  end.
Proof.
  assert (Hnil : forall cs : list Credential, cs = reactivate_ids [] <$> cs).
  { intros cs. symmetry. apply list_fmap_id. }
  revert s. induction l as [|c l IH]; intros s Hinv; simpl; run_M; [apply Hnil|].
  destruct (find_credential (credential_id c) s) as [c0|] eqn:Hc.
  2: { rewrite change_state_missing by done. exists [], (c :: l). split_and!; [done..|apply Hnil]. }
  pose proof (change_state_run session (credential_id c) Valid s c0 Hc Hinv) as Hr.
  destruct (change_credential_validity_state _ _ _ s) as [[[]|e|] s1]; [| |done].
  - destruct Hr as (_ & _ & Hcs & Hinv1 & _). specialize (IH s1 Hinv1).
    assert (Hstep : forall ids, reactivate_ids ids <$> credentials s1 =
                                reactivate_ids (credential_id c :: ids) <$> credentials s).
    { intros ids. rewrite Hcs, <-list_fmap_compose. apply list_fmap_ext. intros i x _. simpl.
      by rewrite reactivate_ids_cons. }
    destruct (for_each _ l s1) as [[[]|e|] s2]; [| |done].
    + by rewrite IH, Hstep.
    + destruct IH as (pre & post & -> & Hpost & ->). exists (c :: pre), post. by rewrite Hstep.
  - destruct Hr as (Hcs & _). exists [], (c :: l). rewrite Hcs. split_and!; [done..|apply Hnil].
Qed.
End suspension.

(** ** The holder's verdict *)

Definition is_suspended (st : RevocationState) : bool :=
  match st with Suspended _ => true | _ => false end.

(** The worst of a list of states: revoked, or the last suspension, or valid. *)
Definition worst_of (sts : list RevocationState) : RevocationState :=
  if bool_decide (Revoked ∈ sts) then Revoked
  else default Valid (last (List.filter is_suspended sts)).

Section verdict.
Context (check : CredentialStatus -> IdentifierDetails -> res RevocationError RevocationState)
  (details : IdentifierDetails).
Let checked (status : CredentialStatus) (st : RevocationState) : Prop :=
  check status details = Ok st.

(** The loop passes over statuses that are not revoked. *)
Lemma worst_prefix (pre post : list CredentialStatus) (sts : list RevocationState)
  (w : RevocationState) : Forall2 checked pre sts -> Revoked ∉ sts ->
  worst_revocation_state check (Ok details) (pre ++ post) w =
  worst_revocation_state check (Ok details) post (default w (last (List.filter is_suspended sts))).
Proof.
  intros Hpre. revert w. induction Hpre as [|status st pre sts Hs _ IH]; intros w Hn; [done|].
  apply not_elem_of_cons in Hn as [Hst Hn]. simpl. rewrite Hs.
  destruct st as [| |date]; [|done|]; rewrite IH by done; [done|].
  cbn [List.filter is_suspended]. rewrite last_cons. by destruct (last (List.filter is_suspended sts)).
Qed.

Lemma worst_all (statuses : list CredentialStatus) (sts : list RevocationState) :
  Forall2 checked statuses sts ->
  worst_revocation_state check (Ok details) statuses Valid = Ok (inr (worst_of sts)).
Proof.
  intros Hall. unfold worst_of. case_bool_decide as Hr.
  - apply list_elem_of_split_l in Hr as (pre & post & -> & Hn).
    apply Forall2_app_inv_r in Hall as (cpre & cpost & Hpre & Hpost & ->).
    inversion Hpost as [|status ? post' ? Hs _]; subst.
    rewrite (worst_prefix _ _ pre) by done. simpl. by rewrite Hs.
  - rewrite <-(app_nil_r statuses). by rewrite (worst_prefix _ _ sts).
Qed.

(** After a revoked status nothing is checked; a failed check ends the loop. *)
Lemma worst_stop (pre post : list CredentialStatus) (status : CredentialStatus)
  (sts : list RevocationState) : Forall2 checked pre sts -> Revoked ∉ sts ->
  (check status details = Ok Revoked ->
   worst_revocation_state check (Ok details) (pre ++ status :: post) Valid = Ok (inr Revoked)) /\
  (forall e, check status details = Err e ->
   worst_revocation_state check (Ok details) (pre ++ status :: post) Valid = Ok (inl e)).
Proof.
  intros Hpre Hn. rewrite (worst_prefix _ _ sts) by done. simpl. by split; [intros ->|intros e ->].
Qed.
End verdict.

Section holder_verdict.
Context {R : Type} `{RevocationMethodProvider R} `{HolderWorld} (session : option Session).

(** A credential whose status lists can be checked. *)
Record checkable (s : Store R) (c : Credential) (schema : CredentialSchema)
  (detail : DetailCredential) (method : RevocationMethodOps R) (details : IdentifierDetails) :
  Prop := {
  chk_found : find_credential (credential_id c) s = Some c;
  chk_session : throw_if_credential_schema_not_in_session_org c session = Ok tt;
  chk_alive : deleted_at c = None;
  chk_role : credential_role c = Holder;
  chk_state : credential_state c = CsAccepted \/ credential_state c = CsSuspended;
  chk_schema : credential_schema c = Some schema;
  chk_detail : load_detail c schema = Ok detail;
  chk_format : format_is_mdoc (schema_format schema) = inr false;
  chk_status : dc_status detail <> [];
  chk_method : exists m, revocation_method schema = Some m /\ get_revocation_method m = Some method;
  chk_issuer : exists issuer, issuer_identifier c = Some issuer /\ issuer_details issuer = Ok details
}.

(** The store after a state was detected: the row is written only when the
    state differs. *)
Definition synced (c : Credential) (st : RevocationState) (s : Store R) : Store R :=
  if decide (credential_state c = credential_state_of st) then s
  else set_credentials (apply_update (credential_id c) (state_request st) <$> credentials s) s.

Lemma holder_check_run (s : Store R) (c : Credential) (schema : CredentialSchema)
  (detail : DetailCredential) (method : RevocationMethodOps R) (details : IdentifierDetails)
  (force : bool) : checkable s c schema detail method details ->
  check_holder_credential_validity session (credential_id c) force s =
    match worst_revocation_state
            (fun status details => op_check method status details (Some c) force)
            (Ok details) (dc_status detail) Valid with
    | Ok (inr worst) =>
        (Ok (mkCheckResult (credential_id c) (credential_state_of worst) true), synced c worst s)
    | Ok (inl _) => (Ok (mkCheckResult (credential_id c) (credential_state c) false), s)
    | Err e => (Err e, s)
    | Panic => (Panic, s)
    end.
Proof.
  intros []. destruct chk_method0 as (m & Hm & Hmethod), chk_issuer0 as (issuer & Hi & Hdet).
  assert (Hrun : check_holder_credential_validity session (credential_id c) force s =
                 check_statuses c schema (dc_status detail) force s).
  { unfold check_holder_credential_validity, get_credential. run_M.
    rewrite chk_found0. simpl. rewrite chk_session0, chk_alive0, chk_role0. simpl.
    rewrite chk_schema0. simpl.
    destruct chk_state0 as [-> | ->]; rewrite chk_detail0, chk_format0; simpl;
      by destruct (dc_status detail). }
  rewrite Hrun. unfold check_statuses. rewrite Hm. run_M.
  rewrite Hmethod, Hi. simpl. rewrite chk_role0, Hdet.
  destruct (worst_revocation_state _ _ _ _) as [[e|worst]|e|]; [done| |done..].
  unfold synced. destruct (decide _); [done|]. by rewrite (update_credential_found _ _ _ c).
Qed.
End holder_verdict.

(** ** Properties *)

(** Every operation on the validity of credentials, and the passing of time. *)
Inductive validity_step {R : Type} `{RevocationMethodProvider R} (s : Store R) : Store R -> Prop :=
| StepReactivate (session : option Session) (id : Z) :
    validity_step s (reactivate_credential session id s).2
| StepSuspend (session : option Session) (id : Z) (date : option Z) :
    validity_step s (suspend_credential session id date s).2
| StepRevoke (session : option Session) (id : Z) :
    validity_step s (revoke_credential session id s).2
| StepDelete (session : option Session) (config : string -> string + unit) (id : Z) :
    validity_step s (delete_credential session config id s).2
| StepSuspendCheck (session : option Session) (any_empty : bool) :
    validity_step s (suspend_check session any_empty s).2
| StepHolderCheck (world : HolderWorld) (session : option Session) (ids : list Z) (force : bool) :
    validity_step s (check_revocation session ids force s).2
| StepTime (now : Z) :
    clock s <= now -> validity_step s (mkStore (credentials s) (revocation s) now).

Lemma validity_step_evolves {R : Type} `{RevocationMethodProvider R} (s s' : Store R) : validity_step s s' -> evolves s s'.
Proof.
  destruct 1; try apply change_state_evolves.
  - apply delete_evolves.
  - apply suspend_check_evolves.
  - apply holder_updates_evolve, check_revocation_writes.
  - intros x cx Hx. exists cx. by split_and!.
Qed.

(** C4: over any sequence of revocations, suspensions, reactivations,
    deletions, runs of the suspension task and holder checks, whether they
    succeed or fail and whatever the outside world answers: a credential stays
    in the table; a revoked credential stays revoked; a credential that was
    never issued keeps its state; and a deleted credential never changes. *)
Theorem credential_lifecycle {R : Type} `{RevocationMethodProvider R} (s s' : Store R) (id : Z)
  (c : Credential) :
  rtc validity_step s s' -> find_credential id s = Some c ->
  exists c', find_credential id s' = Some c' /\
    (credential_state c = CsRevoked -> credential_state c' = CsRevoked) /\
    (credential_state c ∉ [CsAccepted; CsSuspended] -> credential_state c' = credential_state c) /\
    (credential_state c' <> credential_state c ->
       credential_state c' ∈ [CsAccepted; CsSuspended; CsRevoked]) /\
    (deleted_at c <> None -> c' = c).
Proof.
  intros Hsteps Hc. assert (Hev : evolves s s').
  { clear c Hc. induction Hsteps as [|s s1 s2 Hstep _ IH]; [reflexivity|]. etrans; [by apply validity_step_evolves|exact IH]. }
  destruct (Hev id c Hc) as (c' & Hc' & Hl & _ & _ & Hd). exists c'.
  unfold lifecycle in Hl. rewrite !elem_of_cons, !elem_of_nil. intuition congruence.
Qed.


(** The operations that keep the lists and the credentials together: those of
    the issuer when they succeed, deletion and the holder's checks always. *)
Inductive agreeing_step {R : Type} `{RevocationMethodProvider R} (s : Store R) : Store R -> Prop :=
| AgreeChange (session : option Session) (id : Z) (st : RevocationState) (s' : Store R) :
    change_credential_validity_state session id st s = (Ok tt, s') -> agreeing_step s s'
| AgreeDelete (session : option Session) (config : string -> string + unit) (id : Z) :
    agreeing_step s (delete_credential session config id s).2
| AgreeSuspendCheck (session : option Session) (any_empty : bool) (ids : list Z) (s' : Store R) :
    suspend_check session any_empty s = (Ok ids, s') -> agreeing_step s s'
| AgreeHolderCheck (world : HolderWorld) (session : option Session) (ids : list Z) (force : bool) :
    agreeing_step s (check_revocation session ids force s).2
| AgreeTime (now : Z) :
    agreeing_step s (mkStore (credentials s) (revocation s) now).

(** C6: the status lists and the credential table agree: after any sequence of
    successful state changes and runs of the suspension task, deletions and
    holder checks, the list entries of every credential of this issuer have
    the status of the credential's state. *)
Theorem lists_agree {R : Type} `{RevocationMethodLaws R} (s s' : Store R) :
  rtc agreeing_step s s' -> consistent s -> consistent s'.
Proof.
  induction 1 as [|s s1 s2 Hstep _ IH]; [done|]. intros Hcon. apply IH.
  destruct Hstep as [session id st s1 Hrun| |session any_empty ids s1 Hrun| |].
  - by eapply change_state_consistent.
  - by apply delete_consistent.
  - revert Hrun. unfold suspend_check. run_M. destruct (for_each _ _ s) as [[[]|e|] s'] eqn:Hf; [|done..].
    intros [= _ <-]. by eapply for_each_consistent.
  - eapply holder_update_consistent; [|done]. apply check_revocation_writes.
  - done.
Qed.

(** The suspension task reactivates the credentials whose suspension has
    ended, which are the issuer's undeleted suspended credentials with an end
    date in the past, and no other: when it succeeds all of them are accepted
    and have no end date, and their ids are the result. When the change of one
    fails, those before it are reactivated and the rest are as they were. It
    does not panic. *)
Theorem suspend_check_correct {R : Type} `{RevocationMethodLaws R} (session : option Session)
  (any_empty : bool) (s : Store R) : unique_ids s -> rev_inv (revocation s) ->
  let ended := List.filter (due (clock s)) (credentials s) in
  match suspend_check session any_empty s with
  | (Ok ids, s') => ids = credential_id <$> ended /\
      credentials s' = (fun c => if due (clock s) c then reactivated c else c) <$> credentials s
  | (Err _, s') => exists pre post, ended = pre ++ post /\ post <> [] /\
      credentials s' = (fun c => if bool_decide (credential_id c ∈ (credential_id <$> pre))
                                 then reactivated c else c) <$> credentials s
  | (Panic, _) => False
  end.
Proof.
  intros Hu Hinv ended. unfold suspend_check. run_M. rewrite suspend_filter_due. fold ended.
  pose proof (reactivation_loop session ended s Hinv) as Hl.
  destruct (for_each _ ended s) as [[[]|e|] s']; [|done|done].
  split; [done|]. rewrite Hl. apply list_fmap_ext. intros i c Hc. unfold reactivate_ids.
  assert (Hc' : c ∈ credentials s) by (by eapply list_elem_of_lookup_2).
  assert (Hiff : credential_id c ∈ credential_id <$> ended <-> due (clock s) c = true).
  { rewrite list_elem_of_fmap. split.
    - intros (c2 & Hid & [Hin Hdue]%list_elem_of_In%List.filter_In).
      apply list_elem_of_In, find_credential_unique in Hin; [|done].
      apply find_credential_unique in Hc'; [|done]. rewrite Hid in Hc'. by simplify_eq.
    - intros Hdue. exists c. split; [done|]. by apply list_elem_of_In, List.filter_In, conj;
        [apply list_elem_of_In|]. }
  destruct (due (clock s) c).
  - by rewrite bool_decide_eq_true_2 by (by apply Hiff).
  - by rewrite bool_decide_eq_false_2 by (by intros ?%Hiff).
Qed.

(** The holder's check of a credential with status lists. If all lists can
    be read, the credential's state becomes the worst of their answers
    (revoked, else suspended, else valid), and this is the result. A revoked
    answer decides even when a later list cannot be read. If a list cannot be
    read before that, the check reports failure with the state as it was and
    changes nothing. *)
Theorem holder_check_correct {R : Type} `{RevocationMethodProvider R} `{HolderWorld}
  (session : option Session) (s : Store R) (c : Credential) (schema : CredentialSchema)
  (detail : DetailCredential) (method : RevocationMethodOps R) (details : IdentifierDetails)
  (force : bool) : checkable session s c schema detail method details ->
  let answer status := op_check method status details (Some c) force in
  let check := check_holder_credential_validity session (credential_id c) force s in
  (forall sts, Forall2 (fun status st => answer status = Ok st) (dc_status detail) sts ->
     check = (Ok (mkCheckResult (credential_id c) (credential_state_of (worst_of sts)) true),
              synced c (worst_of sts) s)) /\
  (forall pre status post sts, dc_status detail = pre ++ status :: post ->
     Forall2 (fun status st => answer status = Ok st) pre sts -> Revoked ∉ sts ->
     (answer status = Ok Revoked ->
        check = (Ok (mkCheckResult (credential_id c) CsRevoked true), synced c Revoked s)) /\
     (forall e, answer status = Err e ->
        check = (Ok (mkCheckResult (credential_id c) (credential_state c) false), s))).
Proof.
  intros Hchk answer check. unfold check.
  rewrite (holder_check_run session s c schema detail method details force Hchk). split.
  - intros sts Hall. by rewrite (worst_all _ _ _ sts).
  - intros pre status post sts -> Hpre Hn.
    destruct (worst_stop (fun status details => op_check method status details (Some c) force) details
                pre post status sts Hpre Hn) as [Hrev Herr].
    split; [intros Ha; by rewrite Hrev|intros e Ha; by rewrite (Herr e)].
Qed.

(** ** Witnesses *)

Module ValidityWitness.
(** A revocation method that keeps the status of each credential. *)
Definition Statuses : Type := gmap Z RevocationListEntryStatus.

Definition mark (c : Credential) (st : RevocationState) : M Statuses RevocationError unit :=
  fun r => (Ok tt, <[credential_id c := entry_status_of st]> r).

(** The answer for a status is in its type. *)
Definition ops : RevocationMethodOps Statuses :=
  mkMethodOps Statuses mark (fun status _ _ _ =>
    if decide (cst_type status = "revoked"%string) then Ok Revoked
    else if decide (cst_type status = "suspended"%string) then Ok (Suspended (Some 9))
    else if decide (cst_type status = "unreachable"%string) then Err JsonError
    else Ok Valid).

#[export] Instance methods : RevocationMethodProvider Statuses := {
  get_revocation_method := fun id => if decide (id = "LIST"%string) then Some ops else None
}.

#[export] Instance methods_laws : RevocationMethodLaws Statuses.
Proof.
  refine {| rev_inv := fun _ => True;
            rev_status := fun r c st => r !! c = Some st |}.
  intros id method c st r Hm _. simpl in Hm. case_decide; [|done]. injection Hm as <-. simpl.
  split_and!; [done|apply lookup_insert_eq|]. intros c' st' Hne Hc'. etrans; [|exact Hc'].
  by apply lookup_insert_ne.
Defined.

Definition schema : CredentialSchema := mkCredentialSchema 1 true (Some "LIST"%string) (Some 7) "JWT".
Definition issuer : Identifier := RepoWitness.issuer.
Definition credential (id : Z) (role : CredentialRole) (st : CredentialStateEnum) (date : option Z) :
  Credential := mkCredential id None role st date None (Some issuer) None (Some schema).

Definition store : Store Statuses :=
  mkStore [credential 1 Issuer CsSuspended (Some 5); credential 2 Issuer CsSuspended None;
           credential 3 Issuer CsAccepted None; credential 4 Holder CsAccepted None]
    {[1 := EntrySuspended; 2 := EntrySuspended; 3 := EntryActive]} 10.

Lemma store_consistent : consistent store.
Proof.
  split_and!; [done| |].
  - unfold unique_ids. vm_compute. repeat constructor; set_solver.
  - intros c st Hc. rewrite list_elem_of_In in Hc. simpl in Hc.
    destruct Hc as [<-|[<-|[<-|[<-|[]]]]]; simpl; intros ? [= <-]; try done; reflexivity.
Qed.

Definition status (type : string) : CredentialStatus := mkCredentialStatus None type None ∅.
Definition detail : DetailCredential :=
  mkDetailCredential [status "suspended"; status "valid"; status "revoked"; status "unreachable"]
    None None.

#[export] Instance world : HolderWorld := {
  get_blob := fun _ => inl "BR_0000"%string;
  blob_from_utf8 := fun _ => Some ""%string;
  get_holder_formatter := fun _ => Some tt;
  extract_unverified := fun _ _ => inr detail;
  format_is_mdoc := fun _ => inr false;
  interaction_data := fun _ => inr tt;
  encryption_key := fun _ => inr tt;
  check_access_token := fun _ => inr RefreshNotPossible;
  obtain_new_mso := fun _ => inl "BR_0000"%string
}.

Definition held : Credential := credential 4 Holder CsAccepted None.

Lemma held_checkable : checkable None store held schema detail ops (IdDid "did:key:issuer").
Proof.
  split; try reflexivity; try done; [by left|..].
  - by exists "LIST"%string.
  - by exists issuer.
Qed.
End ValidityWitness.
Import ValidityWitness.

Lemma credential_lifecycle_witness :
  let s' := (reactivate_credential None 3 (revoke_credential None 3 ValidityWitness.store).2).2 in
  exists c', find_credential 3 s' = Some c' /\ credential_state c' = CsRevoked.
Proof.
  intros s'. set (s1 := (revoke_credential None 3 ValidityWitness.store).2).
  destruct (find_credential 3 s1) as [c|] eqn:Hc; [|vm_compute in Hc; discriminate].
  assert (Hsteps : rtc validity_step s1 s').
  { apply rtc_once. apply (StepReactivate s1 None 3). }
  destruct (credential_lifecycle s1 s' 3 c Hsteps Hc) as (c' & Hc' & Hrev & _). exists c'.
  split; [exact Hc'|]. apply Hrev. vm_compute in Hc. injection Hc as <-. reflexivity.
Defined.


Lemma lists_agree_witness :
  consistent (revoke_credential None 3 ValidityWitness.store).2 /\
  consistent (suspend_check None false ValidityWitness.store).2.
Proof.
  split; (eapply lists_agree; [|exact ValidityWitness.store_consistent]); apply rtc_once.
  - eapply (AgreeChange _ None 3 Revoked). vm_compute. reflexivity.
  - eapply (AgreeSuspendCheck _ None false [1]). vm_compute. reflexivity.
Defined.

Lemma suspend_check_correct_witness :
  let s' := (suspend_check None false ValidityWitness.store).2 in
  credentials s' = (fun c => if due 10 c then reactivated c else c)
                     <$> credentials ValidityWitness.store /\
  credential_state <$> credentials s' = [CsAccepted; CsSuspended; CsAccepted; CsAccepted].
Proof.
  intros s'. split; [|vm_compute; reflexivity].
  pose proof (suspend_check_correct None false ValidityWitness.store
                (proj1 (proj2 ValidityWitness.store_consistent)) I) as Hs.
  unfold s'. destruct (suspend_check None false ValidityWitness.store) as [[ids|e|] s1] eqn:Hrun.
  - exact (proj2 Hs).
  - vm_compute in Hrun. discriminate.
  - destruct Hs.
Defined.

(** The revoked list decides, although the last one cannot be read. *)
Lemma holder_check_correct_witness :
  check_holder_credential_validity None 4 false ValidityWitness.store =
    (Ok (mkCheckResult 4 CsRevoked true),
     synced ValidityWitness.held Revoked ValidityWitness.store).
Proof.
  destruct (holder_check_correct None ValidityWitness.store ValidityWitness.held ValidityWitness.schema
              ValidityWitness.detail ValidityWitness.ops (IdDid "did:key:issuer") false
              ValidityWitness.held_checkable) as [_ Hstop].
  refine (proj1 (Hstop [ValidityWitness.status "suspended"; ValidityWitness.status "valid"]
                   (ValidityWitness.status "revoked") [ValidityWitness.status "unreachable"]
                   [Suspended (Some 9); Valid] eq_refl _ _) eq_refl).
  - repeat constructor.
  - set_solver.
Defined.
