(* ===== verification/StatusMethods.v ===== *)
(** * The status list methods behind the credential service

    [RevocationMethodProvider] maps the revocation method of a schema to a
    bitstring or a token status list method. Both work on the same revocation
    list tables. This file shows that they keep the promise
    [RevocationMethodLaws] on which the theorems about the credential service
    rest, so that these theorems hold of the service that is put together from
    the modelled parts. *)

From S2P Require Import Prelude StatusBits KeySelection RevocationRepo RevocationMethod.
From S2P Require Import BitstringMethod TokenMethod ListFilter Validity.
#[local] Open Scope Z_scope.

(** ** The provider *)

(** A configured method. *)
Inductive StatusMethod :=
| Bitstring (self : BitstringStatusList)
| Token (self : TokenStatusList).

Section provider.
Context `{UuidSupply} `{SP : StatusProviders} `{X509} `{BV : BitVec V} `{StatusCodec}
  `{!StatusListReader} `{TokenListReader} (configured : string -> option StatusMethod).

Definition method_ops (m : StatusMethod) : RevocationMethodOps Db :=
  match m with
  | Bitstring self =>
      mkMethodOps Db (mark_credential_as (V := V) self)
        (fun status _ _ force_refresh =>
           check_credential_revocation_status (V := V) status force_refresh)
  | Token self =>
      mkMethodOps Db (token_mark_credential_as (V := V) self)
        (fun status details _ force_refresh =>
           token_check_credential_revocation_status (V := V) status details force_refresh)
  end.

(** [get_revocation_method] on the methods of the configuration. *)
Definition status_methods : RevocationMethodProvider Db :=
  {| get_revocation_method := fun id => method_ops <$> configured id |}.
End provider.

(** ** What a state change leaves alone *)

(** Only entries of the credential [c] differ, and no entry moves. *)
Definition touches (c : Z) (d d' : Db) : Prop :=
  exists f, entries d' = f <$> entries d /\
    forall e, same_slot e (f e) /\ (e_credential_id e <> Some c -> f e = e).

#[export] Instance touches_preorder (c : Z) : PreOrder (touches c).
Proof.
  split.
  - intros d. exists id. rewrite list_fmap_id. by split_and!.
  - intros d1 d2 d3 (f & Hf & Hfe) (g & Hg & Hge). exists (g ∘ f).
    rewrite Hg, Hf, <-list_fmap_compose. split; [done|]. intros e. simpl.
    destruct (Hfe e) as [Hs He]. destruct (Hge (f e)) as [Hs' He'].
    split; [unfold same_slot in *; intuition congruence|].
    intros Hc. rewrite He' by (rewrite (He Hc); done). auto.
Qed.

Lemma same_entries_touches (c : Z) (d d' : Db) : entries d' = entries d -> touches c d d'.
Proof. intros He. exists id. rewrite list_fmap_id. by split_and!. Qed.

Section frames.
Context `{UuidSupply} (c : Z).

Lemma update_entry_touches (st : option RevocationListEntryStatus) :
  preserves (touches c) (update_entry (UpdateCredentialEntry c) st).
Proof.
  intros d. eexists. split; [reflexivity|]. intros e. simpl. case_bool_decide; by split_and!.
Qed.

Lemma update_formatted_touches (lid : Z) (content : string) :
  preserves (touches c) (update_formatted_list lid content).
Proof.
  intros d. apply same_entries_touches. unfold update_formatted_list. run_M.
  by destruct (find_list lid d).
Qed.

Lemma get_entries_touches (lid : Z) : preserves (touches c) (get_entries lid).
Proof. intros d. by apply same_entries_touches. Qed.

Lemma lookup_touches (issuer : Z) (cert : option Z) (p : RevocationListPurpose) (type : string) :
  preserves (touches c)
    (get_revocation_by_issuer_identifier_id issuer cert p type no_relations).
Proof.
  intros d. apply same_entries_touches.
  unfold get_revocation_by_issuer_identifier_id, entity_model_to_repository_model. run_M.
  by destruct (find_first _ _).
Qed.
End frames.

#[export] Hint Resolve update_entry_touches update_formatted_touches get_entries_touches
  lookup_touches : core_db.

(** Follow the binds of a method. *)
Ltac frame_M :=
  repeat first
    [ progress intros
    | solve [auto with core_db]
    | apply preserves_map_err
    | apply preserves_lift; apply _
    | apply preserves_bind; [apply _| |] ].

Section laws.
Context `{UuidSupply} `{!UuidLaws} `{SP : StatusProviders} `{X509}.
Context `{BV : BitVec V} `{!BitVecLaws V} `{SC : StatusCodec} `{!StatusCodecLaws}.
Context `{!StatusListReader} `{TokenListReader} (configured : string -> option StatusMethod).

Lemma mark_touches (self : BitstringStatusList) (c : Credential) (st : RevocationState) :
  preserves (touches (credential_id c)) (mark_credential_as (V := V) self c st).
Proof. unfold mark_credential_as. frame_M. Qed.

Lemma token_mark_touches (self : TokenStatusList) (c : Credential) (st : RevocationState) :
  preserves (touches (credential_id c)) (token_mark_credential_as (V := V) self c st).
Proof. unfold token_mark_credential_as, token_lookup, republish. frame_M. Qed.

(** The tables are well formed and every list can be published. *)
Definition lists_inv (d : Db) : Prop := wf d /\ forall l, room (len (indices l d)).

(** Every entry of the credential has the status. *)
Definition entries_status (d : Db) (c : Z) (st : RevocationListEntryStatus) : Prop :=
  forall e, e ∈ entries d -> e_credential_id e = Some c -> e_status e = st.

Lemma touches_indices (c : Z) (d d' : Db) (l : Z) : touches c d d' -> indices l d' = indices l d.
Proof.
  intros (f & He & Hf). unfold indices, entries_of. rewrite He. clear He.
  induction (entries d) as [|e es IH]; [done|]. rewrite fmap_cons. simpl.
  destruct (Hf e) as [(_ & Hl & Hi & _) _]. rewrite Hl. destruct (e_list_id e =? l); simpl; [|done].
  rewrite Hi. destruct (e_index e); [f_equal|]; exact IH.
Qed.

Lemma touches_others (c : Z) (d d' : Db) (c' : Z) (st : RevocationListEntryStatus) :
  touches c d d' -> c' <> c -> entries_status d c' st -> entries_status d' c' st.
Proof.
  intros (f & He & Hf) Hne Hst e'. rewrite He. intros (e & -> & Hin)%list_elem_of_fmap Hc.
  destruct (Hf e) as [(_ & _ & _ & Hcr) Hid]. rewrite Hcr in Hc.
  rewrite Hid by congruence. by apply Hst.
Qed.

Lemma marked_entries_status (c : Credential) (st : RevocationState) (d d' : Db) (m : StatusMethod) :
  lists_inv d -> op_mark (method_ops (V := V) m) c st d = (Ok tt, d') ->
  entries_status d' (credential_id c) (entry_status_of st).
Proof.
  intros [Hwf Hroom]. destruct m as [self|self]; simpl; intros Hrun e.
  - pose proof (mark_spec (V := V) self c st d Hwf) as Hm. rewrite Hrun in Hm.
    destruct Hm as (_ & issuer & lid & row & f & enc & alg & auth & url & Hm). destruct_and! Hm.
    match goal with H : entries d' = _ |- _ => rewrite H end.
    intros (e0 & -> & _)%list_elem_of_fmap. simpl. case_bool_decide; [done|]. done.
  - pose proof (token_mark_spec (V := V) self c st d Hwf Hroom) as Hm. rewrite Hrun in Hm.
    destruct Hm as (_ & (f & He & Hf) & _). rewrite He.
    intros (e0 & -> & _)%list_elem_of_fmap Hc. destruct (Hf e0) as ((_ & _ & _ & Hcr) & HP & _).
    apply HP. congruence.
Qed.

Lemma method_keeps (c : Credential) (st : RevocationState) (d : Db) (m : StatusMethod) :
  lists_inv d ->
  match op_mark (method_ops (V := V) m) c st d with
  | (Panic, _) => False
  | (_, d') => wf d' /\ touches (credential_id c) d d'
  end.
Proof.
  intros [Hwf Hroom]. destruct m as [self|self]; simpl.
  - pose proof (mark_spec (V := V) self c st d Hwf) as Hm.
    pose proof (mark_touches self c st d) as Ht.
    destruct (mark_credential_as self c st d) as [[[]|e|] d']; naive_solver.
  - pose proof (token_mark_spec (V := V) self c st d Hwf Hroom) as Hm.
    pose proof (token_mark_touches self c st d) as Ht. unfold keeps in Hm.
    destruct (token_mark_credential_as self c st d) as [[[]|e|] d']; naive_solver.
Qed.

(** The promise is kept. *)
#[export] Instance status_methods_laws :
  @RevocationMethodLaws Db (status_methods (V := V) configured).
Proof.
  refine (Build_RevocationMethodLaws Db (status_methods (V := V) configured) lists_inv
            entries_status _).
  intros id method c st d Hm Hinv. simpl in Hm. destruct (configured id) as [m|]; [|done].
  injection Hm as <-. pose proof (method_keeps c st d m Hinv) as Hk.
  pose proof (marked_entries_status c st d) as Hmark.
  destruct (op_mark (method_ops m) c st d) as [[[]|e|] d'] eqn:Hrun; [| |done].
  all: destruct Hk as [Hwf Ht]; split; [split; [done|]; intros l;
         rewrite (touches_indices _ _ _ _ Ht); apply Hinv|].
  - split; [by eapply Hmark|]. intros c' st'. by apply touches_others.
  - intros c' st'. by apply touches_others.
Qed.
End laws.

(** ** From the issuer to the holder *)

Section end_to_end.
Context `{UuidSupply} `{!UuidLaws} `{SP : StatusProviders} `{X509}.
Context `{BV : BitVec V} `{!BitVecLaws V} `{SC : StatusCodec} `{!StatusCodecLaws}.
Context `{!StatusListReader} `{TR : TokenListReader} `{!TokenListReaderLaws} `{HolderWorld}.
Context (configured : string -> option StatusMethod).

#[local] Instance configured_methods : RevocationMethodProvider Db :=
  status_methods (V := V) configured.

(** A successful state change runs the method of the schema. *)
Lemma change_state_marks (session : option Session) (id : Z) (st : RevocationState)
  (s s' : Store Db) (c : Credential) (schema : CredentialSchema) (method_id : string)
  (m : StatusMethod) : find_credential id s = Some c -> credential_schema c = Some schema ->
  revocation_method schema = Some method_id -> configured method_id = Some m ->
  change_credential_validity_state session id st s = (Ok tt, s') ->
  op_mark (method_ops (V := V) m) c st (revocation s) = (Ok tt, revocation s').
Proof.
  intros Hc Hs Hm Hcfg. rewrite change_state_guards, Hc.
  destruct (guards session c id st) as [method|e|] eqn:Hg; [|done..].
  assert (method = method_ops m) as ->.
  { unfold guards in Hg. rewrite Hs in Hg. apply res_bind_ok in Hg as ([] & _ & Hg). simpl in Hg.
    apply res_bind_ok in Hg as ([] & _ & Hg). rewrite Hm in Hg. simpl in Hg.
    do 2 apply res_bind_ok in Hg as ([] & _ & Hg). rewrite Hcfg in Hg. by injection Hg. }
  unfold on_revocation. run_M. destruct (op_mark (method_ops m) c st (revocation s)) as [[[]|e|] d'];
    [|done..]. simpl. unfold update_credential. destruct (find_credential id _); [|done].
  by intros [= <-].
Qed.

(** The check of a status that refers to an entry of the credential, with the
    list that the issuer has published, gives the state that was set. *)
Lemma change_reaches_list (session : option Session) (id : Z) (st : RevocationState) (s s' : Store Db) (c : Credential)
  (schema : CredentialSchema) (method_id : string) (self : TokenStatusList) :
  lists_inv (revocation s) -> find_credential id s = Some c -> credential_schema c = Some schema ->
  revocation_method schema = Some method_id -> configured method_id = Some (Token self) ->
  change_credential_validity_state session id st s = (Ok tt, s') ->
  exists issuer lid row, issuer_identifier c = Some issuer /\ find_list lid (revocation s') = Some row /\
    forall (details : IdentifierDetails) (status : CredentialStatus) (e : EntryRow) (i : Z) (force : bool) (url : string),
      token_refers self status lid i -> e ∈ entries (revocation s') -> e_list_id e = lid -> e_index e = Some i ->
      e_credential_id e = Some id -> known_issuer issuer details ->
      get_revocation_list_url lid (ts_core_base_url self) = Ok url -> token_serves url force (rl_formatted_list row) ->
      token_check_credential_revocation_status (V := V) status details force = Ok (read_state (entry_status_of st)).
Proof.
  intros Hinv Hc Hs Hm Hcfg Hrun.
  pose proof (change_state_marks session id st s s' c schema method_id (Token self) Hc Hs Hm Hcfg
                Hrun) as Hmark.
  pose proof (marked_entries_status c st _ _ (Token self) Hinv Hmark) as Hst.
  pose proof (token_mark_spec (V := V) self c st (revocation s) (proj1 Hinv) (proj2 Hinv)) as Hspec.
  simpl in Hmark. rewrite Hmark in Hspec.
  destruct Hspec as ((Hwf' & _) & _ & issuer & cert & lid & row & Hi & _ & Hrow & _ & Hpub).
  exists issuer, lid, row. split_and!; [done..|].
  intros details status e i force url Href He Hl Hix Hcred Hkn Hurl Hserve.
  apply find_credential_Some in Hc as [_ Hid]. eapply (token_check_spec self issuer lid i (revocation s')); try done.
  exists e. rewrite <-Hid in Hcred. split_and!; try done. by apply Hst.
Qed.

Lemma read_entry_status (st : RevocationState) :
  credential_state_of (read_state (entry_status_of st)) = credential_state_of st.
Proof. by destruct st. Qed.

End end_to_end.

(** ** Witnesses *)

Import RepoWitness Concrete TokenWitness.
Module ServiceWitness.
Definition configured (id : string) : option StatusMethod :=
  if decide (id = "TOKEN"%string) then Some (Token TokenWitness.self) else None.

Definition schema : CredentialSchema := mkCredentialSchema 1 true (Some "TOKEN"%string) (Some 7) "JWT".
Definition issued : Credential :=
  mkCredential 50 None Issuer CsAccepted None None (Some RepoWitness.issuer) None (Some schema).
Definition held : Credential :=
  mkCredential 60 None Holder CsAccepted None None (Some RepoWitness.issuer) None (Some schema).
Definition detail : DetailCredential := mkDetailCredential [status_0] None None.

#[export] Instance bitstring_reader : StatusListReader := {|
  load_list _ _ := inl "BR_0000"%string;
  parse_cache_entry _ := None;
  from_utf8 _ := None;
  vcdm_cryptosuite _ := None;
  extract_claims _ _ := inl "BR_0000"%string
|}.

Definition service : Store Db := mkStore [issued] TokenWitness.db_issued 10.
Definition wallet : Store Db := mkStore [held] RepoWitness.db 10.

(** The method with a web that serves the list [list]. *)
Definition ops_at (list : string) : RevocationMethodOps Db :=
  @method_ops uuids providers x509 vec vec_BitVec codec bitstring_reader (reader list)
    (Token TokenWitness.self).
Lemma op_mark_at (list list' : string) : op_mark (ops_at list) = op_mark (ops_at list').
Proof. reflexivity. Qed.

(** The issuer's tables after the suspension, and the list it published. *)
Definition after : Db := (op_mark (ops_at "") issued (Suspended None) (revocation service)).2.
Definition published : string :=
  match find_list 1 after with Some row => rl_formatted_list row | None => "" end.
Definition token_reader : TokenListReader := reader published.

#[export] Instance world : HolderWorld := {
  get_blob := fun _ => inl "BR_0000"%string;
  blob_from_utf8 := fun _ => Some ""%string;
  get_holder_formatter := fun _ => Some tt;
  extract_unverified := fun _ _ => inr detail;
  format_is_mdoc := fun _ => inr false;
  interaction_data := fun _ => inr tt;
  encryption_key := fun _ => inr tt;
  check_access_token := fun _ => inr RefreshNotPossible;
  obtain_new_mso := fun _ => inl "BR_0000"%string
}.

Definition methods : RevocationMethodProvider Db :=
  @status_methods uuids providers x509 vec vec_BitVec codec bitstring_reader token_reader configured.
Definition ops : RevocationMethodOps Db := ops_at published.

Lemma wallet_checkable :
  @checkable Db methods world None wallet held schema detail ops (IdDid "did:key:issuer").
Proof.
  split; try reflexivity; try done; [by left|..].
  - by exists "TOKEN"%string.
  - by exists RepoWitness.issuer.
Qed.

Lemma suspended :
  exists s', @change_credential_validity_state Db methods None 50 (Suspended None) service
               = (Ok tt, s') /\ revocation s' = after.
Proof.
  assert (Hok : is_ok (@change_credential_validity_state Db methods None 50 (Suspended None)
                         service).1 = true) by (vm_compute; reflexivity).
  destruct (@change_credential_validity_state Db methods None 50 (Suspended None) service)
    as [[[]|e|] s'] eqn:Hrun; [|discriminate Hok..].
  exists s'. split; [reflexivity|].
  pose proof (@change_state_marks uuids providers x509 vec vec_BitVec codec bitstring_reader
    token_reader configured None 50 (Suspended None) service s' issued schema "TOKEN"%string
    (Token TokenWitness.self) eq_refl eq_refl eq_refl eq_refl Hrun
    : op_mark (ops_at published) issued (Suspended None) (revocation service)
      = (Ok tt, revocation s')) as Hmark.
  unfold after. rewrite (op_mark_at "" published), Hmark. reflexivity.
Qed.

Lemma after_lists : rl_id <$> lists after = [1].
Proof. vm_compute. reflexivity. Qed.
Lemma after_entries : entries after =
  [mkEntryRow 2 1000 1000 1 (Some 0) (Some 50) EtCredential None EntrySuspended None].
Proof. vm_compute. reflexivity. Qed.
End ServiceWitness.

