(* ===== verification/Paths.v ===== *)
(** * Claim paths

    Claims are addressed by paths of segments that are separated by [/]
    ([NESTED_CLAIM_MARKER]). This file models the string operations the code
    uses on them ([str::split], [str::rsplit_once], [str::split_once],
    [str::starts_with], [slice::join]) and has the lemmas on parents and
    prefixes of paths. *)

From S2P Require Import Prelude.
From Stdlib Require Import Ascii String.
#[local] Notation length := Datatypes.length.
#[local] Open Scope nat_scope.
#[local] Arguments String.append !_ _ / : simpl nomatch.

(** ** Operations *)

Definition marker : ascii := "/"%char.
Definition marker_str : string := String marker EmptyString.

(** [s.split(c)]. *)
Fixpoint split_on (c : ascii) (s : string) : list string :=
  match s with
  | EmptyString => [EmptyString]
  | String a s =>
      if Ascii.eqb a c then EmptyString :: split_on c s
      else match split_on c s with
           | [] => [String a EmptyString]
           | x :: xs => String a x :: xs
           end
  end.

(** [s.split_once(c)] and [s.rsplit_once(c)]. *)
Fixpoint split_once (c : ascii) (s : string) : option (string * string) :=
  match s with
  | EmptyString => None
  | String a s =>
      if Ascii.eqb a c then Some (EmptyString, s)
      else match split_once c s with Some (p, q) => Some (String a p, q) | None => None end
  end.

Fixpoint rsplit_once (c : ascii) (s : string) : option (string * string) :=
  match s with
  | EmptyString => None
  | String a s =>
      match rsplit_once c s with
      | Some (p, q) => Some (String a p, q)
      | None => if Ascii.eqb a c then Some (EmptyString, s) else None
      end
  end.

(** [segments.join("/")]. *)
Fixpoint join_path (l : list string) : string :=
  match l with
  | [] => EmptyString
  | [x] => x
  | x :: l => (x ++ marker_str ++ join_path l)%string
  end.

(** [s.contains(c)], as the number of occurrences, and [s.starts_with(p)]. *)
Fixpoint count_char (c : ascii) (s : string) : nat :=
  match s with
  | EmptyString => 0
  | String a s => (if Ascii.eqb a c then 1 else 0) + count_char c s
  end.

Definition starts_with (p s : string) : bool := String.prefix p s.

(** The nesting depth of a path. *)
Definition depth (s : string) : nat := count_char marker s.

(** ** Lemmas *)

Lemma str_app_assoc (a b c : string) : ((a ++ b) ++ c = a ++ b ++ c)%string.
Proof. induction a as [|x a IH]; simpl; [done|]. f_equal. exact IH. Qed.

Lemma str_app_nil (a : string) : (a ++ "" = a)%string.
Proof. induction a as [|x a IH]; simpl; [done|]. f_equal. exact IH. Qed.

Lemma count_char_app (c : ascii) (a b : string) :
  count_char c (a ++ b)%string = count_char c a + count_char c b.
Proof. induction a as [|x a IH]; simpl; [done|]. rewrite IH. lia. Qed.

Lemma rsplit_once_None (c : ascii) (s : string) : rsplit_once c s = None <-> count_char c s = 0.
Proof.
  induction s as [|a s IH]; simpl; [done|]. destruct (rsplit_once c s) as [[p q]|].
  - split; [done|]. intros H. assert (count_char c s = 0) as Hs by lia. apply IH in Hs. done.
  - destruct IH as [IH _]. rewrite (IH eq_refl). destruct (Ascii.eqb a c); split; (done || lia).
Qed.

Lemma rsplit_once_Some (c : ascii) (s p q : string) :
  rsplit_once c s = Some (p, q) -> s = (p ++ String c q)%string /\ count_char c q = 0.
Proof.
  revert p q. induction s as [|a s IH]; simpl; [done|]. intros p q.
  destruct (rsplit_once c s) as [[p0 q0]|] eqn:Hs.
  - intros [= <- <-]. destruct (IH p0 q0 eq_refl) as [-> Hq]. done.
  - destruct (Ascii.eqb_spec a c) as [->|]; [|done]. intros [= <- <-].
    split; [done|]. by apply rsplit_once_None.
Qed.

(** The parent of a path is one level up. *)
Lemma parent_depth (s p q : string) : rsplit_once marker s = Some (p, q) -> depth s = S (depth p).
Proof.
  intros [-> Hq]%rsplit_once_Some. unfold depth. rewrite count_char_app. simpl. rewrite Hq. lia.
Qed.

Lemma parent_shorter (c : ascii) (s p q : string) : rsplit_once c s = Some (p, q) ->
  String.length p < String.length s.
Proof.
  intros [-> _]%rsplit_once_Some. induction p as [|a p IH]; simpl in *; lia.
Qed.

Lemma starts_with_app (p s : string) : starts_with p (p ++ s)%string = true.
Proof.
  unfold starts_with. induction p as [|a p IH]; simpl; [by destruct s|].
  by destruct (ascii_dec a a).
Qed.

Lemma starts_with_spec (p s : string) :
  starts_with p s = true <-> exists r, s = (p ++ r)%string.
Proof.
  split; [|intros [r ->]; apply starts_with_app].
  unfold starts_with. revert s. induction p as [|a p IH]; intros s; simpl; [by eauto|].
  destruct s as [|b s]; simpl; [done|]. destruct (ascii_dec a b) as [->|]; [|done].
  intros [r ->]%IH. by exists r.
Qed.

Lemma join_path_cons (x : string) (l : list string) : l <> [] ->
  join_path (x :: l) = (x ++ marker_str ++ join_path l)%string.
Proof. by destruct l. Qed.

Lemma split_on_nonempty (c : ascii) (s : string) : split_on c s <> [].
Proof. destruct s as [|a s]; simpl; [done|]. destruct (Ascii.eqb a c); [done|]. by destruct (split_on c s). Qed.

(** [join] undoes [split]. *)
Lemma join_split (s : string) : join_path (split_on marker s) = s.
Proof.
  induction s as [|a s IH]; [done|]. cbn [split_on].
  pose proof (split_on_nonempty marker s) as Hne.
  destruct (Ascii.eqb_spec a marker) as [->|Hne'].
  - rewrite join_path_cons by done. by rewrite IH.
  - destruct (split_on marker s) as [|x [|y xs]] eqn:Hs; [done| |].
    + simpl in *. by rewrite IH.
    + rewrite join_path_cons in * by done. simpl in *. by rewrite <-IH.
Qed.

Lemma split_length (s : string) : length (split_on marker s) = S (depth s).
Proof.
  unfold depth. induction s as [|a s IH]; [done|]. simpl.
  destruct (Ascii.eqb a marker); simpl; [by rewrite IH|].
  destruct (split_on marker s) as [|x xs]; simpl in *; lia.
Qed.

Lemma split_app (a b : string) :
  split_on marker (a ++ String marker b)%string = split_on marker a ++ split_on marker b.
Proof.
  induction a as [|x a IH]; [done|]. simpl. rewrite IH.
  pose proof (split_on_nonempty marker a) as Hne.
  destruct (Ascii.eqb x marker); [done|]. by destruct (split_on marker a).
Qed.

Lemma split_plain (s : string) : depth s = 0 -> split_on marker s = [s].
Proof.
  unfold depth. induction s as [|a s IH]; [done|]. simpl.
  destruct (Ascii.eqb a marker); [lia|]. intros H. rewrite IH by lia. done.
Qed.

(** The parent drops the last segment. *)
Lemma split_parent (s p q : string) : rsplit_once marker s = Some (p, q) ->
  split_on marker s = split_on marker p ++ [q].
Proof. intros [-> Hq]%rsplit_once_Some. rewrite split_app. f_equal. by apply split_plain. Qed.

Lemma split_snoc_inv (s x : string) (l : list string) : split_on marker s = l ++ [x] -> l <> [] ->
  rsplit_once marker s = Some (join_path l, x).
Proof.
  intros Hs Hl. destruct (rsplit_once marker s) as [[p q]|] eqn:Hp.
  - apply split_parent in Hp. rewrite Hs in Hp. apply app_inj_tail in Hp as [-> ->]. by rewrite join_split.
  - exfalso. rewrite split_plain in Hs by (by apply rsplit_once_None). by destruct l as [|? [|? ?]].
Qed.

Lemma split_segments_plain (s x : string) : x ∈ split_on marker s -> depth x = 0.
Proof.
  unfold depth. revert x. induction s as [|a s IH]; intros x; simpl.
  - intros ->%list_elem_of_singleton. done.
  - destruct (Ascii.eqb a marker) eqn:Ha.
    + intros [->|Hx]%elem_of_cons; [done|]. by apply IH.
    + pose proof (split_on_nonempty marker s). destruct (split_on marker s) as [|y l]; [done|].
      intros [->|Hx]%elem_of_cons; [simpl; rewrite Ha; apply IH; left|]. apply IH. by right.
Qed.

(** [split] undoes [join] on segments without markers. *)
Lemma split_join (l : list string) : l <> [] -> (forall x, x ∈ l -> depth x = 0) ->
  split_on marker (join_path l) = l.
Proof.
  induction l as [|x l IH]; intros Hne Hl; [done|]. destruct l as [|y l].
  - cbn [join_path]. apply split_plain, Hl. left.
  - rewrite join_path_cons by done. change (marker_str ++ join_path (y :: l))%string with (String marker (join_path (y :: l))).
    rewrite split_app, IH by (done || intros; apply Hl; by right). rewrite split_plain by (apply Hl; left). done.
Qed.

(** A path from its parent and its last segment. *)
Lemma rsplit_join (p q : string) : depth q = 0 ->
  rsplit_once marker (p ++ String marker q)%string = Some (p, q).
Proof.
  intros Hq. rewrite (split_snoc_inv _ q (split_on marker p)), join_split; [done| |apply split_on_nonempty].
  rewrite split_app. f_equal. by apply split_plain.
Qed.

(** ** Ancestors *)

(** [p] is a proper ancestor of [s]. *)
Inductive ancestor (p : string) : string -> Prop :=
| AncParent (s q : string) : rsplit_once marker s = Some (p, q) -> ancestor p s
| AncStep (s m q : string) : rsplit_once marker s = Some (m, q) -> ancestor p m -> ancestor p s.

Lemma ancestor_trans (a b c : string) : ancestor a b -> ancestor b c -> ancestor a c.
Proof. intros Hab Hbc. induction Hbc as [s q Hs|s m q Hs _ IH]; by eapply AncStep. Qed.

Lemma ancestor_parent (p s m q : string) : rsplit_once marker s = Some (m, q) ->
  ancestor p s <-> p = m \/ ancestor p m.
Proof.
  intros Hs. split.
  - intros Hp. inversion Hp as [? ? Hs'|? m' ? Hs' Hm]; subst; rewrite Hs in Hs'; injection Hs' as -> ->; auto.
  - intros [->|Hp]; [by eapply AncParent|by eapply AncStep].
Qed.

Lemma ancestor_prefix (p s : string) : ancestor p s -> starts_with (p ++ marker_str) s = true.
Proof.
  induction 1 as [s q [-> _]%rsplit_once_Some|s m q [-> _]%rsplit_once_Some _ IH].
  - apply starts_with_spec. exists q. by rewrite str_app_assoc.
  - apply starts_with_spec in IH as [r ->]. apply starts_with_spec.
    exists (r ++ String marker q)%string. by rewrite !str_app_assoc.
Qed.

(** A prefix that ends in the marker is an ancestor. *)
Lemma prefix_ancestor (p s : string) : starts_with (p ++ marker_str) s = true -> ancestor p s.
Proof.
  intros [r ->]%starts_with_spec. rewrite str_app_assoc. simpl.
  remember (depth r) as n eqn:Hn. revert r Hn. induction n as [|n IH]; intros r Hn.
  - destruct (rsplit_once marker (p ++ String marker r)) as [[p' q']|] eqn:Hs.
    2: { apply rsplit_once_None in Hs. rewrite count_char_app in Hs. simpl in Hs. lia. }
    pose proof (split_parent _ _ _ Hs) as Hsp. rewrite split_app, (split_plain r) in Hsp by done.
    apply app_inj_tail in Hsp as [Hp _].
    assert (p' = p) as -> by (by rewrite <-(join_split p), Hp, join_split). by eapply AncParent.
  - destruct (rsplit_once marker r) as [[r1 r2]|] eqn:Hr.
    2: { apply rsplit_once_None in Hr. unfold depth in Hn. lia. }
    pose proof (parent_depth _ _ _ Hr) as Hd.
    pose proof (split_parent _ _ _ Hr) as Hspr.
    destruct (rsplit_once marker (p ++ String marker r)) as [[p' q']|] eqn:Hs.
    2: { apply rsplit_once_None in Hs. rewrite count_char_app in Hs. simpl in Hs. lia. }
    pose proof (split_parent _ _ _ Hs) as Hsp. rewrite split_app, Hspr, app_assoc, <-split_app in Hsp.
    apply app_inj_tail in Hsp as [Hp _].
    assert (p' = (p ++ String marker r1)%string) as ->
      by (by rewrite <-(join_split p'), <-Hp, join_split).
    eapply AncStep; [exact Hs|]. apply IH. lia.
Qed.

Lemma ancestor_iff (p s : string) : ancestor p s <-> starts_with (p ++ marker_str) s = true.
Proof. split; [apply ancestor_prefix|apply prefix_ancestor]. Qed.
