(* ===== verification/Dcql.v ===== *)
(** * DCQL queries

    Models the DCQL crate ([lib/dcql/src/lib.rs], [matching.rs], the
    conversions of [mapper.rs]) and the selection of claims in
    [lib/one-core/src/provider/verification_protocol/openid4vp/dcql.rs]: which
    claims of a held credential a query addresses, which of them would be
    disclosed, and which required ones are missing.

    The iteration order of a [HashMap] or [HashSet] is the argument
    [hash_order], any permutation. A formatter is seen through the operations
    that the code calls, the class [DcqlFormatter]. *)

From S2P Require Import Prelude StatusBits KeySelection RevocationRepo RevocationMethod.
From S2P Require Import Paths.
From Stdlib Require Import Ascii.
#[local] Open Scope Z_scope.

(** ** Queries *)

Inductive CredentialFormat := JwtVc | LdpVc | MsoMdoc | SdJwt | W3cSdJwt.
#[export] Instance CredentialFormat_eq_dec : EqDecision CredentialFormat.
Proof. solve_decision. Defined.

Inductive PathSegment :=
| PropertyName (name : string)
| ArrayIndex (index : Z)
| ArrayAll.
#[export] Instance PathSegment_eq_dec : EqDecision PathSegment.
Proof. solve_decision. Defined.

(** [ClaimPath]: its segments. *)
Definition ClaimPath : Type := list PathSegment.

Inductive ClaimValue :=
| CvString (s : string)
| CvInteger (i : Z)
| CvBoolean (b : bool).

Record ClaimQuery := mkClaimQuery {
  cq_id : option string;
  cq_path : ClaimPath;
  cq_values : option (list ClaimValue);
  cq_required : option bool
}.

Inductive CredentialMeta :=
| MetaMsoMdoc (doctype_value : string)
| MetaSdJwtVc (vct_values : list string)
| MetaW3cVc (type_values : list (list string)).

(** [AuthorityKeyIdentifier]s are opaque keys. *)
Inductive TrustedAuthority :=
| EtsiTl (values : list string)
| OpenidFederation (values : list string)
| AuthorityKeyId (values : list string)
| CustomAuthority (type : string) (values : list string).

Record CredentialQuery := mkCredentialQuery {
  query_id : string;
  query_format : CredentialFormat;
  query_meta : CredentialMeta;
  query_claims : option (list ClaimQuery);
  query_claim_sets : option (list (list string));
  query_trusted_authorities : option (list TrustedAuthority);
  query_multiple : bool;
  query_require_cryptographic_holder_binding : bool
}.

Record CredentialSet := mkCredentialSet {
  set_required : bool;
  set_options : list (list string)
}.

Record DcqlQuery := mkDcqlQuery {
  dcql_credentials : list CredentialQuery;
  dcql_credential_sets : option (list CredentialSet)
}.

Inductive DcqlError :=
| MissingClaimQueryId (path : ClaimPath)
| UnknownClaimQueryId (id : string).

(** ** Filters *)

Record ClaimFilter := mkClaimFilter {
  cf_path : ClaimPath;
  cf_values : list ClaimValue;
  cf_required : bool
}.

Record CredentialFilter := mkCredentialFilter {
  filter_format : CredentialFormat;
  filter_schema_ids : list string;
  filter_claims : list ClaimFilter
}.

(** [impl From<ClaimQuery> for ClaimFilter]. *)
Definition claim_filter_of (q : ClaimQuery) : ClaimFilter :=
  mkClaimFilter (cq_path q) (default [] (cq_values q)) (default true (cq_required q)).

Definition claim_filters_to_map (claim_queries : list ClaimQuery) :
  res DcqlError (gmap string ClaimFilter) :=
  try_fold (fun result q =>
    id ← ok_or (cq_id q) (MissingClaimQueryId (cq_path q));
    Ok (<[id := claim_filter_of q]> result)) ∅ claim_queries.

Definition process_claims (base_filter : CredentialFilter) (claims : list ClaimQuery)
  (claim_sets : option (list (list string))) : res DcqlError (list CredentialFilter) :=
  match claim_sets with
  | Some claim_sets =>
      claims_by_id ← claim_filters_to_map claims;
      try_map (fun claim_set =>
        claim_filters ← try_map (fun id => ok_or (claims_by_id !! id) (UnknownClaimQueryId id))
                          claim_set;
        Ok (mkCredentialFilter (filter_format base_filter) (filter_schema_ids base_filter)
              claim_filters)) claim_sets
  | None =>
      Ok [mkCredentialFilter (filter_format base_filter) (filter_schema_ids base_filter)
            (claim_filter_of <$> claims)]
  end.

Definition meta_schema_ids (meta : CredentialMeta) : list string :=
  match meta with
  | MetaMsoMdoc doctype_value => [doctype_value]
  | MetaSdJwtVc vct_values => vct_values
  | MetaW3cVc type_values => omap last type_values
  end.

(** The filters of one credential query. *)
Definition query_filters (q : CredentialQuery) : res DcqlError (list CredentialFilter) :=
  let base_filter := mkCredentialFilter (query_format q) (meta_schema_ids (query_meta q)) [] in
  match query_claims q with
  | Some (c :: cs) => process_claims base_filter (c :: cs) (query_claim_sets q)
  | _ => Ok [base_filter]
  end.

Definition credential_filters (query : DcqlQuery) :
  res DcqlError (gmap string (list CredentialFilter)) :=
  try_fold (fun result q =>
    filters ← query_filters q;
    Ok (<[query_id q := filters]> result)) ∅ (dcql_credentials query).

(** ** Claims *)

Record ClaimSchema := mkClaimSchema {
  cs_id : Z;
  cs_key : string;
  cs_data_type : string;
  cs_array : bool;
  cs_metadata : bool;
  cs_required : bool
}.
#[export] Instance ClaimSchema_eq_dec : EqDecision ClaimSchema.
Proof. solve_decision. Defined.

Record Claim := mkClaim {
  claim_id : Z;
  claim_value : option string;
  claim_path : string;
  selectively_disclosable : bool;
  claim_schema : option ClaimSchema
}.
#[export] Instance Claim_eq_dec : EqDecision Claim.
Proof. solve_decision. Defined.

(** A credential with the relations that are loaded for a presentation. *)
Record HeldCredential := mkHeldCredential {
  held_credential : Credential;
  held_claims : option (list Claim);
  held_claim_schemas : option (list ClaimSchema)
}.
Definition held_id (c : HeldCredential) : Z := credential_id (held_credential c).

(** [VerificationProtocolError]; [Failed] with the kind of its message. *)
Inductive FailedReason :=
| FrOrganisationMissing
| FrMissingFilters
| FrMissingSchema
| FrMissingClaimSchemas
| FrMissingClaims
| FrMissingClaimSchema
| FrMissingParentClaim (path : string)
| FrMissingFormatter
| FrPartialUserPath
| FrUserPathTooShort
| FrEmptyFilters.

Inductive VpError :=
| VpFailed (reason : FailedReason)
| VpDcql (e : DcqlError)
| VpStorage (code : string)
| VpNested (code : string).

(** ** Path matching *)

(** The loop over the user claims path; [rest] is what the peekable iterator
    over [path] has left. *)
Fixpoint adjust_loop (path rest : ClaimPath) (user_claim_path : list string) {struct user_claim_path} :
  res VpError ClaimPath :=
  match user_claim_path with
  | [] => match rest with
          | [] => Err (VpFailed FrUserPathTooShort)
          | _ => Ok rest
          end
  | user_path_segment :: user_claim_path =>
      match rest with
      | PropertyName name :: rest =>
          if String.eqb name user_path_segment then adjust_loop path rest user_claim_path
          else Ok path
      | _ => Err (VpFailed FrPartialUserPath)
      end
  end.

Definition adjust_dcql_path_for_user_claims (path : ClaimPath) (user_claim_path : list string) :
  res VpError ClaimPath :=
  adjust_loop path path user_claim_path.

(** The match of one segment, given the schema of the claim at this depth. *)
Definition segment_matches (segment : PathSegment) (claim_path_segment : string)
  (schema : ClaimSchema) : bool :=
  match segment with
  | PropertyName name => String.eqb name claim_path_segment
  | ArrayIndex index => cs_array schema && String.eqb (usize_to_string index) claim_path_segment
  | ArrayAll => cs_array schema
  end.

(** The loop over the zipped segments; [current_path] is the path so far. *)
Fixpoint match_segments (all_claims : list Claim) (current_path : string)
  (segments : list (PathSegment * string)) : res VpError bool :=
  match segments with
  | [] => Ok true
  | (dcql_path_segment, claim_path_segment) :: segments =>
      let current_path :=
        if String.eqb current_path "" then claim_path_segment
        else (current_path ++ marker_str ++ claim_path_segment)%string in
      schema ← ok_or (find_first (fun c => String.eqb (claim_path c) current_path) all_claims
                        ≫= claim_schema) (VpFailed FrMissingClaimSchema);
      if segment_matches dcql_path_segment claim_path_segment schema
      then match_segments all_claims current_path segments
      else Ok false
  end.

Definition dcql_path_exactly_matches_claim (dcql_path : ClaimPath) (claim : Claim)
  (all_claims : list Claim) (user_claim_path : list string) : res VpError bool :=
  schema ← ok_or (claim_schema claim) (VpFailed FrMissingClaimSchema);
  dcql_segments ← (if negb (cs_metadata schema)
                   then adjust_dcql_path_for_user_claims dcql_path user_claim_path
                   else Ok dcql_path);
  let claim_path_segments := split_on marker (claim_path claim) in
  if negb (length dcql_segments =? length claim_path_segments)%nat then Ok false
  else match_segments all_claims "" (zip dcql_segments claim_path_segments).

Definition is_property (s : PathSegment) : bool :=
  match s with PropertyName _ => true | _ => false end.

Definition property_names (l : ClaimPath) : list string :=
  omap (fun s => match s with PropertyName n => Some n | _ => None end) l.

(** [segments.zip(user_claim_path).all(..)]. *)
Definition within_user_path (segments : ClaimPath) (user_claim_path : list string) : bool :=
  forallb (fun '(s, o) => match s with PropertyName n => String.eqb n o | _ => false end)
    (zip segments user_claim_path).

Definition dcql_path_matches_metadata (dcql_path : ClaimPath) (claim_schemas : list ClaimSchema)
  (user_claim_path : list string) : bool :=
  let array_selector_count := length (List.filter (fun s => negb (is_property s)) dcql_path) in
  if (1 <? array_selector_count)%nat then false
  else if (array_selector_count =? 1)%nat &&
          match last dcql_path with Some s => is_property s | None => true end then false
  else
    let segments := if (array_selector_count =? 1)%nat
                    then take (length dcql_path - 1) dcql_path else dcql_path in
    if (length segments <=? length user_claim_path)%nat && within_user_path segments user_claim_path
    then false
    else
      let dcql_key := join_path (property_names segments) in
      existsb (fun cs => cs_metadata cs &&
                         (String.eqb (cs_key cs) dcql_key ||
                          starts_with (dcql_key ++ marker_str) (cs_key cs))) claim_schemas.

Definition dcql_path_to_absent_claim_key (path : ClaimPath) (user_claim_path : list string) :
  res VpError string :=
  segments ← adjust_dcql_path_for_user_claims path user_claim_path;
  Ok (join_path ((fun segment => match segment with
                                 | PropertyName name => name
                                 | ArrayIndex index => usize_to_string index
                                 | ArrayAll => "0"%string
                                 end) <$> segments)).

Definition stringify_value (value : ClaimValue) : string :=
  match value with
  | CvString s => s
  | CvInteger i => if i <? 0 then ("-" ++ usize_to_string (- i))%string else usize_to_string i
  | CvBoolean b => if b then "true" else "false"
  end.

(** ** Claims that cannot be withheld *)

(** The claims one level below [parent_path] that are not selectively
    disclosable. *)
Definition forced_children (all_claims : list Claim) (parent_path : string) : list Claim :=
  List.filter (fun c => negb (selectively_disclosable c) &&
                        match rsplit_once marker (claim_path c) with
                        | Some (prefix, _) => String.eqb prefix parent_path
                        | None => false
                        end) all_claims.

(** The queue; [fuel] bounds the number of paths that are taken from it, and
    its end is the unreachable [Panic]. *)
Fixpoint children_loop (fuel : nat) (all_claims : list Claim) (parent_paths : list string)
  (result : list Claim) : res VpError (list Claim) :=
  match fuel with
  | O => Panic
  | S fuel =>
      match parent_paths with
      | [] => Ok result
      | parent_path :: parent_paths =>
          let children := forced_children all_claims parent_path in
          children_loop fuel all_claims (parent_paths ++ (claim_path <$> children))
            (result ++ children)
      end
  end.

(** Every level of nesting multiplies the queue by at most the number of claims. *)
Definition max_depth (all_claims : list Claim) : nat :=
  foldr (fun c m => Nat.max (depth (claim_path c)) m) O all_claims.
Definition path_weight (all_claims : list Claim) (p : string) : nat :=
  Nat.pow (S (length all_claims)) (max_depth all_claims - depth p).
Definition queue_weight (all_claims : list Claim) (ps : list string) : nat :=
  foldr (fun p n => (path_weight all_claims p + n)%nat) O ps.

Definition get_nonselectively_disclosable_children (all_claims : list Claim)
  (of_parent_paths : list string) : res VpError (list Claim) :=
  children_loop (S (queue_weight all_claims of_parent_paths)) all_claims of_parent_paths [].

(** ** Matching claims *)

Record ClaimMatch := mkClaimMatch { match_claim : Claim; match_exact : bool }.
#[export] Instance ClaimMatch_eq_dec : EqDecision ClaimMatch.
Proof. solve_decision. Defined.

(** The claims on the way from a path to the root; a path has fewer ancestors
    than characters. *)
Fixpoint towards_root (fuel : nat) (claims : list Claim) (current_path : string) :
  res VpError (list Claim) :=
  match fuel with
  | O => Panic
  | S fuel =>
      match rsplit_once marker current_path with
      | None => Ok []
      | Some (parent_path, _) =>
          parent_claim ← ok_or (find_first (fun c => String.eqb (claim_path c) parent_path) claims)
                           (VpFailed (FrMissingParentClaim parent_path));
          rest ← towards_root fuel claims parent_path;
          Ok (parent_claim :: rest)
      end
  end.

Definition claims_towards_root (claims : list Claim) (path : string) : res VpError (list Claim) :=
  towards_root (S (String.length path)) claims path.

(** The claims that the filter addresses directly, with a value it accepts. *)
Definition value_accepted (claim_filter : ClaimFilter) (claim : Claim) : bool :=
  match cf_values claim_filter with
  | [] => true
  | values => match claim_value claim with
              | Some value => bool_decide (value ∈ (stringify_value <$> values))
              | None => false
              end
  end.

Fixpoint exactly_matching_claims (all_claims claims : list Claim) (claim_filter : ClaimFilter)
  (user_claim_path : list string) : res VpError (list Claim) :=
  match claims with
  | [] => Ok []
  | claim :: claims =>
      matched ← dcql_path_exactly_matches_claim (cf_path claim_filter) claim all_claims
                  user_claim_path;
      rest ← exactly_matching_claims all_claims claims claim_filter user_claim_path;
      Ok (if matched && value_accepted claim_filter claim then claim :: rest else rest)
  end.

Definition children_of (claims : list Claim) (claim : Claim) : list Claim :=
  List.filter (fun c => starts_with (claim_path claim ++ marker_str) (claim_path c)) claims.

(** The elements of the set [HashSet<ClaimMatch>] that is returned. *)
Definition get_matching_claims (claims : list Claim) (claim_filter : ClaimFilter)
  (user_claim_path : list string) (select_children : bool) : res VpError (list ClaimMatch) :=
  exact ← exactly_matching_claims claims claims claim_filter user_claim_path;
  match exact with
  | [] => Ok []
  | _ =>
      let child_claims := if select_children then concat (children_of claims <$> exact) else [] in
      roots ← try_map (fun claim => claims_towards_root claims (claim_path claim)) exact;
      let trunk := remove_dups (concat roots) in
      nonselective ← get_nonselectively_disclosable_children claims (claim_path <$> trunk);
      Ok (remove_dups
            (((fun c => mkClaimMatch c true) <$> exact) ++
             ((fun c => mkClaimMatch c false) <$> child_claims) ++
             ((fun c => mkClaimMatch c false) <$> trunk) ++
             ((fun c => mkClaimMatch c false) <$> nonselective)))
  end.

(** ** Selected claims *)

Record SelectedClaim := mkSelectedClaim {
  sel_path : string;
  sel_selective_disclosure_supported : bool;
  sel_required_by_verifier : bool;
  sel_user_selection : bool;
  sel_metadata : bool
}.
#[export] Instance SelectedClaim_eq_dec : EqDecision SelectedClaim.
Proof. solve_decision. Defined.

Inductive MatchedClaim :=
| Selected (c : SelectedClaim)
| Missing (path : ClaimPath) (format : CredentialFormat) (metadata : bool).
#[export] Instance MatchedClaim_eq_dec : EqDecision MatchedClaim.
Proof. solve_decision. Defined.

(** [CredentialFormatter::user_claims_path] and [get_metadata_claims] (as
    schemas), and [CredentialFormatterProvider::get_credential_formatter]. *)
Class DcqlFormatters := {
  DFormatter : Type;
  dcql_formatter : string -> option DFormatter;
  user_claims_path : DFormatter -> list string;
  metadata_claims : DFormatter -> list ClaimSchema
}.

(** A claim that is always disclosed. *)
Definition forced_selection (claim : Claim) : res VpError (string * SelectedClaim) :=
  schema ← ok_or (claim_schema claim) (VpFailed FrMissingClaimSchema);
  Ok (claim_path claim,
      mkSelectedClaim (claim_path claim) (selectively_disclosable claim) false false
        (cs_metadata schema)).

Definition nonselective_claims (claims : list Claim) :
  res VpError (gmap string SelectedClaim) :=
  let root := List.filter (fun c => negb (selectively_disclosable c) &&
                                    (depth (claim_path c) =? 0)%nat) claims in
  children ← get_nonselectively_disclosable_children claims (claim_path <$> root);
  entries ← try_map forced_selection (root ++ children);
  Ok (foldl (fun m e => <[e.1 := e.2]> m) ∅ entries).

(** The closure over the matching claims. *)
Definition select_match (claim_filter : ClaimFilter) (selected : gmap string SelectedClaim)
  (m : ClaimMatch) : res VpError (gmap string SelectedClaim) :=
  let user_selection := match_exact m && negb (cf_required claim_filter) in
  let claim := match_claim m in
  match selected !! claim_path claim with
  | Some s =>
      Ok (<[claim_path claim :=
              mkSelectedClaim (sel_path s) (sel_selective_disclosure_supported s)
                (sel_required_by_verifier s || cf_required claim_filter)
                (sel_user_selection s || user_selection) (sel_metadata s)]> selected)
  | None =>
      schema ← ok_or (claim_schema claim) (VpFailed FrMissingClaimSchema);
      Ok (<[claim_path claim :=
              mkSelectedClaim (claim_path claim) (selectively_disclosable claim)
                (cf_required claim_filter) user_selection (cs_metadata schema)]> selected)
  end.

Section selection.
Context `{HashOrder} `{DcqlFormatters}.

(** The body of the loop over the claim filters. *)
Definition select_for_filter (claims : list Claim) (claim_schemas : list ClaimSchema)
  (format : CredentialFormat) (user_claim_path : list string) (select_children : bool)
  (acc : gmap string SelectedClaim * list MatchedClaim) (claim_filter : ClaimFilter) :
  res VpError (gmap string SelectedClaim * list MatchedClaim) :=
  matching_claims ← get_matching_claims claims claim_filter user_claim_path select_children;
  match matching_claims with
  | [] =>
      if cf_required claim_filter then
        Ok (acc.1, acc.2 ++ [Missing (cf_path claim_filter) format
              (dcql_path_matches_metadata (cf_path claim_filter) claim_schemas user_claim_path)])
      else Ok acc
  | _ =>
      selected ← try_fold (select_match claim_filter) acc.1 (hash_order _ matching_claims);
      Ok (selected, acc.2)
  end.

Definition select_claims (credential : HeldCredential) (filter : CredentialFilter)
  (formatter : DFormatter) (select_children : bool) : res VpError (list MatchedClaim) :=
  claims ← ok_or (held_claims credential) (VpFailed FrMissingClaims);
  selected ← nonselective_claims claims;
  _ ← ok_or (credential_schema (held_credential credential)) (VpFailed FrMissingSchema);
  credential_claim_schemas ← ok_or (held_claim_schemas credential) (VpFailed FrMissingClaimSchemas);
  result ← try_fold (select_for_filter claims credential_claim_schemas (filter_format filter)
                       (user_claims_path formatter) select_children) (selected, [])
             (filter_claims filter);
  Ok ((Selected <$> hash_order _ ((map_to_list result.1).*2)) ++ result.2).

(** The claims, unless one is missing. *)
Fixpoint all_selected (claims : list MatchedClaim) : option (list SelectedClaim) :=
  match claims with
  | [] => Some []
  | Missing _ _ _ :: _ => None
  | Selected c :: claims => cs ← all_selected claims; Some (c :: cs)
  end.

Definition select_matching_claims (credential : HeldCredential) (filter : CredentialFilter)
  (formatter : DFormatter) : res VpError (option (list SelectedClaim)) :=
  claims ← select_claims credential filter formatter true;
  Ok (all_selected claims).

Fixpoint first_matching_claims (credential : HeldCredential) (filters : list CredentialFilter)
  (formatter : DFormatter) : res VpError (option (list SelectedClaim)) :=
  match filters with
  | [] => Ok None
  | filter :: filters =>
      claims ← select_matching_claims credential filter formatter;
      match claims with
      | Some claims => Ok (Some claims)
      | None => first_matching_claims credential filters formatter
      end
  end.
End selection.
