(* ===== verification/DcqlSpec.v ===== *)
(** * DCQL queries: what is selected

    The theory of [Dcql.v]: the claims that a DCQL path denotes, the claims a
    filter addresses or carries along, and what [select_claims] returns. *)

From S2P Require Import Prelude StatusBits KeySelection RevocationRepo RevocationMethod.
From S2P Require Import Paths Dcql.
From Stdlib Require Import Ascii.
#[local] Open Scope Z_scope.

(** ** Claims below a path that cannot be withheld *)

Inductive forced_below (claims : list Claim) (p : string) : Claim -> Prop :=
| FbChild (c : Claim) : c ∈ forced_children claims p -> forced_below claims p c
| FbStep (m c : Claim) : forced_below claims p m -> c ∈ forced_children claims (claim_path m) ->
    forced_below claims p c.

Section children.
Context (claims : list Claim).

Lemma elem_of_forced_children (p : string) (c : Claim) :
  c ∈ forced_children claims p <->
  c ∈ claims /\ selectively_disclosable c = false /\
  exists q, rsplit_once marker (claim_path c) = Some (p, q).
Proof.
  unfold forced_children. rewrite !list_elem_of_In, List.filter_In, andb_true_iff, negb_true_iff.
  destruct (rsplit_once marker (claim_path c)) as [[p' q]|]; [|naive_solver].
  rewrite String.eqb_eq. naive_solver.
Qed.

Lemma forced_below_claim (p : string) (c : Claim) : forced_below claims p c ->
  c ∈ claims /\ selectively_disclosable c = false /\ ancestor p (claim_path c).
Proof.
  induction 1 as [c (Hc & Hs & q & Hq)%elem_of_forced_children
                 |m c _ (_ & _ & Hanc) (Hc & Hs & q & Hq)%elem_of_forced_children].
  - split_and!; [done..|by eapply AncParent].
  - split_and!; [done..|by eapply AncStep].
Qed.

(** A step from the top instead of from the bottom. *)
Lemma forced_below_cons (p : string) (m c : Claim) :
  m ∈ forced_children claims p -> forced_below claims (claim_path m) c -> forced_below claims p c.
Proof.
  intros Hm Hc. induction Hc as [c Hc|m' c _ IH Hc].
  - eapply FbStep; [|done]. by apply FbChild.
  - by eapply FbStep.
Qed.

Lemma forced_below_top (p : string) (c : Claim) : forced_below claims p c <->
  c ∈ forced_children claims p \/
  exists m, m ∈ forced_children claims p /\ forced_below claims (claim_path m) c.
Proof.
  split.
  - induction 1 as [c Hc|m c _ IH Hc]; [by left|]. right. destruct IH as [Hm|(t & Ht & Hm)].
    + exists m. split; [done|]. by apply FbChild.
    + exists t. split; [done|]. by eapply FbStep.
  - intros [Hc|(m & Hm & Hc)]; [by apply FbChild|by eapply forced_below_cons].
Qed.

(** *** The queue empties *)

Lemma max_depth_le (c : Claim) : c ∈ claims -> (depth (claim_path c) <= max_depth claims)%nat.
Proof.
  induction claims as [|x l IH]; intros Hc; [by apply elem_of_nil in Hc|].
  apply elem_of_cons in Hc as [->|Hc]; simpl; [lia|]. specialize (IH Hc). lia.
Qed.

Lemma queue_weight_app (xs ys : list string) :
  queue_weight claims (xs ++ ys) = (queue_weight claims xs + queue_weight claims ys)%nat.
Proof. induction xs as [|x xs IH]; simpl; [done|]. rewrite IH. lia. Qed.

Lemma queue_weight_bound (l : list Claim) (w : nat) :
  (forall c, c ∈ l -> path_weight claims (claim_path c) = w) ->
  queue_weight claims (claim_path <$> l) = (length l * w)%nat.
Proof.
  induction l as [|c l IH]; intros Hl; [done|]. rewrite fmap_cons. cbn [queue_weight foldr length].
  fold (queue_weight claims (claim_path <$> l)).
  rewrite IH by (intros; apply Hl; by right). rewrite (Hl c) by left. lia.
Qed.

Lemma children_weight (p : string) :
  (queue_weight claims (claim_path <$> forced_children claims p) < path_weight claims p)%nat.
Proof.
  set (n := S (length claims)). set (d := max_depth claims).
  destruct (forced_children claims p) as [|c l] eqn:Hl.
  { simpl. unfold path_weight. assert (Nat.pow (S (length claims)) (max_depth claims - depth p) <> 0)%nat; [|lia].
    apply Nat.pow_nonzero. lia. }
  assert (Hd : forall x, x ∈ c :: l ->
            depth (claim_path x) = S (depth p) /\ (S (depth p) <= d)%nat).
  { intros x. rewrite <-Hl. intros (Hx & _ & q & Hq)%elem_of_forced_children.
    apply parent_depth in Hq. split; [done|]. rewrite <-Hq. by apply max_depth_le. }
  rewrite (queue_weight_bound _ (Nat.pow n (d - S (depth p)))).
  2: { intros x Hx. unfold path_weight. by destruct (Hd x Hx) as [-> _]. }
  destruct (Hd c ltac:(left)) as [_ Hle]. unfold path_weight. fold n d.
  replace (d - depth p)%nat with (S (d - S (depth p))) by lia. rewrite Nat.pow_succ_r'.
  assert (Hlen : (length (c :: l) <= length claims)%nat).
  { rewrite <-Hl. apply List.filter_length_le. }
  assert (Nat.pow n (d - S (depth p)) <> 0)%nat by (apply Nat.pow_nonzero; lia). nia.
Qed.

Lemma children_loop_total (fuel : nat) (ps : list string) (result : list Claim) :
  (queue_weight claims ps < fuel)%nat -> exists r, children_loop fuel claims ps result = Ok r.
Proof.
  revert ps result. induction fuel as [|fuel IH]; intros ps result Hf; [lia|]. simpl.
  destruct ps as [|p ps]; [by eauto|]. apply IH. rewrite queue_weight_app.
  pose proof (children_weight p). simpl in Hf. lia.
Qed.

Lemma children_loop_elem (fuel : nat) (ps : list string) (result r : list Claim) (c : Claim) :
  children_loop fuel claims ps result = Ok r ->
  (c ∈ r <-> c ∈ result \/ exists p, p ∈ ps /\ forced_below claims p c).
Proof.
  revert ps result. induction fuel as [|fuel IH]; intros ps result; [done|]. simpl.
  destruct ps as [|p ps].
  - intros [= <-]. setoid_rewrite elem_of_nil. naive_solver.
  - intros Hr%IH. rewrite Hr, elem_of_app. setoid_rewrite elem_of_app. setoid_rewrite elem_of_cons.
    setoid_rewrite list_elem_of_fmap. clear Hr IH. split.
    + intros [[?|Hc]|(x & [Hx|(m & -> & Hm)] & Hb)]; [by left|right; exists p|right|right].
      * split; [by left|]. by apply FbChild.
      * eauto.
      * exists p. split; [by left|]. by eapply forced_below_cons.
    + intros [?|(x & [->|Hx] & Hb)]; [by left; left| |by right; eauto].
      apply forced_below_top in Hb as [Hc|(m & Hm & Hb)]; [by left; right|].
      right. exists (claim_path m). eauto.
Qed.

Lemma children_spec (ps : list string) :
  exists r, get_nonselectively_disclosable_children claims ps = Ok r /\
    forall c, c ∈ r <-> exists p, p ∈ ps /\ forced_below claims p c.
Proof.
  unfold get_nonselectively_disclosable_children.
  destruct (children_loop_total (S (queue_weight claims ps)) ps []) as [r Hr]; [lia|].
  exists r. split; [done|]. intros c. rewrite (children_loop_elem _ _ _ _ c Hr), elem_of_nil.
  naive_solver.
Qed.

(** *** Ancestors *)

Lemma towards_root_spec (fuel : nat) (path : string) : (String.length path < fuel)%nat ->
  match towards_root fuel claims path with
  | Ok l => (forall a, a ∈ l -> find_first (fun c => String.eqb (claim_path c) (claim_path a)) claims = Some a /\
                               ancestor (claim_path a) path) /\
            (forall p, ancestor p path -> exists a, a ∈ l /\ claim_path a = p)
  | Err _ => True
  | Panic => False
  end.
Proof.
  revert path. induction fuel as [|fuel IH]; intros path Hf; [lia|]. simpl.
  destruct (rsplit_once marker path) as [[p q]|] eqn:Hp.
  2: { split; [by intros a Ha%elem_of_nil|]. intros x Hx. by inversion Hx as [? ? Hs|? ? ? Hs _]; rewrite Hp in Hs. }
  destruct (find_first _ claims) as [a|] eqn:Ha; simpl; [|done].
  pose proof (parent_shorter _ _ _ _ Hp) as Hlen. specialize (IH p ltac:(lia)).
  destruct (towards_root fuel claims p) as [l|e|]; simpl; [|done..]. destruct IH as [Hl Hall].
  pose proof Ha as [Hin Hpa%String.eqb_eq]%find_first_Some. split.
  - intros x [->|Hx]%elem_of_cons.
    + rewrite Hpa. split; [done|]. by eapply AncParent.
    + destruct (Hl x Hx) as [Hf' Hanc]. split; [done|]. by eapply AncStep.
  - intros x Hx. assert (Hc : x = p \/ ancestor x p).
    { inversion Hx as [s q' Hs|s m q' Hs Hm]; subst; rewrite Hp in Hs; injection Hs as -> ->; auto. }
    destruct Hc as [->|(b & Hb & Heq)%Hall]; [exists a|exists b]; (split; [|done]); [left|by right].
Qed.
End children.

(** ** What a path denotes *)

(** Claims as credentials store them: their paths are unique and not empty,
    the parent of a claim is a claim, and the schemas are loaded. *)
Definition claim_wf (claims : list Claim) (c : Claim) : bool :=
  bool_decide (is_Some (claim_schema c)) && negb (String.eqb (claim_path c) "") &&
  match rsplit_once marker (claim_path c) with
  | None => true
  | Some (p, _) => existsb (fun a => String.eqb (claim_path a) p) claims
  end.
Definition claims_wf (claims : list Claim) : bool :=
  bool_decide (NoDup (claim_path <$> claims)) && forallb (claim_wf claims) claims.

(** [denotes claims path c]: a path addresses a claim if its last segment
    fits the claim and the rest addresses the parent. *)
Inductive denotes (claims : list Claim) : ClaimPath -> Claim -> Prop :=
| DenRoot (seg : PathSegment) (c : Claim) (schema : ClaimSchema) :
    c ∈ claims -> claim_schema c = Some schema -> rsplit_once marker (claim_path c) = None ->
    segment_matches seg (claim_path c) schema = true -> denotes claims [seg] c
| DenChild (path : ClaimPath) (seg : PathSegment) (parent c : Claim) (name : string)
    (schema : ClaimSchema) :
    denotes claims path parent -> c ∈ claims -> claim_schema c = Some schema ->
    rsplit_once marker (claim_path c) = Some (claim_path parent, name) ->
    segment_matches seg name schema = true -> denotes claims (path ++ [seg]) c.

(** The path that is compared with a claim. *)
Definition effective_path (path : ClaimPath) (user : list string) (c : Claim) :
  res VpError ClaimPath :=
  match claim_schema c with
  | Some schema => if cs_metadata schema then Ok path else adjust_dcql_path_for_user_claims path user
  | None => Err (VpFailed FrMissingClaimSchema)
  end.

Section matching.
Context (claims : list Claim) (Hwf : claims_wf claims = true).

Lemma wf_nodup : NoDup (claim_path <$> claims).
Proof. unfold claims_wf in Hwf. apply andb_true_iff in Hwf as [H _]. by apply bool_decide_eq_true in H. Qed.

Lemma wf_claim (c : Claim) : c ∈ claims -> claim_wf claims c = true.
Proof.
  intros Hc%list_elem_of_In. apply andb_true_iff in Hwf as [_ H]. rewrite List.forallb_forall in H. auto.
Qed.

Lemma wf_schema (c : Claim) : c ∈ claims -> exists schema, claim_schema c = Some schema.
Proof. intros Hc%wf_claim. unfold claim_wf in Hc. rewrite !andb_true_iff, bool_decide_eq_true in Hc. naive_solver. Qed.

Lemma wf_nonempty (c : Claim) : c ∈ claims -> claim_path c <> ""%string.
Proof.
  intros Hc%wf_claim. unfold claim_wf in Hc. rewrite !andb_true_iff, negb_true_iff, String.eqb_neq in Hc.
  naive_solver.
Qed.

Lemma wf_unique (a b : Claim) : a ∈ claims -> b ∈ claims -> claim_path a = claim_path b -> a = b.
Proof.
  intros (i & Hi)%list_elem_of_lookup (j & Hj)%list_elem_of_lookup Hab.
  pose proof (NoDup_lookup _ i j (claim_path a) wf_nodup) as Hn.
  rewrite !list_lookup_fmap, Hi, Hj in Hn. simpl in Hn. rewrite Hab in Hn.
  rewrite (Hn eq_refl eq_refl), Hj in Hi. congruence.
Qed.

Lemma wf_parent (c : Claim) (p q : string) : c ∈ claims ->
  rsplit_once marker (claim_path c) = Some (p, q) -> exists a, a ∈ claims /\ claim_path a = p.
Proof.
  intros Hc%wf_claim Hp. unfold claim_wf in Hc. rewrite Hp in Hc.
  apply andb_true_iff in Hc as [_ (a & Ha & Hpa%String.eqb_eq)%List.existsb_exists].
  exists a. by rewrite list_elem_of_In.
Qed.

Lemma wf_ancestor (c : Claim) (p : string) : c ∈ claims -> ancestor p (claim_path c) ->
  exists a, a ∈ claims /\ claim_path a = p.
Proof.
  intros Hc Hp. remember (claim_path c) as s eqn:Hs. revert c Hc Hs.
  induction Hp as [s q Hq|s m q Hq _ IH]; intros c Hc ->; [by eapply wf_parent|].
  destruct (wf_parent _ _ _ Hc Hq) as (a & Ha & Hm). by eapply IH.
Qed.

(** The lookup of a path finds the claim that has it. *)
Lemma find_claim (c : Claim) : c ∈ claims ->
  find_first (fun a => String.eqb (claim_path a) (claim_path c)) claims = Some c.
Proof.
  intros Hc. destruct (find_first_exists (fun a => String.eqb (claim_path a) (claim_path c)) claims c)
    as (a & -> & Ha & Heq%String.eqb_eq); [done|apply String.eqb_refl|].
  f_equal. by apply wf_unique.
Qed.

Lemma schema_at (c : Claim) (schema : ClaimSchema) : c ∈ claims -> claim_schema c = Some schema ->
  find_first (fun a => String.eqb (claim_path a) (claim_path c)) claims ≫= claim_schema = Some schema.
Proof. intros Hc Hs. rewrite find_claim by done. exact Hs. Qed.

(** Induction over a claim and its parents. *)
Lemma claim_ind (P : Claim -> Prop) :
  (forall c, c ∈ claims -> rsplit_once marker (claim_path c) = None -> P c) ->
  (forall c a q, c ∈ claims -> a ∈ claims ->
     rsplit_once marker (claim_path c) = Some (claim_path a, q) -> P a -> P c) ->
  forall c, c ∈ claims -> P c.
Proof.
  intros Hroot Hstep c. remember (depth (claim_path c)) as n eqn:Hn. revert c Hn.
  induction n as [|n IH]; intros c Hn Hc.
  - apply Hroot; [done|]. by apply rsplit_once_None.
  - destruct (rsplit_once marker (claim_path c)) as [[p q]|] eqn:Hp; [|by apply Hroot].
    destruct (wf_parent _ _ _ Hc Hp) as (a & Ha & <-). apply (Hstep c a q); [done..|].
    apply IH; [|done]. apply parent_depth in Hp. lia.
Qed.

(** The path that the loop builds up from the segments it has seen. *)
Definition extend_path (current name : string) : string :=
  if String.eqb current "" then name else (current ++ marker_str ++ name)%string.

Lemma running_path (c : Claim) : c ∈ claims ->
  foldl extend_path "" (split_on marker (claim_path c)) = claim_path c.
Proof.
  revert c. apply claim_ind.
  - intros c Hc Hp. rewrite split_plain by (by apply rsplit_once_None). done.
  - intros c a q Hc Ha Hp IH. rewrite (split_parent _ _ _ Hp), foldl_app, IH. cbn [foldl].
    apply rsplit_once_Some in Hp as [-> _]. unfold extend_path.
    destruct (String.eqb_spec (claim_path a) "") as [He|_]; [|done]. by apply wf_nonempty in He.
Qed.

Lemma match_segments_cons (current name : string) (seg : PathSegment) (l : list (PathSegment * string)) :
  match_segments claims current ((seg, name) :: l) =
  (ok_or (find_first (fun c => String.eqb (claim_path c) (extend_path current name)) claims
            ≫= claim_schema) (VpFailed FrMissingClaimSchema) ≫= fun schema =>
   if segment_matches seg name schema then match_segments claims (extend_path current name) l
   else Ok false).
Proof. reflexivity. Qed.

(** The loop gives up at the first segment that does not fit. *)
Lemma match_segments_app (current : string) (ds : ClaimPath) (names : list string)
  (l : list (PathSegment * string)) : length ds = length names ->
  match_segments claims current (zip ds names ++ l) =
  (match_segments claims current (zip ds names) ≫= fun b : bool =>
   if b then match_segments claims (foldl extend_path current names) l else Ok false).
Proof.
  revert current names. induction ds as [|seg ds IH]; intros current [|name names] Hl; try done.
  change (zip (seg :: ds) (name :: names)) with ((seg, name) :: zip ds names).
  rewrite <-app_comm_cons, !match_segments_cons. change (foldl extend_path current (name :: names)) with
    (foldl extend_path (extend_path current name) names). destruct (ok_or _ _) as [schema|e|]; simpl; [|done..].
  destruct (segment_matches seg name schema); [|done]. apply IH. by injection Hl.
Qed.

Lemma match_segment_last (current name : string) (seg : PathSegment) (c : Claim) (schema : ClaimSchema) :
  c ∈ claims -> claim_schema c = Some schema -> extend_path current name = claim_path c ->
  match_segments claims current [(seg, name)] = Ok (segment_matches seg name schema).
Proof.
  intros Hc Hs Hp. rewrite match_segments_cons, Hp, (schema_at c schema) by done. simpl. by destruct (segment_matches seg name schema).
Qed.

Lemma denotes_claim (ds : ClaimPath) (c : Claim) : denotes claims ds c ->
  c ∈ claims /\ length ds = length (split_on marker (claim_path c)).
Proof.
  induction 1 as [seg c schema Hc _ Hp _|ds seg parent c name schema _ [_ IH] Hc _ Hp _]; (split; [done|]).
  - rewrite split_plain by (by apply rsplit_once_None). done.
  - rewrite (split_parent _ _ _ Hp), !length_app, IH. done.
Qed.

Lemma match_denotes (c : Claim) : c ∈ claims -> forall ds,
  length ds = length (split_on marker (claim_path c)) ->
  exists b, match_segments claims "" (zip ds (split_on marker (claim_path c))) = Ok b /\
    (b = true <-> denotes claims ds c).
Proof.
  revert c. apply (claim_ind (fun c => forall ds, length ds = length (split_on marker (claim_path c)) -> _)).
  - intros c Hc Hp ds. rewrite split_plain by (by apply rsplit_once_None).
    destruct ds as [|seg [|? ?]]; intros Hl; try done. destruct (wf_schema c Hc) as [schema Hs].
    exists (segment_matches seg (claim_path c) schema). split; [by eapply match_segment_last|].
    split; [by eapply DenRoot|]. intros Hd. inversion Hd as [? ? ? _ Hs' _ Hm|? ? ? ? ? ? _ _ _ Hp']; subst;
      [|by rewrite Hp in Hp']. rewrite Hs in Hs'. by injection Hs' as ->.
  - intros c a q Hc Ha Hp IH ds. rewrite (split_parent _ _ _ Hp), length_app.
    destruct ds as [|seg ds _] using rev_ind; [simpl; lia|]. rewrite length_app. simpl. intros Hl.
    destruct (IH ds ltac:(lia)) as (b & Hb & Hiff). destruct (wf_schema c Hc) as [schema Hs].
    rewrite zip_with_app by lia. rewrite match_segments_app, Hb by lia.
    change (zip [seg] [q]) with [(seg, q)].
    exists (b && segment_matches seg q schema). split.
    + destruct b; [|done]. cbn [mbind res_bind andb]. rewrite running_path by done.
      apply (match_segment_last _ _ _ c); [done..|].
      apply rsplit_once_Some in Hp as [-> _]. unfold extend_path.
      destruct (String.eqb_spec (claim_path a) "") as [He|_]; [|done]. by apply wf_nonempty in He.
    + rewrite andb_true_iff, Hiff. split; [intros [Hd Hm]; by eapply DenChild|].
      intros Hd. inversion Hd as [? ? ? _ _ Hp' _ Heq|ds' seg' parent ? name schema' Hdp Hc' Hs' Hp' Hm Heq];
        subst; [by rewrite Hp in Hp'|].
      apply app_inj_tail in Heq as [-> ->]. rewrite Hp in Hp'. injection Hp' as Hpa <-.
      rewrite Hs in Hs'. injection Hs' as <-.
      assert (parent = a) as -> by (apply wf_unique; [by apply denotes_claim in Hdp as []|done..]). done.
Qed.

Lemma exactly_matches_spec (path : ClaimPath) (user : list string) (c : Claim) : c ∈ claims ->
  match effective_path path user c with
  | Ok ds => exists b, dcql_path_exactly_matches_claim path c claims user = Ok b /\
               (b = true <-> denotes claims ds c)
  | r => dcql_path_exactly_matches_claim path c claims user = (r ≫= fun _ => Ok false)
  end.
Proof.
  intros Hc. unfold effective_path, dcql_path_exactly_matches_claim.
  destruct (wf_schema c Hc) as [schema ->]. cbn [ok_or]. simpl.
  set (r := if cs_metadata schema then Ok path else _).
  replace (if negb (cs_metadata schema) then _ else _) with r by (unfold r; by destruct (cs_metadata schema)).
  destruct r as [ds|e|]; simpl; [|done..].
  destruct (Nat.eqb_spec (length ds) (length (split_on marker (claim_path c)))) as [Hl|Hl]; simpl.
  - by apply match_denotes.
  - exists false. split; [done|]. split; [done|]. by intros [_ ?]%denotes_claim.
Qed.
End matching.

(** ** The user claims path *)

(** [user_path user path ds]: what is left of a path for the claims of the
    user. A path through the user claims loses that prefix; a path that leaves
    the prefix at some property is not changed. *)
Inductive user_path (user : list string) : ClaimPath -> ClaimPath -> Prop :=
| UpInside (ds : ClaimPath) : ds <> [] -> user_path user ((PropertyName <$> user) ++ ds) ds
| UpOutside (pre post : list string) (u n : string) (rest : ClaimPath) :
    user = pre ++ u :: post -> n <> u ->
    user_path user ((PropertyName <$> pre) ++ PropertyName n :: rest)
      ((PropertyName <$> pre) ++ PropertyName n :: rest).

Lemma adjust_loop_prefix (path rest : ClaimPath) (pre post : list string) :
  adjust_loop path ((PropertyName <$> pre) ++ rest) (pre ++ post) = adjust_loop path rest post.
Proof. induction pre as [|u pre IH]; [done|]. simpl. rewrite String.eqb_refl. exact IH. Qed.

Lemma adjust_loop_sound (path rest ds : ClaimPath) (pre post : list string) :
  path = (PropertyName <$> pre) ++ rest -> adjust_loop path rest post = Ok ds ->
  user_path (pre ++ post) path ds.
Proof.
  revert pre rest. induction post as [|u post IH]; intros pre rest Hp; simpl.
  - destruct rest as [|seg rest]; [done|]. intros [= <-]. rewrite Hp, app_nil_r. by constructor.
  - destruct rest as [|[name|i|] rest]; try done. destruct (String.eqb_spec name u) as [->|Hne].
    + intros Hd. rewrite cons_middle, app_assoc. apply (IH _ rest); [|done].
      by rewrite Hp, fmap_app, <-app_assoc.
    + intros [= <-]. rewrite Hp. by eapply UpOutside.
Qed.

Lemma adjust_spec (path : ClaimPath) (user : list string) (ds : ClaimPath) :
  adjust_dcql_path_for_user_claims path user = Ok ds <-> user_path user path ds.
Proof.
  split; [by apply (adjust_loop_sound _ _ _ [])|].
  intros [ds' Hne|pre post u n rest -> Hne]; unfold adjust_dcql_path_for_user_claims.
  - pose proof (adjust_loop_prefix ((PropertyName <$> user) ++ ds') ds' user []) as Hl.
    rewrite app_nil_r in Hl. rewrite Hl. by destruct ds'.
  - rewrite adjust_loop_prefix. simpl. by destruct (String.eqb_spec n u).
Qed.

(** ** The claims in the scope of a filter *)

(** [exact_match]: the filter addresses the claim itself. *)
Definition exact_match (claims : list Claim) (user : list string) (f : ClaimFilter) (c : Claim) : Prop :=
  exists ds, effective_path (cf_path f) user c = Ok ds /\ denotes claims ds c /\
    value_accepted f c = true.

(** [carried_along]: the claim is disclosed with one that the filter
    addresses: below it, above it, or not to be withheld next to its way up. *)
Inductive carried_along (claims : list Claim) (user : list string) (select_children : bool)
  (f : ClaimFilter) (c : Claim) : Prop :=
| CaChild (m : Claim) : select_children = true -> exact_match claims user f m -> c ∈ claims ->
    ancestor (claim_path m) (claim_path c) -> carried_along claims user select_children f c
| CaParent (m : Claim) : exact_match claims user f m -> c ∈ claims ->
    ancestor (claim_path c) (claim_path m) -> carried_along claims user select_children f c
| CaForced (m : Claim) (p : string) : exact_match claims user f m ->
    ancestor p (claim_path m) -> forced_below claims p c ->
    carried_along claims user select_children f c.

Definition in_scope (claims : list Claim) (user : list string) (select_children : bool)
  (f : ClaimFilter) (c : Claim) : Prop :=
  exact_match claims user f c \/ carried_along claims user select_children f c.

Section scope.
Context (claims : list Claim) (Hwf : claims_wf claims = true).
Context (user : list string) (select_children : bool) (f : ClaimFilter).
Context (Hpath : is_ok (adjust_dcql_path_for_user_claims (cf_path f) user) = true).

Lemma effective_path_ok (c : Claim) : c ∈ claims ->
  exists ds, effective_path (cf_path f) user c = Ok ds.
Proof.
  intros Hc. unfold effective_path. destruct (wf_schema _ Hwf c Hc) as [schema ->].
  destruct (cs_metadata schema); [by eauto|].
  destruct (adjust_dcql_path_for_user_claims (cf_path f) user); naive_solver.
Qed.

Lemma exactly_matching_spec (l : list Claim) : (forall c, c ∈ l -> c ∈ claims) ->
  exists r, exactly_matching_claims claims l f user = Ok r /\
    forall c, c ∈ r <-> c ∈ l /\ exact_match claims user f c.
Proof.
  induction l as [|c l IH]; intros Hl.
  { exists []. split; [done|]. intros c. rewrite elem_of_nil. naive_solver. }
  destruct IH as (r & Hr & Hel); [intros; apply Hl; by right|].
  destruct (effective_path_ok c (Hl c ltac:(left))) as [ds Hds].
  pose proof (exactly_matches_spec _ Hwf (cf_path f) user c (Hl c ltac:(left))) as Hm.
  rewrite Hds in Hm. destruct Hm as (b & Hb & Hiff).
  exists (if b && value_accepted f c then c :: r else r). split.
  { cbn [exactly_matching_claims]. rewrite Hb, Hr. done. }
  assert (Hc : b && value_accepted f c = true <-> exact_match claims user f c).
  { rewrite andb_true_iff, Hiff. split; [by intros []; exists ds|].
    intros (ds' & Hds' & Hd & Hv). rewrite Hds in Hds'. by injection Hds' as ->. }
  clear Hb Hiff Hds Hr. intros x. rewrite elem_of_cons. destruct (b && value_accepted f c).
  - rewrite elem_of_cons, Hel. split; [intros [->|[Hx Hm]]; [|by auto]|].
    + split; [by left|]. by apply Hc.
    + intros [[->|Hx] Hm]; [by left|by right].
  - rewrite Hel. split; [by intros []; auto|]. intros [[->|Hx] Hm]; [|done]. by apply Hc in Hm.
Qed.

Lemma exact_match_claim (c : Claim) : exact_match claims user f c -> c ∈ claims.
Proof. intros (ds & _ & Hd & _). by apply denotes_claim in Hd as [? _]. Qed.

Lemma towards_root_total (fuel : nat) (c : Claim) : c ∈ claims ->
  (String.length (claim_path c) < fuel)%nat ->
  exists r, towards_root fuel claims (claim_path c) = Ok r.
Proof.
  revert c. induction fuel as [|fuel IH]; intros c Hc Hf; [lia|]. cbn [towards_root].
  destruct (rsplit_once marker (claim_path c)) as [[p q]|] eqn:Hp; [|by eauto].
  destruct (wf_parent _ Hwf _ _ _ Hc Hp) as (a & Ha & <-). rewrite (find_claim _ Hwf) by done. simpl.
  pose proof (parent_shorter _ _ _ _ Hp). destruct (IH a Ha) as [r ->]; [lia|]. simpl. eauto.
Qed.

Lemma roots_spec (c : Claim) : c ∈ claims -> exists r, claims_towards_root claims (claim_path c) = Ok r /\
  forall a, a ∈ r <-> a ∈ claims /\ ancestor (claim_path a) (claim_path c).
Proof.
  intros Hc. unfold claims_towards_root.
  destruct (towards_root_total (S (String.length (claim_path c))) c Hc) as [r Hr]; [lia|].
  exists r. split; [done|]. intros a.
  pose proof (towards_root_spec claims _ _ (Nat.lt_succ_diag_r (String.length (claim_path c)))) as Hs.
  rewrite Hr in Hs. destruct Hs as [Hin Hall]. split.
  - intros Ha. destruct (Hin a Ha) as [[Hcl _]%find_first_Some Hanc]. done.
  - intros [Ha (b & Hb & Heq)%Hall]. destruct (Hin b Hb) as [[Hcl _]%find_first_Some _].
    by rewrite <-(wf_unique _ Hwf b a).
Qed.

Lemma trunk_spec (exact : list Claim) : (forall c, c ∈ exact -> c ∈ claims) ->
  exists roots, try_map (fun claim => claims_towards_root claims (claim_path claim)) exact = Ok roots /\
    forall a, a ∈ concat roots <-> a ∈ claims /\ exists c, c ∈ exact /\ ancestor (claim_path a) (claim_path c).
Proof.
  induction exact as [|c exact IH]; intros Hin.
  { exists []. split; [done|]. intros a. setoid_rewrite elem_of_nil. naive_solver. }
  destruct IH as (roots & Hroots & Hel); [intros; apply Hin; by right|].
  destruct (roots_spec c (Hin c ltac:(left))) as (r & Hr & Hra).
  exists (r :: roots). cbn [try_map]. rewrite Hr, Hroots. split; [done|]. intros a. cbn [concat].
  rewrite elem_of_app, Hra, Hel. setoid_rewrite elem_of_cons. naive_solver.
Qed.

Lemma children_of_spec (exact : list Claim) (c : Claim) :
  c ∈ concat (children_of claims <$> exact) <->
  c ∈ claims /\ exists m, m ∈ exact /\ ancestor (claim_path m) (claim_path c).
Proof.
  induction exact as [|m exact IH].
  { simpl. setoid_rewrite elem_of_nil. naive_solver. }
  rewrite fmap_cons. cbn [concat]. rewrite elem_of_app, IH. setoid_rewrite elem_of_cons.
  unfold children_of at 1. rewrite list_elem_of_In, List.filter_In, <-list_elem_of_In, <-ancestor_iff.
  naive_solver.
Qed.

(** The claims that are carried along, from the three sets of the code. *)
Lemma match_false_iff (exact trunk forced : list Claim) (c : Claim) :
  (forall m, m ∈ exact -> m ∈ claims) ->
  (forall a, a ∈ trunk <-> a ∈ claims /\ exists m, m ∈ exact /\ ancestor (claim_path a) (claim_path m)) ->
  (forall x, x ∈ forced <-> exists p, p ∈ claim_path <$> remove_dups trunk /\ forced_below claims p x) ->
  (exists x, mkClaimMatch c false = mkClaimMatch x true /\ x ∈ exact) \/
  (exists x, mkClaimMatch c false = mkClaimMatch x false /\
     x ∈ (if select_children then concat (children_of claims <$> exact) else [])) \/
  (exists x, mkClaimMatch c false = mkClaimMatch x false /\ x ∈ remove_dups trunk) \/
  (exists x, mkClaimMatch c false = mkClaimMatch x false /\ x ∈ forced) <->
  (select_children = true /\ c ∈ claims /\ exists m, m ∈ exact /\ ancestor (claim_path m) (claim_path c)) \/
  (c ∈ claims /\ exists m, m ∈ exact /\ ancestor (claim_path c) (claim_path m)) \/
  (exists p m, m ∈ exact /\ ancestor p (claim_path m) /\ forced_below claims p c).
Proof.
  intros Hin Htr Hfo.
  assert (H1 : forall l : list Claim, (exists x, mkClaimMatch c false = mkClaimMatch x false /\ x ∈ l) <-> c ∈ l).
  { intros l. split; [by intros (x & [= ->] & ?)|by exists c]. }
  rewrite !H1, elem_of_remove_dups, Htr, Hfo, <-children_of_spec. split.
  - intros [(x & [=] & _)|[Hc|[Hc|(p & (a & -> & Ha)%list_elem_of_fmap & Hb)]]].
    + left. destruct select_children; [by split|by apply elem_of_nil in Hc].
    + by right; left.
    + right; right. apply elem_of_remove_dups, Htr in Ha as (_ & m & Hm & Hanc). by exists (claim_path a), m.
  - intros [[Hsc Hc]|[Hc|(p & m & Hm & Hanc & Hb)]]; right; [left; by rewrite Hsc|by right; left|right; right].
    exists p. split; [|done]. destruct (wf_ancestor _ Hwf m p (Hin m Hm) Hanc) as (a & Ha & <-).
    apply list_elem_of_fmap. exists a. split; [done|]. apply elem_of_remove_dups, Htr. eauto.
Qed.

(** What a filter selects: the claims it addresses and those carried along. *)
Lemma get_matching_spec :
  exists r, get_matching_claims claims f user select_children = Ok r /\ NoDup r /\
    (r = [] <-> forall c, ~ exact_match claims user f c) /\
    forall m, m ∈ r <->
      if match_exact m then exact_match claims user f (match_claim m)
      else carried_along claims user select_children f (match_claim m).
Proof.
  unfold get_matching_claims.
  destruct (exactly_matching_spec claims) as (exact & -> & Hex); [done|]. cbn [mbind res_bind].
  assert (Hex' : forall c, c ∈ exact <-> exact_match claims user f c).
  { intros c. rewrite Hex. split; [by intros [_ ?]|]. intros Hm. by split; [apply exact_match_claim|]. }
  clear Hex. destruct exact as [|e exact].
  { exists []. split_and!; [done|constructor| |].
    - split; [|done]. intros _ c Hm%Hex'. by apply elem_of_nil in Hm.
    - assert (Hno : forall c, ~ exact_match claims user f c) by (by intros c Hm%Hex'%elem_of_nil).
      intros [c b]. rewrite elem_of_nil. split; [done|]. cbn [match_exact match_claim].
      destruct b; [by intros ?%Hno|]. by intros [m _ ?%Hno|m ?%Hno|m p ?%Hno]. }
  assert (Hne : ~ forall c, ~ exact_match claims user f c).
  { intros Hno. apply (Hno e), Hex'. left. }
  set (ex := e :: exact) in *.
  destruct (trunk_spec ex) as (roots & -> & Htr); [intros c Hc%Hex'; by apply exact_match_claim|].
  cbn [mbind res_bind].
  destruct (children_spec claims (claim_path <$> remove_dups (concat roots))) as (forced & -> & Hfo).
  cbn [mbind res_bind]. eexists. split; [reflexivity|]. split; [apply NoDup_remove_dups|]. split.
  { split; [|by intros ?%Hne]. intros Hnil. exfalso.
    assert (Hin : mkClaimMatch e true ∈ @nil ClaimMatch); [|by apply elem_of_nil in Hin].
    rewrite <-Hnil. apply elem_of_remove_dups, elem_of_app. left. apply list_elem_of_fmap. exists e.
    split; [done|left]. }
  clearbody ex. clear Hne. intros [c b]. cbn [match_exact match_claim].
  rewrite elem_of_remove_dups, !elem_of_app, !list_elem_of_fmap. destruct b.
  - rewrite <-Hex'. split; [|by left; exists c]. by intros [(?&[= ->]&?)|[(?&?&?)|[(?&?&?)|(?&?&?)]]].
  - rewrite (match_false_iff ex (concat roots) forced) by first [done|intros m Hm%Hex'; by apply exact_match_claim].
    split.
    + intros [(Hsc & Hc & m & Hm%Hex' & Hanc)|[(Hc & m & Hm%Hex' & Hanc)|(p & m & Hm%Hex' & Hanc & Hb)]].
      * by eapply CaChild.
      * by eapply CaParent.
      * by eapply CaForced.
    + intros [m Hsc Hm%Hex' Hc Hanc|m Hm%Hex' Hc Hanc|m p Hm%Hex' Hanc Hb]; [left|right; left|right; right];
        eauto 10.
Qed.
End scope.

(** ** The selection *)

(** A claim that is disclosed with every presentation. *)
Definition always_disclosed (claims : list Claim) (c : Claim) : Prop :=
  c ∈ claims /\ selectively_disclosable c = false /\
  forall a, a ∈ claims -> ancestor (claim_path a) (claim_path c) -> selectively_disclosable a = false.

Definition claim_metadata (c : Claim) : bool :=
  match claim_schema c with Some s => cs_metadata s | None => false end.

(** The matches that were handled so far, and what they add up to at a path. *)
#[local] Notation event := (ClaimFilter * ClaimMatch)%type.
Definition event_at (p : string) (e : event) : bool := String.eqb (claim_path (match_claim e.2)) p.
Definition touched (evs : list event) (p : string) : bool := existsb (event_at p) evs.
Definition required (evs : list event) (p : string) : bool :=
  existsb (fun e => event_at p e && cf_required e.1) evs.
Definition toggled (evs : list event) (p : string) : bool :=
  existsb (fun e => event_at p e && (match_exact e.2 && negb (cf_required e.1))) evs.

Definition entry (claims : list Claim) (base : string -> bool) (evs : list event) (p : string) :
  option SelectedClaim :=
  match find_first (fun c => String.eqb (claim_path c) p) claims with
  | Some c => if base p || touched evs p
              then Some (mkSelectedClaim (claim_path c) (selectively_disclosable c)
                           (required evs p) (toggled evs p) (claim_metadata c))
              else None
  | None => None
  end.

(** Inserting bindings that agree: the map is the list. *)
Lemma foldl_insert {A : Type} (l : list (string * A)) (k : string) (v : A) :
  (forall i x y, (i, x) ∈ l -> (i, y) ∈ l -> x = y) ->
  foldl (fun (m : gmap string A) e => <[e.1 := e.2]> m) ∅ l !! k = Some v <-> (k, v) ∈ l.
Proof.
  induction l as [|[i x] l IH] using rev_ind; intros Hl; [by cbn [foldl]; rewrite lookup_empty, elem_of_nil|].
  rewrite foldl_snoc, elem_of_app, list_elem_of_singleton. cbn [fst snd].
  destruct (decide (i = k)) as [->|Hne].
  - rewrite lookup_insert_eq. split; [by intros [= ->]; right|]. intros Hv. f_equal.
    apply (Hl k); rewrite elem_of_app, list_elem_of_singleton; auto.
  - rewrite lookup_insert_ne, IH by (done || intros j y z Hy Hz; apply (Hl j); rewrite elem_of_app; auto).
    split; [by left|]. intros [?|[= ? ?]]; congruence.
Qed.

Section selection_lemmas.
Context (claims : list Claim) (Hwf : claims_wf claims = true).

Lemma event_elsewhere (evs : list event) (e : event) (p : string) : event_at p e = false ->
  touched (evs ++ [e]) p = touched evs p /\ required (evs ++ [e]) p = required evs p /\
  toggled (evs ++ [e]) p = toggled evs p.
Proof.
  intros He. unfold touched, required, toggled. rewrite !existsb_app. cbn [existsb]. rewrite He.
  cbn [andb orb]. rewrite !orb_false_r. done.
Qed.

Lemma untouched (evs : list event) (p : string) : touched evs p = false ->
  required evs p = false /\ toggled evs p = false.
Proof.
  unfold touched, required, toggled. induction evs as [|e evs IH]; [done|]. cbn [existsb].
  destruct (event_at p e); [done|]. exact IH.
Qed.

Lemma select_match_step (base : string -> bool) (evs : list event) (f : ClaimFilter) (m : ClaimMatch)
  (M : gmap string SelectedClaim) :
  match_claim m ∈ claims -> (forall p, M !! p = entry claims base evs p) ->
  exists M', select_match f M m = Ok M' /\ forall p, M' !! p = entry claims base (evs ++ [(f, m)]) p.
Proof.
  intros Hm HM. destruct m as [c b]. cbn [match_claim] in Hm.
  destruct (wf_schema _ Hwf c Hm) as [schema Hs].
  assert (Hhere : forall s, s = mkSelectedClaim (claim_path c) (selectively_disclosable c)
      (required evs (claim_path c) || cf_required f)
      (toggled evs (claim_path c) || (b && negb (cf_required f))) (claim_metadata c) ->
    forall p, <[claim_path c := s]> M !! p = entry claims base (evs ++ [(f, mkClaimMatch c b)]) p).
  { intros s -> p. destruct (String.eqb_spec (claim_path c) p) as [<-|Hne].
    - assert (He : event_at (claim_path c) (f, mkClaimMatch c b) = true) by apply String.eqb_refl.
      rewrite lookup_insert_eq. unfold entry. rewrite (find_claim _ Hwf) by done.
      unfold touched, required, toggled. rewrite !existsb_app. cbn [existsb].
      rewrite He. cbn [andb fst snd match_exact]. rewrite orb_true_l, !orb_true_r, !orb_false_r. done.
    - rewrite lookup_insert_ne, HM by done. unfold entry.
      destruct (event_elsewhere evs (f, mkClaimMatch c b) p) as (-> & -> & ->); [|done].
      by apply String.eqb_neq. }
  unfold select_match. cbn [match_claim match_exact]. rewrite HM. unfold entry at 1.
  rewrite (find_claim _ Hwf) by done. destruct (base (claim_path c) || touched evs (claim_path c)) eqn:Hb.
  - eexists. split; [reflexivity|]. by apply Hhere.
  - rewrite Hs. cbn [ok_or mbind res_bind]. eexists. split; [reflexivity|]. apply Hhere.
    apply orb_false_iff in Hb as [_ [-> ->]%untouched]. unfold claim_metadata. by rewrite Hs.
Qed.

Lemma select_matches (base : string -> bool) (f : ClaimFilter) (ms : list ClaimMatch) :
  (forall m, m ∈ ms -> match_claim m ∈ claims) -> forall (evs : list event) M,
  (forall p, M !! p = entry claims base evs p) ->
  exists M', try_fold (select_match f) M ms = Ok M' /\
    forall p, M' !! p = entry claims base (evs ++ ((fun m => (f, m)) <$> ms)) p.
Proof.
  induction ms as [|m ms IH]; intros Hms evs M HM.
  { exists M. split; [done|]. intros p. by rewrite app_nil_r. }
  destruct (select_match_step base evs f m M) as (M1 & HM1 & H1); [apply Hms; left|done|].
  cbn [try_fold]. rewrite HM1. cbn [mbind res_bind].
  destruct (IH ltac:(intros; apply Hms; by right) _ _ H1) as (M2 & HM2 & H2).
  exists M2. split; [done|]. intros p. rewrite H2, <-app_assoc. done.
Qed.

(** *** What is disclosed in any case *)

Definition forced_roots : list Claim :=
  List.filter (fun c => negb (selectively_disclosable c) && (depth (claim_path c) =? 0)%nat) claims.

Lemma elem_of_forced_roots (c : Claim) : c ∈ forced_roots <->
  c ∈ claims /\ selectively_disclosable c = false /\ rsplit_once marker (claim_path c) = None.
Proof.
  unfold forced_roots. rewrite !list_elem_of_In, List.filter_In, andb_true_iff, negb_true_iff, Nat.eqb_eq.
  by rewrite rsplit_once_None.
Qed.

Lemma always_disclosed_root (c : Claim) : c ∈ forced_roots -> always_disclosed claims c.
Proof.
  intros (Hc & Hs & Hp)%elem_of_forced_roots. split_and!; [done..|]. intros a _ Ha.
  by inversion Ha as [? ? Hp'|? ? ? Hp' _]; rewrite Hp in Hp'.
Qed.

Lemma always_disclosed_child (a c : Claim) : always_disclosed claims a ->
  c ∈ forced_children claims (claim_path a) -> always_disclosed claims c.
Proof.
  intros (Ha & Hs & Hanc) (Hc & Hsc & q & Hp)%elem_of_forced_children. split_and!; [done..|].
  intros x Hx Hxc. apply (ancestor_parent _ _ _ _ Hp) in Hxc as [Heq|Hxa]; [|by apply Hanc].
  by rewrite (wf_unique _ Hwf x a).
Qed.

Lemma always_disclosed_iff (c : Claim) : always_disclosed claims c <->
  c ∈ forced_roots \/ exists r, r ∈ forced_roots /\ forced_below claims (claim_path r) c.
Proof.
  split.
  - intros H. pose proof H as [Hc _]. revert c Hc H. apply (claim_ind claims Hwf (fun c => always_disclosed claims c -> _)).
    + intros c Hc Hp (_ & Hs & _). left. by apply elem_of_forced_roots.
    + intros c a q Hc Ha Hp IH (_ & Hs & Hanc). right.
      assert (Hch : c ∈ forced_children claims (claim_path a)) by (apply elem_of_forced_children; eauto).
      destruct IH as [Hr|(r & Hr & Hb)].
      * split_and!; [done| |].
        -- apply Hanc; [done|]. by eapply AncParent.
        -- intros x Hx Hxa. apply Hanc; [done|]. by eapply AncStep.
      * exists a. split; [done|]. by apply FbChild.
      * exists r. split; [done|]. by eapply FbStep.
  - intros [Hr%always_disclosed_root|(r & Hr%always_disclosed_root & Hb)]; [done|].
    induction Hb as [c Hc|m c Hm IH Hc]; by eapply always_disclosed_child.
Qed.

Lemma forced_selection_ok (c : Claim) : c ∈ claims ->
  forced_selection c = Ok (claim_path c, mkSelectedClaim (claim_path c) (selectively_disclosable c) false
    false (claim_metadata c)).
Proof.
  intros Hc. unfold forced_selection, claim_metadata. by destruct (wf_schema _ Hwf c Hc) as [schema ->].
Qed.

Lemma nonselective_spec : exists M, nonselective_claims claims = Ok M /\
  forall p s, M !! p = Some s <-> exists c, always_disclosed claims c /\ claim_path c = p /\
    s = mkSelectedClaim p (selectively_disclosable c) false false (claim_metadata c).
Proof.
  unfold nonselective_claims. fold forced_roots.
  destruct (children_spec claims (claim_path <$> forced_roots)) as (ch & -> & Hch). cbn [mbind res_bind].
  assert (Hin : forall c, c ∈ forced_roots ++ ch <-> always_disclosed claims c).
  { intros c. rewrite always_disclosed_iff, elem_of_app, Hch. apply or_iff_compat_l.
    setoid_rewrite list_elem_of_fmap. split; [by intros (p & (r & -> & Hr) & Hb); eauto|].
    intros (r & Hr & Hb). eauto. }
  set (g := fun c => (claim_path c, mkSelectedClaim (claim_path c) (selectively_disclosable c) false
    false (claim_metadata c))).
  rewrite (try_map_total _ g).
  2: { intros c Hc%Hin. apply forced_selection_ok. by destruct Hc. }
  cbn [mbind res_bind]. eexists. split; [reflexivity|]. intros p s.
  rewrite foldl_insert. 2: { intros i x y (a & [= -> ->] & Ha)%list_elem_of_fmap (b & [= Hp ->] & Hb)%list_elem_of_fmap.
    apply Hin in Ha as [Ha _], Hb as [Hb _]. by rewrite (wf_unique _ Hwf a b). }
  rewrite list_elem_of_fmap. unfold g. setoid_rewrite Hin. split.
  - intros (c & [= -> ->] & Hc). eauto.
  - intros (c & Hc & <- & ->). eauto.
Qed.
End selection_lemmas.

(** [addressed]: a match of a filter, direct or carried along. *)
Definition addressed (claims : list Claim) (user : list string) (sc : bool) (f : ClaimFilter)
  (m : ClaimMatch) : Prop :=
  if match_exact m then exact_match claims user f (match_claim m)
  else carried_along claims user sc f (match_claim m).

(** A required filter that no claim fits. *)
Definition unmatched (claims : list Claim) (user : list string) (f : ClaimFilter) : Prop :=
  cf_required f = true /\ forall c, ~ exact_match claims user f c.

(** The selected entry of a claim: its flags say which filters ask for it. *)
Definition entry_of (claims : list Claim) (user : list string) (sc : bool) (fs : list ClaimFilter)
  (c : Claim) (s : SelectedClaim) : Prop :=
  sel_path s = claim_path c /\ sel_selective_disclosure_supported s = selectively_disclosable c /\
  sel_metadata s = claim_metadata c /\
  (sel_required_by_verifier s = true <->
     exists f, f ∈ fs /\ cf_required f = true /\ in_scope claims user sc f c) /\
  (sel_user_selection s = true <->
     exists f, f ∈ fs /\ cf_required f = false /\ exact_match claims user f c).

(** The claims a presentation for the filters discloses. *)
Definition disclosed (claims : list Claim) (user : list string) (sc : bool) (fs : list ClaimFilter)
  (c : Claim) : Prop :=
  always_disclosed claims c \/ exists f, f ∈ fs /\ in_scope claims user sc f c.

Section selection_spec.
Context `{HashOrderLaws}.
Context (claims : list Claim) (Hwf : claims_wf claims = true).
Context (schemas : list ClaimSchema) (format : CredentialFormat) (user : list string) (sc : bool).

Lemma addressed_claim (f : ClaimFilter) (m : ClaimMatch) : addressed claims user sc f m ->
  match_claim m ∈ claims.
Proof.
  unfold addressed. destruct (match_exact m); [by apply exact_match_claim|].
  intros [? _ _ ?|? _ ?|? ? _ _ Hb]; [done..|]. by apply forced_below_claim in Hb as [? _].
Qed.

Definition missing_of (f : ClaimFilter) : MatchedClaim :=
  Missing (cf_path f) format (dcql_path_matches_metadata (cf_path f) schemas user).

Lemma select_one (base : string -> bool) (f : ClaimFilter) evs M missing :
  is_ok (adjust_dcql_path_for_user_claims (cf_path f) user) = true ->
  (forall p, M !! p = entry claims base evs p) ->
  exists M' evs' missing',
    select_for_filter claims schemas format user sc (M, missing) f = Ok (M', missing ++ missing') /\
    (forall p, M' !! p = entry claims base (evs ++ evs') p) /\
    (forall g m, (g, m) ∈ evs' <-> g = f /\ addressed claims user sc f m) /\
    (forall x, x ∈ missing' <-> unmatched claims user f /\ x = missing_of f).
Proof.
  intros Hok HM.
  destruct (get_matching_spec claims Hwf user sc f Hok) as (r & Hr & _ & Hnil & Hel).
  change (forall m, m ∈ r <-> addressed claims user sc f m) in Hel.
  unfold select_for_filter. rewrite Hr. cbn [mbind res_bind fst snd]. destruct r as [|m0 r].
  - assert (Hno : forall m, ~ addressed claims user sc f m) by (by intros m Hm%Hel%elem_of_nil).
    assert (Hevs : forall g m, (g, m) ∈ @nil event <-> g = f /\ addressed claims user sc f m).
    { intros g m. rewrite elem_of_nil. split; [done|]. by intros [_ ?%Hno]. }
    destruct (cf_required f) eqn:Hreq.
    + exists M, [], [missing_of f]. rewrite app_nil_r. split_and!; [done..|]. intros x.
      rewrite list_elem_of_singleton. split; [|by intros []]. intros ->. split; [|done].
      split; [done|]. by apply Hnil.
    + exists M, [], []. rewrite !app_nil_r. split_and!; [done..|]. intros x. rewrite elem_of_nil.
      split; [done|]. intros [[] _]. congruence.
  - destruct (select_matches claims Hwf base f (hash_order _ (m0 :: r))) with (evs := evs) (M := M)
      as (M1 & -> & H1); [|done|].
    { intros m. rewrite hash_order_perm. intros Hm%Hel. by eapply addressed_claim. }
    eexists M1, _, []. rewrite app_nil_r. split_and!; [done|exact H1| |].
    + intros g m. rewrite list_elem_of_fmap. setoid_rewrite hash_order_perm. setoid_rewrite Hel. split.
      * by intros (m' & [= -> ->] & Hm).
      * intros [-> Hm]. eauto.
    + intros x. rewrite elem_of_nil. split; [done|]. intros [[_ Hu] _]. apply Hnil in Hu. done.
Qed.

Lemma select_filters (base : string -> bool) (fs : list ClaimFilter) :
  (forall f, f ∈ fs -> is_ok (adjust_dcql_path_for_user_claims (cf_path f) user) = true) ->
  forall evs M missing, (forall p, M !! p = entry claims base evs p) ->
  exists M' evs' missing',
    try_fold (select_for_filter claims schemas format user sc) (M, missing) fs = Ok (M', missing ++ missing') /\
    (forall p, M' !! p = entry claims base (evs ++ evs') p) /\
    (forall f m, (f, m) ∈ evs' <-> f ∈ fs /\ addressed claims user sc f m) /\
    (forall x, x ∈ missing' <-> exists f, f ∈ fs /\ unmatched claims user f /\ x = missing_of f).
Proof.
  induction fs as [|f fs IH]; intros Hok evs M missing HM.
  { exists M, [], []. rewrite !app_nil_r. split_and!; [done..| |].
    - intros f m. rewrite !elem_of_nil. naive_solver.
    - intros x. setoid_rewrite elem_of_nil. naive_solver. }
  destruct (select_one base f evs M missing (Hok f ltac:(left)) HM)
    as (M1 & evs1 & missing1 & Hrun1 & HM1 & Hevs1 & Hmiss1).
  destruct (IH ltac:(intros; apply Hok; by right) _ M1 (missing ++ missing1) HM1)
    as (M2 & evs2 & missing2 & Hrun2 & HM2 & Hevs2 & Hmiss2).
  exists M2, (evs1 ++ evs2), (missing1 ++ missing2). cbn [try_fold]. rewrite Hrun1. split_and!.
  - rewrite app_assoc. exact Hrun2.
  - intros p. by rewrite app_assoc.
  - intros g m. rewrite elem_of_app, Hevs1, Hevs2, elem_of_cons. clear. naive_solver.
  - intros x. rewrite elem_of_app, Hmiss1, Hmiss2. setoid_rewrite elem_of_cons. clear. naive_solver.
Qed.
End selection_spec.

(** What the events at a path add up to, once they are all matches of the filters. *)
Section flags.
Context (claims : list Claim) (Hwf : claims_wf claims = true) (user : list string) (sc : bool).
Context (fs : list ClaimFilter) (evs : list (ClaimFilter * ClaimMatch)).
Context (Hevs : forall f m, (f, m) ∈ evs <-> f ∈ fs /\ addressed claims user sc f m).

Lemma addressed_scope (f : ClaimFilter) (c : Claim) :
  (exists b, addressed claims user sc f (mkClaimMatch c b)) <-> in_scope claims user sc f c.
Proof.
  unfold addressed, in_scope. split.
  - intros [[] Hm]; [by left|by right].
  - intros [Hm|Hm]; [by exists true|by exists false].
Qed.

Lemma exists_event (P : ClaimFilter * ClaimMatch -> bool) (c : Claim) : c ∈ claims ->
  existsb (fun e => event_at (claim_path c) e && P e) evs = true <->
  exists f b, f ∈ fs /\ addressed claims user sc f (mkClaimMatch c b) /\ P (f, mkClaimMatch c b) = true.
Proof.
  intros Hc. rewrite List.existsb_exists. split.
  - intros ([f [x b]] & Hin%list_elem_of_In & [He Hp]%andb_true_iff).
    apply Hevs in Hin as [Hf Ha]. apply String.eqb_eq in He. cbn in He.
    apply (wf_unique _ Hwf) in He as ->; [eauto 10|by apply addressed_claim in Ha|done].
  - intros (f & b & Hf & Ha & Hp). exists (f, mkClaimMatch c b). split.
    + apply list_elem_of_In, Hevs. done.
    + apply andb_true_iff. split; [apply String.eqb_refl|done].
Qed.

Lemma touched_iff (c : Claim) : c ∈ claims ->
  touched evs (claim_path c) = true <-> exists f, f ∈ fs /\ in_scope claims user sc f c.
Proof.
  intros Hc. setoid_rewrite <-addressed_scope.
  pose proof (exists_event (fun _ => true) c Hc) as He. unfold touched.
  replace (existsb (event_at (claim_path c)) evs)
    with (existsb (fun e => event_at (claim_path c) e && true) evs).
  - rewrite He. clear. naive_solver.
  - clear. induction evs as [|e l IH]; [done|]. cbn [existsb]. by rewrite IH, andb_true_r.
Qed.

Lemma required_iff (c : Claim) : c ∈ claims -> required evs (claim_path c) = true <->
  exists f, f ∈ fs /\ cf_required f = true /\ in_scope claims user sc f c.
Proof.
  intros Hc. setoid_rewrite <-addressed_scope. unfold required.
  rewrite (exists_event (fun e => cf_required e.1)) by done. cbn [fst]. clear. naive_solver.
Qed.

Lemma toggled_iff (c : Claim) : c ∈ claims -> toggled evs (claim_path c) = true <->
  exists f, f ∈ fs /\ cf_required f = false /\ exact_match claims user f c.
Proof.
  intros Hc. unfold toggled.
  rewrite (exists_event (fun e => match_exact e.2 && negb (cf_required e.1))) by done. cbn [fst snd match_exact].
  split.
  - intros (f & b & Hf & Ha & [-> Hr%negb_true_iff]%andb_true_iff). by exists f.
  - intros (f & Hf & Hr & Hm). exists f, true. rewrite Hr. done.
Qed.
End flags.

(** The values of the map that the filters build. *)
Section entries.
Context (claims : list Claim) (Hwf : claims_wf claims = true) (base : string -> bool).
Context (evs : list (ClaimFilter * ClaimMatch)) (M : gmap string SelectedClaim).
Context (HM : forall p, M !! p = entry claims base evs p).

Lemma elem_of_entries (s : SelectedClaim) : s ∈ (map_to_list M).*2 <->
  exists c, c ∈ claims /\ (base (claim_path c) = true \/ touched evs (claim_path c) = true) /\
    s = mkSelectedClaim (claim_path c) (selectively_disclosable c) (required evs (claim_path c))
          (toggled evs (claim_path c)) (claim_metadata c).
Proof.
  rewrite list_elem_of_fmap. setoid_rewrite <-orb_true_iff. split.
  - intros ([p s'] & -> & Hin%elem_of_map_to_list). rewrite HM in Hin. unfold entry in Hin.
    destruct (find_first _ claims) as [c|] eqn:Hf; [|done].
    apply find_first_Some in Hf as [Hc <-%String.eqb_eq].
    destruct (base (claim_path c) || touched evs (claim_path c)) eqn:Hb; [|done]. injection Hin as <-. eauto.
  - intros (c & Hc & Hb & ->). eexists (claim_path c, _). split; [reflexivity|].
    apply elem_of_map_to_list. rewrite HM. unfold entry. rewrite (find_claim _ Hwf) by done. by rewrite Hb.
Qed.

Lemma entries_nodup : NoDup (sel_path <$> (map_to_list M).*2).
Proof.
  assert (Heq : sel_path <$> (map_to_list M).*2 = (map_to_list M).*1); [|rewrite Heq; apply NoDup_fst_map_to_list].
  rewrite <-list_fmap_compose. apply list_fmap_ext. intros i [p s] Hi%list_elem_of_lookup_2%elem_of_map_to_list.
  rewrite HM in Hi. unfold entry in Hi. destruct (find_first _ claims) as [c|] eqn:Hf; [|done].
  apply find_first_Some in Hf as [Hc <-%String.eqb_eq]. case_match; [|done]. by injection Hi as <-.
Qed.
End entries.

Section select_spec.
Context `{HashOrderLaws} `{DcqlFormatters}.

Lemma select_spec (credential : HeldCredential) (filter : CredentialFilter) (formatter : DFormatter)
  (sc : bool) (claims : list Claim) (schemas : list ClaimSchema) :
  held_claims credential = Some claims -> claims_wf claims = true ->
  is_Some (credential_schema (held_credential credential)) ->
  held_claim_schemas credential = Some schemas ->
  let user := user_claims_path formatter in let fs := filter_claims filter in
  (forall f, f ∈ fs -> is_ok (adjust_dcql_path_for_user_claims (cf_path f) user) = true) ->
  exists selected missing,
    select_claims credential filter formatter sc = Ok ((Selected <$> selected) ++ missing) /\
    NoDup (sel_path <$> selected) /\
    (forall s, s ∈ selected <-> exists c, c ∈ claims /\ disclosed claims user sc fs c /\
       entry_of claims user sc fs c s) /\
    (forall c, c ∈ claims -> disclosed claims user sc fs c ->
       exists s, s ∈ selected /\ sel_path s = claim_path c) /\
    (forall x, x ∈ missing <-> exists f, f ∈ fs /\ unmatched claims user f /\
       x = missing_of schemas (filter_format filter) user f).
Proof.
  intros Hcl Hwf [schema Hsch] Hschemas user fs Hok. unfold select_claims.
  rewrite Hcl. cbn [ok_or mbind res_bind].
  destruct (nonselective_spec claims Hwf) as (M0 & -> & HM0). cbn [mbind res_bind].
  rewrite Hsch, Hschemas. cbn [ok_or mbind res_bind].
  set (base := fun p => bool_decide (is_Some (M0 !! p))).
  assert (Hbase : forall c, c ∈ claims -> base (claim_path c) = true <-> always_disclosed claims c).
  { intros c Hc. unfold base. rewrite bool_decide_eq_true. split.
    - intros [s (x & Hx & Heq & _)%HM0]. rewrite <-(wf_unique _ Hwf x c); [done|by destruct Hx|done..].
    - intros Hc'. eexists. apply HM0. eauto. }
  assert (Hent : forall p, M0 !! p = entry claims base [] p).
  { intros p. unfold entry. destruct (M0 !! p) as [s|] eqn:Hp.
    - pose proof Hp as (c & Hc & <- & ->)%HM0. rewrite (find_claim _ Hwf) by (by destruct Hc).
      rewrite (proj2 (Hbase c ltac:(by destruct Hc))) by done. done.
    - unfold base. rewrite Hp. rewrite bool_decide_eq_false_2 by (by intros []).
      by destruct (find_first _ claims). }
  destruct (select_filters claims Hwf schemas (filter_format filter) user sc base fs Hok [] M0 [] Hent)
    as (M & evs & missing & Hrun & HM & Hevs & Hmiss).
  unfold user, fs in Hrun. rewrite Hrun. cbn [mbind res_bind fst snd].
  exists (hash_order _ (map_to_list M).*2), missing. split_and!; [done| | | |done].
  - rewrite hash_order_perm. by eapply entries_nodup.
  - intros s. rewrite hash_order_perm, (elem_of_entries claims Hwf base evs M HM). split.
    + intros (c & Hc & Hd & ->). exists c. rewrite Hbase, touched_iff in Hd by done.
      split_and!; [done..|]. split_and!; [done..| |]; cbn; [by apply required_iff|by apply (toggled_iff _ Hwf _ sc)].
    + intros (c & Hc & Hd & Hp & Hsd & Hmd & Hreq & Htog). exists c. rewrite Hbase, touched_iff by done.
      split_and!; [done..|]. rewrite <-(required_iff claims Hwf user sc fs evs Hevs c Hc) in Hreq.
      rewrite <-(toggled_iff claims Hwf user sc fs evs Hevs c Hc) in Htog.
      destruct s; cbn in *. subst. f_equal; by apply eq_true_iff_eq.
  - intros c Hc Hd. eexists. rewrite hash_order_perm, (elem_of_entries claims Hwf base evs M HM). split.
    + exists c. rewrite Hbase, touched_iff by done. split_and!; [done..|reflexivity].
    + done.
Qed.

Lemma selected_elem (schemas : list ClaimSchema) (format : CredentialFormat) (user : list string)
  (P : ClaimFilter -> Prop) (selected : list SelectedClaim) (missing : list MatchedClaim) (s : SelectedClaim) :
  (forall x, x ∈ missing -> exists f, P f /\ x = missing_of schemas format user f) ->
  Selected s ∈ (Selected <$> selected) ++ missing <-> s ∈ selected.
Proof.
  intros Hmiss. rewrite elem_of_app, list_elem_of_fmap. split; [|by left; eauto].
  intros [(x & [= ->] & ?)|(f & _ & [=])%Hmiss]. done.
Qed.
End select_spec.

(** ** Parents *)

Lemma in_scope_parent (claims : list Claim) (user : list string) (sc : bool) (f : ClaimFilter)
  (c a : Claim) (q : string) : claims_wf claims = true -> a ∈ claims ->
  rsplit_once marker (claim_path c) = Some (claim_path a, q) ->
  in_scope claims user sc f c -> in_scope claims user sc f a.
Proof.
  intros Hwf Ha Hp Hc. assert (Hac : ancestor (claim_path a) (claim_path c)) by (by eapply AncParent).
  destruct Hc as [Hm|[m Hsc Hm Hc Hanc|m Hm Hc Hanc|m p Hm Hanc Hb]].
  - right. by eapply CaParent.
  - apply (ancestor_parent _ _ _ _ Hp) in Hanc as [Heq|Hanc]; [left|right; by eapply CaChild].
    apply (wf_unique _ Hwf) in Heq as <-; [done|by eapply exact_match_claim|done].
  - right. eapply CaParent; [done..|]. by eapply ancestor_trans.
  - right. inversion Hb as [? (_ & _ & q' & Hq)%elem_of_forced_children
                           |x ? Hx (_ & _ & q' & Hq)%elem_of_forced_children]; subst;
      rewrite Hp in Hq; injection Hq as Heq _.
    + rewrite <-Heq in Hanc. by eapply CaParent.
    + apply (wf_unique _ Hwf) in Heq as ->; [by eapply CaForced|done|by apply forced_below_claim in Hx as [? _]].
Qed.

Lemma always_disclosed_parent (claims : list Claim) (c a : Claim) (q : string) : a ∈ claims ->
  rsplit_once marker (claim_path c) = Some (claim_path a, q) ->
  always_disclosed claims c -> always_disclosed claims a.
Proof.
  intros Ha Hp (_ & _ & Hanc). split_and!; [done| |].
  - apply Hanc; [done|]. by eapply AncParent.
  - intros x Hx Hxa. apply Hanc; [done|]. by eapply AncStep.
Qed.

Lemma disclosed_parent (claims : list Claim) (user : list string) (sc : bool) (fs : list ClaimFilter)
  (c a : Claim) (q : string) : claims_wf claims = true -> a ∈ claims ->
  rsplit_once marker (claim_path c) = Some (claim_path a, q) ->
  disclosed claims user sc fs c -> disclosed claims user sc fs a.
Proof.
  intros Hwf Ha Hp [Hc|(f & Hf & Hc)]; [left; by eapply always_disclosed_parent|right].
  exists f. split; [done|]. by eapply in_scope_parent.
Qed.

(** ** Theorems *)

(** The paths that the user claims path of the format allows. *)
Definition paths_supported (user : list string) (fs : list ClaimFilter) : bool :=
  forallb (fun f => is_ok (adjust_dcql_path_for_user_claims (cf_path f) user)) fs.

Lemma paths_supported_elem (user : list string) (fs : list ClaimFilter) : paths_supported user fs = true ->
  forall f, f ∈ fs -> is_ok (adjust_dcql_path_for_user_claims (cf_path f) user) = true.
Proof. unfold paths_supported. rewrite List.forallb_forall. intros Hp f Hf%list_elem_of_In. auto. Qed.

(** A credential that was loaded with its claims and schemas. *)
Record loaded (credential : HeldCredential) (claims : list Claim) (schemas : list ClaimSchema) : Prop := {
  loaded_claims : held_claims credential = Some claims;
  loaded_wf : claims_wf claims = true;
  loaded_schema : is_Some (credential_schema (held_credential credential));
  loaded_schemas : held_claim_schemas credential = Some schemas
}.

(** A DCQL path matches a claim exactly when it denotes the claim: every
    segment fits the claim at its depth, from the claim up to the root. For a
    claim of the user the path is first taken relative to the user claims path
    of the format: a path through it loses that prefix, a path that leaves it is
    compared as it is, and any other path is an error. *)
Theorem path_match_correct (claims : list Claim) (path : ClaimPath) (user : list string) (c : Claim)
  (schema : ClaimSchema) :
  claims_wf claims = true -> c ∈ claims -> claim_schema c = Some schema ->
  let compared ds := if cs_metadata schema then ds = path else user_path user path ds in
  (dcql_path_exactly_matches_claim path c claims user = Ok true <->
     exists ds, compared ds /\ denotes claims ds c) /\
  (dcql_path_exactly_matches_claim path c claims user = Ok false <->
     exists ds, compared ds /\ ~ denotes claims ds c) /\
  (is_ok (dcql_path_exactly_matches_claim path c claims user) = false <-> forall ds, ~ compared ds).
Proof.
  intros Hwf Hc Hs compared.
  assert (Hcmp : forall ds, compared ds <-> effective_path path user c = Ok ds).
  { intros ds. unfold compared, effective_path. rewrite Hs. destruct (cs_metadata schema).
    - split; [by intros ->|by intros [= ->]].
    - by rewrite adjust_spec. }
  setoid_rewrite Hcmp. pose proof (exactly_matches_spec _ Hwf path user c Hc) as Hm.
  destruct (effective_path path user c) as [ds|e|]; [|rewrite Hm; naive_solver..].
  destruct Hm as (b & -> & Hb). cbn [is_ok]. destruct b; split_and!; split; try naive_solver.
Qed.

(** C27: A presentation discloses exactly the claims that cannot be withheld and
    those that a filter asks for or carries along, each once, marked as required
    if a required filter has it in scope and as selectable if an optional filter
    addresses it; a required filter that no claim fits is reported as missing,
    and nothing else is. The selection does not depend on the order of the hash
    maps, and it always returns. *)
Theorem selection_correct `{HashOrderLaws} `{DcqlFormatters} (credential : HeldCredential)
  (filter : CredentialFilter) (formatter : DFormatter) (sc : bool) (claims : list Claim)
  (schemas : list ClaimSchema) :
  loaded credential claims schemas ->
  let user := user_claims_path formatter in let fs := filter_claims filter in
  paths_supported user fs = true ->
  exists l, select_claims credential filter formatter sc = Ok l /\
    (forall s, Selected s ∈ l <-> exists c, c ∈ claims /\ disclosed claims user sc fs c /\
       entry_of claims user sc fs c s) /\
    (forall c, c ∈ claims -> disclosed claims user sc fs c ->
       exists s, Selected s ∈ l /\ sel_path s = claim_path c) /\
    (forall path format metadata, Missing path format metadata ∈ l <->
       exists f, f ∈ fs /\ unmatched claims user f /\ path = cf_path f /\
         format = filter_format filter /\ metadata = dcql_path_matches_metadata path schemas user) /\
    (forall s t, Selected s ∈ l -> Selected t ∈ l -> sel_path s = sel_path t -> s = t).
Proof.
  intros [Hcl Hwf Hsc Hss] user fs Hok.
  destruct (select_spec credential filter formatter sc claims schemas Hcl Hwf Hsc Hss
              (paths_supported_elem _ _ Hok)) as (selected & missing & Hrun & Hnd & Hsel & Hall & Hmiss).
  assert (Hs : forall s, Selected s ∈ (Selected <$> selected) ++ missing <-> s ∈ selected).
  { intros s. apply (selected_elem schemas (filter_format filter) user (fun _ => True)).
    intros x (f & _ & _ & ->)%Hmiss. by exists f. }
  exists ((Selected <$> selected) ++ missing). split_and!; [done|by intros s; rewrite Hs|by setoid_rewrite Hs| |].
  - intros path format metadata. rewrite elem_of_app, list_elem_of_fmap, Hmiss. split.
    + intros [(x & [=] & _)|(f & Hf & Hu & [= -> -> ->])]. exists f. done.
    + intros (f & Hf & Hu & -> & -> & ->). right. exists f. done.
  - intros s t. rewrite !Hs. intros (i & Hi)%list_elem_of_lookup (j & Hj)%list_elem_of_lookup Hst.
    assert (i = j) as ->; [|congruence].
    eapply NoDup_lookup; [exact Hnd|by rewrite list_lookup_fmap, Hi|by rewrite list_lookup_fmap, Hj; cbn; rewrite Hst].
Qed.

(** What is selected is a forest of the credential: the parent of a selected
    claim is selected. And nothing more is given away: a claim that may be
    withheld is selected only if a filter addresses it, a claim below it, or,
    for the presentation of whole subtrees, a claim above it. *)
Theorem selection_minimal `{HashOrderLaws} `{DcqlFormatters} (credential : HeldCredential)
  (filter : CredentialFilter) (formatter : DFormatter) (sc : bool) (claims : list Claim)
  (schemas : list ClaimSchema) (l : list MatchedClaim) (s : SelectedClaim) :
  loaded credential claims schemas ->
  let user := user_claims_path formatter in let fs := filter_claims filter in
  paths_supported user fs = true ->
  select_claims credential filter formatter sc = Ok l -> Selected s ∈ l ->
  (forall p q, rsplit_once marker (sel_path s) = Some (p, q) -> exists t, Selected t ∈ l /\ sel_path t = p) /\
  (sel_selective_disclosure_supported s = true -> exists f m, f ∈ fs /\ exact_match claims user f m /\
     (claim_path m = sel_path s \/ ancestor (sel_path s) (claim_path m) \/
      sc = true /\ ancestor (claim_path m) (sel_path s))).
Proof.
  intros [Hcl Hwf Hsc Hss] user fs Hok Hl Hs.
  destruct (select_spec credential filter formatter sc claims schemas Hcl Hwf Hsc Hss
              (paths_supported_elem _ _ Hok)) as (selected & missing & Hrun & _ & Hsel & Hall & Hmiss).
  rewrite Hrun in Hl. injection Hl as <-.
  assert (Hin : forall s, Selected s ∈ (Selected <$> selected) ++ missing <-> s ∈ selected).
  { intros t. apply (selected_elem schemas (filter_format filter) user (fun _ => True)).
    intros x (f & _ & _ & ->)%Hmiss. by exists f. }
  rewrite Hin, Hsel in Hs. destruct Hs as (c & Hc & Hd & Hp & Hsd & _). rewrite Hp, Hsd. split.
  - intros p q Hq. destruct (wf_parent _ Hwf _ _ _ Hc Hq) as (a & Ha & <-).
    destruct (Hall a Ha) as (t & Ht & Hpt); [by eapply disclosed_parent|].
    exists t. by rewrite Hin.
  - intros Hsel_d. destruct Hd as [(_ & Hn & _)|(f & Hf & Hd)]; [congruence|].
    exists f. destruct Hd as [Hm|[m ? Hm _ Hanc|m Hm _ Hanc|m p _ _ (_ & Hn & _)%forced_below_claim]];
      [by exists c; auto|exists m; auto 10..|congruence].
Qed.

(** ** Claim sets *)

Lemma all_selected_app (selected : list SelectedClaim) (missing : list MatchedClaim) :
  (forall x, x ∈ missing -> exists p f m, x = Missing p f m) ->
  all_selected ((Selected <$> selected) ++ missing) =
  match missing with [] => Some selected | _ => None end.
Proof.
  intros Hm. induction selected as [|s l IH].
  - destruct missing as [|x missing]; [done|]. destruct (Hm x ltac:(left)) as (p & f & m & ->). done.
  - rewrite fmap_cons. cbn [app all_selected]. rewrite IH. by destruct missing.
Qed.

Lemma select_matching_spec `{HashOrderLaws} `{DcqlFormatters} (credential : HeldCredential)
  (filter : CredentialFilter) (formatter : DFormatter) (claims : list Claim)
  (schemas : list ClaimSchema) :
  loaded credential claims schemas ->
  let user := user_claims_path formatter in let fs := filter_claims filter in
  paths_supported user fs = true ->
  exists r, select_matching_claims credential filter formatter = Ok r /\
    match r with
    | None => exists f, f ∈ fs /\ unmatched claims user f
    | Some l => (forall f, f ∈ fs -> ~ unmatched claims user f) /\
        (forall s, s ∈ l <-> exists c, c ∈ claims /\ disclosed claims user true fs c /\
           entry_of claims user true fs c s) /\
        (forall c, c ∈ claims -> disclosed claims user true fs c ->
           exists s, s ∈ l /\ sel_path s = claim_path c)
    end.
Proof.
  intros [Hcl Hwf Hsc Hss] user fs Hok. unfold select_matching_claims.
  destruct (select_spec credential filter formatter true claims schemas Hcl Hwf Hsc Hss
              (paths_supported_elem _ _ Hok)) as (selected & missing & -> & _ & Hsel & Hall & Hmiss).
  cbn [mbind res_bind]. eexists. split; [reflexivity|]. rewrite all_selected_app.
  2: { intros x (f & _ & _ & ->)%Hmiss. unfold missing_of. eauto. }
  destruct missing as [|x missing].
  - split_and!; [|done..]. intros f Hf Hu. assert (Hx : missing_of schemas (filter_format filter) user f ∈ @nil MatchedClaim).
    { apply Hmiss. eauto. } by apply elem_of_nil in Hx.
  - destruct (proj1 (Hmiss x) ltac:(left)) as (f & Hf & Hu & _). eauto.
Qed.

(** Claim sets are tried in the order of the query: the presentation is the
    selection for the first one of which nothing required is missing, with the
    claims below the requested ones; there is none if every claim set lacks a
    required claim. *)
Theorem first_claim_set_wins `{HashOrderLaws} `{DcqlFormatters} (credential : HeldCredential)
  (filters : list CredentialFilter) (formatter : DFormatter) (claims : list Claim)
  (schemas : list ClaimSchema) :
  loaded credential claims schemas ->
  let user := user_claims_path formatter in
  forallb (fun flt => paths_supported user (filter_claims flt)) filters = true ->
  exists r, first_matching_claims credential filters formatter = Ok r /\
    match r with
    | None => forall flt, flt ∈ filters -> exists f, f ∈ filter_claims flt /\ unmatched claims user f
    | Some l => exists pre flt post, filters = pre ++ flt :: post /\
        (forall g, g ∈ pre -> exists f, f ∈ filter_claims g /\ unmatched claims user f) /\
        (forall f, f ∈ filter_claims flt -> ~ unmatched claims user f) /\
        (forall s, s ∈ l <-> exists c, c ∈ claims /\ disclosed claims user true (filter_claims flt) c /\
           entry_of claims user true (filter_claims flt) c s) /\
        (forall c, c ∈ claims -> disclosed claims user true (filter_claims flt) c ->
           exists s, s ∈ l /\ sel_path s = claim_path c)
    end.
Proof.
  intros Hload user. induction filters as [|flt filters IH]; intros Hok.
  { exists None. split; [done|]. by intros flt Hf%elem_of_nil. }
  cbn [forallb] in Hok. apply andb_true_iff in Hok as [Hf Hok].
  destruct (select_matching_spec credential flt formatter claims schemas Hload Hf) as (r & Hr & Hspec).
  cbn [first_matching_claims]. rewrite Hr. cbn [mbind res_bind]. destruct r as [l|].
  - exists (Some l). split; [done|]. exists [], flt, filters. split; [done|]. split; [|done].
    by intros g Hg%elem_of_nil.
  - destruct (IH Hok) as (r & Hrun & Hrest). exists r. split; [done|]. destruct r as [l|].
    + destruct Hrest as (pre & g & post & -> & Hpre & Hrest). exists (flt :: pre), g, post.
      split; [done|]. split; [|done]. intros x [->|Hx]%elem_of_cons; auto.
    + intros x [->|Hx]%elem_of_cons; auto.
Qed.

(** ** Filters of a query *)

(** The last query with an id. *)
Definition last_with_id (claims : list ClaimQuery) (id : string) (cq : ClaimQuery) : Prop :=
  exists pre post, claims = pre ++ cq :: post /\ cq_id cq = Some id /\
    forall x, x ∈ post -> cq_id x <> Some id.

Lemma claim_filters_to_map_spec (claims : list ClaimQuery) :
  match claim_filters_to_map claims with
  | Ok m => (forall q, q ∈ claims -> is_Some (cq_id q)) /\
      forall id f, m !! id = Some f <-> exists q, last_with_id claims id q /\ f = claim_filter_of q
  | Err (MissingClaimQueryId p) => exists pre q post, claims = pre ++ q :: post /\ cq_id q = None /\
      cq_path q = p /\ forall x, x ∈ pre -> is_Some (cq_id x)
  | _ => False
  end.
Proof.
  unfold claim_filters_to_map. induction claims as [|q l IH] using rev_ind.
  { split; [by intros q Hq%elem_of_nil|]. intros id f. cbn [try_fold]. rewrite lookup_empty.
    split; [done|]. by intros (q & (pre & post & Heq & _) & _); destruct pre. }
  rewrite try_fold_app. destruct (try_fold _ ∅ l) as [m|[p|u]|]; cbn [mbind res_bind try_fold]; [| |done..].
  2: { destruct IH as (pre & x & post & -> & ? & ? & ?). exists pre, x, (post ++ [q]). by rewrite <-app_assoc. }
  destruct IH as [Hids Hm]. destruct (cq_id q) as [i|] eqn:Hq; cbn [ok_or mbind res_bind]; [|by exists l, q, []].
  split.
  - intros x [Hx|Hx%list_elem_of_singleton]%elem_of_app; [by apply Hids|]. subst x. by rewrite Hq.
  - intros id f. destruct (decide (i = id)) as [->|Hne].
    + rewrite lookup_insert_eq. split.
      * intros [= <-]. exists q. split; [|done]. exists l, []. split_and!; [done..|]. by intros x Hx%elem_of_nil.
      * intros (x & (pre & post & Heq & Hx & Hpost) & ->). do 2 f_equal.
        destruct post as [|y post _] using rev_ind; [by apply app_inj_tail in Heq as [_ ?]|].
        rewrite app_comm_cons, app_assoc in Heq. apply app_inj_tail in Heq as [_ <-].
        exfalso. apply (Hpost q); [|done]. apply elem_of_app. right. by apply list_elem_of_singleton.
    + rewrite lookup_insert_ne, Hm by done. split.
      * intros (x & (pre & post & -> & Hx & Hpost) & ->). exists x. split; [|done]. exists pre, (post ++ [q]).
        rewrite <-app_assoc. split_and!; [done..|].
        intros y [Hy|Hy%list_elem_of_singleton]%elem_of_app; [by apply Hpost|]. subst y. congruence.
      * intros (x & (pre & post & Heq & Hx & Hpost) & ->). exists x. split; [|done].
        destruct post as [|y post _] using rev_ind; [apply app_inj_tail in Heq as [_ ->]; congruence|].
        rewrite app_comm_cons, app_assoc in Heq. apply app_inj_tail in Heq as [-> ->]. exists pre, post.
        split_and!; [done..|]. intros z Hz. apply Hpost, elem_of_app. by left.
Qed.

Lemma no_last_with_id (claims : list ClaimQuery) (id : string) (q : ClaimQuery) :
  (forall x, ~ last_with_id claims id x) -> q ∈ claims -> cq_id q <> Some id.
Proof.
  revert q. induction claims as [|x l IH]; intros q Hno Hq; [by apply elem_of_nil in Hq|].
  assert (Hl : forall y, ~ last_with_id l id y).
  { intros y (pre & post & -> & Hy). apply (Hno y). by exists (x :: pre), post. }
  apply elem_of_cons in Hq as [->|Hq]; [|by apply IH]. intros Hx. apply (Hno x). exists [], l.
  split_and!; [done..|]. intros y Hy. by apply IH.
Qed.

(** The claim sets of a credential query become filters in their order: each
    lists the claims its ids name (the last query that has the id), with the
    format and the schema ids of the query. The first claim query without an id,
    or an id that no claim query has, is the error. *)
Theorem claim_sets_resolved (q : CredentialQuery) (claims : list ClaimQuery) (sets : list (list string)) :
  query_claims q = Some claims -> claims <> [] -> query_claim_sets q = Some sets ->
  match query_filters q with
  | Ok fs => Forall2 (fun set f => filter_format f = query_format q /\
        filter_schema_ids f = meta_schema_ids (query_meta q) /\
        Forall2 (fun id cf => exists cq, last_with_id claims id cq /\ cf = claim_filter_of cq)
          set (filter_claims f)) sets fs
  | Err (MissingClaimQueryId p) => exists pre cq post, claims = pre ++ cq :: post /\ cq_id cq = None /\
        cq_path cq = p /\ forall x, x ∈ pre -> is_Some (cq_id x)
  | Err (UnknownClaimQueryId id) => exists set, set ∈ sets /\ id ∈ set /\
        forall cq, cq ∈ claims -> cq_id cq <> Some id
  | Panic => False
  end.
Proof.
  intros Hc Hne Hs. unfold query_filters. rewrite Hc, Hs. destruct claims as [|c0 cs]; [done|].
  unfold process_claims. set (cl := c0 :: cs). pose proof (claim_filters_to_map_spec cl) as Hm.
  destruct (claim_filters_to_map cl) as [m|[p|u]|]; cbn [mbind res_bind]; [|done..].
  destruct Hm as [Hids Hm]. set (one := fun id => ok_or (m !! id) (UnknownClaimQueryId id)).
  destruct (try_map _ sets) as [fs|e|] eqn:Hrun.
  - apply try_map_ok in Hrun. eapply Forall2_impl; [exact Hrun|]. cbn beta. intros set f Hf.
    destruct (try_map one set) as [cfs| |] eqn:Hset; cbn [mbind res_bind] in Hf; [|done..].
    injection Hf as <-. split_and!; [done..|]. cbn [filter_claims].
    apply try_map_ok in Hset. eapply Forall2_impl; [exact Hset|]. cbn beta. intros id cf Hid.
    apply ok_or_ok, Hm in Hid. exact Hid.
  - apply try_map_err in Hrun as (set & Hset & Hf).
    destruct (try_map one set) as [cfs|e'|] eqn:Ht; cbn [mbind res_bind] in Hf; [done| |done].
    injection Hf as <-. apply try_map_err in Ht as (id & Hid & Hf).
    unfold one in Hf. destruct (m !! id) as [cf|] eqn:Hlook; [done|]. cbn [ok_or] in Hf. injection Hf as <-.
    exists set. split_and!; [done..|]. intros cq Hcq Heq. eapply no_last_with_id; [|exact Hcq|exact Heq].
    intros x Hx. rewrite (proj2 (Hm id (claim_filter_of x))) in Hlook by eauto. done.
  - revert Hrun. apply try_map_no_panic. intros set _ Hf.
    destruct (try_map _ set) as [cfs|e'|] eqn:Ht; cbn [mbind res_bind] in Hf; [done..|].
    revert Ht. apply try_map_no_panic. intros id _. unfold one. by destruct (m !! id).
Qed.

(** ** Witnesses *)

Module DcqlWitness.
#[local] Open Scope string_scope.

#[export] Instance order : HashOrder := { hash_order := fun _ l => rev l }.
#[export] Instance order_laws : HashOrderLaws.
Proof. constructor. intros A l. cbn. symmetry. apply Permutation_rev. Defined.

(** One formatter whose user claims are at the top, and one with W3C's prefix. *)
#[export] Instance formatters : DcqlFormatters := {
  DFormatter := bool;
  dcql_formatter := fun f => if String.eqb f "MDOC" then Some false
                             else if String.eqb f "JWT" then Some true else None;
  user_claims_path := fun w3c => if w3c then ["vc"; "credentialSubject"] else [];
  metadata_claims := fun _ => [mkClaimSchema 9 "iat" "NUMBER" false true false]
}.

Definition plain : @DFormatter formatters := false.
Definition w3c : @DFormatter formatters := true.

Definition object (id : Z) (key : string) (array : bool) : ClaimSchema :=
  mkClaimSchema id key "OBJECT" array false true.
Definition text (id : Z) (key : string) (array : bool) : ClaimSchema :=
  mkClaimSchema id key "STRING" array false true.

Definition address := mkClaim 1 None "address" true (Some (object 1 "address" false)).
Definition street := mkClaim 2 (Some "Main") "address/street" true (Some (text 2 "address/street" false)).
Definition country := mkClaim 3 (Some "CH") "address/country" false (Some (text 3 "address/country" false)).
Definition tags := mkClaim 4 None "address/tags" true (Some (text 4 "address/tags" true)).
Definition tag0 := mkClaim 5 (Some "home") "address/tags/0" true (Some (text 4 "address/tags" true)).
Definition name := mkClaim 6 (Some "Ada") "name" true (Some (text 6 "name" false)).
Definition iat := mkClaim 7 (Some "17") "iat" false (Some (mkClaimSchema 9 "iat" "NUMBER" false true false)).
Definition claims := [address; street; country; tags; tag0; name; iat].
Definition schemas := [object 1 "address" false; text 2 "address/street" false; text 3 "address/country" false;
  text 4 "address/tags" true; text 6 "name" false; mkClaimSchema 9 "iat" "NUMBER" false true false].

Definition credential : HeldCredential :=
  mkHeldCredential (mkCredential 1 None Holder CsAccepted None None None None
    (Some (mkCredentialSchema 1 true None (Some 1) "MDOC"))) (Some claims) (Some schemas).

Definition by_path (path : ClaimPath) (required : bool) : ClaimFilter := mkClaimFilter path [] required.
Definition street_filter := mkCredentialFilter MsoMdoc ["doc"]
  [by_path [PropertyName "address"; PropertyName "street"] true; by_path [PropertyName "name"] false].
Definition age_filter := mkCredentialFilter MsoMdoc ["doc"] [by_path [PropertyName "age"] true].

Lemma loaded_example : loaded credential claims schemas.
Proof. constructor; [reflexivity|vm_compute; reflexivity|by eexists|reflexivity]. Qed.
End DcqlWitness.
Import DcqlWitness.

Lemma path_match_correct_witness :
  (dcql_path_exactly_matches_claim [PropertyName "address"; PropertyName "street"] street claims [] = Ok true <->
     exists ds, user_path [] [PropertyName "address"; PropertyName "street"] ds /\ denotes claims ds street) /\
  dcql_path_exactly_matches_claim [PropertyName "address"; PropertyName "street"] street claims [] = Ok true.
Proof.
  split; [|vm_compute; reflexivity].
  apply (path_match_correct claims [PropertyName "address"; PropertyName "street"] [] street
           (text 2 "address/street" false)); [vm_compute; reflexivity| |reflexivity].
  right; left.
Defined.

Lemma selection_correct_witness :
  exists l, select_claims credential street_filter plain false = Ok l /\
    (forall s t, Selected s ∈ l -> Selected t ∈ l -> sel_path s = sel_path t -> s = t).
Proof.
  destruct (@selection_correct order order_laws formatters credential street_filter plain false claims schemas loaded_example
              ltac:(vm_compute; reflexivity)) as (l & Hl & _ & _ & _ & Hu).
  exists l. split; [exact Hl|exact Hu].
Defined.

Lemma selection_minimal_witness : exists l t,
  select_claims credential street_filter plain false = Ok l /\ Selected t ∈ l /\ sel_path t = "address"%string.
Proof.
  destruct (select_claims credential street_filter plain false) as [l| |] eqn:Hl; [|vm_compute in Hl; discriminate Hl..].
  assert (Hin : Selected (mkSelectedClaim "address/street" true true false false) ∈ l).
  { vm_compute in Hl. injection Hl as <-. apply (bool_decide_unpack _). vm_compute. reflexivity. }
  destruct (@selection_minimal order order_laws formatters credential street_filter plain false claims schemas l _ loaded_example
              ltac:(vm_compute; reflexivity) Hl Hin) as [Hp _].
  destruct (Hp "address"%string "street"%string ltac:(vm_compute; reflexivity)) as (t & Ht & Hpt).
  exists l, t. split; [reflexivity|]. split; [exact Ht|exact Hpt].
Defined.

Lemma first_claim_set_wins_witness : exists r,
  first_matching_claims credential [age_filter; street_filter] plain = Ok r /\ is_Some r.
Proof.
  destruct (@first_claim_set_wins order order_laws formatters credential [age_filter; street_filter] plain claims schemas loaded_example
              ltac:(vm_compute; reflexivity)) as (r & Hr & _).
  exists r. split; [exact Hr|]. vm_compute in Hr. injection Hr as <-. eexists. reflexivity.
Defined.

Definition address_query (sets : list (list string)) : CredentialQuery :=
  mkCredentialQuery "q" MsoMdoc (MetaMsoMdoc "doc")
    (Some [mkClaimQuery (Some "a"%string) [PropertyName "name"] None None;
           mkClaimQuery (Some "b"%string) [PropertyName "address"; PropertyName "street"] None (Some false)])
    (Some sets) None false true.

Lemma claim_sets_resolved_witness :
  is_ok (query_filters (address_query [["b"; "a"]; ["a"]]%string)) = true /\
  match query_filters (address_query [["c"]]%string) with
  | Err (UnknownClaimQueryId id) => exists set, set ∈ [["c"]]%string /\ id ∈ set
  | _ => False
  end.
Proof.
  split; [vm_compute; reflexivity|].
  pose proof (claim_sets_resolved (address_query [["c"]]%string) _ [["c"]]%string eq_refl ltac:(discriminate) eq_refl) as Hs.
  destruct (query_filters (address_query [["c"]]%string)) as [fs|[p|id]|] eqn:Hq; [vm_compute in Hq; discriminate Hq..| |exact Hs].
  destruct Hs as (set & Hin & Hid & _). exists set. split; [exact Hin|exact Hid].
Defined.

(** A DCQL path with [null] selects the elements of an array, but the code
    asks only whether the claim at that depth has an array schema: in an object
    [address] with an array [tags], the path [address, null] matches the property
    [address/tags], although [address] is no array, and the array is presented
    for it. *)
Theorem null_selects_property :
  dcql_path_exactly_matches_claim [PropertyName "address"; ArrayAll] tags claims [] = Ok true /\
  (claim_schema address ≫= fun s => Some (cs_array s)) = Some false /\
  exists l s, select_claims credential
      (mkCredentialFilter MsoMdoc ["doc"%string] [by_path [PropertyName "address"; ArrayAll] true]) plain false = Ok l /\
    Selected s ∈ l /\ sel_path s = "address/tags"%string.
Proof.
  split; [vm_compute; reflexivity|]. split; [reflexivity|].
  eexists _, (mkSelectedClaim "address/tags" true true false false). split; [vm_compute; reflexivity|].
  split; [|reflexivity]. apply (bool_decide_unpack _). vm_compute. reflexivity.
Qed.
