(* ===== verification/Datatypes.v ===== *)
(** * Datatype validation

    Models [lib/one-core-portable/src/config/validator/datatype.rs]: the checks
    on the value of a claim for its configured datatype. The configuration is a
    map of entries; what serde makes of the parameters of an entry is part of
    the entry. Regular expressions, dates and floats are the class
    [ValueOps]. *)

From S2P Require Import Prelude.
From S2P Require Import Paths.
From Stdlib Require Import Ascii String.
#[local] Notation length := Datatypes.length.
#[local] Open Scope Z_scope.

(** ** Configuration *)

Inductive DatatypeType := DtString | DtNumber | DtDate | DtPicture | DtSwiyuPicture | DtObject | DtArray
| DtBoolean.
#[export] Instance DatatypeType_eq_dec : EqDecision DatatypeType.
Proof. solve_decision. Defined.

Inductive DateFormat := FmtDate | FmtDatetime.
#[export] Instance DateFormat_eq_dec : EqDecision DateFormat.
Proof. solve_decision. Defined.

(** The regex, time and float operations. *)
Class ValueOps := {
  Regex : Type;
  regex_new : string -> option Regex;
  regex_is_match : Regex -> string -> bool;
  F64 : Type;
  parse_f64 : string -> option F64;
  f64_lt : F64 -> F64 -> bool;
  (** days, and seconds since the epoch *)
  parse_date : string -> option Z;
  parse_rfc3339 : string -> option Z;
  now_utc : Z
}.

Section datatypes.
Context `{ValueOps}.

Record StringParams := { sp_pattern : option string }.
Record NumberParams := { np_min : option F64; np_max : option F64 }.
Record DateParams := {
  dp_formats : list DateFormat;
  dp_preferred_format : option DateFormat;
  dp_min : option string;
  dp_max : option string
}.
Record FileParams := { fp_accept : option (list string); fp_file_size : option Z }.

(** The deserialized parameters of an entry, for the type of the entry. *)
Inductive DatatypeParams :=
| PString (p : StringParams)
| PNumber (p : NumberParams)
| PDate (p : DateParams)
| PFile (p : FileParams)
| PEmpty.

Record DatatypeFields := mkDatatypeFields {
  df_type : DatatypeType;
  df_enabled : bool;
  df_params : DatatypeParams
}.

#[local] Notation DatatypeConfig := (gmap string DatatypeFields).

Inductive DatatypeValidationError :=
| StringInvalidPattern
| StringNotMatchingPattern (value pattern : string)
| NumberParseFailure
| NumberTooSmall
| NumberTooBig
| BooleanParseFailure
| DateParseFailure
| MissingFormats
| PreferredFormatNotAllowed
| DateTooEarly (value min : string)
| DateTooLate (value max : string)
| FileParseIncorrectSchema (scheme : string)
| FileParseMissingDataPart
| FileUnsupportedMediaType (media_type : string)
| FileParseNoBase64
| FileTooLong
| ObjectValueShouldNotBeSpecifiedInRequest
| ArrayValueShouldNotBeSpecifiedInRequest
| IndexParseFailure.

Inductive ConfigValidationError :=
| EntryDisabled (key : string)
| EntryNotFound (key : string)
| FieldsDeserialization (key : string)
| DatatypeValidation (e : DatatypeValidationError).

(** [ConfigBlock::get_fields] and [ConfigExt::get_if_enabled]. *)
Definition get_fields {A : Type} (config : gmap string A) (key : string) :
  res ConfigValidationError A :=
  ok_or (config !! key) (EntryNotFound key).

Definition get_if_enabled {A : Type} (enabled : A -> bool) (config : gmap string A) (key : string) :
  res ConfigValidationError A :=
  fields ← ok_or (config !! key) (EntryNotFound key);
  if negb (enabled fields) then Err (EntryDisabled key) else Ok fields.

Fixpoint validate_datatypes (query_datatypes : list string) (config : DatatypeConfig) :
  res ConfigValidationError unit :=
  match query_datatypes with
  | [] => Ok tt
  | datatype :: rest => _ ← get_if_enabled df_enabled config datatype; validate_datatypes rest config
  end.

(** ** Values *)

Definition validate_string (value : string) (params : StringParams) :
  res DatatypeValidationError unit :=
  match sp_pattern params with
  | None => Ok tt
  | Some pattern =>
      regex ← ok_or (regex_new pattern) StringInvalidPattern;
      if regex_is_match regex value then Ok tt else Err (StringNotMatchingPattern value pattern)
  end.

(** [str::parse::<bool>]. *)
Definition parse_bool (value : string) : option bool :=
  if String.eqb value "true" then Some true
  else if String.eqb value "false" then Some false else None.

Definition validate_boolean (value : string) : res DatatypeValidationError unit :=
  _ ← ok_or (parse_bool value) BooleanParseFailure; Ok tt.

Definition validate_number (value : string) (params : NumberParams) :
  res DatatypeValidationError unit :=
  number ← ok_or (parse_f64 value) NumberParseFailure;
  _ ← match np_min params with
      | Some min => if f64_lt number min then Err NumberTooSmall else Ok tt
      | None => Ok tt
      end;
  match np_max params with
  | Some max => if f64_lt max number then Err NumberTooBig else Ok tt
  | None => Ok tt
  end.

Definition seconds_per_day : Z := 86400.

Definition parse_min_max_date (value : string) : res DatatypeValidationError Z :=
  if String.eqb value "NOW" then Ok (now_utc / seconds_per_day)
  else ok_or (parse_date value) DateParseFailure.

Definition parse_min_max_datetime (value : string) : res DatatypeValidationError Z :=
  if String.eqb value "NOW" then Ok now_utc
  else match parse_date value with
       | Some date => Ok (date * seconds_per_day)
       | None => ok_or (parse_rfc3339 value) DateParseFailure
       end.

(** The common shape of [validate_date_format_date] and
    [validate_date_format_datetime]: the value between the bounds. *)
Definition validate_date_bounds (value : string) (date : Z)
  (parse_bound : string -> res DatatypeValidationError Z) (params : DateParams) :
  res DatatypeValidationError unit :=
  _ ← match dp_min params with
      | Some min => min_date ← parse_bound min;
                    if date <? min_date then Err (DateTooEarly value min) else Ok tt
      | None => Ok tt
      end;
  match dp_max params with
  | Some max => max_date ← parse_bound max;
                if max_date <? date then Err (DateTooLate value max) else Ok tt
  | None => Ok tt
  end.

Definition validate_date_format_date (value : string) (params : DateParams) :
  res DatatypeValidationError unit :=
  date ← ok_or (parse_date value) DateParseFailure;
  validate_date_bounds value date parse_min_max_date params.

Definition validate_date_format_datetime (value : string) (params : DateParams) :
  res DatatypeValidationError unit :=
  datetime ← ok_or (parse_rfc3339 value) DateParseFailure;
  validate_date_bounds value datetime parse_min_max_datetime params.

Definition validate_date_params (params : DateParams) : res DatatypeValidationError unit :=
  match dp_formats params with
  | [] => Err MissingFormats
  | formats =>
      match dp_preferred_format params with
      | Some f => if bool_decide (f ∈ formats) then Ok tt else Err PreferredFormatNotAllowed
      | None => Ok tt
      end
  end.

Definition validate_date (value : string) (params : DateParams) : res DatatypeValidationError unit :=
  _ ← validate_date_params params;
  let results := (fun format => match format with
                                | FmtDate => validate_date_format_date value params
                                | FmtDatetime => validate_date_format_datetime value params
                                end) <$> dp_formats params in
  let valid := List.filter is_ok results in
  let errors := List.filter (fun r => negb (is_ok r)) results in
  match valid, last errors with
  | [], Some last_error => last_error
  | _, _ => Ok tt
  end.

(** ** Pictures *)

Definition ends_with (suffix s : string) : bool :=
  String.eqb (String.substring (String.length s - String.length suffix) (String.length suffix) s) suffix &&
  (String.length suffix <=? String.length s)%nat.

(** [usize] arithmetic wraps. *)
Definition base64_byte_length (data : string) : Z :=
  let num_bytes := if ends_with "==" data then 2 else if ends_with "=" data then 1 else 0 in
  (Z.of_nat (String.length data) * 3 / 4 - num_bytes) mod (usize_max + 1).

(** [s.contains(p)]. *)
Fixpoint contains_str (p s : string) : bool :=
  starts_with p s || match s with EmptyString => false | String _ s => contains_str p s end.

(** [s.trim_start_matches(p)]: the pattern is removed as often as it is there. *)
Fixpoint trim_start_matches (fuel : nat) (p s : string) : string :=
  match fuel with
  | O => s
  | S fuel => if starts_with p s
              then trim_start_matches fuel p
                     (String.substring (String.length p) (String.length s - String.length p) s)
              else s
  end.

Definition validate_picture (value : string) (max_size : option Z) (accept : option (list string)) :
  res DatatypeValidationError unit :=
  match split_on "," value with
  | [] => Err FileParseMissingDataPart
  | media_part :: parts =>
      if negb (starts_with "data:" media_part) then
        Err (FileParseIncorrectSchema (default ""%string (head (split_on ":" media_part))))
      else
        let content_type := trim_start_matches (String.length media_part) "data:" media_part in
        if negb (contains_str "base64" content_type) then Err FileParseNoBase64
        else
          _ ← match accept with
              | Some accept =>
                  let media_type := default ""%string (head (split_on ";" content_type)) in
                  if bool_decide (media_type ∈ accept) then Ok tt
                  else Err (FileUnsupportedMediaType media_type)
              | None => Ok tt
              end;
          data_part ← ok_or (head parts) FileParseMissingDataPart;
          match max_size with
          | Some max_file_size =>
              if max_file_size <? base64_byte_length data_part then Err FileTooLong else Ok tt
          | None => Ok tt
          end
  end.

Definition validate_object (value : string) : res DatatypeValidationError unit :=
  Err ObjectValueShouldNotBeSpecifiedInRequest.
Definition validate_array (value : string) : res DatatypeValidationError unit :=
  Err ArrayValueShouldNotBeSpecifiedInRequest.

(** ** Dispatch *)

(** The parameters must deserialize for the type of the entry. *)
Definition validate_datatype_value (value datatype : string) (config : DatatypeConfig) :
  res ConfigValidationError unit :=
  fields ← get_fields config datatype;
  match df_type fields, df_params fields with
  | DtString, PString p => map_err DatatypeValidation (validate_string value p)
  | DtNumber, PNumber p => map_err DatatypeValidation (validate_number value p)
  | (DtSwiyuPicture | DtPicture), PFile p =>
      map_err DatatypeValidation (validate_picture value (fp_file_size p) (fp_accept p))
  | DtObject, PEmpty => map_err DatatypeValidation (validate_object value)
  | DtArray, PEmpty => map_err DatatypeValidation (validate_array value)
  | DtBoolean, PEmpty => map_err DatatypeValidation (validate_boolean value)
  | DtDate, PDate p => map_err DatatypeValidation (validate_date value p)
  | _, _ => Err (FieldsDeserialization datatype)
  end.
End datatypes.

Notation DatatypeConfig := (gmap string DatatypeFields).
