(* ===== verification/CreateClaims.v ===== *)
(** * Claims of a new credential

    Models the checks on the claims of a credential request,
    [lib/one-core/src/service/credential/validator.rs], and the claims that are
    made of them, [claims_from_create_request] of [mapper.rs]: a request names
    the leaves, the objects and arrays above them are added. *)

From S2P Require Import Prelude StatusBits KeySelection RevocationRepo RevocationMethod.
From S2P Require Import Paths Dcql DcqlSpec Datatypes.
From Stdlib Require Import Ascii.
#[local] Open Scope Z_scope.

(** ** Data *)

Record CredentialRequestClaim := mkRequestClaim {
  rc_claim_schema_id : Z;
  rc_value : string;
  rc_path : string
}.

(** [MappingError] with the kind of its message. *)
Inductive MappingReason :=
| MrClaimSchemasNone
| MrMissingSubclaimKey
| MrArrayStart
| MrNotContinuous
| MrRegex
| MrSegmentIndex
| MrSegmentCount
| MrSchemaIndex
| MrUnexpectedSegment (expected found : string)
| MrNoArrayIndex (path : string)
| MrSchemaPath (path : string)
| MrSchemaNotFound (path : string).

(** [CredentialServiceError]; [CseNested] has the error that was wrapped. *)
Inductive CreateError :=
| CseMissingCredentialSchema (id : Z)
| CseMissingClaimSchema (id : Z)
| CseMissingParentClaimSchema (id : Z)
| CseInvalidDatatype (value datatype : string) (source : ConfigValidationError)
| CseEmptyValueNotAllowed
| CseEmptyObjectNotAllowed
| CseEmptyArrayValueNotAllowed
| CseIncompatibleIssuanceExchangeProtocol
| CseMapping (reason : MappingReason)
| CseNested (source : ConfigValidationError).

(** ** The path of a claim *)

Fixpoint resolve_loop (schema : ClaimSchema) (claim_schemas : list ClaimSchema)
  (current_str : string) (splits : list string) : res CreateError (list ClaimSchema) :=
  match splits with
  | [] => Ok []
  | split :: splits =>
      let current_str := (current_str ++ split)%string in
      parent ← ok_or (find_first (fun s => String.eqb (cs_key s) current_str) claim_schemas)
                 (CseMissingParentClaimSchema (cs_id schema));
      rest ← resolve_loop schema claim_schemas (current_str ++ marker_str) splits;
      Ok (parent :: rest)
  end.

Definition resolve_parent_claim_schemas (schema : ClaimSchema) (claim_schemas : list ClaimSchema) :
  res CreateError (list ClaimSchema) :=
  resolve_loop schema claim_schemas "" (split_on marker (cs_key schema)).

Definition get_nth_segment_of_key (key : string) (index : nat) : res CreateError string :=
  ok_or (split_on marker key !! index) (CseMapping MrSegmentIndex).

(** One round per schema; the loop ends when the schemas are used up. *)
Fixpoint validate_path_loop (related_claim_schemas : list ClaimSchema) (schema_index : nat)
  (segments : list string) (segment_index : nat) : res CreateError unit :=
  match related_claim_schemas with
  | [] => Ok tt
  | related_schema :: rest =>
      key_segment ← get_nth_segment_of_key (cs_key related_schema) schema_index;
      segment ← ok_or (segments !! segment_index) (CseMapping MrSegmentIndex);
      if negb (String.eqb key_segment segment)
      then Err (CseMapping (MrUnexpectedSegment key_segment segment))
      else if cs_array related_schema then
        segment ← ok_or (segments !! S segment_index) (CseMapping MrSegmentIndex);
        _ ← ok_or (usize_from_str segment) (CseNested (DatatypeValidation IndexParseFailure));
        validate_path_loop rest (S schema_index) segments (S (S segment_index))
      else validate_path_loop rest (S schema_index) segments (S segment_index)
  end.

Definition expected_segments (related : list ClaimSchema) : nat :=
  foldr (fun s n => ((if cs_array s then 2 else 1) + n)%nat) O related.

Definition validate_path (claim : CredentialRequestClaim) (schema : ClaimSchema)
  (claim_schemas : list ClaimSchema) : res CreateError unit :=
  related_claim_schemas ← resolve_parent_claim_schemas schema claim_schemas;
  let segments := split_on marker (rc_path claim) in
  if negb (length segments =? expected_segments related_claim_schemas)%nat
  then Err (CseMapping MrSegmentCount)
  else match related_claim_schemas with
       | [] => Err (CseMapping MrSchemaIndex)
       | _ => validate_path_loop related_claim_schemas O segments O
       end.

(** ** Empty values *)

Definition str_empty (s : string) : bool := String.eqb s "".

Definition validate_value_non_empty (claim : CredentialRequestClaim) : res CreateError unit :=
  fail_if (str_empty (rc_value claim)) CseEmptyValueNotAllowed.

Definition validate_object_value_non_empty (claim : CredentialRequestClaim) (schema : ClaimSchema) :
  res CreateError unit :=
  fail_if (negb (depth (rc_path claim) =? 0)%nat && negb (cs_array schema) &&
           str_empty (rc_value claim)) CseEmptyObjectNotAllowed.

Definition validate_array_value_non_empty (claim : CredentialRequestClaim) (schema : ClaimSchema) :
  res CreateError unit :=
  fail_if (str_empty (rc_value claim) && cs_array schema) CseEmptyArrayValueNotAllowed.

(** ** Continuity of array indexes *)

Inductive PathNode := mkPathNode (key : option string) (subnodes : list PathNode).
Definition node_key (n : PathNode) : option string := let 'mkPathNode k _ := n in k.
Definition node_subnodes (n : PathNode) : list PathNode := let 'mkPathNode _ l := n in l.

Definition get_first_path_element (path : string) : string * string :=
  match split_once marker path with
  | None => (path, ""%string)
  | Some (first, rest) => (first, rest)
  end.

(** The first node with the key is replaced, if there is one. *)
Fixpoint update_subnode (first : string) (f : list PathNode -> list PathNode) (l : list PathNode) :
  option (list PathNode) :=
  match l with
  | [] => None
  | mkPathNode key subnodes :: l =>
      if bool_decide (key = Some first) then Some (mkPathNode key (f subnodes) :: l)
      else l' ← update_subnode first f l; Some (mkPathNode key subnodes :: l')
  end.

(** [PathNode::insert], on the subnodes; every call shortens the path. *)
Fixpoint insert_path (fuel : nat) (subnodes : list PathNode) (path : string) : list PathNode :=
  match fuel with
  | O => subnodes
  | S fuel =>
      let '(first, rest) := get_first_path_element path in
      if String.eqb rest "" then subnodes ++ [mkPathNode (Some first) []]
      else match update_subnode first (fun l => insert_path fuel l rest) subnodes with
           | Some subnodes' => subnodes'
           | None => subnodes ++ [mkPathNode (Some first) (insert_path fuel [] rest)]
           end
  end.

Definition insert_node (subnodes : list PathNode) (path : string) : list PathNode :=
  insert_path (S (String.length path)) subnodes path.

(** [tuple_windows().all(..)]. *)
Fixpoint continuous (indexes : list Z) : bool :=
  match indexes with
  | i1 :: ((i2 :: _) as rest) => (i1 <? i2) && (i2 - i1 =? 1) && continuous rest
  | _ => true
  end.

Section validation.
Context `{ValueOps}.

Definition check_array_indexes (subkeys : list string) : res CreateError unit :=
  if match subkeys with key :: _ => negb (String.eqb key "0") | [] => false end
  then Err (CseMapping MrArrayStart)
  else
    indexes ← try_map (fun index => ok_or (usize_from_str index)
                                      (CseNested (DatatypeValidation IndexParseFailure))) subkeys;
    if continuous indexes then Ok tt else Err (CseMapping MrNotContinuous).

Fixpoint check_continuity (array_claim_paths : option Regex) (parent_path : option string)
  (node : PathNode) : res CreateError unit :=
  let 'mkPathNode key subnodes := node in
  match omap node_key subnodes with
  | [] => Ok tt
  | subkeys =>
      key_path ← match parent_path with
                 | None => Ok key
                 | Some parent => key ← ok_or key (CseMapping MrMissingSubclaimKey);
                                  Ok (Some (parent ++ marker_str ++ key)%string)
                 end;
      _ ← match key_path, array_claim_paths with
          | Some key, Some array_claim_paths =>
              if regex_is_match array_claim_paths key then check_array_indexes subkeys else Ok tt
          | _, _ => Ok tt
          end;
      (fix each (l : list PathNode) : res CreateError unit :=
         match l with
         | [] => Ok tt
         | subnode :: l => _ ← check_continuity array_claim_paths key_path subnode; each l
         end) subnodes
  end.

(** [regex::escape]. *)
Context (regex_escape : string -> string).

(** [to_be_processed.iter_mut()]: the paths below the one that was taken get an
    index after it. *)
Definition insert_index_pattern (prefix item : string) : string :=
  if starts_with prefix item
  then (prefix ++ "\d+" ++ marker_str ++
        String.substring (String.length prefix) (String.length item - String.length prefix) item)%string
  else item.

Fixpoint array_patterns (fuel : nat) (to_be_processed : list string) : list string :=
  match fuel, to_be_processed with
  | S fuel, first :: rest =>
      let prefix := (first ++ marker_str)%string in
      first :: array_patterns fuel (insert_index_pattern prefix <$> rest)
  | _, _ => []
  end.

(** [iter().sorted()] on strings, byte-wise. *)
Fixpoint insert_sorted (s : string) (l : list string) : list string :=
  match l with
  | [] => [s]
  | x :: l => match String.compare s x with Gt => x :: insert_sorted s l | _ => s :: x :: l end
  end.
Definition sort_strings (l : list string) : list string := foldr insert_sorted [] l.

Fixpoint join_with (sep : string) (l : list string) : string :=
  match l with
  | [] => ""
  | [x] => x
  | x :: l => (x ++ sep ++ join_with sep l)%string
  end.

Definition array_paths_to_claim_paths_regex (array_paths : list string) :
  res CreateError (option Regex) :=
  let to_be_processed := regex_escape <$> sort_strings array_paths in
  match array_patterns (length to_be_processed) to_be_processed with
  | [] => Ok None
  | patterns =>
      regex ← ok_or (regex_new ("^(" ++ join_with "|" patterns ++ ")$")%string) (CseMapping MrRegex);
      Ok (Some regex)
  end.

Definition validate_continuity (paths : list string) (claim_schemas : list ClaimSchema) :
  res CreateError unit :=
  let tree := foldl insert_node [] paths in
  let array_paths := cs_key <$> List.filter cs_array claim_schemas in
  array_claim_paths ← array_paths_to_claim_paths_regex array_paths;
  check_continuity array_claim_paths None (mkPathNode None tree).

(** ** Required claims *)

Definition names_of_claims (claim_schemas : list ClaimSchema) (claims : list CredentialRequestClaim) :
  res CreateError (list string) :=
  try_map (fun claim =>
    schema ← ok_or (find_first (fun s => cs_id s =? rc_claim_schema_id claim) claim_schemas)
               (CseMissingClaimSchema (rc_claim_schema_id claim));
    Ok (cs_key schema)) claims.

Definition with_required (required : bool) (s : ClaimSchema) : ClaimSchema :=
  mkClaimSchema (cs_id s) (cs_key s) (cs_data_type s) (cs_array s) (cs_metadata s) required.

(** One round of the loop over the schemas: below an optional object that is not
    provided nothing is required. *)
Definition adapt_step (names : list string) (config : DatatypeConfig) (result : list ClaimSchema)
  (claim_schema : ClaimSchema) : res CreateError (list ClaimSchema) :=
  let prefix := (cs_key claim_schema ++ marker_str)%string in
  let is_parent_schema_of_provided_claim := existsb (starts_with prefix) names in
  fields ← map_err CseNested (get_fields config (cs_data_type claim_schema));
  let is_object := bool_decide (df_type fields = DtObject) in
  Ok (if negb is_parent_schema_of_provided_claim && is_object && negb (cs_required claim_schema)
      then (fun s => if starts_with prefix (cs_key s) then with_required false s else s) <$> result
      else result).

Definition adapt_required_state_based_on_claim_presence (claim_schemas : list ClaimSchema)
  (claims : list CredentialRequestClaim) (config : DatatypeConfig) :
  res CreateError (list ClaimSchema) :=
  names ← names_of_claims claim_schemas claims;
  try_fold (adapt_step names config) claim_schemas claim_schemas.

(** [if .. required .. { claims.iter().find(..).ok_or(..)?; }] *)
Definition check_required (claims : list CredentialRequestClaim) (config : DatatypeConfig)
  (claim_schema : ClaimSchema) : res CreateError unit :=
  fields ← map_err CseNested (get_fields config (cs_data_type claim_schema));
  if cs_required claim_schema && negb (cs_metadata claim_schema) &&
     negb (bool_decide (df_type fields = DtObject))
  then _ ← ok_or (find_first (fun c => rc_claim_schema_id c =? cs_id claim_schema) claims)
             (CseMissingClaimSchema (cs_id claim_schema)); Ok tt
  else Ok tt.

(** ** The request *)

Record ProtocolFields := mkProtocolFields { pf_type : string; pf_enabled : bool }.
Record CreateConfig := mkCreateConfig {
  cc_datatype : DatatypeConfig;
  cc_issuance_protocol : gmap string ProtocolFields
}.

(** [CredentialSchema], with the fields that are read here. *)
Record SchemaOfRequest := mkSchemaOfRequest {
  sr_id : Z;
  sr_deleted_at : option Z;
  sr_claim_schemas : option (list ClaimSchema)
}.

(** [validate_protocol_type] wraps the error of the configuration. *)
Definition validate_protocol_type (exchange : string) (config : gmap string ProtocolFields) :
  res ConfigValidationError unit :=
  _ ← get_if_enabled pf_enabled config exchange; Ok tt.

Definition validate_format_and_exchange_protocol_compatibility (exchange : string)
  (issuance_exchange_protocols : list string) (config : gmap string ProtocolFields) :
  res CreateError unit :=
  exchange_protocol ← map_err CseNested (get_fields config exchange);
  fail_if (negb (bool_decide (pf_type exchange_protocol ∈ issuance_exchange_protocols)))
    CseIncompatibleIssuanceExchangeProtocol.

(** The checks on one claim; the path of an accepted claim is collected. *)
Definition validate_claim (claim_schemas : list ClaimSchema) (config : DatatypeConfig)
  (claim : CredentialRequestClaim) : res CreateError string :=
  schema ← ok_or (find_first (fun s => cs_id s =? rc_claim_schema_id claim) claim_schemas)
             (CseMissingClaimSchema (rc_claim_schema_id claim));
  _ ← validate_path claim schema claim_schemas;
  _ ← validate_array_value_non_empty claim schema;
  _ ← validate_object_value_non_empty claim schema;
  _ ← validate_value_non_empty claim;
  _ ← map_err (CseInvalidDatatype (rc_value claim) (cs_data_type schema))
        (validate_datatype_value (rc_value claim) (cs_data_type schema) config);
  Ok (rc_path claim).

Definition validate_create_request (exchange : string) (claims : list CredentialRequestClaim)
  (schema : SchemaOfRequest) (issuance_exchange_protocols : list string) (config : CreateConfig) :
  res CreateError unit :=
  _ ← map_err CseNested (validate_protocol_type exchange (cc_issuance_protocol config));
  _ ← validate_format_and_exchange_protocol_compatibility exchange issuance_exchange_protocols
        (cc_issuance_protocol config);
  _ ← fail_if (bool_decide (is_Some (sr_deleted_at schema))) (CseMissingCredentialSchema (sr_id schema));
  claim_schemas ← ok_or (sr_claim_schemas schema) (CseMapping MrClaimSchemasNone);
  paths ← try_map (validate_claim claim_schemas (cc_datatype config)) claims;
  _ ← validate_continuity paths claim_schemas;
  claim_schemas ← adapt_required_state_based_on_claim_presence claim_schemas claims
                    (cc_datatype config);
  _ ← try_map (check_required claims (cc_datatype config)) claim_schemas;
  Ok tt.
End validation.

(** ** The claims of the credential *)

(** The map under construction, and the number of ids that were drawn. *)
Record ClaimsMap := mkClaimsMap { cm_claims : gmap string Claim; cm_next : nat }.

Section creation.
Context `{UuidSupply} `{HashOrder}.

Definition add_claim (m : ClaimsMap) (path : string) (value : option string) (schema : ClaimSchema) :
  ClaimsMap :=
  mkClaimsMap (<[path := mkClaim (uuid_at (cm_next m)) value path false (Some schema)]> (cm_claims m))
    (S (cm_next m)).

Definition contains_key (m : ClaimsMap) (path : string) : bool :=
  bool_decide (is_Some (cm_claims m !! path)).

Definition insert_array_parent (schema : ClaimSchema) (claims_map : ClaimsMap) (current_path : string) :
  res CreateError (string * ClaimsMap) :=
  if cs_array schema then
    match rsplit_once marker current_path with
    | None => Err (CseMapping (MrNoArrayIndex current_path))
    | Some (array_path, _) =>
        Ok (array_path, if contains_key claims_map array_path then claims_map
                        else add_claim claims_map array_path None schema)
    end
  else Ok (current_path, claims_map).

(** The loop towards the root; a round shortens the path. *)
Fixpoint parents_loop (fuel : nat) (claim_schemas : list ClaimSchema) (claims_map : ClaimsMap)
  (current_path current_schema_path : string) : res CreateError ClaimsMap :=
  match fuel with
  | O => Panic
  | S fuel =>
      match rsplit_once marker current_path with
      | None => Ok claims_map
      | Some (parent_path, _) =>
          if contains_key claims_map parent_path then Ok claims_map
          else
            match rsplit_once marker current_schema_path with
            | None => Err (CseMapping (MrSchemaPath current_schema_path))
            | Some (parent_schema_path, _) =>
                schema ← ok_or (find_first (fun s => String.eqb (cs_key s) parent_schema_path) claim_schemas)
                           (CseMapping (MrSchemaNotFound parent_path));
                '(current_path, claims_map) ←
                  insert_array_parent schema (add_claim claims_map parent_path None schema) parent_path;
                parents_loop fuel claim_schemas claims_map current_path parent_schema_path
            end
      end
  end.

Definition add_request_claim (claim_schemas : list ClaimSchema) (claims_map : ClaimsMap)
  (claim_dto : CredentialRequestClaim) : res CreateError ClaimsMap :=
  schema ← ok_or (find_first (fun s => cs_id s =? rc_claim_schema_id claim_dto) claim_schemas)
             (CseMissingClaimSchema (rc_claim_schema_id claim_dto));
  let claims_map := add_claim claims_map (rc_path claim_dto) (Some (rc_value claim_dto)) schema in
  '(current_path, claims_map) ← insert_array_parent schema claims_map (rc_path claim_dto);
  parents_loop (S (String.length (rc_path claim_dto))) claim_schemas claims_map current_path (cs_key schema).

Definition claims_from_create_request (claims : list CredentialRequestClaim)
  (claim_schemas : list ClaimSchema) (next : nat) : res CreateError (list Claim) :=
  claims_map ← try_fold (add_request_claim claim_schemas) (mkClaimsMap ∅ next) claims;
  Ok (hash_order _ (map_to_list (cm_claims claims_map)).*2).
End creation.

(** ** The paths of a schema *)

(** [at_index s p q]: [q] is the path of a value of the schema at [p]: the path
    itself, or that of an element if the schema is an array. *)
Definition at_index (s : ClaimSchema) (p q : string) : Prop :=
  if cs_array s then exists idx, q = (p ++ String marker idx)%string /\ depth idx = O /\
                                 is_Some (usize_from_str idx)
  else q = p.

(** [fits schemas s p]: the path spells out the key of the schema, with an index
    after every array on the way. *)
Inductive fits (schemas : list ClaimSchema) : ClaimSchema -> string -> Prop :=
| FitsRoot (s : ClaimSchema) (p : string) : s ∈ schemas -> rsplit_once marker (cs_key s) = None ->
    at_index s (cs_key s) p -> fits schemas s p
| FitsNested (s t : ClaimSchema) (name p0 p : string) : s ∈ schemas ->
    rsplit_once marker (cs_key s) = Some (cs_key t, name) -> fits schemas t p0 ->
    at_index s (p0 ++ String marker name)%string p -> fits schemas s p.

(** The schemas from the root down to one. *)
Inductive chain (schemas : list ClaimSchema) : ClaimSchema -> list ClaimSchema -> Prop :=
| ChainRoot (s : ClaimSchema) : s ∈ schemas -> rsplit_once marker (cs_key s) = None -> chain schemas s [s]
| ChainNested (s t : ClaimSchema) (name : string) (l : list ClaimSchema) : s ∈ schemas ->
    rsplit_once marker (cs_key s) = Some (cs_key t, name) -> chain schemas t l -> chain schemas s (l ++ [s]).

Definition schemas_wf (schemas : list ClaimSchema) : bool :=
  bool_decide (NoDup (cs_key <$> schemas)) &&
  forallb (fun s => match split_on marker (cs_key s) with x :: _ => negb (String.eqb x "") | [] => true end) schemas.

Section paths.
Context (schemas : list ClaimSchema) (Hwf : schemas_wf schemas = true).

Lemma schemas_nodup : NoDup (cs_key <$> schemas).
Proof. apply andb_true_iff in Hwf as [H _]. by apply bool_decide_eq_true in H. Qed.

Lemma schema_unique (a b : ClaimSchema) : a ∈ schemas -> b ∈ schemas -> cs_key a = cs_key b -> a = b.
Proof.
  intros (i & Hi)%list_elem_of_lookup (j & Hj)%list_elem_of_lookup Hab.
  assert (i = j) as ->; [|congruence].
  eapply NoDup_lookup; [exact schemas_nodup|by rewrite list_lookup_fmap, Hi|by rewrite list_lookup_fmap, Hj, Hab].
Qed.

Lemma find_schema (s : ClaimSchema) : s ∈ schemas ->
  find_first (fun x => String.eqb (cs_key x) (cs_key s)) schemas = Some s.
Proof.
  intros Hs. destruct (find_first_exists (fun x => String.eqb (cs_key x) (cs_key s)) schemas s)
    as (a & -> & Ha & Heq%String.eqb_eq); [done|apply String.eqb_refl|].
  f_equal. by apply schema_unique.
Qed.

Lemma find_schema_key (key : string) (s : ClaimSchema) :
  find_first (fun x => String.eqb (cs_key x) key) schemas = Some s <-> s ∈ schemas /\ cs_key s = key.
Proof.
  split; [by intros [? ?%String.eqb_eq]%find_first_Some|]. intros [Hs <-]. by apply find_schema.
Qed.

Lemma fits_schema (s : ClaimSchema) (p : string) : fits schemas s p -> s ∈ schemas.
Proof. by intros []. Qed.

Lemma chain_length (s : ClaimSchema) (l : list ClaimSchema) : chain schemas s l ->
  s ∈ schemas /\ l <> [] /\ length l = length (split_on marker (cs_key s)).
Proof.
  induction 1 as [s Hs Hp|s t name l Hs Hp _ (_ & _ & IH)].
  - split_and!; [done..|]. rewrite split_plain by (by apply rsplit_once_None). done.
  - split_and!; [done|by destruct l|]. rewrite (split_parent _ _ _ Hp), !length_app, IH. done.
Qed.

(** *** Resolving the schemas *)

Lemma resolve_app (s : ClaimSchema) (cur : string) (l1 l2 : list string) :
  resolve_loop s schemas cur (l1 ++ l2) =
  (resolve_loop s schemas cur l1 ≫= fun r1 =>
   resolve_loop s schemas (foldl (fun c x => c ++ x ++ marker_str)%string cur l1) l2 ≫= fun r2 =>
   Ok (r1 ++ r2)).
Proof.
  revert cur. induction l1 as [|x l1 IH]; intros cur.
  { cbn [app resolve_loop mbind res_bind foldl]. by destruct (resolve_loop s schemas cur l2). }
  cbn [app resolve_loop foldl]. destruct (ok_or _ _) as [a|e|]; cbn [mbind res_bind]; [|done..].
  rewrite IH, str_app_assoc. destruct (resolve_loop s schemas _ l1); cbn [mbind res_bind]; [|done..].
  by destruct (resolve_loop s schemas _ l2).
Qed.

Lemma foldl_join (l : list string) (cur : string) : l <> [] ->
  foldl (fun c x => c ++ x ++ marker_str)%string cur l = (cur ++ join_path l ++ marker_str)%string.
Proof.
  revert cur. induction l as [|x [|y l] IH]; intros cur Hl; [done|done|].
  cbn [foldl]. cbn [foldl] in IH. rewrite IH by done. rewrite (join_path_cons x) by done.
  by rewrite !str_app_assoc.
Qed.

Lemma resolve_single (s : ClaimSchema) (cur x : string) (l : list ClaimSchema) :
  resolve_loop s schemas cur [x] = Ok l <-> exists t, t ∈ schemas /\ cs_key t = (cur ++ x)%string /\ l = [t].
Proof.
  cbn [resolve_loop]. destruct (find_first _ schemas) as [t|] eqn:Hf; cbn [ok_or mbind res_bind].
  - apply find_schema_key in Hf as [Ht Hk]. split.
    + intros [= <-]. eauto.
    + intros (u & Hu & Hk' & ->). do 2 f_equal. apply schema_unique; [done..|]. by rewrite Hk, Hk'.
  - split; [done|]. intros (t & Ht & Hk & _). rewrite (proj2 (find_schema_key _ t)) in Hf by done. done.
Qed.

(** Induction over a string and its parents. *)
Lemma path_ind (P : string -> Prop) :
  (forall s, rsplit_once marker s = None -> P s) ->
  (forall s p q, rsplit_once marker s = Some (p, q) -> P p -> P s) -> forall s, P s.
Proof.
  intros Hroot Hstep s. remember (depth s) as n eqn:Hn. revert s Hn.
  induction n as [|n IH]; intros s Hn.
  - apply Hroot. by apply rsplit_once_None.
  - destruct (rsplit_once marker s) as [[p q]|] eqn:Hp; [|by apply Hroot].
    eapply Hstep; [done|]. apply IH. apply parent_depth in Hp. lia.
Qed.

Lemma resolve_chain (s : ClaimSchema) (key : string) : forall l,
  resolve_loop s schemas "" (split_on marker key) = Ok l <->
  exists t, cs_key t = key /\ chain schemas t l.
Proof.
  revert key. apply (path_ind (fun key => forall l, _)).
  - intros key Hp l. rewrite split_plain by (by apply rsplit_once_None). rewrite resolve_single.
    change (String.append "" key) with key. split.
    + intros (t & Ht & Hk & ->). exists t. split; [done|]. rewrite <-Hk in Hp. by constructor.
    + intros (t & <- & Hc). inversion Hc as [? Ht _|? ? ? ? ? Hp']; subst; [eauto|congruence].
  - intros key p q Hp IH l. rewrite (split_parent _ _ _ Hp), resolve_app.
    rewrite foldl_join by apply split_on_nonempty. rewrite join_split, !res_bind_ok.
    setoid_rewrite IH. setoid_rewrite res_bind_ok. setoid_rewrite resolve_single.
    pose proof (rsplit_once_Some _ _ _ _ Hp) as [Hkey _]. split.
    + intros (l1 & (t & Ht & Hc) & l2 & (u & Hu & Hk & ->) & [= <-]). exists u.
      assert (Hku : cs_key u = key) by (by rewrite Hk, Hkey, !str_app_assoc).
      split; [done|]. apply (ChainNested _ u t q); [done|by rewrite Ht, Hku|done].
    + intros (u & <- & Hc). inversion Hc as [? ? Hp'|? t name l0 Hu Hp' Hc']; subst; [congruence|].
      rewrite Hp in Hp'. injection Hp' as Hpt _. exists l0. split; [by eauto|]. exists [u]. split; [|done].
      exists u. split_and!; [done| |done]. by rewrite Hkey, !str_app_assoc.
Qed.

(** *** Walking the segments *)

Lemma list_lookup_middle_0 {A : Type} (l k : list A) : (l ++ k) !! length l = head k.
Proof. rewrite lookup_app_r, Nat.sub_diag by lia. by destruct k. Qed.

Lemma list_lookup_middle_1 {A : Type} (l : list A) (x y : A) (k : list A) :
  (l ++ x :: y :: k) !! S (length l) = Some y.
Proof. rewrite lookup_app_r by lia. by replace (S (length l) - length l)%nat with 1%nat by lia. Qed.

Lemma path_loop_app (l1 l2 : list ClaimSchema) (segs : list string) (i j : nat) :
  validate_path_loop (l1 ++ l2) i segs j =
  (validate_path_loop l1 i segs j ≫= fun _ =>
   validate_path_loop l2 (i + length l1) segs (j + expected_segments l1)).
Proof.
  revert i j. induction l1 as [|s l1 IH]; intros i j.
  { cbn [app validate_path_loop mbind res_bind length expected_segments foldr]. by rewrite !Nat.add_0_r. }
  cbn [app validate_path_loop length expected_segments foldr]. fold (expected_segments l1).
  destruct (get_nth_segment_of_key (cs_key s) i) as [k|e|]; cbn [mbind res_bind]; [|done..].
  destruct (ok_or (segs !! j) _) as [x|e|]; cbn [mbind res_bind]; [|done..].
  destruct (negb (String.eqb k x)); [done|]. destruct (cs_array s).
  - destruct (ok_or (segs !! S j) _) as [y|e|]; cbn [mbind res_bind]; [|done..].
    destruct (ok_or (usize_from_str y) _) as [n|e|]; cbn [mbind res_bind]; [|done..].
    rewrite IH. by replace (S i + length l1)%nat with (i + S (length l1))%nat by lia;
      replace (S (S j) + expected_segments l1)%nat with (j + (2 + expected_segments l1))%nat by lia.
  - rewrite IH. by replace (S i + length l1)%nat with (i + S (length l1))%nat by lia;
      replace (S j + expected_segments l1)%nat with (j + (1 + expected_segments l1))%nat by lia.
Qed.

Lemma path_loop_prefix (l : list ClaimSchema) (segs tail : list string) (i j : nat) :
  (j + expected_segments l <= length segs)%nat ->
  validate_path_loop l i (segs ++ tail) j = validate_path_loop l i segs j.
Proof.
  revert i j. induction l as [|s l IH]; intros i j Hl; [done|].
  cbn [expected_segments foldr] in Hl. fold (expected_segments l) in Hl.
  cbn [validate_path_loop]. destruct (get_nth_segment_of_key (cs_key s) i); cbn [mbind res_bind]; [|done..].
  destruct (cs_array s) eqn:Ha.
  - rewrite !lookup_app_l by lia. destruct (ok_or (segs !! j) _); cbn [mbind res_bind]; [|done..].
    case_match; [done|]. destruct (ok_or (segs !! S j) _); cbn [mbind res_bind]; [|done..].
    destruct (ok_or (usize_from_str _) _); cbn [mbind res_bind]; [|done..]. apply IH. lia.
  - rewrite lookup_app_l by lia. destruct (ok_or (segs !! j) _); cbn [mbind res_bind]; [|done..].
    case_match; [done|]. apply IH. lia.
Qed.

Lemma at_index_iff (s : ClaimSchema) (base path : string) :
  at_index s base path <->
  if cs_array s then exists idx, split_on marker path = split_on marker base ++ [idx] /\ is_Some (usize_from_str idx)
  else split_on marker path = split_on marker base.
Proof.
  unfold at_index. destruct (cs_array s).
  - split.
    + intros (idx & -> & Hd & Hi). exists idx. rewrite split_app, (split_plain idx) by done. done.
    + intros (idx & Hs & Hi). exists idx. apply split_snoc_inv in Hs; [|apply split_on_nonempty].
      rewrite join_split in Hs. apply rsplit_once_Some in Hs as [-> Hd]. done.
  - split; [by intros ->|]. intros Hs. by rewrite <-(join_split path), Hs, join_split.
Qed.

Lemma at_index_nested (s : ClaimSchema) (p0 name path : string) : depth name = O ->
  at_index s (p0 ++ String marker name) path <->
  if cs_array s
  then exists idx, split_on marker path = (split_on marker p0 ++ [name]) ++ [idx] /\ is_Some (usize_from_str idx)
  else split_on marker path = split_on marker p0 ++ [name].
Proof. intros Hd. rewrite at_index_iff, split_app, (split_plain name Hd). done. Qed.

(** One round of the loop, at the end of the segments. *)
Lemma path_loop_last (s : ClaimSchema) (i : nat) (segs tail : list string) (name : string) :
  get_nth_segment_of_key (cs_key s) i = Ok name -> length tail = (if cs_array s then 2 else 1)%nat ->
  validate_path_loop [s] i (segs ++ tail) (length segs) = Ok tt <->
  if cs_array s then exists idx, tail = [name; idx] /\ is_Some (usize_from_str idx) else tail = [name].
Proof.
  intros Hn Hl. cbn [validate_path_loop]. rewrite Hn. cbn [mbind res_bind].
  rewrite list_lookup_middle_0. destruct (cs_array s).
  - destruct tail as [|x [|y [|? ?]]]; try done. rewrite (list_lookup_middle_1 segs x y).
    cbn [head ok_or mbind res_bind]. destruct (String.eqb_spec name x) as [->|Hne]; cbn [negb].
    + destruct (usize_from_str y) as [n|] eqn:Hy; cbn [ok_or mbind res_bind].
      * split; [|done]. intros _. exists y. by rewrite Hy.
      * split; [done|]. intros (idx & [= ->] & Hi). rewrite Hy in Hi. by destruct Hi.
    + split; [done|]. by intros (idx & [= ? _] & _).
  - destruct tail as [|x [|? ?]]; try done. cbn [head ok_or mbind res_bind].
    destruct (String.eqb_spec name x) as [->|Hne]; cbn [negb]; [done|]. split; [done|]. by intros [= ?].
Qed.

Lemma expected_snoc (l : list ClaimSchema) (s : ClaimSchema) :
  expected_segments (l ++ [s]) = (expected_segments l + (if cs_array s then 2 else 1))%nat.
Proof.
  unfold expected_segments. induction l as [|x l IH]; simpl; [by rewrite Nat.add_0_r|]. rewrite IH. lia.
Qed.

Lemma expected_pos (l : list ClaimSchema) : l <> [] -> (0 < expected_segments l)%nat.
Proof. destruct l as [|s l]; [done|]. intros _. cbn. destruct (cs_array s); lia. Qed.

(** The segments of the parent and the rest. *)
Lemma walk_forward (s t : ClaimSchema) (l : list ClaimSchema) (name path : string) :
  get_nth_segment_of_key (cs_key s) (length l) = Ok name -> l <> [] ->
  (forall p, length (split_on marker p) = expected_segments l /\
     validate_path_loop l 0 (split_on marker p) 0 = Ok tt <-> fits schemas t p) ->
  length (split_on marker path) = (expected_segments l + (if cs_array s then 2 else 1))%nat /\
  (validate_path_loop l 0 (split_on marker path) 0 ≫= fun _ =>
     validate_path_loop [s] (length l) (split_on marker path) (expected_segments l)) = Ok tt ->
  exists p0, fits schemas t p0 /\
    (if cs_array s
     then exists idx, split_on marker path = (split_on marker p0 ++ [name]) ++ [idx] /\ is_Some (usize_from_str idx)
     else split_on marker path = split_on marker p0 ++ [name]).
Proof.
  intros Hn Hne IH [Hl Hrun]. set (segs := split_on marker path) in *. set (n := expected_segments l) in *.
  pose proof (expected_pos l Hne) as Hpos.
  assert (Hlt : length (take n segs) = n) by (rewrite length_take; lia).
  assert (Hs0 : split_on marker (join_path (take n segs)) = take n segs).
  { apply split_join; [intros Hnil; rewrite Hnil in Hlt; simpl in Hlt; lia|].
    intros x (i & Hx & _)%elem_of_take. apply (split_segments_plain path). by eapply list_elem_of_lookup_2. }
  rewrite <-(take_drop n segs) in Hrun. rewrite (path_loop_prefix l (take n segs) (drop n segs) 0 0) in Hrun by (fold n; lia).
  apply res_bind_ok in Hrun as ([] & Hrun & Hlast). exists (join_path (take n segs)). split.
  { apply IH. rewrite Hs0. done. }
  rewrite Hs0. rewrite <-Hlt in Hlast at 3.
  assert (Hdl : length (drop n segs) = (if cs_array s then 2 else 1)%nat) by (rewrite length_drop; lia).
  apply (path_loop_last s _ _ _ name Hn Hdl) in Hlast. destruct (cs_array s).
  - destruct Hlast as (idx & Hdrop & Hi). exists idx. split; [|done].
    rewrite <-(take_drop n segs) at 1. rewrite Hdrop, <-app_assoc. done.
  - rewrite <-(take_drop n segs) at 1. by rewrite Hlast.
Qed.

Lemma walk_fits (s : ClaimSchema) (l : list ClaimSchema) : chain schemas s l -> forall path,
  length (split_on marker path) = expected_segments l /\
  validate_path_loop l 0 (split_on marker path) 0 = Ok tt <-> fits schemas s path.
Proof.
  induction 1 as [s Hs Hp|s t name l Hs Hp Hc IH]; intros path.
  - assert (Hn : get_nth_segment_of_key (cs_key s) 0 = Ok (cs_key s)).
    { unfold get_nth_segment_of_key. rewrite split_plain by (by apply rsplit_once_None). done. }
    assert (Hfit : fits schemas s path <-> at_index s (cs_key s) path).
    { split; [|by apply FitsRoot]. intros Hf. inversion Hf as [? ? _ _ Hat|? ? ? ? ? _ Hp']; subst; [done|congruence]. }
    rewrite Hfit, at_index_iff, (split_plain (cs_key s)) by (by apply rsplit_once_None).
    cbn [expected_segments foldr]. rewrite Nat.add_0_r. split.
    + intros [Hl Hrun]. apply (path_loop_last s 0 [] _ _ Hn Hl) in Hrun. exact Hrun.
    + intros Ht. assert (Hl : length (split_on marker path) = (if cs_array s then 2 else 1)%nat).
      { destruct (cs_array s); [by destruct Ht as (idx & -> & _)|by rewrite Ht]. }
      split; [done|]. by apply (path_loop_last s 0 [] _ _ Hn Hl).
  - pose proof (chain_length t l Hc) as (Ht & Hne & Hlen).
    pose proof (rsplit_once_Some _ _ _ _ Hp) as [_ Hd].
    assert (Hn : get_nth_segment_of_key (cs_key s) (length l) = Ok name).
    { unfold get_nth_segment_of_key. rewrite (split_parent _ _ _ Hp), Hlen, list_lookup_middle_0. done. }
    assert (Hfit : fits schemas s path <-> exists p0, fits schemas t p0 /\ at_index s (p0 ++ String marker name) path).
    { split; [|intros (p0 & Hf & Ha); by eapply FitsNested]. intros Hf.
      inversion Hf as [? ? _ Hp'|? t' name' p0 ? _ Hp' Hf' Hat]; subst; [congruence|].
      rewrite Hp in Hp'. injection Hp' as Hk <-. exists p0. split; [|done].
      by rewrite (schema_unique t t' Ht (fits_schema _ _ Hf') Hk). }
    rewrite Hfit. setoid_rewrite (fun p0 => at_index_nested s p0 name path Hd).
    rewrite expected_snoc, path_loop_app. cbn [Nat.add]. clear Hfit. split.
    + apply (walk_forward s t l name path Hn Hne IH).
    + intros (p0 & [Hl0 Hrun]%IH & Hsplit). destruct (cs_array s) eqn:Ha.
      * destruct Hsplit as (idx & Hsplit & Hi). rewrite <-app_assoc in Hsplit. cbn [app] in Hsplit.
        rewrite Hsplit, length_app, Hl0. split; [done|]. rewrite (path_loop_prefix l (split_on marker p0)), Hrun by lia. cbn [mbind res_bind].
        rewrite <-Hl0. apply (path_loop_last s _ _ _ name); [done|by rewrite Ha|rewrite Ha; eauto].
      * rewrite Hsplit, length_app, Hl0. split; [done|]. rewrite (path_loop_prefix l (split_on marker p0)), Hrun by lia. cbn [mbind res_bind].
        rewrite <-Hl0. apply (path_loop_last s _ _ _ name); [done|by rewrite Ha|by rewrite Ha].
Qed.
End paths.

Section creation_lemmas.
Context (schemas : list ClaimSchema) (Hwf : schemas_wf schemas = true).

Lemma fits_chain (s : ClaimSchema) (p : string) : fits schemas s p -> exists l, chain schemas s l.
Proof.
  induction 1 as [s p Hs Hp _|s t name p0 p Hs Hp _ [l Hl] _].
  - exists [s]. by constructor.
  - exists (l ++ [s]). by eapply ChainNested.
Qed.

Lemma validate_path_fits (claim : CredentialRequestClaim) (s : ClaimSchema) : s ∈ schemas ->
  validate_path claim s schemas = Ok tt <-> fits schemas s (rc_path claim).
Proof.
  intros Hs. unfold validate_path. split.
  - intros (l & Hl & Hrun)%res_bind_ok. apply (resolve_chain schemas Hwf) in Hl as (t & Hk & Hc).
    assert (t = s) as -> by (apply (schema_unique schemas Hwf); [by apply chain_length in Hc as []|done..]).
    apply (walk_fits schemas Hwf s l Hc). cbn beta zeta in Hrun.
    destruct (Nat.eqb_spec (length (split_on marker (rc_path claim))) (expected_segments l)) as [Hlen|]; [|done].
    split; [done|]. by destruct l.
  - intros Hf. destruct (fits_chain s _ Hf) as [l Hc]. unfold resolve_parent_claim_schemas.
    rewrite (proj2 (resolve_chain schemas Hwf s (cs_key s) l)) by eauto. cbn [mbind res_bind].
    destruct (proj2 (walk_fits schemas Hwf s l Hc _) Hf) as [Hlen Hrun]. rewrite Hlen, Nat.eqb_refl. cbn [negb].
    apply chain_length in Hc as (_ & Hne & _). by destruct l.
Qed.

(** ** The map of claims *)

(** A claim of the schema is at the path: a value, or the array of its values. *)
Definition located (s : ClaimSchema) (p : string) : Prop :=
  fits schemas s p \/ cs_array s = true /\ exists idx, depth idx = O /\ fits schemas s (p ++ String marker idx)%string.

(** The path of a schema before its own index. *)
Inductive base_path : ClaimSchema -> string -> Prop :=
| BaseRoot (s : ClaimSchema) : s ∈ schemas -> rsplit_once marker (cs_key s) = None -> base_path s (cs_key s)
| BaseNested (s t : ClaimSchema) (name p0 : string) : s ∈ schemas ->
    rsplit_once marker (cs_key s) = Some (cs_key t, name) -> fits schemas t p0 ->
    base_path s (p0 ++ String marker name)%string.

Lemma fits_base (s : ClaimSchema) (p : string) :
  fits schemas s p <-> exists b, base_path s b /\ at_index s b p.
Proof.
  split.
  - intros [? ? Hs Hp Hat|? t name p0 ? Hs Hp Hf Hat]; eexists; (split; [|exact Hat]); [by constructor|by econstructor].
  - intros (b & [? Hs Hp|? t name p0 Hs Hp Hf] & Hat); [by apply FitsRoot|by eapply FitsNested].
Qed.

Lemma key_segment_plain (s t : ClaimSchema) (name : string) :
  rsplit_once marker (cs_key s) = Some (cs_key t, name) -> depth name = O.
Proof. by intros [_ ?]%rsplit_once_Some. Qed.

(** Every entry has its path, a schema located there, and its parent; the parent
    of [cur] may be missing. *)
Record map_ok (cur : option string) (M : gmap string Claim) : Prop := {
  mo_entry : forall p c, M !! p = Some c -> claim_path c = p /\ exists s, claim_schema c = Some s /\ located s p;
  mo_parent : forall p q n, is_Some (M !! p) -> rsplit_once marker p = Some (q, n) ->
    is_Some (M !! q) \/ cur = Some p
}.

(** [grows P M M']: entries are kept, and what is new is a container at a path in [P]. *)
Record grows (P : string -> Prop) (M M' : gmap string Claim) : Prop := {
  gr_keep : forall p c, M !! p = Some c -> M' !! p = Some c;
  gr_new : forall p c, M' !! p = Some c -> M !! p = Some c \/ claim_value c = None /\ P p
}.

Lemma grows_refl (P : string -> Prop) (M : gmap string Claim) : grows P M M.
Proof. split; auto. Qed.

Lemma grows_trans (P : string -> Prop) (M1 M2 M3 : gmap string Claim) :
  grows P M1 M2 -> grows P M2 M3 -> grows P M1 M3.
Proof.
  intros [H1 H2] [H3 H4]. split; [by auto|]. intros p c [Hc|Hc]%H4; [by apply H2|by right].
Qed.

Lemma grows_weaken (P Q : string -> Prop) (M M' : gmap string Claim) :
  (forall p, P p -> Q p) -> grows P M M' -> grows Q M M'.
Proof. intros HPQ [H1 H2]. split; [done|]. intros p c [Hc|[Hv Hp]]%H2; auto. Qed.

Section loops.
Context `{UuidSupply}.

Lemma grows_add (P : string -> Prop) (M : ClaimsMap) (p : string) (s : ClaimSchema) :
  cm_claims M !! p = None -> P p -> grows P (cm_claims M) (cm_claims (add_claim M p None s)).
Proof.
  intros Hp HP. split; cbn [add_claim cm_claims].
  - intros q c Hq. rewrite lookup_insert_ne; [done|congruence].
  - intros q c. destruct (decide (p = q)) as [->|Hne]; [|by rewrite lookup_insert_ne; auto].
    rewrite lookup_insert_eq. intros [= <-]. by right.
Qed.

(** A new entry on top of [cur]: now only its own parent may be missing. *)
Lemma map_ok_add (cur p n : string) (value : option string) (M : ClaimsMap) (s : ClaimSchema) :
  map_ok (Some cur) (cm_claims M) -> (cur = p \/ rsplit_once marker cur = Some (p, n)) -> located s p ->
  map_ok (Some p) (cm_claims (add_claim M p value s)).
Proof.
  intros [He Hp] Hcur Hs. split; cbn [add_claim cm_claims].
  - intros q c. destruct (decide (p = q)) as [->|Hne]; [|by rewrite lookup_insert_ne; auto].
    rewrite lookup_insert_eq. intros [= <-]. eauto.
  - intros q r m Hq Hr. destruct (decide (p = q)) as [->|Hne]; [by right|].
    rewrite lookup_insert_ne in Hq by done.
    destruct (decide (p = r)) as [->|Hne']; [left; by rewrite lookup_insert_eq|].
    rewrite lookup_insert_ne by done. destruct (Hp q r m Hq Hr) as [?|[= ->]]; [by left|].
    destruct Hcur as [->|Hcur]; [done|]. rewrite Hr in Hcur. by injection Hcur.
Qed.

Lemma map_ok_close (cur : string) (M : gmap string Claim) :
  map_ok (Some cur) M -> (forall q n, rsplit_once marker cur = Some (q, n) -> is_Some (M !! q)) ->
  map_ok None M.
Proof.
  intros [He Hp] Hc. split; [done|]. intros p q n Hq Hr.
  destruct (Hp p q n Hq Hr) as [?|[= ->]]; left; [done|]. by eapply Hc.
Qed.

Lemma contains_key_spec (M : ClaimsMap) (p : string) :
  contains_key M p = true <-> is_Some (cm_claims M !! p).
Proof. unfold contains_key. by rewrite bool_decide_eq_true. Qed.

(** The array around an element. *)
Lemma array_parent_spec (s : ClaimSchema) (M : ClaimsMap) (b p : string) :
  base_path s b -> at_index s b p -> map_ok (Some p) (cm_claims M) ->
  exists M', insert_array_parent s M p = Ok (b, M') /\ map_ok (Some b) (cm_claims M') /\
    grows (fun q => q = b /\ ancestor q p) (cm_claims M) (cm_claims M').
Proof.
  intros Hb Hat HM. assert (Hf : fits schemas s p) by (apply fits_base; eauto).
  unfold insert_array_parent, at_index in *. destruct (cs_array s) eqn:Ha.
  - destruct Hat as (idx & -> & Hd & Hi). rewrite (rsplit_join b idx Hd).
    destruct (contains_key M b) eqn:Hk.
    + apply contains_key_spec in Hk. exists M. split_and!; [done| |apply grows_refl].
      destruct HM as [He Hp]. split; [done|]. intros q r m Hq Hr.
      destruct (Hp q r m Hq Hr) as [?|[= <-]]; [by left|]. rewrite (rsplit_join b idx Hd) in Hr.
      injection Hr as <- _. by left.
    + eexists. split; [reflexivity|]. split.
      * eapply map_ok_add; [done|right; by apply rsplit_join|]. right. eauto.
      * apply grows_add.
        -- destruct (cm_claims M !! b) eqn:Hlook; [|done].
           assert (contains_key M b = true) by (apply contains_key_spec; by rewrite Hlook). congruence.
        -- split; [done|]. eapply AncParent. by apply rsplit_join.
  - subst p. exists M. split_and!; [done..|apply grows_refl].
Qed.

Lemma not_contained (M : ClaimsMap) (p : string) : contains_key M p = false -> cm_claims M !! p = None.
Proof.
  intros Hk. destruct (cm_claims M !! p) eqn:Hp; [|done].
  assert (contains_key M p = true) by (apply contains_key_spec; by rewrite Hp). congruence.
Qed.

Lemma at_index_above (s : ClaimSchema) (b p : string) : at_index s b p ->
  b = p \/ ancestor b p /\ (String.length b < String.length p)%nat.
Proof.
  unfold at_index. destruct (cs_array s); [|by left]. intros (idx & -> & Hd & _). right.
  pose proof (rsplit_join b idx Hd) as Hr. split; [by eapply AncParent|by eapply parent_shorter].
Qed.

Lemma parents_loop_spec (fuel : nat) (M : ClaimsMap) (b : string) (s : ClaimSchema) :
  (String.length b < fuel)%nat -> base_path s b -> map_ok (Some b) (cm_claims M) ->
  exists M', parents_loop fuel schemas M b (cs_key s) = Ok M' /\ map_ok None (cm_claims M') /\
    grows (fun q => ancestor q b) (cm_claims M) (cm_claims M').
Proof.
  revert M b s. induction fuel as [|fuel IH]; intros M b s Hf Hb HM; [lia|]. cbn [parents_loop].
  destruct Hb as [s Hs Hp|s t name p0 Hs Hp Ht].
  { rewrite Hp. exists M. split_and!; [done| |apply grows_refl]. eapply map_ok_close; [done|]. congruence. }
  pose proof (rsplit_join p0 name (key_segment_plain _ _ _ Hp)) as Hr. rewrite Hr.
  destruct (contains_key M p0) eqn:Hk.
  { apply contains_key_spec in Hk. exists M. split_and!; [done| |apply grows_refl].
    eapply map_ok_close; [done|]. intros q n Hq. rewrite Hr in Hq. by injection Hq as <- _. }
  rewrite Hp, (find_schema schemas Hwf t) by (by eapply fits_schema). cbn [ok_or mbind res_bind].
  destruct (proj1 (fits_base t p0) Ht) as (b' & Hb' & Hat).
  destruct (array_parent_spec t (add_claim M p0 None t) b' p0 Hb' Hat) as (M1 & -> & HM1 & Hg1).
  { eapply map_ok_add; [done|by right|by left]. }
  cbn [mbind res_bind]. pose proof (parent_shorter _ _ _ _ Hr) as Hlen.
  pose proof (at_index_above _ _ _ Hat) as Habove.
  destruct (IH M1 b' t) as (M2 & -> & HM2 & Hg2); [destruct Habove as [->|[_ ?]]; lia|done..|].
  assert (Hp0 : ancestor p0 (p0 ++ String marker name)) by (by eapply AncParent).
  exists M2. split_and!; [done..|]. eapply grows_trans; [|eapply grows_trans].
  - eapply grows_add; [by apply not_contained|exact Hp0].
  - eapply grows_weaken; [|exact Hg1]. intros q [-> Hq]. by eapply ancestor_trans.
  - eapply grows_weaken; [|exact Hg2]. intros q Hq. destruct Habove as [->|[Hanc _]].
    + by eapply ancestor_trans.
    + eapply ancestor_trans; [exact Hq|]. by eapply ancestor_trans.
Qed.

(** One claim of the request: its leaf, and what is missing above it. *)
Lemma add_request_claim_spec (M : ClaimsMap) (dto : CredentialRequestClaim) (s : ClaimSchema) :
  find_first (fun s => cs_id s =? rc_claim_schema_id dto) schemas = Some s -> fits schemas s (rc_path dto) ->
  map_ok None (cm_claims M) ->
  exists M' c, add_request_claim schemas M dto = Ok M' /\ map_ok None (cm_claims M') /\
    claim_value c = Some (rc_value dto) /\
    grows (fun q => ancestor q (rc_path dto)) (<[rc_path dto := c]> (cm_claims M)) (cm_claims M').
Proof.
  intros Hfind Hfit HM. unfold add_request_claim. rewrite Hfind. cbn [ok_or mbind res_bind].
  destruct (proj1 (fits_base s _) Hfit) as (b & Hb & Hat).
  destruct (array_parent_spec s (add_claim M (rc_path dto) (Some (rc_value dto)) s) b _ Hb Hat)
    as (M1 & -> & HM1 & Hg1).
  { apply (map_ok_add (rc_path dto) _ ""); [|by left|by left]. destruct HM as [He Hp]. split; [done|].
    intros p q n Hq Hr. destruct (Hp p q n Hq Hr) as [?|[=]]. by left. }
  cbn [mbind res_bind]. pose proof (at_index_above _ _ _ Hat) as Habove.
  destruct (parents_loop_spec (S (String.length (rc_path dto))) M1 b s) as (M2 & -> & HM2 & Hg2);
    [destruct Habove as [->|[_ ?]]; lia|done..|].
  eexists M2, (mkClaim (uuid_at (cm_next M)) (Some (rc_value dto)) (rc_path dto) false (Some s)).
  split_and!; [done..|]. eapply grows_trans.
  - eapply grows_weaken; [|exact Hg1]. by intros q [-> ?].
  - eapply grows_weaken; [|exact Hg2]. intros q Hq. destruct Habove as [->|[Hanc _]]; [done|].
    exact (ancestor_trans _ _ _ Hq Hanc).
Qed.

(** *** All claims of the request *)

Definition covered (dtos : list CredentialRequestClaim) (p : string) : Prop :=
  exists dto, dto ∈ dtos /\ (p = rc_path dto \/ ancestor p (rc_path dto)).

(** The value that the request gives to a path, the last one if there are several. *)
Definition last_value (dtos : list CredentialRequestClaim) (p : string) : option string :=
  foldl (fun acc d => if String.eqb (rc_path d) p then Some (rc_value d) else acc) None dtos.

Lemma last_value_None (dtos : list CredentialRequestClaim) (p : string) :
  last_value dtos p = None <-> forall d, d ∈ dtos -> rc_path d <> p.
Proof.
  unfold last_value. induction dtos as [|d l IH] using rev_ind; [by split; [intros _ d ?%elem_of_nil|]|].
  rewrite foldl_snoc. destruct (String.eqb_spec (rc_path d) p) as [Heq|Hne].
  - split; [done|]. intros Hall. exfalso. apply (Hall d); [|done]. apply elem_of_app. right. by apply list_elem_of_singleton.
  - rewrite IH. setoid_rewrite elem_of_app. setoid_rewrite list_elem_of_singleton. split.
    + intros Hall x [Hx| ->]; auto.
    + intros Hall x Hx. apply Hall. by left.
Qed.

Lemma ancestor_irrefl (p : string) : ~ ancestor p p.
Proof.
  assert (Hlen : forall s, ancestor p s -> (String.length p < String.length s)%nat); [|intros Hp%Hlen; lia].
  induction 1 as [s q Hs|s m q Hs _ IH]; apply parent_shorter in Hs; lia.
Qed.

(** The state of the map after some claims of the request. *)
Record built (dtos : list CredentialRequestClaim) (M : gmap string Claim) : Prop := {
  bu_ok : map_ok None M;
  bu_dom : forall p, is_Some (M !! p) <-> covered dtos p;
  bu_value : forall p c, M !! p = Some c -> claim_value c = last_value dtos p
}.

Lemma map_ok_ancestor (M : gmap string Claim) (p q : string) : map_ok None M ->
  is_Some (M !! q) -> ancestor p q -> is_Some (M !! p).
Proof.
  intros [_ Hp] Hq Hanc. induction Hanc as [s n Hs|s m n Hs _ IH].
  - destruct (Hp s p n Hq Hs) as [?|[=]]. done.
  - apply IH. destruct (Hp s m n Hq Hs) as [?|[=]]. done.
Qed.

Lemma built_step (done_ : list CredentialRequestClaim) (M : ClaimsMap) (dto : CredentialRequestClaim)
  (s : ClaimSchema) :
  find_first (fun s => cs_id s =? rc_claim_schema_id dto) schemas = Some s -> fits schemas s (rc_path dto) ->
  built done_ (cm_claims M) ->
  exists M', add_request_claim schemas M dto = Ok M' /\ built (done_ ++ [dto]) (cm_claims M').
Proof.
  intros Hfind Hfit [Hok Hdom Hval].
  destruct (add_request_claim_spec M dto s Hfind Hfit Hok) as (M' & c & HM' & Hok' & Hc & [Hkeep Hnew]).
  exists M'. split; [done|].
  assert (Hself : cm_claims M' !! rc_path dto = Some c) by (apply Hkeep, lookup_insert_eq).
  assert (Hcov : forall p, covered (done_ ++ [dto]) p <->
            covered done_ p \/ p = rc_path dto \/ ancestor p (rc_path dto)).
  { intros p. unfold covered. setoid_rewrite elem_of_app. setoid_rewrite list_elem_of_singleton. naive_solver. }
  split; [done| |].
  - intros p. rewrite Hcov, <-Hdom. split.
    + intros [x Hx]. apply Hnew in Hx as [Hx|[_ Hx]]; [|by auto].
      destruct (decide (rc_path dto = p)) as [<-|Hne]; [by auto|]. rewrite lookup_insert_ne in Hx by done. left. eauto.
    + intros [[x Hx]|[->|Hanc]]; [|by eauto|by eapply map_ok_ancestor; eauto].
      destruct (decide (rc_path dto = p)) as [<-|Hne]; [by eauto|].
      exists x. apply Hkeep. by rewrite lookup_insert_ne.
  - intros p x Hx. unfold last_value. rewrite foldl_snoc. fold (last_value done_ p).
    destruct (String.eqb_spec (rc_path dto) p) as [<-|Hne]; [congruence|].
    apply Hnew in Hx as Hcase. destruct Hcase as [Hold|[Hv Hanc]].
    + rewrite lookup_insert_ne in Hold by done. by apply Hval.
    + rewrite Hv. symmetry. apply last_value_None. intros d Hd Hp.
      assert (Hold : is_Some (cm_claims M !! p)) by (apply Hdom; exists d; auto). destruct Hold as [y Hy].
      assert (cm_claims M' !! p = Some y) as Hy' by (apply Hkeep; by rewrite lookup_insert_ne).
      rewrite Hx in Hy'. injection Hy' as ->. rewrite (Hval _ _ Hy) in Hv.
      exact (proj1 (last_value_None _ _) Hv d Hd Hp).
Qed.

Lemma built_all (dtos : list CredentialRequestClaim) :
  (forall d, d ∈ dtos -> exists s, find_first (fun s => cs_id s =? rc_claim_schema_id d) schemas = Some s /\
     fits schemas s (rc_path d)) ->
  forall done_ M, built done_ (cm_claims M) ->
  exists M', try_fold (add_request_claim schemas) M dtos = Ok M' /\ built (done_ ++ dtos) (cm_claims M').
Proof.
  induction dtos as [|d l IH]; intros Hall done_ M HM.
  { exists M. by rewrite app_nil_r. }
  destruct (Hall d ltac:(left)) as (s & Hs & Hfit).
  destruct (built_step done_ M d s Hs Hfit HM) as (M1 & HM1 & Hb1). cbn [try_fold]. rewrite HM1.
  destruct (IH ltac:(intros; apply Hall; by right) _ _ Hb1) as (M2 & HM2 & Hb2).
  exists M2. rewrite cons_middle, app_assoc. done.
Qed.
End loops.
End creation_lemmas.

(** ** The result *)

Section created.
Context `{UuidSupply} `{HashOrderLaws}.
Context (schemas : list ClaimSchema) (Hwf : schemas_wf schemas = true).

Lemma schema_key_nonempty (s : ClaimSchema) : s ∈ schemas -> cs_key s <> ""%string.
Proof.
  intros Hs%list_elem_of_In Hk. apply andb_true_iff in Hwf as [_ Hall]. rewrite List.forallb_forall in Hall.
  specialize (Hall s Hs). by rewrite Hk in Hall.
Qed.

Lemma append_marker_nonempty (p q : string) : (p ++ String marker q)%string <> ""%string.
Proof. by destruct p. Qed.

Lemma base_path_nonempty (s : ClaimSchema) (b : string) : base_path schemas s b -> b <> ""%string.
Proof. intros [? Hs _|]; [by apply schema_key_nonempty|apply append_marker_nonempty]. Qed.

Lemma located_nonempty (s : ClaimSchema) (p : string) : located schemas s p -> p <> ""%string.
Proof.
  assert (Hfits : forall q, fits schemas s q -> exists b, base_path schemas s b /\ at_index s b q)
    by (intros q; apply fits_base).
  intros [(b & Hb & Hat)%Hfits|[Ha (idx & Hd & (b & Hb & Hat)%Hfits)]] ->; unfold at_index in Hat.
  - destruct (cs_array s); [|by apply base_path_nonempty in Hb; subst].
    destruct Hat as (idx & Heq & _). symmetry in Heq. by apply append_marker_nonempty in Heq.
  - rewrite Ha in Hat. destruct Hat as (idx' & Heq & Hd' & _).
    pose proof (rsplit_join "" idx Hd) as Hr. rewrite Heq, (rsplit_join b idx' Hd') in Hr. injection Hr as -> _.
    by apply base_path_nonempty in Hb.
Qed.

Lemma built_claims_wf (dtos : list CredentialRequestClaim) (M : gmap string Claim) : built schemas dtos M ->
  claims_wf (hash_order _ (map_to_list M).*2) = true.
Proof.
  intros [[Hentry Hparent] Hdom Hval]. unfold claims_wf. apply andb_true_iff. split.
  - apply bool_decide_eq_true. rewrite hash_order_perm.
    assert (Heq : claim_path <$> (map_to_list M).*2 = (map_to_list M).*1); [|rewrite Heq; apply NoDup_fst_map_to_list].
    rewrite <-list_fmap_compose. apply list_fmap_ext. intros i [p c] Hi%list_elem_of_lookup_2%elem_of_map_to_list.
    by apply Hentry in Hi as [? _].
  - apply List.forallb_forall. intros c Hc%list_elem_of_In. rewrite hash_order_perm, list_elem_of_fmap in Hc.
    destruct Hc as ([p c'] & -> & Hc%elem_of_map_to_list). cbn [snd].
    destruct (Hentry _ _ Hc) as [Hp (s & Hs & Hloc)]. unfold claim_wf. rewrite Hs, Hp.
    rewrite bool_decide_eq_true_2 by eauto. cbn [andb].
    destruct (String.eqb_spec p "") as [->|_]; [by apply located_nonempty in Hloc|]. cbn [negb andb].
    destruct (rsplit_once marker p) as [[q n]|] eqn:Hr; [|done].
    destruct (Hparent p q n ltac:(eauto) Hr) as [[a Ha]|[=]].
    apply List.existsb_exists. exists a. split.
    + apply list_elem_of_In. rewrite hash_order_perm, list_elem_of_fmap. exists (q, a).
      split; [done|]. by apply elem_of_map_to_list.
    + apply Hentry in Ha as [-> _]. apply String.eqb_refl.
Qed.

Lemma claims_created (dtos : list CredentialRequestClaim) (next : nat) :
  (forall d, d ∈ dtos -> exists s, find_first (fun s => cs_id s =? rc_claim_schema_id d) schemas = Some s /\
     fits schemas s (rc_path d)) ->
  exists l, claims_from_create_request dtos schemas next = Ok l /\ claims_wf l = true /\
    (forall p, p ∈ claim_path <$> l <-> covered dtos p) /\
    (forall c, c ∈ l -> claim_value c = last_value dtos (claim_path c) /\
       exists s, claim_schema c = Some s /\ located schemas s (claim_path c)).
Proof.
  intros Hall. unfold claims_from_create_request.
  assert (Hb0 : built schemas [] (cm_claims (mkClaimsMap ∅ next))).
  { split; [split|..]; cbn [cm_claims].
    - intros p c Hp. by rewrite lookup_empty in Hp.
    - intros p q n [c Hp]. by rewrite lookup_empty in Hp.
    - intros p. rewrite lookup_empty. split; [by intros []|]. by intros (d & Hd%elem_of_nil & _).
    - intros p c Hp. by rewrite lookup_empty in Hp. }
  destruct (built_all schemas Hwf dtos Hall [] _ Hb0) as (M & -> & Hb). cbn [mbind res_bind app] in *.
  eexists. split; [reflexivity|]. split; [by eapply built_claims_wf|]. destruct Hb as [[Hentry _] Hdom Hval]. split.
  - intros p. rewrite <-Hdom, hash_order_perm, <-list_fmap_compose, list_elem_of_fmap. split.
    + intros ([q c] & -> & Hq%elem_of_map_to_list). cbn. destruct (Hentry _ _ Hq) as [-> _]. eauto.
    + intros [c Hc]. exists (p, c). cbn. destruct (Hentry _ _ Hc) as [-> _]. split; [done|]. by apply elem_of_map_to_list.
  - intros c. rewrite hash_order_perm, list_elem_of_fmap. intros ([q c'] & -> & Hq%elem_of_map_to_list). cbn.
    destruct (Hentry _ _ Hq) as [-> Hs]. split; [by apply Hval|done].
Qed.
End created.

(** ** Accepted requests *)

Section accepted.
Context `{ValueOps} (regex_escape : string -> string).
Context (schemas : list ClaimSchema) (config : DatatypeConfig).

Definition is_object (s : ClaimSchema) : Prop :=
  exists fields, config !! cs_data_type s = Some fields /\ df_type fields = DtObject.

(** Some claim of the request belongs to a schema below this one. *)
Definition provided_below (claims : list CredentialRequestClaim) (o : ClaimSchema) : Prop :=
  exists claim s, claim ∈ claims /\
    find_first (fun s => cs_id s =? rc_claim_schema_id claim) schemas = Some s /\
    ancestor (cs_key o) (cs_key s).

(** The schemas that a request must have a claim for: the required ones that are
    not below an optional object which the request leaves out. *)
Definition demanded (claims : list CredentialRequestClaim) (s : ClaimSchema) : Prop :=
  cs_required s = true /\ cs_metadata s = false /\ ~ is_object s /\
  forall o, o ∈ schemas -> is_object o -> cs_required o = false -> ancestor (cs_key o) (cs_key s) ->
    provided_below claims o.

(** The checks on one claim. *)
Definition claim_acceptable (claim : CredentialRequestClaim) : Prop :=
  exists s, find_first (fun s => cs_id s =? rc_claim_schema_id claim) schemas = Some s /\
    fits schemas s (rc_path claim) /\ rc_value claim <> ""%string /\
    validate_datatype_value (rc_value claim) (cs_data_type s) config = Ok tt.

Lemma unit_ok {E : Type} (r : res E unit) (u : unit) : r = Ok u <-> r = Ok tt.
Proof. by destruct u. Qed.

Lemma validate_claim_ok (claim : CredentialRequestClaim) : schemas_wf schemas = true ->
  is_ok (validate_claim schemas config claim) = true <-> claim_acceptable claim.
Proof.
  intros Hwf. unfold validate_claim, claim_acceptable.
  destruct (find_first _ schemas) as [s|] eqn:Hf; cbn [ok_or mbind res_bind is_ok]; [|naive_solver].
  pose proof (validate_path_fits schemas Hwf claim s) as Hpath.
  apply find_first_Some in Hf as [Hs _]. specialize (Hpath Hs).
  unfold validate_array_value_non_empty, validate_object_value_non_empty, validate_value_non_empty, fail_if, str_empty.
  destruct (validate_path claim s schemas) as [[]|e|]; cbn [mbind res_bind is_ok].
  2, 3: split; [done|]; intros (s' & [= <-] & Hfit & _); by apply Hpath in Hfit.
  destruct (String.eqb_spec (rc_value claim) "") as [He|Hne].
  - split; [|naive_solver]. by destruct (cs_array s), (negb _).
  - rewrite !andb_false_r. cbn [andb mbind res_bind].
    destruct (validate_datatype_value _ _ config) as [[]|e|] eqn:Hd; cbn [map_err mbind res_bind is_ok].
    + split; [|done]. intros _. exists s. split_and!; [done|by apply Hpath|done..].
    + split; [done|]. intros (s' & [= <-] & _ & _ & Hd'). congruence.
    + split; [done|]. intros (s' & [= <-] & _ & _ & Hd'). congruence.
Qed.

Lemma validate_claim_path (claim : CredentialRequestClaim) (p : string) :
  validate_claim schemas config claim = Ok p -> p = rc_path claim.
Proof.
  unfold validate_claim. intros Hv. repeat (apply res_bind_ok in Hv as (? & _ & Hv)). by injection Hv.
Qed.

Lemma validated_paths (claims : list CredentialRequestClaim) (paths : list string) :
  try_map (validate_claim schemas config) claims = Ok paths -> paths = rc_path <$> claims.
Proof.
  intros Hp%try_map_ok. induction Hp as [|c p cs ps Hp _ IH]; [done|].
  rewrite fmap_cons, <-IH. f_equal. by apply validate_claim_path in Hp.
Qed.

Lemma validate_claims_ok (claims : list CredentialRequestClaim) : schemas_wf schemas = true ->
  (exists paths, try_map (validate_claim schemas config) claims = Ok paths) <->
  forall c, c ∈ claims -> claim_acceptable c.
Proof.
  intros Hwf. split.
  - intros [paths Hp%try_map_ok] c Hc. apply validate_claim_ok; [done|].
    destruct (proj1 (list_elem_of_lookup _ _) Hc) as [i Hi].
    destruct (Forall2_lookup_l _ _ _ _ _ Hp Hi) as (p & _ & ->). done.
  - intros Hall. exists (rc_path <$> claims). apply try_map_total. intros c Hc.
    pose proof (proj2 (validate_claim_ok c Hwf) (Hall c Hc)) as Hok.
    destruct (validate_claim schemas config c) as [p| |] eqn:Hv; [|done..]. by rewrite (validate_claim_path _ _ Hv).
Qed.

(** *** Optional objects that are left out *)

Definition object_type (s : ClaimSchema) : bool :=
  match config !! cs_data_type s with Some fields => bool_decide (df_type fields = DtObject) | None => false end.

(** The object [o] makes [s] optional. *)
Definition drops (names : list string) (o s : ClaimSchema) : bool :=
  negb (existsb (starts_with (cs_key o ++ marker_str)) names) && object_type o && negb (cs_required o) &&
  starts_with (cs_key o ++ marker_str) (cs_key s).

Definition adapted (names : list string) (done_ : list ClaimSchema) (s : ClaimSchema) : ClaimSchema :=
  if existsb (fun o => drops names o s) done_ then with_required false s else s.

Lemma adapted_key (names : list string) (done_ : list ClaimSchema) (s : ClaimSchema) :
  cs_key (adapted names done_ s) = cs_key s.
Proof. unfold adapted. by case_match. Qed.

Lemma adapted_id (names : list string) (done_ : list ClaimSchema) (s : ClaimSchema) :
  cs_id (adapted names done_ s) = cs_id s.
Proof. unfold adapted. by case_match. Qed.
Lemma adapted_type (names : list string) (done_ : list ClaimSchema) (s : ClaimSchema) :
  cs_data_type (adapted names done_ s) = cs_data_type s.
Proof. unfold adapted. by case_match. Qed.
Lemma adapted_metadata (names : list string) (done_ : list ClaimSchema) (s : ClaimSchema) :
  cs_metadata (adapted names done_ s) = cs_metadata s.
Proof. unfold adapted. by case_match. Qed.
Lemma adapted_object (names : list string) (done_ : list ClaimSchema) (s : ClaimSchema) :
  object_type (adapted names done_ s) = object_type s.
Proof. unfold object_type. by rewrite adapted_type. Qed.

Lemma adapt_step_spec (names : list string) (done_ : list ClaimSchema) (o : ClaimSchema) :
  is_Some (config !! cs_data_type o) ->
  adapt_step names config (adapted names done_ <$> schemas) o = Ok (adapted names (done_ ++ [o]) <$> schemas).
Proof.
  intros [fields Hf]. unfold adapt_step, get_fields. rewrite Hf. cbn [ok_or map_err mbind res_bind]. f_equal.
  assert (Ho : object_type o = bool_decide (df_type fields = DtObject)) by (unfold object_type; by rewrite Hf).
  rewrite <-Ho. destruct (negb _ && object_type o && negb (cs_required o)) eqn:Hc.
  - rewrite <-list_fmap_compose. apply list_fmap_ext. intros i s _. cbn. rewrite adapted_key.
    assert (Hd : drops names o s = starts_with (cs_key o ++ marker_str) (cs_key s)) by (unfold drops; by rewrite Hc).
    unfold adapted. rewrite existsb_app. cbn [existsb]. rewrite Hd, orb_false_r.
    destruct (starts_with _ (cs_key s)).
    + rewrite orb_true_r. by destruct (existsb _ done_).
    + by rewrite orb_false_r.
  - apply list_fmap_ext. intros i s _. unfold adapted. rewrite existsb_app. cbn [existsb].
    assert (Hd : drops names o s = false) by (unfold drops; by rewrite Hc). by rewrite Hd, !orb_false_r.
Qed.

Lemma adapt_fold (names : list string) (l done_ : list ClaimSchema) :
  (forall o, o ∈ l -> is_Some (config !! cs_data_type o)) ->
  try_fold (adapt_step names config) (adapted names done_ <$> schemas) l = Ok (adapted names (done_ ++ l) <$> schemas).
Proof.
  revert done_. induction l as [|o l IH]; intros done_ Hall; [by rewrite app_nil_r|].
  cbn [try_fold]. rewrite adapt_step_spec by (apply Hall; left). cbn [mbind res_bind].
  rewrite IH by (intros; apply Hall; by right). by rewrite <-app_assoc.
Qed.

Lemma adapt_fold_fails (names : list string) (l result r : list ClaimSchema) :
  try_fold (adapt_step names config) result l = Ok r -> forall o, o ∈ l -> is_Some (config !! cs_data_type o).
Proof.
  revert result. induction l as [|x l IH]; intros result; [by intros _ o ?%elem_of_nil|].
  cbn [try_fold]. intros (r1 & H1 & H2)%res_bind_ok o [->|Ho]%elem_of_cons; [|by eapply IH].
  unfold adapt_step, get_fields in H1. by destruct (config !! cs_data_type x); [|].
Qed.

Lemma adapt_spec (claims : list CredentialRequestClaim) (names : list string) (r : list ClaimSchema) :
  names_of_claims schemas claims = Ok names ->
  adapt_required_state_based_on_claim_presence schemas claims config = Ok r <->
  (forall o, o ∈ schemas -> is_Some (config !! cs_data_type o)) /\ r = adapted names schemas <$> schemas.
Proof.
  intros Hn. unfold adapt_required_state_based_on_claim_presence. rewrite Hn. cbn [mbind res_bind].
  assert (Hid : adapted names [] <$> schemas = schemas) by apply list_fmap_id. split.
  - intros Hr. pose proof (adapt_fold_fails _ _ _ _ Hr) as Hall. split; [done|].
    rewrite <-Hid in Hr at 1. rewrite adapt_fold in Hr by done. by injection Hr as <-.
  - intros [Hall ->]. rewrite <-Hid at 1. by rewrite adapt_fold.
Qed.

Lemma names_provided (claims : list CredentialRequestClaim) (names : list string) (o : ClaimSchema) :
  names_of_claims schemas claims = Ok names ->
  existsb (starts_with (cs_key o ++ marker_str)) names = true <-> provided_below claims o.
Proof.
  intros Hn%try_map_ok. rewrite List.existsb_exists. split.
  - intros (k & (i & Hi)%list_elem_of_In%list_elem_of_lookup & Hk%ancestor_iff).
    destruct (Forall2_lookup_r _ _ _ _ _ Hn Hi) as (c & Hc & (s & Hs & [= <-])%res_bind_ok).
    apply ok_or_ok in Hs. exists c, s. split_and!; [by eapply list_elem_of_lookup_2|done..].
  - intros (c & s & (i & Hi)%list_elem_of_lookup & Hs & Hanc).
    destruct (Forall2_lookup_l _ _ _ _ _ Hn Hi) as (k & Hk & Hck). rewrite Hs in Hck.
    cbn [ok_or mbind res_bind] in Hck. injection Hck as <-. exists (cs_key s).
    split; [apply list_elem_of_In; by eapply list_elem_of_lookup_2|]. by apply ancestor_iff.
Qed.

Lemma names_exist (claims : list CredentialRequestClaim) : (forall c, c ∈ claims -> claim_acceptable c) ->
  exists names, names_of_claims schemas claims = Ok names.
Proof.
  induction claims as [|c l IH]; intros Hall; [by exists []|].
  destruct (Hall c ltac:(left)) as (s & Hs & _). destruct IH as [names Hn]; [intros; apply Hall; by right|].
  exists (cs_key s :: names). unfold names_of_claims in *. cbn [try_map]. rewrite Hs. cbn [ok_or mbind res_bind].
  by rewrite Hn.
Qed.

Lemma object_type_iff (s : ClaimSchema) : object_type s = true <-> is_object s.
Proof.
  unfold object_type, is_object. destruct (config !! cs_data_type s) as [fields|]; [|naive_solver].
  rewrite bool_decide_eq_true. naive_solver.
Qed.

Lemma adapted_required (claims : list CredentialRequestClaim) (names : list string) (s : ClaimSchema) :
  names_of_claims schemas claims = Ok names ->
  (cs_required (adapted names schemas s) && negb (cs_metadata s) && negb (object_type s) = true <->
   demanded claims s).
Proof.
  intros Hn. rewrite !andb_true_iff, !negb_true_iff. unfold demanded.
  rewrite <-object_type_iff, not_true_iff_false.
  assert (Hdrop : existsb (fun o => drops names o s) schemas = false <->
            forall o, o ∈ schemas -> is_object o -> cs_required o = false -> ancestor (cs_key o) (cs_key s) ->
              provided_below claims o).
  { rewrite <-not_true_iff_false, List.existsb_exists. split.
    - intros Hno o Ho Hobj Hreq Hanc. rewrite <-(names_provided claims names o Hn).
      destruct (existsb _ names) eqn:He; [done|]. exfalso. apply Hno. exists o.
      split; [by apply list_elem_of_In|]. unfold drops. rewrite He, Hreq. apply object_type_iff in Hobj.
      apply ancestor_iff in Hanc. by rewrite Hobj, Hanc.
    - intros Hall (o & Ho%list_elem_of_In & Hd). unfold drops in Hd.
      rewrite !andb_true_iff, !negb_true_iff in Hd. destruct Hd as [[[He Hobj%object_type_iff] Hreq] Hanc%ancestor_iff].
      pose proof (Hall o Ho Hobj Hreq Hanc) as Hp. apply (names_provided claims names o Hn) in Hp. congruence. }
  rewrite <-Hdrop. unfold adapted. destruct (existsb _ schemas); cbn [cs_required with_required]; naive_solver.
Qed.

Lemma check_required_spec (claims : list CredentialRequestClaim) (s : ClaimSchema) :
  is_Some (config !! cs_data_type s) ->
  (exists u, check_required claims config s = Ok u) <->
  (cs_required s && negb (cs_metadata s) && negb (object_type s) = true ->
   exists c, c ∈ claims /\ rc_claim_schema_id c = cs_id s).
Proof.
  intros [fields Hf]. unfold check_required, get_fields, object_type. rewrite Hf. cbn [ok_or map_err mbind res_bind].
  destruct (cs_required s && _ && _); [|naive_solver].
  destruct (find_first _ claims) as [c|] eqn:Hc; cbn [ok_or mbind res_bind].
  - apply find_first_Some in Hc as [Hc Hid%Z.eqb_eq]. naive_solver.
  - split; [by intros [u [=]]|]. intros Hex. destruct (Hex eq_refl) as (c & Hin & Hid).
    apply list_elem_of_In in Hin. pose proof (List.find_none _ _ Hc c Hin) as Hn. cbn beta in Hn. lia.
Qed.

Lemma validate_claims_part (claims : list CredentialRequestClaim) : schemas_wf schemas = true ->
  (try_map (validate_claim schemas config) claims ≫= fun paths =>
   validate_continuity regex_escape paths schemas ≫= fun _ =>
   adapt_required_state_based_on_claim_presence schemas claims config ≫= fun claim_schemas =>
   try_map (check_required claims config) claim_schemas ≫= fun _ => Ok tt) = Ok tt <->
  (forall c, c ∈ claims -> claim_acceptable c) /\
  validate_continuity regex_escape (rc_path <$> claims) schemas = Ok tt /\
  (forall s, s ∈ schemas -> is_Some (config !! cs_data_type s)) /\
  (forall s, s ∈ schemas -> demanded claims s -> exists c, c ∈ claims /\ rc_claim_schema_id c = cs_id s).
Proof.
  intros Hwf. split.
  - intros (paths & Hpaths & Hv)%res_bind_ok. apply res_bind_ok in Hv as ([] & Hcont & Hv).
    apply res_bind_ok in Hv as (r & Hr & Hv). apply res_bind_ok in Hv as (us & Hus & _).
    pose proof (proj1 (validate_claims_ok claims Hwf) (ex_intro _ paths Hpaths)) as Hall.
    rewrite (validated_paths _ _ Hpaths) in Hcont.
    destruct (names_exist claims Hall) as [names Hn].
    apply (adapt_spec claims names r Hn) in Hr as [Hconf ->]. split_and!; [done..|].
    intros s Hs Hdem. apply try_map_ok in Hus. apply list_elem_of_lookup in Hs as [i Hi].
    destruct (Forall2_lookup_l _ _ _ i (adapted names schemas s) Hus) as (u & _ & Hu); [by rewrite list_lookup_fmap, Hi|].
    apply (adapted_required claims names s Hn) in Hdem. rewrite <-(adapted_id names schemas s).
    apply check_required_spec; [rewrite adapted_type; apply Hconf; by eapply list_elem_of_lookup_2|by eauto|].
    by rewrite adapted_metadata, adapted_object.
  - intros (Hall & Hcont & Hconf & Hdem).
    assert (Hp : try_map (validate_claim schemas config) claims = Ok (rc_path <$> claims)).
    { destruct (proj2 (validate_claims_ok claims Hwf) Hall) as [paths Hp]. by rewrite Hp, (validated_paths _ _ Hp). }
    destruct (names_exist claims Hall) as [names Hn].
    rewrite Hp. cbn [mbind res_bind]. rewrite Hcont. cbn [mbind res_bind].
    rewrite (proj2 (adapt_spec claims names _ Hn) (conj Hconf eq_refl)). cbn [mbind res_bind].
    rewrite (try_map_total _ (fun _ => tt)); [done|].
    intros x (s & -> & Hs)%list_elem_of_fmap.
    destruct (proj2 (check_required_spec claims (adapted names schemas s) ltac:(rewrite adapted_type; by apply Hconf)))
      as [[] Hu]; [|done]. rewrite adapted_metadata, adapted_object, adapted_id.
    intros Hreq. apply (Hdem s Hs). by apply (adapted_required claims names s Hn).
Qed.
End accepted.


(** C29: The claims that are made of an accepted request: the leaves of the
    request with their values (the last one given for a path), and exactly the
    objects and arrays above them, without values; paths are unique, every claim
    has the schema of its path, and the parent of a claim is a claim. *)
Theorem created_claims_correct `{UuidSupply} `{HashOrderLaws} `{ValueOps} (regex_escape : string -> string)
  (exchange : string) (claims : list CredentialRequestClaim) (schema : SchemaOfRequest)
  (schemas : list ClaimSchema) (protocols : list string) (config : CreateConfig) (next : nat) :
  schemas_wf schemas = true -> sr_claim_schemas schema = Some schemas ->
  validate_create_request regex_escape exchange claims schema protocols config = Ok tt ->
  exists l, claims_from_create_request claims schemas next = Ok l /\ claims_wf l = true /\
    (forall p, p ∈ claim_path <$> l <-> covered claims p) /\
    (forall c, c ∈ l -> claim_value c = last_value claims (claim_path c) /\
       exists s, claim_schema c = Some s /\ located schemas s (claim_path c)).
Proof.
  intros Hwf Hsch Hv. apply claims_created; [done|]. unfold validate_create_request in Hv.
  apply res_bind_ok in Hv as (_ & _ & Hv). apply res_bind_ok in Hv as (_ & _ & Hv).
  apply res_bind_ok in Hv as (_ & _ & Hv). rewrite Hsch in Hv. cbn [ok_or mbind res_bind] in Hv.
  apply (validate_claims_part regex_escape schemas (cc_datatype config) claims Hwf) in Hv as [Hall _].
  intros d Hd. destruct (Hall d Hd) as (s & Hs & Hfit & _). eauto.
Qed.

(** ** Witnesses *)

Module CreateWitness.
#[local] Open Scope string_scope.

(** A matcher for the patterns that are built here: alternatives of literals and [\d+]. *)
Definition is_digit (c : ascii) : bool := bool_decide (is_Some (char_digit c)).
Fixpoint match_here (fuel : nat) (pat s : string) : bool :=
  match fuel with
  | O => false
  | S fuel =>
      match pat, s with
      | EmptyString, EmptyString => true
      | String "\" (String "d" (String "+" rest)), String c s' =>
          is_digit c && (match_here fuel rest s' || match_here fuel pat s')
      | String a rest, String c s' => Ascii.eqb a c && match_here fuel rest s'
      | _, _ => false
      end
  end.
Definition alternatives (pat : string) : list string :=
  split_on "|" (String.substring 2 (String.length pat - 4) pat).

#[export] Instance ops : ValueOps := {
  Regex := list string;
  regex_new := fun pat => Some (alternatives pat);
  regex_is_match := fun re s => existsb (fun p => match_here (String.length p + String.length s + 1) p s) re;
  F64 := Z;
  parse_f64 := usize_from_str;
  f64_lt := Z.ltb;
  parse_date := usize_from_str;
  parse_rfc3339 := usize_from_str;
  now_utc := 0
}.
#[export] Instance uuids : UuidSupply := { uuid_at := Z.of_nat; uuid_to_string := usize_to_string }.
#[export] Instance map_order : HashOrder := { hash_order := fun _ l => rev l }.
#[export] Instance map_order_laws : HashOrderLaws.
Proof. constructor. intros A l. cbn. symmetry. apply Permutation_rev. Defined.

Definition schema_list : list ClaimSchema := [
  mkClaimSchema 1 "address" "OBJECT" true false true; mkClaimSchema 2 "address/street" "STRING" false false true;
  mkClaimSchema 3 "address/tags" "STRING" true false false; mkClaimSchema 4 "extra" "OBJECT" false false false;
  mkClaimSchema 5 "extra/note" "STRING" false false true].
Definition request_schema := mkSchemaOfRequest 1 None (Some schema_list).
Definition datatypes : gmap string DatatypeFields :=
  <["STRING" := mkDatatypeFields DtString true (PString {| sp_pattern := None |})]>
  (<["OBJECT" := mkDatatypeFields DtObject true PEmpty]> ∅).
Definition create_config := mkCreateConfig datatypes (<["OPENID4VCI" := mkProtocolFields "vci" true]> ∅).
Definition request : list CredentialRequestClaim := [
  mkRequestClaim 2 "Main" "address/0/street"; mkRequestClaim 3 "home" "address/0/tags/0";
  mkRequestClaim 3 "post" "address/0/tags/1"; mkRequestClaim 2 "Side" "address/1/street"].
End CreateWitness.
Import CreateWitness.


Lemma created_claims_correct_witness : exists l,
  claims_from_create_request request schema_list 0 = Ok l /\ claims_wf l = true /\ length l = 8%nat.
Proof.
  destruct (created_claims_correct (fun s => s) "OPENID4VCI" request request_schema schema_list ["vci"%string]
              create_config 0 ltac:(vm_compute; reflexivity) eq_refl ltac:(vm_compute; reflexivity))
    as (l & Hl & Hwf & _).
  exists l. split; [exact Hl|]. split; [exact Hwf|]. vm_compute in Hl. injection Hl as <-. reflexivity.
Defined.
