(* ===== verification/SchemaClaims.v ===== *)
(** * Claims of a credential schema

    Models the conversions between nested claims and the flat list that is
    stored, [unnest_claim_schemas] and [renest_claim_schemas] of
    [lib/one-core/src/service/credential_schema/mapper.rs], and shows that
    nesting undoes unnesting and always ends. *)

From S2P Require Import Prelude StatusBits KeySelection RevocationRepo RevocationMethod.
From S2P Require Import Paths Dcql DcqlSpec Datatypes CreateClaims.
From Stdlib Require Import Ascii.
#[local] Open Scope Z_scope.

(** ** Nested claims *)

(** The request and the response have the same shape and differ in the data of
    a claim. *)
Inductive Node (A : Type) := mkNode (key : string) (data : A) (claims : list (Node A)).
Arguments mkNode {A} _ _ _.

Definition nkey {A} (n : Node A) : string := let 'mkNode k _ _ := n in k.
Definition ndata {A} (n : Node A) : A := let 'mkNode _ d _ := n in d.
Definition nclaims {A} (n : Node A) : list (Node A) := let 'mkNode _ _ l := n in l.

Record ReqData := mkReqData { rd_datatype : string; rd_required : bool; rd_array : option bool }.
Record DtoData := mkDtoData { dd_id : Z; dd_datatype : string; dd_required : bool; dd_array : bool }.
Definition CredentialClaimSchemaRequest : Type := Node ReqData.
Definition CredentialClaimSchemaDto : Type := Node DtoData.

(** ** Flat claims *)

Fixpoint unnest_claim_schemas_inner {A : Type} (prefix : string) (claim_schema : Node A) : list (Node A) :=
  let 'mkNode k data claims := claim_schema in
  let key := (prefix ++ k)%string in
  mkNode key data [] :: flat_map (unnest_claim_schemas_inner (key ++ marker_str)) claims.

Definition unnest_claim_schemas {A : Type} (claim_schemas : list (Node A)) : list (Node A) :=
  flat_map (unnest_claim_schemas_inner "") claim_schemas.

(** [from_jwt_request_claim_schema], with the ids that are drawn. *)
Definition claim_schema_of (id : Z) (n : CredentialClaimSchemaRequest) : ClaimSchema :=
  mkClaimSchema id (nkey n) (rd_datatype (ndata n)) (default false (rd_array (ndata n))) false
    (rd_required (ndata n)).

Definition claim_schemas_of_request `{UuidSupply} (next : nat) (claims : list CredentialClaimSchemaRequest) :
  list ClaimSchema :=
  imap (fun i n => claim_schema_of (uuid_at (next + i)) n) (unnest_claim_schemas claims).

Definition dto_of_schema (s : ClaimSchema) : CredentialClaimSchemaDto :=
  mkNode (cs_key s) (mkDtoData (cs_id s) (cs_data_type s) (cs_required s) (cs_array s)) [].

(** ** Nesting again *)

Definition remove_first_nesting_layer (name : string) : string :=
  match split_once marker name with Some (_, rest) => rest | None => name end.

Definition add_child {A : Type} (c n : Node A) : Node A :=
  mkNode (nkey n) (ndata n) (nclaims n ++ [c]).

(** [result.iter_mut().find(..)] and the push to its claims. *)
Fixpoint attach {A E : Type} (missing : A -> E) (result : list (Node A)) (claim_schema : Node A) :
  res E (list (Node A)) :=
  match result with
  | [] => Err (missing (ndata claim_schema))
  | n :: result =>
      if starts_with (nkey n ++ marker_str) (nkey claim_schema)
      then Ok (add_child (mkNode (remove_first_nesting_layer (nkey claim_schema)) (ndata claim_schema)
                            (nclaims claim_schema)) n :: result)
      else result' ← attach missing result claim_schema; Ok (n :: result')
  end.

Definition is_nested {A : Type} (n : Node A) : bool := negb (depth (nkey n) =? 0)%nat.

(** The depth of the recursion is that of the keys. *)
Fixpoint renest_loop {A E : Type} (missing : A -> E) (fuel : nat) (claim_schemas : list (Node A)) :
  res E (list (Node A)) :=
  match fuel with
  | O => Panic
  | S fuel =>
      result ← try_fold (attach missing) (List.filter (fun n => negb (is_nested n)) claim_schemas)
                 (List.filter is_nested claim_schemas);
      try_map (fun n => claims ← renest_loop missing fuel (nclaims n);
                        Ok (mkNode (nkey n) (ndata n) claims)) result
  end.

Definition key_depth {A : Type} (l : list (Node A)) : nat :=
  foldr (fun n m => Nat.max (depth (nkey n)) m) O l.

(** [MissingParentClaimSchema] with the id. *)
Definition renest_claim_schemas (claim_schemas : list CredentialClaimSchemaDto) :
  res Z (list CredentialClaimSchemaDto) :=
  renest_loop dd_id (S (S (key_depth claim_schemas))) claim_schemas.

(** The claims of [CredentialSchemaDetailResponseDTO]: the schema's own, nested. *)
Definition detail_claims (claim_schemas : option (list ClaimSchema)) : res Z (list CredentialClaimSchemaDto) :=
  renest_claim_schemas (dto_of_schema <$> List.filter (fun s => negb (cs_metadata s)) (default [] claim_schemas)).

(** ** Induction *)

Section node_ind.
Context {A : Type} (P : Node A -> Prop).
Hypothesis Hnode : forall k d l, Forall P l -> P (mkNode k d l).

Fixpoint node_induction (n : Node A) : P n :=
  match n with
  | mkNode k d l =>
      Hnode k d l ((fix go (l : list (Node A)) : Forall P l :=
                      match l with
                      | [] => Forall_nil_2 P
                      | x :: l => Forall_cons_2 P x l (node_induction x) (go l)
                      end) l)
  end.
End node_ind.

(** [m] is [n] or a claim below it. *)
Inductive subnode {A : Type} (m : Node A) : Node A -> Prop :=
| SubSelf : subnode m m
| SubChild k d l n : n ∈ l -> subnode m n -> subnode m (mkNode k d l).

(** The keys have no marker, and siblings have different ones. *)
Fixpoint tree_ok {A : Type} (n : Node A) : bool :=
  let 'mkNode k _ l := n in
  (depth k =? 0)%nat && bool_decide (NoDup (nkey <$> l)) && forallb tree_ok l.
Definition forest_ok {A : Type} (l : list (Node A)) : bool :=
  bool_decide (NoDup (nkey <$> l)) && forallb tree_ok l.

Fixpoint height {A : Type} (n : Node A) : nat :=
  let 'mkNode _ _ l := n in S (foldr (fun x m => Nat.max (height x) m) O l).
Definition forest_height {A : Type} (l : list (Node A)) : nat :=
  foldr (fun x m => Nat.max (height x) m) O l.

(** ** Unnesting *)

Definition prepend {A : Type} (p : string) (n : Node A) : Node A := mkNode (p ++ nkey n) (ndata n) (nclaims n).

Lemma unnest_prefix {A : Type} (n : Node A) : forall p q,
  unnest_claim_schemas_inner (p ++ q) n = prepend p <$> unnest_claim_schemas_inner q n.
Proof.
  induction n as [k d l IH] using node_induction. intros p q. cbn [unnest_claim_schemas_inner].
  rewrite fmap_cons. f_equal.
  - unfold prepend. cbn. by rewrite str_app_assoc.
  - rewrite !str_app_assoc. rewrite <-(str_app_assoc q k marker_str).
    induction IH as [|x l Hx _ IHl]; [done|]. cbn [flat_map]. rewrite fmap_app. f_equal; [apply Hx|apply IHl].
Qed.

Lemma unnest_node {A : Type} (k : string) (d : A) (l : list (Node A)) :
  unnest_claim_schemas_inner "" (mkNode k d l) =
  mkNode k d [] :: (prepend (k ++ marker_str) <$> unnest_claim_schemas l).
Proof.
  cbn [unnest_claim_schemas_inner]. f_equal. unfold unnest_claim_schemas.
  change (String.append "" k) with k. induction l as [|x l IH]; [done|]. cbn [flat_map]. rewrite fmap_app, IH.
  f_equal. rewrite <-(str_app_nil (k ++ marker_str)) at 1. apply unnest_prefix.
Qed.

Lemma unnest_cons {A : Type} (k : string) (d : A) (l rest : list (Node A)) :
  unnest_claim_schemas (mkNode k d l :: rest) =
  mkNode k d [] :: (prepend (k ++ marker_str) <$> unnest_claim_schemas l) ++ unnest_claim_schemas rest.
Proof. unfold unnest_claim_schemas at 1. cbn [flat_map]. by rewrite unnest_node. Qed.

(** ** Nesting undoes unnesting *)

Lemma starts_with_segment (k k' x : string) : depth k = O -> depth k' = O ->
  starts_with (k' ++ marker_str) (k ++ String marker x) = true <-> k' = k.
Proof.
  intros Hk Hk'. rewrite starts_with_spec. split.
  - intros [r Hr]. rewrite str_app_assoc in Hr. change (marker_str ++ r)%string with (String marker r) in Hr.
    apply (f_equal (split_on marker)) in Hr. rewrite !split_app, (split_plain k), (split_plain k') in Hr by done.
    by injection Hr.
  - intros ->. exists x. by rewrite str_app_assoc.
Qed.

Lemma remove_layer (k x : string) : depth k = O -> remove_first_nesting_layer (k ++ String marker x) = x.
Proof.
  intros Hk. unfold remove_first_nesting_layer.
  assert (Hs : split_once marker (k ++ String marker x) = Some (k, x)); [|by rewrite Hs].
  revert Hk. unfold depth. induction k as [|a k IH]; [done|]. intros Hk. cbn [count_char] in Hk.
  change (String a k ++ String marker x)%string with (String a (k ++ String marker x)). cbn [split_once].
  destruct (Ascii.eqb a marker); [lia|]. by rewrite IH by lia.
Qed.

Section roundtrip.
Context {A E : Type} (missing : A -> E).

Definition strip (n : Node A) : Node A := mkNode (nkey n) (ndata n) [].
Definition filled (n : Node A) : Node A := mkNode (nkey n) (ndata n) (unnest_claim_schemas (nclaims n)).
Definition child_entries (n : Node A) : list (Node A) :=
  prepend (nkey n ++ marker_str) <$> unnest_claim_schemas (nclaims n).

Lemma prepend_key (k : string) (n : Node A) : nkey (prepend (k ++ marker_str) n) = (k ++ String marker (nkey n))%string.
Proof. cbn. by rewrite str_app_assoc. Qed.

Lemma prepend_nested (k : string) (n : Node A) : is_nested (prepend (k ++ marker_str) n) = true.
Proof.
  unfold is_nested. rewrite prepend_key. unfold depth. rewrite count_char_app. cbn. rewrite Nat.add_succ_r. done.
Qed.

Lemma filter_nested_prepend (k : string) (l : list (Node A)) :
  List.filter is_nested (prepend (k ++ marker_str) <$> l) = prepend (k ++ marker_str) <$> l /\
  List.filter (fun n => negb (is_nested n)) (prepend (k ++ marker_str) <$> l) = [].
Proof.
  induction l as [|x l [IH1 IH2]]; [done|]. rewrite fmap_cons. cbn [List.filter]. rewrite prepend_nested. cbn [negb].
  by rewrite IH1, IH2.
Qed.

Lemma tree_key (n : Node A) : depth (nkey n) = O \/ tree_ok n = false.
Proof. destruct n as [k d l]. cbn [nkey tree_ok]. destruct (Nat.eqb_spec (depth k) 0); [by left|by right]. Qed.

Lemma filter_unnest (l : list (Node A)) : forallb tree_ok l = true ->
  List.filter (fun n => negb (is_nested n)) (unnest_claim_schemas l) = strip <$> l /\
  List.filter is_nested (unnest_claim_schemas l) = flat_map child_entries l.
Proof.
  induction l as [|[k d cs] l IH]; [done|]. cbn [forallb]. rewrite andb_true_iff. intros [Hn Hl].
  destruct (tree_key (mkNode k d cs)) as [Hk|]; [|congruence]. cbn [nkey] in Hk.
  assert (Hflat : is_nested (mkNode k d []) = false) by (unfold is_nested; cbn [nkey]; by rewrite Hk).
  rewrite unnest_cons. cbn [List.filter]. rewrite Hflat. cbn [negb].
  rewrite !List.filter_app. destruct (filter_nested_prepend k (unnest_claim_schemas cs)) as [-> ->].
  destruct (IH Hl) as [-> ->]. cbn [app flat_map]. done.
Qed.

(** The children of one entry, all attached to it. *)
Lemma attach_children (pre post : list (Node A)) (k : string) (d : A) (cs xs : list (Node A)) :
  depth k = O -> (forall n, n ∈ pre -> depth (nkey n) = O /\ nkey n <> k) ->
  try_fold (attach missing) (pre ++ mkNode k d cs :: post) (prepend (k ++ marker_str) <$> xs) =
  Ok (pre ++ mkNode k d (cs ++ xs) :: post).
Proof.
  intros Hk Hpre. revert cs. induction xs as [|x xs IH]; intros cs; [by rewrite app_nil_r|].
  rewrite fmap_cons. cbn [try_fold].
  assert (Hat : attach missing (pre ++ mkNode k d cs :: post) (prepend (k ++ marker_str) x) =
            Ok (pre ++ mkNode k d (cs ++ [x]) :: post)).
  { clear IH. induction pre as [|n pre IHp].
    - cbn [app attach nkey]. rewrite prepend_key.
      rewrite (proj2 (starts_with_segment k k (nkey x) Hk Hk) eq_refl), (remove_layer _ _ Hk).
      unfold add_child. cbn. by destruct x.
    - destruct (Hpre n ltac:(left)) as [Hn Hne]. cbn [app attach]. rewrite prepend_key.
      destruct (starts_with (nkey n ++ marker_str) (k ++ String marker (nkey x))) eqn:Hs.
      { apply starts_with_segment in Hs; [congruence|done..]. }
      rewrite IHp by (intros; apply Hpre; by right). done. }
  rewrite Hat. cbn [mbind res_bind]. rewrite IH. by rewrite <-app_assoc.
Qed.

Lemma attach_all (l pre : list (Node A)) :
  NoDup (nkey <$> (pre ++ l)) -> (forall n, n ∈ pre ++ l -> depth (nkey n) = O) ->
  try_fold (attach missing) ((filled <$> pre) ++ (strip <$> l)) (flat_map child_entries l) =
  Ok (filled <$> (pre ++ l)).
Proof.
  revert pre. induction l as [|[k d cs] l IH]; intros pre Hnd Hdep.
  { cbn. by rewrite !app_nil_r. }
  cbn [flat_map]. rewrite try_fold_app, fmap_cons.
  change (child_entries (mkNode k d cs)) with (prepend (k ++ marker_str) <$> unnest_claim_schemas cs).
  change (strip (mkNode k d cs)) with (mkNode k d []).
  rewrite attach_children.
  - cbn [mbind res_bind app].
    rewrite (cons_middle (mkNode k d cs)), app_assoc. rewrite <-(IH (pre ++ [mkNode k d cs])).
    + by rewrite (fmap_app filled pre), <-app_assoc.
    + by rewrite <-app_assoc.
    + by rewrite <-app_assoc.
  - apply (Hdep (mkNode k d cs)), elem_of_app. right. left.
  - intros n (m & -> & Hm)%list_elem_of_fmap. cbn [nkey filled]. split; [apply Hdep, elem_of_app; by left|].
    intros Heq. rewrite fmap_app in Hnd. apply NoDup_app in Hnd as (_ & Hdis & _).
    apply (Hdis k); [|left]. apply list_elem_of_fmap. by exists m.
Qed.

Lemma forest_ok_sub (n : Node A) (l : list (Node A)) : forallb tree_ok l = true -> n ∈ l ->
  depth (nkey n) = O /\ forest_ok (nclaims n) = true.
Proof.
  rewrite List.forallb_forall. intros Hall Hn%list_elem_of_In. specialize (Hall n Hn). destruct n as [k d cs].
  cbn in *. rewrite !andb_true_iff, Nat.eqb_eq in Hall. destruct Hall as [[Hk Hnd] Hcs].
  split; [done|]. unfold forest_ok. by rewrite Hnd, Hcs.
Qed.

Lemma height_sub (n : Node A) (l : list (Node A)) : n ∈ l -> (forest_height (nclaims n) < forest_height l)%nat.
Proof.
  induction l as [|x l IH]; [by intros ?%elem_of_nil|]. intros [->|Hn]%elem_of_cons; cbn [forest_height foldr].
  - destruct x as [k d cs]. cbn. unfold forest_height. lia.
  - specialize (IH Hn). unfold forest_height in *. lia.
Qed.

Lemma renest_unnest (fuel : nat) (l : list (Node A)) : forest_ok l = true -> (forest_height l < fuel)%nat ->
  renest_loop missing fuel (unnest_claim_schemas l) = Ok l.
Proof.
  revert l. induction fuel as [|fuel IH]; intros l Hok Hf; [lia|]. cbn [renest_loop].
  apply andb_true_iff in Hok as [Hnd%bool_decide_eq_true Hall].
  destruct (filter_unnest l Hall) as [-> ->].
  pose proof (attach_all l [] Hnd (fun n Hn => proj1 (forest_ok_sub n l Hall Hn))) as Hat. cbn [app fmap list_fmap] in Hat.
  rewrite Hat. cbn [mbind res_bind].
  assert (Hsub : forall n, n ∈ l -> renest_loop missing fuel (unnest_claim_schemas (nclaims n)) = Ok (nclaims n)).
  { intros n Hn. apply IH; [by apply (forest_ok_sub n l)|]. pose proof (height_sub n l Hn). lia. }
  clear -Hsub. induction l as [|[k d cs] l IHl]; [done|]. rewrite fmap_cons. cbn [try_map].
  pose proof (Hsub (mkNode k d cs) ltac:(left)) as Hk.
  change (nclaims (filled (mkNode k d cs))) with (unnest_claim_schemas (nclaims (mkNode k d cs))).
  rewrite Hk. cbn [mbind res_bind nclaims].
  rewrite IHl by (intros; apply Hsub; by right). done.
Qed.

Lemma key_depth_prepend (k : string) (xs : list (Node A)) : xs <> [] ->
  (S (key_depth xs) <= key_depth (prepend (k ++ marker_str) <$> xs))%nat.
Proof.
  assert (Hd : forall x : Node A, (S (depth (nkey x)) <= depth (nkey (prepend (k ++ marker_str) x)))%nat).
  { intros x. rewrite prepend_key. unfold depth. rewrite count_char_app. cbn. lia. }
  induction xs as [|x xs IH]; [done|]. intros _. rewrite fmap_cons. cbn [key_depth foldr].
  fold (key_depth xs). fold (key_depth (prepend (k ++ marker_str) <$> xs)). specialize (Hd x).
  destruct xs as [|y xs]; [cbn [key_depth foldr]; lia|]. specialize (IH ltac:(done)). lia.
Qed.

Lemma key_depth_app (xs ys : list (Node A)) : key_depth (xs ++ ys) = Nat.max (key_depth xs) (key_depth ys).
Proof.
  unfold key_depth. induction xs as [|x xs IH]; [done|]. cbn [app foldr]. rewrite IH. lia.
Qed.

Lemma unnest_nonempty (n : Node A) (l : list (Node A)) : unnest_claim_schemas (n :: l) <> [].
Proof. destruct n. by rewrite unnest_cons. Qed.

Lemma height_depth (n : Node A) : (height n <= S (key_depth (unnest_claim_schemas_inner "" n)))%nat.
Proof.
  induction n as [k d l IH] using node_induction. rewrite unnest_node. cbn [height].
  cbn [key_depth foldr]. fold (key_depth (prepend (k ++ marker_str) <$> unnest_claim_schemas l)).
  assert (Hl : l = [] \/ (forest_height l <= S (key_depth (unnest_claim_schemas l)))%nat).
  { clear -IH. induction IH as [|x l Hx _ IHl]; [by left|right]. unfold unnest_claim_schemas in *. cbn [flat_map].
    rewrite key_depth_app. cbn [forest_height foldr]. fold (forest_height l). destruct IHl as [->|IHl]; [cbn [forest_height foldr]; lia|lia]. }
  destruct l as [|x l]; [cbn; lia|]. destruct Hl as [|Hl]; [done|].
  pose proof (key_depth_prepend k (unnest_claim_schemas (x :: l)) (unnest_nonempty x l)).
  unfold forest_height in Hl. lia.
Qed.

Lemma forest_height_depth (l : list (Node A)) : (forest_height l <= S (key_depth (unnest_claim_schemas l)))%nat.
Proof.
  induction l as [|x l IH]; [cbn; lia|]. unfold unnest_claim_schemas in *. cbn [flat_map forest_height foldr].
  rewrite key_depth_app. fold (forest_height l). pose proof (height_depth x). lia.
Qed.

(** *** Nesting ends *)

(** Entries without claims of their own. *)
Definition flat (l : list (Node A)) : Prop := forall n, n ∈ l -> nclaims n = [].

Lemma remove_layer_depth (s : string) : depth s <> O -> S (depth (remove_first_nesting_layer s)) = depth s.
Proof.
  unfold remove_first_nesting_layer, depth. induction s as [|a s IH]; [done|]. cbn [count_char split_once].
  destruct (Ascii.eqb a marker) eqn:Ha; [done|]. cbn [Nat.add]. intros Hs. specialize (IH Hs).
  destruct (split_once marker s) as [[p q]|]; [done|]. cbn [count_char]. rewrite Ha. lia.
Qed.

(** The claims that were attached so far are flat and less deep. *)
Definition shallow (D : nat) (l : list (Node A)) : Prop :=
  forall n c, n ∈ l -> c ∈ nclaims n -> nclaims c = [] /\ (S (depth (nkey c)) <= D)%nat.

Lemma attach_shallow (D : nat) (l l' : list (Node A)) (c : Node A) :
  shallow D l -> nclaims c = [] -> depth (nkey c) <> O -> (depth (nkey c) <= D)%nat ->
  attach missing l c = Ok l' -> shallow D l'.
Proof.
  intros Hl Hc Hn HD. revert l' Hl. induction l as [|n l IH]; intros l' Hl; [done|]. cbn [attach].
  destruct (starts_with _ _).
  - intros [= <-] m x [->|Hm]%elem_of_cons; [|apply Hl; by right].
    cbn [add_child nclaims]. intros [Hx|Hx%list_elem_of_singleton]%elem_of_app; [apply (Hl n); [left|done]|].
    subst x. cbn [nclaims nkey]. split; [done|]. by rewrite remove_layer_depth.
  - destruct (attach missing l c) as [r| |] eqn:Hr; cbn [mbind res_bind]; [|done..]. intros [= <-] m x [->|Hm]%elem_of_cons.
    + apply Hl. left.
    + apply (IH r); [|done..]. intros y z Hy. apply Hl. by right.
Qed.

Lemma attach_no_panic (l : list (Node A)) (c : Node A) : attach missing l c <> Panic.
Proof.
  induction l as [|n l IH]; [done|]. cbn [attach]. destruct (starts_with _ _); [done|].
  by destruct (attach missing l c).
Qed.

Lemma attach_fold (D : nat) (cs l : list (Node A)) : shallow D l -> flat cs ->
  (forall c, c ∈ cs -> depth (nkey c) <> O /\ (depth (nkey c) <= D)%nat) ->
  match try_fold (attach missing) l cs with Ok l' => shallow D l' | Err _ => True | Panic => False end.
Proof.
  revert l. induction cs as [|c cs IH]; intros l Hl Hflat Hcs; [done|]. cbn [try_fold].
  pose proof (attach_no_panic l c) as Hnp. destruct (attach missing l c) as [r| |] eqn:Hr; cbn [mbind res_bind]; [|done..].
  apply IH.
  - destruct (Hcs c ltac:(left)). eapply attach_shallow; [done|apply Hflat; left|done..].
  - intros n Hn. apply Hflat. by right.
  - intros n Hn. apply Hcs. by right.
Qed.

Lemma key_depth_elem (n : Node A) (l : list (Node A)) : n ∈ l -> (depth (nkey n) <= key_depth l)%nat.
Proof.
  unfold key_depth. induction l as [|x l IH]; [by intros ?%elem_of_nil|]. cbn [foldr].
  intros [->|Hn]%elem_of_cons; [lia|]. specialize (IH Hn). lia.
Qed.

Lemma key_depth_le (D : nat) (l : list (Node A)) : (forall n, n ∈ l -> depth (nkey n) <= D)%nat -> (key_depth l <= D)%nat.
Proof.
  unfold key_depth. induction l as [|x l IH]; intros Hl; [cbn; lia|]. cbn [foldr].
  pose proof (Hl x ltac:(left)). assert (Hr : forall n, n ∈ l -> (depth (nkey n) <= D)%nat) by (intros; apply Hl; by right).
  specialize (IH Hr). lia.
Qed.

Lemma renest_ends (fuel : nat) (l : list (Node A)) : flat l -> (l = [] /\ 1 <= fuel \/ key_depth l + 2 <= fuel)%nat ->
  renest_loop missing fuel l <> Panic.
Proof.
  revert l. induction fuel as [|fuel IH]; intros l Hflat Hf; [lia|]. cbn [renest_loop].
  pose proof (attach_fold (key_depth l) (List.filter is_nested l) (List.filter (fun n => negb (is_nested n)) l)) as Hat.
  destruct Hf as [[-> _]|Hf]; [done|].
  assert (Hpre : match try_fold (attach missing) (List.filter (fun n => negb (is_nested n)) l) (List.filter is_nested l)
                 with Ok l' => shallow (key_depth l) l' | Err _ => True | Panic => False end).
  { apply Hat.
    - intros n c [Hn _]%list_elem_of_In%List.filter_In. rewrite Hflat by (by apply list_elem_of_In). by intros ?%elem_of_nil.
    - intros n [Hn _]%list_elem_of_In%List.filter_In. apply Hflat. by apply list_elem_of_In.
    - intros n [Hn%list_elem_of_In Hne]%list_elem_of_In%List.filter_In. unfold is_nested in Hne.
      split; [|by apply key_depth_elem]. apply negb_true_iff, Nat.eqb_neq in Hne. done. }
  destruct (try_fold _ _ _) as [r| |]; cbn [mbind res_bind]; [|done..].
  apply try_map_no_panic. intros n Hn Hp. apply (IH (nclaims n)).
  - intros c Hc. by apply (Hpre n c).
  - destruct (nclaims n) as [|c cs] eqn:Hcs; [left; split; [done|lia]|right].
    assert (Hle : forall x, x ∈ c :: cs -> (S (depth (nkey x)) <= key_depth l)%nat).
    { intros x Hx. apply (Hpre n x Hn). by rewrite Hcs. }
    pose proof (key_depth_le (key_depth l - 1) (c :: cs)) as Hk. pose proof (Hle c ltac:(left)).
    assert (key_depth (c :: cs) <= key_depth l - 1)%nat; [|lia]. apply Hk. intros x Hx. specialize (Hle x Hx). lia.
  - by destruct (renest_loop missing fuel (nclaims n)).
Qed.
End roundtrip.

(** ** Unnested keys *)

Section keys.
Context {A : Type}.

Lemma unnest_head (k : string) (d : A) (l : list (Node A)) (x : Node A) : depth k = O ->
  x ∈ unnest_claim_schemas_inner "" (mkNode k d l) -> head (split_on marker (nkey x)) = Some k.
Proof.
  intros Hk. rewrite unnest_node. intros [->|Hx]%elem_of_cons.
  - cbn [nkey]. by rewrite split_plain.
  - apply list_elem_of_fmap in Hx as (y & -> & _). rewrite prepend_key, split_app, (split_plain k Hk). done.
Qed.

Lemma prepend_inj (k : string) (x y : Node A) :
  nkey (prepend (k ++ marker_str) x) = nkey (prepend (k ++ marker_str) y) -> nkey x = nkey y.
Proof.
  rewrite !prepend_key. induction k as [|a k IH]; [by intros [= ?]|]. intros Heq.
  change (String a k ++ String marker (nkey x))%string with (String a (k ++ String marker (nkey x))) in Heq.
  change (String a k ++ String marker (nkey y))%string with (String a (k ++ String marker (nkey y))) in Heq.
  injection Heq as Heq. by apply IH.
Qed.

Lemma unnest_nodup_forest (l : list (Node A)) : NoDup (nkey <$> l) -> (forall n, n ∈ l -> depth (nkey n) = O) ->
  (forall n, n ∈ l -> NoDup (nkey <$> unnest_claim_schemas_inner "" n)) ->
  NoDup (nkey <$> unnest_claim_schemas l).
Proof.
  unfold unnest_claim_schemas. induction l as [|[k d cs] l IH]; intros Hnd Hk Hn; [constructor|].
  rewrite fmap_cons in Hnd. apply NoDup_cons in Hnd as [Hnin Hnd]. cbn [flat_map]. rewrite fmap_app. apply NoDup_app.
  split_and!; [apply Hn; left| |apply IH; [done|intros; apply Hk; by right|intros; apply Hn; by right]].
  intros x (a & -> & Ha)%list_elem_of_fmap (b & Hab & Hb)%list_elem_of_fmap.
  apply (unnest_head k) in Ha; [|apply (Hk (mkNode k d cs)); left].
  apply list_elem_of_In, List.in_flat_map in Hb as ([k' d' cs'] & Hin%list_elem_of_In & Hb%list_elem_of_In).
  apply (unnest_head k') in Hb; [|apply (Hk (mkNode k' d' cs')); by right]. rewrite Hab, Hb in Ha.
  injection Ha as ->. apply Hnin. apply list_elem_of_fmap. by exists (mkNode k d' cs').
Qed.

Lemma unnest_nodup_node (n : Node A) : tree_ok n = true -> NoDup (nkey <$> unnest_claim_schemas_inner "" n).
Proof.
  induction n as [k d l IH] using node_induction. intros Hok. cbn [tree_ok] in Hok.
  rewrite !andb_true_iff, Nat.eqb_eq, bool_decide_eq_true in Hok. destruct Hok as [[Hk Hnd] Hall].
  assert (Hl : NoDup (nkey <$> unnest_claim_schemas l)).
  { apply unnest_nodup_forest; [done| |].
    - intros n Hn. by apply (forest_ok_sub n l).
    - intros n Hn. rewrite Forall_forall in IH. apply IH; [done|].
      rewrite List.forallb_forall in Hall. apply Hall. by apply list_elem_of_In. }
  rewrite unnest_node, fmap_cons. apply NoDup_cons. split.
  - intros (x & Hx & (y & -> & _)%list_elem_of_fmap)%list_elem_of_fmap. cbn [nkey] in Hx.
    rewrite Hx, prepend_key in Hk. unfold depth in Hk. rewrite count_char_app in Hk. cbn in Hk. lia.
  - rewrite <-list_fmap_compose. clear -Hl. induction (unnest_claim_schemas l) as [|x xs IHx]; [constructor|].
    rewrite fmap_cons in *. apply NoDup_cons in Hl as [Hnin Hl]. apply NoDup_cons. split; [|by apply IHx].
    intros (y & Hy%prepend_inj & Hin)%list_elem_of_fmap. apply Hnin. apply list_elem_of_fmap. by exists y.
Qed.

Lemma unnest_nodup (l : list (Node A)) : forest_ok l = true -> NoDup (nkey <$> unnest_claim_schemas l).
Proof.
  intros [Hnd%bool_decide_eq_true Hall]%andb_true_iff. apply unnest_nodup_forest; [done| |].
  - intros n Hn. by apply (forest_ok_sub n l).
  - intros n Hn. apply unnest_nodup_node. rewrite List.forallb_forall in Hall. apply Hall. by apply list_elem_of_In.
Qed.

Lemma unnest_head_top (l : list (Node A)) (x : Node A) : forallb tree_ok l = true -> x ∈ unnest_claim_schemas l ->
  exists n, n ∈ l /\ head (split_on marker (nkey x)) = Some (nkey n).
Proof.
  intros Hall Hx. apply list_elem_of_In, List.in_flat_map in Hx as ([k d cs] & Hin%list_elem_of_In & Hx%list_elem_of_In).
  exists (mkNode k d cs). split; [done|]. eapply unnest_head; [|done]. by apply (forest_ok_sub (mkNode k d cs) l).
Qed.

(** Every nested key has its parent, the entry of a node with claims. *)
Lemma unnest_parents_node (n : Node A) : forall x p q, tree_ok n = true ->
  x ∈ unnest_claim_schemas_inner "" n -> rsplit_once marker (nkey x) = Some (p, q) ->
  exists y m, y ∈ unnest_claim_schemas_inner "" n /\ nkey y = p /\
    subnode m n /\ ndata m = ndata y /\ nclaims m <> [].
Proof.
  induction n as [k d l IH] using node_induction. intros x p q Hok Hx Hp.
  pose proof Hok as Hok'. cbn [tree_ok] in Hok'. rewrite !andb_true_iff, Nat.eqb_eq in Hok'. destruct Hok' as [[Hk _] Hall].
  rewrite unnest_node in *. apply elem_of_cons in Hx as [->|Hx].
  { cbn [nkey] in Hp. apply (rsplit_once_None marker) in Hk. congruence. }
  apply list_elem_of_fmap in Hx as (y & -> & Hy). rewrite prepend_key in Hp.
  destruct (rsplit_once marker (nkey y)) as [[p' q']|] eqn:Hpy.
  - apply list_elem_of_In, List.in_flat_map in Hy as (m & Hm & Hy).
    rewrite Forall_forall in IH. rewrite List.forallb_forall in Hall.
    destruct (IH m (proj2 (list_elem_of_In _ _) Hm) y p' q') as (z & m' & Hz & Hkz & Hsub & Hdat & Hcl);
      [by apply Hall|by apply list_elem_of_In|done|].
    exists (prepend (k ++ marker_str) z), m'. split_and!; [| |by eapply SubChild; [apply list_elem_of_In|]|done..].
    + right. apply list_elem_of_fmap. exists z. split; [done|]. apply list_elem_of_In, List.in_flat_map.
      exists m. split; [done|by apply list_elem_of_In].
    + rewrite prepend_key, Hkz. apply rsplit_once_Some in Hpy as [Hny Hd]. rewrite Hny in Hp.
      change (String marker (p' ++ String marker q'))%string with (marker_str ++ p' ++ String marker q')%string in Hp.
      rewrite <-!str_app_assoc in Hp. rewrite rsplit_join in Hp by done. injection Hp as <- _.
      by rewrite str_app_assoc.
  - apply rsplit_once_None in Hpy. rewrite rsplit_join in Hp by done. injection Hp as <- _.
    exists (mkNode k d []), (mkNode k d l). split_and!; [left|done|constructor|done|]. cbn [nclaims].
    intros ->. by apply elem_of_nil in Hy.
Qed.

Lemma unnest_parents (l : list (Node A)) (x : Node A) (p q : string) : forallb tree_ok l = true ->
  x ∈ unnest_claim_schemas l -> rsplit_once marker (nkey x) = Some (p, q) ->
  exists y m n, y ∈ unnest_claim_schemas l /\ nkey y = p /\
    n ∈ l /\ subnode m n /\ ndata m = ndata y /\ nclaims m <> [].
Proof.
  intros Hall Hx Hp. apply list_elem_of_In, List.in_flat_map in Hx as (n & Hn & Hx%list_elem_of_In).
  rewrite List.forallb_forall in Hall.
  destruct (unnest_parents_node n x p q (Hall n Hn) Hx Hp) as (y & m & Hy & Hk & Hm).
  exists y, m, n. split_and!; [|done|by apply list_elem_of_In|apply Hm..].
  apply list_elem_of_In, List.in_flat_map. exists n. split; [done|by apply list_elem_of_In].
Qed.
End keys.

(** ** From the request to the stored schemas and back *)

Fixpoint map_node {A B : Type} (f : A -> B) (n : Node A) : Node B :=
  let 'mkNode k d l := n in mkNode k (f d) (map (map_node f) l).

(** What a claim looks like without its id. *)
Definition request_view (d : ReqData) : string * bool * bool :=
  (rd_datatype d, rd_required d, default false (rd_array d)).
Definition dto_view (d : DtoData) : string * bool * bool := (dd_datatype d, dd_required d, dd_array d).

Section relabel.
Context {A B V : Type} (f : A -> V) (g : B -> V).

(** Entries of the flat list with the same key and view. *)
Definition same_entry (x : Node A) (y : Node B) : Prop :=
  nkey x = nkey y /\ nclaims x = [] /\ f (ndata x) = g (ndata y).

(** A flat list that looks like an unnested tree is one. *)
Lemma relabel_node (n : Node B) : forall p xs, Forall2 same_entry xs (unnest_claim_schemas_inner p n) ->
  exists n', unnest_claim_schemas_inner p n' = xs /\ map_node f n' = map_node g n.
Proof.
  induction n as [k d l IH] using node_induction. intros p xs. cbn [unnest_claim_schemas_inner].
  intros Hxs. apply Forall2_cons_inv_r in Hxs as ([k' d' cs'] & xs' & (Hk & Hc & Hd) & Hxs & ->).
  cbn in Hk, Hc, Hd. subst k' cs'.
  assert (Hl : exists l', flat_map (unnest_claim_schemas_inner ((p ++ k) ++ marker_str)) l' = xs' /\
                 map (map_node f) l' = map (map_node g) l).
  { clear Hd d d'. revert xs' Hxs. induction IH as [|x l Hx _ IHl]; intros xs' Hxs.
    - exists []. apply Forall2_nil_inv_r in Hxs as ->. done.
    - cbn [flat_map] in Hxs. apply Forall2_app_inv_r in Hxs as (x1 & x2 & H1 & H2 & ->).
      destruct (Hx _ _ H1) as (x' & <- & Hx'). destruct (IHl _ H2) as (l' & <- & Hl').
      exists (x' :: l'). split; [done|]. cbn [map]. by rewrite Hx', Hl'. }
  destruct Hl as (l' & <- & Hl'). exists (mkNode k d' l'). split; [done|]. cbn [map_node]. by rewrite Hd, Hl'.
Qed.

Lemma relabel (l : list (Node B)) (xs : list (Node A)) : Forall2 same_entry xs (unnest_claim_schemas l) ->
  exists l', unnest_claim_schemas l' = xs /\ map_node f <$> l' = map_node g <$> l.
Proof.
  unfold unnest_claim_schemas. revert xs. induction l as [|n l IH]; intros xs Hxs.
  - exists []. apply Forall2_nil_inv_r in Hxs as ->. done.
  - cbn [flat_map] in Hxs. apply Forall2_app_inv_r in Hxs as (x1 & x2 & H1 & H2 & ->).
    destruct (relabel_node n _ _ H1) as (n' & <- & Hn'). destruct (IH _ H2) as (l' & <- & Hl').
    exists (n' :: l'). split; [done|]. rewrite !fmap_cons. by rewrite Hn', Hl'.
Qed.
End relabel.

(** The shape decides whether a forest is well-formed. *)
Lemma map_node_key {A B : Type} (f : A -> B) (n : Node A) : nkey (map_node f n) = nkey n.
Proof. by destruct n. Qed.

Lemma map_node_keys {A B : Type} (f : A -> B) (l : list (Node A)) : nkey <$> (map_node f <$> l) = nkey <$> l.
Proof. rewrite <-list_fmap_compose. apply list_fmap_ext. intros i n _. apply map_node_key. Qed.

Lemma tree_ok_map {A B : Type} (f : A -> B) (n : Node A) : tree_ok (map_node f n) = tree_ok n.
Proof.
  induction n as [k d l IH] using node_induction. cbn [map_node tree_ok].
  change (map (map_node f) l) with (map_node f <$> l). rewrite map_node_keys. f_equal.
  induction IH as [|x l Hx _ IHl]; [done|]. rewrite fmap_cons. cbn [forallb]. by rewrite Hx, IHl.
Qed.

Lemma forest_ok_map {A B : Type} (f : A -> B) (l : list (Node A)) : forest_ok (map_node f <$> l) = forest_ok l.
Proof.
  unfold forest_ok. rewrite map_node_keys. f_equal. induction l as [|n l IH]; [done|].
  rewrite fmap_cons. cbn [forallb]. by rewrite tree_ok_map, IH.
Qed.

Lemma stored_entries `{UuidSupply} (next : nat) (claims : list CredentialClaimSchemaRequest) :
  Forall2 (same_entry dto_view request_view) (dto_of_schema <$> claim_schemas_of_request next claims)
    (unnest_claim_schemas claims).
Proof.
  unfold claim_schemas_of_request.
  generalize (unnest_claim_schemas claims) as xs. intros xs. revert next.
  induction xs as [|x xs IH]; intros next; [constructor|]. rewrite imap_cons, fmap_cons. constructor.
  - done.
  - specialize (IH (S next)). erewrite imap_ext; [exact IH|]. intros i y _. cbn. do 2 f_equal. lia.
Qed.
