(* ===== verification/SchemaRequest.v ===== *)
(** * Requests for a credential schema

    Models the checks of
    [lib/one-core/src/service/credential_schema/validator.rs] on a request for
    a new schema, and shows what they guarantee for the claims that are stored
    and for the requests of credentials that use them. *)

From S2P Require Import Prelude StatusBits KeySelection RevocationRepo RevocationMethod.
From S2P Require Import Validity Paths Dcql DcqlSpec Datatypes CreateClaims SchemaClaims.
From Stdlib Require Import Ascii.
#[local] Open Scope Z_scope.

(** ** Data *)

Inductive Operation := OpRevoke | OpSuspend.
#[export] Instance Operation_eq_dec : EqDecision Operation.
Proof. solve_decision. Defined.

Inductive Feature := SupportsCredentialDesign | SupportsSchemaId | SupportsTxCode | OtherFeature (name : string).
#[export] Instance Feature_eq_dec : EqDecision Feature.
Proof. solve_decision. Defined.

(** [FormatterCapabilities], with the fields that are read here. *)
Record SchemaCapabilities := mkSchemaCapabilities {
  cap_datatypes : list string;
  cap_forbidden_claim_names : list string;
  cap_revocation_methods : list string;
  cap_features : list Feature
}.

Record BackgroundProperties := mkBackground { bg_color : option string; bg_image : option string }.
Record LogoProperties := mkLogo {
  logo_font_color : option string;
  logo_background_color : option string;
  logo_image : option string
}.
Record LayoutProperties := mkLayoutProperties {
  lp_background : option BackgroundProperties;
  lp_logo : option LogoProperties;
  lp_primary_attribute : option string;
  lp_secondary_attribute : option string;
  lp_picture_attribute : option string;
  lp_code_attribute : option string
}.

Inductive KeyStorageSecurity := KssHigh | KssModerate | KssEnhancedBasic | KssBasic.
#[export] Instance KeyStorageSecurity_eq_dec : EqDecision KeyStorageSecurity.
Proof. solve_decision. Defined.

Inductive LayoutType := LayoutCard | LayoutDocument | LayoutSingleAttribute.

Inductive TransactionCodeType := TcNumeric | TcAlphanumeric.
Record TransactionCode := mkTransactionCode {
  tc_type : TransactionCodeType;
  tc_length : Z;
  tc_description : option string
}.

Record CreateSchemaRequest := mkCreateSchemaRequest {
  csr_name : string;
  csr_format : string;
  csr_revocation_method : option string;
  csr_organisation_id : Z;
  csr_claims : list CredentialClaimSchemaRequest;
  csr_key_storage_security : option KeyStorageSecurity;
  csr_layout_type : LayoutType;
  csr_layout_properties : option LayoutProperties;
  csr_schema_id : option string;
  csr_allow_suspension : option bool;
  csr_requires_wallet_instance_attestation : bool;
  csr_transaction_code : option TransactionCode
}.

Inductive SchemaError :=
| SeNotFound (id : Z)
| SeAlreadyExists
| SeMissingClaimSchemas
| SeMissingParentClaimSchema (claim_schema_id : Z)
| SeForbiddenClaimName
| SeClaimSchemaKeyTooLong
| SeDuplicitClaim
| SeMissingNestedClaims (key : string)
| SeNestedClaimsShouldBeEmpty (key : string)
| SeClaimSchemaSlashInKeyName (key : string)
| SeClaimSchemaUnsupportedDatatype (key datatype : string)
| SeMdocTopLevelOnlyObjects
| SeSchemaIdNotAllowed
| SeAttributeCombinationNotAllowed
| SeMissingLayoutAttribute (name : string)
| SeLayoutPropertiesNotSupported
| SeRevocationMethodNotCompatible
| SeSuspensionNotAvailable
| SeSuspensionNotEnabled
| SeTransactionCodeNotSupported
| SeInvalidTransactionCodeDescriptionLength
| SeKeyStorageSecurityDisabled (level : KeyStorageSecurity)
| SeMissingRevocationMethod (id : string)
| SeMissingFormat (format : string)
| SeMissingOrganisation (id : Z)
| SeOrganisationIsDeactivated (id : Z)
| SeMappingError (what : string)
| SeConfig (e : ConfigValidationError)
| SeData (e : DataLayerError)
| SeSession (e : ValidityError)
| SeNested (code : string).

Section schema_request.
Context `{ValueOps}.

(** A configured provider: its type and whether it is enabled. *)
Record ProviderFields := mkProviderFields { prf_type : string; prf_enabled : bool }.
Record SchemaConfig := mkSchemaConfig {
  scf_datatype : gmap string DatatypeFields;
  scf_format : gmap string ProviderFields;
  scf_revocation : gmap string ProviderFields;
  scf_key_security_level : list (KeyStorageSecurity * bool)  (** the levels with their [enabled] *)
}.

(** ** Claims *)

(** [gather_claim_schemas]: the claims, then those nested in them. *)
Fixpoint gather_below (n : CredentialClaimSchemaRequest) : list CredentialClaimSchemaRequest :=
  let 'mkNode _ _ claims := n in claims ++ flat_map gather_below claims.
Definition gather_claim_schemas (claim_schemas : list CredentialClaimSchemaRequest) :
  list CredentialClaimSchemaRequest :=
  claim_schemas ++ flat_map gather_below claim_schemas.

Definition nested_claim_marker_length : nat := 1.
Definition max_key_length : nat := 255.

Fixpoint validate_key_length (prefix_length : nat) (claim : CredentialClaimSchemaRequest) :
  res SchemaError unit :=
  let 'mkNode key _ claims := claim in
  if (max_key_length <? String.length key + prefix_length)%nat then Err SeClaimSchemaKeyTooLong
  else (fix each (l : list CredentialClaimSchemaRequest) : res SchemaError unit :=
          match l with
          | [] => Ok tt
          | c :: l => _ ← validate_key_length (String.length key + nested_claim_marker_length) c; each l
          end) claims.

Fixpoint validate_key_lengths (claims : list CredentialClaimSchemaRequest) (prefix_length : nat) :
  res SchemaError unit :=
  match claims with
  | [] => Ok tt
  | c :: claims => _ ← validate_key_length prefix_length c; validate_key_lengths claims prefix_length
  end.

Fixpoint validate_children_keys_unique (claim : CredentialClaimSchemaRequest) : res SchemaError unit :=
  let 'mkNode _ _ claims := claim in
  if bool_decide (NoDup (nkey <$> claims)) then
    (fix each (l : list CredentialClaimSchemaRequest) : res SchemaError unit :=
       match l with
       | [] => Ok tt
       | c :: l => _ ← validate_children_keys_unique c; each l
       end) claims
  else Err SeDuplicitClaim.

Fixpoint each_children_unique (l : list CredentialClaimSchemaRequest) : res SchemaError unit :=
  match l with
  | [] => Ok tt
  | c :: l => _ ← validate_children_keys_unique c; each_children_unique l
  end.

Definition validate_claim_schema_keys_unique (claims : list CredentialClaimSchemaRequest) :
  res SchemaError unit :=
  if bool_decide (NoDup (nkey <$> claims)) then each_children_unique claims else Err SeDuplicitClaim.

Definition validate_claim_schema_name (claim_schema : CredentialClaimSchemaRequest) :
  res SchemaError unit :=
  fail_if (negb (depth (nkey claim_schema) =? 0)%nat) (SeClaimSchemaSlashInKeyName (nkey claim_schema)).

Definition validate_claim_schema_type (claim_schema : CredentialClaimSchemaRequest)
  (claim_type : DatatypeType) : res SchemaError unit :=
  match claim_type with
  | DtObject => fail_if (bool_decide (nclaims claim_schema = [])) (SeMissingNestedClaims (nkey claim_schema))
  | _ => fail_if (negb (bool_decide (nclaims claim_schema = []))) (SeNestedClaimsShouldBeEmpty (nkey claim_schema))
  end.

Definition validate_datatype_formatter_capabilities (claim_name datatype : string)
  (caps : SchemaCapabilities) : res SchemaError unit :=
  fail_if (negb (bool_decide (datatype ∈ cap_datatypes caps))) (SeClaimSchemaUnsupportedDatatype claim_name datatype).

Definition validate_claims_schema_type_supported_by_formatter
  (claim_schema : CredentialClaimSchemaRequest) (caps : SchemaCapabilities) : res SchemaError unit :=
  _ ← (if bool_decide (rd_array (ndata claim_schema) = Some true)
       then validate_datatype_formatter_capabilities (nkey claim_schema) "ARRAY" caps else Ok tt);
  validate_datatype_formatter_capabilities (nkey claim_schema) (rd_datatype (ndata claim_schema)) caps.

Definition validate_claim_schema (config : SchemaConfig) (caps : SchemaCapabilities)
  (claim_schema : CredentialClaimSchemaRequest) : res SchemaError unit :=
  fields ← map_err SeConfig (get_fields (scf_datatype config) (rd_datatype (ndata claim_schema)));
  _ ← validate_claim_schema_name claim_schema;
  _ ← validate_claim_schema_type claim_schema (df_type fields);
  _ ← (if bool_decide (rd_array (ndata claim_schema) = Some true)
       then _ ← map_err SeConfig (get_if_enabled df_enabled (scf_datatype config) "ARRAY"); Ok tt
       else Ok tt);
  validate_claims_schema_type_supported_by_formatter claim_schema caps.

Definition validate_nested_claim_schemas (claims : list CredentialClaimSchemaRequest)
  (config : SchemaConfig) (caps : SchemaCapabilities) : res SchemaError unit :=
  _ ← validate_claim_schema_keys_unique claims;
  _ ← try_map (validate_claim_schema config caps) (gather_claim_schemas claims);
  map_err SeConfig (validate_datatypes ((fun c => rd_datatype (ndata c)) <$> gather_claim_schemas claims)
                      (scf_datatype config)).

(** [validate_claims_names_are_not_forbidden]: some claim has the name. *)
Fixpoint name_occurs (forbidden_name : string) (claim : CredentialClaimSchemaRequest) : bool :=
  let 'mkNode key _ claims := claim in
  String.eqb key forbidden_name || existsb (name_occurs forbidden_name) claims.

Definition validate_claim_names (request : CreateSchemaRequest) (caps : SchemaCapabilities) :
  res SchemaError unit :=
  fail_if (existsb (fun forbidden_name => existsb (name_occurs forbidden_name) (csr_claims request))
             (cap_forbidden_claim_names caps)) SeForbiddenClaimName.

(** ** The rest of the request *)

Definition validate_revocation_method_is_compatible_with_suspension (request : CreateSchemaRequest)
  (operations : list Operation) : res SchemaError unit :=
  match csr_allow_suspension request with
  | Some true => fail_if (negb (bool_decide (OpSuspend ∈ operations))) SeSuspensionNotAvailable
  | _ => fail_if (bool_decide (operations = [OpSuspend])) SeSuspensionNotEnabled
  end.

Definition validate_revocation_method_is_compatible_with_format (request : CreateSchemaRequest)
  (config : SchemaConfig) (caps : SchemaCapabilities) : res SchemaError unit :=
  match csr_revocation_method request with
  | None => Ok tt
  | Some method_id =>
      revocation_method ← map_err SeConfig (get_fields (scf_revocation config) method_id);
      if bool_decide (prf_type revocation_method ∈ cap_revocation_methods caps) then Ok tt
      else Err SeRevocationMethodNotCompatible
  end.

Definition validate_credential_design (request : CreateSchemaRequest) (caps : SchemaCapabilities) :
  res SchemaError unit :=
  fail_if (bool_decide (is_Some (csr_layout_properties request)) &&
           negb (bool_decide (SupportsCredentialDesign ∈ cap_features caps))) SeLayoutPropertiesNotSupported.

Definition mdoc_type : string := "MDOC".

Definition validate_mdoc_claim_types (request : CreateSchemaRequest) (config : SchemaConfig) :
  res SchemaError unit :=
  format ← map_err SeConfig (get_fields (scf_format config) (csr_format request));
  if negb (String.eqb (prf_type format) mdoc_type) then Ok tt
  else
    _ ← try_map (fun claim =>
          fields ← map_err SeConfig (get_fields (scf_datatype config) (rd_datatype (ndata claim)));
          fail_if (negb (bool_decide (df_type fields = DtObject))) SeMdocTopLevelOnlyObjects) (csr_claims request);
    Ok tt.

Definition validate_schema_id (request : CreateSchemaRequest) (caps : SchemaCapabilities) :
  res SchemaError unit :=
  if bool_decide (SupportsSchemaId ∈ cap_features caps)
  then match csr_schema_id request with
       | Some schema_id => fail_if (str_empty schema_id) SeSchemaIdNotAllowed
       | None => Ok tt
       end
  else fail_if (bool_decide (is_Some (csr_schema_id request))) SeSchemaIdNotAllowed.

Definition validate_transaction_code (request : CreateSchemaRequest) (caps : SchemaCapabilities) :
  res SchemaError unit :=
  match csr_transaction_code request with
  | None => Ok tt
  | Some transaction_code =>
      if negb (bool_decide (SupportsTxCode ∈ cap_features caps)) then Err SeTransactionCodeNotSupported
      else match tc_description transaction_code with
           | Some description =>
               fail_if (str_empty description || (300 <? String.length description)%nat)
                 SeInvalidTransactionCodeDescriptionLength
           | None => Ok tt
           end
  end.

(** [operations_of]: the revocation method provider, with the operations of a
    method. *)
Definition validate_schema_request (request : CreateSchemaRequest) (config : SchemaConfig)
  (caps : SchemaCapabilities) (operations_of : string -> option (list Operation)) : res SchemaError unit :=
  _ ← fail_if (bool_decide (csr_claims request = [])) SeMissingClaimSchemas;
  _ ← validate_key_lengths (csr_claims request) 0;
  _ ← map_err SeConfig (get_if_enabled prf_enabled (scf_format config) (csr_format request));
  operations ← match csr_revocation_method request with
               | Some method_id =>
                   _ ← map_err SeConfig (get_if_enabled prf_enabled (scf_revocation config) method_id);
                   ok_or (operations_of method_id) (SeMissingRevocationMethod method_id)
               | None => Ok []
               end;
  _ ← validate_nested_claim_schemas (csr_claims request) config caps;
  _ ← validate_claim_names request caps;
  _ ← validate_revocation_method_is_compatible_with_format request config caps;
  _ ← validate_revocation_method_is_compatible_with_suspension request operations;
  _ ← validate_credential_design request caps;
  _ ← validate_mdoc_claim_types request config;
  _ ← validate_schema_id request caps;
  validate_transaction_code request caps.

Definition validate_key_storage_security_supported (key_storage_security : option KeyStorageSecurity)
  (config : SchemaConfig) : res SchemaError unit :=
  match key_storage_security with
  | None => Ok tt
  | Some level =>
      match find_first (fun e => bool_decide (e.1 = level)) (scf_key_security_level config) with
      | Some (_, true) => Ok tt
      | _ => Err (SeKeyStorageSecurityDisabled level)
      end
  end.

(** ** Layout *)

Definition check_background_properties (request : CreateSchemaRequest) : res SchemaError unit :=
  match csr_layout_properties request ≫= lp_background with
  | Some background =>
      match bg_color background, bg_image background with
      | Some _, None | None, Some _ => Ok tt
      | _, _ => Err SeAttributeCombinationNotAllowed
      end
  | None => Ok tt
  end.

Definition check_logo_properties (request : CreateSchemaRequest) : res SchemaError unit :=
  match csr_layout_properties request ≫= lp_logo with
  | Some logo =>
      match logo_background_color logo, logo_font_color logo, logo_image logo with
      | Some _, Some _, None | None, None, Some _ => Ok tt
      | _, _, _ => Err SeAttributeCombinationNotAllowed
      end
  | None => Ok tt
  end.

(** [compute_paths]: the paths of the leaves. *)
Fixpoint compute_paths (current_path : list string) (claim : CredentialClaimSchemaRequest) : list string :=
  let 'mkNode key _ claims := claim in
  let current_path := current_path ++ [key] in
  match claims with
  | [] => [join_path current_path]
  | _ => flat_map (compute_paths current_path) claims
  end.
Definition get_all_claim_paths (claims : list CredentialClaimSchemaRequest) : list string :=
  match claims with [] => [join_path []] | _ => flat_map (compute_paths []) claims end.

Definition handle_attribute_claim_validation (attribute : option string) (claims : list string)
  (attribute_name : string) : res SchemaError unit :=
  match attribute with
  | Some attribute => fail_if (negb (bool_decide (attribute ∈ claims))) (SeMissingLayoutAttribute attribute_name)
  | None => Ok tt
  end.

Definition check_claims_presence_in_layout_properties (request : CreateSchemaRequest) :
  res SchemaError unit :=
  let primary := csr_layout_properties request ≫= lp_primary_attribute in
  let secondary := csr_layout_properties request ≫= lp_secondary_attribute in
  let picture := csr_layout_properties request ≫= lp_picture_attribute in
  let code := csr_layout_properties request ≫= lp_code_attribute in
  match primary, secondary, picture, code with
  | None, None, None, None => Ok tt
  | _, _, _, _ =>
      let claims := get_all_claim_paths (csr_claims request) in
      _ ← handle_attribute_claim_validation primary claims "Primary";
      _ ← handle_attribute_claim_validation secondary claims "Secondary";
      _ ← handle_attribute_claim_validation picture claims "Picture";
      handle_attribute_claim_validation code claims "Code attribute"
  end.
End schema_request.

(** ** What the checks establish *)

Section checks.
Context `{ValueOps}.

Lemma gather_subnode (l : list CredentialClaimSchemaRequest) (m n : CredentialClaimSchemaRequest) :
  n ∈ l -> subnode m n -> m ∈ gather_claim_schemas l.
Proof.
  assert (Hsub : subnode m n -> m = n \/ m ∈ gather_below n).
  { induction 1 as [|k d cs c Hc _ IH]; [by left|right]. cbn [gather_below]. apply elem_of_app.
    destruct IH as [->|IH]; [by left|right]. apply list_elem_of_In, List.in_flat_map. exists c.
    split; by apply list_elem_of_In. }
  intros Hn [->|Hm]%Hsub; apply elem_of_app; [by left|right]. apply list_elem_of_In, List.in_flat_map.
  exists n. split; by apply list_elem_of_In.
Qed.

Lemma children_unique_each (l : list CredentialClaimSchemaRequest) :
  each_children_unique l = Ok tt -> forall n, n ∈ l -> validate_children_keys_unique n = Ok tt.
Proof.
  induction l as [|x l IH]; [by intros _ n ?%elem_of_nil|]. cbn [each_children_unique].
  intros ([] & Hx & Hl)%res_bind_ok n [->|Hn]%elem_of_cons; [done|by apply IH].
Qed.

Lemma children_unique_node (n : CredentialClaimSchemaRequest) : validate_children_keys_unique n = Ok tt ->
  NoDup (nkey <$> nclaims n) /\ each_children_unique (nclaims n) = Ok tt.
Proof.
  destruct n as [k d l]. cbn [validate_children_keys_unique nclaims].
  destruct (bool_decide _) eqn:Hnd; [|done]. apply bool_decide_eq_true in Hnd. done.
Qed.

(** Unique siblings and keys without a marker. *)
Lemma unique_tree_ok (n : CredentialClaimSchemaRequest) : validate_children_keys_unique n = Ok tt ->
  (forall m, subnode m n -> depth (nkey m) = O) -> tree_ok n = true.
Proof.
  induction n as [k d l IH] using node_induction. intros [Hnd Heach]%children_unique_node Hk.
  cbn [tree_ok nclaims] in *. rewrite (Hk (mkNode k d l) (SubSelf _) : depth k = O), bool_decide_eq_true_2 by done.
  cbn. apply List.forallb_forall. intros c Hc%list_elem_of_In. rewrite Forall_forall in IH. apply IH; [done| |].
  - by apply (children_unique_each l).
  - intros m Hm. apply Hk. by eapply SubChild.
Qed.

Context (request : CreateSchemaRequest) (config : SchemaConfig) (caps : SchemaCapabilities).
Context (operations_of : string -> option (list Operation)).
Context (Hacc : validate_schema_request request config caps operations_of = Ok tt).

Lemma accepted_nested : validate_nested_claim_schemas (csr_claims request) config caps = Ok tt.
Proof.
  unfold validate_schema_request in Hacc. apply res_bind_ok in Hacc as (? & _ & H1).
  apply res_bind_ok in H1 as (? & _ & H1). apply res_bind_ok in H1 as (? & _ & H1).
  apply res_bind_ok in H1 as (? & _ & H1). by apply res_bind_ok in H1 as ([] & H1 & _).
Qed.

Lemma accepted_claim (n : CredentialClaimSchemaRequest) : n ∈ gather_claim_schemas (csr_claims request) ->
  validate_claim_schema config caps n = Ok tt.
Proof.
  intros Hn. pose proof accepted_nested as Hv. unfold validate_nested_claim_schemas in Hv.
  apply res_bind_ok in Hv as (? & _ & Hv). apply res_bind_ok in Hv as (us & Hm & _).
  apply try_map_ok in Hm. apply list_elem_of_lookup in Hn as (i & Hi).
  destruct (Forall2_lookup_l _ _ _ _ _ Hm Hi) as ([] & _ & Hok). done.
Qed.

Lemma accepted_forest : forest_ok (csr_claims request) = true.
Proof.
  pose proof accepted_nested as Hv. unfold validate_nested_claim_schemas in Hv.
  apply res_bind_ok in Hv as ([] & Hu & _). unfold validate_claim_schema_keys_unique in Hu.
  destruct (bool_decide _) eqn:Hnd; [|done]. unfold forest_ok. rewrite Hnd. cbn [andb].
  apply List.forallb_forall. intros n Hn%list_elem_of_In. apply unique_tree_ok; [by apply (children_unique_each (csr_claims request))|].
  intros m Hm. pose proof (accepted_claim m (gather_subnode _ _ _ Hn Hm)) as Hc. unfold validate_claim_schema in Hc.
  apply res_bind_ok in Hc as (? & _ & Hc). apply res_bind_ok in Hc as (? & Hname & _).
  unfold validate_claim_schema_name, fail_if in Hname. by destruct (Nat.eqb_spec (depth (nkey m)) 0).
Qed.

(** A claim has nested claims exactly when it is an object. *)
Lemma accepted_object (m n : CredentialClaimSchemaRequest) : n ∈ csr_claims request -> subnode m n ->
  exists f, get_fields (scf_datatype config) (rd_datatype (ndata m)) = Ok f /\
    (df_type f = DtObject <-> nclaims m <> []).
Proof.
  intros Hn Hm. pose proof (accepted_claim m (gather_subnode _ _ _ Hn Hm)) as Hc. unfold validate_claim_schema in Hc.
  apply res_bind_ok in Hc as (f & Hf & Hc). apply res_bind_ok in Hc as (? & _ & Hc).
  apply res_bind_ok in Hc as (? & Hty & _). exists f. split.
  - destruct (get_fields _ _); [by injection Hf as ->|done..].
  - unfold validate_claim_schema_type, fail_if in Hty.
    destruct (df_type f); destruct (bool_decide (nclaims m = [])) eqn:Hb; cbn in Hty; try done;
      (apply bool_decide_eq_true in Hb || apply bool_decide_eq_false in Hb); split; done.
Qed.
End checks.

(** The stored entries of a forest. *)
Section stored.
Context `{UuidSupply} (next : nat) (claims : list CredentialClaimSchemaRequest).
Notation stored := (claim_schemas_of_request next claims).

Lemma stored_keys : cs_key <$> stored = nkey <$> unnest_claim_schemas claims.
Proof.
  unfold claim_schemas_of_request. rewrite fmap_imap. apply list_eq. intros i.
  rewrite list_lookup_imap, list_lookup_fmap. by destruct (_ !! i).
Qed.

Lemma stored_elem (s : ClaimSchema) : s ∈ stored -> exists x, x ∈ unnest_claim_schemas claims /\ cs_key s = nkey x /\
  cs_data_type s = rd_datatype (ndata x).
Proof.
  intros (i & Hi)%list_elem_of_lookup. unfold claim_schemas_of_request in Hi. rewrite list_lookup_imap in Hi.
  apply fmap_Some in Hi as (x & Hx & ->). exists x. split; [by eapply list_elem_of_lookup_2|done].
Qed.

Lemma stored_of_entry (x : CredentialClaimSchemaRequest) : x ∈ unnest_claim_schemas claims ->
  exists s, s ∈ stored /\ cs_key s = nkey x /\ cs_data_type s = rd_datatype (ndata x).
Proof.
  intros (i & Hi)%list_elem_of_lookup. exists (claim_schema_of (uuid_at (next + i)) x). split; [|done].
  apply (list_elem_of_lookup_2 _ i). unfold claim_schemas_of_request. rewrite list_lookup_imap.
  apply fmap_Some. by exists x.
Qed.

Lemma stored_wf : forest_ok claims = true -> (forall n, n ∈ claims -> nkey n <> ""%string) -> schemas_wf stored = true.
Proof.
  intros Hok Hne. apply andb_true_iff. split.
  - apply bool_decide_eq_true. rewrite stored_keys. by apply unnest_nodup.
  - apply List.forallb_forall. intros s (x & Hx & -> & _)%list_elem_of_In%stored_elem.
    apply andb_true_iff in Hok as [_ Hall]. destruct (unnest_head_top claims x Hall Hx) as (n & Hn & Hh).
    destruct (split_on marker (nkey x)) as [|y ys]; [done|]. injection Hh as ->. apply negb_true_iff, String.eqb_neq.
    by apply Hne.
Qed.
End stored.

(** A schema that is accepted is stored as a list of claim schemas with unique
    keys and non-empty first segments, as the credential services assume; the
    parent of a nested key is one of them and is an object. *)
Theorem accepted_schema_wf `{ValueOps} `{UuidSupply} (request : CreateSchemaRequest) (config : SchemaConfig)
  (caps : SchemaCapabilities) (operations_of : string -> option (list Operation)) (next : nat) :
  validate_schema_request request config caps operations_of = Ok tt ->
  (forall n, n ∈ csr_claims request -> nkey n <> ""%string) ->
  let stored := claim_schemas_of_request next (csr_claims request) in
  schemas_wf stored = true /\
  forall s p q, s ∈ stored -> rsplit_once marker (cs_key s) = Some (p, q) ->
    exists t f, t ∈ stored /\ cs_key t = p /\
      get_fields (scf_datatype config) (cs_data_type t) = Ok f /\ df_type f = DtObject.
Proof.
  intros Hacc Hne stored. pose proof (accepted_forest request config caps operations_of Hacc) as Hok.
  split; [by apply stored_wf|]. intros s p q (x & Hx & -> & _)%stored_elem Hp.
  destruct (unnest_parents (csr_claims request) x p q) as (y & m & n & Hy & <- & Hn & Hm & Hd & Hc);
    [by apply andb_true_iff in Hok as []|done..|].
  destruct (stored_of_entry next _ y Hy) as (t & Ht & Hk & Hdt).
  destruct (accepted_object request config caps operations_of Hacc m n Hn Hm) as (f & Hf & Hobj).
  exists t, f. rewrite Hdt, <-Hd. split_and!; [done..|]. by apply Hobj.
Qed.

(** ** Keys that are too long *)

Module SchemaWitness.
Import CreateWitness.
Definition node (k dt : string) (cs : list CredentialClaimSchemaRequest) : CredentialClaimSchemaRequest :=
  mkNode k (mkReqData dt true None) cs.
Definition schema_config : SchemaConfig :=
  mkSchemaConfig datatypes (<["JWT" := mkProviderFields "JWT" true]> ∅) ∅ [(KssHigh, true)].
Definition schema_caps : SchemaCapabilities := mkSchemaCapabilities ["STRING"; "OBJECT"] [] [] [].
Definition schema_request (claims : list CredentialClaimSchemaRequest) : CreateSchemaRequest :=
  mkCreateSchemaRequest "Person" "JWT" None 7 claims (Some KssHigh) LayoutCard None None None false None.
Definition nested_claims : list CredentialClaimSchemaRequest :=
  [node "name" "STRING" []; node "address" "OBJECT" [node "street" "STRING" []; node "geo" "OBJECT" [node "lat" "STRING" []]]].
Fixpoint repeat_char (a : ascii) (n : nat) : string :=
  match n with O => ""%string | S n => String a (repeat_char a n) end.
Definition long_claims : list CredentialClaimSchemaRequest :=
  [node (repeat_char "a" 120) "OBJECT" [node (repeat_char "b" 120) "OBJECT" [node (repeat_char "c" 120) "STRING" []]]].
End SchemaWitness.
Import CreateWitness SchemaWitness.

(** The limit of 255 characters on the key of a claim is not enforced below
    the second level, because the prefix that is checked is that of the direct
    parent only: a request whose stored key has 362 characters is accepted. *)
Theorem key_length_unchecked `{UuidSupply} :
  validate_schema_request (schema_request long_claims) schema_config schema_caps (fun _ => None) = Ok tt /\
  exists s, s ∈ claim_schemas_of_request 0 (csr_claims (schema_request long_claims)) /\
    String.length (cs_key s) = 362%nat /\ (max_key_length < String.length (cs_key s))%nat.
Proof.
  split; [vm_compute; reflexivity|].
  eexists. split; [apply (list_elem_of_lookup_2 _ 2); vm_compute; reflexivity|]. vm_compute. split; [reflexivity|lia].
Qed.

Lemma accepted_schema_wf_witness : schemas_wf (claim_schemas_of_request 0 nested_claims) = true.
Proof.
  refine (proj1 (accepted_schema_wf (schema_request nested_claims) schema_config schema_caps (fun _ => None) 0 _ _)).
  - vm_compute. reflexivity.
  - intros n Hn. cbn in Hn. repeat (apply elem_of_cons in Hn as [->|Hn]; [done|]). by apply elem_of_nil in Hn.
Defined.
