(* ===== verification/SchemaStore.v ===== *)
(** * The credential schema repository

    Models [lib/sql-data-provider/src/credential_schema/repository.rs] with its
    [mapper.rs] and the entities [credential_schema.rs] and [claim_schema.rs]:
    the two tables with the constraints of the migrations, and every operation
    of the repository. Text columns are compared byte by byte. *)

From S2P Require Import Prelude StatusBits KeySelection RevocationRepo RevocationMethod.
From S2P Require Import ListFilter Validity Paths Dcql DcqlSpec Datatypes CreateClaims SchemaClaims SchemaRequest.
#[local] Open Scope Z_scope.

(** ** Data *)

Record Organisation := mkOrganisation { org_id : Z; org_deactivated_at : option Z }.

(** A row of [credential_schema]. *)
Record SchemaRow := mkSchemaRow {
  row_id : Z;
  row_deleted_at : option Z;
  row_created_date : Z;
  row_last_modified : Z;
  row_name : string;
  row_format : string;
  row_revocation_method : option string;
  row_key_storage_security : option KeyStorageSecurity;
  row_organisation_id : Z;
  row_layout_type : LayoutType;
  row_layout_properties : option LayoutProperties;
  row_schema_id : string;
  row_imported_source_url : string;
  row_allow_suspension : bool;
  row_requires_wallet_instance_attestation : bool;
  row_transaction_code_type : option TransactionCodeType;
  row_transaction_code_length : option Z;
  row_transaction_code_description : option string
}.

(** A row of [claim_schema]. *)
Record ClaimSchemaRow := mkClaimSchemaRow {
  csr_claim_schema : ClaimSchema;
  csr_credential_schema_id : Z;
  csr_order : Z
}.

(** The model [CredentialSchema]. *)
Record Schema := mkSchema {
  sc_id : Z;
  sc_deleted_at : option Z;
  sc_created_date : Z;
  sc_last_modified : Z;
  sc_name : string;
  sc_format : string;
  sc_revocation_method : option string;
  sc_key_storage_security : option KeyStorageSecurity;
  sc_organisation : option Organisation;
  sc_claim_schemas : option (list ClaimSchema);
  sc_layout_type : LayoutType;
  sc_layout_properties : option LayoutProperties;
  sc_schema_id : string;
  sc_imported_source_url : string;
  sc_allow_suspension : bool;
  sc_requires_wallet_instance_attestation : bool;
  sc_transaction_code : option TransactionCode
}.

Record SchemaRelations := mkSchemaRelations { with_claim_schemas : bool; with_organisation : bool }.

Record UpdateSchemaRequest := mkUpdateSchemaRequest {
  usr_id : Z;
  usr_revocation_method : option (option string);
  usr_format : option string;
  usr_claim_schemas : option (list ClaimSchema);
  usr_layout_type : option LayoutType;
  usr_layout_properties : option LayoutProperties
}.

(** The store. *)
Record SchemaDb := mkSchemaDb {
  schema_rows : list SchemaRow;
  claim_rows : list ClaimSchemaRow;
  organisations : list Organisation;
  schema_clock : Z;
  schema_uuids : nat
}.
Definition set_schema_rows (rows : list SchemaRow) (d : SchemaDb) : SchemaDb :=
  mkSchemaDb rows (claim_rows d) (organisations d) (schema_clock d) (schema_uuids d).
Definition set_claim_rows (rows : list ClaimSchemaRow) (d : SchemaDb) : SchemaDb :=
  mkSchemaDb (schema_rows d) rows (organisations d) (schema_clock d) (schema_uuids d).
Definition set_uuids (n : nat) (d : SchemaDb) : SchemaDb :=
  mkSchemaDb (schema_rows d) (claim_rows d) (organisations d) (schema_clock d) n.

(** ** Conversions *)

(** [impl TryFrom<CredentialSchema> for credential_schema::ActiveModel]. *)
Definition row_of_schema (schema : Schema) : res DataLayerError SchemaRow :=
  organisation ← ok_or (sc_organisation schema) DlMappingError;
  Ok (mkSchemaRow (sc_id schema) (sc_deleted_at schema) (sc_created_date schema) (sc_last_modified schema)
        (sc_name schema) (sc_format schema) (sc_revocation_method schema) (sc_key_storage_security schema)
        (org_id organisation) (sc_layout_type schema) (sc_layout_properties schema) (sc_schema_id schema)
        (sc_imported_source_url schema) (sc_allow_suspension schema)
        (sc_requires_wallet_instance_attestation schema)
        (tc_type <$> sc_transaction_code schema) (tc_length <$> sc_transaction_code schema)
        (sc_transaction_code schema ≫= tc_description)).

(** The order column is a [u32]. *)
Definition claim_schemas_to_model_vec (claim_schemas : list ClaimSchema) (credential_schema_id : Z) :
  list ClaimSchemaRow :=
  imap (fun index claim_schema => mkClaimSchemaRow claim_schema credential_schema_id (u32_wrap (Z.of_nat index)))
    claim_schemas.

Definition credential_schema_from_models (row : SchemaRow) (claim_schemas : option (list ClaimSchema))
  (organisation : option Organisation) (skip_layout_properties : bool) : res DataLayerError Schema :=
  transaction_code ← match row_transaction_code_type row, row_transaction_code_length row with
                     | Some type, Some length =>
                         Ok (Some (mkTransactionCode type length (row_transaction_code_description row)))
                     | None, None => Ok None
                     | _, _ => Err DlMappingError
                     end;
  Ok (mkSchema (row_id row) (row_deleted_at row) (row_created_date row) (row_last_modified row) (row_name row)
        (row_format row) (row_revocation_method row) (row_key_storage_security row) organisation claim_schemas
        (row_layout_type row) (if skip_layout_properties then None else row_layout_properties row)
        (row_schema_id row) (row_imported_source_url row) (row_allow_suspension row)
        (row_requires_wallet_instance_attestation row) transaction_code).

(** ** The tables *)

(** The unique indexes: the primary key, the name and the schema id in an
    organisation, each with [deleted_at]. *)
Definition schema_conflict (a b : SchemaRow) : bool :=
  (row_id a =? row_id b) ||
  (row_organisation_id a =? row_organisation_id b) && bool_decide (row_deleted_at a = row_deleted_at b) &&
  (String.eqb (row_name a) (row_name b) || String.eqb (row_schema_id a) (row_schema_id b)).

Definition insert_schema (row : SchemaRow) : M SchemaDb DataLayerError unit := fun d =>
  if existsb (fun r => schema_conflict r row) (schema_rows d) then (Err AlreadyExists, d)
  else if negb (existsb (fun o => org_id o =? row_organisation_id row) (organisations d))
  then (Err IncorrectParameters, d)
  else (Ok tt, set_schema_rows (schema_rows d ++ [row]) d).

(** The primary key of the claims; every error is a [DataLayerError::Db] here. *)
Definition insert_claim_schemas (rows : list ClaimSchemaRow) : M SchemaDb DataLayerError unit := fun d =>
  let ids := (fun r => cs_id (csr_claim_schema r)) <$> claim_rows d ++ rows in
  if bool_decide (NoDup ids) &&
     forallb (fun r => existsb (fun s => row_id s =? csr_credential_schema_id r) (schema_rows d)) rows
  then (Ok tt, set_claim_rows (claim_rows d ++ rows) d)
  else (Err DlDb, d).

(** ** The repository *)

Definition create_credential_schema_row (schema : Schema) : M SchemaDb DataLayerError Z :=
  claim_schemas ← lift (ok_or (sc_claim_schemas schema) DlMappingError);
  row ← lift (row_of_schema schema);
  transaction
    (_ ← insert_schema row;
     _ ← (match claim_schemas with
          | [] => mret tt
          | _ => insert_claim_schemas (claim_schemas_to_model_vec claim_schemas (row_id row))
          end);
     mret (row_id row)).

Definition set_deleted_at (deleted_at : option Z) (r : SchemaRow) : SchemaRow :=
  mkSchemaRow (row_id r) deleted_at (row_created_date r) (row_last_modified r) (row_name r) (row_format r)
    (row_revocation_method r) (row_key_storage_security r) (row_organisation_id r) (row_layout_type r)
    (row_layout_properties r) (row_schema_id r) (row_imported_source_url r) (row_allow_suspension r)
    (row_requires_wallet_instance_attestation r) (row_transaction_code_type r) (row_transaction_code_length r)
    (row_transaction_code_description r).

Definition find_row (id : Z) (d : SchemaDb) : option SchemaRow :=
  find_first (fun r => row_id r =? id) (schema_rows d).

(** Replaces the row with the primary key of [row], under the other indexes. *)
Definition update_row (row : SchemaRow) : M SchemaDb DataLayerError unit := fun d =>
  if existsb (fun r => negb (row_id r =? row_id row) && schema_conflict r row) (schema_rows d)
  then (Err AlreadyExists, d)
  else (Ok tt, set_schema_rows ((fun r => if row_id r =? row_id row then row else r) <$> schema_rows d) d).

Definition delete_credential_schema_row (credential_schema : Schema) : M SchemaDb DataLayerError unit :=
  d ← get;
  match find_row (sc_id credential_schema) d with
  | Some row => if bool_decide (row_deleted_at row = None)
                then update_row (set_deleted_at (Some (schema_clock d)) row)
                else throw RecordNotUpdated
  | None => throw RecordNotUpdated
  end.

Definition claim_schemas_of (id : Z) (d : SchemaDb) : list ClaimSchema :=
  csr_claim_schema <$> sort_by (fun a b => csr_order a <=? csr_order b)
    (List.filter (fun r => csr_credential_schema_id r =? id) (claim_rows d)).

Definition get_organisation (id : Z) : M SchemaDb DataLayerError (option Organisation) := fun d =>
  (Ok (find_first (fun o => org_id o =? id) (organisations d)), d).

Definition related_organisation (row : SchemaRow) (relations : SchemaRelations) :
  M SchemaDb DataLayerError (option Organisation) :=
  if with_organisation relations then
    found ← get_organisation (row_organisation_id row);
    organisation ← lift (ok_or found DlDb);
    mret (Some organisation)
  else mret None.

Definition get_credential_schema_row (id : Z) (relations : SchemaRelations) :
  M SchemaDb DataLayerError (option Schema) :=
  d ← get;
  match find_row id d with
  | None => mret None
  | Some row =>
      let claim_schemas := if with_claim_schemas relations then Some (claim_schemas_of id d) else None in
      organisation ← related_organisation row relations;
      schema ← lift (credential_schema_from_models row claim_schemas organisation false);
      mret (Some schema)
  end.

(** *** Lists *)

Inductive SchemaFilterValue :=
| SfName (value : string)             (** [StringMatchType::Equals] *)
| SfSchemaId (value : string)
| SfOrganisationId (id : Z)
| SfFormats (formats : list string)
| SfCredentialSchemaIds (ids : list Z)
| SfRequiresWalletInstanceAttestation (b : bool)
| SfKeyStorageSecurity (levels : list KeyStorageSecurity)
| SfCreatedDate (c : ValueComparison Z)
| SfLastModified (c : ValueComparison Z).

Definition schema_condition (v : SchemaFilterValue) (r : SchemaRow) : bool :=
  match v with
  | SfName value => String.eqb (row_name r) value
  | SfSchemaId value => String.eqb (row_schema_id r) value
  | SfOrganisationId id => row_organisation_id r =? id
  | SfFormats formats => bool_decide (row_format r ∈ formats)
  | SfCredentialSchemaIds ids => bool_decide (row_id r ∈ ids)
  | SfRequiresWalletInstanceAttestation b => Bool.eqb (row_requires_wallet_instance_attestation r) b
  | SfKeyStorageSecurity levels => existsb (fun l => bool_decide (row_key_storage_security r = Some l)) levels
  | SfCreatedDate c => compare_column c (Some (row_created_date r))
  | SfLastModified c => compare_column c (Some (row_last_modified r))
  end.

Record SchemaQuery := mkSchemaQuery {
  sq_pagination : option (nat * nat);  (** the page and its size *)
  sq_filtering : option (ListFilterCondition SchemaFilterValue)
}.

(** Newest first, then by id. *)
Definition newest_first (a b : SchemaRow) : bool :=
  (row_created_date b <? row_created_date a) ||
  (row_created_date b =? row_created_date a) && (row_id b <=? row_id a).

Definition paginate {A : Type} (pagination : option (nat * nat)) (l : list A) : list A :=
  match pagination with
  | Some (page, page_size) => take page_size (drop (page * page_size) l)
  | None => l
  end.

(** The rows of [get_credential_schema_list], with no relations and no layout. *)
Definition list_rows (any_empty : bool) (query : SchemaQuery) (d : SchemaDb) : list SchemaRow :=
  paginate (sq_pagination query)
    (sort_by newest_first
       (List.filter (fun r => bool_decide (row_deleted_at r = None)
                              && selects any_empty schema_condition (sq_filtering query) r) (schema_rows d))).

Definition get_credential_schema_list (any_empty : bool) (query : SchemaQuery) :
  M SchemaDb DataLayerError (list Schema) :=
  d ← get;
  lift (try_map (fun row => credential_schema_from_models row None None true) (list_rows any_empty query d)).

(** *** Updates *)

Definition updated_row (request : UpdateSchemaRequest) (now : Z) (r : SchemaRow) : SchemaRow :=
  mkSchemaRow (row_id r) (row_deleted_at r) (row_created_date r) now (row_name r)
    (default (row_format r) (usr_format request))
    (default (row_revocation_method r) (usr_revocation_method request)) (row_key_storage_security r)
    (row_organisation_id r) (default (row_layout_type r) (usr_layout_type request))
    (match usr_layout_properties request with Some p => Some p | None => row_layout_properties r end)
    (row_schema_id r) (row_imported_source_url r) (row_allow_suspension r)
    (row_requires_wallet_instance_attestation r) (row_transaction_code_type r) (row_transaction_code_length r)
    (row_transaction_code_description r).

Definition update_credential_schema (request : UpdateSchemaRequest) : M SchemaDb DataLayerError unit :=
  d ← get;
  match find_row (usr_id request) d with
  | None => throw RecordNotUpdated
  | Some row =>
      _ ← update_row (updated_row request (schema_clock d) row);
      match usr_claim_schemas request with
      | Some claim_schemas => insert_claim_schemas (claim_schemas_to_model_vec claim_schemas (usr_id request))
      | None => mret tt
      end
  end.

(** [get_by_schema_id_and_organisation]; the claims come in the order of the
    database. *)
Definition get_by_schema_id_and_organisation `{HashOrder} (schema_id : string) (organisation_id : Z)
  (relations : SchemaRelations) : M SchemaDb DataLayerError (option Schema) :=
  d ← get;
  match find_first (fun r => String.eqb (row_schema_id r) schema_id && (row_organisation_id r =? organisation_id)
                             && bool_decide (row_deleted_at r = None)) (schema_rows d) with
  | None => mret None
  | Some row =>
      claim_schemas ← (if with_claim_schemas relations then
        match hash_order ClaimSchemaRow (List.filter (fun r => csr_credential_schema_id r =? row_id row) (claim_rows d)) with
        | [] => throw DlMappingError
        | schemas => mret (Some (csr_claim_schema <$> schemas))
        end else mret None);
      organisation ← (if with_organisation relations then
        match find_first (fun o => org_id o =? row_organisation_id row) (organisations d) with
        | None => throw DlMappingError
        | Some organisation => mret (Some organisation)
        end else mret None);
      schema ← lift (credential_schema_from_models row claim_schemas organisation true);
      mret (Some schema)
  end.

(** ** The invariant of the tables *)

Record schema_wf (d : SchemaDb) : Prop := {
  wf_ids : NoDup (row_id <$> schema_rows d);
  (** Rows of an organisation that are both live, or deleted at the same
      moment, have different names and schema ids. *)
  wf_keys : forall a b, a ∈ schema_rows d -> b ∈ schema_rows d -> row_id a <> row_id b -> schema_conflict a b = false;
  (** The columns of the transaction code go together. *)
  wf_code : forall r, r ∈ schema_rows d ->
    (row_transaction_code_type r = None <-> row_transaction_code_length r = None);
  wf_org : forall r, r ∈ schema_rows d -> exists o, o ∈ organisations d /\ org_id o = row_organisation_id r;
  wf_claim_ids : NoDup ((fun r => cs_id (csr_claim_schema r)) <$> claim_rows d);
  wf_claims : forall c, c ∈ claim_rows d -> exists r, r ∈ schema_rows d /\ row_id r = csr_credential_schema_id c
}.

(** What other clients may commit. *)
Inductive schema_step (d : SchemaDb) : SchemaDb -> Prop :=
| StepCreate schema : schema_step d (create_credential_schema_row schema d).2
| StepDelete schema : schema_step d (delete_credential_schema_row schema d).2
| StepUpdate request : schema_step d (update_credential_schema request d).2
| StepTime now n : schema_clock d <= now -> (schema_uuids d <= n)%nat ->
    schema_step d (mkSchemaDb (schema_rows d) (claim_rows d) (organisations d) now n).

Lemma conflict_sym (a b : SchemaRow) : schema_conflict a b = schema_conflict b a.
Proof.
  unfold schema_conflict. rewrite (Z.eqb_sym (row_id a)), (Z.eqb_sym (row_organisation_id a)),
    (String.eqb_sym (row_name a)), (String.eqb_sym (row_schema_id a)).
  do 2 f_equal. f_equal. by apply bool_decide_ext.
Qed.

Lemma insert_schema_cases (row : SchemaRow) (d : SchemaDb) :
  (exists e, insert_schema row d = (Err e, d)) \/
  (insert_schema row d = (Ok tt, set_schema_rows (schema_rows d ++ [row]) d) /\
   (forall r, r ∈ schema_rows d -> schema_conflict r row = false) /\
   exists o, o ∈ organisations d /\ org_id o = row_organisation_id row).
Proof.
  unfold insert_schema. destruct (existsb _ (schema_rows d)) eqn:Hc; [left; eauto|].
  destruct (existsb _ (organisations d)) eqn:Ho; cbn [negb]; [right|left; eauto].
  split_and!; [done|by apply existsb_false|]. apply existsb_elem in Ho as (o & Ho & Heq%Z.eqb_eq). eauto.
Qed.

Lemma insert_claims_cases (rows : list ClaimSchemaRow) (d : SchemaDb) :
  insert_claim_schemas rows d = (Err DlDb, d) \/
  (insert_claim_schemas rows d = (Ok tt, set_claim_rows (claim_rows d ++ rows) d) /\
   NoDup ((fun r => cs_id (csr_claim_schema r)) <$> claim_rows d ++ rows) /\
   forall c, c ∈ rows -> exists r, r ∈ schema_rows d /\ row_id r = csr_credential_schema_id c).
Proof.
  unfold insert_claim_schemas. destruct (bool_decide _) eqn:Hnd; cbn [andb]; [|by left].
  destruct (forallb _ rows) eqn:Hall; [right|by left]. split_and!; [done|by apply bool_decide_eq_true in Hnd|].
  intros c Hc%list_elem_of_In. rewrite List.forallb_forall in Hall. specialize (Hall c Hc).
  apply existsb_elem in Hall as (r & Hr & Heq%Z.eqb_eq). eauto.
Qed.

(** A creation fails and changes nothing, or adds the row and its claims. *)
Lemma create_row_cases (schema : Schema) (d : SchemaDb) : schema_wf d ->
  (exists e, create_credential_schema_row schema d = (Err e, d)) \/
  exists claim_schemas row,
    let models := claim_schemas_to_model_vec claim_schemas (row_id row) in
    sc_claim_schemas schema = Some claim_schemas /\ row_of_schema schema = Ok row /\
    create_credential_schema_row schema d =
      (Ok (row_id row), set_claim_rows (claim_rows d ++ models) (set_schema_rows (schema_rows d ++ [row]) d)) /\
    (forall r, r ∈ schema_rows d -> schema_conflict r row = false) /\
    (exists o, o ∈ organisations d /\ org_id o = row_organisation_id row) /\
    NoDup ((fun r => cs_id (csr_claim_schema r)) <$> claim_rows d ++ models).
Proof.
  intros Hwf. unfold create_credential_schema_row, mbind, M_bind, lift, transaction.
  destruct (sc_claim_schemas schema) as [cs|]; cbn [ok_or]; [|left; eauto].
  destruct (row_of_schema schema) as [row|e|] eqn:Hrow; [|left; eauto|]; cycle 1.
  { unfold row_of_schema in Hrow. by destruct (sc_organisation schema). }
  destruct (insert_schema_cases row d) as [[e ->]|(-> & Hc & Ho)]; [left; eauto|].
  set (d1 := set_schema_rows _ d).
  destruct cs as [|c cs].
  { right. exists [], row. cbn. rewrite app_nil_r. split_and!; [done..|]. apply Hwf. }
  destruct (insert_claims_cases (claim_schemas_to_model_vec (c :: cs) (row_id row)) d1) as [->|(-> & Hnd & _)]; [left; eauto|].
  right. exists (c :: cs), row. by split_and!.
Qed.

Lemma row_of_schema_id (schema : Schema) (row : SchemaRow) : row_of_schema schema = Ok row -> row_id row = sc_id schema.
Proof. unfold row_of_schema. destruct (sc_organisation schema); cbn [ok_or mbind res_bind]; [|done]. by intros [= <-]. Qed.

Lemma row_of_schema_code (schema : Schema) (row : SchemaRow) : row_of_schema schema = Ok row ->
  row_transaction_code_type row = None <-> row_transaction_code_length row = None.
Proof.
  unfold row_of_schema. destruct (sc_organisation schema); cbn [ok_or mbind res_bind]; [|done]. intros [= <-].
  cbn. by destruct (sc_transaction_code schema).
Qed.

Lemma model_vec_id (cs : list ClaimSchema) (id : Z) (c : ClaimSchemaRow) :
  c ∈ claim_schemas_to_model_vec cs id -> csr_credential_schema_id c = id.
Proof.
  intros (i & Hi)%list_elem_of_lookup. unfold claim_schemas_to_model_vec in Hi. rewrite list_lookup_imap in Hi.
  by apply fmap_Some in Hi as (x & _ & ->).
Qed.

Lemma create_row_wf (schema : Schema) (d : SchemaDb) : schema_wf d -> schema_wf (create_credential_schema_row schema d).2.
Proof.
  intros Hwf. destruct (create_row_cases schema d Hwf) as [[e ->]|(cs & row & _ & Hrow & -> & Hc & Ho & Hnd)]; [done|].
  assert (Hid : forall r, r ∈ schema_rows d -> row_id r <> row_id row).
  { intros r Hr Heq. specialize (Hc r Hr). unfold schema_conflict in Hc. by rewrite Heq, Z.eqb_refl in Hc. }
  destruct Hwf as [H1 H2 H0 H3 H4 H5]. constructor; cbn [schema_rows claim_rows organisations set_claim_rows set_schema_rows snd].
  - rewrite fmap_app. apply NoDup_app. split_and!; [done| |apply NoDup_singleton].
    intros x (r & -> & Hr)%list_elem_of_fmap Hx%list_elem_of_singleton. by apply (Hid r).
  - intros a b [Ha|Ha%list_elem_of_singleton]%elem_of_app [Hb|Hb%list_elem_of_singleton]%elem_of_app Hab; subst.
    + by apply H2.
    + by apply Hc.
    + rewrite conflict_sym. by apply Hc.
    + done.
  - intros r [Hr|Hr%list_elem_of_singleton]%elem_of_app; [by apply H0|subst]. by apply (row_of_schema_code schema).
  - intros r [Hr|Hr%list_elem_of_singleton]%elem_of_app; [by apply H3|by subst].
  - done.
  - intros c [Hx|Hx]%elem_of_app.
    + destruct (H5 c Hx) as (r & Hr & Heq). exists r. split; [apply elem_of_app; by left|done].
    + exists row. split; [apply elem_of_app; right; by apply list_elem_of_singleton|]. by rewrite (model_vec_id _ _ _ Hx).
Qed.

Lemma find_row_elem (id : Z) (d : SchemaDb) (r : SchemaRow) : find_row id d = Some r -> r ∈ schema_rows d /\ row_id r = id.
Proof. intros [Hr Hid]%find_first_Some. by apply Z.eqb_eq in Hid. Qed.

(** Replacing a row keeps its organisation. *)
Lemma update_row_wf (row row' : SchemaRow) (d : SchemaDb) : schema_wf d -> row ∈ schema_rows d ->
  row_id row' = row_id row -> row_organisation_id row' = row_organisation_id row ->
  row_transaction_code_type row' = row_transaction_code_type row ->
  row_transaction_code_length row' = row_transaction_code_length row -> schema_wf (update_row row' d).2.
Proof.
  intros [H1 H2 H0 H3 H4 H5] Hrow Hid Horg Hty Hlen. unfold update_row. destruct (existsb _ _) eqn:Hc; [by constructor|].
  rewrite existsb_false in Hc. set (f := fun r => _).
  assert (Hf : forall r, row_id (f r) = row_id r).
  { intros r. unfold f. by destruct (Z.eqb_spec (row_id r) (row_id row')). }
  constructor; cbn [schema_rows claim_rows organisations set_schema_rows snd].
  - rewrite <-list_fmap_compose. erewrite list_fmap_ext; [exact H1|]. intros i r _. apply Hf.
  - intros a b (x & -> & Hx)%list_elem_of_fmap (y & -> & Hy)%list_elem_of_fmap. rewrite !Hf. intros Hxy.
    pose proof (Hc x Hx) as Hcx. pose proof (Hc y Hy) as Hcy. unfold f.
    destruct (Z.eqb_spec (row_id x) (row_id row')) as [Hex|Hex], (Z.eqb_spec (row_id y) (row_id row')) as [Hey|Hey]; [lia|..].
    + rewrite conflict_sym. exact Hcy.
    + exact Hcx.
    + by apply H2.
  - intros r (x & -> & Hx)%list_elem_of_fmap. unfold f. destruct (Z.eqb_spec (row_id x) (row_id row')); [|by apply H0].
    rewrite Hty, Hlen. by apply H0.
  - intros r (x & -> & Hx)%list_elem_of_fmap. unfold f. destruct (Z.eqb_spec (row_id x) (row_id row')); [|by apply H3].
    rewrite Horg. by apply H3.
  - done.
  - intros c Hx. destruct (H5 c Hx) as (r & Hr & Heq). exists (f r). rewrite Hf. split; [|done]. apply list_elem_of_fmap. eauto.
Qed.

Lemma delete_row_wf (schema : Schema) (d : SchemaDb) : schema_wf d -> schema_wf (delete_credential_schema_row schema d).2.
Proof.
  intros Hwf. unfold delete_credential_schema_row, mbind, M_bind, get, throw.
  destruct (find_row (sc_id schema) d) as [row|] eqn:Hf; [|done]. apply find_row_elem in Hf as [Hr _].
  case_bool_decide; [|done]. by apply (update_row_wf row).
Qed.

Lemma insert_claims_wf (rows : list ClaimSchemaRow) (d : SchemaDb) : schema_wf d -> schema_wf (insert_claim_schemas rows d).2.
Proof.
  intros Hwf. destruct (insert_claims_cases rows d) as [->|(-> & Hnd & Hx)]; [done|].
  destruct Hwf. constructor; [done..|]. intros c [Hc|Hc]%elem_of_app; auto.
Qed.

Lemma update_schema_wf (request : UpdateSchemaRequest) (d : SchemaDb) : schema_wf d -> schema_wf (update_credential_schema request d).2.
Proof.
  intros Hwf. unfold update_credential_schema, mbind, M_bind, get, throw.
  destruct (find_row (usr_id request) d) as [row|] eqn:Hf; [|done]. apply find_row_elem in Hf as [Hr _].
  pose proof (update_row_wf row (updated_row request (schema_clock d) row) d Hwf Hr eq_refl eq_refl eq_refl eq_refl) as Hwf'.
  destruct (update_row _ d) as [[[]|e|] d']; cbn [snd] in *; [|done..].
  destruct (usr_claim_schemas request); [by apply insert_claims_wf|done].
Qed.

Lemma schema_step_wf (d d' : SchemaDb) : schema_step d d' -> schema_wf d -> schema_wf d'.
Proof.
  intros [schema|schema|request|now n _ _] Hwf;
    [by apply create_row_wf|by apply delete_row_wf|by apply update_schema_wf|]. by destruct Hwf.
Qed.

(** ** A schema under the changes of others *)

(** Any change but a deletion or an update of the schema [id]. *)
Inductive spares (id : Z) (d : SchemaDb) : SchemaDb -> Prop :=
| SpCreate schema : spares id d (create_credential_schema_row schema d).2
| SpDelete schema : sc_id schema <> id -> spares id d (delete_credential_schema_row schema d).2
| SpUpdate request : usr_id request <> id -> spares id d (update_credential_schema request d).2
| SpTime now n : schema_clock d <= now -> (schema_uuids d <= n)%nat ->
    spares id d (mkSchemaDb (schema_rows d) (claim_rows d) (organisations d) now n).

Lemma spares_step (id : Z) (d d' : SchemaDb) : spares id d d' -> schema_step d d'.
Proof. intros []; by constructor. Qed.

Definition claims_of (id : Z) (d : SchemaDb) : list ClaimSchemaRow :=
  List.filter (fun r => csr_credential_schema_id r =? id) (claim_rows d).

(** The row and the claims of a schema. *)
Definition same_schema (id : Z) (d d' : SchemaDb) : Prop :=
  find_row id d' = find_row id d /\ claims_of id d' = claims_of id d /\ organisations d' = organisations d.

Lemma update_row_other (id : Z) (row : SchemaRow) (d : SchemaDb) : row_id row <> id -> same_schema id d (update_row row d).2.
Proof.
  intros Hid. unfold update_row. destruct (existsb _ _); [done|]. split_and!; [|done..].
  unfold find_row. cbn [schema_rows set_schema_rows snd]. induction (schema_rows d) as [|r rs IH]; [done|].
  rewrite fmap_cons. rewrite !find_first_cons. destruct (Z.eqb_spec (row_id r) (row_id row)) as [He|He].
  - destruct (Z.eqb_spec (row_id row) id); [lia|]. destruct (Z.eqb_spec (row_id r) id); [lia|]. exact IH.
  - destruct (row_id r =? id); [done|]. exact IH.
Qed.

Lemma insert_claims_other (id id' : Z) (cs : list ClaimSchema) (d : SchemaDb) : id' <> id ->
  same_schema id d (insert_claim_schemas (claim_schemas_to_model_vec cs id') d).2.
Proof.
  intros Hid. destruct (insert_claims_cases (claim_schemas_to_model_vec cs id') d) as [->|(-> & _)]; [done|].
  split_and!; [done| |done]. unfold claims_of. cbn [claim_rows set_claim_rows snd]. rewrite List.filter_app.
  rewrite (filter_none _ (claim_schemas_to_model_vec cs id')), app_nil_r; [done|].
  intros c Hc%model_vec_id. apply Z.eqb_neq. lia.
Qed.

Lemma same_schema_trans (id : Z) (d1 d2 d3 : SchemaDb) : same_schema id d1 d2 -> same_schema id d2 d3 -> same_schema id d1 d3.
Proof. intros (H1 & H2 & H3) (H4 & H5 & H6). split_and!; congruence. Qed.

Lemma spares_same (id : Z) (d d' : SchemaDb) : schema_wf d -> is_Some (find_row id d) -> spares id d d' -> same_schema id d d'.
Proof.
  intros Hwf Hrow [schema|schema Hid|request Hid|now n _ _].
  - destruct (create_row_cases schema d Hwf) as [[e ->]|(cs & row & _ & _ & -> & Hc & _ & _)]; [done|].
    destruct Hrow as [r Hr]. pose proof (find_row_elem _ _ _ Hr) as [Hin Hrid].
    assert (Hne : row_id row <> id).
    { intros Heq. specialize (Hc r Hin). unfold schema_conflict in Hc. by rewrite Hrid, Heq, Z.eqb_refl in Hc. }
    split_and!; [|clear Hr|done].
    + unfold find_row. cbn [schema_rows set_claim_rows set_schema_rows snd]. rewrite find_first_app; [done|by exists r].
    + unfold claims_of. cbn [claim_rows set_claim_rows snd]. rewrite List.filter_app, (filter_none _ (claim_schemas_to_model_vec cs _)), app_nil_r; [done|].
      intros c Hx%model_vec_id. apply Z.eqb_neq. lia.
  - unfold delete_credential_schema_row, mbind, M_bind, get, throw.
    destruct (find_row (sc_id schema) d) as [row|] eqn:Hf; [|done]. apply find_row_elem in Hf as [_ Hr].
    case_bool_decide; [|done]. apply update_row_other. cbn [row_id set_deleted_at]. lia.
  - unfold update_credential_schema, mbind, M_bind, get, throw.
    destruct (find_row (usr_id request) d) as [row|] eqn:Hf; [|done]. apply find_row_elem in Hf as [_ Hr].
    pose proof (update_row_other id (updated_row request (schema_clock d) row) d ltac:(cbn [row_id updated_row]; lia)) as Hsame.
    destruct (update_row _ d) as [[[]|e|] d1]; cbn [snd] in *; [|done..].
    destruct (usr_claim_schemas request); [|done]. eapply same_schema_trans; [done|]. by apply insert_claims_other.
  - done.
Qed.

Lemma spares_rtc (id : Z) (d d' : SchemaDb) : rtc (spares id) d d' -> schema_wf d -> is_Some (find_row id d) ->
  same_schema id d d' /\ schema_wf d'.
Proof.
  induction 1 as [d|d d1 d' H1 _ IH]; [done|]. intros Hwf Hrow.
  pose proof (spares_same id d d1 Hwf Hrow H1) as Hs.
  destruct IH as [Hs' Hwf']; [eapply schema_step_wf; [by eapply spares_step|done]|by rewrite (proj1 Hs)|].
  split; [by eapply same_schema_trans|done].
Qed.

(** Claims that were stored in one go are read in their order. *)
Lemma model_vec_read (cs : list ClaimSchema) (id : Z) : Z.of_nat (length cs) <= 4294967296 ->
  csr_claim_schema <$> sort_by (fun a b => csr_order a <=? csr_order b) (claim_schemas_to_model_vec cs id) = cs.
Proof.
  intros Hlen. rewrite sort_by_sorted.
  - unfold claim_schemas_to_model_vec. rewrite fmap_imap. apply list_eq. intros i. rewrite list_lookup_imap. by destruct (cs !! i).
  - intros i a b Ha Hb. unfold claim_schemas_to_model_vec in *. rewrite list_lookup_imap in Ha, Hb.
    apply fmap_Some in Ha as (x & Hx%lookup_lt_Some & ->), Hb as (y & Hy%lookup_lt_Some & ->). cbn [csr_order]. unfold u32_wrap.
    apply Z.leb_le. rewrite !Z.mod_small by lia. lia.
Qed.
