(* ===== verification/SchemaService.v ===== *)
(** * The credential schema service

    Models [lib/one-core/src/service/credential_schema/service.rs] (create,
    get, delete, share) with [from_create_request_with_id] and the uniqueness
    check, on the repository of [SchemaStore.v]. The formatters are the class
    [SchemaProviders]; the schema ids and metadata claims of the formatters in
    [provider/credential_formatter] are definitions. *)

From S2P Require Import Prelude StatusBits KeySelection RevocationRepo RevocationMethod.
From S2P Require Import ListFilter Validity Paths Dcql DcqlSpec Datatypes CreateClaims SchemaClaims SchemaRequest SchemaStore.
#[local] Open Scope Z_scope.

(** ** Formatters *)

Record MetadataClaimSchema := mkMetadataClaim {
  mc_key : string;
  mc_data_type : string;
  mc_array : bool;
  mc_required : bool
}.

(** [CredentialFormatter]: what the service asks of it. *)
Record SchemaFormatter := mkSchemaFormatter {
  sf_capabilities : SchemaCapabilities;
  sf_metadata_claims : list MetadataClaimSchema;
  sf_credential_schema_id : Z -> CreateSchemaRequest -> string -> string + string
}.

Class SchemaProviders := {
  get_schema_formatter : string -> option SchemaFormatter;
  (** The operations of a revocation method. *)
  revocation_operations : string -> option (list Operation)
}.

Section formatters.
Context `{UuidSupply}.

(** The default of the trait, and the formatters that override it. *)
Definition default_schema_id (id : Z) (_ : CreateSchemaRequest) (core_base_url : string) : string + string :=
  inr (core_base_url ++ "/ssi/schema/v1/" ++ uuid_to_string id)%string.
Definition mdoc_schema_id (id : Z) (request : CreateSchemaRequest) (_ : string) : string + string :=
  inr (default (uuid_to_string id) (csr_schema_id request)).
Definition sdjwtvc_schema_id (id : Z) (request : CreateSchemaRequest) (core_base_url : string) : string + string :=
  inr (match csr_schema_id request with
       | Some schema_id => schema_id
       | None => core_base_url ++ "/ssi/vct/v1/" ++ uuid_to_string (csr_organisation_id request) ++ "/" ++
                 uuid_to_string id
       end)%string.

Definition mdoc_metadata_claims : list MetadataClaimSchema := [mkMetadataClaim "doctype" "STRING" false true].

(** ** Conversions *)

Definition claim_schema_from_metadata_claim_schema (id : Z) (m : MetadataClaimSchema) : ClaimSchema :=
  mkClaimSchema id (mc_key m) (mc_data_type m) (mc_array m) true (mc_required m).

Definition metadata_claim_schemas (next : nat) (claims : list MetadataClaimSchema) : list ClaimSchema :=
  imap (fun i m => claim_schema_from_metadata_claim_schema (uuid_at (next + i)) m) claims.

Definition from_create_request_with_id (id : Z) (request : CreateSchemaRequest) (organisation : Organisation)
  (schema_id imported_source_url : string) (now : Z) (next : nat) : res SchemaError Schema :=
  match csr_claims request with
  | [] => Err SeMissingClaimSchemas
  | _ =>
      Ok (mkSchema id None now now (csr_name request) (csr_format request) (csr_revocation_method request)
            (csr_key_storage_security request) (Some organisation)
            (Some (claim_schemas_of_request next (csr_claims request))) (csr_layout_type request)
            (csr_layout_properties request) schema_id imported_source_url
            (default false (csr_allow_suspension request)) (csr_requires_wallet_instance_attestation request)
            (csr_transaction_code request))
  end.

Definition with_metadata (schema : Schema) (claim_schemas : list ClaimSchema) : Schema :=
  mkSchema (sc_id schema) (sc_deleted_at schema) (sc_created_date schema) (sc_last_modified schema) (sc_name schema)
    (sc_format schema) (sc_revocation_method schema) (sc_key_storage_security schema) (sc_organisation schema)
    (Some claim_schemas) (sc_layout_type schema) (sc_layout_properties schema) (sc_schema_id schema)
    (sc_imported_source_url schema) (sc_allow_suspension schema) (sc_requires_wallet_instance_attestation schema)
    (sc_transaction_code schema).
End formatters.

(** [CredentialSchemaDetailResponseDTO]. *)
Record SchemaDetail := mkSchemaDetail {
  sd_id : Z;
  sd_created_date : Z;
  sd_last_modified : Z;
  sd_name : string;
  sd_format : string;
  sd_imported_source_url : string;
  sd_revocation_method : option string;
  sd_organisation_id : Z;
  sd_claims : list CredentialClaimSchemaDto;
  sd_key_storage_security : option KeyStorageSecurity;
  sd_schema_id : string;
  sd_layout_type : option LayoutType;
  sd_layout_properties : option LayoutProperties;
  sd_allow_suspension : bool;
  sd_requires_wallet_instance_attestation : bool;
  sd_transaction_code : option TransactionCode
}.

(** [impl TryFrom<CredentialSchema> for CredentialSchemaDetailResponseDTO]. *)
Definition detail_of_schema (value : Schema) : res SchemaError SchemaDetail :=
  claims ← map_err SeMissingParentClaimSchema (detail_claims (sc_claim_schemas value));
  organisation ← ok_or (sc_organisation value) (SeMappingError "Organisation has not been fetched");
  Ok (mkSchemaDetail (sc_id value) (sc_created_date value) (sc_last_modified value) (sc_name value) (sc_format value)
        (sc_imported_source_url value) (sc_revocation_method value) (org_id organisation) claims
        (sc_key_storage_security value) (sc_schema_id value) (Some (sc_layout_type value)) (sc_layout_properties value)
        (sc_allow_suspension value) (sc_requires_wallet_instance_attestation value) (sc_transaction_code value)).

(** ** Uniqueness *)

Inductive UniquenessCheckResult := SchemaIdConflict | NameConflict | Unique.

Definition create_unique_name_check_request (name : string) (schema_id : option string) (organisation_id : Z) :
  SchemaQuery :=
  mkSchemaQuery (Some (0, 1)%nat)
    (Some (bitand (LfValue (SfOrganisationId organisation_id))
             (bitor_option (LfValue (SfName name)) ((fun s => LfValue (SfSchemaId s)) <$> schema_id)))).

Section service.
Context `{ValueOps} `{UuidSupply} `{SchemaProviders}.
Context (any_empty : bool) (config : SchemaConfig) (core_base_url : option string) (session : option Session).

Definition credential_schema_already_exists (name : string) (schema_id : option string) (organisation_id : Z) :
  M SchemaDb SchemaError UniquenessCheckResult :=
  credential_schemas ← M_map_err SeData
    (get_credential_schema_list any_empty (create_unique_name_check_request name schema_id organisation_id));
  let name_conflict := if existsb (fun cs => String.eqb (sc_name cs) name) credential_schemas then NameConflict else Unique in
  mret match schema_id with
       | Some schema_id => if existsb (fun cs => String.eqb (sc_schema_id cs) schema_id) credential_schemas
                           then SchemaIdConflict else name_conflict
       | None => name_conflict
       end.

(** ** Operations *)

Definition draw_uuids (n : nat) : M SchemaDb SchemaError nat := fun d =>
  (Ok (schema_uuids d), set_uuids (schema_uuids d + n) d).

Definition create_credential_schema (request : CreateSchemaRequest) : M SchemaDb SchemaError Z :=
  _ ← lift (map_err SeSession (throw_if_org_not_matching_session (csr_organisation_id request) session));
  core_base_url ← lift (ok_or core_base_url (SeMappingError "Missing core base_url"));
  formatter ← lift (ok_or (get_schema_formatter (csr_format request)) (SeMissingFormat (csr_format request)));
  _ ← lift (validate_schema_request request config (sf_capabilities formatter) revocation_operations);
  unique ← credential_schema_already_exists (csr_name request) (csr_schema_id request) (csr_organisation_id request);
  _ ← lift (match unique with Unique => Ok tt | SchemaIdConflict | NameConflict => Err SeAlreadyExists end);
  _ ← lift (check_claims_presence_in_layout_properties request);
  _ ← lift (check_background_properties request);
  _ ← lift (check_logo_properties request);
  _ ← lift (validate_key_storage_security_supported (csr_key_storage_security request) config);
  found ← M_map_err SeData (get_organisation (csr_organisation_id request));
  organisation ← lift (ok_or found (SeMissingOrganisation (csr_organisation_id request)));
  _ ← lift (fail_if (bool_decide (is_Some (org_deactivated_at organisation)))
              (SeOrganisationIsDeactivated (csr_organisation_id request)));
  next ← draw_uuids 1;
  let id := uuid_at next in
  schema_id ← lift (map_err SeNested (of_sum (sf_credential_schema_id formatter id request core_base_url)));
  let imported_source_url := (core_base_url ++ "/ssi/schema/v1/" ++ uuid_to_string id)%string in
  d ← get;
  next ← draw_uuids (length (unnest_claim_schemas (csr_claims request)));
  schema ← lift (from_create_request_with_id id request organisation schema_id imported_source_url (schema_clock d) next);
  next ← draw_uuids (length (sf_metadata_claims formatter));
  let metadata_claims := metadata_claim_schemas next (sf_metadata_claims formatter) in
  claim_schemas ← lift (ok_or (sc_claim_schemas schema) (SeMappingError "Missing claim schemas"));
  M_map_err SeData (create_credential_schema_row (with_metadata schema (claim_schemas ++ metadata_claims))).

(** A schema that exists, of the organisation of the session. *)
Definition load_schema (relations : SchemaRelations) (id : Z) : M SchemaDb SchemaError Schema :=
  found ← M_map_err SeData (get_credential_schema_row id relations);
  schema ← lift (ok_or found (SeNotFound id));
  _ ← lift (map_err SeSession (throw_if_org_relation_not_matching_session (org_id <$> sc_organisation schema) session));
  mret schema.

Definition get_credential_schema (id : Z) : M SchemaDb SchemaError SchemaDetail :=
  schema ← load_schema (mkSchemaRelations true true) id;
  _ ← lift (fail_if (bool_decide (is_Some (sc_deleted_at schema))) (SeNotFound id));
  lift (detail_of_schema schema).

Definition delete_credential_schema (id : Z) : M SchemaDb SchemaError unit :=
  schema ← load_schema (mkSchemaRelations false true) id;
  M_map_err (fun e => match e with RecordNotUpdated => SeNotFound id | e => SeData e end)
    (delete_credential_schema_row schema).

Definition share_credential_schema (id : Z) : M SchemaDb SchemaError string :=
  schema ← load_schema (mkSchemaRelations true true) id;
  mret (sc_imported_source_url schema).
End service.

(** ** The uniqueness check *)

(** The live rows of an organisation with the name or the schema id. *)
Definition clashes (name : string) (schema_id : option string) (organisation_id : Z) (r : SchemaRow) : bool :=
  bool_decide (row_deleted_at r = None) && (row_organisation_id r =? organisation_id) &&
  (String.eqb (row_name r) name ||
   match schema_id with Some s => String.eqb (row_schema_id r) s | None => false end).

Lemma unique_request_selects (any_empty : bool) (name : string) (schema_id : option string) (organisation_id : Z) (r : SchemaRow) :
  bool_decide (row_deleted_at r = None) &&
  selects any_empty schema_condition (sq_filtering (create_unique_name_check_request name schema_id organisation_id)) r =
  clashes name schema_id organisation_id r.
Proof.
  unfold clashes, create_unique_name_check_request. cbn [sq_filtering]. rewrite bitand_sem.
  change (selects any_empty schema_condition (Some (LfValue (SfOrganisationId organisation_id))) r)
    with (row_organisation_id r =? organisation_id).
  rewrite <-andb_assoc. do 2 f_equal. destruct schema_id as [s|]; cbn [fmap option_fmap option_map bitor_option].
  - by rewrite bitor_sem.
  - by rewrite orb_false_r.
Qed.

(** The page of one row has a clashing row when there is one. *)
Lemma unique_rows (any_empty : bool) (name : string) (schema_id : option string) (organisation_id : Z) (d : SchemaDb) :
  match list_rows any_empty (create_unique_name_check_request name schema_id organisation_id) d with
  | [] => forall r, r ∈ schema_rows d -> clashes name schema_id organisation_id r = false
  | [r] => r ∈ schema_rows d /\ clashes name schema_id organisation_id r = true
  | _ => False
  end.
Proof.
  unfold list_rows. cbn [sq_pagination create_unique_name_check_request paginate].
  set (l := List.filter _ (schema_rows d)). pose proof (sort_by_perm newest_first l) as Hp.
  assert (Hl : forall r, r ∈ l <-> r ∈ schema_rows d /\ clashes name schema_id organisation_id r = true).
  { intros r. unfold l. rewrite list_elem_of_In, List.filter_In, <-list_elem_of_In. by rewrite unique_request_selects. }
  change (drop (0 * 1) (sort_by newest_first l)) with (sort_by newest_first l).
  destruct (sort_by newest_first l) as [|r rs]; cbn [take].
  - apply Permutation_nil in Hp. intros r Hr. apply not_true_is_false. intros Hc.
    assert (Hin : r ∈ l) by (by apply Hl). rewrite Hp in Hin. by apply elem_of_nil in Hin.
  - rewrite firstn_O. apply Hl. rewrite <-Hp. left.
Qed.

Lemma schema_of_row (d : SchemaDb) (r : SchemaRow) (cs : option (list ClaimSchema)) (o : option Organisation) (b : bool) :
  schema_wf d -> r ∈ schema_rows d -> exists s, credential_schema_from_models r cs o b = Ok s /\
    sc_id s = row_id r /\ sc_deleted_at s = row_deleted_at r /\ sc_created_date s = row_created_date r /\
    sc_last_modified s = row_last_modified r /\ sc_name s = row_name r /\ sc_format s = row_format r /\
    sc_revocation_method s = row_revocation_method r /\ sc_key_storage_security s = row_key_storage_security r /\
    sc_organisation s = o /\ sc_claim_schemas s = cs /\ sc_layout_type s = row_layout_type r /\
    sc_layout_properties s = (if b then None else row_layout_properties r) /\ sc_schema_id s = row_schema_id r /\
    sc_imported_source_url s = row_imported_source_url r /\ sc_allow_suspension s = row_allow_suspension r /\
    sc_requires_wallet_instance_attestation s = row_requires_wallet_instance_attestation r /\
    (forall code, row_transaction_code_type r = tc_type <$> code -> row_transaction_code_length r = tc_length <$> code ->
       row_transaction_code_description r = code ≫= tc_description -> sc_transaction_code s = code).
Proof.
  intros Hwf Hr. pose proof (wf_code d Hwf r Hr) as Hcode. unfold credential_schema_from_models.
  destruct (row_transaction_code_type r) as [ty|], (row_transaction_code_length r) as [len|]; cbn [mbind res_bind];
    [|by destruct Hcode as [_ Hcode]; specialize (Hcode eq_refl)|by destruct Hcode as [Hcode _]; specialize (Hcode eq_refl)|];
    eexists; (split; [reflexivity|]); split_and!; try done; intros [[ty' len' de]|]; cbn; try done.
  by intros [= ->] [= ->] ->.
Qed.

Lemma already_exists_spec `{UuidSupply} (any_empty : bool) (name : string) (schema_id : option string) (organisation_id : Z)
  (d : SchemaDb) : schema_wf d -> exists r, credential_schema_already_exists any_empty name schema_id organisation_id d = (Ok r, d) /\
    (r = Unique <-> forall row, row ∈ schema_rows d -> clashes name schema_id organisation_id row = false).
Proof.
  intros Hwf. unfold credential_schema_already_exists, get_credential_schema_list, M_map_err, mbind, M_bind, get, lift.
  pose proof (unique_rows any_empty name schema_id organisation_id d) as Hu.
  destruct (list_rows _ _ d) as [|r [|? ?]]; [| |done].
  - cbn [try_map map_err existsb]. eexists. split; [reflexivity|]. by destruct schema_id.
  - destruct Hu as [Hr Hc]. destruct (schema_of_row d r None None true Hwf Hr) as (s & Hs & _ & _ & _ & _ & Hname & _ & _ & _ & _ & _ & _ & _ & Hsid & _).
    cbn [try_map]. rewrite Hs. cbn [mbind res_bind map_err existsb]. rewrite Hname, Hsid, !orb_false_r. eexists. split; [reflexivity|].
    assert (Hno : ~ (forall row, row ∈ schema_rows d -> clashes name schema_id organisation_id row = false)).
    { intros Hall. specialize (Hall r Hr). congruence. }
    unfold clashes in Hc. apply andb_true_iff in Hc as [_ Hc].
    split; [|done]. destruct schema_id as [s'|]; destruct (String.eqb (row_name r) name); try done.
    + by destruct (String.eqb (row_schema_id r) s').
    + by destruct (String.eqb (row_schema_id r) s').
Qed.

(** ** Creation *)

Section creation.
Context `{ValueOps} `{UuidSupply} `{SchemaProviders}.
Context (any_empty : bool) (config : SchemaConfig) (core_base_url : option string) (session : option Session).

Definition same_tables (d d' : SchemaDb) : Prop :=
  schema_rows d' = schema_rows d /\ claim_rows d' = claim_rows d /\ organisations d' = organisations d.

(** The row of a request. *)
Record row_of_request (request : CreateSchemaRequest) (id : Z) (row : SchemaRow) : Prop := {
  ror_id : row_id row = id;
  ror_live : row_deleted_at row = None;
  ror_name : row_name row = csr_name request;
  ror_format : row_format row = csr_format request;
  ror_revocation : row_revocation_method row = csr_revocation_method request;
  ror_security : row_key_storage_security row = csr_key_storage_security request;
  ror_organisation : row_organisation_id row = csr_organisation_id request;
  ror_layout_type : row_layout_type row = csr_layout_type request;
  ror_layout : row_layout_properties row = csr_layout_properties request;
  ror_suspension : row_allow_suspension row = default false (csr_allow_suspension request);
  ror_wia : row_requires_wallet_instance_attestation row = csr_requires_wallet_instance_attestation request;
  ror_code_type : row_transaction_code_type row = tc_type <$> csr_transaction_code request;
  ror_code_length : row_transaction_code_length row = tc_length <$> csr_transaction_code request;
  ror_code_description : row_transaction_code_description row = csr_transaction_code request ≫= tc_description
}.

(** The schema of the request and its claims, the formatter's last, are the only
    new rows. *)
Definition schema_added (request : CreateSchemaRequest) (f : SchemaFormatter) (id : Z) (d d' : SchemaDb) : Prop :=
  exists row next next',
    row_of_request request id row /\ schema_rows d' = schema_rows d ++ [row] /\
    claim_rows d' = claim_rows d ++
      claim_schemas_to_model_vec (claim_schemas_of_request next (csr_claims request) ++
                                  metadata_claim_schemas next' (sf_metadata_claims f)) id /\
    organisations d' = organisations d.

(** What a request needs besides a free name. *)
Definition request_allowed (request : CreateSchemaRequest) (f : SchemaFormatter) (o : Organisation) : Prop :=
  throw_if_org_not_matching_session (csr_organisation_id request) session = Ok tt /\
  get_schema_formatter (csr_format request) = Some f /\
  validate_schema_request request config (sf_capabilities f) revocation_operations = Ok tt /\
  check_claims_presence_in_layout_properties request = Ok tt /\
  check_background_properties request = Ok tt /\ check_logo_properties request = Ok tt /\
  validate_key_storage_security_supported (csr_key_storage_security request) config = Ok tt /\
  org_id o = csr_organisation_id request /\ org_deactivated_at o = None.

(** *** The checks return or fail *)

Lemma key_length_no_panic (n : CredentialClaimSchemaRequest) : forall p, validate_key_length p n <> Panic.
Proof.
  induction n as [k d l IH] using node_induction. intros p. cbn [validate_key_length]. case_match; [done|].
  generalize (String.length k + nested_claim_marker_length)%nat as q. intros q. clear -IH.
  induction IH as [|x l Hx _ IHl]; [done|]. specialize (Hx q). destruct (validate_key_length q x); [exact IHl|done..].
Qed.

Lemma key_lengths_no_panic (l : list CredentialClaimSchemaRequest) (p : nat) : validate_key_lengths l p <> Panic.
Proof.
  induction l as [|n l IH]; [done|]. cbn [validate_key_lengths]. pose proof (key_length_no_panic n p).
  by destruct (validate_key_length p n).
Qed.

Lemma children_unique_no_panic (n : CredentialClaimSchemaRequest) : validate_children_keys_unique n <> Panic.
Proof.
  induction n as [k d l IH] using node_induction. cbn [validate_children_keys_unique]. case_match; [|done].
  induction IH as [|x l Hx _ IHl]; [done|]. destruct (validate_children_keys_unique x); [|done..]. cbn [mbind res_bind].
  apply IHl. apply bool_decide_eq_true in H2. apply bool_decide_eq_true. rewrite fmap_cons in H2. by apply NoDup_cons in H2 as [].
Qed.

Lemma each_unique_no_panic (l : list CredentialClaimSchemaRequest) : each_children_unique l <> Panic.
Proof.
  induction l as [|n l IH]; [done|]. cbn [each_children_unique]. pose proof (children_unique_no_panic n).
  by destruct (validate_children_keys_unique n).
Qed.

Lemma get_fields_no_panic {A : Type} (c : gmap string A) (k : string) : get_fields c k <> Panic.
Proof. unfold get_fields. no_panic. Qed.

Lemma get_if_enabled_no_panic {A : Type} (e : A -> bool) (c : gmap string A) (k : string) : get_if_enabled e c k <> Panic.
Proof. unfold get_if_enabled. no_panic. Qed.

Lemma validate_datatypes_no_panic (l : list string) (c : gmap string DatatypeFields) : validate_datatypes l c <> Panic.
Proof.
  induction l as [|x l IH]; [done|]. cbn [validate_datatypes]. pose proof (get_if_enabled_no_panic df_enabled c x) as Hx.
  by destruct (get_if_enabled df_enabled c x).
Qed.

#[local] Hint Resolve key_lengths_no_panic each_unique_no_panic get_fields_no_panic get_if_enabled_no_panic
  validate_datatypes_no_panic : core_db.

Lemma keys_unique_no_panic (l : list CredentialClaimSchemaRequest) : validate_claim_schema_keys_unique l <> Panic.
Proof. unfold validate_claim_schema_keys_unique. case_match; auto with core_db. Qed.

Lemma claims_no_panic (l : list CredentialClaimSchemaRequest) (caps : SchemaCapabilities) :
  try_map (validate_claim_schema config caps) l <> Panic.
Proof.
  apply try_map_no_panic. intros n _. unfold validate_claim_schema, validate_claim_schema_name, validate_claim_schema_type,
    validate_claims_schema_type_supported_by_formatter, validate_datatype_formatter_capabilities. no_panic.
Qed.

#[local] Hint Resolve keys_unique_no_panic claims_no_panic : core_db.

Lemma request_no_panic (request : CreateSchemaRequest) (caps : SchemaCapabilities) (ops : string -> option (list Operation)) :
  validate_schema_request request config caps ops <> Panic.
Proof.
  unfold validate_schema_request, validate_claim_names, validate_revocation_method_is_compatible_with_format,
    validate_revocation_method_is_compatible_with_suspension, validate_credential_design, validate_schema_id,
    validate_transaction_code. no_panic. apply try_map_no_panic. no_panic.
Qed.

Lemma layout_no_panic (request : CreateSchemaRequest) : check_claims_presence_in_layout_properties request <> Panic.
Proof.
  unfold check_claims_presence_in_layout_properties, handle_attribute_claim_validation.
  destruct (_ ≫= lp_primary_attribute), (_ ≫= lp_secondary_attribute), (_ ≫= lp_picture_attribute), (_ ≫= lp_code_attribute);
    no_panic.
Qed.

#[local] Hint Resolve request_no_panic layout_no_panic : core_db.

(** *** The outcome *)

(** A step that only returns or fails: its error leaves the tables alone. *)
Lemma lift_outcome {A B : Type} (m : res SchemaError A) (k : A -> M SchemaDb SchemaError B)
  (P : res SchemaError B * SchemaDb -> Prop) (d : SchemaDb) :
  m <> Panic -> (forall e, P (Err e, d)) -> (forall a, m = Ok a -> P (k a d)) -> P (mbind k (lift m) d).
Proof. intros Hp He Hok. unfold mbind, M_bind, lift. destruct m; [by apply Hok|apply He|done]. Qed.

(** A step that returns. *)
Lemma run_outcome {A B : Type} (m : M SchemaDb SchemaError A) (k : A -> M SchemaDb SchemaError B)
  (P : res SchemaError B * SchemaDb -> Prop) (d d' : SchemaDb) (a : A) :
  m d = (Ok a, d') -> P (k a d') -> P (mbind k m d).
Proof. unfold mbind, M_bind. by intros ->. Qed.

Lemma wf_set_uuids (n : nat) (d : SchemaDb) : schema_wf d -> schema_wf (set_uuids n d).
Proof. by intros []. Qed.

(** What is inserted in the end. *)
Lemma create_insert (request : CreateSchemaRequest) (f : SchemaFormatter) (o : Organisation) (id now : Z)
  (sid url : string) (next next' : nat) (d : SchemaDb) (schema : Schema) :
  schema_wf d -> org_id o = csr_organisation_id request ->
  from_create_request_with_id id request o sid url now next = Ok schema ->
  let cs := claim_schemas_of_request next (csr_claims request) ++ metadata_claim_schemas next' (sf_metadata_claims f) in
  let '(r, d') := create_credential_schema_row (with_metadata schema cs) d in
  match r with Ok id' => id' = id /\ schema_added request f id d d' | Err _ => d' = d | Panic => False end.
Proof.
  intros Hwf Ho Hs cs.
  destruct (create_row_cases (with_metadata schema cs) d Hwf) as [[e ->]|(cs' & row & Hcs & Hrow & -> & _)]; [done|].
  cbn [sc_claim_schemas with_metadata] in Hcs. injection Hcs as <-.
  unfold from_create_request_with_id in Hs. destruct (csr_claims request) as [|n l] eqn:Hc; [done|]. injection Hs as <-.
  unfold row_of_schema in Hrow. cbn [sc_organisation with_metadata ok_or mbind res_bind] in Hrow. injection Hrow as <-.
  cbn [row_id with_metadata sc_id]. split; [done|]. eexists _, next, next'. rewrite Hc. split_and!; [|reflexivity..]. by constructor.
Qed.

(** The outcome of a creation: the schema is there, or nothing has changed. *)
Definition creation_outcome (request : CreateSchemaRequest) (d : SchemaDb) (x : res SchemaError Z * SchemaDb) : Prop :=
  match x.1 with
  | Ok id =>
      exists f o, request_allowed request f o /\ o ∈ organisations d /\
        (forall row, row ∈ schema_rows d ->
           clashes (csr_name request) (csr_schema_id request) (csr_organisation_id request) row = false) /\
        schema_added request f id d x.2
  | Err _ => same_tables d x.2
  | Panic => False
  end.

Lemma create_outcome (request : CreateSchemaRequest) (d : SchemaDb) : schema_wf d ->
  creation_outcome request d (create_credential_schema any_empty config core_base_url session request d).
Proof.
  intros Hwf. unfold create_credential_schema. set (P := creation_outcome request d).
  assert (HP : forall e, P (Err e, d)) by (intros e; by split_and!).
  apply lift_outcome; [unfold throw_if_org_not_matching_session; no_panic|done|]. intros [] Hsess%map_err_ok.
  apply lift_outcome; [no_panic|done|]. intros url Hurl%ok_or_ok.
  apply lift_outcome; [no_panic|done|]. intros f Hf%ok_or_ok.
  apply lift_outcome; [auto with core_db|done|]. intros [] Hval.
  destruct (already_exists_spec any_empty (csr_name request) (csr_schema_id request) (csr_organisation_id request) d Hwf) as (u & Hu & Huq).
  eapply run_outcome; [exact Hu|].
  apply lift_outcome; [by destruct u|done|]. intros [] Hun.
  assert (u = Unique) as -> by (by destruct u). clear Hun Hu. destruct Huq as [Huq _]. specialize (Huq eq_refl).
  apply lift_outcome; [auto with core_db|done|]. intros [] Hlay.
  apply lift_outcome; [unfold check_background_properties; no_panic|done|]. intros [] Hbg.
  apply lift_outcome; [unfold check_logo_properties; no_panic|done|]. intros [] Hlogo.
  apply lift_outcome; [unfold validate_key_storage_security_supported; no_panic|done|]. intros [] Hkss.
  eapply run_outcome; [reflexivity|].
  apply lift_outcome; [no_panic|done|]. intros o Ho%ok_or_ok.
  apply find_first_Some in Ho as [Hoin Hoid%Z.eqb_eq].
  apply lift_outcome; [no_panic|done|]. intros [] Hact%fail_if_ok%bool_decide_eq_false.
  eapply run_outcome; [reflexivity|].
  apply lift_outcome; [no_panic|intros; by split_and!|]. intros sid Hsid.
  do 2 (eapply run_outcome; [reflexivity|]).
  apply lift_outcome; [unfold from_create_request_with_id; no_panic|intros; by split_and!|]. intros schema Hschema.
  eapply run_outcome; [reflexivity|].
  assert (Hcs : sc_claim_schemas schema = Some (claim_schemas_of_request (schema_uuids d + 1) (csr_claims request))).
  { unfold from_create_request_with_id in Hschema. destruct (csr_claims request); [done|]. by injection Hschema as <-. }
  rewrite Hcs. eapply run_outcome; [reflexivity|].
  match goal with |- P (M_map_err _ (create_credential_schema_row (with_metadata _ (_ ++ metadata_claim_schemas ?n _))) ?dd) =>
    pose proof (create_insert request f o _ _ _ _ _ n dd schema ltac:(by repeat apply wf_set_uuids) Hoid Hschema) as Hins
  end.
  unfold M_map_err. cbn [set_uuids] in *. destruct (create_credential_schema_row _ _) as [[id|e|] d']; cbn [map_err]; [|by subst|done].
  destruct Hins as [-> Hadd]. exists f, o. split_and!; [|done|done|exact Hadd].
  split_and!; try done. destruct (org_deactivated_at o); [|done]. exfalso. eauto.
Qed.
End creation.

(** ** Reading *)

Section reading.
Context `{ValueOps} `{UuidSupply} `{SchemaProviders}.
Context (any_empty : bool) (config : SchemaConfig) (core_base_url : option string) (session : option Session).

Lemma find_row_in (d : SchemaDb) (r : SchemaRow) : schema_wf d -> r ∈ schema_rows d -> find_row (row_id r) d = Some r.
Proof.
  intros Hwf Hr. pose proof (wf_ids d Hwf) as Hnd. unfold find_row. clear Hwf. induction (schema_rows d) as [|x l IH]; [by apply elem_of_nil in Hr|].
  rewrite fmap_cons in Hnd. apply NoDup_cons in Hnd as [Hnin Hnd]. rewrite find_first_cons.
  apply elem_of_cons in Hr as [->|Hr]; [by rewrite Z.eqb_refl|]. destruct (Z.eqb_spec (row_id x) (row_id r)) as [He|]; [|by apply IH].
  exfalso. apply Hnin. rewrite He. apply list_elem_of_fmap. by exists r.
Qed.

(** A row with its claims and organisation. *)
Lemma load_schema_loads (relations : SchemaRelations) (id : Z) (row : SchemaRow) (d : SchemaDb) : schema_wf d ->
  find_row id d = Some row -> with_organisation relations = true ->
  exists schema o, M_map_err SeData (get_credential_schema_row id relations) d = (Ok (Some schema), d) /\
    sc_organisation schema = Some o /\ org_id o = row_organisation_id row /\
    credential_schema_from_models row (if with_claim_schemas relations then Some (claim_schemas_of id d) else None)
      (Some o) false = Ok schema.
Proof.
  intros Hwf Hrow Horg. pose proof (find_row_elem _ _ _ Hrow) as [Hin _].
  destruct (wf_org d Hwf row Hin) as (o' & Ho' & Hid').
  assert (Ho : exists o, find_first (fun o => org_id o =? row_organisation_id row) (organisations d) = Some o).
  { destruct (find_first _ (organisations d)) as [o|] eqn:Hf; [by exists o|]. exfalso.
    apply list_elem_of_In, (List.find_none _ _ Hf o') in Ho'. by rewrite Hid', Z.eqb_refl in Ho'. }
  destruct Ho as [o Ho]. pose proof Ho as [_ Hoid%Z.eqb_eq]%find_first_Some.
  destruct (schema_of_row d row (if with_claim_schemas relations then Some (claim_schemas_of id d) else None) (Some o) false Hwf Hin)
    as (schema & Hs & _ & _ & _ & _ & _ & _ & _ & _ & Hso & _).
  exists schema, o. split_and!; [|done..].
  assert (Hro : related_organisation row relations d = (Ok (Some o), d)).
  { unfold related_organisation, get_organisation, mbind, M_bind, lift. rewrite Horg. by rewrite Ho. }
  unfold M_map_err, get_credential_schema_row, mbind, M_bind, get. rewrite Hrow, Hro. unfold lift. by rewrite Hs.
Qed.

Lemma load_schema_spec (relations : SchemaRelations) (id : Z) (row : SchemaRow) (d : SchemaDb) : schema_wf d ->
  find_row id d = Some row -> with_organisation relations = true ->
  throw_if_org_not_matching_session (row_organisation_id row) session = Ok tt ->
  exists schema o, load_schema session relations id d = (Ok schema, d) /\ org_id o = row_organisation_id row /\
    credential_schema_from_models row (if with_claim_schemas relations then Some (claim_schemas_of id d) else None) (Some o) false = Ok schema.
Proof.
  intros Hwf Hrow Horg Hsess. destruct (load_schema_loads relations id row d Hwf Hrow Horg) as (schema & o & Hg & Hso & Hoid & Hm).
  exists schema, o. split_and!; [|done|done].
  unfold load_schema, mbind, M_bind, lift. rewrite Hg. cbn [ok_or]. rewrite Hso. cbn [fmap option_fmap option_map].
  unfold throw_if_org_relation_not_matching_session. cbn [ok_or mbind res_bind]. by rewrite Hoid, Hsess.
Qed.

Lemma create_preserves_wf (request : CreateSchemaRequest) (d : SchemaDb) : schema_wf d ->
  schema_wf (create_credential_schema any_empty config core_base_url session request d).2.
Proof.
  set (P := fun d d' : SchemaDb => schema_wf d -> schema_wf d').
  assert (PreOrder P) as HP by (split; [by intros ? ?|intros ??? H1' H2' ?; by apply H2', H1']).
  assert (Hdraw : forall n, preserves P (draw_uuids n)) by (intros n s Hs; by apply wf_set_uuids).
  assert (Hcreate : forall s, preserves P (create_credential_schema_row s)) by (intros n s Hs; by apply create_row_wf).
  cut (preserves P (create_credential_schema any_empty config core_base_url session request)); [intros Hpre; apply Hpre|].
  unfold create_credential_schema, credential_schema_already_exists, get_credential_schema_list, get_organisation.
  repeat first [ apply Hcreate | apply Hdraw | apply (preserves_bind P); [|intros ?] | apply (preserves_lift P) | apply (preserves_ret P)
               | apply (preserves_map_err P) ].
  all: by intros s Hs.
Qed.
End reading.

(** ** Properties *)

(** The claims of a schema that was just created. *)
Lemma added_claims `{UuidSupply} (request : CreateSchemaRequest) (f : SchemaFormatter) (id : Z) (d d' : SchemaDb) :
  schema_wf d -> schema_wf d' -> schema_added request f id d d' ->
  exists row next next', row_of_request request id row /\ find_row id d' = Some row /\
    claims_of id d' = claim_schemas_to_model_vec (claim_schemas_of_request next (csr_claims request) ++
                        metadata_claim_schemas next' (sf_metadata_claims f)) id.
Proof.
  intros Hwf Hwf' (row & next & next' & Hrow & Hrows & Hclaims & _). exists row, next, next'. split_and!; [done| |].
  - rewrite <-(ror_id _ _ _ Hrow). apply find_row_in; [done|]. rewrite Hrows. apply elem_of_app. right. by apply list_elem_of_singleton.
  - unfold claims_of. rewrite Hclaims, List.filter_app, filter_none, filter_all; [done| |].
    + intros c Hc%model_vec_id. by apply Z.eqb_eq.
    + intros c Hc. apply Z.eqb_neq. intros Heq. destruct (wf_claims d Hwf c Hc) as (r & Hr & Hrid).
      pose proof (wf_ids d' Hwf') as Hnd. rewrite Hrows, fmap_app in Hnd. apply NoDup_app in Hnd as (_ & Hdis & _).
      apply (Hdis (row_id r)); [apply list_elem_of_fmap; by exists r|]. cbn.
      rewrite Hrid, Heq, (ror_id _ _ _ Hrow). by apply list_elem_of_singleton.
Qed.

Lemma user_claims_only `{UuidSupply} (next next' : nat) (claims : list CredentialClaimSchemaRequest) (ms : list MetadataClaimSchema) :
  List.filter (fun s => negb (cs_metadata s)) (claim_schemas_of_request next claims ++ metadata_claim_schemas next' ms) =
  claim_schemas_of_request next claims.
Proof.
  rewrite List.filter_app, filter_all, filter_none, app_nil_r; [done|..].
  - intros s (i & Hi)%list_elem_of_lookup. unfold metadata_claim_schemas in Hi. rewrite list_lookup_imap in Hi.
    by apply fmap_Some in Hi as (m & _ & ->).
  - intros s (i & Hi)%list_elem_of_lookup. unfold claim_schemas_of_request in Hi. rewrite list_lookup_imap in Hi.
    by apply fmap_Some in Hi as (m & _ & ->).
Qed.

Lemma detail_of_stored `{UuidSupply} (next next' : nat) (claims : list CredentialClaimSchemaRequest) (ms : list MetadataClaimSchema) :
  detail_claims (Some (claim_schemas_of_request next claims ++ metadata_claim_schemas next' ms)) =
  renest_claim_schemas (dto_of_schema <$> claim_schemas_of_request next claims).
Proof. unfold detail_claims. simpl. by rewrite user_claims_only. Qed.

(** Nesting the stored claims of an accepted request gives the request back. *)
Lemma accepted_roundtrip `{ValueOps} `{UuidSupply} (request : CreateSchemaRequest) (config : SchemaConfig)
  (caps : SchemaCapabilities) (operations_of : string -> option (list Operation)) (next : nat) :
  validate_schema_request request config caps operations_of = Ok tt ->
  exists l, renest_claim_schemas (dto_of_schema <$> claim_schemas_of_request next (csr_claims request)) = Ok l /\
    map_node dto_view <$> l = map_node request_view <$> csr_claims request.
Proof.
  intros Hacc. pose proof (accepted_forest request config caps operations_of Hacc) as Hok.
  destruct (relabel dto_view request_view (csr_claims request) _ (stored_entries next (csr_claims request)))
    as (l & Hun & Hl).
  exists l. split; [|done]. rewrite <-Hun. apply renest_unnest; [|pose proof (forest_height_depth l); lia].
  by rewrite <-(forest_ok_map dto_view), Hl, forest_ok_map.
Qed.

(** The detail of a live schema that can be loaded. *)
Lemma get_schema_spec (session : option Session) (id : Z) (schema : Schema) (o : Organisation)
  (l : list CredentialClaimSchemaDto) (d : SchemaDb) :
  load_schema session (mkSchemaRelations true true) id d = (Ok schema, d) -> sc_deleted_at schema = None ->
  detail_claims (sc_claim_schemas schema) = Ok l -> sc_organisation schema = Some o ->
  get_credential_schema session id d =
    (Ok (mkSchemaDetail (sc_id schema) (sc_created_date schema) (sc_last_modified schema) (sc_name schema)
           (sc_format schema) (sc_imported_source_url schema) (sc_revocation_method schema) (org_id o) l
           (sc_key_storage_security schema) (sc_schema_id schema) (Some (sc_layout_type schema))
           (sc_layout_properties schema) (sc_allow_suspension schema)
           (sc_requires_wallet_instance_attestation schema) (sc_transaction_code schema)), d).
Proof.
  intros Hload Hdel Hl Ho. unfold get_credential_schema, mbind, M_bind, lift. rewrite Hload, Hdel.
  unfold detail_of_schema. by rewrite Hl, Ho.
Qed.

(** Creating a schema either fails and leaves the tables as they were, or the
    request passes every check, the organisation is active and has no other schema
    of that name or schema id that is not deleted, and exactly the schema and its
    claims are added; the constraints of the tables hold afterwards. It never
    panics. *)
Theorem create_schema_correct `{ValueOps} `{UuidSupply} `{SchemaProviders} (any_empty : bool) (config : SchemaConfig)
  (core_base_url : option string) (session : option Session) (request : CreateSchemaRequest) (d : SchemaDb) :
  schema_wf d ->
  let outcome := create_credential_schema any_empty config core_base_url session request d in
  schema_wf outcome.2 /\ creation_outcome config session request d outcome.
Proof. intros Hwf. split; [by apply create_preserves_wf|by apply create_outcome]. Qed.


(** C38: Nesting the claims of a stored schema ends, whatever keys the table holds:
    with nested claims, or with the claim whose parent is missing. *)
Theorem nesting_terminates (claim_schemas : option (list ClaimSchema)) :
  detail_claims claim_schemas <> Panic /\ forall value : Schema, detail_of_schema value <> Panic.
Proof.
  assert (Hd : forall cs, detail_claims cs <> Panic).
  { intros cs. apply renest_ends; [|right; lia]. intros n (s & -> & _)%list_elem_of_fmap. done. }
  split; [apply Hd|]. intros value. unfold detail_of_schema. pose proof (Hd (sc_claim_schemas value)). no_panic.
Qed.

(** ** Deletion *)

Section deletion.
Context (session : option Session).

Definition mark_row_deleted (id now : Z) (r : SchemaRow) : SchemaRow :=
  if row_id r =? id then set_deleted_at (Some now) r else r.

(** Loading fails or returns the row. *)
Lemma load_schema_cases (relations : SchemaRelations) (id : Z) (d : SchemaDb) : schema_wf d -> with_organisation relations = true ->
  (exists e, load_schema session relations id d = (Err e, d)) \/
  exists schema row, load_schema session relations id d = (Ok schema, d) /\ find_row id d = Some row /\
    throw_if_org_not_matching_session (row_organisation_id row) session = Ok tt /\
    sc_id schema = id /\ sc_deleted_at schema = row_deleted_at row.
Proof.
  intros Hwf Horg. destruct (find_row id d) as [row|] eqn:Hrow.
  - pose proof (find_row_elem _ _ _ Hrow) as [Hin Hrid].
    destruct (throw_if_org_not_matching_session (row_organisation_id row) session) as [[]|e|] eqn:Hsess.
    + right. destruct (load_schema_spec session relations id row d Hwf Hrow Horg Hsess) as (schema & o & Hload & _ & Hm).
      destruct (schema_of_row d row (if with_claim_schemas relations then Some (claim_schemas_of id d) else None) (Some o) false Hwf Hin)
        as (schema' & Hs & Hid & Hdel & _).
      rewrite Hm in Hs. injection Hs as <-. exists schema, row. rewrite Hid, Hdel. split_and!; congruence.
    + left. exists (SeSession e). pose proof (load_schema_loads relations id row d Hwf Hrow Horg) as (schema & o & Hg & Ho & Hoid & _).
      unfold load_schema, mbind, M_bind, lift. rewrite Hg. cbn [ok_or]. rewrite Ho. cbn [fmap option_fmap option_map].
      unfold throw_if_org_relation_not_matching_session. cbn [ok_or mbind res_bind]. by rewrite Hoid, Hsess.
    + unfold throw_if_org_not_matching_session in Hsess. destruct session as [[[?|]]|]; [|done..]. cbn in Hsess.
      by destruct (negb _).
  - left. exists (SeNotFound id). unfold load_schema, mbind, M_bind, M_map_err, get_credential_schema_row, get, lift, mbind, M_bind.
    by rewrite Hrow.
Qed.

Lemma mark_is_update (id now : Z) (row : SchemaRow) (d : SchemaDb) : schema_wf d -> find_row id d = Some row ->
  (fun r => if row_id r =? row_id row then set_deleted_at (Some now) row else r) <$> schema_rows d =
  mark_row_deleted id now <$> schema_rows d.
Proof.
  intros Hwf Hrow. pose proof (find_row_elem _ _ _ Hrow) as [_ Hid]. rewrite Hid.
  apply list_fmap_ext. intros i r Hi. unfold mark_row_deleted. destruct (Z.eqb_spec (row_id r) id) as [He|]; [|done].
  apply list_elem_of_lookup_2, (find_row_in d r Hwf) in Hi. rewrite He in Hi. congruence.
Qed.

(** A deleted row is not found. *)
Lemma get_deleted (id : Z) (row : SchemaRow) (d : SchemaDb) : schema_wf d -> find_row id d = Some row ->
  is_Some (row_deleted_at row) -> throw_if_org_not_matching_session (row_organisation_id row) session = Ok tt ->
  get_credential_schema session id d = (Err (SeNotFound id), d).
Proof.
  intros Hwf Hrow Hdel Hsess.
  destruct (load_schema_cases (mkSchemaRelations true true) id d Hwf eq_refl) as [[e Hl]|(schema & row' & Hl & Hr' & _ & _ & Hd)].
  - destruct (load_schema_spec session (mkSchemaRelations true true) id row d Hwf Hrow eq_refl Hsess) as (s & o & Hl' & _). congruence.
  - unfold get_credential_schema, mbind, M_bind, lift. rewrite Hl, Hd. assert (row' = row) as -> by congruence.
    by rewrite bool_decide_eq_true_2.
Qed.
End deletion.

(** Deleting a schema either fails and changes nothing, or the schema was there,
    not deleted, and of the organisation of the session: then exactly its row is
    marked deleted, it can no longer be read, its name and schema id are free
    again, and a second deletion fails. The constraints hold afterwards. *)
Theorem delete_schema_correct (session : option Session) (id : Z) (d : SchemaDb) : schema_wf d ->
  let '(r, d') := delete_credential_schema session id d in
  schema_wf d' /\
  match r with
  | Ok _ =>
      (exists row, find_row id d = Some row /\ row_deleted_at row = None /\
         throw_if_org_not_matching_session (row_organisation_id row) session = Ok tt) /\
      schema_rows d' = mark_row_deleted id (schema_clock d) <$> schema_rows d /\
      claim_rows d' = claim_rows d /\ organisations d' = organisations d /\
      get_credential_schema session id d' = (Err (SeNotFound id), d') /\
      delete_credential_schema session id d' = (Err (SeNotFound id), d') /\
      forall r name schema_id org, r ∈ schema_rows d' -> row_id r = id -> clashes name schema_id org r = false
  | Err _ => d' = d
  | Panic => False
  end.
Proof.
  intros Hwf. pose proof (delete_row_wf) as Hdw. destruct (delete_credential_schema session id d) as [r d'] eqn:Hrun. revert Hrun.
  unfold delete_credential_schema at 1, mbind, M_bind.
  destruct (load_schema_cases session (mkSchemaRelations false true) id d Hwf eq_refl) as [[e ->]|(schema & row & -> & Hrow & Hsess & Hsid & _)].
  { by intros [= <- <-]. }
  unfold M_map_err. specialize (Hdw schema d Hwf).
  unfold delete_credential_schema_row, mbind, M_bind, get, throw in *. rewrite Hsid, Hrow in *.
  pose proof (find_row_elem _ _ _ Hrow) as [Hin Hid].
  case_bool_decide as Hlive; cbn [map_err]; [|by intros [= <- <-]].
  set (now := schema_clock d) in *. unfold update_row in *.
  destruct (existsb _ (schema_rows d)) eqn:Hex; cbn [map_err snd] in *; [by intros [= <- <-]|]. intros [= <- <-].
  pose proof (mark_is_update id now row d Hwf Hrow) as Hmark. cbn [row_id set_deleted_at] in Hdw. rewrite Hmark in *. set (d' := set_schema_rows _ d) in *.
  assert (Hrow' : find_row id d' = Some (set_deleted_at (Some now) row)).
  { rewrite <-Hid. change (row_id row) with (row_id (set_deleted_at (Some now) row)). apply find_row_in; [done|].
    cbn [schema_rows d' set_schema_rows]. apply list_elem_of_fmap. exists row. unfold mark_row_deleted. by rewrite Hid, Z.eqb_refl. }
  split_and!; [done|by exists row|done..| | |].
  - by apply (get_deleted session id (set_deleted_at (Some now) row)).
  - unfold delete_credential_schema, mbind, M_bind, M_map_err.
    destruct (load_schema_cases session (mkSchemaRelations false true) id d' Hdw eq_refl) as [[e Hl]|(s & row' & -> & Hr' & _ & Hs & _)].
    + destruct (load_schema_spec session (mkSchemaRelations false true) id _ d' Hdw Hrow' eq_refl Hsess) as (s & o & Hl' & _). congruence.
    + unfold delete_credential_schema_row, mbind, M_bind, get, throw. by rewrite Hs, Hrow'.
  - intros r name sid org (x & -> & Hx)%list_elem_of_fmap. unfold mark_row_deleted. destruct (Z.eqb_spec (row_id x) id); [|done].
    done.
Qed.

(** ** Witnesses *)

Module ServiceWitness.
Import CreateWitness SchemaWitness.
#[export] Instance schema_providers : SchemaProviders := {
  get_schema_formatter := fun format =>
    if String.eqb format "JWT" then Some (mkSchemaFormatter schema_caps [mkMetadataClaim "iss" "STRING" false true] default_schema_id)
    else None;
  revocation_operations := fun _ => None
}.
Definition empty_db : SchemaDb := mkSchemaDb [] [] [mkOrganisation 7 None] 100 0.
Definition the_request : CreateSchemaRequest := schema_request nested_claims.
Definition run_create (d : SchemaDb) : res SchemaError Z * SchemaDb :=
  create_credential_schema false schema_config (Some "https://core"%string) (Some (mkSession (Some 7))) the_request d.
Definition db1 : SchemaDb := (run_create empty_db).2.
Definition other_row : Schema :=
  mkSchema 99 None 101 101 "Other" "JWT" None None (Some (mkOrganisation 7 None)) (Some []) LayoutCard None "x" "y" false false None.

Lemma empty_db_wf : schema_wf empty_db.
Proof. constructor; cbn; first [apply NoDup_nil_2 | by intros ? ?%elem_of_nil | by intros ? ? ?%elem_of_nil]. Qed.
End ServiceWitness.
Import CreateWitness SchemaWitness ServiceWitness.

Lemma create_schema_correct_witness : (run_create empty_db).1 = Ok 0 /\ schema_wf db1 /\ length (schema_rows db1) = 1%nat.
Proof.
  split; [vm_compute; reflexivity|]. split; [|vm_compute; reflexivity].
  exact (proj1 (create_schema_correct false schema_config (Some "https://core"%string) (Some (mkSession (Some 7))) the_request
                  empty_db empty_db_wf)).
Defined.


Lemma delete_schema_correct_witness : exists d',
  delete_credential_schema None 0 db1 = (Ok tt, d') /\ schema_wf d' /\
  get_credential_schema None 0 d' = (Err (SeNotFound 0), d').
Proof.
  pose proof (delete_schema_correct None 0 db1 (create_preserves_wf false schema_config (Some "https://core"%string)
                (Some (mkSession (Some 7))) the_request empty_db empty_db_wf)) as Hdel.
  assert (Hok : (delete_credential_schema None 0 db1).1 = Ok tt) by (vm_compute; reflexivity).
  destruct (delete_credential_schema None 0 db1) as [r d']. cbn in Hok. subst r. exists d'.
  destruct Hdel as (Hwf & _ & _ & _ & _ & Hget & _). split; [reflexivity|]. split; [exact Hwf|exact Hget].
Defined.
