(* ===== verification/Cache.v ===== *)
(** * The caching loader

    Models [lib/one-core/src/provider/caching_loader/mod.rs]. The storage below
    it is the class [RemoteEntityStorage] of the operations of
    [provider/remote_entity_storage/mod.rs]; what the loader relies on is
    [StorageLaws], which [CacheStorage.v] discharges for the storages in memory
    and in the database. The clock is read anew at each step: [Readings] holds
    the readings of one call. The calls of the resolver are recorded. *)

From S2P Require Import Prelude.
#[local] Open Scope Z_scope.

(** ** Data *)

Inductive RemoteEntityType :=
| DidDocument | JsonLdContext | StatusListCredential | VctMetadata | JsonSchema | TrustList | X509Crl
| AndroidAttestationCrl | OpenIDMetadata.
#[export] Instance RemoteEntityType_eq_dec : EqDecision RemoteEntityType.
Proof. solve_decision. Defined.

Record RemoteEntity := mkRemoteEntity {
  re_last_modified : Z;
  re_expiration_date : option Z;  (** [None]: persistent *)
  re_entity_type : RemoteEntityType;
  re_key : string;
  re_value : list Z;
  re_last_used : Z;
  re_media_type : option string
}.
#[export] Instance RemoteEntity_eq_dec : EqDecision RemoteEntity.
Proof. solve_decision. Defined.

(** [RemoteEntityStorageError], without the messages. *)
Inductive StorageError := StDelete | StGetByKey | StGetStorageSize | StInsert | StNotUpdated.

Inductive ResolveResult :=
| NewValue (content : list Z) (media_type : option string) (expiry_date : option Z)
| LastModificationDateUpdate (value : Z).

(** The errors of [get]: the resolver's, and what the loader adds. *)
Inductive LoadError (E : Type) :=
| LeResolver (e : E)
| LeUnexpectedResolveResult
| LeStorage (e : StorageError).
Arguments LeResolver {E} _.
Arguments LeUnexpectedResolveResult {E}.
Arguments LeStorage {E} _.

(** [RemoteEntityStorage]; cleaning reads the clock. *)
Class RemoteEntityStorage (S : Type) := {
  get_by_key : string -> M S StorageError (option RemoteEntity);
  store_insert : RemoteEntity -> M S StorageError unit;
  delete_expired_or_least_used : Z -> RemoteEntityType -> Z -> M S StorageError unit;
  get_storage_size : RemoteEntityType -> M S StorageError Z
}.

(** [Resolver]. *)
Class Resolver (E : Type) := { do_resolve : string -> option Z -> E + ResolveResult }.

Record CachingLoader := mkCachingLoader {
  cl_remote_entity_type : RemoteEntityType;
  cl_cache_size : Z;
  cl_cache_refresh_timeout : Z;
  cl_refresh_after : Z
}.

(** The readings of the clock in a call of [get], in the order of the code. *)
Record Readings := mkReadings { t_check : Z; t_modified : Z; t_expiry : Z; t_used : Z; t_clean : Z }.

Inductive ContextRequiresUpdate := MustBeUpdated | CanBeUpdated | IsRecent.

Definition context_requires_update (now last_modified expiration_date refresh_after : Z) : ContextRequiresUpdate :=
  if expiration_date <? now then MustBeUpdated
  else if now - last_modified <=? refresh_after then IsRecent else CanBeUpdated.

(** ** The loader *)

(** A storage with the resolver calls made so far, the last one first. *)
Record Cached (S : Type) := mkCached { cache : S; calls : list (string * option Z) }.
Arguments mkCached {S} _ _.
Arguments cache {S} _.
Arguments calls {S} _.

Section loader.
Context {S E : Type} `{RemoteEntityStorage S} `{Resolver E}.
Context (self : CachingLoader).

Definition on_storage {A : Type} (m : M S StorageError A) : M (Cached S) StorageError A := fun s =>
  let '(r, c) := m (cache s) in (r, mkCached c (calls s)).

Definition resolve (url : string) (last_modified : option Z) : M (Cached S) (LoadError E) (E + ResolveResult) := fun s =>
  (Ok (do_resolve url last_modified), mkCached (cache s) ((url, last_modified) :: calls s)).

Definition effective_expiry (now : Z) (resolved_expiry : option Z) : option Z :=
  let default_exp := now + cl_cache_refresh_timeout self in
  match resolved_expiry with
  | Some exp => Some (Z.min exp default_exp)
  | None => Some default_exp
  end.

Definition new_cache_entry (t : Readings) (url : string) : M (Cached S) (LoadError E) (list Z * option string) :=
  result ← resolve url None;
  match result with
  | inl error => throw (LeResolver error)
  | inr (NewValue content media_type expiry_date) => fun s =>
      let entity := mkRemoteEntity (t_modified t) (effective_expiry (t_expiry t) expiry_date)
                      (cl_remote_entity_type self) url content (t_modified t) media_type in
      (** A failed insertion is only logged. *)
      (Ok (content, media_type), (on_storage (store_insert entity) s).2)
  | inr (LastModificationDateUpdate _) => throw LeUnexpectedResolveResult
  end.

(** The entry that is written back after the resolver answered. *)
Definition refreshed (t : Readings) (context : RemoteEntity) (answer : E + ResolveResult) : RemoteEntity :=
  match answer with
  | inr (NewValue content media_type expiry_date) =>
      mkRemoteEntity (t_modified t) (effective_expiry (t_expiry t) expiry_date) (re_entity_type context)
        (re_key context) content (re_last_used context) media_type
  | inr (LastModificationDateUpdate value) =>
      mkRemoteEntity value (re_expiration_date context) (re_entity_type context) (re_key context)
        (re_value context) (re_last_used context) (re_media_type context)
  | inl _ => context
  end.

Definition with_last_used (now : Z) (context : RemoteEntity) : RemoteEntity :=
  mkRemoteEntity (re_last_modified context) (re_expiration_date context) (re_entity_type context) (re_key context)
    (re_value context) now (re_media_type context).

(** [context.last_used = now] and the insertion; an entry that another thread
    deleted is not an error. *)
Definition store_context (t : Readings) (context : RemoteEntity) : M (Cached S) (LoadError E) (list Z * option string) :=
  fun s =>
  let context := with_last_used (t_used t) context in
  let '(r, s') := on_storage (store_insert context) s in
  match r with
  | Ok _ | Err StNotUpdated => (Ok (re_value context, re_media_type context), s')
  | Err e => (Err (LeStorage e), s')
  | Panic => (Panic, s')
  end.

Definition resolve_with_caching (t : Readings) (url : string) (cached_entry : RemoteEntity) :
  M (Cached S) (LoadError E) (list Z * option string) :=
  match re_expiration_date cached_entry with
  | None => mret (re_value cached_entry, re_media_type cached_entry)
  | Some expiration_date =>
      match context_requires_update (t_check t) (re_last_modified cached_entry) expiration_date (cl_refresh_after self) with
      | IsRecent => store_context t cached_entry
      | requires_update =>
          answer ← resolve url (Some (re_last_modified cached_entry));
          match answer, requires_update with
          | inl error, MustBeUpdated => throw (LeResolver error)
          | _, _ => store_context t (refreshed t cached_entry answer)
          end
      end
  end.

(** [locked]: whether another thread is cleaning; a failure is only logged. *)
Definition clean_old_entries_if_needed (locked : bool) (t : Readings) : M (Cached S) (LoadError E) unit := fun s =>
  (Ok tt, if locked then s
          else (on_storage (delete_expired_or_least_used (t_clean t) (cl_remote_entity_type self) (cl_cache_size self)) s).2).

(** The body of [get] after the lookup. *)
Definition load_entry (t : Readings) (url : string) (force_refresh : bool) (cached_entry_opt : option RemoteEntity) :
  M (Cached S) (LoadError E) (list Z * option string) :=
  match cached_entry_opt with
  | Some cached_entry =>
      let persistent := bool_decide (re_expiration_date cached_entry = None) in
      if force_refresh && negb persistent then new_cache_entry t url
      else resolve_with_caching t url cached_entry
  | None => new_cache_entry t url
  end.

Definition cache_get (locked : bool) (t : Readings) (url : string) (force_refresh : bool) :
  M (Cached S) (LoadError E) (list Z * option string) :=
  cached_entry_opt ← M_map_err LeStorage (on_storage (get_by_key url));
  result ← load_entry t url force_refresh cached_entry_opt;
  _ ← clean_old_entries_if_needed locked t;
  mret result.

Definition get_if_cached (key : string) : M (Cached S) (LoadError E) (option (list Z)) :=
  entity ← M_map_err LeStorage (on_storage (get_by_key key));
  mret (re_value <$> entity).
End loader.

(** ** What the loader relies on *)

(** Entries of a type that are persistent, or that have not expired. *)
Definition is_persistent (e : RemoteEntity) : bool := bool_decide (re_expiration_date e = None).
Definition of_type (ty : RemoteEntityType) (e : RemoteEntity) : bool := bool_decide (re_entity_type e = ty).
Definition not_expired (now : Z) (e : RemoteEntity) : bool :=
  match re_expiration_date e with Some x => now <=? x | None => true end.
Definition count_where (p : RemoteEntity -> bool) (m : gmap string RemoteEntity) : nat :=
  size (filter (fun ke => p ke.2 = true) m).

(** What cleaning does: expired entries of the type are gone, others are only
    removed to get down to the size and not below it, the least recently used
    ones first, and
    persistent entries and entries of other types stay. *)
Record cleaned (now : Z) (ty : RemoteEntityType) (target : Z) (m m' : gmap string RemoteEntity) : Prop := {
  cl_sub : m' ⊆ m;
  cl_keeps : forall k e, m !! k = Some e -> of_type ty e = false \/ is_persistent e = true -> m' !! k = Some e;
  cl_expired : forall k e, m' !! k = Some e -> of_type ty e = true -> not_expired now e = true;
  cl_size : Z.of_nat (count_where (of_type ty) m') <= target \/
            forall k e, m' !! k = Some e -> of_type ty e = true -> is_persistent e = true;
  cl_needed : forall k e x, m !! k = Some e -> re_expiration_date e = Some x -> now < x -> m' !! k = None ->
              target <= Z.of_nat (count_where (of_type ty) m');
  cl_least_used : forall k e x k' e', m !! k = Some e -> re_expiration_date e = Some x -> now < x -> m' !! k = None ->
              m' !! k' = Some e' -> of_type ty e' = true -> is_persistent e' = false -> re_last_used e <= re_last_used e'
}.

(** The entries of a storage, and its own invariant. *)
Class StorageView (S : Type) := { view : S -> gmap string RemoteEntity; good : S -> Prop }.

Class StorageLaws (S : Type) `{RemoteEntityStorage S} `{StorageView S} : Prop := {
  law_keys : forall s k e, good s -> view s !! k = Some e -> re_key e = k;
  law_get : forall k s, good s -> let '(r, s') := get_by_key k s in
    s' = s /\ match r with Ok o => o = view s !! k | Err _ => True | Panic => False end;
  law_insert : forall e s, good s -> let '(r, s') := store_insert e s in
    good s' /\ match r with Ok _ => view s' = <[re_key e := e]> (view s) | Err _ => view s' = view s | Panic => False end;
  law_clean : forall now ty target s, good s -> 0 <= target < 4294967296 ->
    let '(r, s') := delete_expired_or_least_used now ty target s in
    good s' /\ view s' ⊆ view s /\
    match r with
    | Ok _ => Z.of_nat (size (view s)) < 4294967296 -> cleaned now ty target (view s) (view s')
    | Err _ => True
    | Panic => False
    end
}.

(** ** The meaning of a call *)

Section meaning.
Context {S E : Type} `{HS : RemoteEntityStorage S} `{HV : StorageView S} `{!StorageLaws S}.
Context (self : CachingLoader) (Hsize : 0 <= cl_cache_size self < 4294967296).

(** What the loader does with what is cached. *)
Inductive Decision := UseCached (e : RemoteEntity) | Refresh (e : RemoteEntity) (must : bool) | FetchNew.

Definition decision (cached : option RemoteEntity) (force : bool) (now : Z) : Decision :=
  match cached with
  | None => FetchNew
  | Some e =>
      match re_expiration_date e with
      | None => UseCached e
      | Some x => if force then FetchNew
                  else match context_requires_update now (re_last_modified e) x (cl_refresh_after self) with
                       | IsRecent => UseCached e
                       | MustBeUpdated => Refresh e true
                       | CanBeUpdated => Refresh e false
                       end
      end
  end.

(** The call of the resolver, if any, and the answer of the loader to it. *)
Definition asked (url : string) (d : Decision) : option (string * option Z) :=
  match d with
  | UseCached _ => None
  | Refresh e _ => Some (url, Some (re_last_modified e))
  | FetchNew => Some (url, None)
  end.

Definition answered (d : Decision) (answer : E + ResolveResult) : res (LoadError E) (list Z * option string) :=
  match d, answer with
  | UseCached e, _ => Ok (re_value e, re_media_type e)
  | _, inr (NewValue content media_type _) => Ok (content, media_type)
  | Refresh e _, inr (LastModificationDateUpdate _) => Ok (re_value e, re_media_type e)
  | Refresh e true, inl error => Err (LeResolver error)
  | Refresh e false, inl _ => Ok (re_value e, re_media_type e)
  | FetchNew, inr (LastModificationDateUpdate _) => Err LeUnexpectedResolveResult
  | FetchNew, inl error => Err (LeResolver error)
  end.

(** The entry that is written. *)
Definition written (t : Readings) (url : string) (d : Decision) (answer : E + ResolveResult) : option RemoteEntity :=
  match d with
  | UseCached e => if is_persistent e then None else Some (with_last_used (t_used t) e)
  | Refresh e must => match answer with
                      | inl _ => if must then None else Some (with_last_used (t_used t) e)
                      | _ => Some (with_last_used (t_used t) (refreshed self t e answer))
                      end
  | FetchNew => match answer with
                | inr (NewValue content media_type expiry_date) =>
                    Some (mkRemoteEntity (t_modified t) (effective_expiry self (t_expiry t) expiry_date)
                            (cl_remote_entity_type self) url content (t_modified t) media_type)
                | _ => None
                end
  end.

Definition resolver_answer `{Resolver E} (url : string) (d : Decision) : E + ResolveResult :=
  match asked url d with
  | Some (url, last_modified) => do_resolve url last_modified
  | None => inr (LastModificationDateUpdate 0)
  end.

Definition put_entry (o : option RemoteEntity) (m : gmap string RemoteEntity) : gmap string RemoteEntity :=
  match o with Some e => <[re_key e := e]> m | None => m end.

(** The outcome of a call on the entries [m]. *)
Definition get_outcome `{Resolver E} (t : Readings) (url : string) (force : bool) (s : Cached S)
  (r : res (LoadError E) (list Z * option string)) (s' : Cached S) : Prop :=
  let m := view (cache s) in
  let d := decision (m !! url) force (t_check t) in
  let answer := resolver_answer url d in
  good (cache s') /\
  ((exists e, r = Err (LeStorage e) /\ view (cache s') = m /\ (calls s' = calls s \/ exists q, asked url d = Some q /\ calls s' = q :: calls s)) \/
   (r = answered d answer /\ calls s' = option_list (asked url d) ++ calls s /\
    exists m1, (m1 = m \/ m1 = put_entry (written t url d answer) m) /\ view (cache s') ⊆ m1 /\
      (is_ok r = false -> view (cache s') = m1))).

(** *** The code does what is meant *)

Section correct.
Context `{HR : Resolver E}.

Lemma on_storage_get (url : string) (s : Cached S) : good (cache s) ->
  (exists e, on_storage (get_by_key url) s = (Err e, s)) \/ on_storage (get_by_key url) s = (Ok (view (cache s) !! url), s).
Proof.
  intros Hg. pose proof (law_get url (cache s) Hg) as Hl. unfold on_storage. destruct s as [c l]. cbn [cache calls] in *.
  destruct (get_by_key url c) as [[o|e|] c']; destruct Hl as [-> Hl]; [subst; by right|left; by exists e|done].
Qed.

Lemma on_storage_insert (e : RemoteEntity) (s : Cached S) : good (cache s) ->
  exists r s', on_storage (store_insert e) s = (r, s') /\ good (cache s') /\ calls s' = calls s /\ r <> Panic /\
    view (cache s') = (if is_ok r then <[re_key e := e]> (view (cache s)) else view (cache s)).
Proof.
  intros Hg. pose proof (law_insert e (cache s) Hg) as Hl. unfold on_storage.
  destruct (store_insert e (cache s)) as [r c']. destruct Hl as [Hg' Hl]. exists r, (mkCached c' (calls s)).
  split_and!; [done|done|done|by destruct r|]. cbn [cache]. by destruct r.
Qed.

Lemma clean_sub (locked : bool) (t : Readings) (s : Cached S) : good (cache s) ->
  exists s', clean_old_entries_if_needed (E := E) self locked t s = (Ok tt, s') /\ good (cache s') /\ calls s' = calls s /\
    view (cache s') ⊆ view (cache s).
Proof.
  intros Hg. unfold clean_old_entries_if_needed. eexists. split; [reflexivity|]. destruct locked; [done|].
  pose proof (law_clean (t_clean t) (cl_remote_entity_type self) (cl_cache_size self) (cache s) Hg Hsize) as Hl.
  unfold on_storage. destruct (delete_expired_or_least_used _ _ _ (cache s)) as [r c']. cbn [cache calls snd].
  by destruct Hl as (Hg' & Hl & _).
Qed.

(** The part of a call before the cleaning. *)
Definition body_outcome (t : Readings) (url : string) (force : bool) (s : Cached S)
  (r : res (LoadError E) (list Z * option string)) (s' : Cached S) : Prop :=
  let m := view (cache s) in
  let d := decision (m !! url) force (t_check t) in
  let answer := resolver_answer url d in
  good (cache s') /\
  ((exists e, r = Err (LeStorage e) /\ view (cache s') = m /\
      (calls s' = calls s \/ exists q, asked url d = Some q /\ calls s' = q :: calls s)) \/
   (r = answered d answer /\ calls s' = option_list (asked url d) ++ calls s /\
    (view (cache s') = m \/ view (cache s') = put_entry (written t url d answer) m))).

Lemma store_context_outcome (t : Readings) (e : RemoteEntity) (s : Cached S) : good (cache s) ->
  exists r s', store_context (E := E) t e s = (r, s') /\ good (cache s') /\ calls s' = calls s /\
    ((exists err, r = Err (LeStorage err) /\ view (cache s') = view (cache s)) \/
     (r = Ok (re_value e, re_media_type e) /\
      (view (cache s') = view (cache s) \/ view (cache s') = <[re_key e := with_last_used (t_used t) e]> (view (cache s))))).
Proof.
  intros Hg. unfold store_context.
  destruct (on_storage_insert (with_last_used (t_used t) e) s Hg) as (r & s' & -> & Hg' & Hc & Hnp & Hv).
  destruct r as [[]|err|]; [|destruct err|done]; eexists _, s'; (split; [reflexivity|]); split_and!; try done; cbn [is_ok] in Hv; eauto.
Qed.

Lemma new_entry_outcome (t : Readings) (url : string) (s : Cached S) : good (cache s) ->
  exists r s', new_cache_entry (E := E) self t url s = (r, s') /\ good (cache s') /\
    let answer := do_resolve url None in
    r = answered FetchNew answer /\ calls s' = (url, None) :: calls s /\
    (view (cache s') = view (cache s) \/ view (cache s') = put_entry (written t url FetchNew answer) (view (cache s))).
Proof.
  intros Hg. unfold new_cache_entry, mbind, M_bind, resolve. cbn [fst snd].
  destruct (do_resolve url None) as [error|[content media expiry|value]].
  - eexists _, _. split; [reflexivity|]. split_and!; [done..|by left].
  - set (s1 := mkCached _ _). eexists _, _. split; [reflexivity|].
    destruct (on_storage_insert (mkRemoteEntity (t_modified t) (effective_expiry self (t_expiry t) expiry)
      (cl_remote_entity_type self) url content (t_modified t) media) s1 Hg) as (r & s' & -> & Hg' & Hc & _ & Hv).
    cbn [snd]. split_and!; [done|done|by rewrite Hc|]. destruct (is_ok r); [right|left]; exact Hv.
  - eexists _, _. split; [reflexivity|]. split_and!; [done..|by left].
Qed.

Lemma cached_outcome (t : Readings) (url : string) (e : RemoteEntity) (s : Cached S) : good (cache s) -> re_key e = url ->
  exists r s', resolve_with_caching (E := E) self t url e s = (r, s') /\ good (cache s') /\
    let d := decision (Some e) false (t_check t) in
    let answer := resolver_answer url d in
    calls s' = option_list (asked url d) ++ calls s /\
    ((exists err, r = Err (LeStorage err) /\ view (cache s') = view (cache s)) \/
     (r = answered d answer /\
      (view (cache s') = view (cache s) \/ view (cache s') = put_entry (written t url d answer) (view (cache s))))).
Proof.
  intros Hg Hkey. unfold resolve_with_caching, decision.
  destruct (re_expiration_date e) as [x|] eqn:Hx.
  2: { eexists _, s. split; [reflexivity|]. split_and!; [done..|]. right. split; [done|by left]. }
  assert (Hnp : is_persistent e = false) by (unfold is_persistent; rewrite Hx; done).
  destruct (context_requires_update _ _ _ _) eqn:Hreq.
  - (* must *) unfold mbind, M_bind, resolve. set (s1 := mkCached _ _). cbn [asked resolver_answer].
    change (resolver_answer url (Refresh e true)) with (do_resolve url (Some (re_last_modified e))).
    destruct (do_resolve url (Some (re_last_modified e))) as [error|answer].
    + eexists _, s1. split; [reflexivity|]. split_and!; [done..|]. right. split; [done|by left].
    + destruct (store_context_outcome t (refreshed self t e (inr answer : E + _)) s1 Hg) as (r & s' & Hrun & Hg' & Hc & Hout).
      exists r, s'. split; [destruct answer; exact Hrun|]. split_and!; [done|done|].
      destruct Hout as [Herr|[-> Hv]]; [by left|right]. split; [by destruct answer|]. destruct Hv as [Hv|Hv]; [by left|right].
      cbn [written put_entry]. by destruct answer.
  - (* can *) unfold mbind, M_bind, resolve. set (s1 := mkCached _ _). cbn [asked].
    change (resolver_answer url (Refresh e false)) with (do_resolve url (Some (re_last_modified e))).
    destruct (store_context_outcome t (refreshed self t e (do_resolve url (Some (re_last_modified e)))) s1 Hg) as (r & s' & Hrun & Hg' & Hc & Hout).
    exists r, s'. split; [by destruct (do_resolve _ _)|]. split_and!; [done|done|].
    destruct Hout as [Herr|[-> Hv]]; [by left|right]. destruct (do_resolve url (Some (re_last_modified e))) as [error|[]];
      (split; [done|]); (destruct Hv as [Hv|Hv]; [by left|by right]).
  - (* recent *) destruct (store_context_outcome t e s Hg) as (r & s' & -> & Hg' & Hc & Hout).
    exists r, s'. split; [reflexivity|]. split_and!; [done|done|]. destruct Hout as [Herr|[-> Hv]]; [by left|right].
    split; [done|]. cbn [written]. rewrite Hnp. destruct Hv as [Hv|Hv]; [by left|by right].
Qed.

Lemma load_entry_outcome (t : Readings) (url : string) (force : bool) (s : Cached S) : good (cache s) ->
  let m := view (cache s) in
  let d := decision (m !! url) force (t_check t) in
  exists r1 s1, load_entry self t url force (m !! url) s = (r1, s1) /\ good (cache s1) /\
      ((exists err, r1 = Err (LeStorage err) /\ view (cache s1) = m /\ calls s1 = option_list (asked url d) ++ calls s) \/
       (r1 = answered d (resolver_answer url d) /\ calls s1 = option_list (asked url d) ++ calls s /\
        (view (cache s1) = m \/ view (cache s1) = put_entry (written t url d (resolver_answer url d)) m))).
Proof.
  intros Hg m d. unfold d, decision, load_entry. destruct (m !! url) as [e|] eqn:Hm.
  - assert (Hkey : re_key e = url) by (by eapply law_keys).
    destruct (re_expiration_date e) as [x|] eqn:Hx.
    + destruct force; cbn [andb bool_decide decide negb].
      * destruct (new_entry_outcome t url s Hg) as (r & s' & Hr & Hg' & Ho). exists r, s'. split_and!; [done..|]. by right.
      * destruct (cached_outcome t url e s Hg Hkey) as (r & s' & Hr & Hg' & Ho). unfold decision in Ho. rewrite Hx in Ho.
        exists r, s'. split_and!; [done..|]. destruct Ho as [Hc [(err & He & Hv)|[Ha Hv]]]; [left; by exists err|by right].
    + rewrite bool_decide_eq_true_2 by done. rewrite andb_false_r.
      destruct (cached_outcome t url e s Hg Hkey) as (r & s' & Hr & Hg' & Ho). unfold decision in Ho. rewrite Hx in Ho.
      exists r, s'. split_and!; [done..|]. destruct Ho as [Hc [(err & He & Hv)|[Ha Hv]]]; [left; by exists err|by right].
  - destruct (new_entry_outcome t url s Hg) as (r & s' & Hr & Hg' & Ho). exists r, s'. split_and!; [done..|]. by right.
Qed.

Lemma cache_get_outcome (locked : bool) (t : Readings) (url : string) (force : bool) (s : Cached S) : good (cache s) ->
  let '(r, s') := cache_get self locked t url force s in get_outcome t url force s r s'.
Proof.
  intros Hg. unfold cache_get, mbind, M_bind, M_map_err. unfold get_outcome. set (m := view (cache s)).
  destruct (on_storage_get url s Hg) as [[e ->]| ->]; cbn [map_err].
  { split; [done|]. left. exists e. split_and!; [done..|by left]. }
  destruct (load_entry_outcome t url force s Hg) as (r1 & s1 & -> & Hg1 & Hout).
  fold m in Hout |- *. set (d := decision (m !! url) force (t_check t)) in *.
  destruct r1 as [v|e|].
  - destruct (clean_sub locked t s1 Hg1) as (s2 & -> & Hg2 & Hc2 & Hsub). split; [done|].
    destruct Hout as [(err & ? & _)|(Hr & Hc & Hv)]; [done|]. right. split_and!; [done|by rewrite Hc2|].
    exists (view (cache s1)). split_and!; [destruct Hv; auto|done|done].
  - split; [done|]. destruct Hout as [(err & Hr & Hv & Hc)|(Hr & Hc & Hv)].
    + left. exists err. split_and!; [done..|]. unfold asked in Hc |- *. destruct d; [by left|right; eauto..].
    + right. split_and!; [done..|]. exists (view (cache s1)). split_and!; [destruct Hv; auto|done|done].
  - destruct Hout as [(err & ? & _)|(Hr & _)]; [done|]. exfalso. unfold answered in Hr.
    destruct d as [e|e [|]|]; [done|..]; revert Hr; by destruct (resolver_answer url _) as [|[]].
Qed.
End correct.
End meaning.

(** ** Staleness over any use of the cache *)

(** What a resolver delivered, and when. *)
Record Fetch := mkFetch { f_url : string; f_value : list Z; f_media : option string; f_time : Z }.

(** The cache with the fetches so far and the time of the last step. *)
Record World (S : Type) := mkWorld { w_cache : Cached S; w_history : list Fetch; w_now : Z }.
Arguments mkWorld {S} _ _ _.
Arguments w_cache {S} _.
Arguments w_history {S} _.
Arguments w_now {S} _.

Definition in_order (from : Z) (t : Readings) : Prop :=
  from <= t_check t /\ t_check t <= t_modified t /\ t_modified t <= t_expiry t /\ t_expiry t <= t_used t /\ t_used t <= t_clean t.

Section staleness.
Context {S E : Type} `{HS : RemoteEntityStorage S} `{HV : StorageView S} `{!StorageLaws S}.
Context (timeout : Z).

Definition delivered (t : Readings) (url : string) (answer : E + ResolveResult) : list Fetch :=
  match answer with inr (NewValue content media_type _) => [mkFetch url content media_type (t_expiry t)] | _ => [] end.

(** Calls of loaders that share the storage, with any resolvers, and the
    preloading of persistent entries. *)
Inductive cache_step (w : World S) : World S -> Prop :=
| StepGet (R : Resolver E) self locked t url force r c :
    0 <= cl_cache_size self < 4294967296 -> cl_cache_refresh_timeout self <= timeout -> in_order (w_now w) t ->
    cache_get self locked t url force (w_cache w) = (r, c) ->
    cache_step w (mkWorld c (delivered t url (resolver_answer url (decision self (view (cache (w_cache w)) !! url) force (t_check t)))
                             ++ w_history w) (t_clean t))
| StepPreload e now : re_expiration_date e = None -> w_now w <= now ->
    cache_step w (mkWorld (on_storage (store_insert e) (w_cache w)).2 (w_history w) now).

(** Every entry that expires was fetched, at most [timeout] before it expires. *)
Definition backed (history : list Fetch) (e : RemoteEntity) : Prop :=
  forall x, re_expiration_date e = Some x ->
    exists f, f ∈ history /\ f_url f = re_key e /\ f_value f = re_value e /\ f_media f = re_media_type e /\ x <= f_time f + timeout.

Record world_ok (w : World S) : Prop := {
  wo_good : good (cache (w_cache w));
  wo_backed : forall k e, view (cache (w_cache w)) !! k = Some e -> backed (w_history w) e;
  wo_past : forall f, f ∈ w_history w -> f_time f <= w_now w
}.

Lemma backed_mono (h h' : list Fetch) (e : RemoteEntity) : backed h e -> backed (h' ++ h) e.
Proof. intros He x Hx. destruct (He x Hx) as (f & Hf & Hrest). exists f. split; [apply elem_of_app; by right|done]. Qed.

Lemma effective_expiry_bound (self : CachingLoader) (now : Z) (exp : option Z) (x : Z) : cl_cache_refresh_timeout self <= timeout ->
  effective_expiry self now exp = Some x -> x <= now + timeout.
Proof. intros Ht. unfold effective_expiry. destruct exp; intros [= <-]; lia. Qed.

(** What a call writes is backed by what it fetched or by what was cached. *)
Lemma written_backed (R : Resolver E) (self : CachingLoader) (t : Readings) (url : string) (force : bool) (h : list Fetch)
  (m : gmap string RemoteEntity) (e : RemoteEntity) : cl_cache_refresh_timeout self <= timeout ->
  (forall k e, m !! k = Some e -> backed h e) -> (forall k e, m !! k = Some e -> re_key e = k) ->
  let d := decision self (m !! url) force (t_check t) in
  written self t url d (resolver_answer url d) = Some e -> backed (delivered t url (resolver_answer url d) ++ h) e.
Proof.
  intros Ht Hm Hkeys d Hw.
  assert (Hold : forall e', m !! url = Some e' -> forall n, backed (delivered t url (resolver_answer url d) ++ h) (with_last_used n e')).
  { intros e' He' n. apply backed_mono. exact (Hm url e' He'). }
  assert (Hd : forall e', d = UseCached e' \/ (exists b, d = Refresh e' b) -> m !! url = Some e').
  { intros e'. unfold d, decision. destruct (m !! url) as [e0|]; [|by intros [|[]]]. destruct (re_expiration_date e0); [|by intros [[= ->]|[? ?]]].
    destruct force; [by intros [|[]]|]. destruct (context_requires_update _ _ _ _); naive_solver. }
  unfold written in Hw. destruct d as [e'|e' must|] eqn:Hdd.
  - destruct (is_persistent e'); [done|]. injection Hw as <-. apply Hold, Hd. by left.
  - assert (Hin : m !! url = Some e') by (apply Hd; right; by exists must). pose proof (Hkeys _ _ Hin) as Hk.
    destruct (resolver_answer url (Refresh e' must)) as [err|[c md ex|v]] eqn:Ha.
    + destruct must; [done|]. injection Hw as <-. by apply Hold.
    + injection Hw as <-. intros x Hx. exists (mkFetch url c md (t_expiry t)). split; [left|]. split_and!; [done..|].
      by apply (effective_expiry_bound self (t_expiry t) ex).
    + injection Hw as <-. apply backed_mono. intros x Hx. by apply (Hm url e' Hin).
  - destruct (resolver_answer url FetchNew) as [err|[c md ex|v]]; [done| |done]. injection Hw as <-. intros x Hx.
    exists (mkFetch url c md (t_expiry t)). split; [left|]. split_and!; [done..|].
    by apply (effective_expiry_bound self (t_expiry t) ex).
Qed.

Lemma world_step (w w' : World S) : cache_step w w' -> world_ok w -> world_ok w'.
Proof.
  intros [R self locked t url force r c Hsize Ht Hord Hrun|e now Hp Hnow] [Hg Hb Hpast].
  - pose proof (cache_get_outcome self Hsize locked t url force (w_cache w) Hg) as Hout. rewrite Hrun in Hout.
    unfold get_outcome in Hout. set (m := view (cache (w_cache w))) in *.
    set (d := decision self (m !! url) force (t_check t)) in *. destruct Hout as [Hg' Hout].
    constructor; cbn [w_cache w_history w_now]; [done| |].
    + intros k e Hk.
      assert (Hsub : exists m1, (m1 = m \/ m1 = put_entry (written self t url d (resolver_answer url d)) m) /\ view (cache c) ⊆ m1).
      { destruct Hout as [(err & _ & Hv & _)|(_ & _ & m1 & Hm1 & Hv & _)]; [exists m; split; [by left|by rewrite Hv]|by exists m1]. }
      destruct Hsub as (m1 & Hm1 & Hsub). apply (lookup_weaken _ m1) in Hk; [|done].
      destruct Hm1 as [->| ->]; [apply backed_mono; by apply (Hb k)|].
      destruct (written self t url d (resolver_answer url d)) as [e'|] eqn:Hw; cbn [put_entry] in Hk; [|apply backed_mono; by apply (Hb k)].
      apply lookup_insert_Some in Hk as [[_ <-]|[_ Hk]]; [|apply backed_mono; by apply (Hb k)].
      apply (written_backed R self t url force (w_history w) m e' Ht Hb); [|exact Hw].
      intros k' e'' He''. exact (law_keys _ _ _ Hg He'').
    + intros f [Hf|Hf]%elem_of_app; [|specialize (Hpast f Hf); destruct Hord as (? & ? & ? & ? & ?); lia].
      unfold delivered in Hf. destruct (resolver_answer url d) as [|[]]; [by apply elem_of_nil in Hf| |by apply elem_of_nil in Hf].
      apply list_elem_of_singleton in Hf as ->. destruct Hord as (? & ? & ? & ? & ?). cbn [f_time]. lia.
  - destruct (on_storage_insert e (w_cache w) Hg) as (r & s' & -> & Hg' & _ & _ & Hv). constructor; cbn [w_cache w_history w_now snd]; [done| |].
    + intros k e' Hk. rewrite Hv in Hk. destruct (is_ok r); [|by apply (Hb k)].
      apply lookup_insert_Some in Hk as [[_ <-]|[_ Hk]]; [|by apply (Hb k)]. intros x Hx. congruence.
    + intros f Hf. specialize (Hpast f Hf). lia.
Qed.

Lemma world_reach (w w' : World S) : rtc cache_step w w' -> world_ok w -> world_ok w'.
Proof. induction 1 as [|w w1 w' Hs _ IH]; [done|]. intros Hw. by apply IH, (world_step w). Qed.


End staleness.
