(* ===== verification/CacheStorage.v ===== *)
(** * The storages of the cache

    Models [lib/one-core/src/provider/remote_entity_storage/in_memory.rs] (a map
    behind a mutex), [db_storage.rs] and the repository below it,
    [lib/sql-data-provider/src/remote_entity_cache/repository.rs] with its
    [mapper.rs] and entity, and [service/cache/service.rs]. Both storages are
    instances of [RemoteEntityStorage] and satisfy [StorageLaws]. Rows of a query
    come in the order of [hash_order], as the entries of a hash map do; the key
    column is compared byte by byte, and queries do not fail. [CacheType] has the
    constructors of [RemoteEntityType] and is not distinguished from it. *)

From stdpp Require Import sorting.
From S2P Require Import Prelude StatusBits KeySelection RevocationRepo Cache.
#[local] Open Scope Z_scope.

(** ** In memory *)

Record InMemoryStorage := mkInMemoryStorage { storage : gmap string RemoteEntity }.

Section in_memory.
Context `{HashOrder}.

Definition used_before (a b : string * RemoteEntity) : bool := re_last_used a.2 <=? re_last_used b.2.

Definition mem_entries (m : gmap string RemoteEntity) : list (string * RemoteEntity) :=
  hash_order _ (map_to_list m).

(** An entry stays when it is of another type, persistent, or expires later. *)
Definition mem_retained (now : Z) (entity_type : RemoteEntityType) (val : RemoteEntity) : bool :=
  negb (bool_decide (re_entity_type val = entity_type)) ||
  from_option (fun exp => now <? exp) true (re_expiration_date val).

Definition mem_count (entity_type : RemoteEntityType) (m : gmap string RemoteEntity) : Z :=
  len (List.filter (fun ke => bool_decide (re_entity_type ke.2 = entity_type)) (mem_entries m)).

Definition mem_evictable (entity_type : RemoteEntityType) (ke : string * RemoteEntity) : bool :=
  bool_decide (re_entity_type ke.2 = entity_type) && bool_decide (is_Some (re_expiration_date ke.2)).

Definition mem_delete_expired_or_least_used (now : Z) (entity_type : RemoteEntityType) (target_max_size : Z) :
  M InMemoryStorage StorageError unit := fun s =>
  let hash_map := filter (fun ke => mem_retained now entity_type ke.2 = true) (storage s) in
  let num_entries := mem_count entity_type hash_map in
  if num_entries <=? target_max_size then (Ok tt, mkInMemoryStorage hash_map)
  else
    let still_to_remove := num_entries - target_max_size in
    let to_remove := take (Z.to_nat still_to_remove)
                       (fst <$> sort_by used_before (List.filter (mem_evictable entity_type) (mem_entries hash_map))) in
    (Ok tt, mkInMemoryStorage (filter (fun ke => ke.1 ∉ to_remove) hash_map)).

Definition mem_get_by_key (key : string) : M InMemoryStorage StorageError (option RemoteEntity) := fun s =>
  (Ok (storage s !! key), s).

Definition mem_get_storage_size (entity_type : RemoteEntityType) : M InMemoryStorage StorageError Z := fun s =>
  (Ok (mem_count entity_type (storage s)), s).

Definition mem_insert (request : RemoteEntity) : M InMemoryStorage StorageError unit := fun s =>
  (Ok tt, mkInMemoryStorage (<[re_key request := request]> (storage s))).

#[export] Instance InMemoryStorage_storage : RemoteEntityStorage InMemoryStorage := {
  get_by_key := mem_get_by_key;
  store_insert := mem_insert;
  delete_expired_or_least_used := mem_delete_expired_or_least_used;
  get_storage_size := mem_get_storage_size
}.
End in_memory.

#[export] Instance InMemoryStorage_view : StorageView InMemoryStorage := {
  view := storage;
  good := fun s => forall k e, storage s !! k = Some e -> re_key e = k
}.

(** ** In the database *)

Record RemoteEntityCacheEntry := mkCacheEntry {
  ce_id : Z;
  ce_created_date : Z;
  ce_last_modified : Z;
  ce_last_used : Z;
  ce_expiration_date : option Z;
  ce_key : string;
  ce_value : list Z;
  ce_type : RemoteEntityType;
  ce_media_type : option string
}.

(** The table, and the identifiers drawn so far. *)
Record CacheDb := mkCacheDb { rows : list RemoteEntityCacheEntry; cache_uuids : nat }.

(** [RemoteEntity::from]. *)
Definition from_entry (c : RemoteEntityCacheEntry) : RemoteEntity :=
  mkRemoteEntity (ce_last_modified c) (ce_expiration_date c) (ce_type c) (ce_key c) (ce_value c) (ce_last_used c)
    (ce_media_type c).

Definition storage_context_to_db_context (id : Z) (storage_context : RemoteEntity) : RemoteEntityCacheEntry :=
  mkCacheEntry id (re_last_modified storage_context) (re_last_modified storage_context) (re_last_used storage_context)
    (re_expiration_date storage_context) (re_key storage_context) (re_value storage_context)
    (re_entity_type storage_context) (re_media_type storage_context).

Section database.
Context `{HashOrder} `{UuidSupply}.

Definition set_rows (f : list RemoteEntityCacheEntry -> list RemoteEntityCacheEntry) (d : CacheDb) : CacheDb :=
  mkCacheDb (f (rows d)) (cache_uuids d).

(** The primary key and the unique index on the key. *)
Definition conflicts (request row : RemoteEntityCacheEntry) : bool :=
  bool_decide (ce_id row = ce_id request) || bool_decide (ce_key row = ce_key request).

Definition cache_create (request : RemoteEntityCacheEntry) : M CacheDb DataLayerError Z := fun d =>
  if existsb (conflicts request) (rows d) then (Err AlreadyExists, d)
  else (Ok (ce_id request), set_rows (fun l => l ++ [request]) d).

Definition cache_update (request : RemoteEntityCacheEntry) : M CacheDb DataLayerError unit := fun d =>
  if negb (existsb (fun row => bool_decide (ce_id row = ce_id request)) (rows d)) then (Err RecordNotUpdated, d)
  else if existsb (fun row => negb (bool_decide (ce_id row = ce_id request)) &&
                              bool_decide (ce_key row = ce_key request)) (rows d) then (Err AlreadyExists, d)
  else (Ok tt, set_rows (fmap (fun row => if bool_decide (ce_id row = ce_id request) then request else row)) d).

(** [SELECT ... LIMIT 1]. *)
Definition cache_get_by_key (key : string) : M CacheDb DataLayerError (option RemoteEntityCacheEntry) := fun d =>
  (Ok (head (List.filter (fun row => bool_decide (ce_key row = key)) (hash_order _ (rows d)))), d).

Definition cache_get_by_id (id : Z) : M CacheDb DataLayerError (option RemoteEntityCacheEntry) := fun d =>
  (Ok (head (List.filter (fun row => bool_decide (ce_id row = id)) (hash_order _ (rows d)))), d).

(** [COUNT( * )], cast to [u32]. *)
Definition get_repository_size (type : RemoteEntityType) : M CacheDb DataLayerError Z := fun d =>
  (Ok (u32_wrap (len (List.filter (fun row => bool_decide (ce_type row = type)) (rows d)))), d).

Definition cache_expired (now : Z) (type : RemoteEntityType) (row : RemoteEntityCacheEntry) : bool :=
  from_option (fun exp => exp <? now) false (ce_expiration_date row) && bool_decide (ce_type row = type).

Definition cache_evictable (type : RemoteEntityType) (row : RemoteEntityCacheEntry) : bool :=
  bool_decide (is_Some (ce_expiration_date row)) && bool_decide (ce_type row = type).

Definition row_used_before (a b : RemoteEntityCacheEntry) : bool := ce_last_used a <=? ce_last_used b.

Definition delete_rows (p : RemoteEntityCacheEntry -> bool) : M CacheDb DataLayerError unit := fun d =>
  (Ok tt, set_rows (List.filter (fun row => negb (p row))) d).

Definition cache_delete_expired_or_least_used (now : Z) (type : RemoteEntityType) (target_max_size : Z) :
  M CacheDb DataLayerError unit :=
  _ ← delete_rows (cache_expired now type);
  current_size ← get_repository_size type;
  if current_size <=? target_max_size then mret tt
  else
    let still_to_remove := current_size - target_max_size in
    d ← get;
    let to_remove := take (Z.to_nat still_to_remove)
                       (ce_id <$> sort_by row_used_before (List.filter (cache_evictable type) (hash_order _ (rows d)))) in
    if negb (bool_decide (to_remove = [])) then delete_rows (fun row => bool_decide (ce_id row ∈ to_remove)) else mret tt.

Definition delete_all (type : option (list RemoteEntityType)) : M CacheDb DataLayerError unit :=
  delete_rows (fun row => bool_decide (is_Some (ce_expiration_date row)) &&
                          from_option (fun types => bool_decide (ce_type row ∈ types)) true type).

(** *** [DbStorage] *)

Definition db_delete_expired_or_least_used (now : Z) (entity_type : RemoteEntityType) (target_max_size : Z) :
  M CacheDb StorageError unit :=
  M_map_err (fun _ => StDelete) (cache_delete_expired_or_least_used now entity_type (u32_wrap target_max_size)).

Definition db_get_by_key (key : string) : M CacheDb StorageError (option RemoteEntity) :=
  entry ← M_map_err (fun _ => StGetByKey) (cache_get_by_key key);
  mret (from_entry <$> entry).

Definition db_get_storage_size (entity_type : RemoteEntityType) : M CacheDb StorageError Z :=
  M_map_err (fun _ => StGetStorageSize) (get_repository_size entity_type).

Definition new_cache_id : M CacheDb StorageError Z := fun d =>
  (Ok (uuid_at (cache_uuids d)), mkCacheDb (rows d) (S (cache_uuids d))).

Definition db_insert (request : RemoteEntity) : M CacheDb StorageError unit :=
  entry ← M_map_err (fun _ => StInsert) (cache_get_by_key (re_key request));
  match entry with
  | Some db_context =>
      M_map_err (fun e => match e with RecordNotUpdated => StNotUpdated | _ => StInsert end)
        (cache_update (storage_context_to_db_context (ce_id db_context) request))
  | None =>
      id ← new_cache_id;
      _ ← M_map_err (fun _ => StInsert) (cache_create (storage_context_to_db_context id request));
      mret tt
  end.

#[export] Instance CacheDb_storage : RemoteEntityStorage CacheDb := {
  get_by_key := db_get_by_key;
  store_insert := db_insert;
  delete_expired_or_least_used := db_delete_expired_or_least_used;
  get_storage_size := db_get_storage_size
}.

(** [CacheService::prune_cache]. *)
Definition prune_cache (type : option (list RemoteEntityType)) : M CacheDb DataLayerError unit := delete_all type.
End database.

Definition keyed (c : RemoteEntityCacheEntry) : string * RemoteEntity := (ce_key c, from_entry c).

#[export] Instance CacheDb_view : StorageView CacheDb := {
  view := fun d => list_to_map (keyed <$> rows d);
  good := fun d => NoDup (ce_id <$> rows d) /\ NoDup (ce_key <$> rows d)
}.

(** ** Eviction *)

Lemma sort_by_strongly_sorted {A : Type} (f : A -> Z) (l : list A) :
  StronglySorted (fun a b => f a <= f b) (sort_by (fun a b => f a <=? f b) l).
Proof.
  unfold sort_by. induction l as [|x l IH]; [constructor|]. cbn [foldr].
  induction IH as [|y l' Hs IH Hy]; cbn [insert_by]; [repeat constructor|].
  destruct (Z.leb_spec (f x) (f y)).
  - constructor; [by constructor|]. constructor; [done|]. eapply Forall_impl; [exact Hy|]. intros z Hz. cbn beta in Hz. lia.
  - constructor; [done|]. rewrite insert_by_perm. constructor; [lia|done].
Qed.

Lemma take_elem {A : Type} (n : nat) (l : list A) (x : A) : x ∈ take n l -> x ∈ l.
Proof. intros Hx. rewrite <- (take_drop n l). apply elem_of_app. by left. Qed.

(** A removed list of distinct entries counts. *)
Lemma count_where_removed (p : RemoteEntity -> bool) (m m' : gmap string RemoteEntity) (R : list (string * RemoteEntity)) :
  NoDup R.*1 -> (forall k e, (k, e) ∈ R -> m !! k = Some e /\ p e = true) ->
  (forall k, m' !! k = if bool_decide (k ∈ R.*1) then None else m !! k) ->
  (count_where p m' + length R = count_where p m)%nat.
Proof.
  intros Hnd HR Hm'. unfold count_where.
  rewrite <- (map_size_list_to_map (M := gmap string) R Hnd), <- map_size_disj_union.
  - f_equal. apply map_eq. intros k. apply option_eq. intros e. rewrite lookup_union_Some.
    + rewrite <- (elem_of_list_to_map R k e) by done. rewrite !map_lookup_filter_Some, Hm'. cbn [snd].
      case_bool_decide as Hk.
      * split; [intros [[[=] _]|Hin]; by apply HR|]. intros [Hmk _]. right.
        apply list_elem_of_fmap in Hk as ([k' e'] & -> & Hin). destruct (HR _ _ Hin) as [He' _].
        cbn [fst] in *. congruence.
      * split; [intros [?|Hin]; [done|]|by left]. destruct Hk. apply list_elem_of_fmap. by exists (k, e).
    + apply map_disjoint_spec. intros k' a b [Ha _]%map_lookup_filter_Some Hb.
      apply elem_of_list_to_map in Hb; [|done]. rewrite Hm' in Ha. rewrite bool_decide_eq_true_2 in Ha; [done|].
      apply list_elem_of_fmap. by exists (k', b).
  - apply map_disjoint_spec. intros k' a b [Ha _]%map_lookup_filter_Some Hb.
    apply elem_of_list_to_map in Hb; [|done]. rewrite Hm' in Ha. rewrite bool_decide_eq_true_2 in Ha; [done|].
    apply list_elem_of_fmap. by exists (k', b).
Qed.

Section eviction.
Context (now : Z) (ty : RemoteEntityType) (target : Z) (Htarget : 0 <= target).
Context (m m1 m2 : gmap string RemoteEntity) (keep : RemoteEntity -> bool) (L : list (string * RemoteEntity)).
(** What is kept by the first step, between what must be and what may be. *)
Context (Hkeep : forall e, of_type ty e = false \/ from_option (fun x => now <? x) true (re_expiration_date e) = true -> keep e = true).
Context (Hdrop : forall e, keep e = true -> of_type ty e = true -> not_expired now e = true).
Context (Hm1 : forall k e, m1 !! k = Some e <-> m !! k = Some e /\ keep e = true).
(** What the second step may remove, in the order of use. *)
Context (Hnd : NoDup L.*1) (Hsorted : StronglySorted (fun a b => re_last_used a.2 <= re_last_used b.2) L).
Context (HL : forall k e, (k, e) ∈ L <-> m1 !! k = Some e /\ of_type ty e = true /\ is_persistent e = false).
#[local] Notation R := (take (count_where (of_type ty) m1 - Z.to_nat target) L).
Context (Hm2 : forall k, m2 !! k = if bool_decide (k ∈ R.*1) then None else m1 !! k).

Lemma evicted_spec (k : string) (e : RemoteEntity) : m1 !! k = Some e -> m2 !! k = None -> (k, e) ∈ R.
Proof.
  intros Hk Hn. rewrite Hm2, Hk in Hn. case_bool_decide as Hin; [|done].
  apply list_elem_of_fmap in Hin as ([k' e'] & -> & Hin). cbn [fst] in *.
  assert (m1 !! k' = Some e') by (apply (HL k' e'); eapply take_elem, Hin).
  by simplify_eq.
Qed.

Lemma kept_spec (k : string) (e : RemoteEntity) : m2 !! k = Some e -> m1 !! k = Some e /\ (k, e) ∉ R.
Proof.
  rewrite Hm2. case_bool_decide as Hin; [done|]. intros Hk. split; [done|]. intros Hr. apply Hin.
  apply list_elem_of_fmap. by exists (k, e).
Qed.

Lemma eviction_cleaned : cleaned now ty target m m2.
Proof.
  assert (HRL : forall x, x ∈ R -> x ∈ L) by (intros x Hx; eapply take_elem, Hx).
  assert (Hstay : forall k e, m1 !! k = Some e -> (k, e) ∉ R -> m2 !! k = Some e).
  { intros k e Hk Hn. destruct (m2 !! k) as [e'|] eqn:He; [by apply kept_spec in He as [? _]; simplify_eq|].
    destruct Hn. by apply evicted_spec. }
  assert (Hcount : (count_where (of_type ty) m2 + length R = count_where (of_type ty) m1)%nat).
  { apply count_where_removed; [|intros k e (? & ? & _)%HRL%HL; done|done].
    rewrite <- (take_drop (count_where (of_type ty) m1 - Z.to_nat target) L), fmap_app in Hnd. by apply NoDup_app in Hnd as [? _]. }
  constructor.
  - apply map_subseteq_spec. intros k e Hk. apply kept_spec in Hk as [Hk _]. by apply Hm1 in Hk as [? _].
  - intros k e Hk Hc. apply Hstay.
    + apply Hm1. split; [done|]. apply Hkeep. destruct Hc as [Hc|Hc]; [by left|right].
      unfold is_persistent in Hc. apply bool_decide_eq_true_1 in Hc. by rewrite Hc.
    + intros (_ & Ht & Hp)%HRL%HL. destruct Hc; congruence.
  - intros k e [[_ Hk]%Hm1 _]%kept_spec Ht. by apply Hdrop.
  - rewrite length_take in Hcount.
    destruct (decide (count_where (of_type ty) m1 - Z.to_nat target <= length L)%nat); [left; lia|right].
    intros k e [Hk Hn]%kept_spec Ht. destruct (is_persistent e) eqn:Hp; [done|]. destruct Hn. rewrite take_ge by lia. by apply HL.
  - intros k e x Hk Hx Hlt Hn.
    assert (Hr : (k, e) ∈ R).
    { apply evicted_spec; [|done]. apply Hm1. split; [done|]. apply Hkeep. right. rewrite Hx. apply Z.ltb_lt, Hlt. }
    rewrite length_take in Hcount. destruct (decide (count_where (of_type ty) m1 <= Z.to_nat target)%nat); [|lia].
    replace (count_where (of_type ty) m1 - Z.to_nat target)%nat with O in Hr by lia. rewrite take_0 in Hr. by apply not_elem_of_nil in Hr.
  - intros k e x k' e' Hk Hx Hlt Hn [Hk' Hn']%kept_spec Ht' Hp'.
    assert (Hk1 : m1 !! k = Some e) by (apply Hm1; split; [done|]; apply Hkeep; right; rewrite Hx; apply Z.ltb_lt, Hlt).
    pose proof (evicted_spec k e Hk1 Hn) as Hr.
    assert (Hd : (k', e') ∈ drop (count_where (of_type ty) m1 - Z.to_nat target) L).
    { assert (Hin : (k', e') ∈ L) by (by apply HL). rewrite <- (take_drop (count_where (of_type ty) m1 - Z.to_nat target) L) in Hin.
      apply elem_of_app in Hin as [?|?]; [done|done]. }
    rewrite <- (take_drop (count_where (of_type ty) m1 - Z.to_nat target) L) in Hsorted.
    exact (StronglySorted_app_1_elem_of _ _ _ _ _ Hsorted Hr Hd).
Qed.
End eviction.

(** ** The storage in memory meets the contract *)

Section memory_laws.
Context `{HO : HashOrder} `{!HashOrderLaws}.

Lemma mem_entries_filter (p : string * RemoteEntity -> bool) (m : gmap string RemoteEntity) :
  List.filter p (mem_entries m) ≡ₚ map_to_list (filter (fun ke => p ke = true) m).
Proof.
  apply NoDup_Permutation.
  - apply NoDup_ListNoDup, List.NoDup_filter, NoDup_ListNoDup. unfold mem_entries. rewrite hash_order_perm. apply NoDup_map_to_list.
  - apply NoDup_map_to_list.
  - intros [k e]. rewrite elem_of_filter_bool. unfold mem_entries. rewrite hash_order_perm, !elem_of_map_to_list, map_lookup_filter_Some. by split; intros [? ?].
Qed.

Lemma mem_count_spec (ty : RemoteEntityType) (m : gmap string RemoteEntity) :
  mem_count ty m = Z.of_nat (count_where (of_type ty) m).
Proof. unfold mem_count, len, count_where. by rewrite mem_entries_filter, length_map_to_list. Qed.

Lemma mem_retained_spec (now : Z) (ty : RemoteEntityType) (e : RemoteEntity) :
  mem_retained now ty e = true <-> of_type ty e = false \/ from_option (fun x => now <? x) true (re_expiration_date e) = true.
Proof. unfold mem_retained, of_type. by destruct (bool_decide _), (from_option _ _ _); naive_solver. Qed.

Lemma mem_clean_cleaned (now : Z) (ty : RemoteEntityType) (target : Z) (s : InMemoryStorage) : 0 <= target ->
  exists s', mem_delete_expired_or_least_used now ty target s = (Ok tt, s') /\ cleaned now ty target (storage s) (storage s').
Proof.
  intros Ht. unfold mem_delete_expired_or_least_used. set (m1 := filter _ (storage s)). rewrite mem_count_spec.
  set (L := sort_by used_before (List.filter (mem_evictable ty) (mem_entries m1))).
  assert (HL : L ≡ₚ map_to_list (filter (fun ke => mem_evictable ty ke = true) m1)).
  { unfold L. by rewrite sort_by_perm, mem_entries_filter. }
  set (m2 := filter (fun ke => ke.1 ∉ (take (count_where (of_type ty) m1 - Z.to_nat target) L).*1) m1).
  assert (Hc : cleaned now ty target (storage s) m2).
  { apply (eviction_cleaned now ty target Ht (storage s) m1 m2 (mem_retained now ty) L).
    - intros e. apply mem_retained_spec.
    - intros e [He|He]%mem_retained_spec Hty; [congruence|]. unfold not_expired. destruct (re_expiration_date e); [|done].
      apply Z.ltb_lt in He. apply Z.leb_le. lia.
    - intros k e. unfold m1. by rewrite map_lookup_filter_Some.
    - rewrite HL. apply NoDup_fst_map_to_list.
    - apply sort_by_strongly_sorted.
    - intros k e. rewrite HL, elem_of_map_to_list, map_lookup_filter_Some. unfold mem_evictable, of_type, is_persistent. cbn [snd].
      rewrite andb_true_iff, !bool_decide_eq_true, bool_decide_eq_false, is_Some_alt. destruct (re_expiration_date e); naive_solver.
    - intros k. unfold m2. destruct (m1 !! k) as [e|] eqn:Hk.
      + case_bool_decide as Hin; [apply map_lookup_filter_None; right; naive_solver|apply map_lookup_filter_Some; naive_solver].
      + case_bool_decide; apply map_lookup_filter_None; by left. }
  case_goal.
  - eexists. split; [reflexivity|]. cbn [storage]. replace m1 with m2; [done|]. unfold m2.
    apply map_filter_id. intros k e _. replace (count_where (of_type ty) m1 - Z.to_nat target)%nat with O by lia.
    rewrite take_0. apply not_elem_of_nil.
  - eexists. split; [reflexivity|]. cbn [storage]. rewrite <- fmap_take. by replace (Z.to_nat _) with (count_where (of_type ty) m1 - Z.to_nat target)%nat by lia.
Qed.

#[export] Instance InMemoryStorage_laws : StorageLaws InMemoryStorage.
Proof.
  split; cbn.
  - intros s k e Hg. apply Hg.
  - intros k s Hg. done.
  - intros e s Hg. split; [|done]. intros k e' [[<- <-]|[_ Hk]]%lookup_insert_Some; [done|by apply Hg].
  - intros now ty target s Hg Ht. destruct (mem_clean_cleaned now ty target s) as (s' & -> & Hc); [lia|].
    split_and!; [|apply Hc|done]. intros k e Hk. eapply Hg, lookup_weaken; [exact Hk|apply Hc].
Qed.
End memory_laws.

(** ** The storage in the database meets the contract *)

Definition unique_rows (l : list RemoteEntityCacheEntry) : Prop := NoDup (ce_id <$> l) /\ NoDup (ce_key <$> l).
Definition rows_view (l : list RemoteEntityCacheEntry) : gmap string RemoteEntity := list_to_map (keyed <$> l).

Lemma rows_view_lookup (l : list RemoteEntityCacheEntry) (k : string) (e : RemoteEntity) : unique_rows l ->
  rows_view l !! k = Some e <-> exists row, row ∈ l /\ ce_key row = k /\ from_entry row = e.
Proof.
  intros [_ Hk]. unfold rows_view. rewrite <- elem_of_list_to_map.
  - rewrite list_elem_of_fmap. unfold keyed. split.
    + intros (row & [= -> ->] & Hin). by exists row.
    + intros (row & Hin & <- & <-). by exists row.
  - by rewrite <- list_fmap_compose.
Qed.

Lemma unique_key (l : list RemoteEntityCacheEntry) (a b : RemoteEntityCacheEntry) : unique_rows l ->
  a ∈ l -> b ∈ l -> ce_key a = ce_key b -> a = b.
Proof. intros [_ Hnd]. intros Ha Hb Hab. by eapply (NoDup_fmap_inj_elem ce_key). Qed.

Lemma unique_id (l : list RemoteEntityCacheEntry) (a b : RemoteEntityCacheEntry) : unique_rows l ->
  a ∈ l -> b ∈ l -> ce_id a = ce_id b -> a = b.
Proof. intros [Hnd _]. intros Ha Hb Hab. by eapply (NoDup_fmap_inj_elem ce_id). Qed.

Lemma unique_filter (p : RemoteEntityCacheEntry -> bool) (l : list RemoteEntityCacheEntry) :
  unique_rows l -> unique_rows (List.filter p l).
Proof. intros [? ?]. split; by apply NoDup_filter_fmap. Qed.

Lemma rows_view_filter (p : RemoteEntityCacheEntry -> bool) (l : list RemoteEntityCacheEntry) : unique_rows l ->
  rows_view (List.filter p l) ⊆ rows_view l.
Proof.
  intros Hu. apply map_subseteq_spec. intros k e (row & [_ Hin]%elem_of_filter_bool & Hk & He)%rows_view_lookup;
    [|by apply unique_filter]. apply rows_view_lookup; [done|]. by exists row.
Qed.

Section database_laws.
Context `{HO : HashOrder} `{!HashOrderLaws} `{HU : UuidSupply}.

(** The row that a query for one row returns. *)
Lemma query_one (l : list RemoteEntityCacheEntry) (p : RemoteEntityCacheEntry -> bool) :
  match head (List.filter p (hash_order _ l)) with
  | Some row => row ∈ l /\ p row = true
  | None => forall row, row ∈ l -> p row = false
  end.
Proof.
  assert (Hel : forall row, row ∈ List.filter p (hash_order _ l) <-> p row = true /\ row ∈ l).
  { intros row. by rewrite elem_of_filter_bool, hash_order_perm. }
  destruct (List.filter p (hash_order _ l)) as [|row rest]; cbn [head].
  - intros row Hin. destruct (p row) eqn:Hp; [|done]. destruct (not_elem_of_nil row). by apply Hel.
  - assert (p row = true /\ row ∈ l) as [? ?] by (apply Hel; left). done.
Qed.

Lemma lookup_by_key (l : list RemoteEntityCacheEntry) (key : string) : unique_rows l ->
  from_entry <$> head (List.filter (fun row => bool_decide (ce_key row = key)) (hash_order _ l)) = rows_view l !! key.
Proof.
  intros Hu. pose proof (query_one l (fun row => bool_decide (ce_key row = key))) as Hq. destruct (head _) as [row|]; cbn [fmap option_fmap option_map].
  - destruct Hq as [Hin Hk%bool_decide_eq_true]. symmetry. apply rows_view_lookup; [done|]. by exists row.
  - symmetry. apply eq_None_not_Some. intros [e (row & Hin & Hk & _)%rows_view_lookup]; [|done].
    specialize (Hq row Hin). by rewrite bool_decide_eq_true_2 in Hq.
Qed.

Lemma create_view (l : list RemoteEntityCacheEntry) (request : RemoteEntityCacheEntry) : unique_rows l ->
  existsb (conflicts request) l = false ->
  unique_rows (l ++ [request]) /\ rows_view (l ++ [request]) = <[ce_key request := from_entry request]> (rows_view l).
Proof.
  intros Hu Hc. rewrite existsb_false in Hc.
  assert (Hne : forall row, row ∈ l -> ce_id row <> ce_id request /\ ce_key row <> ce_key request).
  { intros row Hin. specialize (Hc row Hin). unfold conflicts in Hc. apply orb_false_iff in Hc as [?%bool_decide_eq_false ?%bool_decide_eq_false]. done. }
  assert (Hu' : unique_rows (l ++ [request])).
  { destruct Hu as [Hi Hk]. split; rewrite fmap_app; apply NoDup_app; (split; [done|]); (split; [|apply NoDup_singleton]);
      intros y (row & -> & Hin)%list_elem_of_fmap Hy%list_elem_of_singleton; by destruct (Hne row Hin). }
  split; [done|]. apply map_eq. intros k. apply option_eq. intros e. rewrite rows_view_lookup by done. rewrite lookup_insert_Some, rows_view_lookup by done.
  split.
  - intros (row & [Hin|Heq%list_elem_of_singleton]%elem_of_app & <- & <-); [|left; by rewrite Heq].
    right. split; [symmetry; by apply Hne|]. by exists row.
  - intros [[<- <-]|[_ (row & Hin & <- & <-)]]; [exists request|exists row]; (split; [apply elem_of_app|done]); [right; by apply list_elem_of_singleton|by left].
Qed.

Lemma update_view (l : list RemoteEntityCacheEntry) (old request : RemoteEntityCacheEntry) : unique_rows l -> old ∈ l ->
  ce_id old = ce_id request -> ce_key old = ce_key request ->
  let l' := (fun row => if bool_decide (ce_id row = ce_id request) then request else row) <$> l in
  unique_rows l' /\ rows_view l' = <[ce_key request := from_entry request]> (rows_view l).
Proof.
  intros Hu Hold Hid Hkey l'.
  assert (Heq : forall row, row ∈ l -> ce_id row = ce_id request -> row = old) by (intros row Hin Hr; apply (unique_id l); [done..|congruence]).
  assert (Hu' : unique_rows l').
  { destruct Hu as [Hi Hk]. unfold unique_rows, l'. rewrite <- !list_fmap_compose. split.
    - erewrite list_fmap_ext; [exact Hi|]. intros i row _. cbn. by case_bool_decide.
    - erewrite list_fmap_ext; [exact Hk|]. intros i row Hi'%list_elem_of_lookup_2. cbn. case_bool_decide as Hr; [|done].
      by rewrite (Heq row Hi' Hr). }
  split; [done|]. apply map_eq. intros k. apply option_eq. intros e. rewrite rows_view_lookup by done. rewrite lookup_insert_Some, rows_view_lookup by done.
  unfold l'. split.
  - intros (row & (row' & -> & Hin)%list_elem_of_fmap & <- & <-). case_bool_decide as Hr; [by left|]. right. split; [|by exists row'].
    rewrite <- Hkey. intros Hk. destruct Hr. by rewrite <- (unique_key l old row').
  - intros [[<- <-]|[Hne (row & Hin & <- & <-)]].
    + exists request. split; [|done]. apply list_elem_of_fmap. exists old. by rewrite bool_decide_eq_true_2.
    + exists row. split; [|done]. apply list_elem_of_fmap. exists row. split; [|done]. case_bool_decide as Hr; [|done].
      destruct Hne. by rewrite (Heq row Hin Hr).
Qed.

Lemma db_insert_spec (e : RemoteEntity) (d : CacheDb) : unique_rows (rows d) ->
  let '(r, d') := db_insert e d in
  unique_rows (rows d') /\
  match r with
  | Ok _ => rows_view (rows d') = <[re_key e := e]> (rows_view (rows d))
  | Err _ => rows_view (rows d') = rows_view (rows d)
  | Panic => False
  end.
Proof.
  intros Hu. unfold db_insert, mbind, M_bind, M_map_err, cache_get_by_key.
  pose proof (query_one (rows d) (fun row => bool_decide (ce_key row = re_key e))) as Hq.
  assert (Hfrom : forall id, from_entry (storage_context_to_db_context id e) = e) by (by destruct e).
  destruct (head _) as [row|]; cbn [map_err].
  - destruct Hq as [Hin Hk%bool_decide_eq_true]. unfold cache_update.
    destruct (negb _); [done|]. destruct (existsb _ _); [done|]. cbn [map_err set_rows rows].
    pose proof (update_view (rows d) row (storage_context_to_db_context (ce_id row) e) Hu Hin eq_refl Hk) as [Hu' Hv].
    split; [done|]. by rewrite Hv, Hfrom.
  - unfold new_cache_id, cache_create. cbn [rows map_err]. destruct (existsb _ _) eqn:Hc; [done|].
    pose proof (create_view (rows d) (storage_context_to_db_context (uuid_at (cache_uuids d)) e) Hu Hc) as [Hu' Hv].
    cbn [map_err set_rows rows mret M_ret]. split; [done|]. by rewrite Hv, Hfrom.
Qed.

Lemma rows_view_size (l : list RemoteEntityCacheEntry) : unique_rows l -> size (rows_view l) = length l.
Proof. intros [_ Hk]. unfold rows_view. rewrite map_size_list_to_map; [by rewrite length_fmap|by rewrite <- list_fmap_compose]. Qed.

Lemma rows_count (p : RemoteEntity -> bool) (l : list RemoteEntityCacheEntry) : unique_rows l ->
  count_where p (rows_view l) = length (List.filter (fun row => p (from_entry row)) l).
Proof.
  intros Hu. unfold count_where. rewrite <- (rows_view_size (List.filter _ l)) by (by apply unique_filter). f_equal.
  apply map_eq. intros k. apply option_eq. intros e. rewrite map_lookup_filter_Some, !rows_view_lookup by auto using unique_filter.
  cbn [snd]. split.
  - intros [(row & Hin & <- & <-) Hp]. exists row. split; [by apply elem_of_filter_bool|done].
  - intros (row & [Hp Hin]%elem_of_filter_bool & <- & <-). split; [by exists row|done].
Qed.

(** The rows after cleaning. *)
Definition live_rows (now : Z) (ty : RemoteEntityType) (l : list RemoteEntityCacheEntry) : list RemoteEntityCacheEntry :=
  List.filter (fun row => negb (cache_expired now ty row)) l.
Definition by_use (ty : RemoteEntityType) (l : list RemoteEntityCacheEntry) : list RemoteEntityCacheEntry :=
  sort_by row_used_before (List.filter (cache_evictable ty) (hash_order _ l)).
Definition without (ids : list Z) (l : list RemoteEntityCacheEntry) : list RemoteEntityCacheEntry :=
  List.filter (fun row => negb (bool_decide (ce_id row ∈ ids))) l.

Lemma cache_delete_run (now : Z) (ty : RemoteEntityType) (target : Z) (d : CacheDb) :
  let l1 := live_rows now ty (rows d) in
  let size := u32_wrap (len (List.filter (fun row => bool_decide (ce_type row = ty)) l1)) in
  cache_delete_expired_or_least_used now ty target d =
  (Ok tt, mkCacheDb (if size <=? target then l1
                     else without (take (Z.to_nat (size - target)) (ce_id <$> by_use ty l1)) l1) (cache_uuids d)).
Proof.
  intros l1 size. unfold cache_delete_expired_or_least_used, delete_rows, get_repository_size, get, mbind, M_bind, set_rows.
  cbn [rows cache_uuids]. fold (live_rows now ty (rows d)). fold l1. fold size. fold (by_use ty l1).
  destruct (size <=? target); [done|]. destruct (bool_decide (take _ _ = [])) eqn:Hb; cbn [negb]; [|done].
  apply bool_decide_eq_true in Hb. cbn [rows] in Hb. fold (by_use ty l1) in Hb. rewrite Hb. unfold without, mret, M_ret. f_equal. f_equal. symmetry. apply filter_all. intros row _.
  by rewrite bool_decide_eq_false_2 by apply not_elem_of_nil.
Qed.

Lemma live_unique (now : Z) (ty : RemoteEntityType) (l : list RemoteEntityCacheEntry) : unique_rows l -> unique_rows (live_rows now ty l).
Proof. apply unique_filter. Qed.

Lemma cache_expired_spec (now : Z) (ty : RemoteEntityType) (row : RemoteEntityCacheEntry) :
  negb (cache_expired now ty row) = true <-> of_type ty (from_entry row) = false \/ not_expired now (from_entry row) = true.
Proof.
  unfold cache_expired, of_type, not_expired. cbn [re_entity_type re_expiration_date from_entry].
  destruct (ce_expiration_date row) as [x|]; cbn [from_option]; [|naive_solver].
  rewrite negb_true_iff, andb_false_iff, Z.ltb_ge, Z.leb_le. tauto.
Qed.

Lemma by_use_elem (ty : RemoteEntityType) (l : list RemoteEntityCacheEntry) (row : RemoteEntityCacheEntry) :
  row ∈ by_use ty l <-> row ∈ l /\ of_type ty (from_entry row) = true /\ is_persistent (from_entry row) = false.
Proof.
  unfold by_use. rewrite sort_by_perm, elem_of_filter_bool, hash_order_perm. unfold cache_evictable, of_type, is_persistent.
  cbn [re_entity_type re_expiration_date from_entry]. rewrite andb_true_iff, !bool_decide_eq_true, bool_decide_eq_false, is_Some_alt.
  destruct (ce_expiration_date row); naive_solver.
Qed.

Lemma by_use_unique (ty : RemoteEntityType) (l : list RemoteEntityCacheEntry) : unique_rows l -> unique_rows (by_use ty l).
Proof.
  intros Hu. unfold unique_rows, by_use. rewrite !sort_by_perm.
  apply unique_filter. unfold unique_rows. by rewrite !hash_order_perm.
Qed.

(** Removing the rows with the first identifiers is removing their keys. *)
Lemma without_view (ty : RemoteEntityType) (l : list RemoteEntityCacheEntry) (n : nat) (k : string) : unique_rows l ->
  rows_view (without (take n (ce_id <$> by_use ty l)) l) !! k =
  if bool_decide (k ∈ (take n (keyed <$> by_use ty l)).*1) then None else rows_view l !! k.
Proof.
  intros Hu. rewrite <- !fmap_take, <- list_fmap_compose. set (R := take n (by_use ty l)).
  assert (HR : forall row, row ∈ R -> row ∈ l) by (intros row Hr%take_elem; by apply by_use_elem in Hr as [? _]).
  assert (Huw : unique_rows (without (ce_id <$> R) l)) by (by apply unique_filter).
  apply option_eq. intros e. rewrite rows_view_lookup by done. case_bool_decide as Hk.
  - split; [|done]. intros (row & [Hn Hin]%elem_of_filter_bool & <- & _).
    apply list_elem_of_fmap in Hk as (row' & Hkey & Hr). cbn in Hkey.
    rewrite (unique_key l row row' Hu Hin (HR _ Hr) Hkey) in Hn.
    rewrite bool_decide_eq_true_2 in Hn; [done|]. apply list_elem_of_fmap. by exists row'.
  - rewrite rows_view_lookup by done. split.
    + intros (row & [_ Hin]%elem_of_filter_bool & ? & ?). by exists row.
    + intros (row & Hin & Hkey & He). exists row. split; [|done]. apply elem_of_filter_bool. split; [|done].
      apply negb_true_iff, bool_decide_eq_false. intros (row' & Hid & Hr)%list_elem_of_fmap.
      apply Hk. apply list_elem_of_fmap. exists row'. split; [|done]. cbn. rewrite <- Hkey. f_equal.
      by apply (unique_id l); [..|apply HR|].
Qed.

Lemma cache_delete_sub (now : Z) (ty : RemoteEntityType) (target : Z) (d : CacheDb) : unique_rows (rows d) ->
  exists d', cache_delete_expired_or_least_used now ty target d = (Ok tt, d') /\ unique_rows (rows d') /\
    rows_view (rows d') ⊆ rows_view (rows d).
Proof.
  intros Hu. rewrite cache_delete_run. eexists. split; [reflexivity|]. cbn [rows].
  pose proof (live_unique now ty _ Hu) as Hu1. assert (Hsub : rows_view (live_rows now ty (rows d)) ⊆ rows_view (rows d)) by (by apply rows_view_filter).
  case_goal; [done|]. split; [by apply unique_filter|]. etrans; [by apply rows_view_filter|done].
Qed.

Lemma cache_delete_cleaned (now : Z) (ty : RemoteEntityType) (target : Z) (d d' : CacheDb) : unique_rows (rows d) ->
  0 <= target -> Z.of_nat (size (rows_view (rows d))) < 4294967296 ->
  cache_delete_expired_or_least_used now ty target d = (Ok tt, d') ->
  cleaned now ty target (rows_view (rows d)) (rows_view (rows d')).
Proof.
  intros Hu Ht Hsz Hrun. rewrite cache_delete_run in Hrun. injection Hrun as <-. cbn [rows].
  pose proof (live_unique now ty _ Hu) as Hu1. set (l1 := live_rows now ty (rows d)) in *.
  pose proof (rows_count (of_type ty) l1 Hu1) as Hcount. cbn beta in Hcount.
  assert (Hwrap : u32_wrap (len (List.filter (fun row => bool_decide (ce_type row = ty)) l1)) = Z.of_nat (count_where (of_type ty) (rows_view l1))).
  { rewrite Hcount. apply Z.mod_small. unfold len. split; [lia|]. eapply Z.le_lt_trans, Hsz. apply Nat2Z.inj_le.
    change (length _) with (length (List.filter (fun row => of_type ty (from_entry row)) l1)). rewrite <- Hcount.
    etrans; [apply map_subseteq_size, map_filter_subseteq|]. apply map_subseteq_size. by apply rows_view_filter. }
  rewrite Hwrap. set (c := count_where (of_type ty) (rows_view l1)).
  replace (if Z.of_nat c <=? target then l1 else without (take (Z.to_nat (Z.of_nat c - target)) (ce_id <$> by_use ty l1)) l1)
    with (without (take (c - Z.to_nat target) (ce_id <$> by_use ty l1)) l1).
  2: { destruct (Z.leb_spec (Z.of_nat c) target); [|do 2 f_equal; lia]. replace (c - Z.to_nat target)%nat with O by lia.
       apply filter_all. intros row _. by rewrite take_0, bool_decide_eq_false_2 by apply not_elem_of_nil. }
  apply (eviction_cleaned now ty target Ht _ (rows_view l1) _ (fun e => negb (of_type ty e) || not_expired now e) (keyed <$> by_use ty l1)).
  - intros e [->|He]; [done|]. apply orb_true_iff. right. unfold not_expired. destruct (re_expiration_date e); [|done].
    apply Z.ltb_lt in He. apply Z.leb_le. lia.
  - intros e [He|He]%orb_true_iff Hty; [by rewrite Hty in He|done].
  - intros k e. rewrite !rows_view_lookup by done. unfold l1, live_rows. split.
    + intros (row & [Hl Hin]%elem_of_filter_bool & <- & <-). split; [by exists row|].
      apply orb_true_iff. rewrite negb_true_iff. by apply cache_expired_spec.
    + intros [(row & Hin & <- & <-) Hl]. exists row. split; [|done]. apply elem_of_filter_bool. split; [|done].
      apply cache_expired_spec. by rewrite <- negb_true_iff, <- orb_true_iff.
  - rewrite <- list_fmap_compose. by apply by_use_unique.
  - assert (Hs : StronglySorted (fun a b => ce_last_used a <= ce_last_used b) (by_use ty l1)) by apply sort_by_strongly_sorted.
    induction Hs as [|a l Hs IH Ha]; cbn; constructor; [done|]. apply Forall_fmap. by eapply Forall_impl.
  - intros k e. rewrite list_elem_of_fmap, rows_view_lookup by done. split.
    + intros (row & [= -> ->] & (Hin & Hty & Hp)%by_use_elem). split_and!; [by exists row|done|done].
    + intros [(row & Hin & <- & <-) [Hty Hp]]. exists row. split; [done|]. by apply by_use_elem.
  - intros k. by apply without_view.
Qed.

#[export] Instance CacheDb_laws : StorageLaws CacheDb.
Proof.
  split.
  - intros d k e Hg Hk. apply (rows_view_lookup (rows d) k e Hg) in Hk as (row & _ & Hk & <-). done.
  - intros k d Hg. cbn. split; [done|]. by apply lookup_by_key.
  - intros e d Hg. exact (db_insert_spec e d Hg).
  - intros now ty target d Hg Ht. cbn [delete_expired_or_least_used CacheDb_storage]. unfold db_delete_expired_or_least_used, M_map_err.
    unfold u32_wrap. rewrite Z.mod_small by done.
    destruct (cache_delete_sub now ty target d Hg) as (d' & Hrun & Hu & Hsub). rewrite Hrun. cbn [map_err].
    split_and!; [done|done|]. intros Hsz. apply (cache_delete_cleaned now ty target d d' Hg); [lia|done|done].
Qed.
End database_laws.

(** ** The two storages agree *)

Section agreement.
Context `{HO : HashOrder} `{!HashOrderLaws} `{HU : UuidSupply} `{!UuidLaws}.

(** A table whose identifiers were all drawn, and the map of the same entries. *)
Record same_cache (d : CacheDb) (s : InMemoryStorage) : Prop := {
  sc_unique : unique_rows (rows d);
  sc_drawn : forall row, row ∈ rows d -> exists n, (n < cache_uuids d)%nat /\ ce_id row = uuid_at n;
  sc_same : rows_view (rows d) = storage s
}.

Lemma db_insert_total (e : RemoteEntity) (d : CacheDb) (s : InMemoryStorage) : same_cache d s ->
  exists d', db_insert e d = (Ok tt, d') /\ (forall row, row ∈ rows d' -> exists n, (n < cache_uuids d')%nat /\ ce_id row = uuid_at n).
Proof.
  intros [Hu Hdrawn _]. unfold db_insert, mbind, M_bind, M_map_err, cache_get_by_key.
  pose proof (query_one (rows d) (fun row => bool_decide (ce_key row = re_key e))) as Hq.
  destruct (head _) as [row|]; cbn [map_err].
  - destruct Hq as [Hin Hk%bool_decide_eq_true]. unfold cache_update.
    rewrite (proj2 (existsb_elem _ (rows d))) by (exists row; split; [done|by apply bool_decide_eq_true]).
    rewrite (proj2 (existsb_false _ (rows d))).
    + cbn [negb map_err]. eexists. split; [reflexivity|]. cbn [set_rows rows cache_uuids].
      intros r (r' & -> & Hr')%list_elem_of_fmap. case_bool_decide; [exact (Hdrawn row Hin)|by apply Hdrawn].
    + intros r Hr. apply andb_false_iff. destruct (decide (ce_key r = re_key e)) as [Hkr|Hkr]; [left|right; by apply bool_decide_eq_false].
      by rewrite (unique_key (rows d) r row Hu Hr Hin) by congruence; rewrite bool_decide_eq_true_2.
  - unfold new_cache_id, cache_create. cbn [rows map_err].
    rewrite (proj2 (existsb_false _ (rows d))).
    + cbn [map_err]. eexists. split; [reflexivity|]. cbn [set_rows rows cache_uuids].
      intros r [Hr|Heq%list_elem_of_singleton]%elem_of_app; [|exists (cache_uuids d); rewrite Heq; split; [lia|done]].
      destruct (Hdrawn r Hr) as (n & Hn & Hid). exists n. split; [lia|done].
    + intros r Hr. unfold conflicts. rewrite orb_false_iff. split; [|by apply Hq]. apply bool_decide_eq_false.
      destruct (Hdrawn r Hr) as (n & Hn & ->). cbn [ce_id storage_context_to_db_context]. intros ->%(inj uuid_at). lia.
Qed.

(** C33: The cache in the database implements the cache in memory: over the same
    entries a lookup finds the same, the size reported is the same count (modulo
    the width of its counter), and an insertion succeeds and leaves the same
    entries, whether it replaces an entry or adds one, in whatever order the
    database returns rows. *)
Theorem db_refines_memory (d : CacheDb) (s : InMemoryStorage) (key : string) (ty : RemoteEntityType) (e : RemoteEntity) :
  same_cache d s ->
  (db_get_by_key key d).1 = (mem_get_by_key key s).1 /\
  (exists n, mem_get_storage_size ty s = (Ok n, s) /\ db_get_storage_size ty d = (Ok (n mod 4294967296), d)) /\
  exists d' s', db_insert e d = (Ok tt, d') /\ mem_insert e s = (Ok tt, s') /\ same_cache d' s'.
Proof.
  intros Hs. pose proof Hs as [Hu Hdrawn Hsame]. split; [|split].
  - unfold db_get_by_key, cache_get_by_key, mem_get_by_key, mbind, M_bind, M_map_err, mret, M_ret. cbn [map_err fst].
    by rewrite lookup_by_key, Hsame.
  - unfold mem_get_storage_size. eexists. split; [reflexivity|]. unfold db_get_storage_size, get_repository_size, M_map_err, u32_wrap, len.
    cbn [map_err]. do 3 f_equal. rewrite mem_count_spec, <- Hsame, rows_count by done. done.
  - destruct (db_insert_total e d s Hs) as (d' & Hrun & Hdrawn'). pose proof (db_insert_spec e d Hu) as Hi. rewrite Hrun in Hi.
    destruct Hi as [Hu' Hv]. exists d', (mkInMemoryStorage (<[re_key e := e]> (storage s))). split_and!; [done|done|].
    constructor; [done|done|]. by rewrite Hv, Hsame.
Qed.

(** Cleaning either storage down to a size removes the expired entries of the
    type and, beyond that, evicts only what is needed, the least recently used
    entries first, until the size is reached or only persistent entries are
    left; entries of other types and persistent entries stay. *)
Theorem storages_clean (now : Z) (ty : RemoteEntityType) (target : Z) (d : CacheDb) (s : InMemoryStorage) :
  unique_rows (rows d) -> 0 <= target < 4294967296 -> Z.of_nat (length (rows d)) < 4294967296 ->
  (exists s', mem_delete_expired_or_least_used now ty target s = (Ok tt, s') /\ cleaned now ty target (storage s) (storage s')) /\
  (exists d', db_delete_expired_or_least_used now ty target d = (Ok tt, d') /\
     cleaned now ty target (rows_view (rows d)) (rows_view (rows d'))).
Proof.
  intros Hu Ht Hlen. split; [apply mem_clean_cleaned; lia|]. rewrite <- rows_view_size in Hlen by done.
  destruct (cache_delete_sub now ty target d Hu) as (d' & Hrun & _). exists d'. split.
  - unfold db_delete_expired_or_least_used, M_map_err, u32_wrap. by rewrite Z.mod_small, Hrun.
  - apply (cache_delete_cleaned now ty target d d' Hu); [lia|done|done].
Qed.

(** An expired entry that the resolver confirms by a new modification date
    keeps its expiration date, so the cleaning at the end of the same call
    removes it: its value is returned, and nothing is cached for the URL. *)
Theorem confirmed_entry_dropped {E : Type} (R : Resolver E) (self : CachingLoader) (t : Readings) (url : string) (s : Cached InMemoryStorage)
  (e : RemoteEntity) (x date : Z) :
  storage (cache s) !! url = Some e -> re_key e = url -> re_expiration_date e = Some x -> x < t_check t -> x < t_clean t ->
  re_entity_type e = cl_remote_entity_type self ->
  0 <= cl_cache_size self ->
  do_resolve url (Some (re_last_modified e)) = inr (LastModificationDateUpdate date) ->
  exists s', cache_get self false t url false s = (Ok (re_value e, re_media_type e), s') /\ storage (cache s') !! url = None.
Proof.
  intros Hk Hkey Hx Hlt Hclean Hty Hsize Hr.
  unfold cache_get, mbind, M_bind, M_map_err, on_storage. cbn [get_by_key InMemoryStorage_storage]. unfold mem_get_by_key. cbn [map_err].
  rewrite Hk. unfold load_entry. rewrite bool_decide_eq_false_2 by congruence. cbn [andb negb].
  unfold resolve_with_caching. rewrite Hx. unfold context_requires_update. rewrite (proj2 (Z.ltb_lt x (t_check t))) by done.
  unfold mbind, M_bind, resolve. rewrite Hr. cbn [refreshed]. unfold store_context, on_storage.
  cbn [store_insert InMemoryStorage_storage]. unfold mem_insert. cbn [cache calls].
  unfold clean_old_entries_if_needed, on_storage. cbn [delete_expired_or_least_used InMemoryStorage_storage cache].
  set (e' := with_last_used _ _).
  destruct (mem_clean_cleaned (t_clean t) (cl_remote_entity_type self) (cl_cache_size self)
              (mkInMemoryStorage (<[re_key e' := e']> (storage (cache s)))) Hsize) as (s' & -> & Hc).
  eexists. split; [reflexivity|]. cbn [cache snd]. destruct (storage s' !! url) as [e2|] eqn:He2; [|done].
  exfalso. assert (Hin : <[re_key e' := e']> (storage (cache s)) !! url = Some e2) by (eapply lookup_weaken; [exact He2|apply Hc]).
  cbn [re_key e' with_last_used] in Hin. rewrite Hkey, lookup_insert_eq in Hin. injection Hin as <-.
  pose proof (cl_expired _ _ _ _ _ Hc url _ He2) as Hexp. unfold of_type, not_expired in Hexp.
  cbn [re_entity_type re_expiration_date e' with_last_used] in Hexp. rewrite Hx, Hty, bool_decide_eq_true_2 in Hexp by done.
  specialize (Hexp eq_refl). apply Z.leb_le in Hexp. lia.
Qed.
End agreement.

(** ** A concrete cache *)

Module CacheExample.
#[export] Instance order : HashOrder := { hash_order := fun _ l => rev l }.
#[export] Instance order_laws : HashOrderLaws.
Proof. constructor. intros A l. symmetry. apply Permutation_rev. Qed.
#[export] Instance ids : UuidSupply := RepoWitness.uuids.
#[export] Instance ids_laws : UuidLaws := RepoWitness.uuid_laws.

(** A resolver that answers [a] with a value, confirms [b] and fails else. *)
#[export] Instance origin : Resolver unit := {
  do_resolve url since :=
    if String.eqb url "a" then inr (NewValue [1; 2] (Some "json") (Some 130))
    else if String.eqb url "b" then inr (LastModificationDateUpdate 140)
    else inl tt
}.

Definition loader : CachingLoader := mkCachingLoader JsonLdContext 1 50 10.
Definition at_time (t : Z) : Readings := mkReadings t t t t t.
Definition entry (key : string) (expires : option Z) (used : Z) : RemoteEntity :=
  mkRemoteEntity 90 expires JsonLdContext key [7] used None.
Definition filled : InMemoryStorage :=
  mkInMemoryStorage (list_to_map ((fun e => (re_key e, e)) <$> [entry "b" (Some 100) 5; entry "c" (Some 200) 6; entry "p" None 1])).
Definition table : CacheDb :=
  mkCacheDb (zip_with storage_context_to_db_context [1; 2; 3] [entry "b" (Some 100) 5; entry "c" (Some 200) 6; entry "p" None 1]) 3.
Definition start : World InMemoryStorage := mkWorld (mkCached (mkInMemoryStorage ∅) []) [] 100.
(** After the first call for [a]. *)
Definition later : World InMemoryStorage :=
  mkWorld (cache_get loader false (at_time 120) "a" false (w_cache start)).2 [mkFetch "a" [1; 2] (Some "json") 120] 120.

Lemma later_reached : rtc (cache_step (E := unit) 50) start later.
Proof.
  apply rtc_once. exact (StepGet 50 start origin loader false (at_time 120) "a" false (Ok ([1; 2], Some "json"))
    (w_cache later) ltac:(done) ltac:(done) ltac:(done) eq_refl).
Qed.

Lemma filled_good : good filled.
Proof.
  intros k e Hk. unfold filled in Hk. cbn [storage] in Hk. apply elem_of_list_to_map in Hk; [|by apply (bool_decide_unpack _)].
  by repeat (apply elem_of_cons in Hk as [[= -> ->]|Hk]; [done|]); apply not_elem_of_nil in Hk.
Qed.

Lemma table_unique : unique_rows (rows table).
Proof. split; by apply (bool_decide_unpack _). Qed.
End CacheExample.
Import CacheExample.



Lemma db_refines_memory_witness : exists d' s', db_insert (entry "c" (Some 300) 9) table = (Ok tt, d') /\
  mem_insert (entry "c" (Some 300) 9) filled = (Ok tt, s') /\ same_cache d' s'.
Proof.
  refine (proj2 (proj2 (db_refines_memory table filled "b" JsonLdContext (entry "c" (Some 300) 9) _))).
  constructor; [apply table_unique| |vm_compute; reflexivity].
  intros row Hrow. apply elem_of_cons in Hrow as [->|Hrow]; [exists 0%nat; cbn; lia|].
  apply elem_of_cons in Hrow as [->|Hrow]; [exists 1%nat; cbn; lia|].
  apply list_elem_of_singleton in Hrow as ->. exists 2%nat. cbn. lia.
Defined.

Lemma storages_clean_witness : exists s' d',
  mem_delete_expired_or_least_used 120 JsonLdContext 1 filled = (Ok tt, s') /\ cleaned 120 JsonLdContext 1 (storage filled) (storage s') /\
  db_delete_expired_or_least_used 120 JsonLdContext 1 table = (Ok tt, d') /\
  cleaned 120 JsonLdContext 1 (rows_view (rows table)) (rows_view (rows d')).
Proof.
  destruct (storages_clean 120 JsonLdContext 1 table filled table_unique ltac:(done) ltac:(done)) as [(s' & Hs & Hc) (d' & Hd & Hcd)].
  by exists s', d'.
Defined.

Lemma confirmed_entry_dropped_witness : exists s',
  cache_get loader false (at_time 150) "b" false (mkCached filled []) = (Ok ([7], None), s') /\ storage (cache s') !! "b" = None.
Proof.
  exact (confirmed_entry_dropped origin loader (at_time 150) "b" (mkCached filled []) (entry "b" (Some 100) 5) 100 140
           eq_refl eq_refl eq_refl ltac:(done) ltac:(done) eq_refl ltac:(done) eq_refl).
Defined.
