(* ===== verification/WalletStore.v ===== *)
(** * The wallet unit repository

    Models [lib/sql-data-provider/src/wallet_unit/repository.rs] and
    [wallet_unit_attested_key/repository.rs] with their mappers and entities: the
    tables of wallet units and attested keys with the constraints of the
    migrations, and every operation but the list query. The column
    [revocation_list_entry_id] of an attested key belongs to the store of the
    revocation lists, of type [R], seen through the class [KeyLinks]. A public JWK
    is its JSON text. The clock and the supply of identifiers and nonces are
    counters of the store: every reading is a new one. *)

From S2P Require Import Prelude StatusBits KeySelection RevocationRepo.
#[local] Open Scope Z_scope.

(** ** Data *)

Inductive WalletUnitOs := Ios | Android | Web.
#[export] Instance WalletUnitOs_eq_dec : EqDecision WalletUnitOs.
Proof. solve_decision. Defined.

Inductive WalletUnitStatus := UsPending | UsActive | UsRevoked | UsUnattested | UsError.
#[export] Instance WalletUnitStatus_eq_dec : EqDecision WalletUnitStatus.
Proof. solve_decision. Defined.

Record WalletOrganisation := mkWalletOrganisation {
  wo_id : Z;
  wo_deactivated_at : option Z;
  wo_wallet_provider : option string;
  wo_wallet_provider_issuer : option Z
}.

(** [WalletUnitAttestedKeyRevocationInfo]. *)
Record KeyRevocation := mkKeyRevocation { kr_list : RevocationList; kr_index : Z }.

Record AttestedKey := mkWalletAttestedKey {
  ak_id : Z;
  ak_wallet_unit_id : Z;
  ak_created_date : Z;
  ak_last_modified : Z;
  ak_expiration_date : Z;
  ak_public_key_jwk : string;
  ak_revocation : option KeyRevocation
}.

Record WalletUnit := mkWalletUnit {
  wu_id : Z;
  wu_name : string;
  wu_created_date : Z;
  wu_last_modified : Z;
  wu_os : WalletUnitOs;
  wu_status : WalletUnitStatus;
  wu_wallet_provider_name : string;
  wu_authentication_key_jwk : option string;
  wu_last_issuance : option Z;
  wu_nonce : option string;
  wu_organisation : option WalletOrganisation;
  wu_attested_keys : option (list AttestedKey)
}.

(** The rows. *)
Record UnitRow := mkUnitRow {
  ur_id : Z;
  ur_created_date : Z;
  ur_last_modified : Z;
  ur_last_issuance : option Z;
  ur_name : string;
  ur_os : WalletUnitOs;
  ur_status : WalletUnitStatus;
  ur_wallet_provider_name : string;
  ur_authentication_key_jwk : option string;
  ur_nonce : option string;
  ur_organisation_id : Z
}.

Record KeyRow := mkKeyRow {
  kw_id : Z;
  kw_created_date : Z;
  kw_last_modified : Z;
  kw_expiration_date : Z;
  kw_public_key_jwk : string;
  kw_wallet_unit_id : Z
}.

Inductive HistoryAction :=
| HaAccepted | HaCreated | HaCsrGenerated | HaDeactivated | HaDeleted | HaErrored | HaIssued | HaOffered | HaRejected | HaRequested
| HaRevoked | HaPending | HaSuspended | HaRestored | HaShared | HaImported | HaClaimsRemoved | HaActivated | HaWithdrawn | HaRemoved
| HaRetracted | HaUpdated | HaReactivated | HaExpired | HaInteractionCreated | HaInteractionErrored | HaInteractionExpired | HaDelivered.
#[export] Instance HistoryAction_eq_dec : EqDecision HistoryAction.
Proof. solve_decision. Defined.

(** An entry of the history of a wallet unit; [hs_hash] is the metadata
    [WalletUnitJWT]. *)
Record WalletHistory := mkWalletHistory { hs_unit : Z; hs_action : HistoryAction; hs_hash : option string }.

Record WalletUnitRelations := mkWalletUnitRelations {
  rel_organisation : bool;
  rel_attested_keys : option (option RevocationListRelations)  (** the relations of the keys' revocation *)
}.

Record UpdateWalletUnitRequest := mkUpdateWalletUnit {
  uw_status : option WalletUnitStatus;
  uw_last_issuance : option Z;
  uw_authentication_key_jwk : option string;
  uw_attested_keys : option (list AttestedKey)
}.

(** The tables, the store of the revocation lists, and the counters. *)
Record WalletDb (R : Type) := mkWalletDb {
  units : list UnitRow;
  key_rows : list KeyRow;
  organisations : list WalletOrganisation;
  history : list WalletHistory;
  revocations : R;
  wallet_ids : nat;
  ticks : nat;
  nonces : nat
}.
Arguments mkWalletDb {R} _ _ _ _ _ _ _ _.
Arguments units {R} _.
Arguments key_rows {R} _.
Arguments organisations {R} _.
Arguments history {R} _.
Arguments revocations {R} _.
Arguments wallet_ids {R} _.
Arguments ticks {R} _.
Arguments nonces {R} _.

(** The column [revocation_list_entry_id]: the insertion of a key that has no
    entry, and [get_revocation]. *)
Class KeyLinks (R : Type) := {
  insert_link : Z -> R -> R;
  key_revocation : RevocationListRelations -> Z -> R -> res DataLayerError (option KeyRevocation)
}.

Class WalletClock := { clock_at : nat -> Z; nonce_at : nat -> string }.

(** ** The store *)

Section store.
Context {R : Type} `{KeyLinks R} `{UuidSupply} `{WalletClock}.

Definition set_units (us : list UnitRow) (w : WalletDb R) : WalletDb R :=
  mkWalletDb us (key_rows w) (organisations w) (history w) (revocations w) (wallet_ids w) (ticks w) (nonces w).
Definition set_key_rows (ks : list KeyRow) (r : R) (w : WalletDb R) : WalletDb R :=
  mkWalletDb (units w) ks (organisations w) (history w) r (wallet_ids w) (ticks w) (nonces w).
Definition set_history (h : list WalletHistory) (w : WalletDb R) : WalletDb R :=
  mkWalletDb (units w) (key_rows w) (organisations w) h (revocations w) (wallet_ids w) (ticks w) (nonces w).
Definition set_revocations (r : R) (w : WalletDb R) : WalletDb R :=
  mkWalletDb (units w) (key_rows w) (organisations w) (history w) r (wallet_ids w) (ticks w) (nonces w).

Definition clock_now {E : Type} : M (WalletDb R) E Z := fun w =>
  (Ok (clock_at (ticks w)),
   mkWalletDb (units w) (key_rows w) (organisations w) (history w) (revocations w) (wallet_ids w) (S (ticks w)) (nonces w)).
Definition new_wallet_id {E : Type} : M (WalletDb R) E Z := fun w =>
  (Ok (uuid_at (wallet_ids w)),
   mkWalletDb (units w) (key_rows w) (organisations w) (history w) (revocations w) (S (wallet_ids w)) (ticks w) (nonces w)).
Definition generate_nonce {E : Type} : M (WalletDb R) E string := fun w =>
  (Ok (nonce_at (nonces w)),
   mkWalletDb (units w) (key_rows w) (organisations w) (history w) (revocations w) (wallet_ids w) (ticks w) (S (nonces w))).

(** A computation of the revocation lists. *)
Definition on_revocations {E A : Type} (m : M R E A) : M (WalletDb R) E A := fun w =>
  let '(r, s) := m (revocations w) in (r, set_revocations s w).

(** [create_history]; a failure is only logged. *)
Definition create_wallet_unit_history {E : Type} (id : Z) (action : HistoryAction) (hash : option string) :
  M (WalletDb R) E unit := fun w => (Ok tt, set_history (history w ++ [mkWalletHistory id action hash]) w).
Definition delete_history_by_entity_id {E : Type} (id : Z) : M (WalletDb R) E unit := fun w =>
  (Ok tt, set_history (List.filter (fun h => negb (hs_unit h =? id)) (history w)) w).

(** *** Attested keys *)

Definition find_unit (id : Z) (w : WalletDb R) : option UnitRow := find_first (fun u => ur_id u =? id) (units w).
Definition find_organisation (id : Z) (w : WalletDb R) : option WalletOrganisation :=
  find_first (fun o => wo_id o =? id) (organisations w).

Definition insert_key (row : KeyRow) : M (WalletDb R) DataLayerError unit := fun w =>
  if existsb (fun k => kw_id k =? kw_id row) (key_rows w) then (Err AlreadyExists, w)
  else match find_unit (kw_wallet_unit_id row) w with
       | None => (Err IncorrectParameters, w)
       | Some _ => (Ok tt, set_key_rows (key_rows w ++ [row]) (insert_link (kw_id row) (revocations w)) w)
       end.

Definition create_attested_key (request : AttestedKey) : M (WalletDb R) DataLayerError unit :=
  insert_key (mkKeyRow (ak_id request) (ak_created_date request) (ak_last_modified request)
                (ak_expiration_date request) (ak_public_key_jwk request) (ak_wallet_unit_id request)).

(** [INSERT ... ON CONFLICT (id) DO UPDATE]. *)
Definition upsert_attested_key (request : AttestedKey) : M (WalletDb R) DataLayerError unit :=
  now ← clock_now;
  let row := mkKeyRow (ak_id request) now now (ak_expiration_date request) (ak_public_key_jwk request)
               (ak_wallet_unit_id request) in
  w ← get;
  if existsb (fun k => kw_id k =? kw_id row) (key_rows w) then
    match find_unit (kw_wallet_unit_id row) w with
    | None => throw IncorrectParameters
    | Some _ =>
        put (set_key_rows
               ((fun k => if kw_id k =? kw_id row
                          then mkKeyRow (kw_id k) (kw_created_date k) (kw_last_modified row) (kw_expiration_date row)
                                 (kw_public_key_jwk row) (kw_wallet_unit_id row)
                          else k) <$> key_rows w) (revocations w) w)
    end
  else insert_key row.

Definition convert_model (relations : option RevocationListRelations) (row : KeyRow) (w : WalletDb R) :
  res DataLayerError AttestedKey :=
  revocation ← match relations with
               | Some rel => key_revocation rel (kw_id row) (revocations w)
               | None => Ok None
               end;
  Ok (mkWalletAttestedKey (kw_id row) (kw_wallet_unit_id row) (kw_created_date row) (kw_last_modified row)
        (kw_expiration_date row) (kw_public_key_jwk row) revocation).

Definition get_by_wallet_unit_id (id : Z) (relations : option RevocationListRelations) (w : WalletDb R) :
  res DataLayerError (list AttestedKey) :=
  try_map (fun row => convert_model relations row w) (List.filter (fun k => kw_wallet_unit_id k =? id) (key_rows w)).

(** *** Wallet units *)

Definition unit_row (request : WalletUnit) : res DataLayerError UnitRow :=
  organisation ← ok_or (wu_organisation request) DlDb;
  Ok (mkUnitRow (wu_id request) (wu_created_date request) (wu_last_modified request) (wu_last_issuance request)
        (wu_name request) (wu_os request) (wu_status request) (wu_wallet_provider_name request)
        (wu_authentication_key_jwk request) (wu_nonce request) (wo_id organisation)).

(** The unique index on the authentication key and the organisation; no key
    conflicts with nothing. *)
Definition same_auth_key (key : option string) (organisation_id : Z) (u : UnitRow) : bool :=
  bool_decide (is_Some key) && bool_decide (ur_authentication_key_jwk u = key) && (ur_organisation_id u =? organisation_id).

Definition insert_unit (row : UnitRow) : M (WalletDb R) DataLayerError unit := fun w =>
  if existsb (fun u => (ur_id u =? ur_id row) ||
                       same_auth_key (ur_authentication_key_jwk row) (ur_organisation_id row) u) (units w)
  then (Err AlreadyExists, w)
  else match find_organisation (ur_organisation_id row) w with
       | None => (Err IncorrectParameters, w)
       | Some _ => (Ok tt, set_units (units w ++ [row]) w)
       end.

Definition create_wallet_unit (request : WalletUnit) : M (WalletDb R) DataLayerError Z :=
  transaction (
    row ← lift (unit_row request);
    _ ← insert_unit row;
    _ ← match wu_attested_keys request with
        | Some attested_keys => for_each create_attested_key attested_keys
        | None => mret tt
        end;
    mret (ur_id row)).

Definition unit_of_row (row : UnitRow) : WalletUnit :=
  mkWalletUnit (ur_id row) (ur_name row) (ur_created_date row) (ur_last_modified row) (ur_os row) (ur_status row)
    (ur_wallet_provider_name row) (ur_authentication_key_jwk row) (ur_last_issuance row) (ur_nonce row) None None.

Definition with_relations (organisation : option WalletOrganisation) (keys : option (list AttestedKey)) (u : WalletUnit) : WalletUnit :=
  mkWalletUnit (wu_id u) (wu_name u) (wu_created_date u) (wu_last_modified u) (wu_os u) (wu_status u)
    (wu_wallet_provider_name u) (wu_authentication_key_jwk u) (wu_last_issuance u) (wu_nonce u) organisation keys.

Definition get_wallet_unit_row (id : Z) (relations : WalletUnitRelations) : M (WalletDb R) DataLayerError (option WalletUnit) :=
  w ← get;
  match find_unit id w with
  | None => mret None
  | Some row =>
      organisation ← lift (if rel_organisation relations
                           then o ← ok_or (find_organisation (ur_organisation_id row) w)
                                      (MissingRequiredRelation "wallet_unit-organisation" (ur_organisation_id row));
                                Ok (Some o)
                           else Ok None);
      keys ← lift (match rel_attested_keys relations with
                   | Some rel => ks ← get_by_wallet_unit_id id rel w; Ok (Some ks)
                   | None => Ok None
                   end);
      mret (Some (with_relations organisation keys (unit_of_row row)))
  end.

Definition updated_unit (now : Z) (request : UpdateWalletUnitRequest) (u : UnitRow) : UnitRow :=
  mkUnitRow (ur_id u) (ur_created_date u) now
    (match uw_last_issuance request with Some t => Some t | None => ur_last_issuance u end)
    (ur_name u) (ur_os u) (default (ur_status u) (uw_status request)) (ur_wallet_provider_name u)
    (match uw_authentication_key_jwk request with Some k => Some k | None => ur_authentication_key_jwk u end)
    (ur_nonce u) (ur_organisation_id u).

(** [update_model.update]. *)
Definition update_unit (now id : Z) (request : UpdateWalletUnitRequest) : M (WalletDb R) DataLayerError unit := fun w =>
  match find_unit id w with
  | None => (Err RecordNotUpdated, w)
  | Some u =>
      if existsb (fun other => negb (ur_id other =? id) &&
                               same_auth_key (ur_authentication_key_jwk (updated_unit now request u)) (ur_organisation_id u) other)
           (units w) then (Err AlreadyExists, w)
      else (Ok tt, set_units ((fun v => if ur_id v =? id then updated_unit now request v else v) <$> units w) w)
  end.

Definition update_wallet_unit (id : Z) (request : UpdateWalletUnitRequest) : M (WalletDb R) DataLayerError unit :=
  now ← clock_now;
  M_map_err (fun _ => TransactionError "")
    (transaction (
       _ ← update_unit now id request;
       match uw_attested_keys request with
       | Some attested_keys => for_each upsert_attested_key attested_keys
       | None => mret tt
       end)).

(** The foreign key of the attested keys restricts the deletion. *)
Definition delete_wallet_unit_row (id : Z) : M (WalletDb R) DataLayerError unit := fun w =>
  if existsb (fun k => kw_wallet_unit_id k =? id) (key_rows w) && bool_decide (is_Some (find_unit id w))
  then (Err IncorrectParameters, w)
  else (Ok tt, set_units (List.filter (fun u => negb (ur_id u =? id)) (units w)) w).

Definition get_organisation_for_wallet_provider (wallet_provider : string) :
  M (WalletDb R) DataLayerError (option WalletOrganisation) := fun w =>
  (Ok (find_first (fun o => bool_decide (wo_wallet_provider o = Some wallet_provider)) (organisations w)), w).
End store.
