(* ===== verification/WalletProvider.v ===== *)
(** * The wallet provider service

    Models [lib/one-core/src/service/wallet_provider/service.rs] with its
    [validator.rs] and [mapper.rs]: registration, activation, the issuance of
    attestations, revocation, deletion and reading of wallet units. A wallet unit
    is registered with a proof of its key, or gets a nonce and is activated by an
    attestation of the platform for that nonce. JWT parsing, signatures, key
    storages and the platform attestations of [app_integrity] are the class
    [WalletCrypto]; the revocation method is a record of operations on its store.
    Error messages are dropped, dates are unbounded numbers of nanoseconds. *)

From stdpp Require Import pretty.
From S2P Require Import Prelude StatusBits KeySelection RevocationRepo RevocationMethod.
From S2P Require Import BitstringMethod TokenMethod ListFilter Validity Paths Datatypes WalletStore.
#[local] Open Scope Z_scope.

(** ** Data *)

Inductive WalletProviderError :=
| WpMissingWalletUnit (id : Z)
| WpWalletProviderDisabled (e : ConfigValidationError)
| WpMissingProof
| WpMissingPublicKey
| WpCouldNotVerifyProof
| WpWalletUnitRevoked
| WpMissingNonce
| WpInvalidNonce
| WpInvalidWalletUnitState
| WpAppIntegrityValidation
| WpAppIntegrityCheckRequired
| WpAppIntegrityCheckNotRequired
| WpWalletUnitAlreadyExists
| WpNotAssociatedWithOrganisation
| WpNotConfigured
| WpOrganisationDisabled
| WpMustBeActive
| WpMustBePending
| WpMissingIdentifier (id : Z)
| WpMappingError
(** the nested errors, by their source *)
| WpConfig (e : ConfigValidationError)
| WpInvalidRevocationType (method : string)
| WpValidation
| WpToken
| WpKeyProvider
| WpMissingRevocationMethod (method : string)
| WpRevocation (e : RevocationError)
| WpKeySelection (e : KeySelectionError)
| WpSession (e : ValidityError)
| WpData (e : DataLayerError).

Record AndroidBundle := mkAndroidBundle {
  ab_bundle_id : string;
  ab_signing_certificate_fingerprints : list string;
  ab_trusted_attestation_cas : list string
}.

Record IOSBundle := mkIOSBundle {
  ib_bundle_id : string;
  ib_trusted_attestation_cas : list string;
  ib_enforce_production_build : bool
}.

Record IntegrityCheck := mkIntegrityCheck {
  ic_android : option AndroidBundle;
  ic_ios : option IOSBundle;
  ic_enabled : bool;
  ic_timeout : Z
}.

Record EudiWalletInfoConfig := mkEudiWalletInfo {
  ew_provider_name : string;
  ew_solution_id : string;
  ew_solution_version : string;
  ew_wscd_type : string
}.

(** The parameters that the operations below read. *)
Record WalletProviderParams := mkWalletProviderParams {
  wp_wallet_name : string;
  wp_wallet_link : string;
  wp_wallet_client_id : string;
  wp_wia_expiration_time : Z;
  wp_integrity_check : IntegrityCheck;
  wp_wua_expiration_time : Z;
  wp_wua_revocation_method : option string;
  wp_device_auth_leeway : Z;
  wp_eudi_wallet_info : option EudiWalletInfoConfig
}.

(** A configured provider; [wf_params = None]: the parameters do not parse. *)
Record WalletProviderFields := mkWalletProviderFields { wf_enabled : bool; wf_params : option WalletProviderParams }.

Inductive RevocationMethodType := RtMdocMsoUpdateSuspension | RtBitstringStatusList | RtTokenStatusList | RtCrl.
#[export] Instance RevocationMethodType_eq_dec : EqDecision RevocationMethodType.
Proof. solve_decision. Defined.

Record WalletConfig := mkWalletConfig {
  wc_wallet_provider : gmap string WalletProviderFields;
  wc_revocation : gmap string RevocationMethodType;
  wc_base_url : option string
}.

(** [DecomposedJwt<NoncePayload>]. *)
Record ProofJwt := mkProofJwt {
  pj_algorithm : string;
  pj_jwk : option string;
  pj_issued_at : option Z;
  pj_invalid_before : option Z;
  pj_expires_at : option Z;
  pj_audience : option (list string);
  pj_nonce : option string;
  pj_unverified_jwt : string;
  pj_signature : list Z
}.

Inductive JwtPublicKeyInfo := JkJwk (jwk : string) | JkX5c (chain : list string).

Inductive KeyStorageSecurityLevel := LevelHigh | LevelModerate | LevelEnhancedBasic | LevelBasic.

(** The claims of the two attestations; the status of a key attestation is the
    index and the URI of its entry. *)
Inductive AttestationClaims :=
| WiaClaims (wallet_name wallet_link : string) (info : option EudiWalletInfoConfig)
| WuaClaims (key_storage : KeyStorageSecurityLevel) (attested_key : string) (info : option EudiWalletInfoConfig)
    (status : option (Z * string)).

Record AttestationJwt := mkAttestationJwt {
  aj_type : string;
  aj_algorithm : string;
  aj_key_id : option string;
  aj_public_key_info : JwtPublicKeyInfo;
  aj_issued_at : Z;
  aj_expires_at : Z;
  aj_invalid_before : Z;
  aj_issuer : option string;
  aj_subject : option string;
  aj_proof_of_possession_key : option string;
  aj_custom : AttestationClaims
}.

Record RegisterWalletUnitRequest := mkRegisterRequest {
  rr_wallet_provider : string;
  rr_os : WalletUnitOs;
  rr_public_key : option string;
  rr_proof : option string
}.

Record WalletUnitActivationRequest := mkActivationRequest {
  ar_attestation : list string;
  ar_attestation_key_proof : string;
  ar_device_signing_key_proof : option string
}.

Record IssueWuaRequest := mkIssueWua { iw_proof : string; iw_security_level : KeyStorageSecurityLevel }.
Record IssueAttestationRequest := mkIssueRequest { ir_wia : list string; ir_wua : list IssueWuaRequest }.

Inductive AttestedKeyInput := NewlyCreated (key : AttestedKey) | Reused (revocation : option KeyRevocation).
Record KeyAttestationInput := mkKeyInput {
  ki_holder_jwk : string;
  ki_security_level : KeyStorageSecurityLevel;
  ki_key : AttestedKeyInput
}.

(** Code of other crates, and [app_integrity]. *)
Class WalletCrypto := {
  KeyHandle : Type;
  Signer : Type;
  decompose_token : string -> option ProofJwt;
  known_jose_alg : string -> bool;
  alg_parse_jwk : string -> string -> option KeyHandle;
  any_parse_jwk : string -> option KeyHandle;
  verify_signature : KeyHandle -> string -> list Z -> bool;
  webauthn_signed_jwt_to_msg_and_sig : ProofJwt -> option (string * list Z);
  public_key_as_jwk : KeyHandle -> option string;
  validate_attestation_ios : string -> string -> IOSBundle -> option KeyHandle;
  validate_attestation_android : list string -> string -> AndroidBundle -> option KeyHandle;
  wallet_signer : Key -> option string -> option Signer;
  storage_key_handle : Key -> option KeyHandle;
  pem_chain_into_x5c : string -> option (list string);
  jose_alg : Signer -> option string;
  signer_key_id : Signer -> option string;
  tokenize : Signer -> AttestationJwt -> option string;
  hash_base64 : string -> option string;
  parse_url : string -> option string;
  find_identifier : Z -> res DataLayerError (option Identifier)
}.

(** The operations of a revocation method on attestations. [add] is given what
    the wallet unit repository answers it for the unit of the key. *)
Record AttestationMethod (R : Type) := mkAttestationMethod {
  am_add_issued_attestation : res DataLayerError (option (option (option Z))) -> Z -> Z -> M R RevocationError CredentialStatus;
  am_get_attestation_revocation_info : KeyRevocation -> M R RevocationError CredentialStatus;
  am_update_attestation_entries : list KeyRevocation -> RevocationState -> M R RevocationError unit
}.
Arguments am_add_issued_attestation {R} _ _ _ _ _.
Arguments am_get_attestation_revocation_info {R} _ _ _.
Arguments am_update_attestation_entries {R} _ _ _ _.

Class AttestationMethods (R : Type) := { attestation_method : string -> option (AttestationMethod R) }.

Definition seconds (s : Z) : Z := s * 1000000000.
(** [as i64]. *)
Definition as_i64 (z : Z) : Z := (z + 9223372036854775808) mod 18446744073709551616 - 9223372036854775808.

(** ** Validators and mappers *)

Definition validate_org_wallet_provider (organisation : WalletOrganisation) (wallet_provider : string) :
  res WalletProviderError Z :=
  if bool_decide (is_Some (wo_deactivated_at organisation)) then Err WpOrganisationDisabled
  else match wo_wallet_provider organisation with
       | None => Err WpNotConfigured
       | Some org_provider =>
           if negb (bool_decide (org_provider = wallet_provider)) then Err WpNotConfigured
           else ok_or (wo_wallet_provider_issuer organisation) WpNotConfigured
       end.

(** An expiration time of more than a day without revocation is only logged. *)
Definition validate_revocation_method (config : WalletConfig) (params : WalletProviderParams) :
  res WalletProviderError unit :=
  match wp_wua_revocation_method params with
  | Some revocation_method =>
      revocation_type ← map_err WpConfig (get_fields (wc_revocation config) revocation_method);
      fail_if (negb (bool_decide (revocation_type = RtTokenStatusList))) (WpInvalidRevocationType revocation_method)
  | None => Ok tt
  end.

Definition get_wallet_provider_config_params (config : WalletConfig) (wallet_provider : string) :
  res WalletProviderError WalletProviderParams :=
  fields ← map_err WpWalletProviderDisabled (get_if_enabled wf_enabled (wc_wallet_provider config) wallet_provider);
  params ← ok_or (wf_params fields) (WpConfig (FieldsDeserialization wallet_provider));
  _ ← validate_revocation_method config params;
  Ok params.

Definition os_string (os : WalletUnitOs) : string :=
  match os with Ios => "IOS" | Android => "ANDROID" | Web => "WEB" end.

Definition map_already_exists_error (error : DataLayerError) : WalletProviderError :=
  match error with AlreadyExists => WpWalletUnitAlreadyExists | e => WpData e end.

(** ** The service *)

Section service.
Context {R : Type} `{KeyLinks R} `{UuidSupply} `{WalletClock} `{WalletCrypto} `{AttestationMethods R} `{X509}.
Context (config : WalletConfig).
#[local] Notation Svc := (M (WalletDb R) WalletProviderError).

(** *** Proofs *)

(** [validate_issuance_time], [validate_not_before_time] and
    [validate_expiration_time] of [validator/mod.rs]. *)
Definition not_in_future (date : option Z) (leeway : Z) : Svc unit :=
  match date with
  | None => mret tt
  | Some date => now ← clock_now; lift (fail_if (now + seconds leeway <? date) WpValidation)
  end.

Definition not_expired_yet (date : option Z) (leeway : Z) : Svc unit :=
  match date with
  | None => mret tt
  | Some date => now ← clock_now; lift (fail_if (date <? now - seconds leeway) WpValidation)
  end.

Definition validate_proof_payload (proof : ProofJwt) (leeway : Z) (nonce : option string) : Svc unit :=
  _ ← not_in_future (pj_issued_at proof) leeway;
  _ ← lift (fail_if (bool_decide (pj_invalid_before proof = None)) WpCouldNotVerifyProof);
  _ ← not_in_future (pj_invalid_before proof) leeway;
  _ ← lift (fail_if (bool_decide (pj_expires_at proof = None)) WpCouldNotVerifyProof);
  _ ← not_expired_yet (pj_expires_at proof) leeway;
  audience ← lift (ok_or (pj_audience proof) WpCouldNotVerifyProof);
  _ ← lift (match wc_base_url config with
            | Some expected => fail_if (negb (bool_decide (expected ∈ audience))) WpValidation
            | None => Ok tt
            end);
  lift (match nonce with
        | Some nonce => fail_if (negb (bool_decide (pj_nonce proof = Some nonce))) WpCouldNotVerifyProof
        | None => Ok tt
        end).

Definition verify_attestation_proof (proof : ProofJwt) (public_key : KeyHandle) (os : WalletUnitOs)
  (integrity_check_enabled : bool) (leeway : Z) (nonce : option string) : Svc unit :=
  message ← lift (match integrity_check_enabled, os with
                  | true, Ios => ok_or (webauthn_signed_jwt_to_msg_and_sig proof) WpToken
                  | _, _ => Ok (pj_unverified_jwt proof, pj_signature proof)
                  end);
  _ ← lift (fail_if (negb (verify_signature public_key message.1 message.2)) WpCouldNotVerifyProof);
  validate_proof_payload proof leeway nonce.

Definition verify_device_signing_proof (proof : ProofJwt) (public_key : KeyHandle) (leeway : Z) (nonce : option string) : Svc unit :=
  _ ← lift (fail_if (negb (verify_signature public_key (pj_unverified_jwt proof) (pj_signature proof))) WpCouldNotVerifyProof);
  validate_proof_payload proof leeway nonce.

Definition parse_jwk (key_algorithm jwk : string) : res WalletProviderError KeyHandle :=
  _ ← fail_if (negb (known_jose_alg key_algorithm)) WpCouldNotVerifyProof;
  ok_or (alg_parse_jwk key_algorithm jwk) WpCouldNotVerifyProof.

Definition verify_pop (pop : string) (leeway : Z) : Svc string :=
  pop_token ← lift (ok_or (decompose_token pop) WpToken);
  jwk ← lift (ok_or (pj_jwk pop_token) WpCouldNotVerifyProof);
  key_handle ← lift (parse_jwk (pj_algorithm pop_token) jwk);
  _ ← lift (fail_if (negb (verify_signature key_handle (pj_unverified_jwt pop_token) (pj_signature pop_token)))
              WpCouldNotVerifyProof);
  _ ← validate_proof_payload pop_token leeway None;
  mret jwk.

(** *** Registration *)

Definition wallet_unit_from_request (request : RegisterWalletUnitRequest) (organisation : WalletOrganisation)
  (public_key : option string) (now : Z) (nonce : option string) : Svc WalletUnit :=
  let status := match nonce with None => UsActive | Some _ => UsPending end in
  id ← new_wallet_id;
  mret (mkWalletUnit id ("PROCIVIS_ONE-" ++ os_string (rr_os request) ++ "-" ++ pretty (now / 1000000000)) now now
          (rr_os request) status (rr_wallet_provider request) public_key None nonce (Some organisation) None).

Definition create_wallet_unit_with_nonce (request : RegisterWalletUnitRequest) (organisation : WalletOrganisation) :
  Svc (Z * option string) :=
  now ← clock_now;
  nonce ← generate_nonce;
  wallet_unit ← wallet_unit_from_request request organisation None now (Some nonce);
  wallet_unit_id ← M_map_err WpData (create_wallet_unit wallet_unit);
  _ ← create_wallet_unit_history wallet_unit_id HaPending None;
  mret (wallet_unit_id, Some nonce).

Definition create_wallet_unit_with_auth_key (request : RegisterWalletUnitRequest) (organisation : WalletOrganisation)
  (public_key_jwk : string) : Svc (Z * option string) :=
  now ← clock_now;
  wallet_unit ← wallet_unit_from_request request organisation (Some public_key_jwk) now None;
  wallet_unit_id ← M_map_err map_already_exists_error (create_wallet_unit wallet_unit);
  _ ← create_wallet_unit_history wallet_unit_id HaCreated None;
  mret (wallet_unit_id, None).

Definition register_wallet_unit (request : RegisterWalletUnitRequest) : Svc (Z * option string) :=
  let wallet_provider := rr_wallet_provider request in
  config_params ← lift (get_wallet_provider_config_params config wallet_provider);
  found ← M_map_err WpData (get_organisation_for_wallet_provider wallet_provider);
  organisation ← lift (ok_or found WpNotAssociatedWithOrganisation);
  _ ← lift (validate_org_wallet_provider organisation wallet_provider);
  let integrity := ic_enabled (wp_integrity_check config_params) in
  _ ← lift (fail_if (negb integrity && bool_decide (rr_proof request = None) && bool_decide (rr_public_key request = None))
              WpAppIntegrityCheckNotRequired);
  if integrity && negb (bool_decide (rr_os request = Web)) then
    _ ← lift (fail_if (bool_decide (is_Some (rr_public_key request)) || bool_decide (is_Some (rr_proof request)))
                WpAppIntegrityCheckRequired);
    create_wallet_unit_with_nonce request organisation
  else
    token ← lift (ok_or (rr_proof request) WpMissingProof);
    proof ← lift (ok_or (decompose_token token) WpToken);
    public_key_jwk ← lift (ok_or (rr_public_key request) WpMissingPublicKey);
    public_key ← lift (parse_jwk (pj_algorithm proof) public_key_jwk);
    _ ← verify_device_signing_proof proof public_key (wp_device_auth_leeway config_params) None;
    create_wallet_unit_with_auth_key request organisation public_key_jwk.

(** *** Activation *)

(** The unit that must exist, with the relations. *)
Definition load_wallet_unit (id : Z) (relations : WalletUnitRelations) : Svc WalletUnit :=
  found ← M_map_err WpData (get_wallet_unit_row id relations);
  lift (ok_or found (WpMissingWalletUnit id)).

Definition set_wallet_unit_to_error (wallet_unit : WalletUnit) : Svc unit :=
  _ ← M_map_err WpData (update_wallet_unit (wu_id wallet_unit) (mkUpdateWalletUnit (Some UsError) None None None));
  _ ← lift (ok_or (wu_organisation wallet_unit) WpMappingError);
  create_wallet_unit_history (wu_id wallet_unit) HaErrored None.

Definition validate_attestation (attestation : list string) (os : WalletUnitOs) (nonce : string)
  (params : WalletProviderParams) : res WalletProviderError KeyHandle :=
  match os with
  | Ios =>
      attestation ← ok_or (head attestation) WpAppIntegrityValidation;
      bundle ← ok_or (ic_ios (wp_integrity_check params)) WpAppIntegrityValidation;
      ok_or (validate_attestation_ios attestation nonce bundle) WpAppIntegrityValidation
  | Android =>
      _ ← fail_if (bool_decide (attestation = [])) WpAppIntegrityValidation;
      bundle ← ok_or (ic_android (wp_integrity_check params)) WpAppIntegrityValidation;
      ok_or (validate_attestation_android attestation nonce bundle) WpAppIntegrityValidation
  | Web => Err WpAppIntegrityValidation
  end.

(** The key that the unit authenticates with from now on: another key with a
    proof of its own, or the attested one. *)
Definition activation_key (proof : option string) (attested_public_key : KeyHandle) (leeway : Z) (nonce : string) : Svc string :=
  match proof with
  | Some device_signing_key_proof =>
      device_signing_key_proof ← lift (ok_or (decompose_token device_signing_key_proof) WpToken);
      _ ← lift (fail_if (negb (known_jose_alg (pj_algorithm device_signing_key_proof))) WpKeyProvider);
      device_signing_key ← lift (ok_or (pj_jwk device_signing_key_proof) WpMappingError);
      handle ← lift (ok_or (alg_parse_jwk (pj_algorithm device_signing_key_proof) device_signing_key) WpKeyProvider);
      _ ← verify_device_signing_proof device_signing_key_proof handle leeway (Some nonce);
      mret device_signing_key
  | None => lift (ok_or (public_key_as_jwk attested_public_key) WpKeyProvider)
  end.

Definition activate_wallet_unit (wallet_unit_id : Z) (request : WalletUnitActivationRequest) : Svc unit :=
  wallet_unit ← load_wallet_unit wallet_unit_id (mkWalletUnitRelations true None);
  _ ← lift (match wu_status wallet_unit with
            | UsPending => Ok tt
            | UsActive | UsUnattested | UsError => Err WpInvalidWalletUnitState
            | UsRevoked => Err WpWalletUnitRevoked
            end);
  nonce ← lift (ok_or (wu_nonce wallet_unit) WpMissingNonce);
  organisation ← lift (ok_or (wu_organisation wallet_unit) WpMappingError);
  config_params ← lift (get_wallet_provider_config_params config (wu_wallet_provider_name wallet_unit));
  _ ← lift (validate_org_wallet_provider organisation (wu_wallet_provider_name wallet_unit));
  now ← clock_now;
  if wu_last_modified wallet_unit + seconds (as_i64 (ic_timeout (wp_integrity_check config_params))) <? now then
    _ ← set_wallet_unit_to_error wallet_unit;
    throw WpInvalidNonce
  else
    match validate_attestation (ar_attestation request) (wu_os wallet_unit) nonce config_params with
    | Ok attested_public_key =>
        attestation_key_proof ← lift (ok_or (decompose_token (ar_attestation_key_proof request)) WpToken);
        _ ← verify_attestation_proof attestation_key_proof attested_public_key (wu_os wallet_unit)
              (ic_enabled (wp_integrity_check config_params)) (wp_device_auth_leeway config_params) (Some nonce);
        jwk ← activation_key (ar_device_signing_key_proof request) attested_public_key
                (wp_device_auth_leeway config_params) nonce;
        issued ← clock_now;
        _ ← M_map_err WpData (update_wallet_unit wallet_unit_id (mkUpdateWalletUnit (Some UsActive) (Some issued) (Some jwk) None));
        create_wallet_unit_history wallet_unit_id HaActivated None
    | Err err => _ ← set_wallet_unit_to_error wallet_unit; throw err
    | Panic => lift Panic
    end.

(** *** Attestations *)

Definition ecdsa_filter : KeyFilter := mkKeyFilter None None (Some [Ecdsa]).

Definition get_key_info (issuer_identifier_id : Z) : res WalletProviderError (JwtPublicKeyInfo * Signer) :=
  found ← map_err WpData (find_identifier issuer_identifier_id);
  issuer ← ok_or found (WpMissingIdentifier issuer_identifier_id);
  selection ← map_err WpKeySelection (select_key issuer (selection_of_filter ecdsa_filter));
  let issuer_key := selected_key selection in
  key_id ← (if bool_decide (identifier_type issuer = TypeDid) then
              issuer_did ← ok_or (idn_did issuer) WpMappingError;
              key ← map_err WpKeySelection (find_key issuer_did (key_id issuer_key) ecdsa_filter);
              Ok (Some (verification_method_id issuer_did key))
            else Ok None);
  auth_fn ← ok_or (wallet_signer issuer_key key_id) WpKeyProvider;
  public_key_info ←
    match identifier_type issuer with
    | TypeKey | TypeDid =>
        handle ← ok_or (storage_key_handle issuer_key) WpMappingError;
        jwk ← ok_or (public_key_as_jwk handle) WpKeyProvider;
        Ok (JkJwk jwk)
    | TypeCertificate =>
        certificates ← ok_or (idn_certificates issuer) WpMappingError;
        cert ← ok_or (find_first (fun c => match cert_key c with
                                           | Some k => KeySelection.key_id k =? KeySelection.key_id issuer_key
                                           | None => false
                                           end) certificates) WpMappingError;
        x5c ← ok_or (pem_chain_into_x5c (cert_chain cert)) WpValidation;
        Ok (JkX5c x5c)
    | TypeCertificateAuthority => Err WpMappingError
    end;
  Ok (public_key_info, auth_fn).

Definition WIA_JWT_TYPE : string := "oauth-client-attestation+jwt".
Definition WUA_JWT_TYPE : string := "key-attestation+jwt".

Definition create_wia (params : WalletProviderParams) (holder_jwk : string) (auth_fn : Signer) (info : JwtPublicKeyInfo) :
  Svc AttestationJwt :=
  now ← clock_now;
  alg ← lift (ok_or (jose_alg auth_fn) WpToken);
  mret (mkAttestationJwt WIA_JWT_TYPE alg (signer_key_id auth_fn) info now
          (now + seconds (as_i64 (wp_wia_expiration_time params))) now (wc_base_url config) (Some (wp_wallet_client_id params))
          (Some holder_jwk)
          (WiaClaims (wp_wallet_name params) (wp_wallet_link params) (wp_eudi_wallet_info params))).

(** [serde_json::from_value::<SdJwtVcStatusList>] of the fields of a status. *)
Definition sd_jwt_status (status : CredentialStatus) : option (Z * string) :=
  match cst_fields status !! INDEX_KEY, cst_fields status !! URI_KEY with
  | Some (JString index), Some (JString uri) =>
      index ← usize_from_str index; uri ← parse_url uri; Some (index, uri)
  | _, _ => None
  end.

Definition create_wua (wallet_provider_name : string) (params : WalletProviderParams) (holder_jwk : string)
  (level : KeyStorageSecurityLevel) (auth_fn : Signer) (info : JwtPublicKeyInfo) (revocation_info : option CredentialStatus) :
  Svc AttestationJwt :=
  now ← clock_now;
  alg ← lift (ok_or (jose_alg auth_fn) WpToken);
  let status := revocation_info ≫= sd_jwt_status in
  let issuer := match ew_provider_name <$> wp_eudi_wallet_info params with Some n => Some n | None => wc_base_url config end in
  mret (mkAttestationJwt WUA_JWT_TYPE alg (signer_key_id auth_fn) info now
          (now + seconds (as_i64 (wp_wua_expiration_time params))) now issuer
          ((fun base_url => base_url ++ "/" ++ wallet_provider_name)%string <$> wc_base_url config) None
          (WuaClaims level holder_jwk (wp_eudi_wallet_info params) status)).

(** [get_wallet_unit] as the revocation method calls it, with the organisation. *)
Definition unit_issuer (id : Z) (w : WalletDb R) : res DataLayerError (option (option (option Z))) :=
  match (get_wallet_unit_row id (mkWalletUnitRelations true None) w).1 with
  | Ok found => Ok ((fun u => wo_wallet_provider_issuer <$> wu_organisation u) <$> found)
  | Err e => Err e
  | Panic => Panic
  end.

Definition key_attestation_status (method : option (AttestationMethod R)) (input : AttestedKeyInput) :
  Svc (option CredentialStatus) :=
  match method with
  | Some method =>
      match input with
      | NewlyCreated key =>
          w ← get;
          status ← M_map_err WpRevocation (on_revocations
                     (am_add_issued_attestation method (unit_issuer (ak_wallet_unit_id key) w) (ak_id key) (ak_wallet_unit_id key)));
          mret (Some status)
      | Reused None => mret None
      | Reused (Some info) =>
          status ← M_map_err WpRevocation (on_revocations (am_get_attestation_revocation_info method info));
          mret (Some status)
      end
  | None => mret None
  end.

Definition issue_key_attestation (wallet_unit : WalletUnit) (params : WalletProviderParams) (auth_fn : Signer)
  (info : JwtPublicKeyInfo) (method : option (AttestationMethod R)) (input : KeyAttestationInput) : Svc string :=
  revocation_info ← key_attestation_status method (ki_key input);
  attestation ← create_wua (wu_wallet_provider_name wallet_unit) params (ki_holder_jwk input) (ki_security_level input)
                  auth_fn info revocation_info;
  signed_attestation ← lift (ok_or (tokenize auth_fn attestation) WpToken);
  attestation_hash ← lift (ok_or (hash_base64 signed_attestation) WpMappingError);
  _ ← create_wallet_unit_history (wu_id wallet_unit) HaIssued (Some attestation_hash);
  mret signed_attestation.

(** [iter_mut().find(..)]: the first key with this JWK is extended. *)
Fixpoint extend_key (now expiration : Z) (jwk : string) (keys : list AttestedKey) : option (list AttestedKey * option KeyRevocation) :=
  match keys with
  | [] => None
  | k :: rest =>
      if bool_decide (ak_public_key_jwk k = jwk) then
        Some (mkWalletAttestedKey (ak_id k) (ak_wallet_unit_id k) (ak_created_date k) now expiration (ak_public_key_jwk k)
                (ak_revocation k) :: rest, ak_revocation k)
      else '(rest', revocation) ← extend_key now expiration jwk rest; Some (k :: rest', revocation)
  end.

(** The loop over the key requests. *)
Fixpoint prepare_keys (wallet_unit_id now : Z) (params : WalletProviderParams) (requests : list IssueWuaRequest)
  (keys : list AttestedKey) (inputs : list KeyAttestationInput) : Svc (list AttestedKey * list KeyAttestationInput) :=
  match requests with
  | [] => mret (keys, inputs)
  | wua_request :: requests =>
      let expiration := now + seconds (as_i64 (wp_wua_expiration_time params)) in
      holder_jwk ← verify_pop (iw_proof wua_request) (wp_device_auth_leeway params);
      match extend_key now expiration holder_jwk keys with
      | Some (keys, revocation) =>
          prepare_keys wallet_unit_id now params requests keys
            (inputs ++ [mkKeyInput holder_jwk (iw_security_level wua_request) (Reused revocation)])
      | None =>
          id ← new_wallet_id;
          let key := mkWalletAttestedKey id wallet_unit_id now now expiration holder_jwk None in
          prepare_keys wallet_unit_id now params requests (keys ++ [key])
            (inputs ++ [mkKeyInput holder_jwk (iw_security_level wua_request) (NewlyCreated key)])
      end
  end.

Fixpoint collect_M {A B : Type} (f : A -> Svc B) (l : list A) : Svc (list B) :=
  match l with
  | [] => mret []
  | x :: l => y ← f x; ys ← collect_M f l; mret (y :: ys)
  end.

Definition issue_wia (params : WalletProviderParams) (auth_fn : Signer) (info : JwtPublicKeyInfo) (proof : string) : Svc string :=
  holder_jwk ← verify_pop proof (wp_device_auth_leeway params);
  attestation ← create_wia params holder_jwk auth_fn info;
  lift (ok_or (tokenize auth_fn attestation) WpToken).

(** The transaction of [issue_attestation]. *)
Definition write_attestations (wallet_unit : WalletUnit) (now : Z) (params : WalletProviderParams) (auth_fn : Signer)
  (info : JwtPublicKeyInfo) (method : option (AttestationMethod R)) (instance_attestations : list string)
  (updated_keys : option (list AttestedKey)) (inputs : list KeyAttestationInput) : Svc (list string) :=
  transaction (
    _ ← M_map_err WpData (update_wallet_unit (wu_id wallet_unit) (mkUpdateWalletUnit None (Some now) None updated_keys));
    _ ← (if bool_decide (instance_attestations = []) then mret tt
         else create_wallet_unit_history (wu_id wallet_unit) HaUpdated None);
    collect_M (issue_key_attestation wallet_unit params auth_fn info method) inputs).

Definition issue_attestation (wallet_unit_id : Z) (bearer_token : string) (request : IssueAttestationRequest) :
  Svc (list string * list string) :=
  wallet_unit ← load_wallet_unit wallet_unit_id (mkWalletUnitRelations true (Some (Some no_relations)));
  _ ← lift (fail_if (negb (bool_decide (wu_status wallet_unit = UsActive))) WpWalletUnitRevoked);
  organisation ← lift (ok_or (wu_organisation wallet_unit) WpMappingError);
  params ← lift (get_wallet_provider_config_params config (wu_wallet_provider_name wallet_unit));
  issuer_identifier ← lift (validate_org_wallet_provider organisation (wu_wallet_provider_name wallet_unit));
  method ← lift (match wp_wua_revocation_method params with
                 | Some m => method ← ok_or (attestation_method m) (WpMissingRevocationMethod m); Ok (Some method)
                 | None => Ok None
                 end);
  auth_key ← lift (ok_or (wu_authentication_key_jwk wallet_unit) WpMappingError);
  key ← lift (ok_or (any_parse_jwk auth_key) WpKeyProvider);
  bearer ← lift (ok_or (decompose_token bearer_token) WpToken);
  _ ← verify_device_signing_proof bearer key (wp_device_auth_leeway params) None;
  now ← clock_now;
  '(info, auth_fn) ← lift (get_key_info issuer_identifier);
  instance_attestations ← collect_M (issue_wia params auth_fn info) (ir_wia request);
  attested_keys ← lift (ok_or (wu_attested_keys wallet_unit) WpMappingError);
  '(attested_keys, inputs) ← prepare_keys wallet_unit_id now params (ir_wua request) attested_keys [];
  let updated_keys := match inputs with [] => None | _ => Some attested_keys end in
  if bool_decide (instance_attestations = []) && negb (bool_decide (is_Some updated_keys)) then mret (instance_attestations, [])
  else
    key_attestations ← write_attestations wallet_unit now params auth_fn info method instance_attestations updated_keys inputs;
    mret (instance_attestations, key_attestations).

(** *** Revocation, deletion, reading *)

Definition revoke_wallet_unit (id : Z) : Svc unit :=
  wallet_unit ← load_wallet_unit id (mkWalletUnitRelations true (Some (Some (mkRelations true true))));
  _ ← lift (fail_if (negb (bool_decide (wu_status wallet_unit = UsActive))) WpMustBeActive);
  _ ← lift (ok_or (wu_organisation wallet_unit) WpMappingError);
  params ← lift (get_wallet_provider_config_params config (wu_wallet_provider_name wallet_unit));
  _ ← M_map_err WpData (update_wallet_unit id (mkUpdateWalletUnit (Some UsRevoked) None None None));
  _ ← create_wallet_unit_history id HaRevoked None;
  match wp_wua_revocation_method params with
  | None => mret tt
  | Some revocation_method =>
      attested_keys ← lift (ok_or (wu_attested_keys wallet_unit) WpMappingError);
      match omap ak_revocation attested_keys with
      | [] => mret tt
      | keys =>
        method ← lift (ok_or (attestation_method revocation_method) (WpMissingRevocationMethod revocation_method));
        M_map_err WpRevocation (on_revocations (am_update_attestation_entries method keys Revoked))
      end
  end.

Definition delete_wallet_unit (id : Z) : Svc unit :=
  wallet_unit ← load_wallet_unit id (mkWalletUnitRelations false None);
  _ ← lift (fail_if (negb (bool_decide (wu_status wallet_unit = UsPending))) WpMustBePending);
  _ ← M_map_err WpData (delete_wallet_unit_row id);
  delete_history_by_entity_id id.

Definition get_wallet_unit_details (session : option Session) (id : Z) : Svc WalletUnit :=
  result ← load_wallet_unit id (mkWalletUnitRelations true None);
  _ ← lift (map_err WpSession (throw_if_org_relation_not_matching_session (wo_id <$> wu_organisation result) session));
  mret result.
End service.
