(* ===== verification/WalletSpec.v ===== *)
(** * What the wallet provider guarantees

    The theorems on [WalletProvider.v]: the life cycle of wallet units over any
    sequence of calls, what an activation and an issuance have checked, and what
    they change. *)

From S2P Require Import Prelude StatusBits KeySelection RevocationRepo RevocationMethod.
From S2P Require Import BitstringMethod TokenMethod ListFilter Validity Paths Datatypes WalletStore WalletProvider.
#[local] Open Scope Z_scope.

(** ** Calls that only read *)

Section quiet.
Context {R : Type}.
Implicit Types (w : WalletDb R).

(** The tables are the same; counters may have advanced. *)
Record quiet w w' : Prop := {
  q_units : units w' = units w;
  q_keys : key_rows w' = key_rows w;
  q_organisations : organisations w' = organisations w;
  q_history : history w' = history w;
  q_revocations : revocations w' = revocations w;
  q_ids : (wallet_ids w <= wallet_ids w')%nat;
  q_ticks : (ticks w <= ticks w')%nat;
  q_nonces : (nonces w <= nonces w')%nat
}.

#[export] Instance quiet_preorder : PreOrder quiet.
Proof.
  split; [intros w; constructor; first [done|lia]|].
  intros w1 w2 w3 [] []. constructor; [congruence..|lia|lia|lia].
Qed.

(** A check: it returns or fails, changes nothing, and [P] holds when it returns. *)
Definition checks {E A : Type} (m : M (WalletDb R) E A) (P : A -> WalletDb R -> WalletDb R -> Prop) : Prop :=
  forall w, wp m w (fun r w' => quiet w w' /\ match r with Ok a => P a w w' | Err _ => True | Panic => False end).

Lemma wp_checks {E A B : Type} (m : M (WalletDb R) E A) (P : A -> WalletDb R -> WalletDb R -> Prop)
  (k : A -> M (WalletDb R) E B) w (Q : res E B -> WalletDb R -> Prop) :
  checks m P -> (forall a w', quiet w w' -> P a w w' -> wp (k a) w' Q) -> (forall e w', quiet w w' -> Q (Err e) w') ->
  wp (mbind k m) w Q.
Proof.
  intros Hm Hk He. apply wp_bind. eapply wp_mono; [apply Hm|]. intros [a|e|] w' [Hq Hr]; [auto|auto|done].
Qed.

Lemma checks_bind {E A B : Type} (m : M (WalletDb R) E A) (k : A -> M (WalletDb R) E B) (P : A -> WalletDb R -> WalletDb R -> Prop)
  (Q : A -> B -> WalletDb R -> WalletDb R -> Prop) (T : B -> WalletDb R -> WalletDb R -> Prop) :
  checks m P -> (forall a, checks (k a) (Q a)) ->
  (forall a b w w1 w2, quiet w w1 -> quiet w1 w2 -> P a w w1 -> Q a b w1 w2 -> T b w w2) -> checks (mbind k m) T.
Proof.
  intros Hm Hk HT w. eapply wp_checks; [exact Hm| |].
  - intros a w' Hq HP. eapply wp_mono; [apply Hk|]. intros [b|e|] w'' [Hq' Hr]; (split; [by etrans|]); [by eapply HT|done|done].
  - intros e w' Hq. done.
Qed.

Lemma checks_mono {E A : Type} (m : M (WalletDb R) E A) (P Q : A -> WalletDb R -> WalletDb R -> Prop) :
  checks m P -> (forall a w w', quiet w w' -> P a w w' -> Q a w w') -> checks m Q.
Proof. intros Hm HPQ w. eapply wp_mono; [apply Hm|]. intros [a|e|] w' [Hq Hr]; auto. Qed.

Lemma checks_lift {E A : Type} (m : res E A) : m <> Panic -> checks (lift m) (fun a _ _ => m = Ok a).
Proof. intros Hp w. unfold wp, lift. split; [reflexivity|]. by destruct m. Qed.

Lemma checks_ret {E A : Type} (a : A) : checks (mret a : M (WalletDb R) E A) (fun b _ _ => b = a).
Proof. intros w. unfold wp, mret, M_ret. by split. Qed.
End quiet.

Ltac solve_quiet := constructor; cbn; first [done|lia].

(** ** Proofs *)

Section proofs.
Context {R : Type} `{KeyLinks R} `{UuidSupply} `{WalletClock} `{WalletCrypto} `{AttestationMethods R} `{X509}.
Context (config : WalletConfig).
Implicit Types (w : WalletDb R).

(** A reading of the clock during a call. *)
Definition reading w w' (t : Z) : Prop := exists n, (ticks w <= n < ticks w')%nat /\ t = clock_at n.

Lemma reading_mono w w1 w2 w3 (t : Z) : quiet w w1 -> quiet w2 w3 -> reading w1 w2 t -> reading w w3 t.
Proof. intros [? ? ? ? ? ? ?] [? ? ? ? ? ? ?] (n & Hn & ->). exists n. split; [lia|done]. Qed.

Lemma checks_clock {E : Type} : checks (clock_now : M (WalletDb R) E Z) (fun t w w' => reading w w' t).
Proof. intros w. unfold wp, clock_now. split; [solve_quiet|]. exists (ticks w). cbn. split; [lia|done]. Qed.

(** What a proof must carry: dates around now, the address of the service and
    the nonce. *)
Record payload_ok (proof : ProofJwt) (leeway : Z) (nonce : option string) w w' : Prop := {
  po_issued : forall d, pj_issued_at proof = Some d -> exists t, reading w w' t /\ d <= t + seconds leeway;
  po_not_before : exists d t, pj_invalid_before proof = Some d /\ reading w w' t /\ d <= t + seconds leeway;
  po_expires : exists d t, pj_expires_at proof = Some d /\ reading w w' t /\ t - seconds leeway <= d;
  po_audience : exists aud, pj_audience proof = Some aud /\ forall url, wc_base_url config = Some url -> url ∈ aud;
  po_nonce : forall n, nonce = Some n -> pj_nonce proof = Some n
}.

Lemma payload_mono (proof : ProofJwt) (leeway : Z) (nonce : option string) w w1 w2 w3 :
  quiet w w1 -> quiet w2 w3 -> payload_ok proof leeway nonce w1 w2 -> payload_ok proof leeway nonce w w3.
Proof.
  intros Hq Hq' [Hi (nb & t1 & Hnb & Hr1 & Hle1) (ex & t2 & Hex & Hr2 & Hle2) Ha Hn]. constructor; [| | |done|done].
  - intros d Hd. destruct (Hi d Hd) as (t & Ht & Hle). exists t. split; [by eapply reading_mono|done].
  - exists nb, t1. split_and!; [done|by eapply reading_mono|done].
  - exists ex, t2. split_and!; [done|by eapply reading_mono|done].
Qed.

Lemma checks_not_in_future (date : option Z) (leeway : Z) :
  checks (not_in_future date leeway : M (WalletDb R) _ _)
    (fun _ w w' => forall d, date = Some d -> exists t, reading w w' t /\ d <= t + seconds leeway).
Proof.
  destruct date as [d|]; cbn [not_in_future].
  - eapply checks_bind; [apply checks_clock|intros t; apply checks_lift, fail_if_no_panic|].
    intros t [] w w1 w2 Hq1 Hq2 Ht Hf%fail_if_ok d' [= ->]. exists t. split; [eapply reading_mono; [reflexivity|exact Hq2|exact Ht]|].
    apply Z.ltb_ge in Hf. lia.
  - eapply checks_mono; [apply checks_ret|]. intros [] w w' _ _ d [=].
Qed.

Lemma checks_not_expired_yet (date : option Z) (leeway : Z) :
  checks (not_expired_yet date leeway : M (WalletDb R) _ _)
    (fun _ w w' => forall d, date = Some d -> exists t, reading w w' t /\ t - seconds leeway <= d).
Proof.
  destruct date as [d|]; cbn [not_expired_yet].
  - eapply checks_bind; [apply checks_clock|intros t; apply checks_lift, fail_if_no_panic|].
    intros t [] w w1 w2 Hq1 Hq2 Ht Hf%fail_if_ok d' [= ->]. exists t. split; [eapply reading_mono; [reflexivity|exact Hq2|exact Ht]|].
    apply Z.ltb_ge in Hf. lia.
  - eapply checks_mono; [apply checks_ret|]. intros [] w w' _ _ d [=].
Qed.

Lemma checks_payload (proof : ProofJwt) (leeway : Z) (nonce : option string) :
  checks (validate_proof_payload config proof leeway nonce : M (WalletDb R) _ _) (fun _ w w' => payload_ok proof leeway nonce w w').
Proof.
  intros w. unfold validate_proof_payload.
  eapply wp_checks; [apply checks_not_in_future| |done]. intros [] w1 Hq1 Hiss.
  apply wp_lift; [apply fail_if_no_panic|done|]. intros [] Hnb%fail_if_ok%bool_decide_eq_false.
  eapply wp_checks; [apply checks_not_in_future| |by intros; split; [by etrans|]]. intros [] w2 Hq2 Hnbf.
  apply wp_lift; [apply fail_if_no_panic|by intros; split; [by etrans|]|]. intros [] Hex%fail_if_ok%bool_decide_eq_false.
  eapply wp_checks; [apply checks_not_expired_yet| |by intros; split; [etrans; [|done]; by etrans|]]. intros [] w3 Hq3 Hexp.
  assert (Hq : quiet w w3) by (etrans; [|done]; by etrans).
  apply wp_lift; [apply ok_or_no_panic|done|]. intros aud Haud%ok_or_ok.
  apply wp_lift; [destruct (wc_base_url config); [apply fail_if_no_panic|done]|done|]. intros [] Hurl.
  unfold wp, lift. split; [done|].
  destruct (match nonce with Some n => _ | None => _ end) as [[]|e|] eqn:Hnonce; [|done|].
  - constructor.
    + intros d Hd. destruct (Hiss d Hd) as (t & Ht & Hle). exists t. split; [|done].
      eapply reading_mono; [reflexivity| |exact Ht]. by etrans.
    + destruct (pj_invalid_before proof) as [d|]; [|done]. destruct (Hnbf d eq_refl) as (t & Ht & Hle). exists d, t.
      split_and!; [done|exact (reading_mono _ _ _ _ t Hq1 Hq3 Ht)|done].
    + destruct (pj_expires_at proof) as [d|]; [|done]. destruct (Hexp d eq_refl) as (t & Ht & Hle). exists d, t.
      split_and!; [done| |done]. exact (reading_mono _ _ _ _ t (transitivity Hq1 Hq2) (reflexivity w3) Ht).
    + exists aud. split; [done|]. intros url Hu. rewrite Hu in Hurl. apply fail_if_ok, negb_false_iff, bool_decide_eq_true in Hurl. done.
    + intros n ->. apply fail_if_ok, negb_false_iff, bool_decide_eq_true in Hnonce. done.
  - destruct nonce as [n|]; [|done]. by apply fail_if_no_panic in Hnonce.
Qed.

Lemma checks_device_proof (proof : ProofJwt) (key : KeyHandle) (leeway : Z) (nonce : option string) :
  checks (verify_device_signing_proof config proof key leeway nonce : M (WalletDb R) _ _)
    (fun _ w w' => verify_signature key (pj_unverified_jwt proof) (pj_signature proof) = true /\ payload_ok proof leeway nonce w w').
Proof.
  intros w. unfold verify_device_signing_proof. apply wp_lift; [apply fail_if_no_panic|done|]. intros [] Hv%fail_if_ok%negb_false_iff.
  eapply wp_mono; [apply checks_payload|]. intros [[]|e|] w' [Hq Hp]; done.
Qed.

(** The message that the attested key signs: on iOS a WebAuthn assertion. *)
Definition attestation_message (enabled : bool) (os : WalletUnitOs) (proof : ProofJwt) : option (string * list Z) :=
  if enabled && bool_decide (os = Ios) then webauthn_signed_jwt_to_msg_and_sig proof
  else Some (pj_unverified_jwt proof, pj_signature proof).

Lemma checks_attestation_proof (proof : ProofJwt) (key : KeyHandle) (os : WalletUnitOs) (enabled : bool) (leeway : Z) (nonce : option string) :
  checks (verify_attestation_proof config proof key os enabled leeway nonce : M (WalletDb R) _ _)
    (fun _ w w' => (exists msg sig, attestation_message enabled os proof = Some (msg, sig) /\ verify_signature key msg sig = true) /\
                   payload_ok proof leeway nonce w w').
Proof.
  intros w. unfold verify_attestation_proof. apply wp_lift; [destruct enabled, os; try done; apply ok_or_no_panic|done|]. intros [msg sig] Hm.
  apply wp_lift; [apply fail_if_no_panic|done|]. intros [] Hv%fail_if_ok%negb_false_iff.
  eapply wp_mono; [apply checks_payload|]. intros [[]|e|] w' [Hq Hp]; [|done|done]. split; [done|]. split; [|done].
  exists msg, sig. split; [|done]. unfold attestation_message. clear -Hm. destruct enabled, os; try (injection Hm as <- <-; reflexivity).
  apply ok_or_ok in Hm. exact Hm.
Qed.

Lemma parse_jwk_ok (alg jwk : string) (handle : KeyHandle) :
  parse_jwk alg jwk = Ok handle -> known_jose_alg alg = true /\ alg_parse_jwk alg jwk = Some handle.
Proof.
  unfold parse_jwk. intros ([] & Hk & Hp)%res_bind_ok. apply fail_if_ok, negb_false_iff in Hk. by apply ok_or_ok in Hp.
Qed.

(** A proof of possession of the key [jwk], which it names itself. *)
Definition possession_proved (pop : string) (leeway : Z) (jwk : string) w w' : Prop :=
  exists token handle, decompose_token pop = Some token /\ pj_jwk token = Some jwk /\
    alg_parse_jwk (pj_algorithm token) jwk = Some handle /\
    verify_signature handle (pj_unverified_jwt token) (pj_signature token) = true /\ payload_ok token leeway None w w'.

Lemma checks_pop (pop : string) (leeway : Z) :
  checks (verify_pop config pop leeway : M (WalletDb R) _ _) (fun jwk w w' => possession_proved pop leeway jwk w w').
Proof.
  intros w. unfold verify_pop.
  apply wp_lift; [apply ok_or_no_panic|done|]. intros token Htok%ok_or_ok.
  apply wp_lift; [apply ok_or_no_panic|done|]. intros jwk Hjwk%ok_or_ok.
  apply wp_lift; [unfold parse_jwk; no_panic|done|]. intros handle [_ Hh]%parse_jwk_ok.
  apply wp_lift; [apply fail_if_no_panic|done|]. intros [] Hv%fail_if_ok%negb_false_iff.
  eapply wp_checks; [apply checks_payload| |done]. intros [] w' Hq Hp. unfold wp, mret, M_ret. split; [done|].
  exists token, handle. done.
Qed.

(** The key an activation binds: the attested one, or one that was proved with
    the nonce. *)
Definition key_bound (proof : option string) (attested : KeyHandle) (leeway : Z) (nonce jwk : string) w w' : Prop :=
  match proof with
  | Some p => exists token handle, decompose_token p = Some token /\ pj_jwk token = Some jwk /\
      alg_parse_jwk (pj_algorithm token) jwk = Some handle /\
      verify_signature handle (pj_unverified_jwt token) (pj_signature token) = true /\ payload_ok token leeway (Some nonce) w w'
  | None => public_key_as_jwk attested = Some jwk
  end.

Lemma checks_activation_key (proof : option string) (attested : KeyHandle) (leeway : Z) (nonce : string) :
  checks (activation_key config proof attested leeway nonce : M (WalletDb R) _ _) (fun jwk w w' => key_bound proof attested leeway nonce jwk w w').
Proof.
  intros w. unfold activation_key. destruct proof as [p|].
  - apply wp_lift; [apply ok_or_no_panic|done|]. intros token Htok%ok_or_ok.
    apply wp_lift; [apply fail_if_no_panic|done|]. intros [] _.
    apply wp_lift; [apply ok_or_no_panic|done|]. intros jwk Hjwk%ok_or_ok.
    apply wp_lift; [apply ok_or_no_panic|done|]. intros handle Hh%ok_or_ok.
    eapply wp_checks; [apply checks_device_proof| |done]. intros [] w' Hq [Hv Hp]. unfold wp, mret, M_ret. split; [done|].
    exists token, handle. done.
  - unfold wp, lift. split; [reflexivity|]. destruct (ok_or _ _) as [jwk| |] eqn:Hj; [|done|by apply ok_or_no_panic in Hj].
    by apply ok_or_ok in Hj.
Qed.

(** ** Reading and writing units *)

Lemma find_unit_Some (id : Z) w (u : UnitRow) : find_unit id w = Some u -> u ∈ units w /\ ur_id u = id.
Proof. intros [Hin Hid%Z.eqb_eq]%find_first_Some. done. Qed.

(** The unit with its organisation. *)
Definition loaded (id : Z) (wallet_unit : WalletUnit) (row : UnitRow) (organisation : WalletOrganisation) w : Prop :=
  find_unit id w = Some row /\ find_organisation (ur_organisation_id row) w = Some organisation /\
  wallet_unit = with_relations (Some organisation) None (unit_of_row row).

Lemma load_simple (id : Z) w :
  wp (load_wallet_unit id (mkWalletUnitRelations true None)) w (fun r w' => w' = w /\
    match r with Ok u => exists row org, loaded id u row org w | Err _ => True | Panic => False end).
Proof.
  unfold load_wallet_unit. apply wp_bind, wp_map_err. unfold wp at 1, get_wallet_unit_row, get, mbind, M_bind.
  destruct (find_unit id w) as [row|] eqn:Hrow; cbn [map_err]; [|done]. cbn [rel_organisation rel_attested_keys lift].
  destruct (find_organisation _ w) as [org|] eqn:Horg; cbn; [|done]. split; [done|]. by exists row, org.
Qed.

Lemma update_unit_wp (id : Z) (request : UpdateWalletUnitRequest) w (u : UnitRow) :
  uw_attested_keys request = None -> find_unit id w = Some u ->
  wp (update_wallet_unit id request) w (fun r w' =>
    match r with
    | Ok _ => exists t, reading w w' t /\
        quiet (set_units ((fun v => if ur_id v =? id then updated_unit t request v else v) <$> units w) w) w' /\
        existsb (fun other => negb (ur_id other =? id) &&
          same_auth_key (ur_authentication_key_jwk (updated_unit t request u)) (ur_organisation_id u) other) (units w) = false
    | Err _ => quiet w w'
    | Panic => False
    end).
Proof.
  intros Hk Hu. unfold update_wallet_unit. eapply wp_run; [reflexivity|].
  apply wp_map_err, wp_transaction, wp_bind. unfold wp at 1, update_unit. unfold find_unit in *. cbn [units]. rewrite Hu, Hk.
  destruct (existsb _ _) eqn:Hconf; cbn; [solve_quiet|].
  unfold wp, mret, M_ret. cbn. exists (clock_at (ticks w)). split_and!; [exists (ticks w); cbn; split; [lia|done]| |done].
  solve_quiet.
Qed.
End proofs.

(** ** Activation *)

Section activation.
Context {R : Type} `{KeyLinks R} `{UuidSupply} `{WalletClock} `{WalletCrypto} `{AttestationMethods R} `{X509}.
Context (config : WalletConfig).
Implicit Types (w : WalletDb R).

Lemma config_params_no_panic (wallet_provider : string) : get_wallet_provider_config_params config wallet_provider <> Panic.
Proof.
  unfold get_wallet_provider_config_params, get_if_enabled. destruct (wc_wallet_provider config !! wallet_provider) as [fields|]; cbn; [|done].
  destruct (wf_enabled fields); cbn; [|done]. destruct (wf_params fields) as [params|]; cbn; [|done].
  unfold validate_revocation_method, get_fields. destruct (wp_wua_revocation_method params) as [m|]; [|done].
  destruct (wc_revocation config !! m); cbn; [|done]. by destruct (negb _).
Qed.

Lemma validate_org_no_panic (org : WalletOrganisation) (provider : string) : validate_org_wallet_provider org provider <> Panic.
Proof.
  unfold validate_org_wallet_provider. case_bool_decide; [done|]. destruct (wo_wallet_provider org); [|done].
  destruct (negb _); [done|apply ok_or_no_panic].
Qed.

(** A store in which one unit and the history have changed. *)
Definition unit_set (id : Z) (f : UnitRow -> UnitRow) (action : HistoryAction) w : WalletDb R :=
  set_history (history w ++ [mkWalletHistory id action None])
    (set_units ((fun v => if ur_id v =? id then f v else v) <$> units w) w).

Lemma unit_set_quiet (id : Z) (f : UnitRow -> UnitRow) (action : HistoryAction) w w1 w2 :
  quiet w w1 -> quiet (unit_set id f action w1) w2 -> quiet (unit_set id f action w) w2.
Proof. intros [] []. unfold unit_set in *. constructor; cbn in *; first [congruence|lia]. Qed.

Lemma validate_attestation_no_panic (attestation : list string) (os : WalletUnitOs) (nonce : string) (params : WalletProviderParams) :
  validate_attestation attestation os nonce params <> Panic.
Proof. unfold validate_attestation. destruct os; [no_panic|no_panic|done]. Qed.

(** A pending unit with a nonce, of a provider that is configured for its
    organisation. *)
Record activable (id : Z) (row : UnitRow) (nonce : string) (params : WalletProviderParams) w : Prop := {
  ac_row : find_unit id w = Some row;
  ac_pending : ur_status row = UsPending;
  ac_nonce : ur_nonce row = Some nonce;
  ac_params : get_wallet_provider_config_params config (ur_wallet_provider_name row) = Ok params;
  ac_organisation : exists org issuer, find_organisation (ur_organisation_id row) w = Some org /\
    validate_org_wallet_provider org (ur_wallet_provider_name row) = Ok issuer
}.

Definition deadline (row : UnitRow) (params : WalletProviderParams) : Z :=
  ur_last_modified row + seconds (as_i64 (ic_timeout (wp_integrity_check params))).

(** What was proved by the time the unit is active: the platform attests a key
    for the nonce in time, that key signed the nonce, and the key the unit gets
    is that key or one that signed the nonce too. *)
Record activation_proved (request : WalletUnitActivationRequest) (row : UnitRow) (nonce : string)
  (params : WalletProviderParams) (jwk : string) w w' : Prop := {
  ap_in_time : exists t, reading w w' t /\ t <= deadline row params;
  ap_proved : exists attested proof msg sig,
    validate_attestation (ar_attestation request) (ur_os row) nonce params = Ok attested /\
    decompose_token (ar_attestation_key_proof request) = Some proof /\
    attestation_message (ic_enabled (wp_integrity_check params)) (ur_os row) proof = Some (msg, sig) /\
    verify_signature attested msg sig = true /\
    payload_ok config proof (wp_device_auth_leeway params) (Some nonce) w w' /\
    key_bound config (ar_device_signing_key_proof request) attested (wp_device_auth_leeway params) nonce jwk w w'
}.

Lemma reading_in w w1 w2 w3 (t : Z) : (ticks w <= ticks w1)%nat -> (ticks w2 <= ticks w3)%nat -> reading w1 w2 t -> reading w w3 t.
Proof. intros ? ? (n & Hn & ->). exists n. split; [lia|done]. Qed.

Lemma payload_in (proof : ProofJwt) (leeway : Z) (nonce : option string) w w1 w2 w3 :
  (ticks w <= ticks w1)%nat -> (ticks w2 <= ticks w3)%nat ->
  payload_ok config proof leeway nonce w1 w2 -> payload_ok config proof leeway nonce w w3.
Proof.
  intros Hq Hq' [Hi (nb & t1 & Hnb & Hr1 & Hle1) (ex & t2 & Hex & Hr2 & Hle2) Ha Hn]. constructor; [| | |done|done].
  - intros d Hd. destruct (Hi d Hd) as (t & Ht & Hle). exists t. split; [by apply (reading_in w w1 w2 w3)|done].
  - exists nb, t1. split_and!; [done|by apply (reading_in w w1 w2 w3)|done].
  - exists ex, t2. split_and!; [done|by apply (reading_in w w1 w2 w3)|done].
Qed.

Lemma key_bound_in (proof : option string) (attested : KeyHandle) (leeway : Z) (nonce jwk : string) w w1 w2 w3 :
  (ticks w <= ticks w1)%nat -> (ticks w2 <= ticks w3)%nat ->
  key_bound config proof attested leeway nonce jwk w1 w2 -> key_bound config proof attested leeway nonce jwk w w3.
Proof.
  intros ? ?. destruct proof as [p|]; cbn [key_bound]; [|done]. intros (token & handle & ? & ? & ? & ? & Hp). exists token, handle.
  split_and!; [done..|by apply (payload_in _ _ _ w w1 w2 w3)].
Qed.

(** Nothing has changed, or the unit is in error for one of two reasons. *)
Definition activation_failed (id : Z) (request : WalletUnitActivationRequest) (e : WalletProviderError) w w' : Prop :=
  quiet w w' \/
  exists row nonce params t, activable id row nonce params w /\ reading w w' t /\
    quiet (unit_set id (updated_unit t (mkUpdateWalletUnit (Some UsError) None None None)) HaErrored w) w' /\
    ((e = WpInvalidNonce /\ exists t', reading w w' t' /\ deadline row params < t') \/
     validate_attestation (ar_attestation request) (ur_os row) nonce params = Err e).

Lemma to_error_wp (id : Z) (row : UnitRow) (org : WalletOrganisation) (e : WalletProviderError) w :
  find_unit id w = Some row ->
  wp (_ ← set_wallet_unit_to_error (with_relations (Some org) None (unit_of_row row)); throw e : M (WalletDb R) _ unit) w (fun r w' =>
    match r with
    | Ok _ => False
    | Err e' => quiet w w' \/ e' = e /\ exists t, reading w w' t /\
        quiet (unit_set id (updated_unit t (mkUpdateWalletUnit (Some UsError) None None None)) HaErrored w) w'
    | Panic => False
    end).
Proof.
  intros Hrow. apply find_unit_Some in Hrow as Hid. destruct Hid as [_ Hid]. apply wp_bind. unfold set_wallet_unit_to_error. cbn [wu_id with_relations unit_of_row]. rewrite Hid.
  apply wp_bind, wp_map_err. eapply wp_mono; [by apply (update_unit_wp id _ w row)|].
  intros [[]|e'|] w' Hw; cbn [map_err]; [|by left|done]. destruct Hw as (t & Ht & Hq & _).
  unfold wp, create_wallet_unit_history, throw, ok_or, lift, mbind, M_bind. cbn [wu_organisation with_relations].
  right. split; [done|]. exists t. split; [exact Ht|]. destruct Hq as [Hu Hks Ho Hh Hr Hids Ht' Hn]. unfold unit_set.
  constructor; cbn; cbn in *; first [done|congruence|lia].
Qed.

Lemma activate_wp (id : Z) (request : WalletUnitActivationRequest) w :
  wp (activate_wallet_unit config id request) w (fun r w' =>
    match r with
    | Ok _ => exists row nonce params jwk issued t, activable id row nonce params w /\
        activation_proved request row nonce params jwk w w' /\ reading w w' issued /\ reading w w' t /\
        quiet (unit_set id (updated_unit t (mkUpdateWalletUnit (Some UsActive) (Some issued) (Some jwk) None)) HaActivated w) w' /\
        (forall other, other ∈ units w -> ur_id other <> id -> same_auth_key (Some jwk) (ur_organisation_id row) other = false)
    | Err e => activation_failed id request e w w'
    | Panic => False
    end).
Proof.
  unfold activate_wallet_unit. apply wp_bind. eapply wp_mono; [apply load_simple|].
  intros [wu|e|] w0 [-> Hl]; [|by left|done]. destruct Hl as (row & org & Hrow & Horg & ->).
  cbn [wu_status wu_nonce wu_organisation wu_wallet_provider_name wu_last_modified wu_os with_relations unit_of_row].
  apply wp_lift; [by destruct (ur_status row)|by left|]. intros [] Hst.
  assert (Hpend : ur_status row = UsPending) by (by destruct (ur_status row)). clear Hst.
  apply wp_lift; [apply ok_or_no_panic|by left|]. intros nonce Hnonce%ok_or_ok.
  apply wp_lift; [done|done|]. intros org' [= <-].
  apply wp_lift; [apply config_params_no_panic|by left|]. intros params Hparams.
  apply wp_lift; [apply validate_org_no_panic|by left|]. intros issuer Hissuer.
  assert (Hact : activable id row nonce params w) by (constructor; eauto).
  eapply wp_checks; [apply checks_clock| |by left]. intros now w1 Hq1 Hnow.
  assert (Hrow1 : find_unit id w1 = Some row) by (unfold find_unit; by rewrite (q_units _ _ Hq1)).
  destruct (Z.ltb_spec (ur_last_modified row + seconds (as_i64 (ic_timeout (wp_integrity_check params)))) now) as [Hlate|Hintime].
  { eapply wp_mono; [by apply to_error_wp|]. intros [[]|e|] w2 Hw; [done| |done].
    destruct Hw as [Hq|(-> & t & Ht & Hq)]; [left; by etrans|right]. exists row, nonce, params, t.
    assert (Ht2 : (ticks w1 <= ticks w2)%nat) by apply Hq.
    split_and!; [done|(eapply reading_in; [| |exact Ht]); [apply Hq1|lia]|by eapply unit_set_quiet|].
    left. split; [done|]. exists now. split; [(eapply reading_in; [| |exact Hnow]); [done|exact Ht2]|done]. }
  destruct (validate_attestation _ _ _ _) as [attested|e|] eqn:Hval; [| |by apply validate_attestation_no_panic in Hval].
  2: { eapply wp_mono; [by apply to_error_wp|]. intros [[]|e'|] w2 Hw; [done| |done].
       destruct Hw as [Hq|(-> & t & Ht & Hq)]; [left; by etrans|right]. exists row, nonce, params, t.
       split_and!; [done|(eapply reading_in; [| |exact Ht]); [apply Hq1|lia]|by eapply unit_set_quiet|]. by right. }
  apply wp_lift; [apply ok_or_no_panic|by left|]. intros proof Hproof%ok_or_ok.
  eapply wp_checks; [apply checks_attestation_proof| |by left; etrans]. intros [] w2 Hq2 [(msg & sig & Hmsg & Hsig) Hpay].
  eapply wp_checks; [apply checks_activation_key| |left; etrans; [|done]; by etrans]. intros jwk w3 Hq3 Hbound.
  eapply wp_checks; [apply checks_clock| |left; etrans; [|done]; etrans; [|done]; by etrans]. intros issued w4 Hq4 Hissued.
  assert (Hq : quiet w w4) by (etrans; [exact Hq1|]; etrans; [exact Hq2|]; by etrans).
  assert (Hrow4 : find_unit id w4 = Some row) by (unfold find_unit; by rewrite (q_units _ _ Hq)).
  apply wp_bind, wp_map_err. eapply wp_mono; [by apply (update_unit_wp id _ w4 row)|].
  intros [[]|e|] w5 Hw; cbn [map_err]; [|left; by etrans|done]. destruct Hw as (t & Ht & Hq5 & Hnoconf).
  unfold wp, create_wallet_unit_history. set (w6 := set_history _ w5).
  assert (H56 : ticks w6 = ticks w5) by done. assert (H45 : (ticks w4 <= ticks w5)%nat) by apply Hq5.
  pose proof (q_ticks _ _ Hq1). pose proof (q_ticks _ _ Hq2). pose proof (q_ticks _ _ Hq3). pose proof (q_ticks _ _ Hq4).
  exists row, nonce, params, jwk, issued, t. split_and!; [done| | | | |].
  - constructor.
    + exists now. split; [eapply reading_in; [| |exact Hnow]; lia|unfold deadline; lia].
    + exists attested, proof, msg, sig. split_and!; [done..| |].
      * eapply payload_in; [| |exact Hpay]; lia.
      * eapply key_bound_in; [| |exact Hbound]; lia.
  - eapply reading_in; [| |exact Hissued]; lia.
  - eapply reading_in; [| |exact Ht]; lia.
  - eapply unit_set_quiet; [exact Hq|]. destruct Hq5 as [Hu Hks Ho Hh Hr Hids Ht' Hn]. unfold unit_set, w6.
    constructor; cbn; cbn in *; first [done|congruence|lia].
  - intros other Hin Hne. rewrite <- (q_units _ _ Hq) in Hin. rewrite existsb_false in Hnoconf. specialize (Hnoconf other Hin).
    apply Z.eqb_neq in Hne. by rewrite Hne in Hnoconf.
Qed.
End activation.

(** ** Writing attested keys *)

Section keys.
Context {R : Type} `{KeyLinks R} `{UuidSupply} `{WalletClock} `{WalletCrypto} `{AttestationMethods R} `{X509}.
Context (config : WalletConfig).
Implicit Types (w : WalletDb R).

Definition row_for (k : AttestedKey) (row : KeyRow) : Prop :=
  kw_id row = ak_id k /\ kw_wallet_unit_id row = ak_wallet_unit_id k /\ kw_public_key_jwk row = ak_public_key_jwk k /\
  kw_expiration_date row = ak_expiration_date k.

(** The rows after keys have been inserted or updated. *)
Record upserted (keys : list AttestedKey) (rows rows' : list KeyRow) : Prop := {
  up_from : forall row, row ∈ rows' -> (exists k, k ∈ keys /\ row_for k row) \/ (row ∈ rows /\ kw_id row ∉ (ak_id <$> keys));
  up_ids : exists new, kw_id <$> rows' = (kw_id <$> rows) ++ new /\ NoDup new /\
    forall x, x ∈ new -> x ∉ (kw_id <$> rows) /\ x ∈ (ak_id <$> keys);
  up_have : NoDup (ak_id <$> keys) -> forall k, k ∈ keys -> exists row, row ∈ rows' /\ row_for k row
}.

(** Every new key row has a link that is not set. *)
Definition links_added w w' : Prop :=
  exists new, kw_id <$> key_rows w' = (kw_id <$> key_rows w) ++ new /\ revocations w' = foldl (fun r k => insert_link k r) (revocations w) new.

(** Only key rows, their links and the clock change. *)
Record only_keys w w' : Prop := {
  ok_units : units w' = units w;
  ok_organisations : organisations w' = organisations w;
  ok_history : history w' = history w;
  ok_ids : wallet_ids w' = wallet_ids w;
  ok_nonces : nonces w' = nonces w;
  ok_ticks : (ticks w <= ticks w')%nat;
  ok_links : links_added w w'
}.

#[local] Instance only_keys_trans : Transitive only_keys.
Proof.
  intros w w1 w2 [? ? ? ? ? ? (new & Hk & Hr)] [? ? ? ? ? ? (new' & Hk' & Hr')]. constructor; try congruence; [lia|].
  exists (new ++ new'). rewrite Hk', Hk, Hr', Hr, foldl_app, app_assoc. done.
Qed.

Lemma upsert_one (k : AttestedKey) w : is_Some (find_unit (ak_wallet_unit_id k) w) ->
  wp (upsert_attested_key k) w (fun r w' => r = Ok tt /\ only_keys w w' /\
    exists t, (kw_id <$> key_rows w' = kw_id <$> key_rows w /\ ak_id k ∈ (kw_id <$> key_rows w) /\
               revocations w' = revocations w /\
               forall row, row ∈ key_rows w' <-> (kw_id row <> ak_id k /\ row ∈ key_rows w) \/
                 exists old, old ∈ key_rows w /\ kw_id old = ak_id k /\
                   row = mkKeyRow (ak_id k) (kw_created_date old) t (ak_expiration_date k) (ak_public_key_jwk k) (ak_wallet_unit_id k)) \/
              (key_rows w' = key_rows w ++ [mkKeyRow (ak_id k) t t (ak_expiration_date k) (ak_public_key_jwk k) (ak_wallet_unit_id k)] /\
               ak_id k ∉ (kw_id <$> key_rows w) /\ revocations w' = insert_link (ak_id k) (revocations w))).
Proof.
  intros [u Hu]. unfold upsert_attested_key. eapply wp_run; [reflexivity|]. eapply wp_run; [reflexivity|].
  unfold find_unit in *. cbn [kw_id key_rows kw_wallet_unit_id units]. rewrite Hu. set (t := clock_at (ticks w)).
  destruct (existsb _ (key_rows w)) eqn:He.
  - apply existsb_elem in He as (old & Hold & Hid%Z.eqb_eq). unfold wp, put. split; [done|]. set (w' := set_key_rows _ _ _).
    assert (Hids : kw_id <$> key_rows w' = kw_id <$> key_rows w).
    { cbn. rewrite <- list_fmap_compose. apply list_fmap_ext. intros i row _. cbn. by destruct (Z.eqb_spec (kw_id row) (ak_id k)). }
    split; [constructor; [done..|cbn; lia|exists []; by rewrite app_nil_r, Hids]|].
    exists t. left. cbn. split_and!.
    + exact Hids.
    + apply list_elem_of_fmap. by exists old.
    + done.
    + intros row. rewrite list_elem_of_fmap. split.
      * intros (r & -> & Hr). destruct (Z.eqb_spec (kw_id r) (ak_id k)) as [Hrk|Hrk]; [right; exists r; by rewrite Hrk|by left].
      * intros [[Hne Hin]|(o & Ho & Hoid & ->)].
        -- exists row. apply Z.eqb_neq in Hne. by rewrite Hne.
        -- exists o. by rewrite Hoid, Z.eqb_refl.
  - unfold wp, insert_key, find_unit. cbn [kw_id key_rows kw_wallet_unit_id units]. rewrite He, Hu.
    split; [done|]. split; [constructor; [done..|cbn; lia|exists [ak_id k]; cbn; by rewrite fmap_app]|]. exists t. right. cbn. split_and!; [done| |done].
    intros (r & Hid & Hr)%list_elem_of_fmap. rewrite existsb_false in He. specialize (He r Hr). rewrite Hid, Z.eqb_refl in He. done.
Qed.

Lemma upsert_all (keys : list AttestedKey) w : (forall k, k ∈ keys -> is_Some (find_unit (ak_wallet_unit_id k) w)) ->
  wp (for_each upsert_attested_key keys) w (fun r w' => r = Ok tt /\ only_keys w w' /\ upserted keys (key_rows w) (key_rows w')).
Proof.
  revert w. induction keys as [|k keys IH]; intros w Hu.
  { unfold wp. cbn. split; [done|]. split; [constructor; [done..|exists []; by rewrite app_nil_r]|]. constructor; [intros row Hr; right; split; [done|apply not_elem_of_nil]| |].
    - exists []. rewrite app_nil_r. split_and!; [done|constructor|]. intros x Hx. by apply elem_of_nil in Hx.
    - intros _ k Hk. by apply elem_of_nil in Hk. }
  cbn [for_each]. apply wp_bind. eapply wp_mono; [apply upsert_one, Hu; left|]. intros r w1 (-> & Hok1 & t & Hone).
  assert (Hu1 : forall k', k' ∈ keys -> is_Some (find_unit (ak_wallet_unit_id k') w1)).
  { intros k' Hk'. unfold find_unit. rewrite (ok_units _ _ Hok1). apply Hu. by right. }
  eapply wp_mono; [by apply IH|]. intros r w2 (-> & Hok2 & [Hfrom (new & Hids & Hnew & Hin) Hhave]). split; [done|].
  split; [by etrans|]. clear IH Hu Hu1.
  assert (Hhas : exists row, row ∈ key_rows w1 /\ row_for k row).
  { destruct Hone as [(_ & Hk & _ & Hrows)|(Hrows & _)].
    - apply list_elem_of_fmap in Hk as (old & Hid & Hold). eexists. split; [apply Hrows; right; exists old; split_and!; [done|by rewrite Hid|reflexivity]|].
      unfold row_for. cbn. done.
    - eexists. split; [rewrite Hrows; apply elem_of_app; right; by apply list_elem_of_singleton|]. unfold row_for. cbn. done. }
  assert (Hold : forall row, row ∈ key_rows w1 -> row_for k row \/ (row ∈ key_rows w /\ kw_id row <> ak_id k)).
  { intros row Hr. destruct Hone as [(_ & _ & _ & Hrows)|(Hrows & Hni & _)].
    - apply Hrows in Hr as [[Hne Hr]|(old & _ & Hid & ->)]; [by right|left; unfold row_for; cbn; done].
    - rewrite Hrows in Hr. apply elem_of_app in Hr as [Hr|Hr].
      + right. split; [done|]. intros Heq. apply Hni. apply list_elem_of_fmap. by exists row.
      + apply list_elem_of_singleton in Hr as ->. left. unfold row_for. done. }
  constructor.
  - intros row Hr. apply Hfrom in Hr as [(k' & Hk' & Hrow)|[Hr Hni]]; [left; exists k'; split; [by right|done]|].
    destruct (Hold row Hr) as [Hrow|[Hr' Hne]]; [left; exists k; split; [left|done]|right]. split; [done|].
    rewrite fmap_cons. by intros [Heq|Heq]%elem_of_cons.
  - destruct Hone as [(Hids1 & Hk & _ & _)|(Hrows & Hni & _)].
    + exists new. split_and!; [by rewrite Hids, Hids1|done|]. intros x Hx. destruct (Hin x Hx) as [Hx1 Hx2]. rewrite Hids1 in Hx1.
      split; [done|]. rewrite fmap_cons. by right.
    + exists (ak_id k :: new). rewrite Hids, Hrows, fmap_app, <- app_assoc. split_and!; [done| |].
      * constructor; [|done]. intros Hx. destruct (Hin _ Hx) as [Hx1 _]. apply Hx1. rewrite Hrows, fmap_app. apply elem_of_app. right. by left.
      * intros x [->|Hx]%elem_of_cons; [split; [done|rewrite fmap_cons; by left]|]. destruct (Hin x Hx) as [Hx1 Hx2].
        split; [|rewrite fmap_cons; by right]. intros Hx3. apply Hx1. rewrite Hrows, fmap_app. apply elem_of_app. by left.
  - rewrite fmap_cons. intros [Hk Hnd]%NoDup_cons k' [->|Hk']%elem_of_cons; [|by apply Hhave].
    destruct Hhas as (row & Hr & Hrow).
    assert (Hid : ak_id k ∈ (kw_id <$> key_rows w2)).
    { rewrite Hids. apply elem_of_app. left. apply list_elem_of_fmap. exists row. split; [symmetry; apply Hrow|done]. }
    apply list_elem_of_fmap in Hid as (row2 & Hid2 & Hr2).
    destruct (Hfrom row2 Hr2) as [(k' & Hk' & Hrow2)|[Hr21 _]].
    + exfalso. apply Hk. apply list_elem_of_fmap. exists k'. split; [|done]. rewrite Hid2. apply Hrow2.
    + exists row2. split; [done|]. destruct (Hold row2 Hr21) as [?|[_ Hne]]; [done|]. by rewrite Hid2 in Hne.
Qed.
End keys.
