(* ===== verification/WalletIssuance.v ===== *)
(** * Issuance of attestations and the life cycle of wallet units

    The theorems on [issue_attestation], [revoke_wallet_unit], registration and
    deletion of [WalletProvider.v], and the invariant of the tables over any
    sequence of calls. *)

From S2P Require Import Prelude StatusBits KeySelection RevocationRepo RevocationMethod.
From S2P Require Import BitstringMethod TokenMethod ListFilter Validity Paths Datatypes WalletStore WalletProvider WalletSpec.
#[local] Open Scope Z_scope.

(** ** The keys of a request *)

Definition extended (now expiration : Z) (k : AttestedKey) : AttestedKey :=
  mkWalletAttestedKey (ak_id k) (ak_wallet_unit_id k) (ak_created_date k) now expiration (ak_public_key_jwk k) (ak_revocation k).

Lemma extend_key_Some (now expiration : Z) (jwk : string) (keys keys' : list AttestedKey) (rev : option KeyRevocation) :
  extend_key now expiration jwk keys = Some (keys', rev) ->
  exists l k r, keys = l ++ k :: r /\ ak_public_key_jwk k = jwk /\ keys' = l ++ extended now expiration k :: r /\ rev = ak_revocation k.
Proof.
  revert keys'. induction keys as [|k keys IH]; intros keys'; cbn [extend_key]; [done|]. case_bool_decide as Hk.
  - intros [= <- <-]. by exists [], k, keys.
  - destruct (extend_key now expiration jwk keys) as [[rest rev']|]; [|done]. intros [= <- <-].
    destruct (IH rest eq_refl) as (l & k' & r & -> & Hk' & -> & ->). by exists (k :: l), k', r.
Qed.

Lemma extend_key_None (now expiration : Z) (jwk : string) (keys : list AttestedKey) :
  extend_key now expiration jwk keys = None -> forall k, k ∈ keys -> ak_public_key_jwk k <> jwk.
Proof.
  induction keys as [|k keys IH]; cbn [extend_key]; intros He k' Hk'; [by apply elem_of_nil in Hk'|]. case_bool_decide as Hk; [done|].
  destruct (extend_key now expiration jwk keys) as [[]|]; [done|]. apply elem_of_cons in Hk' as [->|Hk']; [done|]. by apply IH.
Qed.

(** How the keys of a unit change along the requests. [n] and [n'] are the
    identifiers drawn before and after. *)
Inductive prepared `{UuidSupply} (unit_id now expiration : Z) :
  nat -> list AttestedKey -> list (string * AttestedKeyInput) -> nat -> list AttestedKey -> Prop :=
| PrepNil n n' keys : (n <= n')%nat -> prepared unit_id now expiration n keys [] n' keys
| PrepReuse n keys keys1 jwk rev rest n' keys' :
    extend_key now expiration jwk keys = Some (keys1, rev) ->
    prepared unit_id now expiration n keys1 rest n' keys' ->
    prepared unit_id now expiration n keys ((jwk, Reused rev) :: rest) n' keys'
| PrepNew n m keys jwk rest n' keys' :
    (n <= m)%nat -> extend_key now expiration jwk keys = None ->
    let key := mkWalletAttestedKey (uuid_at m) unit_id now now expiration jwk None in
    prepared unit_id now expiration (S m) (keys ++ [key]) rest n' keys' ->
    prepared unit_id now expiration n keys ((jwk, NewlyCreated key) :: rest) n' keys'.

Section prepared.
Context `{UuidSupply} `{!UuidLaws} (unit_id now expiration : Z).

Lemma prepared_weaken (n n0 n' : nat) (keys keys' : list AttestedKey) (ins : list (string * AttestedKeyInput)) : (n <= n0)%nat ->
  prepared unit_id now expiration n0 keys ins n' keys' -> prepared unit_id now expiration n keys ins n' keys'.
Proof.
  intros Hn Hp. revert n Hn. induction Hp as [n0 n' keys Hle|n0 keys keys1 jwk rev rest n' keys' He Hp IH|n0 m keys jwk rest n' keys' Hm He key Hp IH]; intros n Hn.
  - constructor. lia.
  - econstructor; [done|]. by apply IH.
  - apply PrepNew; [lia|done|done].
Qed.

Lemma prepared_le (n n' : nat) (keys keys' : list AttestedKey) (ins : list (string * AttestedKeyInput)) :
  prepared unit_id now expiration n keys ins n' keys' -> (n <= n')%nat.
Proof. induction 1; lia. Qed.

(** A key stays the same key: its identity, its JWK and its entry. *)
Definition same_key (k k' : AttestedKey) : Prop :=
  ak_id k' = ak_id k /\ ak_wallet_unit_id k' = ak_wallet_unit_id k /\ ak_public_key_jwk k' = ak_public_key_jwk k /\
  ak_revocation k' = ak_revocation k.

#[local] Instance same_key_preorder : PreOrder same_key.
Proof. split; [done|]. intros a b c (? & ? & ? & ?) (? & ? & ? & ?). split_and!; congruence. Qed.

Lemma extended_lookup (jwk : string) (keys keys1 : list AttestedKey) (rev : option KeyRevocation) :
  extend_key now expiration jwk keys = Some (keys1, rev) ->
  Forall2 same_key keys keys1 /\ (exists k, k ∈ keys1 /\ ak_public_key_jwk k = jwk /\ ak_expiration_date k = expiration /\ ak_revocation k = rev) /\
  (forall k, k ∈ keys1 -> (k ∈ keys \/ ak_expiration_date k = expiration)) /\
  (forall k, k ∈ keys -> ak_expiration_date k = expiration -> exists k', k' ∈ keys1 /\ same_key k k' /\ ak_expiration_date k' = expiration).
Proof.
  intros (l & k & r & -> & Hk & -> & ->)%extend_key_Some.
  split_and!.
  - apply Forall2_app; [reflexivity|]. by constructor.
  - exists (extended now expiration k). split_and!; [set_solver|done..].
  - intros k' [Hk'|[->|Hk']%elem_of_cons]%elem_of_app; [left; set_solver|by right|left; set_solver].
  - intros k' [Hk'|[->|Hk']%elem_of_cons]%elem_of_app He.
    + exists k'. split; [set_solver|done].
    + exists (extended now expiration k). split; [set_solver|done].
    + exists k'. split; [set_solver|done].
Qed.

Lemma prepared_keys (n n' : nat) (keys keys' : list AttestedKey) (ins : list (string * AttestedKeyInput)) :
  prepared unit_id now expiration n keys ins n' keys' ->
  exists old new, keys' = old ++ new /\ Forall2 same_key keys old /\ NoDup (ak_id <$> new) /\
    forall k, k ∈ new -> (exists m, (n <= m < n')%nat /\ ak_id k = uuid_at m) /\ ak_wallet_unit_id k = unit_id /\ ak_revocation k = None.
Proof.
  induction 1 as [n n' keys Hle|n keys keys1 jwk rev rest n' keys' He Hp IH|n m keys jwk rest n' keys' Hm He key Hp IH].
  - exists keys, []. rewrite app_nil_r. split_and!; [done|reflexivity|constructor|set_solver].
  - destruct IH as (old & new & -> & Hold & Hnd & Hnew). exists old, new. split_and!; [done| |done|done].
    apply extended_lookup in He as [Hs _]. by etrans.
  - destruct IH as (old & new & -> & Hold & Hnd & Hnew). apply Forall2_app_inv_l in Hold as (old1 & o & Hold1 & Ho & ->).
    apply Forall2_cons_inv_l in Ho as (k' & o' & Hk' & ->%Forall2_nil_inv_l & ->). exists old1, (k' :: new). rewrite <- app_assoc. split_and!; [done|done| |].
    + rewrite fmap_cons. constructor; [|done]. intros (k2 & Hid & Hk2)%list_elem_of_fmap.
      destruct (Hnew k2 Hk2) as [(m2 & Hm2 & Hid2) _]. destruct Hk' as (Hid' & _). rewrite Hid', Hid2 in Hid. cbn in Hid. apply (inj uuid_at) in Hid. lia.
    + apply prepared_le in Hp. intros k2 [->|Hk2]%elem_of_cons.
      * destruct Hk' as (-> & -> & _ & ->). cbn. split_and!; [exists m; split; [lia|done]|done|done].
      * destruct (Hnew k2 Hk2) as [(m2 & Hm2 & Hid2) Hrest]. split; [exists m2; split; [lia|done]|done].
Qed.

(** Once extended, a key keeps its expiration. *)
Lemma prepared_keeps (n n' : nat) (keys keys' : list AttestedKey) (ins : list (string * AttestedKeyInput)) (k : AttestedKey) :
  prepared unit_id now expiration n keys ins n' keys' -> k ∈ keys -> ak_expiration_date k = expiration ->
  exists k', k' ∈ keys' /\ same_key k k' /\ ak_expiration_date k' = expiration.
Proof.
  intros Hp. revert k. induction Hp as [n n' keys Hle|n keys keys1 jwk rev rest n' keys' He Hp IH|n m keys jwk rest n' keys' Hm He key Hp IH]; intros k Hk Hx.
  - by exists k.
  - apply extended_lookup in He as (_ & _ & _ & Hkeep). destruct (Hkeep k Hk Hx) as (k1 & Hk1 & Hs1 & Hx1).
    destruct (IH k1 Hk1 Hx1) as (k2 & Hk2 & Hs2 & Hx2). exists k2. split_and!; [done|by etrans|done].
  - apply IH; [set_solver|done].
Qed.

(** Every request ends up with a key of the unit, valid for the whole time. *)
Definition input_key (jwk : string) (input : AttestedKeyInput) (k : AttestedKey) : Prop :=
  ak_public_key_jwk k = jwk /\ ak_expiration_date k = expiration /\
  match input with NewlyCreated key => ak_id key = ak_id k /\ ak_wallet_unit_id key = unit_id | Reused rev => ak_revocation k = rev end.

Lemma prepared_inputs (n n' : nat) (keys keys' : list AttestedKey) (ins : list (string * AttestedKeyInput)) :
  prepared unit_id now expiration n keys ins n' keys' ->
  forall jwk input, (jwk, input) ∈ ins -> exists k, k ∈ keys' /\ input_key jwk input k.
Proof.
  induction 1 as [n n' keys Hle|n keys keys1 jwk rev rest n' keys' He Hp IH|n m keys jwk rest n' keys' Hm He key Hp IH]; intros jwk' input.
  - set_solver.
  - intros [[= -> ->]|Hin]%elem_of_cons; [|by apply IH]. apply extended_lookup in He as (_ & (k & Hk & Hj & Hx & Hr) & _).
    destruct (prepared_keeps _ _ _ _ _ _ Hp Hk Hx) as (k' & Hk' & (Hid & _ & Hjw & Hrv) & Hx'). exists k'. split; [done|].
    split_and!; [congruence|done|congruence].
  - intros [[= -> ->]|Hin]%elem_of_cons; [|by apply IH].
    destruct (prepared_keeps _ _ _ _ _ key Hp) as (k' & Hk' & (Hid & Hun & Hjw & Hrv) & Hx'); [set_solver|done|]. exists k'. split; [done|].
    by split_and!.
Qed.

(** A unit has one key for a JWK. *)
Lemma prepared_jwks (n n' : nat) (keys keys' : list AttestedKey) (ins : list (string * AttestedKeyInput)) :
  prepared unit_id now expiration n keys ins n' keys' -> NoDup (ak_public_key_jwk <$> keys) -> NoDup (ak_public_key_jwk <$> keys').
Proof.
  induction 1 as [n n' keys Hle|n keys keys1 jwk rev rest n' keys' He Hp IH|n m keys jwk rest n' keys' Hm He key Hp IH]; intros Hnd; [done| |].
  - apply IH. apply extended_lookup in He as [Hs _]. replace (ak_public_key_jwk <$> keys1) with (ak_public_key_jwk <$> keys); [done|].
    clear -Hs. induction Hs as [|a b l l' (_ & _ & Hj & _) _ IH]; [done|]. rewrite !fmap_cons. by rewrite Hj, IH.
  - apply IH. rewrite fmap_app. apply NoDup_app. split_and!; [done| |apply NoDup_singleton].
    intros x (k & -> & Hk)%list_elem_of_fmap Hx%list_elem_of_singleton. by apply (extend_key_None _ _ _ _ He k Hk).
Qed.
End prepared.

Section preparation.
Context {R : Type} `{KeyLinks R} `{UuidSupply} `{WalletClock} `{WalletCrypto} `{AttestationMethods R} `{X509}.
Context (config : WalletConfig).
Implicit Types (w : WalletDb R).

Lemma possession_in (pop : string) (leeway : Z) (jwk : string) w w1 w2 w3 : (ticks w <= ticks w1)%nat -> (ticks w2 <= ticks w3)%nat ->
  possession_proved config pop leeway jwk w1 w2 -> possession_proved config pop leeway jwk w w3.
Proof.
  intros ? ? (token & handle & ? & ? & ? & ? & Hp). exists token, handle. split_and!; [done..|by apply (payload_in _ _ _ _ w w1 w2 w3)].
Qed.

Definition input_pair (i : KeyAttestationInput) : string * AttestedKeyInput := (ki_holder_jwk i, ki_key i).

Definition request_met (params : WalletProviderParams) w w' (req : IssueWuaRequest) (i : KeyAttestationInput) : Prop :=
  possession_proved config (iw_proof req) (wp_device_auth_leeway params) (ki_holder_jwk i) w w' /\ ki_security_level i = iw_security_level req.

Lemma request_met_in (params : WalletProviderParams) w w1 w2 w3 (reqs : list IssueWuaRequest) (ins : list KeyAttestationInput) :
  (ticks w <= ticks w1)%nat -> (ticks w2 <= ticks w3)%nat ->
  Forall2 (request_met params w1 w2) reqs ins -> Forall2 (request_met params w w3) reqs ins.
Proof. intros ? ? Hf. eapply Forall2_impl; [exact Hf|]. intros req i [Hp Hl]. split; [by apply (possession_in _ _ _ w w1 w2 w3)|done]. Qed.

Lemma prepare_wp (unit_id now : Z) (params : WalletProviderParams) (reqs : list IssueWuaRequest) (keys : list AttestedKey)
  (inputs : list KeyAttestationInput) w :
  wp (prepare_keys config unit_id now params reqs keys inputs) w (fun r w' => quiet w w' /\
    match r with
    | Ok (keys', inputs') => exists ins, inputs' = inputs ++ ins /\
        prepared unit_id now (now + seconds (as_i64 (wp_wua_expiration_time params))) (wallet_ids w) keys (input_pair <$> ins) (wallet_ids w') keys' /\
        Forall2 (request_met params w w') reqs ins
    | Err _ => True
    | Panic => False
    end).
Proof.
  revert keys inputs w. induction reqs as [|req reqs IH]; intros keys inputs w; cbn [prepare_keys].
  { unfold wp, mret, M_ret. split; [reflexivity|]. exists []. rewrite app_nil_r. split_and!; [done|by constructor|constructor]. }
  eapply wp_checks; [apply checks_pop| |done]. intros jwk w1 Hq1 Hpop.
  destruct (extend_key _ _ jwk keys) as [[keys1 rev]|] eqn:He.
  - eapply wp_mono; [apply IH|]. intros [[keys' inputs']|e|] w2 [Hq2 Hr]; (split; [by etrans|]); [|done|done].
    destruct Hr as (ins & -> & Hp & Hf). eexists (_ :: ins). rewrite <- app_assoc. split; [reflexivity|]. split.
    + rewrite fmap_cons. eapply PrepReuse; [exact He|]. eapply prepared_weaken; [apply Hq1|exact Hp].
    + constructor; [split; [|done]|].
      * eapply possession_in; [reflexivity|apply Hq2|exact Hpop].
      * eapply request_met_in; [apply Hq1|reflexivity|exact Hf].
  - eapply wp_run; [reflexivity|]. set (w2 := mkWalletDb _ _ _ _ _ _ _ _).
    assert (Hq2 : quiet w1 w2) by (unfold w2; solve_quiet).
    eapply wp_mono; [apply IH|]. intros [[keys' inputs']|e|] w3 [Hq3 Hr]; (split; [etrans; [exact Hq1|]; by etrans|]); [|done|done].
    destruct Hr as (ins & -> & Hp & Hf). eexists (_ :: ins). rewrite <- app_assoc. split; [reflexivity|]. split.
    + rewrite fmap_cons. eapply (PrepNew _ _ _ _ (wallet_ids w1)); [apply Hq1|exact He|exact Hp].
    + pose proof (q_ticks _ _ Hq3). pose proof (q_ticks _ _ Hq1). constructor; [split; [|done]|].
      * (eapply possession_in; [| |exact Hpop]); [lia|]. change (ticks w1) with (ticks w2). lia.
      * (eapply request_met_in; [| |exact Hf]); [change (ticks w2) with (ticks w1); lia|lia].
Qed.
End preparation.

(** ** Issuance *)

Section issuance.
Context {R : Type} `{KeyLinks R} `{UuidSupply} `{!UuidLaws} `{WalletClock} `{WalletCrypto} `{AttestationMethods R} `{X509}.
Context (config : WalletConfig).
Implicit Types (w : WalletDb R).

(** All or nothing: [P] when the call returns, else the tables are unchanged. *)
Definition atomic {A : Type} (P : A -> WalletDb R -> Prop) w (r : res WalletProviderError A) w' : Prop :=
  match r with Ok a => P a w' | _ => quiet w w' end.

Lemma atomic_lift {A B : Type} (m : res WalletProviderError A) (k : A -> M (WalletDb R) WalletProviderError B) (P : B -> WalletDb R -> Prop) w0 w :
  quiet w0 w -> (forall a, m = Ok a -> wp (k a) w (atomic P w0)) -> wp (mbind k (lift m)) w (atomic P w0).
Proof. intros Hq Hk. apply wp_bind. unfold wp at 1, lift. destruct m; [by apply Hk|done|done]. Qed.

Lemma atomic_checks {A B : Type} (m : M (WalletDb R) WalletProviderError A) (P : A -> WalletDb R -> WalletDb R -> Prop)
  (k : A -> M (WalletDb R) WalletProviderError B) (Q : B -> WalletDb R -> Prop) w0 w :
  checks m P -> quiet w0 w -> (forall a w', quiet w w' -> P a w w' -> wp (k a) w' (atomic Q w0)) -> wp (mbind k m) w (atomic Q w0).
Proof. intros Hm Hq Hk. eapply wp_checks; [exact Hm|done|]. intros e w' Hq'. cbn. by etrans. Qed.

Lemma load_full (id : Z) (rel : option RevocationListRelations) w :
  wp (load_wallet_unit id (mkWalletUnitRelations true (Some rel))) w (fun r w' => w' = w /\
    match r with
    | Ok u => exists row org keys, find_unit id w = Some row /\ find_organisation (ur_organisation_id row) w = Some org /\
        get_by_wallet_unit_id id rel w = Ok keys /\ u = with_relations (Some org) (Some keys) (unit_of_row row)
    | _ => True
    end).
Proof.
  unfold load_wallet_unit. apply wp_bind, wp_map_err. unfold wp at 1, get_wallet_unit_row, get, mbind, M_bind.
  destruct (find_unit id w) as [row|] eqn:Hrow; cbn [map_err]; [|done]. cbn [rel_organisation rel_attested_keys lift].
  destruct (find_organisation _ w) as [org|] eqn:Horg; cbn; [|done].
  destruct (get_by_wallet_unit_id id rel w) as [keys| |] eqn:Hk; cbn; [|done|done]. split; [done|]. by exists row, org, keys.
Qed.

(** The instance attestation of a key, and the key attestation. *)
Record is_wia (params : WalletProviderParams) (info : JwtPublicKeyInfo) (jwk : string) (t : Z) (a : AttestationJwt) : Prop := {
  wia_type : aj_type a = WIA_JWT_TYPE;
  wia_signer : aj_public_key_info a = info;
  wia_dates : aj_issued_at a = t /\ aj_invalid_before a = t /\ aj_expires_at a = t + seconds (as_i64 (wp_wia_expiration_time params));
  wia_subject : aj_subject a = Some (wp_wallet_client_id params);
  wia_holder : aj_proof_of_possession_key a = Some jwk;
  wia_claims : aj_custom a = WiaClaims (wp_wallet_name params) (wp_wallet_link params) (wp_eudi_wallet_info params)
}.

Record is_wua (params : WalletProviderParams) (info : JwtPublicKeyInfo) (jwk : string) (level : KeyStorageSecurityLevel)
  (status : option CredentialStatus) (t : Z) (a : AttestationJwt) : Prop := {
  wua_type : aj_type a = WUA_JWT_TYPE;
  wua_signer : aj_public_key_info a = info;
  wua_dates : aj_issued_at a = t /\ aj_invalid_before a = t /\ aj_expires_at a = t + seconds (as_i64 (wp_wua_expiration_time params));
  wua_claims : aj_custom a = WuaClaims level jwk (wp_eudi_wallet_info params) (status ≫= sd_jwt_status)
}.

Definition wia_issued (params : WalletProviderParams) (auth_fn : Signer) (info : JwtPublicKeyInfo) w w' (proof token : string) : Prop :=
  exists jwk t a, possession_proved config proof (wp_device_auth_leeway params) jwk w w' /\ reading w w' t /\
    is_wia params info jwk t a /\ tokenize auth_fn a = Some token.

Lemma checks_wia (params : WalletProviderParams) (auth_fn : Signer) (info : JwtPublicKeyInfo) (proof : string) :
  checks (issue_wia config params auth_fn info proof : M (WalletDb R) _ _) (fun token w w' => wia_issued params auth_fn info w w' proof token).
Proof.
  intros w. unfold issue_wia. eapply wp_checks; [apply checks_pop| |done]. intros jwk w1 Hq1 Hpop.
  unfold create_wia. apply wp_bind. eapply wp_checks; [apply checks_clock| |by intros; cbn; split; [by etrans|]].
  intros t w2 Hq2 Ht. apply wp_lift; [apply ok_or_no_panic|by intros; split; [by etrans|]|]. intros alg Halg.
  unfold wp, mret, M_ret, lift. split; [by etrans|]. destruct (tokenize _ _) as [token|] eqn:Htok; cbn [ok_or]; [|done].
  exists jwk, t. eexists. split_and!; [| | |exact Htok].
  - eapply possession_in; [reflexivity|apply Hq2|exact Hpop].
  - eapply reading_in; [apply Hq1|reflexivity|exact Ht].
  - by constructor.
Qed.

Lemma checks_wias (params : WalletProviderParams) (auth_fn : Signer) (info : JwtPublicKeyInfo) (proofs : list string) :
  checks (collect_M (issue_wia config params auth_fn info) proofs : M (WalletDb R) _ _)
    (fun tokens w w' => Forall2 (wia_issued params auth_fn info w w') proofs tokens).
Proof.
  induction proofs as [|proof proofs IH]; intros w; cbn [collect_M]; [unfold wp; cbn; by split|].
  eapply wp_checks; [apply checks_wia| |done]. intros token w1 Hq1 Hone.
  eapply wp_checks; [apply IH| |by intros; split; [by etrans|]]. intros tokens w2 Hq2 Hall. unfold wp, mret, M_ret.
  split; [by etrans|]. pose proof (q_ticks _ _ Hq1). pose proof (q_ticks _ _ Hq2). constructor.
  - destruct Hone as (jwk & t & a & Hp & Ht & ? & ?). exists jwk, t, a.
    split_and!; [(eapply possession_in; [| |exact Hp]); lia|(eapply reading_in; [| |exact Ht]); lia|done|done].
  - eapply Forall2_impl; [exact Hall|]. intros p tok (jwk & t & a & Hp & Ht & ? & ?). exists jwk, t, a.
    split_and!; [(eapply possession_in; [| |exact Hp]); lia|(eapply reading_in; [| |exact Ht]); lia|done|done].
Qed.

(** The tables of units and keys stay; the history grows. *)
Record tables_kept w w' : Prop := {
  tk_units : units w' = units w;
  tk_keys : key_rows w' = key_rows w;
  tk_organisations : organisations w' = organisations w;
  tk_history : exists h, history w' = history w ++ h;
  tk_ids : wallet_ids w' = wallet_ids w;
  tk_nonces : nonces w' = nonces w;
  tk_ticks : (ticks w <= ticks w')%nat
}.

#[local] Instance tables_kept_preorder : PreOrder tables_kept.
Proof.
  split; [intros w; constructor; first [done|by exists []; rewrite app_nil_r]|].
  intros a b c [? ? ? [h1 Hh1] ? ? ?] [? ? ? [h2 Hh2] ? ? ?]. constructor; try congruence; [|lia].
  exists (h1 ++ h2). by rewrite Hh2, Hh1, app_assoc.
Qed.

(** The status of a key attestation: a new entry for a new key, the entry of a
    known key, or none. [r] and [r'] are the revocation lists before and after. *)
Definition status_given (method : option (AttestationMethod R)) (input : AttestedKeyInput) w w' (status : option CredentialStatus) : Prop :=
  match method, input with
  | Some m, NewlyCreated key => exists s, status = Some s /\
      am_add_issued_attestation m (unit_issuer (ak_wallet_unit_id key) w) (ak_id key) (ak_wallet_unit_id key) (revocations w) = (Ok s, revocations w')
  | Some m, Reused (Some rev) => exists s, status = Some s /\
      am_get_attestation_revocation_info m rev (revocations w) = (Ok s, revocations w')
  | _, _ => status = None /\ revocations w' = revocations w
  end.

Definition wua_issued (params : WalletProviderParams) (auth_fn : Signer) (info : JwtPublicKeyInfo) (method : option (AttestationMethod R))
  w w' (i : KeyAttestationInput) (token : string) : Prop :=
  exists status t a, status_given method (ki_key i) w w' status /\ reading w w' t /\
    is_wua params info (ki_holder_jwk i) (ki_security_level i) status t a /\ tokenize auth_fn a = Some token.

Lemma key_attestation_wp (wu : WalletUnit) (params : WalletProviderParams) (auth_fn : Signer) (info : JwtPublicKeyInfo)
  (method : option (AttestationMethod R)) (i : KeyAttestationInput) w :
  wp (issue_key_attestation config wu params auth_fn info method i) w (fun r w' =>
    match r with Ok token => tables_kept w w' /\ wua_issued params auth_fn info method w w' i token | _ => True end).
Proof.
  unfold issue_key_attestation. apply wp_bind.
  assert (Hst : wp (key_attestation_status method (ki_key i)) w (fun r w' =>
    match r with Ok status => (exists r', w' = set_revocations r' w) /\ status_given method (ki_key i) w w' status | _ => True end)).
  { unfold key_attestation_status, status_given. destruct method as [m|]; [|unfold wp; cbn; split; [by exists (revocations w); destruct w|done]].
    destruct (ki_key i) as [key|[rev|]]; [| |unfold wp; cbn; split; [by exists (revocations w); destruct w|done]].
    - eapply wp_run; [reflexivity|]. apply wp_bind, wp_map_err. unfold wp at 1, on_revocations.
      destruct (am_add_issued_attestation _ _ _ _ _) as [[s|e|] r']; cbn; [|done|done]. split; [by eexists|]. by exists s.
    - apply wp_bind, wp_map_err. unfold wp at 1, on_revocations.
      destruct (am_get_attestation_revocation_info _ _ _) as [[s|e|] r']; cbn; [|done|done]. split; [by eexists|]. by exists s. }
  eapply wp_mono; [exact Hst|]. clear Hst. intros [status|e|] w1 Hst; [|done|done]. destruct Hst as [[r' ->] Hst].
  unfold create_wua. apply wp_bind. eapply wp_run; [reflexivity|]. set (w2 := mkWalletDb _ _ _ _ _ _ _ _).
  apply wp_bind. unfold wp at 1, lift. destruct (jose_alg auth_fn) as [alg|]; cbn [ok_or]; [|done]. unfold wp at 1, mret, M_ret.
  apply wp_bind. unfold wp at 1, lift. destruct (tokenize _ _) as [token|] eqn:Htok; cbn [ok_or]; [|done].
  apply wp_bind. unfold wp at 1, lift. destruct (hash_base64 token) as [hash|]; cbn [ok_or]; [|done].
  eapply wp_run; [reflexivity|]. unfold wp, mret, M_ret. split.
  - constructor; cbn; try done; [by eexists|lia].
  - exists status, (clock_at (ticks w)). eexists. split_and!; [| | |exact Htok].
    + unfold status_given in *. cbn [revocations w2 set_history]. exact Hst.
    + exists (ticks w). cbn. split; [lia|done].
    + by constructor.
Qed.

Inductive wuas_issued (params : WalletProviderParams) (auth_fn : Signer) (info : JwtPublicKeyInfo) (method : option (AttestationMethod R)) :
  WalletDb R -> list KeyAttestationInput -> list string -> WalletDb R -> Prop :=
| WuasNil w : wuas_issued params auth_fn info method w [] [] w
| WuasCons w w1 w' i ins token tokens :
    tables_kept w w1 -> wua_issued params auth_fn info method w w1 i token ->
    wuas_issued params auth_fn info method w1 ins tokens w' ->
    wuas_issued params auth_fn info method w (i :: ins) (token :: tokens) w'.

Lemma wuas_kept (params : WalletProviderParams) (auth_fn : Signer) (info : JwtPublicKeyInfo) (method : option (AttestationMethod R))
  w w' (ins : list KeyAttestationInput) (tokens : list string) :
  wuas_issued params auth_fn info method w ins tokens w' -> tables_kept w w'.
Proof. induction 1; [reflexivity|by etrans]. Qed.

Lemma key_attestations_wp (wu : WalletUnit) (params : WalletProviderParams) (auth_fn : Signer) (info : JwtPublicKeyInfo)
  (method : option (AttestationMethod R)) (ins : list KeyAttestationInput) w :
  wp (collect_M (issue_key_attestation config wu params auth_fn info method) ins) w (fun r w' =>
    match r with Ok tokens => wuas_issued params auth_fn info method w ins tokens w' | _ => True end).
Proof.
  revert w. induction ins as [|i ins IH]; intros w; cbn [collect_M]; [unfold wp; cbn; constructor|].
  apply wp_bind. eapply wp_mono; [apply key_attestation_wp|]. intros [token|e|] w1 Hone; [|done|done].
  apply wp_bind. eapply wp_mono; [apply IH|]. intros [tokens|e|] w2 Hall; [|done|done]. unfold wp, mret, M_ret.
  destruct Hone. by econstructor.
Qed.

(** The unit and its keys after an issuance. *)
Record unit_issued (id t now : Z) (keys : option (list AttestedKey)) w w' : Prop := {
  ui_units : units w' = (fun v => if ur_id v =? id then updated_unit t (mkUpdateWalletUnit None (Some now) None keys) v else v) <$> units w;
  ui_organisations : organisations w' = organisations w;
  ui_ids : wallet_ids w' = wallet_ids w;
  ui_nonces : nonces w' = nonces w;
  ui_ticks : (ticks w <= ticks w')%nat;
  ui_history : exists h, history w' = history w ++ h;
  ui_keys : match keys with Some ks => upserted ks (key_rows w) (key_rows w') | None => key_rows w' = key_rows w end
}.

Lemma unit_issued_kept (id t now : Z) (keys : option (list AttestedKey)) w w1 w2 :
  unit_issued id t now keys w w1 -> tables_kept w1 w2 -> unit_issued id t now keys w w2.
Proof.
  intros [? ? ? ? ? [h Hh] Hk] [? ? ? [h' Hh'] ? ? ?]. constructor; try congruence; [lia| |].
  - exists (h ++ h'). by rewrite Hh', Hh, app_assoc.
  - destruct keys; congruence.
Qed.

Lemma update_keys_wp (id now : Z) (keys : option (list AttestedKey)) w (u : UnitRow) : find_unit id w = Some u ->
  (forall ks k, keys = Some ks -> k ∈ ks -> ak_wallet_unit_id k = id) ->
  wp (update_wallet_unit id (mkUpdateWalletUnit None (Some now) None keys)) w (fun r w' =>
    match r with Ok _ => exists t, reading w w' t /\ unit_issued id t now keys w w' /\ links_added w w' | Err _ => quiet w w' | Panic => False end).
Proof.
  intros Hu Hkeys. unfold update_wallet_unit. eapply wp_run; [reflexivity|]. set (t := clock_at (ticks w)).
  apply wp_map_err, wp_transaction, wp_bind. set (w0 := mkWalletDb _ _ _ _ _ _ _ _). unfold wp at 1, update_unit.
  assert (Hu0 : find_unit id w0 = Some u) by done. rewrite Hu0.
  destruct (existsb _ _) eqn:Hconf; cbn [map_err is_ok]; [unfold w0; solve_quiet|]. cbn [uw_attested_keys].
  set (w1 := set_units _ w0). destruct keys as [ks|].
  - assert (Hex : forall k, k ∈ ks -> is_Some (find_unit (ak_wallet_unit_id k) w1)).
    { intros k Hk. rewrite (Hkeys ks k eq_refl Hk). apply find_unit_Some in Hu as [Hin Hid].
      destruct (find_first_exists (fun v => ur_id v =? id) (units w1) (updated_unit t (mkUpdateWalletUnit None (Some now) None (Some ks)) u))
        as (v & Hv & _); [|cbn; by apply Z.eqb_eq|by exists v].
      apply list_elem_of_fmap. exists u. by rewrite Hid, Z.eqb_refl. }
    eapply wp_mono; [by apply upsert_all|]. intros r w2 (-> & Hok & Hup). cbn [map_err is_ok]. exists t.
    destruct Hok as [Hun Horg Hhist Hids Hn Hti Hlinks]. cbn in Hti. split_and!; [exists (ticks w); split; [lia|done]| |exact Hlinks].
    constructor; [exact Hun|exact Horg|exact Hids|exact Hn|lia|exists []; by rewrite Hhist, app_nil_r|exact Hup].
  - unfold wp, mret, M_ret. cbn [map_err is_ok]. exists t.
    split_and!; [exists (ticks w); cbn; split; [lia|done]| |exists []; by rewrite app_nil_r].
    constructor; cbn; [done|done|done|done|lia|exists []; by rewrite app_nil_r|done].
Qed.

Lemma write_wp (wu : WalletUnit) (now : Z) (params : WalletProviderParams) (auth_fn : Signer) (info : JwtPublicKeyInfo)
  (method : option (AttestationMethod R)) (insts : list string) (keys : option (list AttestedKey)) (ins : list KeyAttestationInput)
  w (u : UnitRow) : find_unit (wu_id wu) w = Some u -> (forall ks k, keys = Some ks -> k ∈ ks -> ak_wallet_unit_id k = wu_id wu) ->
  wp (write_attestations config wu now params auth_fn info method insts keys ins) w
    (atomic (fun tokens w' => exists t w1, reading w w' t /\ unit_issued (wu_id wu) t now keys w w1 /\ links_added w w1 /\
               wuas_issued params auth_fn info method w1 ins tokens w') w).
Proof.
  intros Hu Hkeys. unfold write_attestations. apply wp_transaction, wp_bind, wp_map_err.
  eapply wp_mono; [by apply (update_keys_wp (wu_id wu) now keys w u)|].
  intros [[]|e|] w1 Hw1; cbn [map_err is_ok atomic]; [|reflexivity|reflexivity]. destruct Hw1 as (t & Ht & Hui & Hlinks).
  apply wp_bind.
  assert (Hw2 : wp (if bool_decide (insts = []) then mret tt else create_wallet_unit_history (E := WalletProviderError) (wu_id wu) HaUpdated None) w1
                  (fun r w2 => r = Ok tt /\ tables_kept w1 w2 /\ revocations w2 = revocations w1)).
  { case_bool_decide; unfold wp; cbn; [by split|]. split_and!; [done| |done]. constructor; cbn; try done. by eexists. }
  eapply wp_mono; [exact Hw2|]. clear Hw2. intros r w2 (-> & Hk2 & Hr2). cbn beta iota.
  eapply wp_mono; [apply key_attestations_wp|]. intros [tokens|e|] w3 Hall; cbn [atomic is_ok]; [|reflexivity|reflexivity].
  apply wuas_kept in Hall as Hk3. exists t, w2.
  split_and!; [|by eapply unit_issued_kept|unfold links_added; by rewrite Hr2, (tk_keys _ _ Hk2)|done].
  (eapply reading_in; [reflexivity| |exact Ht]). pose proof (tk_ticks _ _ Hk2). pose proof (tk_ticks _ _ Hk3). lia.
Qed.

(** The unit may have attestations: it is active, its provider is set up for its
    organisation, and the caller holds the key of the unit. *)
Record issuance_allowed (id : Z) (bearer_token : string) (row : UnitRow) (params : WalletProviderParams) (issuer : Z) w w' : Prop := {
  ia_row : find_unit id w = Some row;
  ia_active : ur_status row = UsActive;
  ia_params : get_wallet_provider_config_params config (ur_wallet_provider_name row) = Ok params;
  ia_organisation : exists org, find_organisation (ur_organisation_id row) w = Some org /\
    validate_org_wallet_provider org (ur_wallet_provider_name row) = Ok issuer;
  ia_bearer : exists jwk key token, ur_authentication_key_jwk row = Some jwk /\ any_parse_jwk jwk = Some key /\
    decompose_token bearer_token = Some token /\ verify_signature key (pj_unverified_jwt token) (pj_signature token) = true /\
    payload_ok config token (wp_device_auth_leeway params) None w w'
}.

(** What is written and returned. [n] and [n'] are the identifiers drawn before
    and after the keys were prepared. *)
Record issuance_written (id now : Z) (row : UnitRow) (params : WalletProviderParams) (auth_fn : Signer) (info : JwtPublicKeyInfo)
  (method : option (AttestationMethod R)) (request : IssueAttestationRequest) (wias wuas : list string)
  (ins : list KeyAttestationInput) w w' : Prop := {
  iw_wias : Forall2 (wia_issued params auth_fn info w w') (ir_wia request) wias;
  iw_requests : Forall2 (request_met config params w w') (ir_wua request) ins;
  iw_written : exists keys keys' w0, get_by_wallet_unit_id id (Some no_relations) w = Ok keys /\ quiet w w0 /\
    prepared id now (now + seconds (as_i64 (wp_wua_expiration_time params))) (wallet_ids w) keys (input_pair <$> ins) (wallet_ids w0) keys' /\
    (wias = [] /\ ins = [] /\ wuas = [] /\ w' = w0 \/
     exists t w1, reading w w' t /\ unit_issued id t now (match ins with [] => None | _ => Some keys' end) w0 w1 /\ links_added w0 w1 /\
       wuas_issued params auth_fn info method w1 ins wuas w')
}.

Definition issuance_done (id : Z) (bearer_token : string) (request : IssueAttestationRequest) w (answer : list string * list string) w' : Prop :=
  exists row params issuer info auth_fn method now ins, issuance_allowed id bearer_token row params issuer w w' /\
    get_key_info issuer = Ok (info, auth_fn) /\ reading w w' now /\
    method = (m ← wp_wua_revocation_method params; attestation_method m) /\
    issuance_written id now row params auth_fn info method request answer.1 answer.2 ins w w'.

Lemma load_keys_unit (id : Z) (rel : option RevocationListRelations) w (keys : list AttestedKey) (k : AttestedKey) :
  get_by_wallet_unit_id id rel w = Ok keys -> k ∈ keys -> ak_wallet_unit_id k = id /\
    exists row, row ∈ key_rows w /\ kw_wallet_unit_id row = id /\ kw_id row = ak_id k /\ kw_public_key_jwk row = ak_public_key_jwk k.
Proof.
  unfold get_by_wallet_unit_id. intros Hk%try_map_ok Hin. apply list_elem_of_lookup in Hin as [i Hi].
  destruct (Forall2_lookup_r _ _ _ _ _ Hk Hi) as (row & Hrow & Hconv).
  apply list_elem_of_lookup_2, elem_of_filter_bool in Hrow as [Hu%Z.eqb_eq Hrow].
  unfold convert_model in Hconv. apply res_bind_ok in Hconv as (rev & _ & [= <-]). cbn. split; [done|]. by exists row.
Qed.

Lemma prepared_unit (id now expiration : Z) (rel : option RevocationListRelations) w (n n' : nat) (keys keys' : list AttestedKey)
  (ins : list (string * AttestedKeyInput)) (k : AttestedKey) :
  get_by_wallet_unit_id id rel w = Ok keys -> prepared id now expiration n keys ins n' keys' -> k ∈ keys' -> ak_wallet_unit_id k = id.
Proof.
  intros Hkeys (old & new & -> & Hold & _ & Hnew)%prepared_keys Hk.
  apply elem_of_app in Hk as [Hk|Hk]; [|by apply Hnew]. apply list_elem_of_lookup in Hk as [i Hi].
  destruct (Forall2_lookup_r _ _ _ _ _ Hold Hi) as (k0 & Hk0 & (_ & -> & _)).
  apply list_elem_of_lookup_2 in Hk0. by apply (load_keys_unit id rel w keys k0 Hkeys).
Qed.

Lemma issue_wp (id : Z) (bearer_token : string) (request : IssueAttestationRequest) w :
  wp (issue_attestation config id bearer_token request) w (atomic (issuance_done id bearer_token request w) w).
Proof.
  unfold issue_attestation. apply wp_bind. eapply wp_mono; [apply load_full|].
  intros [wu|e|] w0 [-> Hl]; [|cbn; reflexivity|cbn; reflexivity]. destruct Hl as (row & org & keys & Hrow & Horg & Hkeys & ->).
  apply find_unit_Some in Hrow as Hid. destruct Hid as [_ Hid].
  cbn [wu_status wu_organisation wu_wallet_provider_name wu_authentication_key_jwk wu_attested_keys with_relations unit_of_row].
  apply atomic_lift; [reflexivity|]. intros [] Hact%fail_if_ok%negb_false_iff%bool_decide_eq_true.
  apply atomic_lift; [reflexivity|]. intros org' [= <-].
  apply atomic_lift; [reflexivity|]. intros params Hparams.
  apply atomic_lift; [reflexivity|]. intros issuer Hissuer.
  apply atomic_lift; [reflexivity|]. intros method Hmethod.
  apply atomic_lift; [reflexivity|]. intros jwk Hjwk%ok_or_ok.
  apply atomic_lift; [reflexivity|]. intros key Hkey%ok_or_ok.
  apply atomic_lift; [reflexivity|]. intros token Htoken%ok_or_ok.
  eapply atomic_checks; [apply checks_device_proof|reflexivity|]. intros [] w1 Hq1 [Hsig Hpay].
  eapply atomic_checks; [apply checks_clock|exact Hq1|]. intros now w2 Hq2 Hnow.
  assert (Hq02 : quiet w w2) by (by etrans).
  apply atomic_lift; [exact Hq02|]. intros [info auth_fn] Hinfo.
  eapply atomic_checks; [apply checks_wias|exact Hq02|]. intros wias w3 Hq3 Hwias.
  assert (Hq03 : quiet w w3) by (by etrans).
  apply atomic_lift; [exact Hq03|]. intros keys0 [= <-].
  apply wp_bind. eapply wp_mono; [apply prepare_wp|]. intros [[keys' ins]|e|] w4 [Hq4 Hprep]; [|cbn; by etrans|done].
  destruct Hprep as (ins' & -> & Hprep & Hmet). cbn [app] in *. cbn beta iota.
  assert (Hq04 : quiet w w4) by (by etrans).
  assert (Hprep' : prepared id now (now + seconds (as_i64 (wp_wua_expiration_time params))) (wallet_ids w) keys (input_pair <$> ins') (wallet_ids w4) keys')
    by (eapply prepared_weaken; [apply Hq03|exact Hprep]).
  pose proof (q_ticks _ _ Hq1). pose proof (q_ticks _ _ Hq2). pose proof (q_ticks _ _ Hq3). pose proof (q_ticks _ _ Hq4).
  assert (Hdone : forall w5 wuas, (ticks w4 <= ticks w5)%nat ->
    (wias = [] /\ ins' = [] /\ wuas = [] /\ w5 = w4 \/
     exists t w1, reading w w5 t /\ unit_issued id t now (match ins' with [] => None | _ => Some keys' end) w4 w1 /\ links_added w4 w1 /\
       wuas_issued params auth_fn info method w1 ins' wuas w5) ->
    issuance_done id bearer_token request w (wias, wuas) w5).
  { intros w5 wuas H45 Hwr. exists row, params, issuer, info, auth_fn, method, now, ins'. split_and!; [|done| | |].
    - constructor; [done..|by exists org|]. exists jwk, key, token. split_and!; [done..|]. (eapply payload_in; [| |exact Hpay]); lia.
    - (eapply reading_in; [| |exact Hnow]); lia.
    - destruct (wp_wua_revocation_method params) as [m|]; [|by injection Hmethod as <-].
      apply res_bind_ok in Hmethod as (mm & Hmm%ok_or_ok & [= <-]). by rewrite <- Hmm.
    - constructor.
      + eapply Forall2_impl; [exact Hwias|]. intros p tok (j & t & a & Hp & Ht & ? & ?). exists j, t, a.
        split_and!; [(eapply possession_in; [| |exact Hp]); lia|(eapply reading_in; [| |exact Ht]); lia|done|done].
      + (eapply request_met_in; [| |exact Hmet]); lia.
      + exists keys, keys', w4. done. }
  assert (Hunits : forall ks k, match ins' with [] => None | _ => Some keys' end = Some ks -> k ∈ ks -> ak_wallet_unit_id k = id).
  { intros ks k Hks Hk. destruct ins' as [|i0 ins0]; [done|]. injection Hks as <-. by eapply prepared_unit. }
  assert (Hrow4 : find_unit id w4 = Some row) by (unfold find_unit; by rewrite (q_units _ _ Hq04)).
  destruct (bool_decide (wias = []) && _) eqn:Hnone.
  - apply andb_true_iff in Hnone as [Hw%bool_decide_eq_true Hn%negb_true_iff%bool_decide_eq_false].
    unfold wp, mret, M_ret. cbn. apply Hdone; [lia|]. left. split_and!; [done| |done|done]. destruct ins'; [done|]. destruct Hn. by eexists.
  - clear Hnone. apply wp_bind. eapply wp_mono; [apply (write_wp _ _ _ _ _ _ _ _ _ w4 row)|].
    + cbn [wu_id with_relations unit_of_row]. by rewrite Hid.
    + cbn [wu_id with_relations unit_of_row]. by rewrite Hid.
    + intros [wuas|e|] w5 Hw; cbn [atomic] in *; [|by etrans|by etrans]. unfold wp, mret, M_ret. cbn.
      destruct Hw as (t & w1' & Ht & Hui & Hlinks & Hwuas). cbn [wu_id with_relations unit_of_row] in Hui. rewrite Hid in Hui.
      assert (H45 : (ticks w4 <= ticks w5)%nat).
      { pose proof (ui_ticks _ _ _ _ _ _ Hui). pose proof (tk_ticks _ _ (wuas_kept _ _ _ _ _ _ _ _ Hwuas)). lia. }
      apply Hdone; [exact H45|]. right. exists t, w1'. split_and!; [(eapply reading_in; [| |exact Ht]); lia|done|done|done].
Qed.
End issuance.
