(* ===== verification/WalletLifecycle.v ===== *)
(** * The life cycle of wallet units

    Registration, revocation and deletion of [WalletProvider.v], and the
    invariant of the tables and the life cycle of a unit over any sequence of
    calls of the service. *)

From stdpp Require Import pretty.
From S2P Require Import Prelude StatusBits KeySelection RevocationRepo RevocationMethod BitstringMethod TokenMethod.
From S2P Require Import ListFilter Validity Paths Datatypes WalletStore WalletProvider WalletSpec WalletIssuance.
#[local] Open Scope Z_scope.

(** ** Outcomes *)

Section outcomes.
Context {R : Type} `{KeyLinks R} `{UuidSupply} `{!UuidLaws} `{WalletClock} `{WalletCrypto} `{AttestationMethods R} `{X509}.
Context (config : WalletConfig).
Implicit Types (w : WalletDb R).

(** The row of [wallet_unit_from_request]. *)
Definition new_row (request : RegisterWalletUnitRequest) (org : WalletOrganisation) (key : option string) (now id : Z) (nonce : option string) : UnitRow :=
  mkUnitRow id now now None ("PROCIVIS_ONE-" ++ os_string (rr_os request) ++ "-" ++ pretty (now / 1000000000)) (rr_os request)
    (match nonce with None => UsActive | Some _ => UsPending end) (rr_wallet_provider request) key nonce (wo_id org).

(** A registration with a nonce carries no key, one without has proved its key. *)
Definition registration_proved (request : RegisterWalletUnitRequest) (key nonce : option string) w w' : Prop :=
  exists params, get_wallet_provider_config_params config (rr_wallet_provider request) = Ok params /\
  match nonce with
  | Some _ => ic_enabled (wp_integrity_check params) = true /\ rr_os request <> Web /\ key = None /\
              rr_public_key request = None /\ rr_proof request = None
  | None => (ic_enabled (wp_integrity_check params) = false \/ rr_os request = Web) /\ exists jwk handle token proof,
      rr_public_key request = Some jwk /\ key = Some jwk /\ rr_proof request = Some proof /\
      decompose_token proof = Some token /\ alg_parse_jwk (pj_algorithm token) jwk = Some handle /\
      verify_signature handle (pj_unverified_jwt token) (pj_signature token) = true /\
      payload_ok config token (wp_device_auth_leeway params) None w w'
  end.

Record registered (request : RegisterWalletUnitRequest) (id : Z) (nonce : option string) (org : WalletOrganisation) (key : option string) (now : Z) w w' : Prop := {
  rg_provider : org ∈ organisations w /\ exists issuer, validate_org_wallet_provider org (rr_wallet_provider request) = Ok issuer;
  rg_proved : registration_proved request key nonce w w';
  rg_id : exists n, (wallet_ids w <= n < wallet_ids w')%nat /\ id = uuid_at n;
  rg_unique : forall u, u ∈ units w -> ur_id u <> id /\ same_auth_key key (wo_id org) u = false;
  rg_written : exists action, quiet (set_history (history w ++ [mkWalletHistory id action None])
                                       (set_units (units w ++ [new_row request org key now id nonce]) w)) w'
}.

Lemma checks_nonce {E : Type} : checks (generate_nonce : M (WalletDb R) E string) (fun _ _ _ => True).
Proof. intros w. unfold wp, generate_nonce. split; [solve_quiet|done]. Qed.

Lemma registered_intro (request : RegisterWalletUnitRequest) (nonce : option string) (org : WalletOrganisation) (key : option string) (now issuer : Z)
  (action : HistoryAction) w w1 w2 : quiet w w1 -> org ∈ organisations w -> validate_org_wallet_provider org (rr_wallet_provider request) = Ok issuer ->
  let row := new_row request org key now (uuid_at (wallet_ids w1)) nonce in
  quiet (set_history (history w1 ++ [mkWalletHistory (ur_id row) action None]) (set_units (units w1 ++ [row]) w1)) w2 ->
  wallet_ids w2 = S (wallet_ids w1) ->
  (forall u, u ∈ units w1 -> ur_id u <> ur_id row /\ same_auth_key (ur_authentication_key_jwk row) (ur_organisation_id row) u = false) ->
  registration_proved request key nonce w w2 -> registered request (ur_id row) nonce org key now w w2.
Proof.
  intros [Hu Hk Ho Hh Hr Hi Ht Hn] Horg Hiss row [Hu2 Hk2 Ho2 Hh2 Hr2 Hi2 Ht2 Hn2] Hids Hnew Hp. rewrite Hu in Hnew.
  constructor; [by split; [|exists issuer]|done|exists (wallet_ids w1); split; [lia|done]|exact Hnew|].
  exists action. change (new_row request org key now (ur_id row) nonce) with row. clearbody row.
  constructor; cbn in *; first [congruence|lia].
Qed.

Lemma create_unit_wp (f : DataLayerError -> WalletProviderError) (request : RegisterWalletUnitRequest) (org : WalletOrganisation)
  (key : option string) (now : Z) (nonce : option string) (action : HistoryAction) w :
  let row := new_row request org key now (uuid_at (wallet_ids w)) nonce in
  wp (wu ← wallet_unit_from_request request org key now nonce; id ← M_map_err f (create_wallet_unit wu);
      _ ← create_wallet_unit_history id action None; mret (id, nonce)) w (fun r w' =>
    match r with
    | Ok (id, n) => id = ur_id row /\ n = nonce /\
        quiet (set_history (history w ++ [mkWalletHistory (ur_id row) action None]) (set_units (units w ++ [row]) w)) w' /\
        wallet_ids w' = S (wallet_ids w) /\
        forall u, u ∈ units w -> ur_id u <> ur_id row /\ same_auth_key (ur_authentication_key_jwk row) (ur_organisation_id row) u = false
    | Err _ => quiet w w'
    | Panic => False
    end).
Proof.
  intros row. unfold wallet_unit_from_request. apply wp_bind. eapply wp_run; [reflexivity|]. unfold wp at 1, mret, M_ret.
  set (w1 := mkWalletDb _ _ _ _ _ _ _ _). apply wp_bind, wp_map_err. unfold create_wallet_unit. apply wp_transaction.
  eapply wp_run; [reflexivity|]. fold row. apply wp_bind. unfold wp at 1, insert_unit.
  change (mkUnitRow _ _ _ _ _ _ _ _ _ _ _) with row. destruct (existsb _ _) eqn:He; [solve_quiet|].
  destruct (find_organisation _ w1); [|solve_quiet]. cbn [wu_attested_keys]. eapply wp_run; [reflexivity|]. unfold wp at 1, mret, M_ret. cbn [is_ok map_err].
  eapply wp_run; [reflexivity|]. unfold wp, mret, M_ret. split_and!; [done|done|solve_quiet|done|].
  intros u Hu. rewrite existsb_false in He. specialize (He u Hu). apply orb_false_iff in He as [Hid Hs]. by apply Z.eqb_neq in Hid.
Qed.

Lemma register_wp (request : RegisterWalletUnitRequest) w :
  wp (register_wallet_unit config request) w (fun r w' =>
    match r with
    | Ok (id, nonce) => exists org key now, registered request id nonce org key now w w'
    | Err _ => quiet w w'
    | Panic => False
    end).
Proof.
  unfold register_wallet_unit. apply wp_lift; [apply config_params_no_panic|done|]. intros params Hparams.
  eapply wp_run; [reflexivity|]. apply wp_lift; [apply ok_or_no_panic|done|]. intros org Horg%ok_or_ok%find_first_Some.
  assert (Hin : org ∈ organisations w) by apply Horg.
  apply wp_lift; [apply validate_org_no_panic|done|]. intros issuer Hissuer.
  apply wp_lift; [apply fail_if_no_panic|done|]. intros [] Hreq%fail_if_ok.
  destruct (ic_enabled (wp_integrity_check params) && _) eqn:Hint.
  - apply wp_lift; [apply fail_if_no_panic|done|]. intros [] [Hpk Hpr]%fail_if_ok%orb_false_iff.
    apply bool_decide_eq_false, eq_None_not_Some in Hpk. apply bool_decide_eq_false, eq_None_not_Some in Hpr.
    unfold create_wallet_unit_with_nonce. eapply wp_checks; [apply checks_clock| |done]. intros now w1 Hq1 _.
    eapply wp_checks; [apply checks_nonce| |by intros; etrans]. intros nonce w2 Hq2 _.
    assert (Hq : quiet w w2) by (by etrans). eapply wp_mono; [apply create_unit_wp|].
    intros [[id n]|e|] w3 Hw; [|by etrans|done]. destruct Hw as (-> & -> & Hw & Hids & Hnew). exists org, None, now.
    eapply registered_intro; [done..|]. exists params. split; [done|]. apply andb_true_iff in Hint as [Hi Ho%negb_true_iff%bool_decide_eq_false]. done.
  - apply wp_lift; [apply ok_or_no_panic|done|]. intros proof Hproof%ok_or_ok.
    apply wp_lift; [apply ok_or_no_panic|done|]. intros token Htoken%ok_or_ok.
    apply wp_lift; [apply ok_or_no_panic|done|]. intros jwk Hjwk%ok_or_ok.
    apply wp_lift; [unfold parse_jwk; no_panic|done|]. intros key [_ Hkey]%parse_jwk_ok.
    eapply wp_checks; [apply checks_device_proof| |done]. intros [] w1 Hq1 [Hsig Hpay].
    unfold create_wallet_unit_with_auth_key. eapply wp_checks; [apply checks_clock| |by intros; etrans]. intros now w2 Hq2 _.
    assert (Hq : quiet w w2) by (by etrans). eapply wp_mono; [apply create_unit_wp|].
    intros [[id n]|e|] w3 Hw; [|by etrans|done]. destruct Hw as (-> & -> & Hw & Hids & Hnew). exists org, (Some jwk), now.
    eapply registered_intro; [done..|]. exists params. split; [done|]. split.
    + apply andb_false_iff in Hint as [Hi|Ho]; [by left|right]. by apply negb_false_iff, bool_decide_eq_true in Ho.
    + exists jwk, key, token, proof. split_and!; [done..|]. eapply payload_in; [reflexivity| |exact Hpay]. apply q_ticks in Hq2, Hw. cbn in Hw. lia.
Qed.
(** The status entries of the keys of a unit, by the configured method. *)
Definition entries_update (params : WalletProviderParams) (keys : list AttestedKey) (s : R) : res WalletProviderError unit * R :=
  match wp_wua_revocation_method params, omap ak_revocation keys with
  | Some m, (_ :: _) as revocations =>
      match attestation_method m with
      | Some method => let '(r, s') := am_update_attestation_entries method revocations Revoked s in (map_err WpRevocation r, s')
      | None => (Err (WpMissingRevocationMethod m), s)
      end
  | _, _ => (Ok tt, s)
  end.

(** The unit is revoked, and then its entries are updated; [r] is the answer. *)
Definition unit_revoked (id : Z) (r : res WalletProviderError unit) w w' : Prop :=
  exists row params keys t r' s, find_unit id w = Some row /\ ur_status row = UsActive /\
    get_wallet_provider_config_params config (ur_wallet_provider_name row) = Ok params /\
    get_by_wallet_unit_id id (Some (mkRelations true true)) w = Ok keys /\ reading w w' t /\
    entries_update params keys (revocations w) = (r', s) /\ r = r' /\
    quiet (set_revocations s (unit_set id (updated_unit t (mkUpdateWalletUnit (Some UsRevoked) None None None)) HaRevoked w)) w'.

Lemma revoke_wp (id : Z) w :
  wp (revoke_wallet_unit config id) w (fun r w' => unit_revoked id r w w' \/ (is_ok r = false /\ quiet w w')).
Proof.
  unfold revoke_wallet_unit. apply wp_bind. eapply wp_mono; [apply load_full|].
  intros [wu|e|] w0 [-> Hl]; [|by right|by right]. destruct Hl as (row & org & keys & Hrow & Horg & Hkeys & ->).
  cbn [wu_status wu_organisation wu_wallet_provider_name wu_attested_keys with_relations unit_of_row].
  apply wp_lift; [apply fail_if_no_panic|by right|]. intros [] Hact%fail_if_ok%negb_false_iff%bool_decide_eq_true.
  apply wp_lift; [done|done|]. intros org' _.
  apply wp_lift; [apply config_params_no_panic|by right|]. intros params Hparams.
  apply wp_bind, wp_map_err. eapply wp_mono; [by apply (update_unit_wp id _ w row)|].
  intros [[]|e|] w1 Hw; cbn [map_err]; [|by right|done]. destruct Hw as (t & Ht & Hq & _).
  eapply wp_run; [reflexivity|].
  assert (Hset : forall r s w2, entries_update params keys (revocations w) = (r, s) ->
    w2 = set_revocations s (set_history (history w1 ++ [mkWalletHistory id HaRevoked None]) w1) -> unit_revoked id r w w2).
  { intros r s w2 He ->. exists row, params, keys, t, r, s. split_and!; [done..|].
    destruct Hq as [Hu Hk Ho Hh Hr Hi Hti Hn]. unfold unit_set. constructor; cbn in *; first [congruence|lia]. }
  assert (Hr1 : revocations w1 = revocations w) by (by rewrite (q_revocations _ _ Hq)). clear Hq.
  unfold entries_update in Hset. destruct (wp_wua_revocation_method params) as [m|].
  2: { unfold wp, mret, M_ret. left. eapply Hset; [done|]. rewrite <- Hr1. by destruct w1. }
  cbn [ok_or]. eapply wp_run; [reflexivity|]. destruct (omap ak_revocation keys) as [|rv rvs].
  { unfold wp, mret, M_ret. left. eapply Hset; [done|]. rewrite <- Hr1. by destruct w1. }
  destruct (attestation_method m) as [method|].
  - eapply wp_run; [reflexivity|]. apply wp_map_err. unfold wp, on_revocations. cbn [revocations set_history]. rewrite Hr1.
    destruct (am_update_attestation_entries method _ _ _) as [r s] eqn:Hm. left. by eapply Hset.
  - unfold wp, lift, mbind, M_bind. cbn [ok_or]. left. eapply Hset; [done|]. rewrite <- Hr1. by destruct w1.
Qed.

Lemma delete_wp (id : Z) w :
  wp (delete_wallet_unit id) w (fun r w' =>
    match r with
    | Ok _ => exists row, find_unit id w = Some row /\ ur_status row = UsPending /\
        (forall k, k ∈ key_rows w -> kw_wallet_unit_id k <> id) /\
        w' = set_history (List.filter (fun h => negb (hs_unit h =? id)) (history w))
               (set_units (List.filter (fun u => negb (ur_id u =? id)) (units w)) w)
    | Err _ => w' = w
    | Panic => False
    end).
Proof.
  unfold delete_wallet_unit, load_wallet_unit. apply wp_bind, wp_bind, wp_map_err. unfold wp at 1, get_wallet_unit_row, get, mbind, M_bind.
  destruct (find_unit id w) as [row|] eqn:Hrow; cbn [map_err]; [|done]. cbn.
  apply wp_lift; [apply fail_if_no_panic|done|]. intros [] Hp%fail_if_ok%negb_false_iff%bool_decide_eq_true.
  apply wp_bind, wp_map_err. unfold wp at 1, delete_wallet_unit_row. rewrite Hrow.
  destruct (existsb _ _) eqn:He; cbn [andb bool_decide]; [by rewrite bool_decide_true by (by eexists)|]. cbn [map_err].
  unfold wp, delete_history_by_entity_id. exists row. split_and!; [done|done| |done].
  intros k Hk Heq. rewrite existsb_false in He. specialize (He k Hk). by rewrite Heq, Z.eqb_refl in He.
Qed.
End outcomes.

(** ** The invariant *)

(** The status of a unit only moves along these edges. *)
Inductive status_step : WalletUnitStatus -> WalletUnitStatus -> Prop :=
| StActivated : status_step UsPending UsActive
| StErrored : status_step UsPending UsError
| StRevoked : status_step UsActive UsRevoked.

(** A pending unit waits for an attestation of its nonce, an active or revoked
    unit has a key. *)
Definition row_ok (u : UnitRow) : Prop :=
  match ur_status u with
  | UsPending | UsError => ur_authentication_key_jwk u = None /\ is_Some (ur_nonce u)
  | UsActive | UsRevoked => is_Some (ur_authentication_key_jwk u)
  | UsUnattested => False
  end.

Record units_wf `{UuidSupply} (n : nat) (us : list UnitRow) : Prop := {
  wf_ids : NoDup (ur_id <$> us);
  wf_drawn : forall u, u ∈ us -> exists m, (m < n)%nat /\ ur_id u = uuid_at m;
  wf_auth : forall u v, u ∈ us -> v ∈ us -> ur_id u <> ur_id v ->
    same_auth_key (ur_authentication_key_jwk u) (ur_organisation_id u) v = false;
  wf_rows : forall u, u ∈ us -> row_ok u
}.

Record keys_wf `{UuidSupply} (n : nat) (us : list UnitRow) (ks : list KeyRow) : Prop := {
  wf_key_ids : NoDup (kw_id <$> ks);
  wf_key_drawn : forall k, k ∈ ks -> exists m, (m < n)%nat /\ kw_id k = uuid_at m;
  wf_key_unit : forall k, k ∈ ks -> exists u, u ∈ us /\ ur_id u = kw_wallet_unit_id k /\ (ur_status u = UsActive \/ ur_status u = UsRevoked);
  wf_key_jwks : forall k k', k ∈ ks -> k' ∈ ks -> kw_wallet_unit_id k = kw_wallet_unit_id k' ->
    kw_public_key_jwk k = kw_public_key_jwk k' -> kw_id k = kw_id k'
}.

Definition wallet_wf {R : Type} `{UuidSupply} (w : WalletDb R) : Prop :=
  units_wf (wallet_ids w) (units w) /\ keys_wf (wallet_ids w) (units w) (key_rows w).

(** How a unit and a key change over time: their identity stays, the status of a
    unit follows the edges, and a key once bound to a unit is never replaced. *)
Record row_evolves (u v : UnitRow) : Prop := {
  ev_id : ur_id v = ur_id u;
  ev_same : ur_created_date v = ur_created_date u /\ ur_name v = ur_name u /\ ur_os v = ur_os u /\
    ur_wallet_provider_name v = ur_wallet_provider_name u /\ ur_nonce v = ur_nonce u /\ ur_organisation_id v = ur_organisation_id u;
  ev_status : rtc status_step (ur_status u) (ur_status v);
  ev_key : forall jwk, ur_authentication_key_jwk u = Some jwk -> ur_authentication_key_jwk v = Some jwk
}.

Definition key_evolves (k k' : KeyRow) : Prop :=
  kw_id k' = kw_id k /\ kw_wallet_unit_id k' = kw_wallet_unit_id k /\ kw_public_key_jwk k' = kw_public_key_jwk k.

Record units_evolve `{UuidSupply} (n : nat) (us us' : list UnitRow) : Prop := {
  ue_old : forall u, u ∈ us -> (exists v, v ∈ us' /\ row_evolves u v) \/ (ur_status u = UsPending /\ ur_id u ∉ (ur_id <$> us'));
  ue_new : forall v, v ∈ us' -> ur_id v ∈ (ur_id <$> us) \/ exists m, (n <= m)%nat /\ ur_id v = uuid_at m
}.

Record keys_evolve (us : list UnitRow) (ks ks' : list KeyRow) : Prop := {
  ke_old : forall k, k ∈ ks -> exists k', k' ∈ ks' /\ key_evolves k k';
  ke_revoked : forall u k, u ∈ us -> ur_status u = UsRevoked -> k ∈ ks' -> kw_wallet_unit_id k = ur_id u -> k ∈ ks
}.

Definition wallet_evolves {R : Type} `{UuidSupply} (w w' : WalletDb R) : Prop :=
  (wallet_ids w <= wallet_ids w')%nat /\ units_evolve (wallet_ids w) (units w) (units w') /\ keys_evolve (units w) (key_rows w) (key_rows w').

#[local] Instance row_evolves_preorder : PreOrder row_evolves.
Proof.
  split; [intros u; by constructor|]. intros a b c [Hi (? & ? & ? & ? & ? & ?) Hs Hk] [Hi' (? & ? & ? & ? & ? & ?) Hs' Hk'].
  constructor; [congruence|split_and!; congruence|by etrans|auto].
Qed.

#[local] Instance key_evolves_preorder : PreOrder key_evolves.
Proof. split; [done|]. intros a b c (? & ? & ?) (? & ? & ?). split_and!; congruence. Qed.

(** Where a path along the edges may start and end. *)
Lemma status_pending (s : WalletUnitStatus) : rtc status_step s UsPending -> s = UsPending.
Proof. intros Hs. remember UsPending as p eqn:Hp. induction Hs as [|a b c Hab _ IH]; [done|]. specialize (IH Hp). subst. inversion Hab. Qed.

Lemma status_from (P : WalletUnitStatus -> Prop) (s s' : WalletUnitStatus) :
  (forall a b, status_step a b -> P a -> P b) -> rtc status_step s s' -> P s -> P s'.
Proof. intros HP. induction 1; eauto. Qed.

Lemma status_revoked (s : WalletUnitStatus) : rtc status_step UsRevoked s -> s = UsRevoked.
Proof. intros Hs. eapply (status_from (fun s => s = UsRevoked)); [|exact Hs|done]. by intros a b [] [=]. Qed.

Lemma status_keyed (s s' : WalletUnitStatus) : rtc status_step s s' -> s = UsActive \/ s = UsRevoked -> s' = UsActive \/ s' = UsRevoked.
Proof. intros Hs. eapply (status_from (fun s => s = UsActive \/ s = UsRevoked)); [|exact Hs]. intros a b [] [[=]|[=]]; auto. Qed.

Section invariant.
Context `{UuidSupply} `{!UuidLaws}.
Implicit Types (us : list UnitRow) (ks : list KeyRow).

Lemma units_wf_weaken (n n' : nat) us : (n <= n')%nat -> units_wf n us -> units_wf n' us.
Proof. intros Hn [? Hd ? ?]. constructor; [done| |done|done]. intros u Hu. destruct (Hd u Hu) as (m & ? & ?). exists m. split; [lia|done]. Qed.

Lemma keys_wf_weaken (n n' : nat) us ks : (n <= n')%nat -> keys_wf n us ks -> keys_wf n' us ks.
Proof. intros Hn [? Hd ? ?]. constructor; [done| |done|done]. intros u Hu. destruct (Hd u Hu) as (m & ? & ?). exists m. split; [lia|done]. Qed.

(** Keys stay well formed while their units evolve. *)
Lemma keys_wf_evolve (n m : nat) us us' ks : units_evolve m us us' -> keys_wf n us ks -> keys_wf n us' ks.
Proof.
  intros [Hold _] [? ? Hu ?]. constructor; [done|done| |done]. intros k Hk. destruct (Hu k Hk) as (u & Hin & Hid & Hs).
  destruct (Hold u Hin) as [(v & Hv & Hev)|[Hp _]]; [|destruct Hs; congruence]. exists v. destruct Hev as [Hi _ Hst _].
  split_and!; [done|congruence|by eapply status_keyed].
Qed.

Lemma units_evolve_refl (n : nat) us : units_evolve n us us.
Proof. constructor; [intros u Hu; left; by exists u|intros v Hv; left; apply list_elem_of_fmap; by exists v]. Qed.

Lemma keys_evolve_refl us ks : keys_evolve us ks ks.
Proof. constructor; [intros k Hk; by exists k|done]. Qed.

Lemma units_evolve_trans (n n' : nat) us us1 us2 : (n <= n')%nat -> units_wf n us ->
  units_evolve n us us1 -> units_evolve n' us1 us2 -> units_evolve n us us2.
Proof.
  intros Hn Hwf [Hold1 Hnew1] [Hold2 Hnew2]. constructor.
  - intros u Hu. destruct (Hold1 u Hu) as [(v & Hv & Huv)|[Hp Hni]].
    + destruct (Hold2 v Hv) as [(x & Hx & Hvx)|[Hp Hni]]; [left; exists x; split; [done|by etrans]|right]. split.
      * apply status_pending. rewrite <- Hp. apply Huv.
      * by rewrite <- (ev_id _ _ Huv).
    + right. split; [done|]. intros (x & Hid & Hx)%list_elem_of_fmap. destruct (Hnew2 x Hx) as [Hin|(m & Hm & Hm')]; [congruence|].
      destruct (wf_drawn _ _ Hwf u Hu) as (m0 & Hm0 & Hid0). assert (m = m0) by (apply (inj uuid_at); congruence). lia.
  - intros x Hx. destruct (Hnew2 x Hx) as [Hin|(m & Hm & Hid)]; [|right; exists m; split; [lia|done]].
    apply list_elem_of_fmap in Hin as (v & Hid & Hv). rewrite Hid. by apply Hnew1.
Qed.

Lemma keys_evolve_trans (n : nat) us us1 ks ks1 ks2 :
  units_evolve n us us1 -> keys_evolve us ks ks1 -> keys_evolve us1 ks1 ks2 -> keys_evolve us ks ks2.
Proof.
  intros [Hu _] [Hold1 Hrev1] [Hold2 Hrev2]. constructor.
  - intros k Hk. destruct (Hold1 k Hk) as (k1 & Hk1 & He1). destruct (Hold2 k1 Hk1) as (k2 & Hk2 & He2). exists k2. split; [done|by etrans].
  - intros u k Hin Hs Hk Hid. destruct (Hu u Hin) as [(v & Hv & [Hi _ Hst _])|[Hp _]]; [|congruence]. rewrite Hs in Hst.
    apply (Hrev1 u); [done|done| |done]. apply (Hrev2 v); [done|by apply status_revoked|done|congruence].
Qed.

(** *** Changes of units *)

Lemma same_auth_sym (u v : UnitRow) : same_auth_key (ur_authentication_key_jwk u) (ur_organisation_id u) v = false ->
  same_auth_key (ur_authentication_key_jwk v) (ur_organisation_id v) u = false.
Proof.
  unfold same_auth_key. intros Hf. apply not_true_iff_false. intros [[Hs%bool_decide_eq_true He%bool_decide_eq_true]%andb_true_iff Ho%Z.eqb_eq]%andb_true_iff.
  apply not_true_iff_false in Hf. apply Hf. rewrite He, Ho, Z.eqb_refl. by rewrite bool_decide_true, bool_decide_true.
Qed.

Lemma unique_unit (n : nat) us (u v : UnitRow) : units_wf n us -> u ∈ us -> v ∈ us -> ur_id u = ur_id v -> u = v.
Proof. intros Hwf Hu Hv Hid. eapply (NoDup_fmap_inj_elem ur_id); [apply Hwf|done..]. Qed.

Lemma alter_units (n m : nat) us (id : Z) (f : UnitRow -> UnitRow) (u : UnitRow) :
  units_wf n us -> u ∈ us -> ur_id u = id -> row_evolves u (f u) -> row_ok (f u) ->
  (forall other, other ∈ us -> ur_id other <> id -> same_auth_key (ur_authentication_key_jwk (f u)) (ur_organisation_id (f u)) other = false) ->
  let us' := (fun v => if ur_id v =? id then f v else v) <$> us in units_wf n us' /\ units_evolve m us us'.
Proof.
  intros Hwf Hu Hid Hev Hok Hauth us'. pose proof (ev_id _ _ Hev) as Hfid.
  assert (Hcase : forall v, v ∈ us' -> v = f u \/ (v ∈ us /\ ur_id v <> id)).
  { intros v (x & -> & Hx)%list_elem_of_fmap. destruct (Z.eqb_spec (ur_id x) id) as [He|He]; [left|by right].
    f_equal. eapply unique_unit; [done..|]. congruence. }
  assert (Hids : ur_id <$> us' = ur_id <$> us).
  { unfold us'. rewrite <- list_fmap_compose. apply list_fmap_ext. intros i x Hx%list_elem_of_lookup_2. cbn.
    destruct (Z.eqb_spec (ur_id x) id) as [He|He]; [|done]. assert (x = u) as -> by (eapply unique_unit; [done..|congruence]). done. }
  split; constructor.
  - rewrite Hids. apply Hwf.
  - intros v [->|[Hv _]]%Hcase; [rewrite Hfid|]; by apply Hwf.
  - intros v x [->|[Hv Hvi]]%Hcase [->|[Hx Hxi]]%Hcase Hne; [done|by apply Hauth|by apply same_auth_sym, Hauth|by apply Hwf].
  - intros v [->|[Hv _]]%Hcase; [done|by apply Hwf].
  - intros v Hv. left. destruct (Z.eqb_spec (ur_id v) id) as [He|He].
    + assert (v = u) as -> by (eapply unique_unit; [done..|congruence]). exists (f u). split; [|done].
      apply list_elem_of_fmap. exists u. by rewrite Hid, Z.eqb_refl.
    + exists v. split; [|reflexivity]. apply list_elem_of_fmap. exists v. apply Z.eqb_neq in He. by rewrite He.
  - intros v Hv. left. rewrite <- Hids. apply list_elem_of_fmap. by exists v.
Qed.

Lemma elem_of_snoc {A : Type} (x y : A) (l : list A) : x ∈ l ++ [y] -> x ∈ l \/ x = y.
Proof. rewrite elem_of_app, list_elem_of_singleton. done. Qed.

Lemma add_unit (n m n' : nat) us (row : UnitRow) :
  units_wf n us -> (n <= m < n')%nat -> ur_id row = uuid_at m -> row_ok row ->
  (forall u, u ∈ us -> ur_id u <> ur_id row /\ same_auth_key (ur_authentication_key_jwk row) (ur_organisation_id row) u = false) ->
  units_wf n' (us ++ [row]) /\ units_evolve n us (us ++ [row]).
Proof.
  intros Hwf Hm Hid Hok Huniq. split; constructor.
  - rewrite fmap_app. apply NoDup_app. split_and!; [apply Hwf| |apply NoDup_singleton].
    intros x (u & -> & Hu)%list_elem_of_fmap Hx%list_elem_of_singleton. by destruct (Huniq u Hu).
  - intros u [Hu| ->]%elem_of_snoc; [|exists m; split; [lia|done]].
    destruct (wf_drawn _ _ Hwf u Hu) as (m' & ? & ?). exists m'. split; [lia|done].
  - intros u v [Hu| ->]%elem_of_snoc [Hv| ->]%elem_of_snoc Hne;
      [by apply Hwf|by apply same_auth_sym, Huniq|by apply Huniq|done].
  - intros u [Hu| ->]%elem_of_snoc; [by apply Hwf|done].
  - intros u Hu. left. exists u. split; [apply elem_of_app; by left|reflexivity].
  - intros v [Hv| ->]%elem_of_snoc; [left; apply list_elem_of_fmap; by exists v|right; exists m; split; [lia|done]].
Qed.

Lemma remove_unit (n m : nat) us (u : UnitRow) : units_wf n us -> u ∈ us -> ur_status u = UsPending ->
  let us' := List.filter (fun v => negb (ur_id v =? ur_id u)) us in units_wf n us' /\ units_evolve m us us'.
Proof.
  intros Hwf Hu Hp us'.
  assert (Hin : forall v, v ∈ us' <-> ur_id v <> ur_id u /\ v ∈ us).
  { intros v. unfold us'. rewrite elem_of_filter_bool, negb_true_iff, Z.eqb_neq. done. }
  split; constructor.
  - apply NoDup_filter_fmap, Hwf.
  - intros v [_ Hv]%Hin. by apply Hwf.
  - intros v x [_ Hv]%Hin [_ Hx]%Hin. by apply Hwf.
  - intros v [_ Hv]%Hin. by apply Hwf.
  - intros v Hv. destruct (decide (ur_id v = ur_id u)) as [He|He].
    + right. assert (v = u) as -> by (by eapply unique_unit). split; [done|]. by intros (x & Hid & [Hne _]%Hin)%list_elem_of_fmap.
    + left. exists v. split; [by apply Hin|reflexivity].
  - intros v [_ Hv]%Hin. left. apply list_elem_of_fmap. by exists v.
Qed.

(** *** Changes of keys *)

(** The keys that an issuance writes for a unit: those it has, and new ones. *)
Record keys_prepared (n n' : nat) (id : Z) ks (keys : list AttestedKey) : Prop := {
  kp_from : forall k, k ∈ keys -> ak_wallet_unit_id k = id /\
    ((exists row, row ∈ ks /\ kw_id row = ak_id k /\ kw_wallet_unit_id row = id /\ kw_public_key_jwk row = ak_public_key_jwk k) \/
     exists m, (n <= m < n')%nat /\ ak_id k = uuid_at m);
  kp_jwks : NoDup (ak_public_key_jwk <$> keys);
  kp_all : forall row, row ∈ ks -> kw_wallet_unit_id row = id -> kw_id row ∈ (ak_id <$> keys)
}.

Lemma upsert_keys (n n' : nat) us ks ks' (u : UnitRow) (keys : list AttestedKey) :
  (n <= n')%nat -> units_wf n us -> u ∈ us -> ur_status u = UsActive -> keys_wf n us ks -> keys_prepared n n' (ur_id u) ks keys ->
  upserted keys ks ks' -> keys_wf n' us ks' /\ keys_evolve us ks ks'.
Proof.
  intros Hn Hus Hu Hact [Hnd Hdr Hun Hjw] [Hfrom Hjwks Hall] [Hrows (new & Hids & Hnew & Hni) _].
  assert (Hold : forall k row, k ∈ keys -> row ∈ ks -> kw_id row = ak_id k -> kw_wallet_unit_id row = ur_id u /\ kw_public_key_jwk row = ak_public_key_jwk k).
  { intros k row Hk Hrow Hid. destruct (Hfrom k Hk) as [_ [(r0 & Hr0 & Hid0 & Hu0 & Hj0)|(m & Hm & Hid0)]].
    - assert (r0 = row) as -> by (eapply (NoDup_fmap_inj_elem kw_id); [done..|congruence]). done.
    - destruct (Hdr row Hrow) as (m' & Hm' & Hid'). assert (m = m') by (apply (inj uuid_at); congruence). lia. }
  split; constructor.
  - rewrite Hids. apply NoDup_app. split_and!; [done| |done]. intros x Hx Hx'. by destruct (Hni x Hx').
  - intros row [(k & Hk & Hid & _)|[Hrow _]]%Hrows.
    + destruct (Hfrom k Hk) as [_ [(r0 & Hr0 & Hid0 & _)|(m & Hm & Hm')]]; [|exists m; split; [lia|congruence]].
      destruct (Hdr r0 Hr0) as (m & ? & ?). exists m. split; [lia|congruence].
    + destruct (Hdr row Hrow) as (m & ? & ?). exists m. split; [lia|done].
  - intros row [(k & Hk & _ & Hui & _)|[Hrow _]]%Hrows; [|by apply Hun]. exists u. destruct (Hfrom k Hk) as [Hki _].
    split_and!; [done|congruence|by left].
  - assert (Hmix : forall r r' k, k ∈ keys -> row_for k r -> r' ∈ ks -> kw_id r' ∉ (ak_id <$> keys) -> kw_wallet_unit_id r = kw_wallet_unit_id r' -> False).
    { intros r r' k Hk (_ & Hui & _) Hr' Hno He. apply Hno, Hall; [done|]. destruct (Hfrom k Hk). congruence. }
    intros r r' [(k & Hk & Hrk)|[Hr Hno]]%Hrows [(k' & Hk' & Hrk')|[Hr' Hno']]%Hrows Hue Hje.
    + destruct Hrk as (-> & _ & Hj & _), Hrk' as (-> & _ & Hj' & _). f_equal. eapply (NoDup_fmap_inj_elem ak_public_key_jwk); [done..|congruence].
    + by destruct (Hmix r r' k).
    + by destruct (Hmix r' r k').
    + by apply Hjw.
  - intros row Hrow. assert (Hin : kw_id row ∈ (kw_id <$> ks')) by (rewrite Hids; apply elem_of_app; left; apply list_elem_of_fmap; by exists row).
    apply list_elem_of_fmap in Hin as (r' & Hid & Hr'). exists r'. split; [done|].
    destruct (Hrows r' Hr') as [(k & Hk & Hki & Hui & Hj & _)|[Hr _]].
    + destruct (Hold k row Hk Hrow) as [Hu0 Hj0]; [congruence|]. destruct (Hfrom k Hk) as [Hku _]. split_and!; congruence.
    + assert (r' = row) as -> by (eapply (NoDup_fmap_inj_elem kw_id); [done..|congruence]). done.
  - intros v row Hv Hrev Hrow Hid. destruct (Hrows row Hrow) as [(k & Hk & _ & Hui & _)|[Hr _]]; [|done].
    destruct (Hfrom k Hk) as [Hku _]. assert (v = u) as -> by (eapply unique_unit; [done..|congruence]). congruence.
Qed.
End invariant.

(** ** Steps *)

Section steps.
Context {R : Type} `{KeyLinks R} `{UuidSupply} `{!UuidLaws} `{WalletClock} `{WalletCrypto} `{AttestationMethods R} `{X509}.
Implicit Types (w : WalletDb R).

(** A call of the service under any configuration, or a change that other parts
    of the program make to organisations and revocation lists. *)
Inductive wallet_step w : WalletDb R -> Prop :=
| StepRegister config request : wallet_step w (register_wallet_unit config request w).2
| StepActivate config id request : wallet_step w (activate_wallet_unit config id request w).2
| StepIssue config id bearer_token request : wallet_step w (issue_attestation config id bearer_token request w).2
| StepRevoke config id : wallet_step w (revoke_wallet_unit config id w).2
| StepDelete id : wallet_step w (delete_wallet_unit id w).2
| StepOther orgs r : wallet_step w (mkWalletDb (units w) (key_rows w) orgs (history w) r (wallet_ids w) (ticks w) (nonces w)).

Lemma wallet_evolves_refl w : wallet_evolves w w.
Proof. split_and!; [done|apply units_evolve_refl|apply keys_evolve_refl]. Qed.

Lemma wallet_evolves_trans w w1 w2 : wallet_wf w -> wallet_evolves w w1 -> wallet_evolves w1 w2 -> wallet_evolves w w2.
Proof.
  intros [Hu _] (Hn1 & Hu1 & Hk1) (Hn2 & Hu2 & Hk2). split_and!; [lia| |].
  - by eapply units_evolve_trans.
  - by eapply keys_evolve_trans.
Qed.

Definition step_ok w w' : Prop := wallet_wf w -> wallet_wf w' /\ wallet_evolves w w'.

Lemma quiet_step w w' : quiet w w' -> step_ok w w'.
Proof.
  intros [Hu Hk _ _ _ Hi _ _] [Huw Hkw]. unfold wallet_wf, wallet_evolves. rewrite Hu, Hk. split.
  - split; [by eapply units_wf_weaken|by eapply keys_wf_weaken].
  - split_and!; [done|apply units_evolve_refl|apply keys_evolve_refl].
Qed.

Lemma step_ok_quiet w w1 w2 : step_ok w w1 -> quiet w1 w2 -> step_ok w w2.
Proof.
  intros Hs Hq Hw. destruct (Hs Hw) as [Hw1 He1]. destruct (quiet_step _ _ Hq Hw1) as [Hw2 He2].
  split; [done|by eapply wallet_evolves_trans].
Qed.

(** Only units change. *)
Lemma units_step w w' : (wallet_ids w <= wallet_ids w')%nat -> key_rows w' = key_rows w ->
  (units_wf (wallet_ids w) (units w) -> units_wf (wallet_ids w') (units w') /\ units_evolve (wallet_ids w) (units w) (units w')) -> step_ok w w'.
Proof.
  intros Hn Hk Hu [Huw Hkw]. destruct (Hu Huw) as [Huw' He]. unfold wallet_wf, wallet_evolves. rewrite Hk. split.
  - split; [done|]. eapply keys_wf_weaken; [exact Hn|]. by eapply keys_wf_evolve.
  - split_and!; [done|done|apply keys_evolve_refl].
Qed.

Lemma alter_step (id : Z) (f : UnitRow -> UnitRow) (action : HistoryAction) (u : UnitRow) w : find_unit id w = Some u ->
  (row_ok u -> row_evolves u (f u) /\ row_ok (f u)) ->
  (forall other, other ∈ units w -> ur_id other <> id -> (units_wf (wallet_ids w) (units w)) ->
     same_auth_key (ur_authentication_key_jwk (f u)) (ur_organisation_id (f u)) other = false) ->
  step_ok w (unit_set id f action w).
Proof.
  intros [Hu Hid]%find_unit_Some Hf Hauth. apply units_step; [done|done|]. intros Hwf.
  destruct (Hf (wf_rows _ _ Hwf u Hu)) as [Hev Hok]. apply (alter_units _ _ _ id f u); auto.
Qed.

(** A change that keeps the key of the unit. *)
Lemma alter_status (id t : Z) (s : WalletUnitStatus) (action : HistoryAction) (u : UnitRow) w : find_unit id w = Some u ->
  status_step (ur_status u) s -> s <> UsActive ->
  step_ok w (unit_set id (updated_unit t (mkUpdateWalletUnit (Some s) None None None)) action w).
Proof.
  intros Hu Hs Hna. apply (alter_step id _ action u); [done| |].
  - intros Hok. split; [constructor; cbn; [done|done|by apply rtc_once|done]|]. unfold row_ok in *. cbn. destruct Hs; [done|done|done].
  - intros other Ho Hne Hwf. apply find_unit_Some in Hu as [Hu Hid]. cbn. apply (wf_auth _ _ Hwf); [done|done|congruence].
Qed.

(** Each operation. *)
Lemma register_step (config : WalletConfig) (request : RegisterWalletUnitRequest) w : step_ok w (register_wallet_unit config request w).2.
Proof.
  pose proof (register_wp config request w) as Hr. unfold wp in Hr. destruct (register_wallet_unit config request w) as [[[id nonce]|e|] w']; [|by apply quiet_step|done].
  destruct Hr as (org & key & now & [_ Hp (m & Hm & Hid) Huniq (action & Hq)]). cbn [snd]. pose proof Hq as [Hu Hk _ _ _ Hi _ _]. cbn in Hu, Hk, Hi.
  apply units_step; [done|done|]. rewrite Hu. intros Hwf. eapply add_unit; [done|exact Hm|done| |done]. unfold row_ok. cbn.
  destruct Hp as (params & _ & Hp). destruct nonce; [destruct Hp as (_ & _ & -> & _); by split; [|eexists]|].
  destruct Hp as (_ & jwk & _ & _ & _ & _ & -> & _). by eexists.
Qed.

Lemma activate_step (config : WalletConfig) (id : Z) (request : WalletUnitActivationRequest) w : step_ok w (activate_wallet_unit config id request w).2.
Proof.
  pose proof (activate_wp config id request w) as Hr. unfold wp in Hr. destruct (activate_wallet_unit config id request w) as [[[]|e|] w']; [| |done].
  - destruct Hr as (row & nonce & params & jwk & issued & t & [Hrow Hp _ _ _] & _ & _ & _ & Hq & Hconf). cbn [snd].
    eapply step_ok_quiet; [|exact Hq]. eapply alter_step; [exact Hrow| |].
    + intros Hok. unfold row_ok in Hok. rewrite Hp in Hok. destruct Hok as [Hk Hn]. split; [|unfold row_ok; cbn; by eexists].
      constructor; cbn; [done|done| |by rewrite Hk]. rewrite Hp. apply rtc_once. constructor.
    + intros other Ho Hne _. by apply Hconf.
  - destruct Hr as [Hq|(row & nonce & params & t & [Hrow Hp _ _ _] & _ & Hq & _)]; [by apply quiet_step|]. cbn [snd].
    eapply step_ok_quiet; [|exact Hq]. eapply alter_status; [exact Hrow|rewrite Hp; constructor|done].
Qed.

Lemma set_revocations_step (r : R) w w' : step_ok w w' -> step_ok w (set_revocations r w').
Proof. done. Qed.

Lemma revoke_step (config : WalletConfig) (id : Z) w : step_ok w (revoke_wallet_unit config id w).2.
Proof.
  pose proof (revoke_wp config id w) as Hr. unfold wp in Hr. destruct (revoke_wallet_unit config id w) as [r w']. cbn [snd].
  destruct Hr as [(row & params & keys & t & r' & s & Hrow & Ha & _ & _ & _ & _ & _ & Hq)|[_ Hq]]; [|by apply quiet_step].
  eapply step_ok_quiet; [|exact Hq]. apply set_revocations_step. eapply alter_status; [exact Hrow|rewrite Ha; constructor|done].
Qed.

Lemma delete_step (id : Z) w : step_ok w (delete_wallet_unit id w).2.
Proof.
  pose proof (delete_wp id w) as Hr. unfold wp in Hr. destruct (delete_wallet_unit id w) as [[[]|e|] w']; cbn [snd]; [|subst w'; by apply quiet_step|done].
  destruct Hr as (row & [Hrow <-]%find_unit_Some & Hp & _ & ->). apply units_step; [done|done|]. intros Hwf. cbn. by apply remove_unit.
Qed.

(** The keys of [issue_attestation]. *)
Lemma prepared_rows (id now expiration : Z) (rel : option RevocationListRelations) (n n' : nat) (keys keys' : list AttestedKey)
  (ins : list (string * AttestedKeyInput)) w :
  keys_wf n (units w) (key_rows w) -> get_by_wallet_unit_id id rel w = Ok keys -> prepared id now expiration n keys ins n' keys' ->
  keys_prepared n n' id (key_rows w) keys'.
Proof.
  intros Hwf Hkeys Hprep. pose proof Hprep as (old & new & Hsplit & Hold & _ & Hnew)%prepared_keys.
  assert (Hconv : Forall2 (fun row k => kw_id row = ak_id k /\ kw_public_key_jwk row = ak_public_key_jwk k)
                    (List.filter (fun k => kw_wallet_unit_id k =? id) (key_rows w)) keys).
  { apply try_map_ok in Hkeys. eapply Forall2_impl; [exact Hkeys|]. cbn. intros row k Hc. unfold convert_model in Hc.
    apply res_bind_ok in Hc as (rev & _ & [= <-]). done. }
  constructor.
  - intros k Hk. split; [by eapply prepared_unit|]. rewrite Hsplit in Hk. apply elem_of_app in Hk as [Hk|Hk]; [left|right; by apply Hnew].
    apply list_elem_of_lookup in Hk as [i Hi]. destruct (Forall2_lookup_r _ _ _ _ _ Hold Hi) as (k0 & Hk0 & (Hi0 & _ & Hj0 & _)).
    apply list_elem_of_lookup_2 in Hk0. destruct (load_keys_unit _ _ _ _ _ Hkeys Hk0) as (_ & row & Hrow & Hu & Hid & Hj).
    exists row. split_and!; [done|congruence|done|congruence].
  - eapply prepared_jwks; [exact Hprep|].
    assert (Hj : ak_public_key_jwk <$> keys = kw_public_key_jwk <$> List.filter (fun k => kw_wallet_unit_id k =? id) (key_rows w)).
    { clear -Hconv. induction Hconv as [|row k l l' [_ Hj] _ IH]; [done|]. rewrite !fmap_cons. by rewrite Hj, IH. }
    rewrite Hj. apply NoDup_fmap_2_strong; [|eapply NoDup_fmap_1, NoDup_filter_fmap, Hwf].
    intros x y [Hx%Z.eqb_eq Hx']%elem_of_filter_bool [Hy%Z.eqb_eq Hy']%elem_of_filter_bool Hxy.
    eapply (NoDup_fmap_inj_elem kw_id); [apply Hwf|done|done|]. apply (wf_key_jwks _ _ _ Hwf); [done|done|congruence|done].
  - intros row Hrow Hid. rewrite Hsplit. assert (Hin : row ∈ List.filter (fun k => kw_wallet_unit_id k =? id) (key_rows w))
      by (apply elem_of_filter_bool; split; [by apply Z.eqb_eq|done]).
    apply list_elem_of_lookup in Hin as [i Hi]. destruct (Forall2_lookup_l _ _ _ _ _ Hconv Hi) as (k & Hk & Hid' & _).
    destruct (Forall2_lookup_l _ _ _ _ _ Hold Hk) as (k' & Hk' & Hid'' & _). apply list_elem_of_fmap. exists k'. split; [congruence|].
    apply elem_of_app. left. by eapply list_elem_of_lookup_2.
Qed.

Lemma issue_step (config : WalletConfig) (id : Z) (bearer_token : string) (request : IssueAttestationRequest) w :
  step_ok w (issue_attestation config id bearer_token request w).2.
Proof.
  pose proof (issue_wp config id bearer_token request w) as Hr. unfold wp in Hr.
  destruct (issue_attestation config id bearer_token request w) as [[answer|e|] w']; cbn [atomic snd] in *; [|by apply quiet_step|by apply quiet_step].
  destruct Hr as (row & params & issuer & info & auth_fn & method & now & ins & Hallow & _ & _ & _ & [_ _ Hw]).
  destruct Hw as (keys & keys' & w0 & Hkeys & Hq & Hprep & [(_ & _ & _ & ->)|(t & w1 & _ & Hui & _ & Hwuas)]); [by apply quiet_step|].
  apply wuas_kept in Hwuas. apply (unit_issued_kept _ _ _ _ _ _ _ Hui) in Hwuas. clear Hui w1. destruct Hwuas as [Hu _ Hi _ _ _ Hk].
  pose proof Hq as [Hqu Hqk _ _ _ Hqi _ _]. rewrite Hqu in Hu. rewrite Hqk in Hk.
  destruct Hallow as [Hrow Hact _ _ _]. apply find_unit_Some in Hrow as [Hrow Hid]. intros [Huw Hkw].
  destruct (alter_units (wallet_ids w) (wallet_ids w) (units w) id
    (updated_unit t (mkUpdateWalletUnit None (Some now) None (match ins with [] => None | _ => Some keys' end))) row) as [Huw' Hue]; [done..| | | |].
  { by constructor. }
  { apply (wf_rows _ _ Huw) in Hrow. unfold row_ok in *. cbn. by rewrite Hact in *. }
  { intros other Ho Hne. cbn. apply (wf_auth _ _ Huw); [done|done|congruence]. }
  rewrite <- Hu in Huw', Hue.
  assert (Hkeys' : keys_wf (wallet_ids w0) (units w) (key_rows w') /\ keys_evolve (units w) (key_rows w) (key_rows w')).
  { destruct ins as [|i ins]; [rewrite Hk; split; [by eapply keys_wf_weaken|apply keys_evolve_refl]|].
    eapply upsert_keys; [exact Hqi|exact Huw|exact Hrow|done|exact Hkw| |exact Hk]. rewrite Hid. by eapply prepared_rows. }
  destruct Hkeys' as [Hkw' Hke]. unfold wallet_wf, wallet_evolves. rewrite Hi. split.
  - split; [by eapply units_wf_weaken|by eapply keys_wf_evolve].
  - done.
Qed.

Lemma wallet_step_ok w w' : wallet_step w w' -> step_ok w w'.
Proof.
  intros [config request|config id request|config id bearer_token request|config id|id|orgs r];
    [apply register_step|apply activate_step|apply issue_step|apply revoke_step|apply delete_step|].
  intros Hw. split; [done|]. apply (wallet_evolves_refl w).
Qed.

Lemma wallet_steps_ok w w' : rtc wallet_step w w' -> step_ok w w'.
Proof.
  induction 1 as [w|w w1 w2 Hs _ IH]; intros Hw; [split; [done|apply wallet_evolves_refl]|].
  destruct (wallet_step_ok _ _ Hs Hw) as [Hw1 He1]. destruct (IH Hw1) as [Hw2 He2]. split; [done|by eapply wallet_evolves_trans].
Qed.
(** A unit that may have attestations keeps its row. *)
Lemma unit_after (id : Z) (row : UnitRow) w w' : wallet_wf w' -> wallet_evolves w w' -> find_unit id w = Some row -> ur_status row <> UsPending ->
  exists row', find_unit id w' = Some row' /\ row_evolves row row'.
Proof.
  intros Hww (_ & Hue & _) [Hru Hrid]%find_unit_Some Hnp. destruct (ue_old _ _ _ Hue row Hru) as [(row' & Hrow' & Hev)|[? _]]; [|done].
  exists row'. split; [|done]. pose proof (ev_id _ _ Hev) as Hid.
  destruct (find_first_exists (fun u => ur_id u =? id) (units w') row') as (u & Hu & _); [done|apply Z.eqb_eq; congruence|].
  unfold find_unit. rewrite Hu. f_equal. apply find_first_Some in Hu as [Hu Huid%Z.eqb_eq]. eapply unique_unit; [apply Hww|done|done|congruence].
Qed.

End steps.
