(* ===== verification/WalletRevocation.v ===== *)
(** * Revocation of wallet attestations through token status lists

    The composition of the wallet provider with [TokenMethod.v]: the column
    [revocation_list_entry_id] of [wallet_unit_attested_key] in the store of the
    revocation lists, and the operations of the token status list method on
    attestations. An attestation that carries a status is linked to an entry, and
    revoking the unit revokes the entry and publishes its list. *)

From S2P Require Import Prelude StatusBits KeySelection RevocationRepo RevocationMethod BitstringMethod TokenMethod.
From S2P Require Import ListFilter Validity Paths Datatypes WalletStore WalletProvider WalletSpec WalletIssuance WalletLifecycle.
#[local] Open Scope Z_scope.

(** ** The instances *)

Section links.
Context `{UuidSupply}.

Definition get_revocation (relations : RevocationListRelations) (key : Z) (d : Db) : res DataLayerError (option KeyRevocation) :=
  match find_first (fun k => k.1 =? key) (attested_keys d) with
  | Some (_, Some revocation_list_entry_id) =>
      revocation_list_entry ← ok_or (find_first (fun e => e_id e =? revocation_list_entry_id) (entries d))
        (MissingRequiredRelation "wallet_unit_attested_key-revocation_list_entry" revocation_list_entry_id);
      revocation_list_index ← ok_or (e_index revocation_list_entry)
        (MissingRequiredRelation "wallet_unit_attested_key-revocation_list_entry-index" revocation_list_entry_id);
      found ← (get_revocation_list (e_list_id revocation_list_entry) relations d).1;
      revocation_list ← ok_or found
        (MissingRequiredRelation "wallet_unit_attested_key-revocation_list" (e_list_id revocation_list_entry));
      Ok (Some (mkKeyRevocation revocation_list revocation_list_index))
  | _ => Ok None
  end.

#[export] Instance db_key_links : KeyLinks Db := {
  insert_link key d := set_attested_keys (attested_keys d ++ [(key, None)]) d;
  key_revocation := get_revocation
}.
End links.

(** The method as the wallet provider calls it; no other client interferes with
    its transaction. *)
Definition token_attestations `{UuidSupply} `{StatusProviders} `{X509} `{BV : BitVec V} `{SC : StatusCodec} (self : TokenStatusList)
  (order : list (RevocationList * list Z) -> list (RevocationList * list Z)) : AttestationMethod Db := {|
  am_add_issued_attestation := fun issuer key unit_id =>
    add_issued_attestation (V := V) (H3 := {| get_wallet_unit := fun _ => issuer |}) self (fun _ d => d) (mkAttestedKey key unit_id);
  am_get_attestation_revocation_info := fun rev => get_attestation_revocation_info self (list_id (kr_list rev)) (kr_index rev);
  am_update_attestation_entries := fun revs =>
    update_attestation_entries (V := V) self order ((fun r => (kr_list r, kr_index r)) <$> revs)
|}.

(** ** Links *)

(** The links after [key] got the entry [eid]. *)
Definition set_link (key eid : Z) (ks : list (Z * option Z)) : list (Z * option Z) :=
  (fun k => if k.1 =? key then (key, Some eid) else k) <$> ks.

Definition linked (key eid : Z) (d : Db) : Prop := (key, Some eid) ∈ attested_keys d.

Lemma set_link_keys (key eid : Z) (ks : list (Z * option Z)) : fst <$> set_link key eid ks = fst <$> ks.
Proof.
  unfold set_link. rewrite <- list_fmap_compose. apply list_fmap_ext. intros i [k v] _. cbn. by destruct (Z.eqb_spec k key) as [->|].
Qed.

Lemma set_link_this (key eid : Z) (ks : list (Z * option Z)) : key ∈ (fst <$> ks) -> (key, Some eid) ∈ set_link key eid ks.
Proof. intros ([k v] & -> & Hk)%list_elem_of_fmap. apply list_elem_of_fmap. exists (k, v). cbn. by rewrite Z.eqb_refl. Qed.

Lemma set_link_other (key key' eid : Z) (v : option Z) (ks : list (Z * option Z)) : key' <> key -> (key', v) ∈ ks -> (key', v) ∈ set_link key eid ks.
Proof. intros Hne Hk. apply list_elem_of_fmap. exists (key', v). cbn. apply Z.eqb_neq in Hne. by rewrite Hne. Qed.

Section linking.
Context `{UuidSupply} `{!UuidLaws} `{StatusProviders} `{X509} `{BV : BitVec V} `{!BitVecLaws V} `{SC : StatusCodec} `{!StatusCodecLaws}.
Context (self : TokenStatusList) (key : Z).
#[local] Notation entity := (EntityWalletUnitAttestedKey key).

(** What a computation that enters [key] does to the links. *)
Definition enters {E A : Type} (entry : A -> option Z) (m : M Db E A) : Prop :=
  forall d, wp m d (fun r d' => match r with
    | Ok a => match entry a with
              | Some eid => attested_keys d' = set_link key eid (attested_keys d) /\ key ∈ (fst <$> attested_keys d)
              | None => attested_keys d' = attested_keys d
              end
    | _ => True
    end).

Lemma create_entry_enters (lid i : Z) : enters Some (create_entry lid entity (Some i)).
Proof.
  intros d. unfold create_entry. apply wp_bind. unfold wp at 1. cbn. eapply wp_run; [reflexivity|]. eapply wp_run; [reflexivity|].
  apply wp_bind. unfold wp at 1, insert_entry. destruct (existsb _ _); [done|]. destruct (negb _); [done|].
  apply wp_bind. unfold wp at 1, link_attested_key, mbind, M_bind, get. cbn [attested_keys set_entries set_uuid_state].
  destruct (existsb _ (attested_keys d)) eqn:He; [|done]. unfold wp, put, mret, M_ret. split; [done|].
  apply existsb_elem in He as (k & Hk & Hid%Z.eqb_eq). apply list_elem_of_fmap. by exists k.
Qed.

Lemma create_entry_err (lid i : Z) (d : Db) (e : DataLayerError) (d' : Db) :
  create_entry lid entity (Some i) d = (Err e, d') -> attested_keys d' = attested_keys d.
Proof.
  unfold create_entry, mbind, M_bind. cbn. unfold insert_entry. destruct (existsb _ _); [by intros [= <- <-]|].
  destruct (negb _); [by intros [= <- <-]|]. unfold mbind, M_bind, get. cbn. destruct (existsb _ (attested_keys d)); [done|]. by intros [= <- <-].
Qed.

Lemma try_add_enters (c lid : Z) : enters (fun r => fst <$> r) (try_add (fun _ d => d) c lid entity).
Proof.
  intros d. unfold try_add. apply wp_bind. unfold wp at 1.
  assert (Hn : (next_free_index lid d).2 = d).
  { unfold next_free_index, mbind, M_bind, get. destruct (max_index _); [done|]. by destruct (find_list lid d). }
  destruct (next_free_index lid d) as [[i|e|] d1]; cbn in Hn; subst d1; [|done|done].
  eapply wp_run; [reflexivity|]. apply wp_transaction. unfold wp. pose proof (create_entry_enters lid i d) as Hc. unfold wp in Hc.
  destruct (create_entry lid entity (Some i) d) as [[eid|e|] d2] eqn:He; cbn [is_ok]; [exact Hc| |done].
  apply create_entry_err in He. by destruct e.
Qed.

Lemma add_loop_enters (fuel : nat) (c lid : Z) : enters (fun r => Some r.1) (add_loop (fun _ d => d) fuel c lid entity).
Proof.
  revert c. induction fuel as [|fuel IH]; intros c d; cbn [add_loop]; [done|].
  apply wp_bind, wp_map_err. eapply wp_mono; [apply try_add_enters|]. intros [[[eid i]|]|e|] d1 Hr; cbn [map_err]; [exact Hr| |done|done].
  destruct (100 <? c); [done|]. eapply wp_mono; [apply IH|]. intros [[eid i]|e|] d2 Hr2; [|done|done].
  cbn in *. by rewrite Hr in Hr2.
Qed.

Lemma start_list_enters (issuer : Identifier) (cert : option Certificate) :
  enters (fun r => Some r.2) (transaction (start_new_list_for_entity (V := V) self entity issuer cert)).
Proof.
  intros d. apply wp_transaction. unfold start_new_list_for_entity. eapply wp_run; [reflexivity|].
  apply wp_bind. unfold wp at 1, lift. destruct (generate_token_from_entries []) as [enc| |]; [|done|done].
  apply wp_bind. unfold wp at 1, lift. destruct (token_formatter self) as [f| |]; [|done|done].
  apply wp_bind. unfold wp at 1, lift. destruct (token_format_list _ _ _ _ _ _) as [s| |]; [|done|done].
  eapply wp_run; [reflexivity|]. apply wp_bind, wp_map_err. unfold create_revocation_list. cbn [list_issuer_identifier].
  eapply wp_run; [reflexivity|]. apply wp_bind. unfold wp at 1, insert_list. destruct (existsb _ _); [done|]. destruct (negb _); [done|].
  unfold wp at 1, mret, M_ret. cbn [map_err]. apply wp_bind, wp_map_err. eapply wp_mono; [apply create_entry_enters|].
  intros [eid|e|] d2 Hr; cbn [map_err]; [|done|done]. exact Hr.
Qed.

Lemma token_lookup_same (issuer : Identifier) (cert : option Certificate) (d : Db) : (token_lookup self issuer cert d).2 = d.
Proof.
  unfold token_lookup, M_map_err, get_revocation_by_issuer_identifier_id, mbind, M_bind, get. destruct (find_first _ _); [|done].
  unfold entity_model_to_repository_model, mbind, M_bind, get. cbn. done.
Qed.

Lemma token_create_entry_enters (issuer : Identifier) (cert : option Certificate) :
  enters (fun r => Some r.1) (token_create_entry (V := V) self (fun _ d => d) entity issuer cert).
Proof.
  intros d. unfold token_create_entry. apply wp_bind.
  assert (Hf : wp (find_or_start_token_list (V := V) self (fun _ d => d) entity issuer cert) d (fun r d' => match r with
    | Ok (_, Some eid) => attested_keys d' = set_link key eid (attested_keys d) /\ key ∈ (fst <$> attested_keys d)
    | Ok (_, None) => attested_keys d' = attested_keys d
    | _ => True end)).
  { unfold find_or_start_token_list. apply wp_bind. unfold wp at 1. pose proof (token_lookup_same issuer cert d) as Hl.
    destruct (token_lookup self issuer cert d) as [[[l|]|e|] d1]; cbn in Hl; subst d1; [done| |done|done].
    eapply wp_run; [reflexivity|]. unfold wp, start_or_refetch. pose proof (start_list_enters issuer cert d) as Hs. unfold wp in Hs.
    destruct (transaction _ d) as [[[lid eid]|e|] d1] eqn:Ht; [exact Hs| |done].
    assert (d1 = d) as ->. { unfold transaction in Ht. destruct (start_new_list_for_entity _ _ _ _ d) as [[]]; by inversion Ht. }
    destruct (decide _); [|done]. unfold mbind, M_bind. pose proof (token_lookup_same issuer cert d) as Hl.
    destruct (token_lookup self issuer cert d) as [[[l|]|e'|] d1]; cbn in Hl; subst d1; done. }
  eapply wp_mono; [exact Hf|]. clear Hf. intros [[lid found]|e|] d1 Hr; [|done|done]. cbn [fst snd]. apply wp_bind.
  assert (He : wp (match found with Some eid => mret (eid, 0) | None => add_entity_to_list (fun _ d => d) lid entity end) d1 (fun r d' => match r with
    | Ok (eid, _) => attested_keys d' = set_link key eid (attested_keys d) /\ key ∈ (fst <$> attested_keys d)
    | _ => True end)).
  { destruct found as [eid|]; [exact Hr|]. eapply wp_mono; [apply add_loop_enters|]. intros [[eid i]|e|] d2 Hr2; [|done|done].
    cbn in Hr2. by rewrite Hr in Hr2. }
  eapply wp_mono; [exact He|]. intros [[eid i]|e|] d2 Hr2; [|done|done]. cbn [fst snd]. apply wp_bind. unfold wp at 1, create_token_status.
  unfold mbind, M_bind, lift. destruct (get_revocation_list_url _ _); [|done|done]. cbn. destruct (url_parse _); cbn; [|done]. exact Hr2.
Qed.
End linking.

(** ** Revocation reaches the entries *)

Section reach.
Context `{UuidSupply} `{!UuidLaws} `{StatusProviders} `{X509} `{BV : BitVec V} `{!BitVecLaws V} `{SC : StatusCodec} `{!StatusCodecLaws}.
Context `{WalletClock} `{WalletCrypto} `{AttestationMethods Db}.
Context (config : WalletConfig) (self : TokenStatusList) (order : list (RevocationList * list Z) -> list (RevocationList * list Z)).
Context (Horder : forall l, order l ≡ₚ l).
Implicit Types (w : WalletDb Db).

(** The entry at the index is revoked, and so a verifier reads it in its list. *)
Definition slot_revoked (lid i : Z) (d : Db) : Prop :=
  exists e issuer, e ∈ entries d /\ e_list_id e = lid /\ e_index e = Some i /\ e_status e = EntryRevoked /\
    token_published (V := V) self issuer lid d.

Lemma index_u32 (d : Db) (e : EntryRow) (i : Z) : wf d -> e ∈ entries d -> e_index e = Some i -> u32_wrap i = i.
Proof.
  intros Hwf He Hi. destruct (wf_indices d Hwf (e_list_id e)) as [Hd Hn].
  assert (Hin : i ∈ indices (e_list_id e) d).
  { unfold indices. apply list_elem_of_omap. exists e. split; [|done]. unfold entries_of. apply elem_of_filter_bool.
    split; [by apply Z.eqb_refl|done]. }
  rewrite dense_elem in Hin by done. apply u32_wrap_small. lia.
Qed.

Lemma get_revocation_entry (rel : RevocationListRelations) (key k eid : Z) (d : Db) (found : option KeyRevocation) :
  find_first (fun k => k.1 =? key) (attested_keys d) = Some (k, Some eid) -> get_revocation rel key d = Ok found ->
  exists e rev, found = Some rev /\ e ∈ entries d /\ e_id e = eid /\ list_id (kr_list rev) = e_list_id e /\ e_index e = Some (kr_index rev).
Proof.
  unfold get_revocation. intros -> (e & He & Hr)%res_bind_ok. apply ok_or_ok, find_first_Some in He as [He Hid%Z.eqb_eq].
  apply res_bind_ok in Hr as (i & Hi%ok_or_ok & Hr). apply res_bind_ok in Hr as (fl & Hfl & Hr).
  apply res_bind_ok in Hr as (l & Hl'%ok_or_ok & [= <-]). subst fl. exists e, (mkKeyRevocation l i). split_and!; [done..| |done]. cbn.
  unfold get_revocation_list, mbind, M_bind, get in Hfl. destruct (find_list (e_list_id e) d) as [row|] eqn:Hrow; [|done].
  apply find_first_Some in Hrow as [_ Hrow%Z.eqb_eq].
  unfold entity_model_to_repository_model, mbind, M_bind, get in Hfl.
  destruct (with_issuer_identifier rel); [destruct (find_first _ (identifiers d)); [|done]|];
    (destruct (with_issuer_certificate rel); [destruct (rl_issuer_certificate_id row); [destruct (find_first _ (certificates d)); [|done]|]|]);
    cbn in Hfl; by injection Hfl as <-.
Qed.

Lemma get_revocation_linked (rel : RevocationListRelations) (key eid : Z) (d : Db) (found : option KeyRevocation) :
  NoDup (fst <$> attested_keys d) -> linked key eid d -> get_revocation rel key d = Ok found ->
  exists e rev, found = Some rev /\ e ∈ entries d /\ e_id e = eid /\ list_id (kr_list rev) = e_list_id e /\ e_index e = Some (kr_index rev).
Proof.
  intros Hnd Hl. destruct (find_first_exists (fun k : Z * option Z => k.1 =? key) (attested_keys d) (key, Some eid)) as ([k v] & Hf & _);
    [done|by apply Z.eqb_refl|]. apply find_first_Some in Hf as Hin. destruct Hin as [Hin Hk%Z.eqb_eq]. cbn in Hk. subst k.
  assert ((key, v) = (key, Some eid)) as [= ->] by (by eapply (NoDup_fmap_inj_elem fst)). by eapply get_revocation_entry.
Qed.

Lemma get_keys_row (id : Z) (rel : RevocationListRelations) w (keys : list AttestedKey) (row : KeyRow) :
  get_by_wallet_unit_id id (Some rel) w = Ok keys -> row ∈ key_rows w -> kw_wallet_unit_id row = id ->
  exists k, k ∈ keys /\ get_revocation rel (kw_id row) (revocations w) = Ok (ak_revocation k).
Proof.
  intros Hk%try_map_ok Hrow Hid. assert (Hin : row ∈ List.filter (fun k => kw_wallet_unit_id k =? id) (key_rows w))
    by (apply elem_of_filter_bool; split; [by apply Z.eqb_eq|done]).
  apply list_elem_of_lookup in Hin as [i Hi]. destruct (Forall2_lookup_l _ _ _ _ _ Hk Hi) as (k & Hk' & Hc).
  unfold convert_model in Hc. apply res_bind_ok in Hc as (rev & Hr & [= <-]). eexists. split; [by eapply list_elem_of_lookup_2|]. exact Hr.
Qed.

Lemma revoke_reaches (id : Z) (method : string) (row : UnitRow) (params : WalletProviderParams) w w' (key : KeyRow) (eid : Z) :
  attestation_method method = Some (token_attestations (V := V) self order) ->
  find_unit id w = Some row -> get_wallet_provider_config_params config (ur_wallet_provider_name row) = Ok params ->
  wp_wua_revocation_method params = Some method ->
  wf (revocations w) -> (forall l, room (len (indices l (revocations w)))) -> NoDup (fst <$> attested_keys (revocations w)) ->
  revoke_wallet_unit config id w = (Ok tt, w') -> key ∈ key_rows w -> kw_wallet_unit_id key = id -> linked (kw_id key) eid (revocations w) ->
  exists e i, e ∈ entries (revocations w) /\ e_id e = eid /\ e_index e = Some i /\ slot_revoked (e_list_id e) i (revocations w').
Proof.
  intros Hmeth Hrow Hparams Hm Hwf Hroom Hnd Hrev Hkey Hunit Hlink. pose proof (revoke_wp config id w) as Hr. unfold wp in Hr. rewrite Hrev in Hr.
  destruct Hr as [(row' & params' & keys & t & r & s & Hrow' & _ & Hparams' & Hkeys & _ & Hent & <- & Hq)|[[=] _]].
  assert (row' = row) as -> by congruence. assert (params' = params) as -> by congruence.
  rewrite (q_revocations _ _ Hq). cbn [revocations set_revocations].
  destruct (get_keys_row _ _ _ _ _ Hkeys Hkey Hunit) as (k & Hk & Hget).
  destruct (get_revocation_linked _ _ _ _ _ Hnd Hlink Hget) as (e & rev & Hakr & He & Heid & Hl & Hi).
  unfold entries_update in Hent. rewrite Hm, Hmeth in Hent.
  assert (Hin : rev ∈ omap ak_revocation keys) by (apply list_elem_of_omap; by exists k).
  destruct (omap ak_revocation keys) as [|rv rvs]; [by apply elem_of_nil in Hin|]. cbn [am_update_attestation_entries token_attestations] in Hent.
  pose proof (attestation_update_spec (V := V) self order ((fun r => (kr_list r, kr_index r)) <$> rv :: rvs) Revoked (revocations w) Horder Hwf Hroom) as Hu.
  destruct (update_attestation_entries _ _ _ _ (revocations w)) as [[[]|e'|] d']; [|done|done]. injection Hent as <-.
  destruct Hu as (_ & (f & Hes & Hf) & Hpub). destruct (Hf e) as ((Hid' & Hl' & _) & Hst & _).
  assert (Hin' : (kr_list rev, kr_index rev) ∈ (fun r => (kr_list r, kr_index r)) <$> rv :: rvs) by (apply list_elem_of_fmap; by exists rev).
  destruct (Hpub _ Hin') as (issuer & Hp). exists e, (kr_index rev). split_and!; [done..|]. exists (f e), issuer. destruct (Hf e) as (Hslot & _ & _).
  split_and!; [| |destruct Hslot as (_ & _ & Hi' & _); congruence| |by rewrite <- Hl].
  - rewrite Hes. apply list_elem_of_fmap. by exists e.
  - done.
  - apply Hst. exists (kr_list rev, kr_index rev). split_and!; [done|by symmetry|]. cbn. by rewrite (index_u32 _ _ _ Hwf He Hi).
Qed.

(** ** Issuance links the keys *)

#[local] Notation method := (token_attestations (V := V) self order).

Lemma add_attestation_wp (issuer : res DataLayerError (option (option (option Z)))) (key unit_id : Z) (d : Db) : wf d ->
  wp (am_add_issued_attestation method issuer key unit_id) d (fun r d' => match r with
    | Ok s => wf d' /\ grows d d' /\ exists lid i eid, token_refers self s lid i /\ entered lid i eid (EntityWalletUnitAttestedKey key) d' /\
        attested_keys d' = set_link key eid (attested_keys d) /\ key ∈ (fst <$> attested_keys d)
    | _ => True
    end).
Proof.
  intros Hwf. cbn [am_add_issued_attestation token_attestations]. unfold add_issued_attestation. cbn [get_wallet_unit wua_wallet_unit_id wua_id].
  do 4 (apply wp_bind; unfold wp at 1, lift; match goal with |- context [match ?x with _ => _ end] => destruct x as [?| |] end; [|done|done]).
  eapply wp_run; [reflexivity|]. apply wp_bind; unfold wp at 1, lift. destruct (ok_or _ _) as [iss| |]; [|done|done]. apply wp_bind.
  unfold wp at 1. pose proof (token_create_entry_spec (V := V) self (fun _ d => d) (fun _ d => rtc_refl _ d) (EntityWalletUnitAttestedKey key) I iss
    (match idn_certificates iss with Some cs => find_first (fun c => bool_decide (cert_state c = CertActive)) cs | None => None end) d Hwf) as Hs.
  pose proof (token_create_entry_enters (V := V) self key iss
    (match idn_certificates iss with Some cs => find_first (fun c => bool_decide (cert_state c = CertActive)) cs | None => None end) d) as He.
  unfold wp in He. destruct (token_create_entry self _ _ iss _ d) as [[[eid s]|e|] d']; [|done|done]. unfold wp, mret, M_ret. cbn in *.
  destruct Hs as (Hw & Hg & lid & i & Hr & Hent), He as [Hset Hin]. split_and!; [done|done|]. by exists lid, i, eid.
Qed.

Lemma reuse_attestation_wp (rev : KeyRevocation) (d : Db) : wf d ->
  wp (am_get_attestation_revocation_info method rev) d (fun r d' => match r with
    | Ok s => wf d' /\ grows d d' /\ token_refers self s (list_id (kr_list rev)) (kr_index rev) /\ attested_keys d' = attested_keys d
    | _ => True
    end).
Proof.
  intros Hwf. cbn [am_get_attestation_revocation_info token_attestations]. unfold get_attestation_revocation_info.
  pose proof (create_token_status_spec self (list_id (kr_list rev)) (kr_index rev) d Hwf) as Hs. unfold wp.
  assert (Ha : attested_keys (create_token_status self (list_id (kr_list rev)) (kr_index rev) d).2 = attested_keys d).
  { unfold create_token_status, mbind, M_bind, lift. destruct (get_revocation_list_url _ _); [|done|done]. cbn. by destruct (url_parse _). }
  destruct (create_token_status _ _ _ d) as [[s|e|] d']; [|done|done]. by destruct Hs as (? & ? & ?).
Qed.

Definition new_id (i : KeyAttestationInput) : option Z :=
  match ki_key i with NewlyCreated key => Some (ak_id key) | Reused _ => None end.

(** The status in a key attestation: that of the entry that the new key is linked
    to, or that of the known key. *)
Definition status_linked (i : KeyAttestationInput) (s : CredentialStatus) (d : Db) : Prop :=
  exists lid idx, token_refers self s lid idx /\
    match ki_key i with
    | NewlyCreated key => exists eid, linked (ak_id key) eid d /\ entered lid idx eid (EntityWalletUnitAttestedKey (ak_id key)) d
    | Reused (Some rev) => lid = list_id (kr_list rev) /\ idx = kr_index rev
    | Reused None => False
    end.

Definition token_linked (params : WalletProviderParams) (auth_fn : Signer) (info : JwtPublicKeyInfo) (d : Db) (i : KeyAttestationInput) (token : string) : Prop :=
  exists status t a, is_wua params info (ki_holder_jwk i) (ki_security_level i) status t a /\ tokenize auth_fn a = Some token /\
    forall s, status = Some s -> status_linked i s d.

(** What the issuance of a list of attestations does to the store. *)
Record links_grow (new : list Z) (d d' : Db) : Prop := {
  lg_wf : wf d';
  lg_grows : grows d d';
  lg_keys : fst <$> attested_keys d' = fst <$> attested_keys d;
  lg_old : forall key v, key ∉ new -> (key, v) ∈ attested_keys d -> (key, v) ∈ attested_keys d'
}.

Lemma status_linked_later (i : KeyAttestationInput) (s : CredentialStatus) (new : list Z) (d d' : Db) :
  (forall x, new_id i = Some x -> x ∉ new) -> links_grow new d d' -> status_linked i s d -> status_linked i s d'.
Proof.
  intros Hn [_ Hg _ Hold] (lid & idx & Hr & Hl). exists lid, idx. split; [done|]. unfold new_id in Hn. destruct (ki_key i) as [key|[rev|]]; [|done|done].
  destruct Hl as (eid & Hlink & Hent). exists eid. split; [|by eapply grows_entered]. apply Hold; [by apply Hn|done].
Qed.

Lemma wua_issued_links (params : WalletProviderParams) (auth_fn : Signer) (info : JwtPublicKeyInfo) w w' (i : KeyAttestationInput) (token : string) :
  wf (revocations w) -> wua_issued params auth_fn info (Some method) w w' i token ->
  links_grow (option_list (new_id i)) (revocations w) (revocations w') /\ token_linked params auth_fn info (revocations w') i token.
Proof.
  intros Hwf (status & t & a & Hst & _ & Hwua & Htok). unfold status_given in Hst. unfold token_linked, status_linked, new_id.
  destruct (ki_key i) as [key|[rev|]].
  - destruct Hst as (s & -> & Hadd). pose proof (add_attestation_wp (unit_issuer (ak_wallet_unit_id key) w) (ak_id key) (ak_wallet_unit_id key) _ Hwf) as Hw.
    unfold wp in Hw. rewrite Hadd in Hw. destruct Hw as (Hw & Hg & lid & idx & eid & Hr & Hent & Hset & Hin). split.
    + constructor; [done|done|by rewrite Hset, set_link_keys|]. intros key' v Hne Hk. rewrite Hset. apply set_link_other; [set_solver|done].
    + exists (Some s), t, a. split_and!; [done|done|]. intros s' [= <-]. exists lid, idx. split; [done|]. exists eid. split; [|done].
      unfold linked. rewrite Hset. by apply set_link_this.
  - destruct Hst as (s & -> & Hget). pose proof (reuse_attestation_wp rev _ Hwf) as Hw. unfold wp in Hw. rewrite Hget in Hw.
    destruct Hw as (Hw & Hg & Hr & Hset). split; [constructor; [done|done|by rewrite Hset|by rewrite Hset]|].
    exists (Some s), t, a. split_and!; [done|done|]. intros s' [= <-]. by exists (list_id (kr_list rev)), (kr_index rev).
  - destruct Hst as [-> Hset]. rewrite Hset. split; [by constructor|]. by exists None, t, a.
Qed.

Lemma wuas_issued_links (params : WalletProviderParams) (auth_fn : Signer) (info : JwtPublicKeyInfo) w w' (ins : list KeyAttestationInput) (tokens : list string) :
  wuas_issued params auth_fn info (Some method) w ins tokens w' -> wf (revocations w) -> NoDup (omap new_id ins) ->
  links_grow (omap new_id ins) (revocations w) (revocations w') /\ Forall2 (token_linked params auth_fn info (revocations w')) ins tokens.
Proof.
  induction 1 as [w|w w1 w' i ins token tokens Hk Hone Hrest IH]; intros Hwf Hnd; [split; [by constructor|constructor]|].
  destruct (wua_issued_links _ _ _ _ _ _ _ Hwf Hone) as [[Hw1 Hg1 Hk1 Hold1] (status & t & a & Hwua & Htok & Hst)].
  cbn [omap list_omap] in *. assert (Hnew : NoDup (omap new_id ins) /\ forall x, new_id i = Some x -> x ∉ omap new_id ins).
  { destruct (new_id i) as [x|]; [|by split]. apply NoDup_cons in Hnd as [? ?]. split; [done|]. by intros y [= <-]. }
  destruct Hnew as [Hnd' Hnew]. destruct (IH Hw1 Hnd') as [Hlg Hall]. split.
  - destruct Hlg as [Hw Hg Hk' Hold]. constructor; [done|by etrans|by rewrite Hk'|]. intros key v Hni Hin.
    destruct (new_id i) as [x|]; [apply not_elem_of_cons in Hni as [? ?]|]; apply Hold; auto; apply Hold1; auto; cbn; set_solver.
  - constructor; [|done]. exists status, t, a. split_and!; [done|done|]. intros s Hs. eapply status_linked_later; [exact Hnew|exact Hlg|auto].
Qed.

(** ** From the issuance to the revocation *)

(** The links are those of the key rows. *)
Definition links_match w : Prop := fst <$> attested_keys (revocations w) = kw_id <$> key_rows w.

Lemma insert_links (new : list Z) (d : Db) :
  foldl (fun r k => insert_link k r) d new = set_attested_keys (attested_keys d ++ ((fun k => (k, None)) <$> new)) d.
Proof.
  revert d. induction new as [|k new IH]; intros d; cbn [foldl]; [destruct d; cbn; by rewrite app_nil_r|].
  rewrite IH. cbn. by rewrite <- app_assoc.
Qed.

Lemma links_added_match w w' : links_added w w' -> links_match w ->
  links_match w' /\ exists ks, revocations w' = set_attested_keys (attested_keys (revocations w) ++ ks) (revocations w).
Proof.
  intros (new & Hk & Hr) Hm. rewrite insert_links in Hr. unfold links_match in *. split; [|by eexists]. rewrite Hr, Hk. cbn.
  rewrite fmap_app, Hm. f_equal. rewrite <- list_fmap_compose. clear. induction new; [done|]. cbn. by f_equal.
Qed.

Lemma more_links_grow (ks : list (Z * option Z)) (d : Db) : wf d -> wf (set_attested_keys (attested_keys d ++ ks) d) /\
  grows d (set_attested_keys (attested_keys d ++ ks) d).
Proof.
  intros Hwf. split; [eapply wf_same_tables; [exact Hwf|done|done|done]|].
  apply same_lists_grows; [done|done|by apply same_entries_slots].
Qed.

(** A key with a revocation is linked to its entry. *)
Lemma get_revocation_Some (rel : RevocationListRelations) (key : Z) (d : Db) (rev : KeyRevocation) : get_revocation rel key d = Ok (Some rev) ->
  exists e, linked key (e_id e) d /\ e ∈ entries d /\ e_list_id e = list_id (kr_list rev) /\ e_index e = Some (kr_index rev).
Proof.
  intros Hg. destruct (find_first (fun k => k.1 =? key) (attested_keys d)) as [[k [eid|]]|] eqn:Hf.
  2,3: unfold get_revocation in Hg; rewrite Hf in Hg; done.
  apply find_first_Some in Hf as Hin. destruct Hin as [Hin Hk%Z.eqb_eq]. cbn in Hk. subst k.
  destruct (get_revocation_entry rel key key eid d (Some rev) Hf Hg) as (e & rev' & [= <-] & He & Heid & Hl & Hi).
  exists e. rewrite Heid. split_and!; [done|done|by symmetry|done].
Qed.

(** The new keys of a request are different. *)
Lemma prepared_new_ids (unit_id now expiration : Z) (n n' : nat) (keys keys' : list AttestedKey) (ins : list KeyAttestationInput) :
  prepared unit_id now expiration n keys (input_pair <$> ins) n' keys' ->
  NoDup (omap new_id ins) /\ forall x, x ∈ omap new_id ins -> exists m, (n <= m)%nat /\ x = uuid_at m.
Proof.
  revert n keys. induction ins as [|i ins IH]; intros n keys; cbn [fmap list_fmap omap list_omap]; [intros _; split; [constructor|set_solver]|].
  intros Hp. inversion Hp as [|n0 k0 keys1 jwk rev rest n1 k1 He Hp' |n0 m k0 jwk rest n1 k1 Hm He key Hp']; subst.
  - assert (new_id i = None) as -> by (unfold new_id; match goal with Hk : _ = ki_key i |- _ => by rewrite <- Hk end). by apply (IH n keys1).
  - assert (new_id i = Some (uuid_at m)) as -> by (unfold new_id; match goal with Hk : _ = ki_key i |- _ => by rewrite <- Hk end).
    destruct (IH _ _ Hp') as [Hnd Hx]. split.
    + constructor; [|done]. intros (m' & Hm' & Heq)%Hx. apply (inj uuid_at) in Heq. lia.
    + intros x [->|Hin]%elem_of_cons; [by exists m|]. destruct (Hx x Hin) as (m' & ? & ?). exists m'. split; [lia|done].
Qed.

Lemma load_key_revocation (id : Z) (rel : RevocationListRelations) w (keys : list AttestedKey) (k : AttestedKey) :
  get_by_wallet_unit_id id (Some rel) w = Ok keys -> k ∈ keys ->
  exists row, row ∈ key_rows w /\ kw_wallet_unit_id row = id /\ get_revocation rel (kw_id row) (revocations w) = Ok (ak_revocation k).
Proof.
  intros Hk%try_map_ok Hin. apply list_elem_of_lookup in Hin as [i Hi]. destruct (Forall2_lookup_r _ _ _ _ _ Hk Hi) as (row & Hrow & Hc).
  apply list_elem_of_lookup_2, elem_of_filter_bool in Hrow as [Hu%Z.eqb_eq Hrow].
  unfold convert_model in Hc. apply res_bind_ok in Hc as (rev & Hr & [= <-]). by exists row.
Qed.

(** A status of the unit [id]: a key of the unit is linked to the entry at its
    index. *)
Definition status_of_unit (id : Z) (s : CredentialStatus) w : Prop :=
  exists lid idx row eid e, token_refers self s lid idx /\ row ∈ key_rows w /\ kw_wallet_unit_id row = id /\ linked (kw_id row) eid (revocations w) /\
    e ∈ entries (revocations w) /\ e_id e = eid /\ e_list_id e = lid /\ e_index e = Some idx.

Lemma issued_key_linked (id now expiration : Z) (keys keys' : list AttestedKey) (ins : list KeyAttestationInput) (i : KeyAttestationInput)
  (s : CredentialStatus) (n' : nat) w w1 w2 :
  wallet_wf w -> get_by_wallet_unit_id id (Some no_relations) w = Ok keys ->
  prepared id now expiration (wallet_ids w) keys (input_pair <$> ins) n' keys' -> upserted keys' (key_rows w) (key_rows w2) ->
  keys_evolve (units w) (key_rows w) (key_rows w2) -> links_match w2 ->
  (forall x, x ∈ attested_keys (revocations w) -> x ∈ attested_keys (revocations w1)) -> grows (revocations w) (revocations w1) ->
  links_grow (omap new_id ins) (revocations w1) (revocations w2) ->
  i ∈ ins -> status_linked i s (revocations w2) ->
  status_of_unit id s w2.
Proof.
  intros [Huw Hkw] Hkeys Hprep Hup Hke Hmatch Hold Hg1 Hlg Hi (lid & idx & Href & Hl). exists lid, idx.
  destruct (prepared_new_ids _ _ _ _ _ _ _ _ Hprep) as [_ Hfresh].
  assert (Hnot : forall row, row ∈ key_rows w -> kw_id row ∉ omap new_id ins).
  { intros row Hrow (m & Hm & Hid)%Hfresh. destruct (wf_key_drawn _ _ _ Hkw row Hrow) as (m' & Hm' & Hid').
    assert (m = m') by (apply (inj uuid_at); congruence). lia. }
  destruct (ki_key i) as [key|[rev|]] eqn:Hik; [| |done].
  - destruct Hl as (eid & Hlink & e & He & Heid & Hel & Hei & _).
    assert (Hin : ak_id key ∈ (kw_id <$> key_rows w2)) by (rewrite <- Hmatch; apply list_elem_of_fmap; by exists (ak_id key, Some eid)).
    apply list_elem_of_fmap in Hin as (row & Hid & Hrow). exists row, eid, e. rewrite <- Hid. split_and!; try done.
    destruct (up_from _ _ _ Hup row Hrow) as [(k & Hk & _ & -> & _)|[Hrow0 _]]; [by eapply prepared_unit|].
    destruct (Hnot row Hrow0). rewrite <- Hid. apply list_elem_of_omap. exists i. unfold new_id. by rewrite Hik.
  - destruct Hl as [-> ->].
    destruct (prepared_inputs _ _ _ _ _ _ _ _ Hprep (ki_holder_jwk i) (ki_key i)) as (k & Hk & _ & _ & Hrev).
    { apply list_elem_of_fmap. by exists i. }
    rewrite Hik in Hrev. pose proof Hprep as (old & new & Hsplit & Hsame & _ & Hnew)%prepared_keys. rewrite Hsplit in Hk.
    apply elem_of_app in Hk as [Hk|Hk]; [|destruct (Hnew k Hk) as (_ & _ & ?); congruence].
    apply list_elem_of_lookup in Hk as [j Hj]. destruct (Forall2_lookup_r _ _ _ _ _ Hsame Hj) as (k0 & Hk0 & (_ & _ & _ & Hrev0)).
    apply list_elem_of_lookup_2 in Hk0. destruct (load_key_revocation _ _ _ _ _ Hkeys Hk0) as (row & Hrow & Hunit & Hget).
    rewrite <- Hrev0, Hrev in Hget. destruct (get_revocation_Some _ _ _ _ Hget) as (e & Hlink & He & Hel & Hei).
    destruct (ke_old _ _ _ Hke row Hrow) as (row2 & Hrow2 & Hid2 & Hunit2 & _).
    destruct (transitivity Hg1 (lg_grows _ _ _ Hlg)) as (_ & _ & _ & Hslots). destruct (Hslots e He) as (e2 & He2 & Hid & Hl2 & Hi2 & _).
    exists row2, (e_id e), e2. split_and!; [done|done|congruence| |done|congruence|congruence|congruence].
    rewrite Hid2. apply (lg_old _ _ _ Hlg); [by apply Hnot|by apply Hold].
Qed.

Lemma issued_links (id : Z) (bearer_token : string) (request : IssueAttestationRequest) (answer : list string * list string)
  (row : UnitRow) (params : WalletProviderParams) (m : string) w w1 :
  wallet_wf w -> links_match w -> wf (revocations w) ->
  find_unit id w = Some row -> get_wallet_provider_config_params config (ur_wallet_provider_name row) = Ok params ->
  wp_wua_revocation_method params = Some m -> attestation_method m = Some method ->
  issue_attestation config id bearer_token request w = (Ok answer, w1) ->
  ur_status row = UsActive /\ wf (revocations w1) /\ links_match w1 /\
  forall token, token ∈ answer.2 -> exists issuer info auth_fn jwk level status t a, get_key_info issuer = Ok (info, auth_fn) /\
    is_wua params info jwk level status t a /\ tokenize auth_fn a = Some token /\ forall s, status = Some s -> status_of_unit id s w1.
Proof.
  intros Hww Hlm Hwf Hrow Hparams Hm Hmeth Hissue.
  pose proof (issue_step config id bearer_token request w Hww) as [_ (_ & _ & Hke)].
  pose proof (issue_wp config id bearer_token request w) as Hi. unfold wp in Hi. rewrite Hissue in Hi, Hke. cbn [snd atomic] in *.
  destruct Hi as (row' & params' & issuer & info & auth_fn & meth & now & ins & [Hrow' Hact Hparams' _ _] & Hinfo & _ & Hme & [_ _ Hw]).
  assert (row' = row) as -> by congruence. assert (params' = params) as -> by congruence. rewrite Hm in Hme. cbn in Hme. rewrite Hmeth in Hme. subst meth.
  split; [done|]. destruct Hw as (keys & keys' & w0 & Hkeys & [Hqu Hqk _ _ Hqr _ _ _] & Hprep & Hw).
  assert (Hlm0 : links_match w0) by (unfold links_match; by rewrite Hqr, Hqk).
  destruct Hw as [(_ & _ & -> & ->)|(t & wi & _ & Hui & Hla & Hwuas)]; [rewrite Hqr; split_and!; [done|done|by intros ? ?%elem_of_nil]|].
  destruct (links_added_match _ _ Hla Hlm0) as [Hlmi [ks Hks]]. rewrite Hqr in Hks.
  destruct (more_links_grow ks (revocations w) Hwf) as [Hwfi Hgi]. rewrite <- Hks in Hwfi, Hgi.
  destruct (prepared_new_ids _ _ _ _ _ _ _ _ Hprep) as [Hnd _].
  destruct (wuas_issued_links _ _ _ _ _ _ _ Hwuas Hwfi Hnd) as [Hlg Hall]. apply wuas_kept in Hwuas as Hkept.
  assert (Hlm1 : links_match w1) by (unfold links_match; by rewrite (lg_keys _ _ _ Hlg), (tk_keys _ _ Hkept)).
  split_and!; [apply Hlg|done|]. intros token [j Hj]%list_elem_of_lookup.
  destruct (Forall2_lookup_r _ _ _ _ _ Hall Hj) as (i & Hij & status & t' & a & Hwua & Htk & Hst).
  apply list_elem_of_lookup_2 in Hij as Hin. exists issuer, info, auth_fn, (ki_holder_jwk i), (ki_security_level i), status, t', a.
  split_and!; [done..|]. intros s Hs.
  assert (Hup : upserted keys' (key_rows w) (key_rows w1)).
  { pose proof (ui_keys _ _ _ _ _ _ Hui) as Hk. rewrite (tk_keys _ _ Hkept), <- Hqk. destruct ins; [by apply elem_of_nil in Hin|done]. }
  eapply (issued_key_linked id now _ keys keys' ins i s _ w wi w1); try done; [|by apply Hst].
  intros x Hx. rewrite Hks. cbn. apply elem_of_app. by left.
Qed.

Lemma issued_then_revoked (id : Z) (bearer_token : string) (request : IssueAttestationRequest) (answer : list string * list string)
  (row : UnitRow) (params : WalletProviderParams) (m : string) w w1 w2 :
  wallet_wf w -> links_match w -> wf (revocations w) ->
  find_unit id w = Some row -> get_wallet_provider_config_params config (ur_wallet_provider_name row) = Ok params ->
  wp_wua_revocation_method params = Some m -> attestation_method m = Some method ->
  issue_attestation config id bearer_token request w = (Ok answer, w1) -> (forall l, room (len (indices l (revocations w1)))) ->
  revoke_wallet_unit config id w1 = (Ok tt, w2) ->
  forall token, token ∈ answer.2 -> exists issuer info auth_fn jwk level status t a, get_key_info issuer = Ok (info, auth_fn) /\
    is_wua params info jwk level status t a /\ tokenize auth_fn a = Some token /\
    forall s, status = Some s -> exists lid idx, token_refers self s lid idx /\ slot_revoked lid idx (revocations w2).
Proof.
  intros Hww Hlm Hwf Hrow Hparams Hm Hmeth Hissue Hroom Hrevoke token Htok.
  pose proof (issue_step config id bearer_token request w Hww) as [Hww1 Hev]. rewrite Hissue in Hww1, Hev. cbn [snd] in *.
  destruct (issued_links id bearer_token request answer row params m w w1 Hww Hlm Hwf Hrow Hparams Hm Hmeth Hissue) as (Hact & Hwf1 & Hlm1 & Hall).
  destruct (Hall token Htok) as (issuer & info & auth_fn & jwk & level & status & t & a & Hinfo & Hwua & Htk & Hst).
  exists issuer, info, auth_fn, jwk, level, status, t, a. split_and!; [done..|]. intros s Hs.
  destruct (Hst s Hs) as (lid & idx & kr & eid & e & Href & Hkr & Hunit & Hlink & He & Heid & Hel & Hei). exists lid, idx. split; [done|].
  destruct (unit_after id row w w1 Hww1 Hev Hrow) as (row1 & Hfu & [_ (_ & _ & _ & Hprov & _) _ _]); [congruence|].
  assert (Hnd1 : NoDup (fst <$> attested_keys (revocations w1))) by (rewrite Hlm1; apply Hww1). rewrite <- Hprov in Hparams.
  destruct (revoke_reaches id m row1 params w1 w2 kr eid Hmeth Hfu Hparams Hm Hwf1 Hroom Hnd1 Hrevoke Hkr Hunit Hlink)
    as (e' & i' & He' & Heid' & Hei' & Hslot).
  assert (e' = e) as -> by (eapply (NoDup_fmap_inj_elem e_id); [apply (wf_entry_ids _ Hwf1)|done|done|congruence]).
  rewrite <- Hel. assert (i' = idx) as -> by congruence. exact Hslot.
Qed.
End reach.
