(* ===== verification/WalletTheorems.v ===== *)
(** * The theorems on the wallet provider

    What registration, activation, issuance and revocation of wallet units
    guarantee, over any sequence of calls, with examples that run the model. *)

From stdpp Require Import pretty.
From S2P Require Import Prelude StatusBits KeySelection RevocationRepo RevocationMethod BitstringMethod TokenMethod.
From S2P Require Import ListFilter Validity Paths Datatypes WalletStore WalletProvider WalletSpec WalletIssuance WalletLifecycle WalletRevocation.
#[local] Open Scope Z_scope.

(** ** Lemmas *)

Section lemmas.
Context {R : Type} `{KeyLinks R} `{UuidSupply} `{!UuidLaws} `{WalletClock} `{WalletCrypto} `{AttestationMethods R} `{X509}.
Implicit Types (w : WalletDb R).

(** A call fails and changes nothing. *)
Definition refused {A : Type} (w : WalletDb R) (out : res WalletProviderError A * WalletDb R) : Prop := is_ok out.1 = false /\ quiet w out.2.

(** Nothing moves a revoked unit. *)
Lemma revoked_refused (config : WalletConfig) (id : Z) (row : UnitRow) w : find_unit id w = Some row -> ur_status row = UsRevoked ->
  (forall request, refused w (activate_wallet_unit config id request w)) /\
  (forall bearer_token request, refused w (issue_attestation config id bearer_token request w)) /\
  refused w (revoke_wallet_unit config id w) /\ refused w (delete_wallet_unit id w).
Proof.
  intros Hrow Hrev. unfold refused. split; [|split; [|split]].
  - intros request. pose proof (activate_wp config id request w) as Hr. unfold wp in Hr.
    destruct (activate_wallet_unit config id request w) as [[[]|e|] w']; [| |done].
    + destruct Hr as (row' & ? & ? & ? & ? & ? & [Hrow' Hp _ _ _] & _). congruence.
    + destruct Hr as [Hq|(row' & ? & ? & ? & [Hrow' Hp _ _ _] & _)]; [done|]. congruence.
  - intros bearer_token request. pose proof (issue_wp config id bearer_token request w) as Hr. unfold wp in Hr.
    destruct (issue_attestation config id bearer_token request w) as [[answer|e|] w']; [|done|done].
    destruct Hr as (row' & ? & ? & ? & ? & ? & ? & ? & [Hrow' Ha _ _ _] & _). congruence.
  - pose proof (revoke_wp config id w) as Hr. unfold wp in Hr. destruct (revoke_wallet_unit config id w) as [r w'].
    destruct Hr as [(row' & ? & ? & ? & ? & ? & Hrow' & Ha & _)|[Ho Hq]]; [congruence|done].
  - pose proof (delete_wp id w) as Hr. unfold wp in Hr. destruct (delete_wallet_unit id w) as [[[]|e|] w']; [|by subst w'|done].
    destruct Hr as (row' & Hrow' & Hp & _). congruence.
Qed.

Lemma revoked_for_ever (id : Z) (row : UnitRow) w w' : wallet_wf w -> find_unit id w = Some row -> ur_status row = UsRevoked -> rtc wallet_step w w' ->
  exists row', find_unit id w' = Some row' /\ ur_status row' = UsRevoked.
Proof.
  intros Hwf Hrow Hrev Hsteps. destruct (wallet_steps_ok _ _ Hsteps Hwf) as [Hwf' Hev].
  destruct (unit_after id row w w' Hwf' Hev Hrow) as (row' & Hrow' & [_ _ Hst _]); [congruence|]. exists row'. split; [done|].
  rewrite Hrev in Hst. by apply status_revoked.
Qed.

(** The second of two requests for a new key reuses it before it has an entry. *)
Lemma repeated_inputs (unit_id now expiration : Z) (n n' : nat) (keys keys' : list AttestedKey) (jwk : string) (in1 in2 : AttestedKeyInput) :
  (forall k, k ∈ keys -> ak_public_key_jwk k <> jwk) ->
  prepared unit_id now expiration n keys [(jwk, in1); (jwk, in2)] n' keys' -> in2 = Reused None.
Proof.
  intros Hno Hp. inversion Hp as [|? ? ? ? ? ? ? ? He Hp'|? m ? ? ? ? ? Hm He key Hp']; subst.
  - apply extend_key_Some in He as (l & k & r & -> & Hk & _). destruct (Hno k); [set_solver|done].
  - inversion Hp' as [|? ? ? ? rev ? ? ? He' Hp''|? ? ? ? ? ? ? ? He' key' Hp'']; subst.
    + apply extend_key_Some in He' as (l & k & r & Hl & Hk & _ & ->).
      assert (Hin : k ∈ keys ++ [key]) by (rewrite Hl; set_solver). apply elem_of_snoc in Hin as [Hin| ->]; [by destruct (Hno k)|done].
    + destruct (extend_key_None _ _ _ _ He' key); [set_solver|done].
Qed.
End lemmas.

(** ** Recorded keys *)

Section recorded.
Context {R : Type} `{KeyLinks R} `{UuidSupply} `{!UuidLaws} `{WalletClock} `{WalletCrypto} `{AttestationMethods R} `{X509}.
Context (config : WalletConfig).
Implicit Types (w : WalletDb R).

(** Every key that was attested is on record for the unit until the attestation
    expires. *)
Definition keys_recorded (id : Z) (params : WalletProviderParams) (request : IssueAttestationRequest) w w' : Prop :=
  exists now, reading w w' now /\ forall r, r ∈ ir_wua request -> exists jwk row,
    possession_proved config (iw_proof r) (wp_device_auth_leeway params) jwk w w' /\ row ∈ key_rows w' /\ kw_wallet_unit_id row = id /\
    kw_public_key_jwk row = jwk /\ kw_expiration_date row = now + seconds (as_i64 (wp_wua_expiration_time params)).

Lemma prepared_ids (id now expiration : Z) (rel : option RevocationListRelations) (keys keys' : list AttestedKey) (ins : list (string * AttestedKeyInput))
  (n' : nat) w : wallet_wf w -> get_by_wallet_unit_id id rel w = Ok keys -> prepared id now expiration (wallet_ids w) keys ins n' keys' -> NoDup (ak_id <$> keys').
Proof.
  intros [_ Hwf] Hkeys (old & new & -> & Hold & Hnd & Hnew)%prepared_keys.
  assert (Hids : ak_id <$> old = kw_id <$> List.filter (fun k => kw_wallet_unit_id k =? id) (key_rows w)).
  { transitivity (ak_id <$> keys); [clear -Hold; induction Hold as [|? ? ? ? (Hi & _) _ IH]; [done|]; rewrite !fmap_cons; by rewrite Hi, IH|].
    apply try_map_ok in Hkeys. clear -Hkeys. induction Hkeys as [|row k l l' Hc _ IH]; [done|]. rewrite !fmap_cons, IH. f_equal.
    unfold convert_model in Hc. by apply res_bind_ok in Hc as (rev & _ & [= <-]). }
  rewrite fmap_app. apply NoDup_app. split_and!; [rewrite Hids; by apply NoDup_filter_fmap, Hwf| |done].
  intros x Hx (k & -> & Hk)%list_elem_of_fmap. rewrite Hids in Hx. apply list_elem_of_fmap in Hx as (row & Hid & [_ Hrow]%elem_of_filter_bool).
  destruct (wf_key_drawn _ _ _ Hwf row Hrow) as (m & Hm & Hidm). destruct (Hnew k Hk) as [(m' & Hm' & Hidm') _].
  assert (m = m') by (apply (inj uuid_at); congruence). lia.
Qed.

Lemma issue_records (id : Z) (bearer_token : string) (request : IssueAttestationRequest) (answer : list string * list string) w w' :
  wallet_wf w -> issuance_done config id bearer_token request w answer w' -> exists params, keys_recorded id params request w w'.
Proof.
  intros Hwf (row & params & issuer & info & auth_fn & method & now & ins & Hallow & Hinfo & Hnow & Hme & [_ Hmet Hw]). exists params, now.
  split; [done|]. destruct Hw as (keys & keys' & w0 & Hkeys & Hq & Hprep & Hw). intros r [j Hj]%list_elem_of_lookup.
  destruct (Forall2_lookup_l _ _ _ _ _ Hmet Hj) as (i & Hi & Hpos & _).
  destruct (prepared_inputs _ _ _ _ _ _ _ _ Hprep (ki_holder_jwk i) (ki_key i)) as (k & Hk & Hjw & Hexp & _).
  { apply list_elem_of_fmap. exists i. split; [done|by eapply list_elem_of_lookup_2]. }
  destruct Hw as [(_ & -> & _)|(t & w1 & _ & Hui & _ & Hwuas)]; [done|].
  assert (Hup : upserted keys' (key_rows w) (key_rows w')).
  { apply wuas_kept in Hwuas as Hkept. pose proof (ui_keys _ _ _ _ _ _ Hui) as Hup. rewrite (tk_keys _ _ Hkept), <- (q_keys _ _ Hq). by destruct ins. }
  destruct (up_have _ _ _ Hup) with (k := k) as (kr & Hkr & _ & Hun & Hj' & Hx); [by eapply prepared_ids|done|].
  exists (ki_holder_jwk i), kr. split_and!; [done|done| |congruence|congruence]. rewrite Hun. by eapply prepared_unit.
Qed.
End recorded.

(** ** The theorems *)

Section theorems.
Context {R : Type} `{KeyLinks R} `{UuidSupply} `{!UuidLaws} `{WalletClock} `{WalletCrypto} `{AttestationMethods R} `{X509}.
Implicit Types (w : WalletDb R).

(** C22: over any sequence of calls of the wallet provider, under any
    configuration and with any changes of organisations and revocation lists in
    between, the tables stay well formed (identifiers and authentication keys are
    unique, pending units have a nonce and no key, active ones a key, every
    attested key belongs to an active or revoked unit and a unit has one key for
    a JWK), a unit moves only from pending to active or error and from active to
    revoked, keeps its key once it has one, disappears only while pending and
    never comes back, attested keys are never removed, and a revoked unit gets no
    new ones. *)
Theorem wallet_lifecycle w w' : wallet_wf w -> rtc wallet_step w w' -> wallet_wf w' /\ wallet_evolves w w'.
Proof. intros Hwf Hsteps. by apply wallet_steps_ok. Qed.

(** C23: an activation returns only for a pending unit of a configured provider,
    in time, with an attestation of the platform for the nonce of the unit, a
    proof over the nonce by the attested key, and the key that the unit gets is
    the attested one or one that signed the nonce itself; no other unit of the
    organisation has that key. It then changes only this unit, to active, and
    adds to the history. A failed activation changes nothing, or moves the unit
    to error because it is too late or the attestation is not valid. *)
Theorem activation_correct (config : WalletConfig) (id : Z) (request : WalletUnitActivationRequest) w :
  match activate_wallet_unit config id request w with
  | (Ok _, w') => exists row nonce params jwk issued t, activable config id row nonce params w /\
      activation_proved config request row nonce params jwk w w' /\ reading w w' issued /\ reading w w' t /\
      quiet (unit_set id (updated_unit t (mkUpdateWalletUnit (Some UsActive) (Some issued) (Some jwk) None)) HaActivated w) w' /\
      (forall other, other ∈ units w -> ur_id other <> id -> same_auth_key (Some jwk) (ur_organisation_id row) other = false)
  | (Err e, w') => activation_failed config id request e w w'
  | (Panic, _) => False
  end.
Proof.
  pose proof (activate_wp config id request w) as Hr. unfold wp in Hr. by destruct (activate_wallet_unit config id request w) as [[]].
Qed.

(** C24: an issuance of attestations is all or nothing. When it returns, the unit
    is active, its provider is set up, and the caller has signed with the key of
    the unit; every attestation is signed by the provider for a key whose
    possession was proved, with the requested security level and the status of
    its entry, and every attested key is on record until the attestation
    expires. Otherwise no table has changed. *)
Theorem issuance_correct (config : WalletConfig) (id : Z) (bearer_token : string) (request : IssueAttestationRequest) w : wallet_wf w ->
  match issue_attestation config id bearer_token request w with
  | (Ok answer, w') => issuance_done config id bearer_token request w answer w' /\ exists params, keys_recorded config id params request w w'
  | (_, w') => quiet w w'
  end.
Proof.
  intros Hwf. pose proof (issue_wp config id bearer_token request w) as Hr. unfold wp in Hr.
  destruct (issue_attestation config id bearer_token request w) as [[answer|e|] w']; [|done|done].
  split; [done|]. by eapply issue_records.
Qed.

(** Revocation is final: whatever is called afterwards, every activation,
    issuance, revocation and deletion of the unit fails without an effect. *)
Theorem revocation_final (id : Z) (row : UnitRow) w w' : wallet_wf w -> find_unit id w = Some row -> ur_status row = UsRevoked ->
  rtc wallet_step w w' -> forall config,
  (forall request, refused w' (activate_wallet_unit config id request w')) /\
  (forall bearer_token request, refused w' (issue_attestation config id bearer_token request w')) /\
  refused w' (revoke_wallet_unit config id w') /\ refused w' (delete_wallet_unit id w').
Proof.
  intros Hwf Hrow Hrev Hsteps config. destruct (revoked_for_ever id row w w' Hwf Hrow Hrev Hsteps) as (row' & Hrow' & Hrev').
  by apply (revoked_refused config id row').
Qed.

(** Two requests for one new key in one call: the second attestation carries
    no status, although a revocation method is configured, so it cannot be
    revoked. *)
Theorem repeated_key_unrevocable (config : WalletConfig) (id : Z) (bearer_token jwk wua1 wua2 : string) (request : IssueAttestationRequest)
  (r1 r2 : IssueWuaRequest) (t1 t2 : ProofJwt) (wias : list string) w w' :
  ir_wua request = [r1; r2] -> decompose_token (iw_proof r1) = Some t1 -> decompose_token (iw_proof r2) = Some t2 ->
  pj_jwk t1 = Some jwk -> pj_jwk t2 = Some jwk -> (forall k, k ∈ key_rows w -> kw_wallet_unit_id k = id -> kw_public_key_jwk k <> jwk) ->
  issue_attestation config id bearer_token request w = (Ok (wias, [wua1; wua2]), w') ->
  exists params info auth_fn t a, is_wua params info jwk (iw_security_level r2) None t a /\ tokenize auth_fn a = Some wua2.
Proof.
  intros Hreq Hd1 Hd2 Hj1 Hj2 Hno Hissue. pose proof (issue_wp config id bearer_token request w) as Hr. unfold wp in Hr. rewrite Hissue in Hr.
  destruct Hr as (row & params & issuer & info & auth_fn & method & now & ins & _ & _ & _ & _ & [_ Hmet Hw]). rewrite Hreq in Hmet.
  apply Forall2_cons_inv_l in Hmet as (i1 & ins1 & [Hp1 _] & Hmet & ->). apply Forall2_cons_inv_l in Hmet as (i2 & ins2 & [Hp2 Hlev] & Hmet & ->).
  apply Forall2_nil_inv_l in Hmet as ->. destruct Hp1 as (t1' & ? & Hd1' & Hj1' & _), Hp2 as (t2' & ? & Hd2' & Hj2' & _).
  destruct Hw as (keys & keys' & w0 & Hkeys & _ & Hprep & [(_ & [=] & _)|(t & w1 & _ & _ & _ & Hwuas)]).
  assert (Hr2 : ki_key i2 = Reused None).
  { cbn in Hprep. unfold input_pair in Hprep. assert (ki_holder_jwk i1 = jwk) as Hk1 by congruence. assert (ki_holder_jwk i2 = jwk) as Hk2 by congruence.
    rewrite Hk1, Hk2 in Hprep. eapply repeated_inputs; [|exact Hprep]. intros k Hk Hjk.
    destruct (load_keys_unit _ _ _ _ _ Hkeys Hk) as (_ & kr & Hkr & Hu & _ & Hj). by apply (Hno kr Hkr Hu); congruence. }
  inversion Hwuas as [|? wa ? ? ? ? ? _ _ Hrest]; subst. inversion Hrest as [|? wb ? ? ? ? ? _ (st & tm & a & Hst & _ & Hwua & Htok) _]; subst.
  exists params, info, auth_fn, tm, a. unfold status_given in Hst. rewrite Hr2 in Hst.
  assert (st = None) as -> by (destruct method; by destruct Hst). split; [|done].
  assert (ki_holder_jwk i2 = jwk) as <- by congruence. by rewrite <- Hlev.
Qed.
End theorems.

(** ** With token status lists *)

Section token.
Context `{UuidSupply} `{!UuidLaws} `{StatusProviders} `{X509} `{BV : BitVec V} `{!BitVecLaws V} `{SC : StatusCodec} `{!StatusCodecLaws}.
Context `{WalletClock} `{WalletCrypto} `{AttestationMethods Db}.
Implicit Types (w : WalletDb Db).

(** C21: from the issuance to the revocation, with the token status list method:
    when a unit is revoked after an issuance, every key attestation of that
    issuance that carries a status names the index of an entry that is revoked
    now, in a list that is published with that state. *)
Theorem revocation_end_to_end (config : WalletConfig) (self : TokenStatusList) (order : list (RevocationList * list Z) -> list (RevocationList * list Z))
  (id : Z) (bearer_token : string) (request : IssueAttestationRequest) (answer : list string * list string)
  (row : UnitRow) (params : WalletProviderParams) (m : string) w w1 w2 :
  (forall l, order l ≡ₚ l) -> wallet_wf w -> links_match w -> wf (revocations w) ->
  find_unit id w = Some row -> get_wallet_provider_config_params config (ur_wallet_provider_name row) = Ok params ->
  wp_wua_revocation_method params = Some m -> attestation_method m = Some (token_attestations (V := V) self order) ->
  issue_attestation config id bearer_token request w = (Ok answer, w1) -> (forall l, room (len (indices l (revocations w1)))) ->
  revoke_wallet_unit config id w1 = (Ok tt, w2) ->
  forall token, token ∈ answer.2 -> exists issuer info auth_fn jwk level status t a, get_key_info issuer = Ok (info, auth_fn) /\
    is_wua params info jwk level status t a /\ tokenize auth_fn a = Some token /\
    forall s, status = Some s -> exists lid idx, token_refers self s lid idx /\ slot_revoked (V := V) self lid idx (revocations w2).
Proof. intros Horder. by apply issued_then_revoked. Qed.

(** A revocation that fails after it has marked the unit, in the update of
    the status entries, leaves every entry as it was, and no later call can
    revoke the unit again: its attestations stay valid. *)
Theorem failed_revocation_is_final (config : WalletConfig) (self : TokenStatusList) (order : list (RevocationList * list Z) -> list (RevocationList * list Z))
  (id : Z) (e : WalletProviderError) (row row' : UnitRow) (params : WalletProviderParams) (m : string) w w' :
  (forall l, order l ≡ₚ l) -> wallet_wf w -> wf (revocations w) -> (forall l, room (len (indices l (revocations w)))) ->
  find_unit id w = Some row -> ur_status row = UsActive -> get_wallet_provider_config_params config (ur_wallet_provider_name row) = Ok params ->
  wp_wua_revocation_method params = Some m -> attestation_method m = Some (token_attestations (V := V) self order) ->
  revoke_wallet_unit config id w = (Err e, w') -> find_unit id w' = Some row' -> ur_status row' = UsRevoked ->
  revocations w' = revocations w /\ forall w'', rtc wallet_step w' w'' -> forall config', refused w'' (revoke_wallet_unit config' id w'').
Proof.
  intros Horder Hww Hwf Hroom Hrow Hact Hparams Hm Hmeth Hrev Hrow' Hst'. pose proof (revoke_wp config id w) as Hr. unfold wp in Hr. rewrite Hrev in Hr.
  pose proof (revoke_step config id w Hww) as [Hww' _]. rewrite Hrev in Hww'. cbn [snd] in Hww'. split.
  - destruct Hr as [(row0 & params0 & keys & t & r & s & Hrow0 & _ & Hparams0 & _ & _ & Hent & <- & Hq)|[_ Hq]]; [|apply Hq].
    rewrite (q_revocations _ _ Hq). cbn [revocations set_revocations]. assert (row0 = row) as -> by congruence.
    assert (params0 = params) as -> by congruence. unfold entries_update in Hent. rewrite Hm, Hmeth in Hent.
    destruct (omap ak_revocation keys) as [|rv rvs]; [done|]. cbn [am_update_attestation_entries token_attestations] in Hent.
    pose proof (attestation_update_spec (V := V) self order ((fun r => (kr_list r, kr_index r)) <$> rv :: rvs) Revoked (revocations w) Horder Hwf Hroom) as Hu.
    destruct (update_attestation_entries _ _ _ _ (revocations w)) as [[[]|e'|] d']; [done| |done]. injection Hent as _ <-. done.
  - intros w'' Hsteps config'. destruct (revoked_for_ever id row' w' w'' Hww' Hrow' Hst' Hsteps) as (row'' & Hrow'' & Hst'').
    by apply (revoked_refused config' id row'' w'').
Qed.
End token.

(** ** An example *)

Module WalletExample.
Export Concrete RepoWitness.
#[export] Existing Instance TokenWitness.providers.
#[export] Existing Instance TokenWitness.x509.

(** A key is its JWK, and a proof is the JWK of the key that signed it. *)
#[export] Instance clock : WalletClock := {| clock_at n := seconds (Z.of_nat n); nonce_at n := ("nonce" ++ pretty n)%string |}.
#[export] Instance crypto : WalletCrypto := {|
  KeyHandle := string; Signer := unit;
  decompose_token s := Some (mkProofJwt "ES256" (Some s) None (Some 0) (Some (seconds 1000000)) (Some ["https://core.example"%string])
                               (Some "nonce0"%string) s []);
  known_jose_alg a := String.eqb a "ES256";
  alg_parse_jwk _ := Some;
  any_parse_jwk := Some;
  verify_signature key message _ := String.eqb key message;
  webauthn_signed_jwt_to_msg_and_sig _ := None;
  public_key_as_jwk := Some;
  validate_attestation_ios _ _ _ := None;
  validate_attestation_android chain _ _ := head chain;
  wallet_signer _ _ := Some tt;
  storage_key_handle _ := Some "provider key"%string;
  pem_chain_into_x5c _ := None;
  jose_alg _ := Some "ES256"%string;
  signer_key_id _ := None;
  tokenize _ a := Some (aj_type a ++ match aj_custom a with WiaClaims _ _ _ => "" | WuaClaims _ k _ _ => k end)%string;
  hash_base64 := Some;
  parse_url := Some;
  find_identifier id := Ok (if id =? 7 then Some RepoWitness.issuer else None)
|}.

Definition self : TokenStatusList := TokenWitness.self.
#[export] Instance methods : AttestationMethods Db :=
  {| attestation_method m := if String.eqb m "TOKEN" then Some (token_attestations (V := vec) self (fun l => l)) else None |}.

Definition params : WalletProviderParams :=
  mkWalletProviderParams "Wallet" "https://wallet.example" "client" 3600
    (mkIntegrityCheck (Some (mkAndroidBundle "app" [] [])) None true 300) 86400 (Some "TOKEN"%string) 60 None.
Definition config : WalletConfig :=
  mkWalletConfig {["PROVIDER"%string := mkWalletProviderFields true (Some params)]} {["TOKEN"%string := RtTokenStatusList]}
    (Some "https://core.example"%string).
Definition org : WalletOrganisation := mkWalletOrganisation 1 None (Some "PROVIDER"%string) (Some 7).

(** An Android wallet registers, and activates with the key "k0". *)
Definition start : WalletDb Db := mkWalletDb [] [] [org] [] TokenWitness.db 0 0 0.
Definition registration : RegisterWalletUnitRequest := mkRegisterRequest "PROVIDER" Android None None.
Definition pending : WalletDb Db := (register_wallet_unit config registration start).2.
Definition activation : WalletUnitActivationRequest := mkActivationRequest ["attested"%string] "attested" (Some "k0"%string).
Definition active : WalletDb Db := (activate_wallet_unit config 1 activation pending).2.

Lemma start_wf : wallet_wf start.
Proof. split; constructor; cbn; try constructor; try (intros ? ?%elem_of_nil; done). all: intros ? ? ?%elem_of_nil; done. Qed.

Lemma active_steps : rtc wallet_step start active.
Proof. eapply rtc_l; [apply (StepRegister start config registration)|]. apply rtc_once. apply (StepActivate pending config 1 activation). Qed.

Lemma active_wf : wallet_wf active.
Proof. by eapply wallet_steps_ok; [apply active_steps|apply start_wf]. Qed.

Definition request : IssueAttestationRequest := mkIssueRequest ["i"%string] [mkIssueWua "a" LevelHigh; mkIssueWua "b" LevelBasic].
Definition issued : WalletDb Db := (issue_attestation config 1 "k0" request active).2.
Definition revoked : WalletDb Db := (revoke_wallet_unit config 1 issued).2.

Example active_links_example : ur_status <$> units active = [UsActive] /\ attested_keys (revocations issued) = [(2, Some 2); (3, Some 4)].
Proof. vm_compute. done. Qed.

Lemma issued_room (l : Z) : room (len (indices l (revocations issued))).
Proof.
  left. destruct (Z.eq_dec l 1) as [->|Hne]; [vm_compute; discriminate|].
  assert (indices l (revocations issued) = []) as ->; [|vm_compute; discriminate].
  unfold indices, entries_of. vm_compute (entries (revocations issued)). cbn. destruct l as [|[]|]; done.
Qed.

Lemma issued_step : wallet_step active issued.
Proof. exact (StepIssue active config 1 "k0" request). Qed.
Lemma revoked_step : wallet_step issued revoked.
Proof. exact (StepRevoke issued config 1). Qed.

Lemma issued_wf : wallet_wf issued.
Proof. exact (proj1 (wallet_step_ok _ _ issued_step active_wf)). Qed.

Definition answer : list string * list string :=
  (["oauth-client-attestation+jwt"], ["key-attestation+jwta"; "key-attestation+jwtb"])%string.
Lemma issued_runs : issue_attestation config 1 "k0" request active = (Ok answer, issued).
Proof. vm_compute. reflexivity. Qed.

Definition row_in (w : WalletDb Db) : UnitRow := default (mkUnitRow 0 0 0 None "" Web UsError "" None None 0) (find_unit 1 w).

Lemma active_row : find_unit 1 active = Some (row_in active).
Proof. vm_compute. reflexivity. Qed.
Lemma active_links : links_match active.
Proof. vm_compute. reflexivity. Qed.
Lemma active_params : get_wallet_provider_config_params config (ur_wallet_provider_name (row_in active)) = Ok params.
Proof. vm_compute. reflexivity. Qed.

Lemma token_method : attestation_method "TOKEN" = Some (token_attestations (V := vec) self (fun l => l)).
Proof. reflexivity. Qed.

Lemma issued_db_wf : wf (revocations issued).
Proof.
  apply (issued_links (V := vec) config self (fun l => l) (fun l => Permutation_refl l) 1 "k0" request answer (row_in active) params "TOKEN" active issued active_wf active_links
    TokenWitness.db_wf active_row active_params eq_refl token_method issued_runs).
Qed.

(** The service forgets its address: the list cannot be published. *)
Definition broken : TokenStatusList := mkTokenStatusList "STATUS_LIST" None FJwt.
Definition broken_methods : AttestationMethods Db := {| attestation_method _ := Some (token_attestations (V := vec) broken (fun l => l)) |}.
Lemma broken_method : attestation_method (AttestationMethods := broken_methods) "TOKEN" = Some (token_attestations (V := vec) broken (fun l => l)).
Proof. reflexivity. Qed.
Definition half_revoked : WalletDb Db := (revoke_wallet_unit (H3 := broken_methods) config 1 issued).2.
Definition half_error : WalletProviderError :=
  match (revoke_wallet_unit (H3 := broken_methods) config 1 issued).1 with Err e => e | _ => WpMappingError end.
End WalletExample.
Import WalletExample.

Lemma wallet_lifecycle_witness : wallet_wf revoked /\ wallet_evolves start revoked.
Proof.
  apply (wallet_lifecycle start revoked); [apply start_wf|]. etrans; [apply active_steps|].
  exact (rtc_l _ _ _ _ issued_step (rtc_once _ _ revoked_step)).
Defined.

Lemma issuance_correct_witness :
  match issue_attestation config 1 "k0" request active with
  | (Ok answer, w') => issuance_done config 1 "k0" request active answer w' /\ exists params, keys_recorded config 1 params request active w'
  | (_, w') => quiet active w'
  end.
Proof. apply (issuance_correct config 1 "k0" request active), active_wf. Defined.

Lemma revocation_final_witness : refused revoked (revoke_wallet_unit config 1 revoked).
Proof.
  refine (proj1 (proj2 (proj2 (revocation_final 1 (row_in revoked) revoked revoked _ _ _ _ config)))).
  - exact (proj1 (wallet_step_ok _ _ revoked_step issued_wf)).
  - vm_compute. reflexivity.
  - vm_compute. reflexivity.
  - apply rtc_refl.
Defined.

Lemma repeated_key_unrevocable_witness :
  exists params info auth_fn t a, is_wua params info "a" LevelHigh None t a /\ tokenize auth_fn a = Some "key-attestation+jwta"%string.
Proof.
  set (twice := mkIssueRequest [] [mkIssueWua "a" LevelBasic; mkIssueWua "a" LevelHigh]).
  refine (repeated_key_unrevocable config 1 "k0" "a" "key-attestation+jwta" "key-attestation+jwta" twice (mkIssueWua "a" LevelBasic) (mkIssueWua "a" LevelHigh)
    _ _ [] active (issue_attestation config 1 "k0" twice active).2 eq_refl eq_refl eq_refl eq_refl eq_refl _ _).
  - vm_compute (key_rows active). by intros k ?%elem_of_nil.
  - vm_compute. reflexivity.
Defined.

Lemma revocation_end_to_end_witness :
  exists issuer info auth_fn jwk level status t a, get_key_info issuer = Ok (info, auth_fn) /\
    is_wua params info jwk level status t a /\ tokenize auth_fn a = Some "key-attestation+jwta"%string /\
    forall s, status = Some s -> exists lid idx, token_refers self s lid idx /\ slot_revoked (V := vec) self lid idx (revocations revoked).
Proof.
  refine (revocation_end_to_end config self (fun l => l) 1 "k0" request answer (row_in active) params "TOKEN" active issued revoked
    (fun l => Permutation_refl l) active_wf active_links TokenWitness.db_wf active_row active_params eq_refl token_method issued_runs issued_room _ _ _).
  - rewrite (surjective_pairing (revoke_wallet_unit config 1 issued)). apply (f_equal2 pair); [vm_compute; reflexivity|reflexivity].
  - left.
Defined.

Lemma failed_revocation_is_final_witness : revocations half_revoked = revocations issued.
Proof.
  refine (proj1 (failed_revocation_is_final (H6 := broken_methods) config broken (fun l => l) 1
    half_error (row_in issued) (row_in half_revoked) params "TOKEN" issued half_revoked (fun l => Permutation_refl l) issued_wf issued_db_wf issued_room _ _ _ eq_refl broken_method _ _ _)).
  - vm_compute. reflexivity.
  - vm_compute. reflexivity.
  - vm_compute. reflexivity.
  - assert (He : (revoke_wallet_unit (H3 := broken_methods) config 1 issued).1 = Err half_error) by (vm_compute; reflexivity).
    exact (eq_trans (surjective_pairing _) (f_equal2 pair He eq_refl)).
  - vm_compute. reflexivity.
  - vm_compute. reflexivity.
Defined.
