(* ===== verification/SdValue.v ===== *)
(** * JSON values and credential claims

    The values an SD-JWT carries ([serde_json::Value]), the claims the
    formatters hand out ([CredentialClaim] of credential_formatter/model.rs),
    the conversions between them (credential_formatter/mapper.rs) and the
    errors of the formatters. A map, ordered by key in [serde_json] and hashed
    in the claims, is the list of its members in the order of their keys, so
    that equal maps are equal lists. *)

From S2P Require Import Prelude.
From Stdlib Require Import Ascii String OrdersEx Sorted.
#[local] Notation length := Datatypes.length.

(** ** Values *)

Inductive Value :=
| VNull
| VBool (b : bool)
| VNumber (n : string)
| VString (s : string)
| VArray (l : list Value)
| VObject (m : list (string * Value)).

Inductive CredentialClaim : Set :=
| mkCredentialClaim (selectively_disclosable metadata : bool) (value : CredentialClaimValue)
with CredentialClaimValue : Set :=
| CBool (b : bool)
| CNumber (n : string)
| CString (s : string)
| CArray (l : list CredentialClaim)
| CObject (m : list (string * CredentialClaim)).

Definition claim_value (c : CredentialClaim) : CredentialClaimValue :=
  let 'mkCredentialClaim _ _ v := c in v.

(** The reasons a formatter gives in the message of its error. *)
Inductive FormatReason :=
| NullValue
| InvalidNesting
| InvalidArrayIndex
| IndexOutOfBounds
| InvalidKeyAlgorithm
| MissingDid
| MissingKey.

Inductive ExtractReason :=
| MissingJwtPart
| MissingKeyBindingToken
| InvalidCredentialFormat
| NoPayloadForHash
| InvalidSdHash
| MissingIat
| IssuedInTheFuture
| MissingAud
| InvalidAud
| InvalidNonce
| InvalidHashAlgorithm
| InvalidJwksUrl
| EmptyJwkList
| X5cNotSupported
| MissingIssuer
| MissingSubjectOfVc
| ClaimsNotObject
| VcNotFound
| VcNotObject
| MissingCredentialSubject
| EmptyCredentialSubject
| SubjectNotObject
| SubjectNotArrayOrObject
| IdNotUrlString.

Inductive FormatterError :=
| CouldNotFormat (reason : FormatReason)
| CouldNotExtractCredentials (reason : ExtractReason)
| JsonMapping
| JsonSerialization
| EncodingError
| HasherError
| FromUtf8Error
| UrlError
| UnsupportedIdentifierType
| NestedFormatterError.

(** ** Maps *)

Definition key_lt (a b : string) : Prop := String.compare a b = Lt.

Section maps.
Context {A : Type}.
Implicit Types (m : list (string * A)) (k : string).

Fixpoint map_get k m : option A :=
  match m with
  | [] => None
  | (k', a) :: m => if decide (k = k') then Some a else map_get k m
  end.

Fixpoint map_insert k (a : A) m : list (string * A) :=
  match m with
  | [] => [(k, a)]
  | (k', a') :: m =>
      match String.compare k k' with
      | Lt => (k, a) :: (k', a') :: m
      | Eq => (k, a) :: m
      | Gt => (k', a') :: map_insert k a m
      end
  end.

Definition map_remove k m : list (string * A) := List.filter (fun e => negb (String.eqb (fst e) k)) m.

(** [map.extend(entries)]. *)
Definition map_extend m (entries : list (string * A)) : list (string * A) :=
  foldl (fun m e => map_insert (fst e) (snd e) m) m entries.

(** The members are in the order of their keys. *)
Definition map_ok m : Prop := StronglySorted key_lt m.*1.
End maps.

(** ** Conversions *)

Definition is_null (v : Value) : bool := match v with VNull => true | _ => false end.

(** [impl TryFrom<Value> for CredentialClaimValue]; the members of an object
    that are null are left out. *)
Fixpoint claim_value_try_from (value : Value) : res FormatterError CredentialClaimValue :=
  match value with
  | VNull => Err (CouldNotFormat NullValue)
  | VBool b => Ok (CBool b)
  | VNumber n => Ok (CNumber n)
  | VString s => Ok (CString s)
  | VArray values =>
      values ← try_map (fun v => c ← claim_value_try_from v; Ok (mkCredentialClaim false false c)) values;
      Ok (CArray values)
  | VObject values =>
      values ← try_map (fun '(k, v) =>
        if is_null v then Ok None
        else c ← claim_value_try_from v; Ok (Some (k, mkCredentialClaim false false c))) values;
      Ok (CObject (omap id values))
  end.

(** [impl TryFrom<Value> for CredentialClaim]. *)
Definition claim_try_from (value : Value) : res FormatterError CredentialClaim :=
  c ← claim_value_try_from value; Ok (mkCredentialClaim false false c).

(** [impl From<CredentialClaimValue> for Value] and [impl From<CredentialClaim> for Value]. *)
Fixpoint value_from_claim_value (c : CredentialClaimValue) : Value :=
  match c with
  | CBool b => VBool b
  | CNumber n => VNumber n
  | CString s => VString s
  | CArray l => VArray (map value_from_claim l)
  | CObject m => VObject (map (fun '(k, c) => (k, value_from_claim c)) m)
  end
with value_from_claim (c : CredentialClaim) : Value :=
  let 'mkCredentialClaim _ _ v := c in value_from_claim_value v.

Definition as_array (v : Value) : option (list Value) := match v with VArray l => Some l | _ => None end.
Definition as_object (v : Value) : option (list (string * Value)) := match v with VObject m => Some m | _ => None end.
Definition as_str (v : Value) : option string := match v with VString s => Some s | _ => None end.

Definition claim_as_array (v : CredentialClaimValue) : option (list CredentialClaim) :=
  match v with CArray l => Some l | _ => None end.
Definition claim_as_object (v : CredentialClaimValue) : option (list (string * CredentialClaim)) :=
  match v with CObject m => Some m | _ => None end.
Definition claim_as_str (v : CredentialClaimValue) : option string :=
  match v with CString s => Some s | _ => None end.

(** ** Lemmas on maps *)

#[export] Instance key_lt_irrefl : Irreflexive key_lt.
Proof. intros a Ha. apply (StrictOrder_Irreflexive (R := String_as_OT.lt) a). exact Ha. Qed.

#[export] Instance key_lt_trans : Transitive key_lt.
Proof. intros a b c. apply (StrictOrder_Transitive (R := String_as_OT.lt) a b c). Qed.

Lemma key_compare_gt (a b : string) : String.compare a b = Gt -> key_lt b a.
Proof. unfold key_lt. rewrite String.compare_antisym. by destruct (String.compare b a). Qed.

Lemma key_lt_self (a : string) : key_lt a a -> False.
Proof. apply (irreflexivity key_lt). Qed.

Lemma key_lt_ne (a b : string) : key_lt a b -> a <> b.
Proof. intros Hlt ->. by apply key_lt_self in Hlt. Qed.

Section map_lemmas.
Context {A : Type}.
Implicit Types (m : list (string * A)) (k : string).

Lemma map_ok_cons k (a : A) m : map_ok ((k, a) :: m) <-> map_ok m /\ forall k' a', (k', a') ∈ m -> key_lt k k'.
Proof.
  unfold map_ok. rewrite fmap_cons. split.
  - intros [Hs Hf]%StronglySorted_inv. split; [done|]. intros k' a' Hin.
    eapply Forall_forall in Hf; [exact Hf|]. apply list_elem_of_fmap. by exists (k', a').
  - intros [Hs Hf]. constructor; [done|]. apply Forall_forall. intros k' ([k'' a'] & -> & Hin)%list_elem_of_fmap. eauto.
Qed.

Lemma map_get_elem k (a : A) m : map_get k m = Some a -> (k, a) ∈ m.
Proof.
  induction m as [|[k' a'] m IH]; [done|]. cbn [map_get]. case_decide as Hk; [|right; auto].
  intros [= ->]. subst. left.
Qed.

Lemma map_elem_get k (a : A) m : map_ok m -> (k, a) ∈ m -> map_get k m = Some a.
Proof.
  induction m as [|[k' a'] m IH]; intros Hok; [by intros ?%not_elem_of_nil|]. apply map_ok_cons in Hok as [Hok Hlt].
  cbn [map_get]. intros [[= -> ->]|Hin]%elem_of_cons; [by rewrite decide_True|].
  rewrite decide_False; [auto|]. intros ->. by apply Hlt, key_lt_self in Hin.
Qed.

Lemma map_get_None k m : map_get k m = None <-> forall a, (k, a) ∉ m.
Proof.
  split.
  - intros Hk a Hin. induction m as [|[k' a'] m IH]; [by apply not_elem_of_nil in Hin|]. cbn [map_get] in Hk.
    case_decide; [done|]. apply elem_of_cons in Hin as [[= -> ->]|]; auto.
  - intros Hk. destruct (map_get k m) as [a|] eqn:Hg; [|done]. by apply map_get_elem, Hk in Hg.
Qed.

Lemma map_ext m1 m2 : map_ok m1 -> map_ok m2 -> (forall k, map_get k m1 = map_get k m2) -> m1 = m2.
Proof.
  revert m2. induction m1 as [|[k a] m1 IH]; intros [|[k' a'] m2] Hok1 Hok2 Hg; [done| | |].
  { specialize (Hg k'). cbn [map_get] in Hg. by rewrite decide_True in Hg. }
  { specialize (Hg k). cbn [map_get] in Hg. by rewrite decide_True in Hg. }
  pose proof Hok1 as [Hm1 Hlt1]%map_ok_cons. pose proof Hok2 as [Hm2 Hlt2]%map_ok_cons.
  assert (k = k') as <-.
  { pose proof (Hg k) as H1. pose proof (Hg k') as H2. cbn [map_get] in H1, H2.
    rewrite (decide_True (P := k = k)) in H1 by done. rewrite (decide_True (P := k' = k')) in H2 by done.
    destruct (decide (k = k')) as [|Hne]; [done|]. rewrite decide_False in H2 by done.
    symmetry in H1. apply map_get_elem in H1, H2. apply Hlt2 in H1. apply Hlt1 in H2.
    exfalso. apply (key_lt_self k). by trans k'. }
  pose proof (Hg k) as H1. cbn [map_get] in H1. rewrite !decide_True in H1 by done. injection H1 as <-. f_equal.
  apply IH; [done..|]. intros q. destruct (decide (q = k)) as [->|Hq].
  - trans (@None A); [|symmetry]; apply map_get_None; intros b Hb.
    + by apply Hlt1, key_lt_self in Hb.
    + by apply Hlt2, key_lt_self in Hb.
  - specialize (Hg q). cbn [map_get] in Hg. by rewrite !decide_False in Hg by done.
Qed.

Lemma map_insert_elem k (a : A) m k' a' :
  (k', a') ∈ map_insert k a m -> (k' = k /\ a' = a) \/ (k', a') ∈ m.
Proof.
  induction m as [|[q b] m IH]; cbn [map_insert].
  - intros [= -> ->]%list_elem_of_singleton. by left.
  - destruct (String.compare k q).
    + intros [[= -> ->]|]%elem_of_cons; [by left|right; by right].
    + intros [[= -> ->]|]%elem_of_cons; [by left|by right].
    + intros [[= -> ->]|[|]%IH]%elem_of_cons; [right; left|by left|right; by right].
Qed.

Lemma map_insert_ok k (a : A) m : map_ok m -> map_ok (map_insert k a m).
Proof.
  induction m as [|[q b] m IH]; cbn [map_insert]; intros Hok.
  { apply map_ok_cons. split; [done|]. by intros ?? ?%not_elem_of_nil. }
  pose proof Hok as [Hm Hlt]%map_ok_cons. destruct (String.compare k q) eqn:Hc.
  - apply String.compare_eq_iff in Hc as ->. by apply map_ok_cons.
  - apply map_ok_cons. split; [done|]. intros k' a' [[= -> ->]|Hin]%elem_of_cons; [done|].
    apply Hlt in Hin. by trans q.
  - apply map_ok_cons. split; [auto|]. intros k' a' [[-> ->]|Hin]%map_insert_elem; [by apply key_compare_gt|eauto].
Qed.

Lemma map_get_insert k (a : A) m k' : map_ok m ->
  map_get k' (map_insert k a m) = if decide (k' = k) then Some a else map_get k' m.
Proof.
  induction m as [|[q b] m IH]; cbn [map_insert]; intros Hok; [done|].
  pose proof Hok as [Hm Hlt]%map_ok_cons. destruct (String.compare k q) eqn:Hc; cbn [map_get].
  - apply String.compare_eq_iff in Hc as ->. by destruct (decide (k' = q)).
  - done.
  - rewrite IH by done. apply key_compare_gt, key_lt_ne in Hc. repeat case_decide; congruence.
Qed.

Lemma map_remove_ok k m : map_ok m -> map_ok (map_remove k m).
Proof.
  unfold map_remove. induction m as [|[q b] m IH]; intros Hok; [done|]. cbn [List.filter fst].
  apply map_ok_cons in Hok as [Hm Hlt]. destruct (negb _); [|auto]. apply map_ok_cons. split; [auto|].
  intros k' a' [_ Hin]%elem_of_filter_bool. eauto.
Qed.

Lemma map_remove_none k m : map_get k m = None -> map_remove k m = m.
Proof.
  intros Hk. apply filter_all. intros [q b] Hin. cbn [fst]. apply negb_true_iff, String.eqb_neq. intros ->.
  by eapply map_get_None in Hk.
Qed.

Lemma map_remove_insert k (a : A) m : map_get k m = None -> map_remove k (map_insert k a m) = m.
Proof.
  intros Hk. induction m as [|[q b] m IH]; cbn [map_insert].
  { unfold map_remove. cbn. by rewrite String.eqb_refl. }
  pose proof Hk as Hr%map_remove_none. cbn [map_get] in Hk. case_decide as Hq; [done|].
  destruct (String.compare k q) eqn:Hc.
  - by apply String.compare_eq_iff in Hc.
  - unfold map_remove in *. cbn [List.filter fst] in *. rewrite String.eqb_refl. exact Hr.
  - unfold map_remove in *. cbn [List.filter fst]. rewrite (proj2 (String.eqb_neq q k)) by congruence.
    cbn [negb]. f_equal. auto.
Qed.

Lemma map_extend_ok m l : map_ok m -> map_ok (map_extend m l).
Proof.
  unfold map_extend. revert m. induction l as [|[k a] l IH]; intros m Hm; [done|]. cbn [foldl fst snd].
  by apply IH, map_insert_ok.
Qed.

Lemma map_get_extend m l k : map_ok m -> NoDup l.*1 ->
  map_get k (map_extend m l) = match map_get k l with Some a => Some a | None => map_get k m end.
Proof.
  unfold map_extend. revert m. induction l as [|[q a] l IH]; intros m Hm Hnd; [done|].
  cbn [foldl fst snd map_get]. rewrite fmap_cons in Hnd. apply NoDup_cons in Hnd as [Hq Hnd].
  rewrite IH by (done || by apply map_insert_ok). rewrite map_get_insert by done.
  destruct (decide (k = q)) as [->|]; [|done].
  assert (map_get q l = None) as ->; [|done]. apply map_get_None. intros b Hb. apply Hq.
  apply list_elem_of_fmap. by exists (q, b).
Qed.

Lemma map_ok_NoDup m : map_ok m -> NoDup m.*1.
Proof.
  induction m as [|[k a] m IH]; intros Hok; [constructor|]. apply map_ok_cons in Hok as [Hm Hlt].
  rewrite fmap_cons. apply NoDup_cons. split; [|auto]. intros ([k' a'] & Hk & Hin)%list_elem_of_fmap.
  cbn in Hk. subst k'. by apply Hlt, key_lt_self in Hin.
Qed.

Lemma map_extend_get_eq m l l' : map_ok m -> NoDup l.*1 -> NoDup l'.*1 ->
  (forall k, map_get k l = map_get k l') -> map_extend m l = map_extend m l'.
Proof.
  intros Hm Hl Hl' Hg. apply map_ext; [by apply map_extend_ok..|]. intros k.
  by rewrite !map_get_extend, Hg by done.
Qed.

Lemma map_get_perm (l l' : list (string * A)) k : NoDup l.*1 -> l ≡ₚ l' -> map_get k l = map_get k l'.
Proof.
  intros Hnd Hp. destruct (map_get k l') as [a|] eqn:Hk.
  - apply map_get_elem in Hk. rewrite <- Hp in Hk. destruct (map_get k l) as [a'|] eqn:Hl.
    + apply map_get_elem in Hl. f_equal. assert ((k, a') = (k, a)) as [= ->]; [|done].
      by eapply (NoDup_fmap_inj_elem fst).
    + by eapply map_get_None in Hl.
  - apply map_get_None. intros a Ha. rewrite Hp in Ha. by eapply map_get_None in Hk.
Qed.

(** Inserting the members of a map, in any order, builds the map. *)
Lemma map_extend_perm m l : map_ok m -> l ≡ₚ m -> map_extend [] l = m.
Proof.
  intros Hm Hp. assert (NoDup l.*1) as Hnd by (rewrite Hp; by apply map_ok_NoDup).
  apply map_ext; [by apply map_extend_ok; constructor|done|]. intros k. rewrite map_get_extend by (done || constructor).
  rewrite (map_get_perm l m) by done. by destruct (map_get k m).
Qed.
End map_lemmas.

(** ** Induction on values *)

Section value_induction.
Variable P : Value -> Prop.
Hypothesis P_null : P VNull.
Hypothesis P_bool : forall b, P (VBool b).
Hypothesis P_number : forall n, P (VNumber n).
Hypothesis P_string : forall s, P (VString s).
Hypothesis P_array : forall l, (forall v, v ∈ l -> P v) -> P (VArray l).
Hypothesis P_object : forall m, (forall k v, (k, v) ∈ m -> P v) -> P (VObject m).

Fixpoint value_rec (v : Value) : P v.
Proof.
  destruct v as [| | | |l|m]; [apply P_null|apply P_bool|apply P_number|apply P_string| |].
  - apply P_array. apply Forall_forall. induction l as [|v l IH]; constructor; [apply value_rec|exact IH].
  - apply P_object. intros k v Hin.
    assert (Forall (fun e => P (snd e)) m) as Hm.
    { clear Hin. induction m as [|[k' v'] m IH]; constructor; [apply value_rec|exact IH]. }
    eapply Forall_forall in Hm; [|exact Hin]. exact Hm.
Defined.
End value_induction.
