(* ===== verification/SdDisclosures.v ===== *)
(** * SD-JWT disclosures

    The disclosures of an SD-JWT (credential_formatter/sdjwt/disclosures.rs):
    the issuer computes one for every claim and every array element
    ([compute_object_disclosures]), the holder selects those of the claims it
    presents ([select_disclosures]) and the verifier puts the claims back in
    place of the digests ([recursively_expand_disclosures]). The recursion
    that follows digests has the depth of the call stack as its bound. *)

From S2P Require Import Prelude Paths SdValue.
From Stdlib Require Import Ascii String.
#[local] Notation length := Datatypes.length.

(** ** Other crates *)

(** [Base64UrlSafeNoPadding], [serde_json] on the disclosure arrays, and the
    random salts in the order they are drawn. *)
Class SdCodec := {
  b64url_encode : string -> option string;
  b64url_decode : string -> option string;
  value_to_string : Value -> string;
  disclosure_array_from_str : string -> option (string * string * Value);
  disclosure_array_element_from_str : string -> option (string * Value);
  salt_at : nat -> string
}.

(** [Hasher]. *)
Class Hasher := { hash_base64_url : string -> option string }.

(** ** Data *)

Record Disclosure := mkDisclosure {
  d_salt : string;
  d_key : option string;
  d_value : Value;
  d_array : string;
  d_text : string
}.

Definition SELECTIVE_DISCLOSURE_MARKER : string := "_sd".
Definition SELECTIVE_DISCLOSURE_ARRAY_MARKER : string := "...".

(** [String::from_utf8]: the byte sequences it accepts. *)
Definition byte_in (lo hi : N) (a : ascii) : bool := (lo <=? N_of_ascii a)%N && (N_of_ascii a <=? hi)%N.
Definition continuation (a : ascii) : bool := byte_in 128 191 a.
Definition second_byte (a b : ascii) : bool :=
  if byte_in 224 224 a then byte_in 160 191 b
  else if byte_in 237 237 a then byte_in 128 159 b
  else if byte_in 240 240 a then byte_in 144 191 b
  else if byte_in 244 244 a then byte_in 128 143 b
  else continuation b.
Fixpoint utf8_valid (s : string) : bool :=
  match s with
  | EmptyString => true
  | String a s1 =>
      if byte_in 0 127 a then utf8_valid s1
      else match s1 with
           | EmptyString => false
           | String b s2 =>
               if byte_in 194 223 a then continuation b && utf8_valid s2
               else match s2 with
                    | EmptyString => false
                    | String c s3 =>
                        if byte_in 224 239 a then second_byte a b && continuation c && utf8_valid s3
                        else match s3 with
                             | EmptyString => false
                             | String d s4 =>
                                 byte_in 240 244 a && second_byte a b && continuation c && continuation d
                                   && utf8_valid s4
                             end
                    end
           end
  end.

Section disclosures.
Context `{SdCodec} `{Hasher}.

Definition encode (s : string) : res FormatterError string := ok_or (b64url_encode s) EncodingError.
Definition hash (s : string) : res FormatterError string := ok_or (hash_base64_url s) HasherError.

(** ** Issuing *)

Definition generate_salt : M nat FormatterError string := fun n => (Ok (salt_at n), S n).

Definition compute_disclosure_for (key : string) (value : Value) : M nat FormatterError string :=
  salt ← generate_salt;
  lift (encode (value_to_string (VArray [VString salt; VString key; value]))).

Definition compute_disclosure_for_array_element (value : Value) : M nat FormatterError string :=
  salt ← generate_salt;
  lift (encode (value_to_string (VArray [VString salt; value]))).

Definition nested_sd (hashes : list string) : Value :=
  VObject [(SELECTIVE_DISCLOSURE_MARKER, VArray (VString <$> hashes))].
Definition sd_element (sd_hash : string) : Value := VObject [(SELECTIVE_DISCLOSURE_ARRAY_MARKER, VString sd_hash)].

(** The loop over the members of an object or the elements of an array:
    [step] returns the disclosures of one of them, its own last, and its
    digest. *)
Fixpoint disclose_each {A : Type} (step : A -> M nat FormatterError (list string * string))
  (disclosures digests : list string) (l : list A) : M nat FormatterError (list string * list string) :=
  match l with
  | [] => mret (disclosures, digests)
  | a :: l => r ← step a; disclose_each step (disclosures ++ fst r) (digests ++ [snd r]) l
  end.

Fixpoint compute_object_disclosures (sd_array_elements : bool) (value : Value) {struct value} :
  M nat FormatterError (list string * list string) :=
  match value with
  | VObject object =>
      disclose_each (fun '(key, value) =>
        nested ← match sd_array_elements, value with
                 | _, VObject _ =>
                     r ← compute_object_disclosures sd_array_elements value;
                     mret (fst r, nested_sd (snd r))
                 | true, VArray _ =>
                     r ← compute_array_disclosures value;
                     mret (fst r, VArray (sd_element <$> snd r))
                 | _, _ => mret ([], value)
                 end;
        disclosure ← compute_disclosure_for key (snd nested);
        hashed_disclosure ← lift (hash disclosure);
        mret (fst nested ++ [disclosure], hashed_disclosure)) [] [] object
  | _ => throw JsonMapping
  end
with compute_array_disclosures (value : Value) {struct value} :
  M nat FormatterError (list string * list string) :=
  match value with
  | VArray array =>
      disclose_each (fun value =>
        nested ← match value with
                 | VObject _ =>
                     r ← compute_object_disclosures true value;
                     mret (fst r, nested_sd (snd r))
                 | VArray _ =>
                     r ← compute_array_disclosures value;
                     mret (fst r, VArray (sd_element <$> snd r))
                 | _ => mret ([], value)
                 end;
        disclosure ← compute_disclosure_for_array_element (snd nested);
        hashed_disclosure ← lift (hash disclosure);
        mret (fst nested ++ [disclosure], hashed_disclosure)) [] [] array
  | _ => throw JsonMapping
  end.

(** ** Reading *)

Definition parse_disclosure (disclosure_array disclosure : string) : res FormatterError Disclosure :=
  match disclosure_array_from_str disclosure_array with
  | Some (salt, key, value) => Ok (mkDisclosure salt (Some key) value disclosure_array disclosure)
  | None =>
      r ← ok_or (disclosure_array_element_from_str disclosure_array) JsonSerialization;
      Ok (mkDisclosure (fst r) None (snd r) disclosure_array disclosure)
  end.

Definition hash_disclosure_array (d : Disclosure) : res FormatterError string := hash (d_array d).
Definition hash_disclosure (d : Disclosure) : res FormatterError string := hash (d_text d).

Definition compute_digests (disclosures : list Disclosure) : res FormatterError (gmap string Disclosure) :=
  try_fold (fun digests disclosure =>
    old ← hash_disclosure_array disclosure;
    current ← hash_disclosure disclosure;
    Ok (<[current := disclosure]> (<[old := disclosure]> digests))) ∅ disclosures.

(** ** Selecting *)

Definition array_element_disclosure (element : Value) (all_digests : gmap string Disclosure) : option Disclosure :=
  match as_object element with
  | Some child_object =>
      if Nat.eqb (length child_object) 1 then
        sd_hash ← map_get SELECTIVE_DISCLOSURE_ARRAY_MARKER child_object ≫= as_str;
        all_digests !! sd_hash
      else None
  | None => None
  end.

Definition sd_hashes (claims : list (string * Value)) : list string :=
  match map_get SELECTIVE_DISCLOSURE_MARKER claims with
  | Some sd => omap as_str (default [] (as_array sd))
  | None => []
  end.

(** [depth] bounds the depth of the call stack. *)
Fixpoint collect_all_subdisclosures (depth : nat) (claim : Value) (all_digests : gmap string Disclosure) :
  res FormatterError (list string) :=
  match depth with
  | O => Panic
  | S depth =>
      match claim with
      | VNull | VBool _ | VNumber _ | VString _ => Ok []
      | VArray elements =>
          r ← try_map (fun element =>
            match array_element_disclosure element all_digests with
            | None => Ok []
            | Some disclosure =>
                sub ← collect_all_subdisclosures depth (d_value disclosure) all_digests;
                Ok (d_text disclosure :: sub)
            end) elements;
          Ok (List.concat r)
      | VObject claims =>
          r ← try_map (fun disclosure =>
            sub ← collect_all_subdisclosures depth (d_value disclosure) all_digests;
            Ok (sub ++ [d_text disclosure]))
            (omap (fun hash => all_digests !! hash) (sd_hashes claims));
          Ok (List.concat r)
      end
  end.

(** The walk along the segments of a disclosed key: the disclosures on the
    way and the node it ends at, or [None] when the key names no claim. *)
Fixpoint walk_key (current_node : Value) (key_parts : list string) (all_digests : gmap string Disclosure)
  (result : gset string) : res FormatterError (gset string * option Value) :=
  match key_parts with
  | [] => Ok (result, Some current_node)
  | key_part :: key_parts =>
      match current_node with
      | VNull | VBool _ | VNumber _ | VString _ => Err (CouldNotFormat InvalidNesting)
      | VArray claims =>
          index ← ok_or (usize_from_str key_part) (CouldNotFormat InvalidArrayIndex);
          child ← ok_or (claims !! Z.to_nat index) (CouldNotFormat IndexOutOfBounds);
          match array_element_disclosure child all_digests with
          | Some disclosure =>
              walk_key (d_value disclosure) key_parts all_digests ({[d_text disclosure]} ∪ result)
          | None => walk_key child key_parts all_digests result
          end
      | VObject claims =>
          match map_get key_part claims with
          | Some child => walk_key child key_parts all_digests result
          | None =>
              match List.find (fun d => bool_decide (d_key d = Some key_part))
                      (omap (fun hash => all_digests !! hash) (sd_hashes claims)) with
              | Some disclosure =>
                  walk_key (d_value disclosure) key_parts all_digests ({[d_text disclosure]} ∪ result)
              | None => Ok (result, None)
              end
          end
      end
  end.

(** [paths_to_leafs] of mapper/mod.rs. *)
Definition str_ge (a b : string) : bool := match String.compare a b with Lt => false | _ => true end.
Definition paths_to_leafs `{HashOrder} (presented_paths : list string) : list string :=
  hash_order string (elements (foldl (fun (leafs : gset string) key =>
    if existsb (starts_with (key ++ marker_str)) (elements leafs) then leafs else {[key]} ∪ leafs)
    ∅ (sort_by str_ge presented_paths))).

Definition select_disclosures `{HashOrder} (depth : nat) (disclosed_keys : list string) (token_payload : Value)
  (all_disclosures : list Disclosure) : res FormatterError (list string) :=
  all_digests ← compute_digests all_disclosures;
  result ← try_fold (fun result disclosed_key =>
    r ← walk_key token_payload (split_on marker disclosed_key) all_digests result;
    match snd r with
    | Some current_node =>
        sub ← collect_all_subdisclosures depth current_node all_digests;
        Ok (list_to_set sub ∪ fst r)
    | None => Ok (fst r)
    end) (∅ : gset string) (paths_to_leafs disclosed_keys);
  Ok (hash_order string (elements result)).

(** ** Expanding *)

(** A disclosure with its two hashes. *)
Definition HashedDisclosure : Type := Disclosure * (string * string).
Definition has_hash (hash : string) (d : HashedDisclosure) : bool :=
  bool_decide (hash = fst (snd d)) || bool_decide (hash = snd (snd d)).

Definition disclosed_claim (d : Disclosure) : res FormatterError CredentialClaim :=
  value ← claim_value_try_from (d_value d);
  Ok (mkCredentialClaim true false value).

Definition gather_disclosures_from_sd (disclosures : list HashedDisclosure) (sd_hashes : list string) :
  res FormatterError (list (string * CredentialClaim)) :=
  try_fold (fun result hash =>
    match List.find (has_hash hash) disclosures with
    | Some (disclosure, _) =>
        credential_claim ← disclosed_claim disclosure;
        Ok match d_key disclosure with
           | Some key => map_insert key credential_claim result
           | None => result
           end
    | None => Ok result
    end) [] sd_hashes.

Definition gather_object_sd_hashes (claims : list (string * CredentialClaim)) : list string :=
  match map_get SELECTIVE_DISCLOSURE_MARKER claims with
  | Some sd => omap (fun h => claim_as_str (claim_value h)) (default [] (claim_as_array (claim_value sd)))
  | None => []
  end.

Definition gather_insertables_from_object (disclosures : list HashedDisclosure)
  (map : list (string * CredentialClaim)) : res FormatterError (list (string * CredentialClaim)) :=
  let sd_hashes := gather_object_sd_hashes map in
  if negb (bool_decide (sd_hashes = [])) then gather_disclosures_from_sd disclosures sd_hashes else Ok [].

(** The hash of an array element that stands for a disclosure. *)
Definition element_hash (claim : CredentialClaim) : option string :=
  match claim_as_object (claim_value claim) with
  | Some obj =>
      if Nat.eqb (length obj) 1 then
        map_get SELECTIVE_DISCLOSURE_ARRAY_MARKER obj ≫= (fun c => claim_as_str (claim_value c))
      else None
  | None => None
  end.

Definition expand_array_elements_in_place (disclosures : list HashedDisclosure) (array : list CredentialClaim) :
  res FormatterError (list CredentialClaim) :=
  try_map (fun claim =>
    match element_hash claim with
    | Some sd_hash =>
        match List.find (has_hash sd_hash) disclosures with
        | Some (disclosure, _) => disclosed_claim disclosure
        | None => Ok claim
        end
    | None => Ok claim
    end) array.

Fixpoint recursively_expand_disclosures (depth : nat) (disclosures : list HashedDisclosure)
  (claims : CredentialClaim) : res FormatterError CredentialClaim :=
  match depth with
  | O => Panic
  | S depth =>
      let 'mkCredentialClaim sd metadata value := claims in
      match value with
      | CObject map =>
          values ← gather_insertables_from_object disclosures map;
          let map := map_extend (map_remove SELECTIVE_DISCLOSURE_MARKER map) values in
          map ← try_map (fun '(k, v) =>
            v ← recursively_expand_disclosures depth disclosures v; Ok (k, v)) map;
          Ok (mkCredentialClaim sd metadata (CObject map))
      | CArray array =>
          array ← expand_array_elements_in_place disclosures array;
          array ← try_map (recursively_expand_disclosures depth disclosures) array;
          Ok (mkCredentialClaim sd metadata (CArray array))
      | _ => Ok claims
      end
  end.
End disclosures.
