(* ===== verification/SdTree.v ===== *)
(** * Trees of disclosures

    What the payload of an SD-JWT stands for: a tree in which a member of an
    object or an element of an array is either present or replaced by the
    digest of its disclosure. The functions of [SdDisclosures] on payloads are
    related to functions on trees: the conversion to claims, the expansion,
    the collection below a node and the walk along a key. *)

From S2P Require Import Prelude Paths SdValue SdDisclosures.
From Stdlib Require Import Ascii String.
#[local] Notation length := Datatypes.length.

(** ** Trees *)

Inductive SdTree :=
| TLeaf (v : Value)
| TObject (plain : list (string * SdTree)) (sd : option (list (Disclosure * SdTree)))
| TArray (elems : list (option Disclosure * SdTree)).

Section tree_induction.
Variable P : SdTree -> Prop.
Hypothesis P_leaf : forall v, P (TLeaf v).
Hypothesis P_object : forall plain sd,
  (forall k t, (k, t) ∈ plain -> P t) -> (forall d t, (d, t) ∈ default [] sd -> P t) -> P (TObject plain sd).
Hypothesis P_array : forall elems, (forall od t, (od, t) ∈ elems -> P t) -> P (TArray elems).

Fixpoint tree_rec (t : SdTree) : P t.
Proof.
  assert (forall (A : Type) (l : list (A * SdTree)),
    Forall (fun e => P (snd e)) l -> forall a t, (a, t) ∈ l -> P t) as Hall.
  { intros A l Hl a s Hin. rewrite Forall_forall in Hl. exact (Hl _ Hin). }
  destruct t as [v|plain sd|elems]; [apply P_leaf| |].
  - apply P_object; apply Hall.
    + induction plain as [|[k s] plain IH]; constructor; [apply tree_rec|exact IH].
    + destruct sd as [hs|]; [|constructor]. simpl.
      induction hs as [|[d s] hs IH]; constructor; [apply tree_rec|exact IH].
  - apply P_array; apply Hall.
    induction elems as [|[od s] elems IH]; constructor; [apply tree_rec|exact IH].
Defined.
End tree_induction.

(** The disclosures of a tree, those below a node before its own. *)
Definition of_option {A : Type} (o : option A) : list A := match o with Some a => [a] | None => [] end.
Fixpoint nodes (t : SdTree) : list Disclosure :=
  match t with
  | TLeaf _ => []
  | TObject plain sd =>
      flat_map (fun '(_, t) => nodes t) plain ++
      match sd with Some hs => flat_map (fun '(d, t) => nodes t ++ [d]) hs | None => [] end
  | TArray elems => flat_map (fun '(od, t) => nodes t ++ of_option od) elems
  end.

(** The height of a tree, leaves included; an array element that stands for
    a disclosure is an object with a string. *)
Fixpoint value_height (v : Value) : nat :=
  match v with
  | VArray l => S (list_max (map value_height l))
  | VObject m => S (list_max (map (fun '(_, v) => value_height v) m))
  | _ => 1
  end.
Fixpoint height (t : SdTree) : nat :=
  match t with
  | TLeaf v => value_height v
  | TObject plain sd =>
      S (max (list_max (map (fun '(_, t) => height t) plain))
             match sd with Some hs => list_max (map (fun '(_, t) => height t) hs) | None => 0 end)
  | TArray elems => S (max 2 (list_max (map (fun '(_, t) => height t) elems)))
  end.

(** No key of the value is one of the markers. *)
Fixpoint markerless (v : Value) : bool :=
  match v with
  | VArray l => forallb markerless l
  | VObject m =>
      forallb (fun '(k, v) => negb (String.eqb k SELECTIVE_DISCLOSURE_MARKER) &&
                              negb (String.eqb k SELECTIVE_DISCLOSURE_ARRAY_MARKER) && markerless v) m
  | _ => true
  end.

(** Credentials issued by older versions have the hash of the array of a
    disclosure as its digest. *)
Class DigestStyle := { legacy : bool }.

Section trees.
Context `{Hasher} `{DigestStyle}.

Definition digest (s : string) : string := default EmptyString (hash_base64_url s).

Definition d_digest (d : Disclosure) : string := digest (if legacy then d_array d else d_text d).

(** The JSON value of a tree. *)
Fixpoint payload (t : SdTree) : Value :=
  match t with
  | TLeaf v => v
  | TObject plain sd =>
      let members := map (fun '(k, t) => (k, payload t)) plain in
      VObject match sd with
              | Some hs => map_insert SELECTIVE_DISCLOSURE_MARKER
                             (VArray (map (fun '(d, _) => VString (d_digest d)) hs)) members
              | None => members
              end
  | TArray elems =>
      VArray (map (fun '(od, t) => match od with Some d => sd_element (d_digest d) | None => payload t end) elems)
  end.

(** The claims of the value, before any disclosure is expanded. *)
Definition plain_claim (v : CredentialClaimValue) : CredentialClaim := mkCredentialClaim false false v.
Definition leaf_claim (v : Value) : CredentialClaimValue :=
  match claim_value_try_from v with Ok c => c | _ => CBool false end.
Definition sealed_element (h : string) : CredentialClaim :=
  plain_claim (CObject [(SELECTIVE_DISCLOSURE_ARRAY_MARKER, plain_claim (CString h))]).
Definition sd_claim (hs : list (Disclosure * SdTree)) : CredentialClaim :=
  plain_claim (CArray (map (fun '(d, _) => plain_claim (CString (d_digest d))) hs)).
Fixpoint enclosed (t : SdTree) : CredentialClaimValue :=
  match t with
  | TLeaf v => leaf_claim v
  | TObject plain sd =>
      let members := map (fun '(k, t) => (k, plain_claim (enclosed t))) plain in
      CObject match sd with
              | Some hs => map_insert SELECTIVE_DISCLOSURE_MARKER (sd_claim hs) members
              | None => members
              end
  | TArray elems =>
      CArray (map (fun '(od, t) => match od with
                                   | Some d => sealed_element (d_digest d)
                                   | None => plain_claim (enclosed t)
                                   end) elems)
  end.

(** The claims shown when the disclosures that satisfy [vis] are known. *)
Definition shown_claim (v : CredentialClaimValue) : CredentialClaim := mkCredentialClaim true false v.
Definition key_of (d : Disclosure) : string := default EmptyString (d_key d).
Fixpoint reveal (vis : Disclosure -> bool) (t : SdTree) : CredentialClaimValue :=
  match t with
  | TLeaf v => leaf_claim v
  | TObject plain sd =>
      CObject (map_extend (map (fun '(k, t) => (k, plain_claim (reveal vis t))) plain)
        match sd with
        | Some hs => flat_map (fun '(d, t) => if vis d then [(key_of d, shown_claim (reveal vis t))] else []) hs
        | None => []
        end)
  | TArray elems =>
      CArray (map (fun '(od, t) => match od with
                                   | Some d => if vis d then shown_claim (reveal vis t) else sealed_element (d_digest d)
                                   | None => plain_claim (reveal vis t)
                                   end) elems)
  end.

(** What a tree has to satisfy: its leaves can be converted and hold no
    marker, its disclosures have the payload below them as their value, and
    the names of the members of an object are distinct. *)
Inductive wf_tree : SdTree -> Prop :=
| wf_leaf v : markerless v = true -> is_ok (claim_value_try_from v) = true -> wf_tree (TLeaf v)
| wf_object plain sd :
    map_ok plain ->
    (forall k t, (k, t) ∈ plain ->
       wf_tree t /\ k <> SELECTIVE_DISCLOSURE_MARKER /\ k <> SELECTIVE_DISCLOSURE_ARRAY_MARKER) ->
    (forall d t, (d, t) ∈ default [] sd -> wf_tree t /\ is_Some (d_key d) /\ d_value d = payload t) ->
    NoDup (plain.*1 ++ (key_of ∘ fst <$> default [] sd)) ->
    wf_tree (TObject plain sd)
| wf_array elems :
    (forall od t, (od, t) ∈ elems -> wf_tree t /\ forall d, od = Some d -> d_value d = payload t) ->
    wf_tree (TArray elems).
End trees.

(** ** Conversion to claims *)

Lemma try_map_all_ok {E A B : Type} (f : A -> res E B) (g : A -> B) (l : list A) :
  (forall x, x ∈ l -> f x = Ok (g x)) -> try_map f l = Ok (map g l).
Proof.
  induction l as [|x l IH]; intros Hf; [done|]. cbn [try_map map]. rewrite (Hf x) by left. cbn.
  rewrite IH; [done|]. intros y Hy. apply Hf. by right.
Qed.

Lemma try_map_map {E A B C : Type} (f : B -> res E C) (h : A -> B) (l : list A) :
  try_map f (map h l) = try_map (fun x => f (h x)) l.
Proof. induction l as [|x l IH]; [done|]. cbn [try_map map]. by rewrite IH. Qed.

Lemma map_insert_map {A B : Type} (f : A -> B) (k : string) (a : A) (m : list (string * A)) :
  map (fun '(k, a) => (k, f a)) (map_insert k a m) = map_insert k (f a) (map (fun '(k, a) => (k, f a)) m).
Proof.
  induction m as [|[q b] m IH]; [done|]. cbn [map_insert map]. destruct (String.compare k q); [done..|].
  cbn [map]. by rewrite IH.
Qed.

Lemma map_extend_map {A B : Type} (f : A -> B) (m l : list (string * A)) :
  map (fun '(k, a) => (k, f a)) (map_extend m l) =
  map_extend (map (fun '(k, a) => (k, f a)) m) (map (fun '(k, a) => (k, f a)) l).
Proof.
  unfold map_extend. revert m. induction l as [|[k a] l IH]; intros m; [done|]. cbn [foldl map fst snd].
  by rewrite IH, map_insert_map.
Qed.

Lemma map_keys {A B : Type} (f : A -> B) (m : list (string * A)) : (map (fun '(k, a) => (k, f a)) m).*1 = m.*1.
Proof. induction m as [|[k a] m IH]; [done|]. cbn. f_equal. exact IH. Qed.

Lemma map_ok_map {A B : Type} (f : A -> B) (m : list (string * A)) :
  map_ok m -> map_ok (map (fun '(k, a) => (k, f a)) m).
Proof. unfold map_ok. by rewrite map_keys. Qed.

Lemma map_get_map {A B : Type} (f : A -> B) (k : string) (m : list (string * A)) :
  map_get k (map (fun '(k, a) => (k, f a)) m) = f <$> map_get k m.
Proof. induction m as [|[q a] m IH]; [done|]. cbn [map map_get]. by case_decide. Qed.

Lemma leaf_claim_ok (v : Value) : is_ok (claim_value_try_from v) = true -> claim_value_try_from v = Ok (leaf_claim v).
Proof. unfold leaf_claim. by destruct (claim_value_try_from v). Qed.

Lemma convert_array (l : list Value) : (forall v, v ∈ l -> is_ok (claim_value_try_from v) = true) ->
  claim_value_try_from (VArray l) = Ok (CArray (map (fun v => plain_claim (leaf_claim v)) l)).
Proof.
  intros Hl. cbn [claim_value_try_from]. erewrite try_map_all_ok; [done|]. intros v Hv. cbn beta.
  by rewrite leaf_claim_ok by auto.
Qed.

Lemma omap_id_some {A B : Type} (f : A -> B) (l : list A) : omap id (map (fun x => Some (f x)) l) = map f l.
Proof. induction l as [|x l IH]; [done|]. cbn. f_equal. exact IH. Qed.

Lemma convert_object (m : list (string * Value)) :
  (forall k v, (k, v) ∈ m -> is_ok (claim_value_try_from v) = true) ->
  claim_value_try_from (VObject m) = Ok (CObject (map (fun '(k, v) => (k, plain_claim (leaf_claim v))) m)).
Proof.
  intros Hm. cbn [claim_value_try_from].
  rewrite (try_map_all_ok _ (fun x => Some (let '(k, v) := x in (k, plain_claim (leaf_claim v))))).
  - cbn. rewrite (omap_id_some (fun '(k, v) => (k, plain_claim (leaf_claim v)))). done.
  - intros [k v] Hin. specialize (Hm k v Hin). assert (is_null v = false) as -> by (by destruct v).
    by rewrite leaf_claim_ok.
Qed.

Section tree_lemmas.
Context `{Hasher} `{DigestStyle}.

Lemma convert (t : SdTree) : wf_tree t -> claim_value_try_from (payload t) = Ok (enclosed t).
Proof.
  assert (forall t, claim_value_try_from (payload t) = Ok (enclosed t) -> leaf_claim (payload t) = enclosed t) as Hl.
  { intros s Hs. unfold leaf_claim. by rewrite Hs. }
  induction t as [v|plain sd IHp IHs|elems IH] using tree_rec; intros Hwf; inversion Hwf as [? Hm Hok|? ? Hmap Hp Hs Hnd|? He]; subst.
  - by apply leaf_claim_ok.
  - assert (forall k v, (k, v) ∈ map (fun '(k, t) => (k, payload t)) plain -> is_ok (claim_value_try_from v) = true) as Hplain.
    { intros k v ([q t] & [= -> ->] & Hin)%list_elem_of_fmap. by rewrite (IHp q t Hin (proj1 (Hp q t Hin))). }
    assert (map (fun '(k, v) => (k, plain_claim (leaf_claim v))) (map (fun '(k, t) => (k, payload t)) plain) =
            map (fun '(k, t) => (k, plain_claim (enclosed t))) plain) as Heq.
    { rewrite List.map_map. apply List.map_ext_in. intros [k t] Hin%list_elem_of_In.
      by rewrite (Hl t) by (eapply IHp; [done|apply (Hp k t Hin)]). }
    destruct sd as [hs|]; cbn [payload enclosed].
    + rewrite convert_object.
      * rewrite (map_insert_map (fun v => plain_claim (leaf_claim v))), Heq.
        unfold leaf_claim at 1. rewrite convert_array.
        -- unfold sd_claim. rewrite List.map_map. do 5 f_equal. apply List.map_ext. by intros [d s].
        -- by intros v ([d s] & -> & _)%list_elem_of_fmap.
      * intros k v [[-> ->]|Hin]%map_insert_elem; [|eauto].
        rewrite convert_array; [done|]. by intros v ([d s] & -> & _)%list_elem_of_fmap.
    + by rewrite convert_object, Heq by done.
  - cbn [payload enclosed]. rewrite convert_array.
    + rewrite List.map_map. do 2 f_equal. apply List.map_ext_in. intros [[d|] t] Hin%list_elem_of_In; [done|].
      by rewrite (Hl t) by (eapply IH; [done|apply (He None t Hin)]).
    + intros v ([[d|] t] & -> & Hin)%list_elem_of_fmap; [done|].
      by rewrite (IH None t Hin (proj1 (He None t Hin))).
Qed.
End tree_lemmas.

(** ** Expansion *)

Section expansion.
Context `{Hasher} `{DigestStyle}.

Lemma list_max_elem (n : nat) (l : list nat) : n ∈ l -> (n <= list_max l)%nat.
Proof.
  intros Hn. assert (Forall (fun k => (k <= list_max l)%nat) l) as Hf by (by apply List.list_max_le).
  rewrite Forall_forall in Hf. auto.
Qed.

Lemma height_plain (k : string) (t : SdTree) plain sd : (k, t) ∈ plain -> (height t < height (TObject plain sd))%nat.
Proof.
  intros Hin. cbn [height]. apply Nat.lt_succ_r. etrans; [|apply Nat.le_max_l]. apply list_max_elem.
  apply list_elem_of_fmap. by exists (k, t).
Qed.

Lemma height_hidden (d : Disclosure) (t : SdTree) plain hs :
  (d, t) ∈ hs -> (height t < height (TObject plain (Some hs)))%nat.
Proof.
  intros Hin. cbn [height]. apply Nat.lt_succ_r. etrans; [|apply Nat.le_max_r]. apply list_max_elem.
  apply list_elem_of_fmap. by exists (d, t).
Qed.

Lemma height_elem (od : option Disclosure) (t : SdTree) elems :
  (od, t) ∈ elems -> (height t < height (TArray elems))%nat.
Proof.
  intros Hin. cbn [height]. apply Nat.lt_succ_r. etrans; [|apply Nat.le_max_r].
  apply list_max_elem, list_elem_of_fmap. by exists (od, t).
Qed.

Lemma value_height_elem (v : Value) l : v ∈ l -> (value_height v < value_height (VArray l))%nat.
Proof. intros Hin. cbn [value_height]. apply Nat.lt_succ_r, list_max_elem, list_elem_of_fmap. by exists v. Qed.

Lemma value_height_member (k : string) (v : Value) m : (k, v) ∈ m -> (value_height v < value_height (VObject m))%nat.
Proof. intros Hin. cbn [value_height]. apply Nat.lt_succ_r, list_max_elem, list_elem_of_fmap. by exists (k, v). Qed.

Lemma markerless_member (m : list (string * Value)) k v : markerless (VObject m) = true -> (k, v) ∈ m ->
  k <> SELECTIVE_DISCLOSURE_MARKER /\ k <> SELECTIVE_DISCLOSURE_ARRAY_MARKER /\ markerless v = true.
Proof.
  cbn [markerless]. rewrite List.forallb_forall. intros Hm Hin%list_elem_of_In. specialize (Hm _ Hin). cbn in Hm.
  apply andb_true_iff in Hm as [[H1%negb_true_iff%String.eqb_neq H2%negb_true_iff%String.eqb_neq]%andb_true_iff H3].
  done.
Qed.

Lemma markerless_elem (l : list Value) v : markerless (VArray l) = true -> v ∈ l -> markerless v = true.
Proof. cbn [markerless]. rewrite List.forallb_forall. intros Hm Hin%list_elem_of_In. auto. Qed.

(** The members of a converted object come from its members. *)
Lemma convert_object_inv (m : list (string * Value)) c : claim_value_try_from (VObject m) = Ok c ->
  exists cs, c = CObject cs /\ forall k q, (k, q) ∈ cs -> exists v w, (k, v) ∈ m /\ claim_value_try_from v = Ok w /\ q = plain_claim w.
Proof.
  cbn [claim_value_try_from]. intros Hc. inv_res. eexists. split; [done|]. clear -Hm.
  revert a Hm. induction m as [|[k v] m IH]; cbn [try_map]; intros a Hm.
  { injection Hm as <-. by intros ?? ?%not_elem_of_nil. }
  cbn in Hm. destruct (is_null v) eqn:Hn; cbn in Hm.
  - destruct (try_map _ m) eqn:Ht; cbn in Hm; [|done..]. injection Hm as <-. cbn. intros q w Hin.
    destruct (IH _ eq_refl q w Hin) as (v' & w' & ? & ? & ?). exists v', w'. split; [by right|done].
  - destruct (claim_value_try_from v) as [w'| |] eqn:Hv; cbn in Hm; [|done..].
    destruct (try_map _ m) eqn:Ht; cbn in Hm; [|done..]. injection Hm as <-. cbn.
    intros q w [[= -> ->]|Hin]%elem_of_cons; [exists v, w'; split; [left|done]|].
    destruct (IH _ eq_refl q w Hin) as (v'' & w'' & ? & ? & ?). exists v'', w''. split; [by right|done].
Qed.
End expansion.

Section expansion_of_trees.
Context `{Hasher} `{DigestStyle}.

Lemma try_map_id {E A : Type} (f : A -> res E A) (l : list A) : (forall x, x ∈ l -> f x = Ok x) -> try_map f l = Ok l.
Proof. intros Hf. rewrite (try_map_all_ok f id) by done. by rewrite List.map_id. Qed.

Lemma convert_array_inv (l : list Value) c : claim_value_try_from (VArray l) = Ok c ->
  exists cs, c = CArray cs /\ forall q, q ∈ cs -> exists v w, v ∈ l /\ claim_value_try_from v = Ok w /\ q = plain_claim w.
Proof.
  cbn [claim_value_try_from]. intros Hc. inv_res. eexists. split; [done|]. clear -Hm.
  revert a Hm. induction l as [|v l IH]; cbn [try_map]; intros a Hm.
  { injection Hm as <-. by intros ? ?%not_elem_of_nil. }
  destruct (claim_value_try_from v) as [w'| |] eqn:Hv; cbn in Hm; [|done..].
  destruct (try_map _ l) eqn:Ht; cbn in Hm; [|done..]. injection Hm as <-.
  intros q [->|Hin]%elem_of_cons; [exists v, w'; split; [left|done]|].
  destruct (IH _ eq_refl q Hin) as (v'' & w'' & ? & ? & ?). exists v'', w''. split; [by right|done].
Qed.

Lemma converted_no_marker (m : list (string * Value)) cs k :
  claim_value_try_from (VObject m) = Ok (CObject cs) -> (forall v, (k, v) ∉ m) -> map_get k cs = None.
Proof.
  intros (cs' & [= <-] & Hcs)%convert_object_inv Hk. apply map_get_None. intros q Hq.
  destruct (Hcs k q Hq) as (v & w & Hv & _). by apply Hk in Hv.
Qed.

Lemma element_hash_leaf (v : Value) (c : CredentialClaimValue) : markerless v = true ->
  claim_value_try_from v = Ok c -> element_hash (plain_claim c) = None.
Proof.
  intros Hm Hc. unfold element_hash. cbn [claim_value plain_claim].
  destruct v as [| | | |l|m]; try (cbn in Hc; inv_res; by subst).
  pose proof Hc as (cs & -> & _)%convert_object_inv. cbn [claim_as_object]. case_match; [|done].
  rewrite (converted_no_marker m); [done..|]. intros v Hv. by apply (markerless_member m) in Hv as (? & ? & ?).
Qed.

Lemma expand_leaf (v : Value) : forall c depth ds sd md, markerless v = true -> claim_value_try_from v = Ok c ->
  (value_height v <= depth)%nat ->
  recursively_expand_disclosures depth ds (mkCredentialClaim sd md c) = Ok (mkCredentialClaim sd md c).
Proof.
  induction v as [| | | |l IH|m IH] using value_rec; intros c depth ds sd md Hm Hc Hd;
    (destruct depth as [|depth]; [cbn in Hd; lia|]); try (cbn in Hc; inv_res; by subst).
  - pose proof Hc as (cs & -> & Hcs)%convert_array_inv. cbn [recursively_expand_disclosures].
    unfold expand_array_elements_in_place. rewrite try_map_id.
    + cbn. rewrite try_map_id; [done|]. intros q (v & w & Hv & Hw & ->)%Hcs. apply (IH v Hv); [|done|].
      * by eapply markerless_elem.
      * apply value_height_elem in Hv. lia.
    + intros q (v & w & Hv & Hw & ->)%Hcs. rewrite (element_hash_leaf v) by (done || by eapply markerless_elem). done.
  - pose proof Hc as (cs & -> & Hcs)%convert_object_inv. cbn [recursively_expand_disclosures].
    assert (map_get SELECTIVE_DISCLOSURE_MARKER cs = None) as Hno.
    { apply (converted_no_marker m); [done|]. intros v Hv. by apply (markerless_member m) in Hv as (? & ? & ?). }
    unfold gather_insertables_from_object, gather_object_sd_hashes. rewrite Hno. cbn. rewrite map_remove_none by done.
    rewrite try_map_id; [done|]. intros [k q] (v & w & Hv & Hw & ->)%Hcs. unfold plain_claim. rewrite (IH k v Hv).
    + done.
    + by apply (markerless_member m) in Hv as (? & ? & ?).
    + done.
    + apply value_height_member in Hv. lia.
Qed.
End expansion_of_trees.

(** The members an object shows, with their trees. *)
Definition plain_entries (plain : list (string * SdTree)) : list (string * (bool * SdTree)) :=
  map (fun '(k, t) => (k, (false, t))) plain.
Definition hidden_entries (vis : Disclosure -> bool) (hs : list (Disclosure * SdTree)) : list (string * (bool * SdTree)) :=
  flat_map (fun '(d, t) => if vis d then [(key_of d, (true, t))] else []) hs.
Definition entry_claim (f : SdTree -> CredentialClaimValue) (e : bool * SdTree) : CredentialClaim :=
  mkCredentialClaim (fst e) false (f (snd e)).

(** [knows vis ds t]: of the disclosures of [t], the list [ds] has those that
    satisfy [vis], and finds them by their digests. *)
Definition knows `{Hasher} `{DigestStyle} (vis : Disclosure -> bool) (ds : list HashedDisclosure) (t : SdTree) : Prop :=
  forall d, d ∈ nodes t -> fst <$> List.find (has_hash (d_digest d)) ds = if vis d then Some d else None.

Section expand_tree.
Context `{Hasher} `{DigestStyle}.
Variables (vis : Disclosure -> bool) (ds : list HashedDisclosure).

Lemma map_extend_elem {A : Type} (m l : list (string * A)) k a :
  (k, a) ∈ map_extend m l -> (k, a) ∈ m \/ (k, a) ∈ l.
Proof.
  unfold map_extend. revert m. induction l as [|[q b] l IH]; intros m; cbn [foldl fst snd]; [by left|].
  intros [[[-> ->]|]%map_insert_elem|]%IH; [right; left|by left|right; by right].
Qed.

Lemma entries_plain (f : SdTree -> CredentialClaimValue) plain :
  map (fun '(k, t) => (k, plain_claim (f t))) plain =
  map (fun '(k, e) => (k, entry_claim f e)) (plain_entries plain).
Proof. unfold plain_entries. rewrite List.map_map. apply List.map_ext. by intros [k t]. Qed.

Lemma entries_hidden (f : SdTree -> CredentialClaimValue) hs :
  flat_map (fun '(d, t) => if vis d then [(key_of d, shown_claim (f t))] else []) hs =
  map (fun '(k, e) => (k, entry_claim f e)) (hidden_entries vis hs).
Proof.
  unfold hidden_entries. induction hs as [|[d t] hs IH]; [done|]. cbn [flat_map]. rewrite List.map_app, <- IH.
  by destruct (vis d).
Qed.

Lemma hidden_entries_elem hs k b t : (k, (b, t)) ∈ hidden_entries vis hs <->
  b = true /\ exists d, (d, t) ∈ hs /\ vis d = true /\ k = key_of d.
Proof.
  unfold hidden_entries. rewrite list_elem_of_In, in_flat_map. split.
  - intros ([d s] & Hin%list_elem_of_In & He). destruct (vis d) eqn:Hv; [|done].
    destruct He as [[= <- <- <-]|[]]. eauto.
  - intros (-> & d & Hin & Hv & ->). exists (d, t). split; [by apply list_elem_of_In|]. rewrite Hv. by left.
Qed.

Lemma hidden_entries_keys hs : (hidden_entries vis hs).*1 `sublist_of` (key_of ∘ fst <$> hs).
Proof.
  unfold hidden_entries. induction hs as [|[d t] hs IH]; [constructor|]. cbn [flat_map]. rewrite fmap_app, fmap_cons.
  destruct (vis d); cbn; [by apply sublist_skip|by apply sublist_cons].
Qed.

Lemma nodes_hidden d t plain hs : (d, t) ∈ hs -> d ∈ nodes (TObject plain (Some hs)) /\
  forall e, e ∈ nodes t -> e ∈ nodes (TObject plain (Some hs)).
Proof.
  intros Hin. cbn [nodes]. split; [|intros e He]; apply elem_of_app; right; apply list_elem_of_In, in_flat_map;
    exists (d, t); (split; [by apply list_elem_of_In|]); apply list_elem_of_In, elem_of_app.
  - right. left.
  - by left.
Qed.

Lemma nodes_plain k t plain sd e : (k, t) ∈ plain -> e ∈ nodes t -> e ∈ nodes (TObject plain sd).
Proof.
  intros Hin He. cbn [nodes]. apply elem_of_app. left. apply list_elem_of_In, in_flat_map.
  exists (k, t). split; by apply list_elem_of_In.
Qed.

Lemma nodes_elem od t elems e : (od, t) ∈ elems -> e ∈ nodes t \/ od = Some e -> e ∈ nodes (TArray elems).
Proof.
  intros Hin He. cbn [nodes]. apply list_elem_of_In, in_flat_map. exists (od, t).
  split; [by apply list_elem_of_In|]. apply list_elem_of_In, elem_of_app. destruct He as [ | -> ]; [by left|right; left].
Qed.

Lemma gather_fold hs acc :
  (forall d t, (d, t) ∈ hs -> wf_tree t /\ is_Some (d_key d) /\ d_value d = payload t) ->
  (forall d t, (d, t) ∈ hs -> fst <$> List.find (has_hash (d_digest d)) ds = if vis d then Some d else None) ->
  try_fold (fun result hash =>
    match List.find (has_hash hash) ds with
    | Some (disclosure, _) =>
        credential_claim ← disclosed_claim disclosure;
        Ok match d_key disclosure with
           | Some key => map_insert key credential_claim result
           | None => result
           end
    | None => Ok result
    end) acc (map (fun '(d, _) => d_digest d) hs) =
  Ok (map_extend acc (map (fun '(k, e) => (k, entry_claim enclosed e)) (hidden_entries vis hs))).
Proof.
  revert acc. induction hs as [|[d t] hs IH]; intros acc Hwf Hk; [done|]. cbn [map try_fold].
  destruct (Hwf d t) as (Ht & [k Hdk] & Hv); [left|]. specialize (Hk d t) as Hd. specialize (Hd ltac:(left)).
  unfold hidden_entries. cbn [flat_map]. rewrite List.map_app.
  assert (forall m l, @map_extend CredentialClaim acc (m ++ l) = map_extend (map_extend acc m) l) as Happ.
  { intros m l. unfold map_extend. by rewrite foldl_app. }
  rewrite Happ. destruct (List.find _ ds) as [[d' hh]|], (vis d) eqn:Hvis; try done; cbn in Hd.
  - injection Hd as ->. assert (disclosed_claim d = Ok (shown_claim (enclosed t))) as ->.
    { unfold disclosed_claim. by rewrite Hv, convert. }
    assert (key_of d = k) as -> by (unfold key_of; by rewrite Hdk). cbn [mbind res_bind]. rewrite Hdk.
    apply IH; intros; [apply Hwf|eapply Hk]; by right.
  - cbn. apply IH; intros; [apply Hwf|eapply Hk]; by right.
Qed.
End expand_tree.

Section expand_object.
Context `{Hasher} `{DigestStyle}.
Variables (vis : Disclosure -> bool) (ds : list HashedDisclosure).

Lemma gather_hashes hs P : map_ok P ->
  gather_object_sd_hashes (map_insert SELECTIVE_DISCLOSURE_MARKER (sd_claim hs) P) = map (fun '(d, _) => d_digest d) hs.
Proof.
  intros HP. unfold gather_object_sd_hashes. rewrite map_get_insert, decide_True by done. cbn [sd_claim claim_value plain_claim claim_as_array default].
  induction hs as [|[d t] hs IH]; [done|]. cbn. f_equal. exact IH.
Qed.

Lemma plain_no_marker (f : SdTree -> CredentialClaimValue) plain :
  (forall k t, (k, t) ∈ plain -> k <> SELECTIVE_DISCLOSURE_MARKER) ->
  map_get SELECTIVE_DISCLOSURE_MARKER (map (fun '(k, t) => (k, plain_claim (f t))) plain) = None.
Proof.
  intros Hp. apply map_get_None. intros c ([k t] & [= <- ->] & Hin)%list_elem_of_fmap. by apply Hp in Hin.
Qed.

Lemma gather_object plain sd : wf_tree (TObject plain sd) ->
  (forall d t, (d, t) ∈ default [] sd -> fst <$> List.find (has_hash (d_digest d)) ds = if vis d then Some d else None) ->
  exists m, enclosed (TObject plain sd) = CObject m /\
    map_remove SELECTIVE_DISCLOSURE_MARKER m = map (fun '(k, t) => (k, plain_claim (enclosed t))) plain /\
    gather_insertables_from_object ds m =
      Ok (map_extend [] (map (fun '(k, e) => (k, entry_claim enclosed e)) (hidden_entries vis (default [] sd)))).
Proof.
  intros Hwf Hk. inversion Hwf as [|? ? Hmap Hp Hs Hnd|]; subst.
  assert (map_get SELECTIVE_DISCLOSURE_MARKER (map (fun '(k, t) => (k, plain_claim (enclosed t))) plain) = None) as Hno.
  { apply plain_no_marker. intros k t Hin. by apply (Hp k t). }
  destruct sd as [hs|]; cbn [enclosed default] in *; eexists; (split; [done|]).
  - split; [by apply map_remove_insert|]. unfold gather_insertables_from_object. rewrite gather_hashes.
    + case_bool_decide as Hnil; cbn [negb].
      * by destruct hs.
      * by apply gather_fold.
    + by apply (map_ok_map (fun t => plain_claim (enclosed t))).
  - split; [by apply map_remove_none|]. unfold gather_insertables_from_object, gather_object_sd_hashes. by rewrite Hno.
Qed.

Lemma map_extend_twice {A : Type} (m l : list (string * A)) : map_ok m -> NoDup l.*1 ->
  map_extend m (map_extend [] l) = map_extend m l.
Proof.
  intros Hm Hl. apply map_extend_get_eq; [done| |done|].
  - apply map_ok_NoDup, map_extend_ok. constructor.
  - intros k. rewrite map_get_extend by (done || constructor). by destruct (map_get k l).
Qed.

Lemma object_members plain sd (f : SdTree -> CredentialClaimValue) : wf_tree (TObject plain sd) ->
  map_extend (map (fun '(k, t) => (k, plain_claim (f t))) plain)
    (map_extend [] (map (fun '(k, e) => (k, entry_claim f e)) (hidden_entries vis (default [] sd)))) =
  map (fun '(k, e) => (k, entry_claim f e)) (map_extend (plain_entries plain) (hidden_entries vis (default [] sd))).
Proof.
  intros Hwf. inversion Hwf as [|? ? Hmap Hp Hs Hnd|]; subst. rewrite map_extend_twice.
  - by rewrite entries_plain, map_extend_map.
  - by apply (map_ok_map (fun t => plain_claim (f t))).
  - rewrite map_keys. apply NoDup_app in Hnd as (_ & _ & Hnd).
    eapply sublist_NoDup; [done|apply hidden_entries_keys].
Qed.

Lemma expand_sealed depth h : (2 <= depth)%nat ->
  recursively_expand_disclosures depth ds (sealed_element h) = Ok (sealed_element h).
Proof. intros Hd. destruct depth as [|[|depth]]; [lia..|]. done. Qed.

Lemma element_hash_sealed h : element_hash (sealed_element h) = Some h.
Proof. done. Qed.

Lemma element_hash_plain (t : SdTree) : wf_tree t -> element_hash (plain_claim (enclosed t)) = None.
Proof.
  intros Hwf. destruct Hwf as [v Hm Hok|plain sd Hmap Hp Hs Hnd|elems He]; [|cbn [enclosed]|done].
  - by apply (element_hash_leaf v); [|apply leaf_claim_ok].
  - unfold element_hash. cbn [claim_value plain_claim claim_as_object]. case_match; [|done].
    apply bind_None. left. apply map_get_None. intros c Hin.
    assert ((SELECTIVE_DISCLOSURE_ARRAY_MARKER, c) ∈ map (fun '(k, t) => (k, plain_claim (enclosed t))) plain) as Hpl.
    { destruct sd; [|done]. by apply map_insert_elem in Hin as [[Heq _]|]. }
    apply list_elem_of_fmap in Hpl as ([k t] & [= <- _] & Hk). by destruct (Hp _ _ Hk) as (_ & _ & ?).
Qed.

Lemma expand_tree (t : SdTree) : forall depth sd md, wf_tree t -> knows vis ds t -> (height t <= depth)%nat ->
  recursively_expand_disclosures depth ds (mkCredentialClaim sd md (enclosed t)) =
  Ok (mkCredentialClaim sd md (reveal vis t)).
Proof.
  induction t as [v|plain sds IHp IHs|elems IH] using tree_rec; intros depth sd md Hwf Hk Hd;
    (destruct depth as [|depth]; [destruct t || destruct v || idtac; cbn in Hd; lia|]).
  - inversion Hwf as [? Hm Hok| |]; subst. cbn [enclosed reveal].
    by apply (expand_leaf v); [|apply leaf_claim_ok|].
  - destruct (gather_object plain sds) as (m & Hm & Hr & Hg); [done| |].
    { intros d t Hin. apply Hk. destruct sds as [hs|]; [|by apply not_elem_of_nil in Hin]. exact (proj1 (nodes_hidden d t plain hs Hin)). }
    rewrite Hm. cbn [recursively_expand_disclosures]. rewrite Hg. cbn [mbind res_bind]. rewrite Hr.
    rewrite (object_members plain sds enclosed) by done.
    rewrite try_map_map. rewrite (try_map_all_ok _ (fun '(k, e) => (k, entry_claim (reveal vis) e))).
    + cbn [mbind res_bind]. rewrite <- object_members by done. cbn [reveal]. rewrite object_members by done.
      rewrite entries_plain. destruct sds as [hs|]; cbn [default]; [rewrite entries_hidden|]; by rewrite map_extend_map.
    + inversion Hwf as [|? ? Hmap Hp Hs Hnd|]; subst.
      intros [k [b t]] [Hin|Hin]%map_extend_elem; unfold entry_claim; cbn [fst snd].
      * apply list_elem_of_fmap in Hin as ([q t'] & [= -> -> ->] & Hin). rewrite (IHp q t'); [done..|apply (Hp q t' Hin)| |].
        -- intros e He. eapply Hk, nodes_plain; done.
        -- pose proof (height_plain q t' plain sds Hin) as Hlt. exact (proj2 (Nat.succ_le_mono _ _) (Nat.le_trans _ _ _ Hlt Hd)).
      * apply hidden_entries_elem in Hin as (-> & d & Hin & Hv & ->). destruct sds as [hs|]; [|by apply not_elem_of_nil in Hin].
        cbn [default] in Hin. rewrite (IHs d t); [done..|apply (Hs d t Hin)| |].
        -- intros e He. apply Hk, (proj2 (nodes_hidden d t plain hs Hin)), He.
        -- pose proof (height_hidden d t plain hs Hin) as Hlt. exact (proj2 (Nat.succ_le_mono _ _) (Nat.le_trans _ _ _ Hlt Hd)).
  - inversion Hwf as [| |? He]; subst. cbn [enclosed recursively_expand_disclosures].
    unfold expand_array_elements_in_place. rewrite try_map_map.
    rewrite (try_map_all_ok _ (fun '(od, t) => match od with
      | Some d => if vis d then shown_claim (enclosed t) else sealed_element (d_digest d)
      | None => plain_claim (enclosed t) end)).
    + cbn [mbind res_bind]. rewrite try_map_map. rewrite (try_map_all_ok _ (fun '(od, t) => match od with
        | Some d => if vis d then shown_claim (reveal vis t) else sealed_element (d_digest d)
        | None => plain_claim (reveal vis t) end)); [done|].
      intros [[d|] t] Hin; [destruct (vis d) eqn:Hv|].
      * apply (IH (Some d) t); [done|apply (He _ _ Hin)| |apply height_elem in Hin; lia].
        intros e Hn. eapply Hk, nodes_elem; [done|by left].
      * apply expand_sealed. cbn [height] in Hd. lia.
      * apply (IH None t); [done|apply (He _ _ Hin)| |apply height_elem in Hin; lia].
        intros e Hn. eapply Hk, nodes_elem; [done|by left].
    + intros [[d|] t] Hin.
      * cbn [element_hash]. rewrite element_hash_sealed. assert (d ∈ nodes (TArray elems)) as Hd'%Hk by (eapply nodes_elem; eauto).
        destruct (List.find _ ds) as [[d' hh]|], (vis d); try done; cbn in Hd'. injection Hd' as ->.
        destruct (He _ _ Hin) as [Ht Hv]. unfold disclosed_claim. by rewrite (Hv d), convert.
      * destruct (He _ _ Hin) as [Ht _]. by rewrite element_hash_plain.
Qed.
End expand_object.
