(* ===== verification/SdSelect.v ===== *)
(** * Selecting disclosures

    The selection of a holder on trees of disclosures: which disclosures
    [select_disclosures] picks for the keys of a presentation, and the index
    of disclosures by digest it works on. *)

From S2P Require Import Prelude Paths SdValue SdDisclosures SdTree.
From Stdlib Require Import Ascii String Sorted.
#[local] Notation length := Datatypes.length.

(** [Hasher]: hashing succeeds. *)
Class HasherLaws `{Hasher} := { hash_total : forall s, is_Some (hash_base64_url s) }.

(** ** Collecting below a node *)

(** The disclosures below a node that are reached through digests only. *)
Fixpoint collected (t : SdTree) : list Disclosure :=
  match t with
  | TLeaf _ => []
  | TObject _ sd => match sd with Some hs => flat_map (fun '(d, t) => collected t ++ [d]) hs | None => [] end
  | TArray elems => flat_map (fun '(od, t) => match od with Some d => d :: collected t | None => [] end) elems
  end.

(** [indexed M t]: the index finds the disclosures of the tree. *)
Definition indexed `{Hasher} `{DigestStyle} (M : gmap string Disclosure) (t : SdTree) : Prop :=
  forall d, d ∈ nodes t -> M !! d_digest d = Some d.

Section collecting.
Context `{Hasher} `{DigestStyle} (M : gmap string Disclosure).

Lemma element_sealed (d : Disclosure) : array_element_disclosure (sd_element (d_digest d)) M = M !! d_digest d.
Proof. done. Qed.

Lemma element_markerless (v : Value) : markerless v = true -> array_element_disclosure v M = None.
Proof.
  intros Hm. unfold array_element_disclosure. destruct v as [| | | | |m]; try done. cbn [as_object].
  case_match; [|done]. apply bind_None. left. apply bind_None. left. apply map_get_None. intros v Hv.
  by apply (markerless_member m) in Hv as (? & ? & ?).
Qed.

Lemma element_plain (t : SdTree) : wf_tree t -> array_element_disclosure (payload t) M = None.
Proof.
  intros Hwf. destruct Hwf as [v Hm Hok|plain sd Hmap Hp Hs Hnd|elems He]; [by apply element_markerless| |done].
  unfold array_element_disclosure. cbn [payload as_object]. case_match; [|done].
  apply bind_None. left. apply bind_None. left. apply map_get_None. intros c Hin.
  assert ((SELECTIVE_DISCLOSURE_ARRAY_MARKER, c) ∈ map (fun '(k, t) => (k, payload t)) plain) as Hpl.
  { destruct sd; [|done]. by apply map_insert_elem in Hin as [[Heq _]|]. }
  apply list_elem_of_fmap in Hpl as ([k t] & [= <- _] & Hk). by destruct (Hp _ _ Hk) as (_ & _ & ?).
Qed.

Lemma sd_hashes_markerless (m : list (string * Value)) : markerless (VObject m) = true -> sd_hashes m = [].
Proof.
  intros Hm. unfold sd_hashes. rewrite (proj2 (map_get_None _ m)); [done|]. intros v Hv.
  by apply (markerless_member m) in Hv as (? & ? & ?).
Qed.

Lemma payload_members plain sd : wf_tree (TObject plain sd) -> exists m, payload (TObject plain sd) = VObject m /\
  sd_hashes m = map (fun '(d, _) => d_digest d) (default [] sd) /\
  forall k, k <> SELECTIVE_DISCLOSURE_MARKER -> map_get k m = payload <$> map_get k plain.
Proof.
  intros Hwf. inversion Hwf as [|? ? Hmap Hp Hs Hnd|]; subst. cbn [payload]. eexists. split; [done|].
  assert (map_ok (map (fun '(k, t) => (k, payload t)) plain)) as Hok by (by apply (map_ok_map payload)).
  destruct sd as [hs|]; unfold sd_hashes; cbn [default].
  - rewrite map_get_insert, decide_True by done. split.
    + cbn [as_array default]. clear. induction hs as [|[d t] hs IH]; [done|]. cbn. f_equal. exact IH.
    + intros k Hk. rewrite map_get_insert, decide_False by done. apply map_get_map.
  - rewrite (proj2 (map_get_None _ _)); [split; [done|]; intros k _; apply map_get_map|].
    intros v ([k t] & [= <- ->] & Hin)%list_elem_of_fmap. by destruct (Hp _ _ Hin) as (_ & ? & _).
Qed.

Lemma collect_leaf (v : Value) depth : markerless v = true -> (1 <= depth)%nat ->
  collect_all_subdisclosures depth v M = Ok [].
Proof.
  intros Hm Hd. destruct depth as [|depth]; [lia|]. destruct v as [| | | |l|m]; try done; cbn [collect_all_subdisclosures].
  - rewrite (try_map_all_ok _ (fun _ => [])).
    + cbn. f_equal. clear. by induction l.
    + intros v Hv. by rewrite element_markerless by (by eapply markerless_elem).
  - by rewrite sd_hashes_markerless.
Qed.

Lemma index_hidden plain hs : indexed M (TObject plain (Some hs)) ->
  omap (fun h => M !! h) (map (fun '(d, _) => d_digest d) hs) = map fst hs.
Proof.
  intros HM. assert (forall d t, (d, t) ∈ hs -> M !! d_digest d = Some d) as Hd.
  { intros d t Hin. apply HM. exact (proj1 (nodes_hidden d t plain hs Hin)). }
  clear HM. induction hs as [|[d t] hs IH]; [done|]. cbn [map omap list_omap]. rewrite (Hd d t) by left. cbn. f_equal.
  apply IH. intros d' t' Hin. eapply Hd. by right.
Qed.

Lemma height_pos (t : SdTree) : (1 <= height t)%nat.
Proof. destruct t as [v| |]; cbn [height]; [destruct v|..]; cbn; lia. Qed.

Lemma collect_tree (t : SdTree) : forall depth, wf_tree t -> indexed M t -> (height t <= depth)%nat ->
  collect_all_subdisclosures depth (payload t) M = Ok (map d_text (collected t)).
Proof.
  induction t as [v|plain sds IHp IHs|elems IH] using tree_rec; intros depth Hwf HM Hd.
  - inversion Hwf; subst. apply collect_leaf; [done|]. pose proof (height_pos (TLeaf v)). lia.
  - destruct depth as [|depth]; [cbn in Hd; lia|].
    destruct (payload_members plain sds Hwf) as (m & -> & Hh & _). cbn [collect_all_subdisclosures]. rewrite Hh.
    destruct sds as [hs|]; [|done]. cbn [default]. unfold id. rewrite (index_hidden plain) by done.
    rewrite try_map_map. rewrite (try_map_all_ok _ (fun '(d, t) => map d_text (collected t ++ [d]))).
    + cbn [mbind res_bind collected]. f_equal. rewrite List.flat_map_concat_map, List.concat_map, List.map_map.
      f_equal. apply List.map_ext. by intros [d t].
    + inversion Hwf as [|? ? Hmap Hp Hs Hnd|]; subst. intros [d t] Hin. cbn [fst].
      destruct (Hs d t Hin) as (Ht & _ & ->). rewrite (IHs d t Hin).
      * cbn. by rewrite List.map_app.
      * done.
      * intros e He. apply HM, (proj2 (nodes_hidden d t plain hs Hin)), He.
      * pose proof (height_hidden d t plain hs Hin). lia.
  - destruct depth as [|depth]; [cbn in Hd; lia|]. cbn [payload collect_all_subdisclosures]. rewrite try_map_map.
    inversion Hwf as [| |? He]; subst.
    rewrite (try_map_all_ok _ (fun '(od, t) => map d_text (match od with Some d => d :: collected t | None => [] end))).
    + cbn [mbind res_bind collected]. f_equal. rewrite List.flat_map_concat_map, List.concat_map, List.map_map.
      f_equal. apply List.map_ext. by intros [od t].
    + intros [[d|] t] Hin; destruct (He _ _ Hin) as [Ht Hv].
      * rewrite element_sealed, (HM d) by (eapply nodes_elem; eauto). rewrite (Hv d), (IH _ _ Hin).
        -- done.
        -- done.
        -- intros e Hn. eapply HM, nodes_elem; eauto.
        -- pose proof (height_elem _ _ _ Hin). lia.
        -- done.
      * by rewrite element_plain.
Qed.
End collecting.

(** ** Walking along a key *)

(** The disclosures on the way of a key and the node it names, or [None]
    when an object on the way has no such member. *)
Fixpoint walk_tree (t : SdTree) (key_parts : list string) : res FormatterError (list Disclosure * option SdTree) :=
  match key_parts with
  | [] => Ok ([], Some t)
  | k :: p =>
      match t with
      | TLeaf (VArray l) =>
          index ← ok_or (usize_from_str k) (CouldNotFormat InvalidArrayIndex);
          v ← ok_or (l !! Z.to_nat index) (CouldNotFormat IndexOutOfBounds);
          walk_tree (TLeaf v) p
      | TLeaf (VObject m) =>
          match map_get k m with Some v => walk_tree (TLeaf v) p | None => Ok ([], None) end
      | TLeaf _ => Err (CouldNotFormat InvalidNesting)
      | TObject plain sd =>
          match map_get k plain with
          | Some t => walk_tree t p
          | None =>
              match List.find (fun '(d, _) => bool_decide (d_key d = Some k)) (default [] sd) with
              | Some (d, t) => r ← walk_tree t p; Ok (d :: fst r, snd r)
              | None => Ok ([], None)
              end
          end
      | TArray elems =>
          index ← ok_or (usize_from_str k) (CouldNotFormat InvalidArrayIndex);
          e ← ok_or (elems !! Z.to_nat index) (CouldNotFormat IndexOutOfBounds);
          r ← walk_tree (snd e) p;
          Ok (of_option (fst e) ++ fst r, snd r)
      end
  end.

Section walking.
Context `{Hasher} `{DigestStyle} (M : gmap string Disclosure).

Definition on_payload (R : gset string) (r : res FormatterError (list Disclosure * option SdTree)) :
  res FormatterError (gset string * option Value) :=
  match r with
  | Ok (ds, os) => Ok (list_to_set (map d_text ds) ∪ R, payload <$> os)
  | Err e => Err e
  | Panic => Panic
  end.

Lemma on_payload_cons d (R : gset string) (r : res FormatterError (list Disclosure * option SdTree)) :
  on_payload ({[d_text d]} ∪ R) r = on_payload R (r ← r; Ok (d :: fst r, snd r)).
Proof. destruct r as [[ds os]| |]; [|done..]. cbn. do 2 f_equal. set_solver. Qed.

Lemma on_payload_nil (R : gset string) (r : res FormatterError (list Disclosure * option SdTree)) :
  on_payload R (r ← r; Ok (of_option None ++ fst r, snd r)) = on_payload R r.
Proof. by destruct r as [[ds os]| |]. Qed.

Lemma walk_leaf (p : list string) : forall (v : Value) (R : gset string), markerless v = true ->
  walk_key v p M R = on_payload R (walk_tree (TLeaf v) p).
Proof.
  induction p as [|k p IH]; intros v R Hm; cbn [walk_key walk_tree].
  { cbn. do 2 f_equal. set_solver. }
  destruct v as [| | | |l|m]; try done.
  - destruct (usize_from_str k) as [i|]; [|done]. cbn. destruct (l !! Z.to_nat i) as [v|] eqn:Hv; [|done]. cbn.
    apply list_elem_of_lookup_2, (markerless_elem l) in Hv; [|done]. rewrite element_markerless by done. auto.
  - destruct (map_get k m) as [v|] eqn:Hv.
    + apply IH. apply map_get_elem in Hv. by apply (markerless_member m) in Hv as (? & ? & ?).
    + rewrite sd_hashes_markerless by done. cbn. do 2 f_equal. set_solver.
Qed.

Lemma find_map_fst (k : string) (hs : list (Disclosure * SdTree)) :
  List.find (fun d => bool_decide (d_key d = Some k)) (map fst hs) =
  fst <$> List.find (fun '(d, _) => bool_decide (d_key d = Some k)) hs.
Proof. induction hs as [|[d t] hs IH]; [done|]. cbn. by case_bool_decide. Qed.

Lemma walk_correct (p : list string) : forall (t : SdTree) (R : gset string), wf_tree t -> indexed M t ->
  SELECTIVE_DISCLOSURE_MARKER ∉ p -> walk_key (payload t) p M R = on_payload R (walk_tree t p).
Proof.
  induction p as [|k p IH]; intros t R Hwf HM Hp.
  { cbn. do 2 f_equal. set_solver. }
  apply not_elem_of_cons in Hp as [Hk Hp].
  destruct t as [v|plain sds|elems].
  - inversion Hwf; subst. by apply walk_leaf.
  - destruct (payload_members plain sds Hwf) as (m & -> & Hh & Hg). cbn [walk_key walk_tree]. rewrite Hg, Hh by done.
    inversion Hwf as [|? ? Hmap Hpl Hs Hnd|]; subst. destruct (map_get k plain) as [t|] eqn:Ht; cbn [fmap option_fmap option_map].
    { apply map_get_elem in Ht. apply IH; [apply (Hpl k t Ht)| |done]. intros e He. by eapply HM, nodes_plain. }
    destruct sds as [hs|]; [|cbn; do 2 f_equal; set_solver]. cbn [default]. unfold id.
    rewrite (index_hidden M plain) by done. rewrite find_map_fst.
    destruct (List.find _ hs) as [[d t]|] eqn:Hf; cbn [fmap option_fmap option_map fst]; [|cbn; do 2 f_equal; set_solver].
    apply List.find_some in Hf as [Hin%list_elem_of_In _]. destruct (Hs d t Hin) as (Hwt & _ & ->).
    rewrite IH; [apply on_payload_cons|done| |done]. intros e He. apply HM, (proj2 (nodes_hidden d t plain hs Hin)), He.
  - inversion Hwf as [| |? He]; subst. cbn [payload walk_key walk_tree].
    destruct (usize_from_str k) as [i|]; [|done]. cbn [ok_or mbind res_bind].
    change (map ?f elems) with (f <$> elems). rewrite list_lookup_fmap.
    destruct (elems !! Z.to_nat i) as [[od t]|] eqn:Hi; [|done]. cbn [fmap option_fmap option_map ok_or mbind res_bind fst snd].
    apply list_elem_of_lookup_2 in Hi. destruct (He _ _ Hi) as [Hwt Hv].
    assert (indexed M t) as HMt by (intros e Hn; eapply HM, nodes_elem; eauto).
    destruct od as [d|].
    + rewrite element_sealed, (HM d) by (eapply nodes_elem; eauto). rewrite (Hv d) by done.
      rewrite IH by done. apply on_payload_cons.
    + rewrite element_plain, IH by done. symmetry. apply on_payload_nil.
Qed.

(** What is collected below the node a key names. *)
Lemma walk_ends (p : list string) : forall (t : SdTree) ds s depth, wf_tree t -> indexed M t ->
  walk_tree t p = Ok (ds, Some s) -> (height t <= depth)%nat ->
  collect_all_subdisclosures depth (payload s) M = Ok (map d_text (collected s)).
Proof.
  assert (forall p v ds s depth, markerless v = true -> walk_tree (TLeaf v) p = Ok (ds, Some s) -> (1 <= depth)%nat ->
    collect_all_subdisclosures depth (payload s) M = Ok (map d_text (collected s))) as Hleaf.
  { clear p. intros p. induction p as [|k p IH]; intros v ds s depth Hm Hw Hd; cbn [walk_tree] in Hw.
    { injection Hw as <- <-. by apply collect_leaf. }
    destruct v as [| | | |l|m]; try done.
    - inv_res. eapply IH; [|done..]. eapply markerless_elem; [done|]. by eapply list_elem_of_lookup_2.
    - destruct (map_get k m) as [v|] eqn:Hv; [|done]. eapply IH; [|done..].
      apply map_get_elem in Hv. by apply (markerless_member m) in Hv as (? & ? & ?). }
  induction p as [|k p IH]; intros t ds s depth Hwf HM Hw Hd; cbn [walk_tree] in Hw.
  { injection Hw as <- <-. by apply collect_tree. }
  destruct t as [v|plain sds|elems].
  - inversion Hwf; subst. eapply (Hleaf (k :: p)); [done..|]. pose proof (height_pos (TLeaf v)). lia.
  - inversion Hwf as [|? ? Hmap Hpl Hs Hnd|]; subst. destruct (map_get k plain) as [t|] eqn:Ht.
    { apply map_get_elem in Ht. eapply IH; [apply (Hpl k t Ht)| |done|].
      - intros e He. by eapply HM, nodes_plain.
      - pose proof (height_plain k t plain sds Ht). lia. }
    destruct sds as [hs|]; [|done]. destruct (List.find _ _) as [[d t]|] eqn:Hf; [|done]. inv_res. destruct a as [a1 a2]. cbn [fst snd] in *. simplify_eq.
    apply List.find_some in Hf as [Hin%list_elem_of_In _]. eapply IH; [apply (Hs d t Hin)| |done|].
    + intros e He. apply HM, (proj2 (nodes_hidden d t plain hs Hin)), He.
    + pose proof (height_hidden d t plain hs Hin). lia.
  - inversion Hwf as [| |? He]; subst. inv_res. destruct a1 as [a1 a2], a0 as [od t]. cbn [fst snd] in *. simplify_eq.
    apply list_elem_of_lookup_2 in Ho. eapply IH; [apply (He od t Ho)| |done|].
    + intros e Hn. eapply HM, nodes_elem; eauto.
    + pose proof (height_elem od t elems Ho). lia.
Qed.
End walking.

(** ** The index by digest *)

(** The texts that are hashed, of all the disclosures, have distinct hashes. *)
Definition distinct `{Hasher} (ds : list Disclosure) : Prop :=
  NoDup (map (fun d => digest (d_text d)) ds ++ map (fun d => digest (d_array d)) ds).

Section index.
Context `{HasherLaws}.

Lemma hash_ok s : hash s = Ok (digest s).
Proof. unfold hash, digest. by destruct (hash_total s) as [h ->]. Qed.

Lemma distinct_cons d ds : distinct (d :: ds) <->
  distinct ds /\ digest (d_text d) <> digest (d_array d) /\
  forall h, h = digest (d_text d) \/ h = digest (d_array d) ->
    h ∉ map (fun d => digest (d_text d)) ds /\ h ∉ map (fun d => digest (d_array d)) ds.
Proof.
  unfold distinct. cbn [map]. rewrite <- app_comm_cons, NoDup_cons, not_elem_of_app, not_elem_of_cons.
  rewrite (Permutation_app_comm _ (_ :: _)). rewrite <- app_comm_cons, NoDup_cons, not_elem_of_app.
  rewrite (Permutation_app_comm (map (fun d => digest (d_array d)) ds)). split.
  - intros ((? & ? & ?) & (? & ?) & ?). split; [done|]. split; [done|]. by intros h [-> | ->].
  - intros (? & ? & Hh). destruct (Hh (digest (d_text d))) as [? ?]; [by left|].
    destruct (Hh (digest (d_array d))) as [? ?]; [by right|]. done.
Qed.

Lemma compute_digests_fold ds (acc : gmap string Disclosure) : distinct ds -> exists M,
  try_fold (fun digests disclosure =>
    old ← hash_disclosure_array disclosure;
    current ← hash_disclosure disclosure;
    Ok (<[current := disclosure]> (<[old := disclosure]> digests))) acc ds = Ok M /\
  (forall d, d ∈ ds -> M !! digest (d_text d) = Some d /\ M !! digest (d_array d) = Some d) /\
  (forall h, h ∉ map (fun d => digest (d_text d)) ds -> h ∉ map (fun d => digest (d_array d)) ds -> M !! h = acc !! h).
Proof.
  revert acc. induction ds as [|d ds IH]; intros acc Hd.
  { exists acc. split; [done|]. split; [by intros d ?%not_elem_of_nil|done]. }
  apply distinct_cons in Hd as (Hds & Hne & Hfresh). cbn [try_fold].
  change (hash_disclosure_array d) with (hash (d_array d)). change (hash_disclosure d) with (hash (d_text d)).
  rewrite !hash_ok. cbn [mbind res_bind].
  destruct (IH (<[digest (d_text d) := d]> (<[digest (d_array d) := d]> acc)) Hds) as (M & -> & Hin & Hout).
  exists M. split; [done|]. split.
  - intros d' [->|Hd']%elem_of_cons; [|auto]. split; (rewrite Hout; [|apply Hfresh; auto..]).
    + by rewrite lookup_insert_eq.
    + by rewrite lookup_insert_ne, lookup_insert_eq by done.
  - intros h H1 H2. cbn [map] in H1, H2. apply not_elem_of_cons in H1 as [? ?], H2 as [? ?].
    by rewrite Hout, !lookup_insert_ne by done.
Qed.

Lemma compute_digests_spec ds : distinct ds -> exists M, compute_digests ds = Ok M /\
  forall d, d ∈ ds -> M !! digest (d_text d) = Some d /\ M !! digest (d_array d) = Some d.
Proof. intros Hd. destruct (compute_digests_fold ds ∅ Hd) as (M & ? & ? & _). by exists M. Qed.

(** [knows]: what a list of the disclosures finds. *)
Definition hashed (d : Disclosure) : HashedDisclosure := (d, (digest (d_text d), digest (d_array d))).

Lemma distinct_inj ds d d' : distinct ds -> d ∈ ds -> d' ∈ ds ->
  digest (d_text d) = digest (d_text d') \/ digest (d_array d) = digest (d_array d') \/
  digest (d_text d) = digest (d_array d') \/ digest (d_array d) = digest (d_text d') -> d = d'.
Proof.
  intros Hd. induction ds as [|e ds IH]; [by intros ?%not_elem_of_nil|].
  apply distinct_cons in Hd as (Hds & Hne & Hf).
  assert (forall x y, x = digest (d_text e) \/ x = digest (d_array e) -> y ∈ ds ->
    x <> digest (d_text y) /\ x <> digest (d_array y)) as Hnot.
  { intros x y Hx Hy. destruct (Hf x Hx) as [H1 H2]. split; intros ->; [apply H1|apply H2];
      apply list_elem_of_fmap; eauto. }
  intros [->|Hin]%elem_of_cons [->|Hin']%elem_of_cons Heq; [done| | |auto].
  - destruct (Hnot (digest (d_text e)) d'), (Hnot (digest (d_array e)) d'); naive_solver.
  - destruct (Hnot (digest (d_text e)) d), (Hnot (digest (d_array e)) d); naive_solver.
Qed.

Lemma hashed_find ds ds' d `{DigestStyle} : distinct ds -> d ∈ ds -> (forall e, e ∈ ds' -> e ∈ ds) ->
  (d ∈ ds' -> fst <$> List.find (has_hash (d_digest d)) (map hashed ds') = Some d) /\
  (d ∉ ds' -> fst <$> List.find (has_hash (d_digest d)) (map hashed ds') = None).
Proof.
  intros Hd Hin Hsub.
  assert (forall e, e ∈ ds' -> has_hash (d_digest d) (hashed e) = true -> e = d) as Huniq.
  { intros e He Hh. symmetry. apply (distinct_inj ds); [done|done|auto|]. unfold has_hash, hashed, d_digest in Hh. cbn in Hh.
    apply orb_true_iff in Hh as [Hh%bool_decide_eq_true|Hh%bool_decide_eq_true]; destruct legacy; auto. }
  destruct (List.find _ (map hashed ds')) as [[e hh]|] eqn:Hf; cbn.
  - apply List.find_some in Hf as [Hm%list_elem_of_In Hh]. apply list_elem_of_fmap in Hm as (e' & [= -> ->] & He').
    rewrite <- (Huniq e' He' Hh). done.
  - split; [|done]. intros Hd'. pose proof (List.find_none _ _ Hf (hashed d)) as Hn.
    rewrite <- list_elem_of_In in Hn. specialize (Hn ltac:(apply list_elem_of_fmap; eauto)).
    unfold has_hash, hashed, d_digest in Hn. cbn in Hn. apply orb_false_iff in Hn as [Hn1%bool_decide_eq_false Hn2%bool_decide_eq_false].
    by destruct legacy.
Qed.
End index.

(** ** Leaf keys *)

(** A key without a longer one below it. *)
Definition is_leaf_key (keys : list string) (k : string) : Prop :=
  k ∈ keys /\ forall k', k' ∈ keys -> ~ ancestor k k'.

Section leafs.
Context `{HashOrderLaws}.

Lemma app_key_lt (a s : string) : s <> EmptyString -> key_lt a (a ++ s).
Proof.
  unfold key_lt. intros Hs. induction a as [|c a IH]; [by destruct s|].
  change (String c a ++ s)%string with (String c (a ++ s)). cbn [String.compare].
  unfold Ascii.compare. by rewrite N.compare_refl.
Qed.

Lemma ancestor_lt (a b : string) : ancestor a b -> key_lt a b.
Proof.
  intros Hab%ancestor_iff. apply starts_with_spec in Hab as [s ->]. rewrite str_app_assoc.
  apply app_key_lt. done.
Qed.

Lemma str_ge_lt (a b : string) : str_ge a b = false <-> key_lt a b.
Proof. unfold str_ge, key_lt. by destruct (String.compare a b). Qed.

Lemma str_ge_total (a b : string) : str_ge a b = true \/ str_ge b a = true.
Proof.
  destruct (str_ge a b) eqn:Hab; [by left|right]. destruct (str_ge b a) eqn:Hba; [done|].
  apply str_ge_lt in Hab, Hba. destruct (key_lt_self a). by trans b.
Qed.

Lemma str_ge_trans (a b c : string) : str_ge a b = true -> str_ge b c = true -> str_ge a c = true.
Proof.
  intros Hab Hbc. destruct (str_ge a c) eqn:Hac; [done|]. apply str_ge_lt in Hac.
  destruct (String.compare b a) eqn:Hba.
  - apply String.compare_eq_iff in Hba as ->. apply str_ge_lt in Hac. congruence.
  - assert (str_ge b c = false); [|congruence]. apply str_ge_lt. by trans a.
  - apply key_compare_gt, str_ge_lt in Hba. congruence.
Qed.

Lemma insert_by_ge_sorted (x : string) (l : list string) : StronglySorted (fun a b => str_ge a b = true) l ->
  StronglySorted (fun a b => str_ge a b = true) (insert_by str_ge x l).
Proof.
  induction l as [|y l IH]; intros Hl; cbn [insert_by]; [by repeat constructor|].
  apply StronglySorted_inv in Hl as [Hl Hy]. destruct (str_ge x y) eqn:Hxy.
  - constructor; [by constructor|]. constructor; [done|]. eapply Forall_impl; [exact Hy|]. intros z Hz. by eapply str_ge_trans.
  - constructor; [auto|]. rewrite insert_by_perm. constructor; [|done].
    by destruct (str_ge_total x y); [congruence|].
Qed.

Lemma sort_by_ge_sorted (l : list string) : StronglySorted (fun a b => str_ge a b = true) (sort_by str_ge l).
Proof. unfold sort_by. induction l as [|x l IH]; [constructor|]. cbn [foldr]. by apply insert_by_ge_sorted. Qed.

Definition add_leaf (leafs : gset string) (key : string) : gset string :=
  if existsb (starts_with (key ++ marker_str)) (elements leafs) then leafs else {[key]} ∪ leafs.

Lemma in_snoc {A : Type} (x y : A) (l : list A) : x ∈ l ++ [y] <-> x ∈ l \/ x = y.
Proof. by rewrite elem_of_app, list_elem_of_singleton. Qed.

Lemma leaf_key_snoc (seen : list string) (x k : string) : (forall k', k' ∈ seen -> ~ ancestor k' x) ->
  is_leaf_key (seen ++ [x]) k <-> is_leaf_key seen k \/ (k = x /\ forall k', k' ∈ seen -> ~ ancestor x k').
Proof.
  intros Hnot. unfold is_leaf_key. setoid_rewrite in_snoc. split.
  - intros [[Hk| ->] Hno]; [left|right]; split; auto.
  - intros [[Hk Hno]|[-> Hno]]; (split; [auto|]); intros q [Hq| ->]; auto.
    intros Ha. by apply ancestor_lt, key_lt_self in Ha.
Qed.

(** [seen] is what was read before: its leaves are in the set. *)
Lemma add_leafs (l seen : list string) (leafs : gset string) :
  StronglySorted (fun a b => str_ge a b = true) l ->
  (forall a b, a ∈ seen -> b ∈ l -> str_ge a b = true) ->
  (forall k, k ∈ leafs <-> is_leaf_key seen k) ->
  (forall k, k ∈ seen -> exists k', k' ∈ leafs /\ (k' = k \/ ancestor k k')) ->
  forall k, k ∈ foldl add_leaf leafs l <-> is_leaf_key (seen ++ l) k.
Proof.
  revert seen leafs. induction l as [|x l IH]; intros seen leafs Hl Hge Hleafs Hcov k.
  { rewrite app_nil_r. apply Hleafs. }
  apply StronglySorted_inv in Hl as [Hl Hx]. rewrite Forall_forall in Hx. cbn [foldl].
  assert (existsb (starts_with (x ++ marker_str)) (elements leafs) = true <-> exists k', k' ∈ seen /\ ancestor x k') as Hany.
  { rewrite existsb_elem. split.
    - intros (k' & Hk'%elem_of_elements & Ha). exists k'. split; [by apply Hleafs|by apply ancestor_iff].
    - intros (k' & Hk' & Ha). destruct (Hcov k' Hk') as (k'' & Hk'' & Hor). exists k''.
      split; [by apply elem_of_elements|]. apply ancestor_iff. destruct Hor as [->|]; [done|by eapply ancestor_trans]. }
  assert (forall k', k' ∈ seen -> ~ ancestor k' x) as Hnot.
  { intros k' Hk' Ha%ancestor_lt%str_ge_lt. by rewrite (Hge k' x Hk') in Ha by left. }
  replace (seen ++ x :: l) with ((seen ++ [x]) ++ l) by (by rewrite <- app_assoc).
  apply IH; [done|..].
  - intros a b [Ha| ->]%in_snoc Hb; [apply Hge; [done|by right]|auto].
  - intros k'. rewrite leaf_key_snoc by done. unfold add_leaf. destruct (existsb _ _) eqn:He.
    + destruct (proj1 Hany eq_refl) as (z & Hz & Haz). rewrite Hleafs. split; [by left|]. intros [|[-> Hno]]; [done|].
      by apply Hno in Haz.
    + rewrite elem_of_union, elem_of_singleton, Hleafs. split; [intros [->|]; [right|by left]|naive_solver].
      split; [done|]. intros q Hq Ha. discriminate (proj2 Hany). eauto.
  - intros k' Hin%in_snoc. unfold add_leaf. destruct (existsb _ _) eqn:He.
    + destruct Hin as [| ->]; [auto|]. apply existsb_elem in He as (q & Hq%elem_of_elements & Ha).
      exists q. split; [done|]. right. by apply ancestor_iff.
    + destruct Hin as [Hin| ->]; [|exists x; split; [set_solver|by left]].
      destruct (Hcov k' Hin) as (q & Hq & Hor). exists q. split; [set_solver|done].
Qed.

Lemma paths_to_leafs_spec keys k : k ∈ paths_to_leafs keys <-> is_leaf_key keys k.
Proof.
  unfold paths_to_leafs. rewrite hash_order_perm, elem_of_elements.
  change (k ∈ foldl add_leaf ∅ (sort_by str_ge keys) <-> is_leaf_key keys k). rewrite (add_leafs _ []).
  - unfold is_leaf_key. cbn [app]. by setoid_rewrite sort_by_perm.
  - apply sort_by_ge_sorted.
  - by intros a b ?%not_elem_of_nil.
  - intros q. split; [set_solver|]. by intros [?%not_elem_of_nil _].
  - by intros q ?%not_elem_of_nil.
Qed.
End leafs.

(** ** The selection *)

(** The disclosures a key selects: those on its way, and all below the node
    it names. *)
Definition key_selection (t : SdTree) (key_parts : list string) : list Disclosure :=
  match walk_tree t key_parts with
  | Ok (ds, Some s) => ds ++ collected s
  | Ok (ds, None) => ds
  | _ => []
  end.

Section selecting.
Context `{HasherLaws} `{HashOrderLaws} `{DigestStyle} `{SdCodec}.

Lemma select_fold (M : gmap string Disclosure) t depth keys (acc : gset string) :
  wf_tree t -> indexed M t -> (height t <= depth)%nat ->
  (forall k, k ∈ keys -> SELECTIVE_DISCLOSURE_MARKER ∉ split_on marker k /\ is_ok (walk_tree t (split_on marker k)) = true) ->
  exists out, try_fold (fun result disclosed_key =>
    r ← walk_key (payload t) (split_on marker disclosed_key) M result;
    match snd r with
    | Some current_node =>
        sub ← collect_all_subdisclosures depth current_node M;
        Ok (list_to_set sub ∪ fst r)
    | None => Ok (fst r)
    end) acc keys = Ok out /\
  forall s, s ∈ out <-> s ∈ acc \/ exists k d, k ∈ keys /\ d ∈ key_selection t (split_on marker k) /\ s = d_text d.
Proof.
  intros Hwf HM Hd. revert acc. induction keys as [|k keys IH]; intros acc Hk.
  { exists acc. split; [done|]. intros s. split; [by left|]. intros [|(? & ? & ?%not_elem_of_nil & _)]; done. }
  destruct (Hk k) as [Hm Hok]; [left|]. cbn [try_fold]. rewrite (walk_correct M) by done.
  assert (forall r acc', on_payload acc (walk_tree t (split_on marker k)) = Ok r ->
    match snd r with
    | Some current_node =>
        sub ← collect_all_subdisclosures depth current_node M; Ok (list_to_set sub ∪ fst r)
    | None => Ok (fst r)
    end = Ok acc' -> forall s, s ∈ acc' <-> s ∈ acc \/ exists d, d ∈ key_selection t (split_on marker k) /\ s = d_text d) as Hstep.
  { intros r acc' Hr Hacc s. unfold key_selection.
    destruct (walk_tree t (split_on marker k)) as [[ds [e|]]| |] eqn:Hw; cbn in Hr; inv_res; subst; cbn [snd fst fmap option_fmap option_map] in Hacc.
    - rewrite (walk_ends M (split_on marker k) t ds e) in Hacc by done. cbn in Hacc. injection Hacc as <-.
      rewrite !elem_of_union, !elem_of_list_to_set, !list_elem_of_fmap. setoid_rewrite elem_of_app. naive_solver.
    - injection Hacc as <-. rewrite elem_of_union, elem_of_list_to_set, list_elem_of_fmap. naive_solver. }
  destruct (walk_tree t (split_on marker k)) as [[ds os]| |] eqn:Hw; [|done..]. cbn [on_payload mbind res_bind] in *.
  assert (exists acc', match snd (list_to_set (map d_text ds) ∪ acc, payload <$> os) with
    | Some current_node =>
        sub ← collect_all_subdisclosures depth current_node M;
        Ok (list_to_set sub ∪ fst (list_to_set (map d_text ds) ∪ acc, payload <$> os))
    | None => Ok (fst (list_to_set (map d_text ds) ∪ acc, payload <$> os))
    end = Ok acc') as [acc' Hacc].
  { destruct os as [e|]; cbn [snd fst fmap option_fmap option_map]; [|by eexists].
    rewrite (walk_ends M (split_on marker k) t ds e) by done. by eexists. }
  specialize (Hstep _ acc' eq_refl Hacc). rewrite Hacc. cbn [mbind res_bind].
  destruct (IH acc') as (out & Hout & Hiff); [intros q Hq; apply Hk; by right|]. exists out. split; [exact Hout|].
  intros s. rewrite Hiff, Hstep. setoid_rewrite elem_of_cons. naive_solver.
Qed.

Lemma select_tree_spec all t depth keys :
  wf_tree t -> distinct all -> (forall d, d ∈ nodes t -> d ∈ all) -> (height t <= depth)%nat ->
  (forall k, is_leaf_key keys k ->
     SELECTIVE_DISCLOSURE_MARKER ∉ split_on marker k /\ is_ok (walk_tree t (split_on marker k)) = true) ->
  exists out, select_disclosures depth keys (payload t) all = Ok out /\ NoDup out /\
    forall s, s ∈ out <-> exists k d, is_leaf_key keys k /\ d ∈ key_selection t (split_on marker k) /\ s = d_text d.
Proof.
  intros Hwf Hall Hsub Hd Hk. unfold select_disclosures.
  destruct (compute_digests_spec all Hall) as (M & -> & HM). cbn [mbind res_bind].
  destruct (select_fold M t depth (paths_to_leafs keys) ∅) as (out & Hout & Hiff); [done| |done| |].
  - intros d Hd'%Hsub. unfold d_digest. by destruct legacy; apply HM.
  - intros k Hin%paths_to_leafs_spec. auto.
  - rewrite Hout. cbn [mbind res_bind]. eexists. split; [done|]. split; [rewrite hash_order_perm; apply NoDup_elements|].
    intros s. rewrite hash_order_perm, elem_of_elements, Hiff. setoid_rewrite paths_to_leafs_spec. set_solver.
Qed.
End selecting.
