(* ===== verification/SdIssue.v ===== *)
(** * Issuing disclosures

    The issuer's side of the disclosures: the laws of the codecs, the
    relation between a claim and the tree of disclosures that is computed for
    it, and the proof that [compute_object_disclosures] computes such a tree. *)

From S2P Require Import Prelude Paths SdValue SdDisclosures SdTree SdSelect.
From Stdlib Require Import Ascii String Sorted.
#[local] Notation length := Datatypes.length.

(** ** Laws of the codecs *)

Fixpoint all_chars (p : ascii -> bool) (s : string) : bool :=
  match s with EmptyString => true | String a s => p a && all_chars p s end.

(** The alphabet of base64url. *)
Definition is_b64url (a : ascii) : bool :=
  byte_in 48 57 a || byte_in 65 90 a || byte_in 97 122 a || byte_in 45 45 a || byte_in 95 95 a.

Fixpoint keys_ascending (l : list string) : bool :=
  match l with
  | x :: ((y :: _) as l') => match String.compare x y with Lt => keys_ascending l' | _ => false end
  | _ => true
  end.

(** The values of a [serde_json] program: its strings are valid, its maps are
    in the order of their keys, and its numbers ([reads_back]) are those that
    are parsed as they were printed. *)
Fixpoint json_ok (reads_back : string -> bool) (v : Value) : bool :=
  match v with
  | VNull | VBool _ => true
  | VNumber n => reads_back n
  | VString s => utf8_valid s
  | VArray l => forallb (json_ok reads_back) l
  | VObject m => keys_ascending (map fst m) && forallb (fun '(k, v) => utf8_valid k && json_ok reads_back v) m
  end.

Class SdCodecLaws `{SdCodec} := {
  number_reads_back : string -> bool;
  b64url_roundtrip : forall s, exists e, b64url_encode s = Some e /\ b64url_decode e = Some s /\ all_chars is_b64url e = true;
  b64url_nonempty : forall s, b64url_encode s = Some EmptyString -> s = EmptyString;
  value_text_utf8 : forall v, json_ok number_reads_back v = true -> utf8_valid (value_to_string v) = true;
  value_text_nonempty : forall v, value_to_string v <> EmptyString;
  disclosure_array_reads : forall salt key v,
    json_ok number_reads_back (VArray [VString salt; VString key; v]) = true ->
    disclosure_array_from_str (value_to_string (VArray [VString salt; VString key; v])) = Some (salt, key, v);
  disclosure_element_reads : forall salt v,
    json_ok number_reads_back (VArray [VString salt; v]) = true ->
    disclosure_array_from_str (value_to_string (VArray [VString salt; v])) = None /\
    disclosure_array_element_from_str (value_to_string (VArray [VString salt; v])) = Some (salt, v);
  salt_utf8 : forall n, utf8_valid (salt_at n) = true
}.

(** A hash is printed in base64url. *)
Class HashText `{Hasher} := { hash_text : forall s h, hash_base64_url s = Some h -> all_chars is_b64url h = true }.

(** The style of the digests that are issued now. *)
Definition current_style : DigestStyle := {| legacy := false |}.

(** ** What is issued *)

(** [genuine d]: [d] is read from its own text. *)
Record genuine `{SdCodec} (d : Disclosure) : Prop := {
  genuine_decodes : b64url_decode (d_text d) = Some (d_array d);
  genuine_utf8 : utf8_valid (d_array d) = true;
  genuine_parses : parse_disclosure (d_array d) (d_text d) = Ok d;
  genuine_text : all_chars is_b64url (d_text d) = true;
  genuine_nonempty : d_text d <> EmptyString
}.

(** [issued sd v t]: every member of an object of [v], and every element of an
    array when [sd], is behind a disclosure of its own in [t]. *)
Inductive issued `{Hasher} `{DigestStyle} (sd : bool) : Value -> SdTree -> Prop :=
| issued_leaf v :
    as_object v = None -> (sd = true -> as_array v = None) -> issued sd v (TLeaf v)
| issued_object m hs hs' :
    hs' ≡ₚ hs ->
    Forall2 (fun e h => d_key (fst h) = Some (fst e) /\ d_value (fst h) = payload (snd h) /\ issued sd (snd e) (snd h)) m hs ->
    issued sd (VObject m) (TObject [] (Some hs'))
| issued_array l es :
    sd = true ->
    Forall2 (fun v e => exists d, fst e = Some d /\ d_value d = payload (snd e) /\ issued sd v (snd e)) l es ->
    issued sd (VArray l) (TArray es).

Section issuing.
Context `{SdCodecLaws} `{HasherLaws} `{!HashText}.
#[local] Existing Instance current_style.

Lemma byte_in_ascii (lo hi : N) (a : ascii) : byte_in lo hi a = true -> (hi <= 127)%N -> byte_in 0 127 a = true.
Proof. unfold byte_in. rewrite !andb_true_iff, !N.leb_le. lia. Qed.

Lemma b64url_ascii (a : ascii) : is_b64url a = true -> byte_in 0 127 a = true.
Proof.
  unfold is_b64url. rewrite !orb_true_iff. intros [[[[Ha|Ha]|Ha]|Ha]|Ha]; by apply byte_in_ascii in Ha.
Qed.

Lemma b64url_utf8 (s : string) : all_chars is_b64url s = true -> utf8_valid s = true.
Proof.
  induction s as [|a s IH]; [done|]. cbn [all_chars utf8_valid]. intros [Ha%b64url_ascii Hs]%andb_true_iff.
  rewrite Ha. auto.
Qed.

Lemma digest_chars (s : string) : all_chars is_b64url (digest s) = true.
Proof. unfold digest. destruct (hash_base64_url s) as [h|] eqn:Hh; [by eapply hash_text|done]. Qed.

Lemma digest_utf8 (s : string) : utf8_valid (digest s) = true.
Proof. apply b64url_utf8, digest_chars. Qed.

#[local] Notation ok v := (json_ok number_reads_back v = true).

Lemma json_ok_array {A : Type} (f : A -> Value) (l : list A) : (forall a, ok (f a)) -> ok (VArray (map f l)).
Proof. intros Hf. cbn [json_ok]. apply List.forallb_forall. intros v (a & <- & _)%in_map_iff. apply Hf. Qed.

(** Encoding the array of a disclosure. *)
Lemma encode_genuine (arr : string) (mk : string -> string -> Disclosure) :
  utf8_valid arr = true -> arr <> EmptyString -> (forall txt, parse_disclosure arr txt = Ok (mk arr txt)) ->
  (forall txt, d_array (mk arr txt) = arr /\ d_text (mk arr txt) = txt) ->
  exists d txt, d = mk arr txt /\ encode arr = Ok (d_text d) /\ genuine d.
Proof.
  intros Hu Hne Hp Hd. destruct (b64url_roundtrip arr) as (e & He & Hdec & Hch). exists (mk arr e), e.
  destruct (Hd e) as [Hd1 Hd2]. split; [done|]. split; [unfold encode; by rewrite He, Hd2|]. constructor; rewrite ?Hd1, ?Hd2; try done.
  intros ->. by apply Hne, b64url_nonempty.
Qed.

Lemma disclose_member (key : string) (v : Value) (n : nat) : utf8_valid key = true -> ok v ->
  exists d, compute_disclosure_for key v n = (Ok (d_text d), S n) /\ genuine d /\ d_key d = Some key /\ d_value d = v.
Proof.
  intros Hk Hv. set (a := VArray [VString (salt_at n); VString key; v]).
  assert (ok a) as Ha by (cbn; by rewrite salt_utf8, Hk, Hv).
  destruct (encode_genuine (value_to_string a) (mkDisclosure (salt_at n) (Some key) v)) as (d & txt & -> & He & Hg).
  - by apply value_text_utf8.
  - apply value_text_nonempty.
  - intros txt. unfold parse_disclosure, a. by rewrite (disclosure_array_reads _ _ _ Ha).
  - done.
  - eexists. split; [|by split]. unfold compute_disclosure_for, generate_salt. run_M. unfold a in He. by rewrite He.
Qed.

Lemma disclose_element (v : Value) (n : nat) : ok v ->
  exists d, compute_disclosure_for_array_element v n = (Ok (d_text d), S n) /\ genuine d /\ d_key d = None /\ d_value d = v.
Proof.
  intros Hv. set (a := VArray [VString (salt_at n); v]). assert (ok a) as Ha by (cbn; by rewrite salt_utf8, Hv).
  destruct (disclosure_element_reads (salt_at n) v Ha) as [Hr1 Hr2].
  destruct (encode_genuine (value_to_string a) (mkDisclosure (salt_at n) None v)) as (d & txt & -> & He & Hg).
  - by apply value_text_utf8.
  - apply value_text_nonempty.
  - intros txt. unfold parse_disclosure, a. by rewrite Hr1, Hr2.
  - done.
  - eexists. split; [|by split]. unfold compute_disclosure_for_array_element, generate_salt. run_M. unfold a in He. by rewrite He.
Qed.
End issuing.

Section issue_trees.
Context `{SdCodecLaws} `{HasherLaws} `{!HashText}.
#[local] Existing Instance current_style.
#[local] Notation ok v := (json_ok number_reads_back v = true).

(** The value that goes into the disclosure of a member, with the disclosures
    below it. *)
Definition disclose_nested (sd : bool) (value : Value) : M nat FormatterError (list string * Value) :=
  match sd, value with
  | _, VObject _ => r ← compute_object_disclosures sd value; mret (fst r, nested_sd (snd r))
  | true, VArray _ => r ← compute_array_disclosures value; mret (fst r, VArray (sd_element <$> snd r))
  | _, _ => mret ([], value)
  end.

Definition nested_ok (sd : bool) (v : Value) : Prop :=
  forall n, exists t n', disclose_nested sd v n = (Ok (map d_text (nodes t), payload t), n') /\
    issued sd v t /\ (forall d, d ∈ nodes t -> genuine d) /\ ok (payload t).

Lemma disclose_each_spec {A B : Type} (step : A -> M nat FormatterError (list string * string))
  (P : A -> B -> Prop) (texts : B -> list string) (dig : B -> string) (l : list A) :
  (forall a, a ∈ l -> forall n, exists b n', step a n = (Ok (texts b, dig b), n') /\ P a b) ->
  forall ds hs n, exists bs n', disclose_each step ds hs l n = (Ok (ds ++ List.concat (map texts bs), hs ++ map dig bs), n') /\
    Forall2 P l bs.
Proof.
  induction l as [|a l IH]; intros Hs ds hs n.
  { exists [], n. cbn. rewrite !app_nil_r. by split; [|constructor]. }
  destruct (Hs a ltac:(left) n) as (b & n1 & Hb & HP). cbn [disclose_each]. run_M. rewrite Hb. cbn [fst snd].
  destruct (IH (fun a' Ha => Hs a' ltac:(by right)) (ds ++ texts b) (hs ++ [dig b]) n1) as (bs & n2 & Hbs & HF).
  exists (b :: bs), n2. split; [|by constructor]. rewrite Hbs. cbn. by rewrite <- !app_assoc.
Qed.

(** One step of the loop, for a member and for an element. *)
Definition issue_member (sd : bool) (e : string * Value) : M nat FormatterError (list string * string) :=
  let '(key, value) := e in
  nested ← disclose_nested sd value;
  disclosure ← compute_disclosure_for key (snd nested);
  hashed_disclosure ← lift (hash disclosure);
  mret (fst nested ++ [disclosure], hashed_disclosure).
Definition issue_element (value : Value) : M nat FormatterError (list string * string) :=
  nested ← disclose_nested true value;
  disclosure ← compute_disclosure_for_array_element (snd nested);
  hashed_disclosure ← lift (hash disclosure);
  mret (fst nested ++ [disclosure], hashed_disclosure).

Lemma member_step sd key v : utf8_valid key = true -> nested_ok sd v -> forall n, exists h n',
  issue_member sd (key, v) n =
  (Ok (map d_text (nodes (snd h) ++ [fst h]), d_digest (fst h)), n') /\
  (d_key (fst h) = Some key /\ d_value (fst h) = payload (snd h) /\ issued sd v (snd h)) /\
  forall d, d ∈ nodes (snd h) ++ [fst h] -> genuine d.
Proof.
  intros Hk Hv n. destruct (Hv n) as (t & n1 & Hn & Hi & Hg & Ho).
  destruct (disclose_member key (payload t) n1 Hk Ho) as (d & Hd & Hgd & Hdk & Hdv). exists (d, t), (S n1).
  unfold issue_member, issue_element, mbind, M_bind. rewrite Hn. cbn [fst snd]. rewrite Hd. unfold lift. rewrite hash_ok. split.
  - cbn. by rewrite List.map_app.
  - split; [done|]. intros e [He| ->]%in_snoc; auto.
Qed.

Lemma element_step v : nested_ok true v -> forall n, exists h n',
  issue_element v n =
  (Ok (map d_text (nodes (snd h) ++ [fst h]), d_digest (fst h)), n') /\
  (d_value (fst h) = payload (snd h) /\ issued true v (snd h)) /\
  forall d, d ∈ nodes (snd h) ++ [fst h] -> genuine d.
Proof.
  intros Hv n. destruct (Hv n) as (t & n1 & Hn & Hi & Hg & Ho).
  destruct (disclose_element (payload t) n1 Ho) as (d & Hd & Hgd & Hdk & Hdv). exists (d, t), (S n1).
  unfold issue_member, issue_element, mbind, M_bind. rewrite Hn. cbn [fst snd]. rewrite Hd. unfold lift. rewrite hash_ok. split.
  - cbn. by rewrite List.map_app.
  - split; [done|]. intros e [He| ->]%in_snoc; auto.
Qed.

Lemma nodes_texts (hs : list (Disclosure * SdTree)) :
  List.concat (map (fun h => map d_text (nodes (snd h) ++ [fst h])) hs) = map d_text (nodes (TObject [] (Some hs))).
Proof.
  cbn [nodes flat_map app]. rewrite List.flat_map_concat_map, List.concat_map, List.map_map. f_equal.
  apply List.map_ext. by intros [d t].
Qed.

Lemma elems_texts (hs : list (Disclosure * SdTree)) :
  List.concat (map (fun h => map d_text (nodes (snd h) ++ [fst h])) hs) =
  map d_text (nodes (TArray (map (fun h => (Some (fst h), snd h)) hs))).
Proof.
  cbn [nodes]. rewrite List.flat_map_concat_map, List.concat_map, !List.map_map. f_equal.
Qed.

Lemma keys_json_ok m k v : ok (VObject m) -> (k, v) ∈ m -> utf8_valid k = true /\ ok v.
Proof.
  cbn [json_ok]. rewrite andb_true_iff, List.forallb_forall. intros [_ Hm] Hin%list_elem_of_In.
  specialize (Hm _ Hin). cbn in Hm. by apply andb_true_iff in Hm.
Qed.

Lemma compute_object_eq sd m : compute_object_disclosures sd (VObject m) = disclose_each (issue_member sd) [] [] m.
Proof. reflexivity. Qed.

Lemma compute_array_eq l : compute_array_disclosures (VArray l) = disclose_each issue_element [] [] l.
Proof. reflexivity. Qed.

Lemma Forall2_elem_r {A B : Type} (P : A -> B -> Prop) l k y : Forall2 P l k -> y ∈ k -> exists x, x ∈ l /\ P x y.
Proof.
  induction 1 as [|x z l k Hxz HF IH]; [by intros ?%not_elem_of_nil|].
  intros [->|Hin]%elem_of_cons; [exists x; split; [left|done]|].
  destruct (IH Hin) as (q & ? & ?). exists q. split; [by right|done].
Qed.

Definition below_genuine (h : Disclosure * SdTree) : Prop := forall d, d ∈ nodes (snd h) ++ [fst h] -> genuine d.

Lemma object_issued sd m : ok (VObject m) -> (forall k v, (k, v) ∈ m -> nested_ok sd v) -> forall n, exists hs n',
  compute_object_disclosures sd (VObject m) n =
    (Ok (map d_text (nodes (TObject [] (Some hs))), map (fun h => d_digest (fst h)) hs), n') /\
  issued sd (VObject m) (TObject [] (Some hs)) /\ forall d, d ∈ nodes (TObject [] (Some hs)) -> genuine d.
Proof.
  intros Ho Hm n. rewrite compute_object_eq.
  destruct (disclose_each_spec (issue_member sd) (fun e h => (d_key (fst h) = Some (fst e) /\ d_value (fst h) = payload (snd h) /\
      issued sd (snd e) (snd h)) /\ below_genuine h)
    (fun h => map d_text (nodes (snd h) ++ [fst h])) (fun h => d_digest (fst h)) m) with (ds := @nil string) (hs := @nil string) (n := n) as (hs & n' & Hr & HF).
  - intros [k v] Hin. destruct (keys_json_ok m k v Ho Hin) as [Hk Hv]. exact (member_step sd k v Hk (Hm k v Hin)).
  - exists hs, n'. split; [rewrite <- nodes_texts; exact Hr|]. split.
    + apply (issued_object sd m hs hs); [done|]. eapply Forall2_impl; [exact HF|]. by intros e h [? _].
    + intros d Hd. cbn [nodes flat_map app] in Hd.
      apply list_elem_of_In, in_flat_map in Hd as ([e t] & Hh%list_elem_of_In & Hd%list_elem_of_In).
      destruct (Forall2_elem_r _ _ _ _ HF Hh) as (x & _ & _ & Hg). by apply Hg.
Qed.

Lemma array_issued l : (forall v, v ∈ l -> nested_ok true v) -> forall n, exists hs n',
  compute_array_disclosures (VArray l) n =
    (Ok (map d_text (nodes (TArray (map (fun h => (Some (fst h), snd h)) hs))), map (fun h => d_digest (fst h)) hs), n') /\
  issued true (VArray l) (TArray (map (fun h => (Some (fst h), snd h)) hs)) /\
  forall d, d ∈ nodes (TArray (map (fun h => (Some (fst h), snd h)) hs)) -> genuine d.
Proof.
  intros Hm n. rewrite compute_array_eq.
  destruct (disclose_each_spec issue_element (fun v h => (d_value (fst h) = payload (snd h) /\ issued true v (snd h)) /\ below_genuine h)
    (fun h => map d_text (nodes (snd h) ++ [fst h])) (fun h => d_digest (fst h)) l) with (ds := @nil string) (hs := @nil string) (n := n) as (hs & n' & Hr & HF).
  - intros v Hin. exact (element_step v (Hm v Hin)).
  - exists hs, n'. split; [rewrite <- elems_texts; exact Hr|]. split.
    + apply issued_array; [done|]. apply Forall2_fmap_r. eapply Forall2_impl; [exact HF|].
      intros v h [[? ?] _]. by exists (fst h).
    + intros d Hd. cbn [nodes] in Hd. rewrite List.flat_map_concat_map, List.map_map, <- List.flat_map_concat_map in Hd.
      apply list_elem_of_In, in_flat_map in Hd as ([e t] & Hh%list_elem_of_In & Hd%list_elem_of_In).
      destruct (Forall2_elem_r _ _ _ _ HF Hh) as (x & _ & _ & Hg). by apply Hg.
Qed.

Lemma payload_sd hs : payload (TObject [] (Some hs)) = nested_sd (map (fun h => d_digest (fst h)) hs).
Proof.
  cbn [payload map map_insert]. unfold nested_sd. do 4 f_equal. induction hs as [|[d t] hs IH]; [done|].
  cbn. f_equal. exact IH.
Qed.

Lemma nested_leaf sd v : ok v -> as_object v = None -> (sd = true -> as_array v = None) -> nested_ok sd v.
Proof.
  intros Hv Ho Ha n. exists (TLeaf v), n. split; [|split; [by constructor|split; [by intros d ?%not_elem_of_nil|done]]].
  unfold disclose_nested. destruct sd, v; try done. by specialize (Ha eq_refl).
Qed.

Lemma nested_issued sd (v : Value) : ok v -> nested_ok sd v.
Proof.
  induction v as [| | | |l IH|m IH] using value_rec; intros Hv; try (by apply nested_leaf).
  - destruct sd; [|by apply nested_leaf]. intros n. destruct (array_issued l) with (n := n) as (hs & n' & Hc & Hi & Hg).
    { intros v Hin. apply IH; [done|]. cbn [json_ok] in Hv. rewrite List.forallb_forall in Hv. by apply Hv, list_elem_of_In. }
    eexists _, n'. split; [|split; [exact Hi|split; [exact Hg|]]].
    + unfold disclose_nested, mbind, M_bind. rewrite Hc. cbn [fst snd payload mret M_ret]. repeat f_equal.
      rewrite List.map_map. unfold fmap, list_fmap. rewrite List.map_map. done.
    + cbn [payload]. rewrite List.map_map. apply json_ok_array. intros h. cbn. unfold d_digest. by rewrite digest_utf8.
  - intros n. destruct (object_issued sd m Hv) with (n := n) as (hs & n' & Hc & Hi & Hg).
    { intros k v Hin. apply (IH k v Hin). by apply (keys_json_ok m k). }
    exists (TObject [] (Some hs)), n'. split; [|split; [exact Hi|split; [exact Hg|]]].
    + assert (payload (TObject [] (Some hs)) = nested_sd (map (fun h => d_digest (fst h)) hs)) as ->.
      { apply payload_sd. }
      unfold disclose_nested, mbind, M_bind. by destruct sd; rewrite Hc.
    + pose proof (json_ok_array (fun '(d, _) => VString (d_digest d)) hs) as Ha. cbn [payload map map_insert json_ok fst keys_ascending forallb].
      cbn [json_ok] in Ha. rewrite Ha; [done|]. intros [d t]. cbn. apply digest_utf8.
Qed.
End issue_trees.
