(* ===== verification/SdView.v ===== *)
(** * What a verifier sees

    The view of the claims that a set of keys discloses, and the proof that
    the expansion of the selected disclosures of an issued credential shows
    exactly this view. *)

From S2P Require Import Prelude Paths SdValue SdDisclosures SdTree SdSelect SdIssue.
From Stdlib Require Import Ascii String Sorted.
#[local] Notation length := Datatypes.length.

(** ** Views *)

(** What is left of the keys below the member [k], and below the element [i].
    A key that ends here selects everything. *)
Definition is_end (p : list string) : bool := match p with [] => true | _ => false end.
Definition below (here : string -> bool) (K : list (list string)) : list (list string) :=
  if existsb is_end K then [[]]
  else omap (fun p => match p with k :: p => if here k then Some p else None | [] => None end) K.
Definition below_key (K : list (list string)) (k : string) : list (list string) := below (String.eqb k) K.
Definition below_index (K : list (list string)) (i : nat) : list (list string) :=
  below (fun k => bool_decide (Z.to_nat <$> usize_from_str k = Some i)) K.

Definition nonempty {A : Type} (l : list A) : bool := match l with [] => false | _ => true end.

(** [shows sd K v c]: [c] has those members of the objects of [v] that a key of
    [K] selects, all marked as selectively disclosable, and has the digest of
    an array element that no key selects in its place. *)
Inductive shows (sd : bool) : list (list string) -> Value -> CredentialClaimValue -> Prop :=
| shows_leaf K v :
    as_object v = None -> (sd = true -> as_array v = None) -> shows sd K v (leaf_claim v)
| shows_object K m cs :
    Forall2 (fun e c => fst c = fst e /\ exists w, snd c = shown_claim w /\ shows sd (below_key K (fst e)) (snd e) w)
      (List.filter (fun e => nonempty (below_key K (fst e))) m) cs ->
    shows sd K (VObject m) (CObject cs)
| shows_array K l cs :
    sd = true -> length cs = length l ->
    (forall i v c, l !! i = Some v -> cs !! i = Some c -> nonempty (below_index K i) = true ->
       exists w, c = shown_claim w /\ shows sd (below_index K i) v w) ->
    (forall i c, cs !! i = Some c -> nonempty (below_index K i) = false -> exists h, c = sealed_element h) ->
    shows sd K (VArray l) (CArray cs).

(** The claims that can be issued: no claim is null, and an array that is
    disclosed as a whole holds no null element and no marker. *)
Fixpoint issuable (sd : bool) (v : Value) : bool :=
  match v with
  | VNull => false
  | VObject m => forallb (fun '(_, v) => issuable sd v) m
  | VArray l => if sd then forallb (issuable sd) l else markerless v && is_ok (claim_value_try_from v)
  | _ => true
  end.

(** ** Issued trees *)

Section issued_trees.
Context `{Hasher} `{DigestStyle} (reads_back : string -> bool) (sd : bool).
#[local] Notation ok v := (json_ok reads_back v = true).

Lemma keys_ascending_ok {A : Type} (m : list (string * A)) : keys_ascending (map fst m) = true -> map_ok m.
Proof.
  intros Hk. unfold map_ok. apply Sorted_StronglySorted; [exact key_lt_trans|].
  induction m as [|[k a] [|[k' a'] m] IH]; [constructor|by repeat constructor|]. cbn in Hk |- *.
  destruct (String.compare k k') eqn:Hc; [done| |done]. constructor; [by apply IH|]. by constructor.
Qed.

Lemma json_object (m : list (string * Value)) : ok (VObject m) -> map_ok m /\ forall k v, (k, v) ∈ m -> ok v.
Proof.
  cbn [json_ok]. rewrite andb_true_iff, List.forallb_forall. intros [Hk Hm]. split; [by apply keys_ascending_ok|].
  intros k v Hin%list_elem_of_In. specialize (Hm _ Hin). cbn in Hm. by apply andb_true_iff in Hm as [_ ?].
Qed.

(** The members of an issued object, in the order of their keys. *)
Definition member_of (e : string * Value) (h : Disclosure * SdTree) : Prop :=
  d_key (fst h) = Some (fst e) /\ d_value (fst h) = payload (snd h) /\ issued sd (snd e) (snd h).

Lemma member_keys m hs : Forall2 member_of m hs -> map (fun h => key_of (fst h)) hs = map fst m.
Proof.
  induction 1 as [|e h m hs (Hk & _) HF IH]; [done|]. cbn. f_equal; [|exact IH]. unfold key_of. by rewrite Hk.
Qed.

Lemma issued_object_inv m t : issued sd (VObject m) t ->
  exists hs hs', t = TObject [] (Some hs') /\ hs' ≡ₚ hs /\ Forall2 member_of m hs.
Proof. inversion 1; subst; [done|]. eexists _, _. by split. Qed.

Lemma issued_array_inv l t : sd = true -> issued sd (VArray l) t -> exists es, t = TArray es /\
  Forall2 (fun v e => exists d, fst e = Some d /\ d_value d = payload (snd e) /\ issued sd v (snd e)) l es.
Proof. intros Hsd. inversion 1 as [? Ho Ha| |]; subst; [by specialize (Ha eq_refl)|]. eauto. Qed.

Lemma issued_leaf_inv v t : as_object v = None -> (sd = true -> as_array v = None) -> issued sd v t -> t = TLeaf v.
Proof. intros Ho Ha. inversion 1; subst; [done|done|]. by specialize (Ha eq_refl). Qed.

Lemma member_elem m hs hs' d t : hs' ≡ₚ hs -> Forall2 member_of m hs -> (d, t) ∈ hs' ->
  exists k v, (k, v) ∈ m /\ d_key d = Some k /\ d_value d = payload t /\ issued sd v t.
Proof.
  intros Hp HF Hin. rewrite Hp in Hin. destruct (Forall2_elem_r _ _ _ _ HF Hin) as ([k v] & He & Hk & Hv & Hi). by exists k, v.
Qed.

Lemma issued_tree_wf (v : Value) : forall t, ok v -> issuable sd v = true -> issued sd v t -> wf_tree t.
Proof.
  assert (forall v t, issuable sd v = true -> as_object v = None -> (sd = true -> as_array v = None) ->
    issued sd v t -> wf_tree t) as Hleaf.
  { clear v. intros v t Hi Ho Ha Hs. rewrite (issued_leaf_inv v t Ho Ha Hs). destruct v; try done; try by constructor.
    cbn in Hi. destruct sd; [by specialize (Ha eq_refl)|]. apply andb_true_iff in Hi as [? ?]. by constructor. }
  induction v as [| | | |l IH|m IH] using value_rec; intros t Hj Hi Hs; try (by eapply Hleaf).
  - destruct (bool_eq_dec sd true) as [Hsd|Hsd].
    + destruct (issued_array_inv l t Hsd Hs) as (es & -> & HF). constructor. intros od s Hin.
      destruct (Forall2_elem_r _ _ _ _ HF Hin) as (v & Hv & d & Hd & Hval & Hiss). cbn in Hd, Hval, Hiss. split.
      * cbn [issuable] in Hi. rewrite Hsd, List.forallb_forall in Hi. cbn [json_ok] in Hj. rewrite List.forallb_forall in Hj.
        apply (IH v Hv); [by apply Hj, list_elem_of_In|rewrite Hsd; by apply Hi, list_elem_of_In|done].
      * intros e He. congruence.
    + eapply Hleaf; [exact Hi|done|by intros ?|done].
  - destruct (issued_object_inv m t Hs) as (hs & hs' & -> & Hp & HF). destruct (json_object m Hj) as [Hok Hvs].
    cbn [issuable] in Hi. rewrite List.forallb_forall in Hi. constructor.
    + constructor.
    + by intros k t ?%not_elem_of_nil.
    + intros d s Hin. destruct (member_elem m hs hs' d s Hp HF Hin) as (k & v & Hm & Hk & Hv & Hiss).
      split; [|split; [by rewrite Hk|done]]. apply (IH k v Hm); [by apply (Hvs k)| |done].
      apply list_elem_of_In in Hm. by specialize (Hi _ Hm).
    + cbn [fmap list_fmap app default]. change (key_of ∘ fst <$> id hs') with (map (fun h => key_of (fst h)) hs').
      rewrite Hp, (member_keys m) by done. by apply map_ok_NoDup.
Qed.
End issued_trees.

(** ** What a key selects *)

Lemma flat_map_elem {A B : Type} (f : A -> list B) (l : list A) (b : B) : b ∈ flat_map f l <-> exists a, a ∈ l /\ b ∈ f a.
Proof. rewrite list_elem_of_In, in_flat_map. by setoid_rewrite list_elem_of_In. Qed.

Lemma flat_map_NoDup {A B : Type} (f : A -> list B) (l : list A) : NoDup (flat_map f l) ->
  (forall a, a ∈ l -> NoDup (f a)) /\ forall a b x, a ∈ l -> b ∈ l -> x ∈ f a -> x ∈ f b -> a = b.
Proof.
  induction l as [|c l IH]; cbn [flat_map]; intros Hnd.
  { split; [by intros a ?%not_elem_of_nil|by intros a b x ?%not_elem_of_nil]. }
  apply NoDup_app in Hnd as (Hc & Hdis & [IH1 IH2]%IH). split.
  - intros a [->|Ha]%elem_of_cons; auto.
  - intros a b x [->|Ha]%elem_of_cons [->|Hb]%elem_of_cons Hxa Hxb; [done| | |eauto]; exfalso.
    + apply (Hdis x Hxa), flat_map_elem. eauto.
    + apply (Hdis x Hxb), flat_map_elem. eauto.
Qed.

Lemma collected_nodes (t : SdTree) d : d ∈ collected t -> d ∈ nodes t.
Proof.
  revert d. induction t as [v|plain sds IHp IHs|elems IH] using tree_rec; intros d Hd; [done|..].
  - destruct sds as [hs|]; [|by apply not_elem_of_nil in Hd]. cbn [collected] in Hd.
    apply flat_map_elem in Hd as ([e t] & Hin & [Hd| ->]%in_snoc).
    + apply (proj2 (nodes_hidden e t plain hs Hin)), (IHs e t Hin), Hd.
    + apply (proj1 (nodes_hidden e t plain hs Hin)).
  - cbn [collected] in Hd. apply flat_map_elem in Hd as ([[e|] t] & Hin & Hd); [|by apply not_elem_of_nil in Hd].
    eapply nodes_elem; [exact Hin|]. apply elem_of_cons in Hd as [->|Hd]; [by right|left; eauto].
Qed.

Lemma walk_nodes (p : list string) : forall t ds os, walk_tree t p = Ok (ds, os) ->
  (forall d, d ∈ ds -> d ∈ nodes t) /\ (forall s d, os = Some s -> d ∈ nodes s -> d ∈ nodes t).
Proof.
  induction p as [|k p IH]; intros t ds os Hw; cbn [walk_tree] in Hw.
  { injection Hw as <- <-. split; [by intros d ?%not_elem_of_nil|]. by intros s d [= <-]. }
  destruct t as [v|plain sds|elems].
  - destruct v as [| | | |l|m]; try done; [inv_res; by apply IH in Hw|].
    destruct (map_get k m) as [v|]; [by apply IH in Hw|]. injection Hw as <- <-. split; [by intros d ?%not_elem_of_nil|done].
  - destruct (map_get k plain) as [t|] eqn:Ht.
    { apply map_get_elem in Ht. apply IH in Hw as [H1 H2]. split; intros; eapply nodes_plain; eauto. }
    destruct sds as [hs|]; [|injection Hw as <- <-; split; [by intros d ?%not_elem_of_nil|done]]. cbn [default id] in Hw.
    destruct (List.find _ hs) as [[e t]|] eqn:Hf; [|injection Hw as <- <-; split; [by intros d ?%not_elem_of_nil|done]].
    apply List.find_some in Hf as [Hin%list_elem_of_In _]. destruct (walk_tree t p) as [[ds' os']| |] eqn:Hw'; cbn in Hw; [|done..].
    injection Hw as <- <-. apply IH in Hw' as [H1 H2]. destruct (nodes_hidden e t plain hs Hin) as [Hn1 Hn2]. split; [|eauto].
    intros d [->|Hd]%elem_of_cons; eauto.
  - inv_res. destruct a0 as [od t], a1 as [ds' os']. cbn [fst snd] in *. inv_res. subst.
    apply list_elem_of_lookup_2 in Ho. apply IH in Hm1 as [H1 H2]. split.
    + intros d [Hd|Hd]%elem_of_app; eapply nodes_elem; eauto. destruct od as [e|]; [|by apply not_elem_of_nil in Hd].
      right. apply list_elem_of_singleton in Hd. congruence.
    + intros s d -> Hd. eapply nodes_elem; eauto.
Qed.

Lemma selection_nodes t p d : d ∈ key_selection t p -> d ∈ nodes t.
Proof.
  unfold key_selection. destruct (walk_tree t p) as [[ds [s|]]| |] eqn:Hw; [..|by intros ?%not_elem_of_nil|by intros ?%not_elem_of_nil];
    apply walk_nodes in Hw as [H1 H2]; [|auto]. intros [Hd|Hd%collected_nodes]%elem_of_app; eauto.
Qed.

Lemma selection_end t : key_selection t [] = collected t.
Proof. done. Qed.

Lemma selection_member hs k p d t : NoDup (map (fun h => key_of (fst h)) hs) ->
  (forall e s, (e, s) ∈ hs -> is_Some (d_key e)) -> (d, t) ∈ hs -> d_key d = Some k ->
  walk_tree (TObject [] (Some hs)) (k :: p) = (r ← walk_tree t p; Ok (d :: fst r, snd r)).
Proof.
  intros Hnd Hsome Hin Hk. cbn [walk_tree map_get default id].
  destruct (List.find _ hs) as [[e s]|] eqn:Hf.
  - apply List.find_some in Hf as [He%list_elem_of_In Hek%bool_decide_eq_true].
    assert ((e, s) = (d, t)) as [= -> ->]; [|done].
    eapply (NoDup_fmap_inj_elem (fun h => key_of (fst h))); [exact Hnd|done..|]. cbn. unfold key_of. by rewrite Hek, Hk.
  - apply list_elem_of_In, (List.find_none _ _ Hf) in Hin. apply bool_decide_eq_false in Hin. done.
Qed.

Lemma selection_no_member hs k p : (forall e s, (e, s) ∈ hs -> d_key e <> Some k) ->
  walk_tree (TObject [] (Some hs)) (k :: p) = Ok ([], None).
Proof.
  intros Hno. cbn [walk_tree map_get default id]. destruct (List.find _ hs) as [[e s]|] eqn:Hf; [|done].
  apply List.find_some in Hf as [He%list_elem_of_In Hek%bool_decide_eq_true]. by apply Hno in He.
Qed.

(** All the disclosures of an issued tree are reached through digests. *)
Lemma issued_collected `{Hasher} `{DigestStyle} sd (v : Value) : forall t d, issued sd v t -> d ∈ nodes t -> d ∈ collected t.
Proof.
  induction v as [| | | |l IH|m IH] using value_rec; intros t d Hs Hd;
    try (apply issued_leaf_inv in Hs as ->; [by apply not_elem_of_nil in Hd|done|done]).
  - inversion Hs as [| |? es Hsd HF]; subst; [by apply not_elem_of_nil in Hd|].
    cbn [nodes collected] in *. apply flat_map_elem in Hd as ([od t] & Hin & Hd). apply flat_map_elem. exists (od, t). split; [done|].
    destruct (Forall2_elem_r _ _ _ _ HF Hin) as (v & Hv & e & He & _ & Hiss). cbn in He, Hiss. subst od.
    apply in_snoc in Hd as [Hd| ->]; [right; by eapply IH|left].
  - destruct (issued_object_inv sd m t Hs) as (hs & hs' & -> & Hp & HF). cbn [nodes collected flat_map app] in *.
    apply flat_map_elem in Hd as ([e t] & Hin & Hd). apply flat_map_elem. exists (e, t). split; [done|].
    destruct (member_elem sd m hs hs' e t Hp HF Hin) as (k & v & Hm & _ & _ & Hiss).
    apply in_snoc in Hd as [Hd| ->]; apply in_snoc; [left; by eapply IH|by right].
Qed.

Lemma flat_map_NoDup_index {A B : Type} (f : A -> list B) (l : list A) (i j : nat) a b x : NoDup (flat_map f l) ->
  l !! i = Some a -> l !! j = Some b -> x ∈ f a -> x ∈ f b -> i = j.
Proof.
  revert i j. induction l as [|c l IH]; cbn [flat_map]; intros i j Hnd Hi Hj Ha Hb; [done|].
  apply NoDup_app in Hnd as (Hc & Hdis & Hnd).
  assert (forall k q, l !! k = Some q -> x ∈ f q -> x ∉ f c) as Hnot.
  { intros k q Hk Hq Hx. apply (Hdis x Hx), flat_map_elem. exists q. split; [by eapply list_elem_of_lookup_2|done]. }
  destruct i as [|i], j as [|j]; cbn in Hi, Hj; simplify_eq; [done|..].
  - by destruct (Hnot j b).
  - by destruct (Hnot i a).
  - f_equal. by eapply IH.
Qed.

(** ** The view of a child *)

Lemma below_ends here K p : p ∈ K -> is_end p = true -> below here K = [[]].
Proof. intros Hp He. unfold below. by rewrite (proj2 (existsb_elem is_end K)) by eauto. Qed.

Lemma below_elem here K p : p ∈ below here K <->
  (p = [] /\ [] ∈ K) \/ ([] ∉ K /\ exists k, k :: p ∈ K /\ here k = true).
Proof.
  unfold below. destruct (existsb is_end K) eqn:He.
  - apply existsb_elem in He as ([|? ?] & Hin & ?); [|done]. rewrite list_elem_of_singleton. naive_solver.
  - rewrite existsb_false in He. assert ([] ∉ K) as Hno by (intros Hin; by apply He in Hin).
    rewrite list_elem_of_omap. split.
    + intros ([|k q] & Hin & Hq); [done|]. destruct (here k) eqn:Hk; [|done]. injection Hq as ->. right. eauto.
    + intros [[_ ?]|[_ (k & Hin & Hk)]]; [done|]. exists (k :: p). by rewrite Hk.
Qed.

Lemma nonempty_elem {A : Type} (l : list A) : nonempty l = true <-> exists x, x ∈ l.
Proof.
  destruct l as [|x l]; cbn; [|split; [exists x; left|done]]. split; [done|]. by intros [x ?%not_elem_of_nil].
Qed.

Lemma selection_ok_cons t s d k p : walk_tree t (k :: p) = (r ← walk_tree s p; Ok (d :: fst r, snd r)) ->
  is_ok (walk_tree t (k :: p)) = true -> is_ok (walk_tree s p) = true /\ key_selection t (k :: p) = d :: key_selection s p.
Proof.
  unfold key_selection. intros ->. by destruct (walk_tree s p) as [[ds [q|]]| |].
Qed.

Lemma child_view (t s : SdTree) (d : Disclosure) (here : string -> bool) (K : list (list string)) (vis : Disclosure -> bool) :
  (forall k p, here k = true -> walk_tree t (k :: p) = (r ← walk_tree s p; Ok (d :: fst r, snd r))) ->
  (forall k p x, here k = false -> x ∈ key_selection t (k :: p) -> x ∉ nodes s ++ [d]) ->
  (forall x, x ∈ nodes s ++ [d] -> x ∈ collected t) -> (forall x, x ∈ nodes s -> x ∈ collected s) ->
  d ∉ nodes s -> (forall p, p ∈ K -> is_ok (walk_tree t p) = true) ->
  (forall x, x ∈ nodes s ++ [d] -> vis x = true <-> exists p, p ∈ K /\ x ∈ key_selection t p) ->
  vis d = nonempty (below here K) /\
  (forall p, p ∈ below here K -> is_ok (walk_tree s p) = true) /\
  (forall x, x ∈ nodes s -> vis x = true <-> exists p, p ∈ below here K /\ x ∈ key_selection s p).
Proof.
  intros Hstep Hother Hcol Hcol' Hnd Hok Hvis.
  assert (forall k p, k :: p ∈ K -> here k = true -> is_ok (walk_tree s p) = true /\ key_selection t (k :: p) = d :: key_selection s p) as Hin.
  { intros k p Hp Hk. apply selection_ok_cons; auto. }
  assert (forall x k p, x ∈ nodes s ++ [d] -> k :: p ∈ K -> x ∈ key_selection t (k :: p) -> here k = true) as Hhere.
  { intros x k p Hx Hp Hs. destruct (here k) eqn:Hk; [done|]. by apply Hother in Hs. }
  split; [|split].
  - apply eq_true_iff_eq. rewrite Hvis by (apply in_snoc; by right). rewrite nonempty_elem. setoid_rewrite below_elem. split.
    + intros ([|k p] & Hp & Hd); [exists []; by left|].
      destruct (decide ([] ∈ K)) as [He|He]; [exists []; by left|]. exists p. right. split; [done|]. exists k. split; [done|].
      apply (Hhere d k p); [apply in_snoc; by right|done..].
    + intros (p & [[-> He]|(He & k & Hk & Hh)]).
      * exists []. split; [done|]. apply Hcol, in_snoc. by right.
      * exists (k :: p). split; [done|]. rewrite (proj2 (Hin k p Hk Hh)). left.
  - intros p [[-> _]|(He & k & Hk & Hh)]%below_elem; [done|]. by apply (Hin k).
  - intros x Hx. rewrite Hvis by (apply in_snoc; by left). setoid_rewrite below_elem. split.
    + intros ([|k p] & Hp & Hs); [exists []; split; [by left|by apply Hcol']|].
      destruct (decide ([] ∈ K)) as [He|He]; [exists []; split; [by left|by apply Hcol']|].
      assert (here k = true) as Hk by (apply (Hhere x k p); [apply in_snoc; by left|done..]).
      exists p. split; [right; eauto|]. rewrite (proj2 (Hin k p Hp Hk)) in Hs.
      by apply elem_of_cons in Hs as [->|].
    + intros (p & [[-> He]|(He & k & Hk & Hh)] & Hs).
      * exists []. split; [done|]. apply Hcol, in_snoc. by left.
      * exists (k :: p). split; [done|]. rewrite (proj2 (Hin k p Hk Hh)). by right.
Qed.

(** ** The view of an issued tree *)

Lemma Forall2_impl_elem {A B : Type} (P Q : A -> B -> Prop) l k : Forall2 P l k ->
  (forall x y, x ∈ l -> y ∈ k -> P x y -> Q x y) -> Forall2 Q l k.
Proof.
  induction 1 as [|x y l k Hxy HF IH]; intros Hpq; constructor.
  - apply Hpq; [left|left|done].
  - apply IH. intros a b Ha Hb. apply Hpq; by right.
Qed.

Lemma sorted_sublist {A : Type} (R : A -> A -> Prop) (l1 l2 : list A) : l1 `sublist_of` l2 -> StronglySorted R l2 -> StronglySorted R l1.
Proof.
  induction 1 as [|x l1 l2 Hs IH|x l1 l2 Hs IH]; intros Hl; [done|..]; apply StronglySorted_inv in Hl as [Hl Hx].
  - constructor; [auto|]. rewrite Forall_forall in *. intros y Hy. eapply Hx, elem_of_submseteq; [done|]. by apply sublist_submseteq.
  - auto.
Qed.

Section view.
Context `{Hasher} `{DigestStyle} (reads_back : string -> bool) (sd : bool) (vis : Disclosure -> bool).
#[local] Notation ok v := (json_ok reads_back v = true).

(** What is to be shown for a claim, given the tree that was issued for it. *)
Definition view_ok (v : Value) : Prop := forall t K, ok v -> issuable sd v = true -> issued sd v t -> NoDup (nodes t) ->
  (forall p, p ∈ K -> is_ok (walk_tree t p) = true) ->
  (forall d, d ∈ nodes t -> vis d = true <-> exists p, p ∈ K /\ d ∈ key_selection t p) ->
  shows sd K v (reveal vis t).

Definition shown_member (h : Disclosure * SdTree) : list (string * CredentialClaim) :=
  let '(d, t) := h in if vis d then [(key_of d, shown_claim (reveal vis t))] else [].

Lemma shown_members_ordered m hs hs' : map_ok m -> hs' ≡ₚ hs -> Forall2 (member_of sd) m hs ->
  reveal vis (TObject [] (Some hs')) = CObject (flat_map shown_member hs).
Proof.
  intros Hm Hp HF. cbn [reveal map]. f_equal. apply map_extend_perm; [|by apply Permutation_flat_map].
  unfold map_ok in *. eapply sorted_sublist; [|exact Hm]. change (m.*1) with (map fst m). rewrite <- (member_keys sd m hs HF).
  clear. induction hs as [|[d t] hs IH]; [constructor|]. cbn [flat_map shown_member map fst]. rewrite fmap_app.
  destruct (vis d); cbn; [by apply sublist_skip|by apply sublist_cons].
Qed.

Lemma shows_members K m hs :
  Forall2 (fun e h => key_of (fst h) = fst e /\ vis (fst h) = nonempty (below_key K (fst e)) /\
    shows sd (below_key K (fst e)) (snd e) (reveal vis (snd h))) m hs ->
  shows sd K (VObject m) (CObject (flat_map shown_member hs)).
Proof.
  intros HF. constructor. induction HF as [|[k v] [d t] m hs (Hk & Hv & Hs) HF IH]; [constructor|].
  cbn [List.filter flat_map shown_member fst snd] in *. rewrite Hv. destruct (nonempty _); [|exact IH].
  cbn [app]. constructor; [|exact IH]. cbn. split; [done|]. eauto.
Qed.

(** Another member has other disclosures. *)
Lemma other_member hs d s k p x : NoDup (nodes (TObject [] (Some hs))) -> NoDup (map (fun h => key_of (fst h)) hs) ->
  (forall e r, (e, r) ∈ hs -> is_Some (d_key e)) -> (d, s) ∈ hs -> d_key d <> Some k ->
  x ∈ key_selection (TObject [] (Some hs)) (k :: p) -> x ∉ nodes s ++ [d].
Proof.
  intros Hnd Hkeys Hsome Hin Hne Hx Hxs. cbn [nodes flat_map app] in Hnd.
  destruct (List.existsb (fun h => bool_decide (d_key (fst h) = Some k)) hs) eqn:He.
  - apply existsb_elem in He as ([e r] & He & Hk%bool_decide_eq_true). cbn in Hk.
    assert (x ∈ nodes r ++ [e]) as Hxr.
    { unfold key_selection in Hx. rewrite (selection_member hs k p e r) in Hx by done.
      pose proof (selection_nodes r p x) as Hsub. unfold key_selection in Hsub.
      apply in_snoc. destruct (walk_tree r p) as [[ds [q|]]| |]; cbn in Hx; [..|by apply not_elem_of_nil in Hx|by apply not_elem_of_nil in Hx];
        apply elem_of_cons in Hx as [->|Hx]; auto. }
    assert ((e, r) = (d, s)) as [= -> ->]; [|done].
    apply (proj2 (flat_map_NoDup _ _ Hnd) (e, r) (d, s) x); done.
  - rewrite existsb_false in He. unfold key_selection in Hx. rewrite selection_no_member in Hx; [by apply not_elem_of_nil in Hx|].
    intros e r Her Hk. apply He in Her. cbn in Her. by apply bool_decide_eq_false in Her.
Qed.

Lemma view_object m : (forall k v, (k, v) ∈ m -> view_ok v) -> view_ok (VObject m).
Proof.
  intros IH t K Hj Hi Hs Hnd Hok Hvis. pose proof (issued_tree_wf reads_back sd (VObject m) t Hj Hi Hs) as Hwf.
  destruct (issued_object_inv sd m t Hs) as (hs & hs' & -> & Hp & HF). destruct (json_object reads_back m Hj) as [Hmap Hvs].
  rewrite (shown_members_ordered m hs hs') by done. apply shows_members. eapply Forall2_impl_elem; [exact HF|].
  intros [k v] [d s] Hm Hin (Hk & Hval & Hiss). cbn [fst snd] in *. rewrite <- Hp in Hin.
  assert (key_of d = k) as Hkey by (unfold key_of; by rewrite Hk).
  assert (NoDup (map (fun h => key_of (fst h)) hs')) as Hkeys by (rewrite Hp, (member_keys sd m) by done; by apply map_ok_NoDup).
  assert (forall e r, (e, r) ∈ hs' -> is_Some (d_key e)) as Hsome.
  { intros e r Her. destruct (member_elem sd m hs hs' e r Hp HF Her) as (? & ? & _ & -> & _). done. }
  pose proof Hnd as Hnd'. cbn [nodes flat_map app] in Hnd'. apply flat_map_NoDup in Hnd' as [Hndc _].
  specialize (Hndc _ Hin). cbn in Hndc. apply NoDup_app in Hndc as (Hnds & Hdd & _).
  destruct (nodes_hidden d s [] hs' Hin) as [Hn1 Hn2].
  assert (forall x, x ∈ nodes s ++ [d] -> x ∈ nodes (TObject [] (Some hs'))) as Hsub by (intros x [| ->]%in_snoc; auto).
  destruct (child_view (TObject [] (Some hs')) s d (String.eqb k) K vis) as (Hv & Hokc & Hvisc).
  - intros q p <-%String.eqb_eq. by apply selection_member.
  - intros q p x Hq%String.eqb_neq Hx. apply (other_member hs' d s q p); [done..|congruence|done].
  - intros x Hx. apply (issued_collected sd (VObject m)); auto.
  - intros x Hx. by apply (issued_collected sd v).
  - intros Hd. apply (Hdd d Hd). left.
  - done.
  - auto.
  - split; [done|]. split; [done|]. apply (IH k v Hm); [by apply (Hvs k)| |done..].
    cbn [issuable] in Hi. rewrite List.forallb_forall in Hi. apply list_elem_of_In in Hm. by specialize (Hi _ Hm).
Qed.
End view.

Section view_of_arrays.
Context `{Hasher} `{DigestStyle} (reads_back : string -> bool) (sd : bool) (vis : Disclosure -> bool).

Lemma walk_element es i d s k p : es !! i = Some (Some d, s) -> Z.to_nat <$> usize_from_str k = Some i ->
  walk_tree (TArray es) (k :: p) = (r ← walk_tree s p; Ok (d :: fst r, snd r)).
Proof.
  intros Hi Hk. cbn [walk_tree]. destruct (usize_from_str k) as [j|]; [|done]. injection Hk as Hj. cbn. rewrite Hj, Hi. done.
Qed.

(** Another element has other disclosures. *)
Lemma other_element es i d s k p x : NoDup (nodes (TArray es)) -> es !! i = Some (Some d, s) ->
  Z.to_nat <$> usize_from_str k <> Some i -> x ∈ key_selection (TArray es) (k :: p) -> x ∉ nodes s ++ [d].
Proof.
  intros Hnd Hi Hk Hx Hxs. unfold key_selection in Hx. cbn [walk_tree] in Hx.
  destruct (usize_from_str k) as [j|]; cbn in Hx, Hk; [|by apply not_elem_of_nil in Hx].
  destruct (es !! Z.to_nat j) as [[od r]|] eqn:Hj; cbn in Hx; [|by apply not_elem_of_nil in Hx].
  assert (x ∈ nodes r ++ of_option od) as Hxr.
  { pose proof (selection_nodes r p x) as Hsub. unfold key_selection in Hsub. apply elem_of_app.
    destruct (walk_tree r p) as [[ds [q|]]| |]; cbn in Hx; [..|by apply not_elem_of_nil in Hx|by apply not_elem_of_nil in Hx].
    - rewrite <- app_assoc in Hx. apply elem_of_app in Hx as [|]; auto.
    - apply elem_of_app in Hx as [|]; auto. }
  apply Hk. f_equal. cbn [nodes] in Hnd. by eapply (flat_map_NoDup_index _ es _ _ (od, r) (Some d, s) x).
Qed.

Lemma view_array l : sd = true -> (forall v, v ∈ l -> view_ok reads_back sd vis v) -> view_ok reads_back sd vis (VArray l).
Proof.
  intros Hsd IH t K Hj Hi Hs Hnd Hok Hvis. destruct (issued_array_inv sd l t Hsd Hs) as (es & -> & HF). cbn [reveal].
  assert (forall i v od s, l !! i = Some v -> es !! i = Some (od, s) -> exists d, od = Some d /\
    vis d = nonempty (below_index K i) /\ (nonempty (below_index K i) = true -> shows sd (below_index K i) v (reveal vis s))) as Hel.
  { intros i v od s Hv He. destruct (Forall2_lookup_lr _ _ _ _ _ _ HF Hv He) as (d & Hd & Hval & Hiss). cbn in Hd, Hval, Hiss. subst od.
    exists d. split; [done|]. pose proof (list_elem_of_lookup_2 _ _ _ He) as Hin. pose proof (list_elem_of_lookup_2 _ _ _ Hv) as Hvin.
    pose proof Hnd as Hnd'. cbn [nodes] in Hnd'. apply flat_map_NoDup in Hnd' as [Hndc _]. specialize (Hndc _ Hin). cbn in Hndc.
    apply NoDup_app in Hndc as (Hnds & Hdd & _).
    assert (forall x, x ∈ nodes s ++ [d] -> x ∈ nodes (TArray es)) as Hsub.
    { intros x [Hx| ->]%in_snoc; eapply nodes_elem; eauto. }
    destruct (child_view (TArray es) s d (fun k => bool_decide (Z.to_nat <$> usize_from_str k = Some i)) K vis) as (Hvd & Hokc & Hvisc).
    - intros k p Hk%bool_decide_eq_true. by eapply walk_element.
    - intros k p x Hk%bool_decide_eq_false Hx. by eapply other_element.
    - intros x Hx. apply (issued_collected sd (VArray l)); auto.
    - intros x Hx. by apply (issued_collected sd v).
    - intros Hd. apply (Hdd d Hd). left.
    - done.
    - auto.
    - split; [done|]. intros _. apply (IH v Hvin).
      + cbn [json_ok] in Hj. rewrite List.forallb_forall in Hj. by apply Hj, list_elem_of_In.
      + cbn [issuable] in Hi. rewrite Hsd, List.forallb_forall in Hi. rewrite Hsd. by apply Hi, list_elem_of_In.
      + done.
      + done.
      + done.
      + done. }
  constructor; [done|..].
  - rewrite length_map. symmetry. by eapply Forall2_length.
  - intros i v c Hv Hc Hne. change (map ?f es) with (f <$> es) in Hc. rewrite list_lookup_fmap in Hc.
    destruct (es !! i) as [[od s]|] eqn:He; [|done]. injection Hc as <-. destruct (Hel i v od s Hv He) as (d & -> & Hvd & Hsh).
    rewrite Hvd, Hne. eauto.
  - intros i c Hc Hne. change (map ?f es) with (f <$> es) in Hc. rewrite list_lookup_fmap in Hc.
    destruct (es !! i) as [[od s]|] eqn:He; [|done]. injection Hc as <-.
    destruct (Forall2_lookup_r _ _ _ _ _ HF He) as (v & Hv & _). destruct (Hel i v od s Hv He) as (d & -> & Hvd & _).
    rewrite Hvd, Hne. eauto.
Qed.

Lemma view_issued (v : Value) : view_ok reads_back sd vis v.
Proof.
  induction v as [| | | |l IH|m IH] using value_rec;
    try (intros t K Hj Hi Hs Hnd Hok Hvis; apply issued_leaf_inv in Hs as ->; [by constructor|done|done]).
  - destruct (bool_eq_dec sd true) as [Hsd|Hsd]; [by apply view_array|].
    intros t K Hj Hi Hs Hnd Hok Hvis. apply issued_leaf_inv in Hs as ->; [by constructor|done|done].
  - by apply view_object.
Qed.
End view_of_arrays.
