(* ===== verification/SdPresent.v ===== *)
(** * Issuing, presenting and verifying claims

    The digests of the claims inside the payload of a credential, next to its
    plain members, and the composition of the three parties: what the verifier
    sees of the claims that were issued when the holder presents some keys. *)

From S2P Require Import Prelude Paths SdValue SdDisclosures SdTree SdSelect SdIssue SdView.
From Stdlib Require Import Ascii String Sorted.
#[local] Notation length := Datatypes.length.

(** ** Payloads *)

(** The place of the claims in a payload: the members next to the path to
    them, and the name of the member that leads on. *)
Definition Context : Type := list (list (string * Value) * string).
Fixpoint plug (ctx : Context) (v : Value) : Value :=
  match ctx with
  | [] => v
  | (members, k) :: ctx => VObject (map_insert k (plug ctx v) members)
  end.
Definition user_path (ctx : Context) : list string := map snd ctx.

(** The object with the digests of the claims and the plain [members]. *)
Definition subject (members : list (string * Value)) (digests : list string) : Value :=
  VObject (map_insert SELECTIVE_DISCLOSURE_MARKER (VArray (VString <$> digests)) members).

(** Plain members that are taken over as they are. *)
Definition plain_members (members : list (string * Value)) : Prop :=
  map_ok members /\ markerless (VObject members) = true /\
  forall k v, (k, v) ∈ members -> is_ok (claim_value_try_from v) = true.

Definition plain_name (k : string) : Prop :=
  k <> SELECTIVE_DISCLOSURE_MARKER /\ k <> SELECTIVE_DISCLOSURE_ARRAY_MARKER.

Fixpoint plain_context (ctx : Context) : Prop :=
  match ctx with
  | [] => True
  | (members, k) :: ctx => plain_members members /\ plain_name k /\ plain_context ctx
  end.

(** The claim at a path. *)
Fixpoint claim_at (c : CredentialClaimValue) (path : list string) : option CredentialClaimValue :=
  match path with
  | [] => Some c
  | k :: path => m ← claim_as_object c; q ← map_get k m; claim_at (claim_value q) path
  end.

(** ** Their trees *)

Definition leafs (members : list (string * Value)) : list (string * SdTree) := map (fun '(k, v) => (k, TLeaf v)) members.
Fixpoint plug_tree (ctx : Context) (t : SdTree) : SdTree :=
  match ctx with
  | [] => t
  | (members, k) :: ctx => TObject (map_insert k (plug_tree ctx t) (leafs members)) None
  end.

Section payload_trees.
Context `{Hasher} `{DigestStyle}.

Lemma leafs_payload members : map (fun '(k, t) => (k, payload t)) (leafs members) = members.
Proof. unfold leafs. rewrite List.map_map. rewrite <- (List.map_id members) at 2. apply List.map_ext. by intros [k v]. Qed.

Lemma plug_payload ctx t : payload (plug_tree ctx t) = plug ctx (payload t).
Proof.
  induction ctx as [|[members k] ctx IH]; [done|]. cbn [plug_tree payload plug]. by rewrite (map_insert_map payload), leafs_payload, IH.
Qed.

Lemma subject_payload members hs :
  payload (TObject (leafs members) (Some hs)) = subject members (map (fun h => d_digest (fst h)) hs).
Proof.
  cbn [payload]. rewrite leafs_payload. unfold subject. do 3 f_equal. induction hs as [|[d t] hs IH]; [done|].
  cbn. f_equal. exact IH.
Qed.

Lemma leafs_elem members k t : (k, t) ∈ leafs members -> exists v, t = TLeaf v /\ (k, v) ∈ members.
Proof. intros ([q v] & [= -> ->] & Hin)%list_elem_of_fmap. eauto. Qed.

Lemma leafs_wf members k t : plain_members members -> (k, t) ∈ leafs members -> wf_tree t /\ plain_name k.
Proof.
  intros (Hok & Hm & Hc) (v & -> & Hin)%leafs_elem. destruct (markerless_member members k v Hm Hin) as (? & ? & ?).
  split; [|done]. constructor; [done|]. by eapply Hc.
Qed.

Lemma leafs_nodes members : flat_map (fun '(_, t) => nodes t) (leafs members) = [].
Proof. unfold leafs. induction members as [|[k v] members IH]; [done|]. exact IH. Qed.

Lemma plug_wf ctx t : plain_context ctx -> wf_tree t -> wf_tree (plug_tree ctx t).
Proof.
  induction ctx as [|[members k] ctx IH]; intros Hc Ht; [done|]. cbn in Hc. destruct Hc as (Hm & Hk & Hc). cbn [plug_tree].
  assert (map_ok (map_insert k (plug_tree ctx t) (leafs members))) as Hok.
  { apply map_insert_ok. apply (map_ok_map TLeaf). apply Hm. }
  constructor; [done|..].
  - intros q s [[-> ->]|Hin]%map_insert_elem; [split; [by apply IH|done]|]. by eapply leafs_wf.
  - by intros d s ?%not_elem_of_nil.
  - cbn. rewrite app_nil_r. by apply map_ok_NoDup.
Qed.

Lemma flat_map_perm_nodes (members : list (string * Value)) k t d : plain_members members ->
  d ∈ flat_map (fun '(_, t) => nodes t) (map_insert k t (leafs members)) <-> d ∈ nodes t.
Proof.
  intros Hm. rewrite flat_map_elem. split.
  - intros ([q s] & [[-> ->]|Hin]%map_insert_elem & Hd); [done|].
    apply leafs_elem in Hin as (v & -> & _). by apply not_elem_of_nil in Hd.
  - intros Hd. exists (k, t). split; [|done]. apply map_get_elem. rewrite map_get_insert; [by rewrite decide_True|].
    apply (map_ok_map TLeaf). apply Hm.
Qed.

Lemma plug_nodes ctx t d : plain_context ctx -> d ∈ nodes (plug_tree ctx t) <-> d ∈ nodes t.
Proof.
  induction ctx as [|[members k] ctx IH]; [done|]. cbn. intros (Hm & Hk & Hc). rewrite app_nil_r.
  rewrite flat_map_perm_nodes by done. auto.
Qed.

Lemma plug_walk ctx t p : plain_context ctx -> walk_tree (plug_tree ctx t) (user_path ctx ++ p) = walk_tree t p.
Proof.
  induction ctx as [|[members k] ctx IH]; [done|]. cbn. intros (Hm & Hk & Hc). rewrite map_get_insert, decide_True.
  - auto.
  - done.
  - apply (map_ok_map TLeaf). apply Hm.
Qed.

Lemma plug_selection ctx t p : plain_context ctx ->
  key_selection (plug_tree ctx t) (user_path ctx ++ p) = key_selection t p.
Proof. intros Hc. unfold key_selection. by rewrite plug_walk. Qed.

Lemma plug_claim_at vis ctx t : plain_context ctx ->
  claim_at (reveal vis (plug_tree ctx t)) (user_path ctx) = Some (reveal vis t).
Proof.
  induction ctx as [|[members k] ctx IH]; [done|]. cbn. intros (Hm & Hk & Hc). unfold map_extend. cbn [foldl].
  rewrite (map_get_map (fun t => plain_claim (reveal vis t))), map_get_insert, decide_True; [cbn; auto|done|].
  apply (map_ok_map TLeaf). apply Hm.
Qed.
End payload_trees.

(** ** The object with the claims *)

Section subject_tree.
Context `{Hasher} `{DigestStyle} (reads_back : string -> bool) (sd : bool).
Variables (members : list (string * Value)) (m : list (string * Value)) (hs hs' : list (Disclosure * SdTree)).
#[local] Notation ok v := (json_ok reads_back v = true).
Hypothesis Hmembers : plain_members members.
Hypothesis Hjson : ok (VObject m).
Hypothesis Hissuable : issuable sd (VObject m) = true.
Hypothesis Hperm : hs' ≡ₚ hs.
Hypothesis Hissued : Forall2 (member_of sd) m hs.
Hypothesis Hdisjoint : forall k v, (k, v) ∈ m -> map_get k members = None.

#[local] Notation whole := (TObject (leafs members) (Some hs')).
#[local] Notation alone := (TObject [] (Some hs')).

Lemma alone_issued : issued sd (VObject m) alone.
Proof using Hperm Hissued. by apply (issued_object sd m hs hs'). Qed.

Lemma leafs_get k : map_get k (leafs members) = TLeaf <$> map_get k members.
Proof using Type. apply map_get_map. Qed.

Lemma whole_nodes : nodes whole = nodes alone.
Proof using Type. cbn [nodes]. by rewrite leafs_nodes. Qed.

Lemma whole_wf : wf_tree whole.
Proof using Hmembers Hjson Hissuable Hperm Hissued Hdisjoint.
  pose proof (issued_tree_wf reads_back sd _ _ Hjson Hissuable alone_issued) as Hwf.
  inversion Hwf as [|? ? _ _ Hs Hnd|]; subst. constructor.
  - apply (map_ok_map TLeaf). apply Hmembers.
  - intros k t Hin. by apply (leafs_wf members).
  - exact Hs.
  - cbn [fmap list_fmap app] in Hnd. apply NoDup_app. split; [|split; [|exact Hnd]].
    + apply map_ok_NoDup. apply (map_ok_map TLeaf). apply Hmembers.
    + intros k ([q t] & Hq & Hl)%list_elem_of_fmap ([d s] & Hd & Hin)%list_elem_of_fmap. cbn [fst default id compose] in *. subst q.
      destruct (member_elem sd m hs hs' d s Hperm Hissued Hin) as (k' & v & Hm & Hk & _).
      unfold key_of in Hd. rewrite Hk in Hd. cbn in Hd. subst k'. apply Hdisjoint in Hm.
      apply leafs_elem in Hl as (w & -> & Hw). by eapply map_get_None in Hm.
Qed.

Lemma leaf_selection v p : key_selection (TLeaf v) p = [].
Proof using Type.
  revert v. induction p as [|k p IH]; intros v; [done|]. unfold key_selection in *. cbn [walk_tree].
  destruct v as [| | | |l|o]; try done.
  - destruct (usize_from_str k) as [i|]; [|done]. cbn. destruct (l !! Z.to_nat i); [apply IH|done].
  - destruct (map_get k o); [apply IH|done].
Qed.

Lemma whole_selection k p : is_ok (walk_tree whole (k :: p)) = true ->
  is_ok (walk_tree alone (k :: p)) = true /\ key_selection whole (k :: p) = key_selection alone (k :: p).
Proof using Hperm Hissued Hdisjoint.
  intros Hok. destruct (map_get k members) as [v|] eqn:Hk.
  - assert (walk_tree alone (k :: p) = Ok ([], None)) as Hno.
    { apply selection_no_member. intros e s Hin He.
      destruct (member_elem sd m hs hs' e s Hperm Hissued Hin) as (k' & w & Hm & Hk' & _).
      assert (k' = k) as -> by congruence. apply Hdisjoint in Hm. congruence. }
    rewrite Hno. split; [done|]. unfold key_selection at 2. rewrite Hno.
    assert (walk_tree whole (k :: p) = walk_tree (TLeaf v) p) as Heq by (cbn [walk_tree]; by rewrite leafs_get, Hk).
    unfold key_selection. rewrite Heq. apply leaf_selection.
  - assert (walk_tree whole (k :: p) = walk_tree alone (k :: p)) as Heq by (cbn [walk_tree]; by rewrite leafs_get, Hk).
    unfold key_selection. rewrite <- Heq. done.
Qed.

Lemma whole_shows (vis : Disclosure -> bool) K : NoDup (nodes whole) -> [] ∉ K ->
  (forall p, p ∈ K -> is_ok (walk_tree whole p) = true) ->
  (forall d, d ∈ nodes whole -> vis d = true <-> exists p, p ∈ K /\ d ∈ key_selection whole p) ->
  exists cs, reveal vis whole = CObject (map_extend (map (fun '(k, v) => (k, plain_claim (leaf_claim v))) members) cs) /\
    shows sd K (VObject m) (CObject cs).
Proof using Hmembers Hjson Hissuable Hperm Hissued Hdisjoint.
  intros Hnd Hend Hok Hvis. rewrite whole_nodes in Hnd, Hvis. exists (flat_map (shown_member vis) hs).
  destruct (json_object reads_back m Hjson) as [Hmap _].
  assert (forall p, p ∈ K -> is_ok (walk_tree alone p) = true /\ key_selection whole p = key_selection alone p) as Hsame.
  { intros [|k p] Hp; [done|]. apply whole_selection. auto. }
  assert (map_ok (flat_map (shown_member vis) hs)) as Hcs.
  { pose proof (shown_members_ordered sd vis m hs hs Hmap ltac:(done) Hissued) as Hr. cbn [reveal map] in Hr. injection Hr as Hr.
    change (map_extend [] (flat_map (shown_member vis) hs) = flat_map (shown_member vis) hs) in Hr.
    rewrite <- Hr. apply map_extend_ok. constructor. }
  assert (flat_map (shown_member vis) hs' ≡ₚ flat_map (shown_member vis) hs) as Hp by (by apply Permutation_flat_map).
  assert (NoDup (flat_map (shown_member vis) hs).*1) as Hk by (by apply map_ok_NoDup). split.
  - cbn [reveal]. f_equal. unfold leafs. rewrite List.map_map.
    change (flat_map _ hs') with (flat_map (shown_member vis) hs').
    replace (map _ members) with (map (fun '(k, v) => (k, plain_claim (leaf_claim v))) members).
    + apply map_extend_get_eq; [apply (map_ok_map (fun v => plain_claim (leaf_claim v))), Hmembers|by rewrite Hp|done|].
      intros k. apply map_get_perm; [by rewrite Hp|done].
    + apply List.map_ext. by intros [k v].
  - rewrite <- (shown_members_ordered sd vis m hs hs' Hmap Hperm Hissued).
    apply (view_issued reads_back sd vis (VObject m) alone K); [done|done|apply alone_issued|done|..].
    + intros p Hp'. by apply Hsame.
    + intros d Hd. rewrite Hvis by done. split; intros (p & Hp' & Hs); exists p; (split; [done|]); by rewrite (proj2 (Hsame p Hp')) in *.
Qed.
End subject_tree.
