(* ===== verification/SdToken.v ===== *)
(** * The text of an SD-JWT

    An SD-JWT is a JWT, its disclosures and an optional key binding token,
    separated by [~] (credential_formatter/sdjwt/disclosures.rs,
    credential_formatter/sdjwt/mod.rs): taking the text apart, putting it
    together, and the proof that one undoes the other. *)

From S2P Require Import Prelude Paths SdValue SdDisclosures SdTree SdSelect SdIssue.
From Stdlib Require Import Ascii String.
#[local] Notation length := Datatypes.length.
#[local] Arguments String.append !_ _ / : simpl nomatch.

Definition tilde : ascii := "~"%char.
Definition tilde_str : string := String tilde EmptyString.
Definition dot : ascii := "."%char.

Record DecomposedToken := mkDecomposedToken {
  dt_jwt : string;
  dt_disclosures : list Disclosure;
  dt_key_binding_token : option string
}.

(** [s.strip_suffix('~')]. *)
Fixpoint strip_suffix (c : ascii) (s : string) : option string :=
  match s with
  | EmptyString => None
  | String a EmptyString => if Ascii.eqb a c then Some EmptyString else None
  | String a s => String a <$> strip_suffix c s
  end.

(** [parts.join("~")]. *)
Fixpoint join_tilde (l : list string) : string :=
  match l with
  | [] => EmptyString
  | [x] => x
  | x :: l => (x ++ tilde_str ++ join_tilde l)%string
  end.

Section tokens.
Context `{SdCodec}.

(** One disclosure of a token. *)
Definition read_disclosure (disclosure : string) : res FormatterError Disclosure :=
  bytes ← ok_or (b64url_decode disclosure) EncodingError;
  disclosure_array ← (if utf8_valid bytes then Ok bytes else Err FromUtf8Error);
  parse_disclosure disclosure_array disclosure.

Definition parse_token (token : string) : res FormatterError DecomposedToken :=
  let '(token_with_disclosures, key_binding_token) :=
    match rsplit_once tilde token with
    | Some (token, kb_token) =>
        (token, match kb_token with EmptyString => None | _ => Some kb_token end)
    | None => (token, None)
    end in
  let '(token_with_disclosures, key_binding_token) :=
    match key_binding_token with
    | Some kb_token =>
        if negb (Nat.eqb (count_char dot kb_token) 0) then (token_with_disclosures, Some kb_token)
        else (default token (strip_suffix tilde token), None)
    | None => (default token (strip_suffix tilde token), None)
    end in
  match split_on tilde token_with_disclosures with
  | [] => Err (CouldNotExtractCredentials MissingJwtPart)
  | jwt :: token_parts =>
      disclosures ← try_map read_disclosure token_parts;
      Ok (mkDecomposedToken jwt disclosures key_binding_token)
  end.

Definition append_disclosures (token : string) (disclosures : list string) : string :=
  let token := (token ++ tilde_str)%string in
  let disclosures := join_tilde disclosures in
  match disclosures with
  | EmptyString => token
  | _ => (token ++ disclosures ++ tilde_str)%string
  end.
End tokens.

(** ** Lemmas *)

Section token_lemmas.
Context `{SdCodec}.

Lemma split_on_plain (c : ascii) (s : string) : count_char c s = 0%nat -> split_on c s = [s].
Proof.
  induction s as [|a s IH]; [done|]. cbn [count_char split_on]. destruct (Ascii.eqb a c); [done|]. intros Hs. by rewrite IH.
Qed.

Lemma split_on_app (c : ascii) (a b : string) : count_char c a = 0%nat ->
  split_on c (a ++ String c b) = a :: split_on c b.
Proof.
  induction a as [|x a IH]; cbn [count_char split_on String.append]; [by rewrite Ascii.eqb_refl|].
  destruct (Ascii.eqb x c); [done|]. intros Ha. by rewrite IH.
Qed.

Lemma split_join_tilde (l : list string) : l <> [] -> (forall x, x ∈ l -> count_char tilde x = 0%nat) ->
  split_on tilde (join_tilde l) = l.
Proof.
  induction l as [|x l IH]; intros Hl Hx; [done|]. destruct l as [|y l].
  { cbn. apply split_on_plain, Hx. left. }
  cbn [join_tilde]. unfold tilde_str. cbn [String.append]. rewrite split_on_app by (apply Hx; left). f_equal.
  apply IH; [done|]. intros z Hz. apply Hx. by right.
Qed.

Lemma rsplit_once_app (c : ascii) (a b : string) : count_char c b = 0%nat -> rsplit_once c (a ++ String c b) = Some (a, b).
Proof.
  intros Hb. induction a as [|x a IH]; cbn [String.append rsplit_once].
  - rewrite (proj2 (rsplit_once_None c b) Hb). by rewrite Ascii.eqb_refl.
  - by rewrite IH.
Qed.

Lemma strip_suffix_app (c : ascii) (a : string) : strip_suffix c (a ++ String c EmptyString) = Some a.
Proof.
  induction a as [|x a IH]; cbn [String.append strip_suffix]; [by rewrite Ascii.eqb_refl|]. rewrite IH. by destruct a.
Qed.

(** A token in its canonical form: the parts, each ended by a [~]. *)
Lemma append_disclosures_eq (jwt : string) (ds : list string) : (forall d, d ∈ ds -> d <> EmptyString) ->
  append_disclosures jwt ds = (join_tilde (jwt :: ds) ++ tilde_str)%string.
Proof.
  intros Hd. unfold append_disclosures. destruct ds as [|d ds]; [done|].
  assert (join_tilde (d :: ds) <> EmptyString) as Hne.
  { destruct d as [|a d]; [by destruct (Hd EmptyString); [left|]|]. by destruct ds. }
  change (join_tilde (jwt :: d :: ds)) with (jwt ++ tilde_str ++ join_tilde (d :: ds))%string.
  destruct (join_tilde (d :: ds)) eqn:He; [done|]. by rewrite !str_app_assoc.
Qed.

Lemma parse_parts (jwt : string) (ds : list string) (kb : option string) (all : list Disclosure) :
  count_char tilde jwt = 0%nat -> (forall d, d ∈ ds -> count_char tilde d = 0%nat) ->
  (forall k, kb = Some k -> count_char tilde k = 0%nat /\ count_char dot k <> 0%nat) ->
  try_map read_disclosure ds = Ok all ->
  parse_token (join_tilde (jwt :: ds) ++ tilde_str ++ default EmptyString kb) = Ok (mkDecomposedToken jwt all kb).
Proof.
  intros Hj Hd Hkb Hall. unfold parse_token.
  assert (split_on tilde (join_tilde (jwt :: ds)) = jwt :: ds) as Hsplit.
  { apply split_join_tilde; [done|]. intros x [->|Hx]%elem_of_cons; auto. }
  destruct kb as [k|]; cbn [default]; unfold id.
  - destruct (Hkb k eq_refl) as [Hk1 Hk2]. unfold tilde_str. cbn [String.append].
    rewrite rsplit_once_app by done. destruct k as [|a k]; [done|].
    rewrite (proj2 (Nat.eqb_neq _ _) Hk2). cbn [negb]. rewrite Hsplit, Hall. done.
  - rewrite str_app_nil. unfold tilde_str. rewrite rsplit_once_app, strip_suffix_app by done. cbn [default].
    unfold id. rewrite Hsplit, Hall. done.
Qed.
End token_lemmas.
