(* ===== verification/Jwt.v ===== *)
(** * JSON web tokens

    The compact form of a JWT (proto/jwt/mod.rs, proto/jwt/model.rs):
    [tokenize] prints and signs a header and a payload, [decompose_token] takes
    a token apart, [verify_signature] checks it. JSON and base64 are those of
    other crates; the times of a payload are in nanoseconds and are printed in
    seconds. *)

From S2P Require Import Prelude Paths SdDisclosures SdIssue SdToken.
From Stdlib Require Import Ascii String.
#[local] Notation length := Datatypes.length.
#[local] Arguments String.append !_ _ / : simpl nomatch.

(** ** Data *)

(** [PublicJwk], with its [kid]. *)
Class Jwks := { PublicJwk : Type; jwk_kid : PublicJwk -> option string }.

Inductive TokenError :=
| MissingJOSEAlgorithm
| ValidationFailed
| SerializationError
| TokenEncodingError
| NestedTokenError.

Record JWTHeader `{Jwks} := mkJWTHeader {
  jh_algorithm : string;
  jh_key_id : option string;
  jh_type : option string;
  jh_jwk : option PublicJwk;
  jh_jwt : option string;
  jh_key_attestation : option string;
  jh_x5c : option (list string)
}.

Arguments mkJWTHeader {_}.

(** [ProofOfPossessionKey]: both variants of its JWK carry a key. *)
Record ProofOfPossessionKey `{Jwks} := mkProofOfPossessionKey { pop_key_id : option string; pop_jwk : PublicJwk }.
Arguments mkProofOfPossessionKey {_}.

Record JWTPayload `{Jwks} (C : Type) := mkJWTPayload {
  jp_issued_at : option Z;
  jp_expires_at : option Z;
  jp_invalid_before : option Z;
  jp_issuer : option string;
  jp_subject : option string;
  jp_audience : option (list string);
  jp_jwt_id : option string;
  jp_proof_of_possession_key : option ProofOfPossessionKey;
  jp_custom : C
}.
Arguments mkJWTPayload {_ C}.
Arguments jp_issued_at {_ C}.
Arguments jp_expires_at {_ C}.
Arguments jp_invalid_before {_ C}.
Arguments jp_issuer {_ C}.
Arguments jp_subject {_ C}.
Arguments jp_audience {_ C}.
Arguments jp_jwt_id {_ C}.
Arguments jp_proof_of_possession_key {_ C}.
Arguments jp_custom {_ C}.

Inductive JwtPublicKeyInfo `{Jwks} := InfoJwk (jwk : PublicJwk) | InfoX5c (x5c : list string).

Record DecomposedJwt `{Jwks} (C : Type) := mkDecomposedJwt {
  dj_header : JWTHeader;
  dj_payload : JWTPayload C;
  dj_signature : string;
  dj_unverified_jwt : string
}.
Arguments mkDecomposedJwt {_ C}.
Arguments dj_header {_ C}.
Arguments dj_payload {_ C}.
Arguments dj_signature {_ C}.
Arguments dj_unverified_jwt {_ C}.

(** [serde_json] on headers and on payloads. *)
Class HeaderCodec `{Jwks} := {
  header_to_string : JWTHeader -> option string;
  header_from_slice : string -> option JWTHeader
}.
Class PayloadCodec `{Jwks} (C : Type) := {
  payload_to_string : JWTPayload C -> option string;
  payload_from_slice : string -> option (JWTPayload C)
}.

(** [SignatureProvider] and [TokenVerifier]. *)
Class SignatureProvider := { jose_alg : option string; sign : string -> option string }.
Inductive PublicKeySource `{Jwks} :=
| SourceDid (did : string) (key_id : option string)
| SourceX5c (x5c : list string)
| SourceJwk (jwk : PublicJwk).
Class TokenVerifier `{Jwks} := {
  known_jose_alg : string -> bool;
  verify : PublicKeySource -> string -> string -> string -> bool
}.

(** ** Operations *)

(** [char::is_whitespace], as the bytes of the characters. *)
Definition bytes (l : list nat) : string := string_of_list_ascii (ascii_of_nat <$> l).
Definition whitespace : list string :=
  bytes <$> [[9]; [10]; [11]; [12]; [13]; [32]; [194; 133]; [194; 160]; [225; 154; 128];
             [226; 128; 128]; [226; 128; 129]; [226; 128; 130]; [226; 128; 131]; [226; 128; 132];
             [226; 128; 133]; [226; 128; 134]; [226; 128; 135]; [226; 128; 136]; [226; 128; 137];
             [226; 128; 138]; [226; 128; 168]; [226; 128; 169]; [226; 128; 175]; [226; 129; 159]; [227; 128; 128]]%nat.
Definition trimmed : list string := String dot EmptyString :: whitespace.

Fixpoint strip_prefix (p s : string) : option string :=
  match p, s with
  | EmptyString, _ => Some s
  | String a p, String b s => if Ascii.eqb a b then strip_prefix p s else None
  | _, EmptyString => None
  end.
Fixpoint first_some {A B : Type} (f : A -> option B) (l : list A) : option B :=
  match l with [] => None | a :: l => match f a with Some b => Some b | None => first_some f l end end.
Fixpoint trim_start (pats : list string) (fuel : nat) (s : string) : string :=
  match fuel with
  | O => s
  | S fuel => match first_some (fun p => strip_prefix p s) pats with Some s => trim_start pats fuel s | None => s end
  end.
Definition str_rev (s : string) : string := string_of_list_ascii (reverse (list_ascii_of_string s)).

(** [token.trim_matches(..)]; a pass per byte is enough. *)
Definition trim_token (s : string) : string :=
  let s := trim_start trimmed (String.length s) s in
  str_rev (trim_start (str_rev <$> trimmed) (String.length s) (str_rev s)).

(** [token.splitn(3, '.')]. *)
Definition splitn3 (c : ascii) (s : string) : list string :=
  match split_once c s with
  | None => [s]
  | Some (a, s) => match split_once c s with None => [a; s] | Some (b, s) => [a; b; s] end
  end.

Section jwt.
Context `{SdCodec} `{HeaderCodec}.

Definition token_encode (s : string) : res TokenError string := ok_or (b64url_encode s) TokenEncodingError.
Definition token_decode (s : string) : res TokenError string := ok_or (b64url_decode s) TokenEncodingError.

Definition new_header (type algorithm : string) (key_id : option string) (info : option JwtPublicKeyInfo) : JWTHeader :=
  let '(jwk, x5c) := match info with
                     | None => (None, None)
                     | Some (InfoJwk jwk) => (Some jwk, None)
                     | Some (InfoX5c l) => (None, Some l)
                     end in
  mkJWTHeader algorithm key_id (Some type) jwk None None x5c.

Definition tokenize {C : Type} `{!PayloadCodec C} (header : JWTHeader) (payload : JWTPayload C)
  (auth_fn : option SignatureProvider) : res TokenError string :=
  jwt_header_json ← ok_or (header_to_string header) SerializationError;
  payload_json ← ok_or (payload_to_string payload) SerializationError;
  h ← token_encode jwt_header_json;
  p ← token_encode payload_json;
  let token := (h ++ String dot p)%string in
  match auth_fn with
  | None => Ok token
  | Some auth_fn =>
      signature ← ok_or (sign (SignatureProvider := auth_fn) token) NestedTokenError;
      match signature with
      | EmptyString => Ok token
      | _ => signature_encoded ← token_encode signature; Ok (token ++ String dot signature_encoded)%string
      end
  end.

Definition decompose_token {C : Type} `{!PayloadCodec C} (token : string) : res TokenError (DecomposedJwt C) :=
  let token := trim_token token in
  match splitn3 dot token with
  | header :: payload :: rest =>
      let unverified_jwt := (header ++ String dot payload)%string in
      header_decoded ← token_decode header;
      header ← ok_or (header_from_slice header_decoded) SerializationError;
      payload_decoded ← token_decode payload;
      payload ← ok_or (payload_from_slice payload_decoded) SerializationError;
      signature ← match rest with [] => Ok EmptyString | signature :: _ => token_decode signature end;
      Ok (mkDecomposedJwt header payload signature unverified_jwt)
  | _ => Err ValidationFailed
  end.

Definition verify_signature {C : Type} (verifier : TokenVerifier) (jwt : DecomposedJwt C) (source : PublicKeySource) :
  res TokenError unit :=
  if known_jose_alg (jh_algorithm (dj_header jwt)) then
    if verify source (jh_algorithm (dj_header jwt)) (dj_unverified_jwt jwt) (dj_signature jwt)
    then Ok tt else Err ValidationFailed
  else Err MissingJOSEAlgorithm.
End jwt.

(** ** Laws *)

Class HeaderLaws `{HeaderCodec} := {
  header_roundtrip : forall h, exists s, header_to_string h = Some s /\ header_from_slice s = Some h /\ s <> EmptyString
}.

(** A payload is read back with its times in seconds. *)
Definition whole_seconds (t : Z) : Z := t / 1000000000 * 1000000000.
Definition at_seconds `{Jwks} {C : Type} (p : JWTPayload C) : JWTPayload C :=
  mkJWTPayload (whole_seconds <$> jp_issued_at p) (whole_seconds <$> jp_expires_at p) (whole_seconds <$> jp_invalid_before p)
    (jp_issuer p) (jp_subject p) (jp_audience p) (jp_jwt_id p) (jp_proof_of_possession_key p) (jp_custom p).
Definition reads_as `{Jwks} {C : Type} `{!PayloadCodec C} (p q : JWTPayload C) : Prop :=
  exists s, payload_to_string p = Some s /\ payload_from_slice s = Some q /\ s <> EmptyString.

(** ** Round trip *)

Section jwt_lemmas.
Context `{SdCodecLaws} `{HeaderLaws}.

Lemma all_chars_count (p : ascii -> bool) (c : ascii) (s : string) : p c = false -> all_chars p s = true -> count_char c s = 0%nat.
Proof.
  intros Hc. induction s as [|a s IH]; [done|]. cbn [all_chars count_char]. intros [Ha Hs]%andb_true_iff.
  destruct (Ascii.eqb a c) eqn:He; [|auto]. apply Ascii.eqb_eq in He as ->. congruence.
Qed.

Definition starts_outside (p : string) : bool := match p with String c _ => negb (is_b64url c) | EmptyString => false end.

Lemma strip_none (a : ascii) (s : string) pats : is_b64url a = true -> forallb starts_outside pats = true ->
  first_some (fun p => strip_prefix p (String a s)) pats = None.
Proof.
  intros Ha. induction pats as [|[|c p] pats IH]; [done|done|]. cbn [forallb starts_outside].
  intros [Hc%negb_true_iff Hp]%andb_true_iff. cbn [first_some strip_prefix].
  destruct (Ascii.eqb c a) eqn:He; [|auto]. apply Ascii.eqb_eq in He as ->. congruence.
Qed.

Lemma trim_start_id (a : ascii) (s : string) pats fuel : is_b64url a = true -> forallb starts_outside pats = true ->
  trim_start pats fuel (String a s) = String a s.
Proof. intros Ha Hp. destruct fuel; [done|]. cbn [trim_start]. by rewrite strip_none. Qed.

Lemma str_rev_rev (s : string) : str_rev (str_rev s) = s.
Proof.
  unfold str_rev. rewrite list_ascii_of_string_of_list_ascii, reverse_involutive. apply string_of_list_ascii_of_string.
Qed.

Lemma list_ascii_app (a b : string) : list_ascii_of_string (a ++ b) = list_ascii_of_string a ++ list_ascii_of_string b.
Proof. induction a as [|x a IH]; [done|]. cbn. f_equal. exact IH. Qed.

Lemma trim_token_id (s t : string) (a b : ascii) : is_b64url a = true -> is_b64url b = true ->
  s = String a t -> (exists u, s = (u ++ String b EmptyString)%string) -> trim_token s = s.
Proof.
  intros Ha Hb -> [u Hu]. unfold trim_token. rewrite trim_start_id; [|done|by vm_compute]. cbv zeta.
  assert (exists w, str_rev (String a t) = String b w) as [w Hw].
  { rewrite Hu. unfold str_rev. rewrite list_ascii_app, reverse_app. by eexists. }
  rewrite Hw, trim_start_id; [|done|by vm_compute]. by rewrite <- Hw, str_rev_rev.
Qed.

Lemma split_once_app (c : ascii) (a b : string) : count_char c a = 0%nat -> split_once c (a ++ String c b) = Some (a, b).
Proof.
  induction a as [|x a IH]; cbn [String.append split_once count_char]; [by rewrite Ascii.eqb_refl|].
  destruct (Ascii.eqb x c); [done|]. intros Ha. by rewrite IH.
Qed.

Lemma split_once_none (c : ascii) (a : string) : count_char c a = 0%nat -> split_once c a = None.
Proof.
  induction a as [|x a IH]; cbn [split_once count_char]; [done|]. destruct (Ascii.eqb x c); [done|]. intros Ha. by rewrite IH.
Qed.

Lemma last_char (s : string) : s <> EmptyString -> all_chars is_b64url s = true ->
  exists u b, s = (u ++ String b EmptyString)%string /\ is_b64url b = true.
Proof.
  induction s as [|a s IH]; intros Hs Hc; [done|]. cbn [all_chars] in Hc. apply andb_true_iff in Hc as [Ha Hc].
  destruct s as [|x s]; [by exists EmptyString, a|]. destruct IH as (u & b & -> & Hb); [done..|]. exists (String a u), b. done.
Qed.

Lemma dot_outside : is_b64url dot = false.
Proof. reflexivity. Qed.
End jwt_lemmas.

Section jwt_roundtrip.
Context `{SdCodecLaws} `{HeaderLaws} {C : Type} `{!PayloadCodec C}.

(** An encoded part of a token. *)
Definition encoded (s e : string) : Prop :=
  b64url_encode s = Some e /\ b64url_decode e = Some s /\ all_chars is_b64url e = true /\ (s <> EmptyString -> e <> EmptyString).

Lemma encode_part (s : string) : exists e, token_encode s = Ok e /\ encoded s e.
Proof.
  destruct (b64url_roundtrip s) as (e & He & Hd & Hc). exists e. unfold token_encode. rewrite He. split; [done|].
  split; [done|]. split; [done|]. split; [done|]. intros Hs ->. by apply Hs, b64url_nonempty.
Qed.

Lemma count_app_dot (c : ascii) (a b : string) : count_char c (a ++ String dot b) =
  (count_char c a + (if Ascii.eqb dot c then 1 else 0) + count_char c b)%nat.
Proof.
  induction a as [|x a IH]; cbn [String.append count_char]; [by destruct (Ascii.eqb dot c)|].
  rewrite IH. destruct (Ascii.eqb x c); lia.
Qed.

(** Taking apart the three parts, or the two of an unsigned token. *)
Lemma decompose_parts header payload hs ps ss h p (rest : list string) :
  encoded hs h -> encoded ps p -> hs <> EmptyString -> ps <> EmptyString ->
  header_from_slice hs = Some header -> payload_from_slice ps = Some payload ->
  (rest = [] /\ ss = EmptyString \/ exists e, rest = [e] /\ encoded ss e /\ ss <> EmptyString) ->
  decompose_token (C := C) match rest with
                           | [] => h ++ String dot p
                           | e :: _ => (h ++ String dot p) ++ String dot e
                           end =
  Ok (mkDecomposedJwt header payload ss (h ++ String dot p)).
Proof.
  intros (_ & Hdh & Hch & Hnh) (_ & Hdp & Hcp & Hnp) Hhs Hps Hfh Hfp Hrest. specialize (Hnh Hhs). specialize (Hnp Hps).
  destruct h as [|a h']; [done|]. assert (is_b64url a = true) as Ha by (cbn in Hch; by apply andb_true_iff in Hch as [? _]).
  pose proof (all_chars_count is_b64url dot _ dot_outside Hch) as Hdoth.
  pose proof (all_chars_count is_b64url dot _ dot_outside Hcp) as Hdotp.
  unfold decompose_token. destruct Hrest as [[-> ->]|(e & -> & (_ & Hde & Hce & Hne) & Hss)].
  - destruct (last_char p Hnp Hcp) as (u & b & Hu & Hb).
    rewrite (trim_token_id _ (h' ++ String dot p)%string a b); [|done|done|done|].
    + cbv zeta. unfold splitn3. rewrite split_once_app, split_once_none by done.
      unfold token_decode. rewrite Hdh. cbn [ok_or mbind res_bind]. rewrite Hfh. cbn [ok_or mbind res_bind].
      rewrite Hdp. cbn [ok_or mbind res_bind]. by rewrite Hfp.
    + exists (String a h' ++ String dot u)%string. rewrite Hu. by rewrite str_app_assoc.
  - specialize (Hne Hss). destruct (last_char e Hne Hce) as (u & b & Hu & Hb).
    rewrite (trim_token_id _ ((h' ++ String dot p) ++ String dot e)%string a b); [|done|done|done|].
    + cbv zeta. rewrite str_app_assoc. change (String dot p ++ String dot e)%string with (String dot (p ++ String dot e)).
      unfold splitn3. rewrite !split_once_app by done.
      unfold token_decode. rewrite Hdh. cbn [ok_or mbind res_bind]. rewrite Hfh. cbn [ok_or mbind res_bind].
      rewrite Hdp. cbn [ok_or mbind res_bind]. rewrite Hfp. cbn [ok_or mbind res_bind]. by rewrite Hde.
    + exists ((String a h' ++ String dot p) ++ String dot u)%string. rewrite Hu. by rewrite !str_app_assoc.
Qed.

(** What is printed and signed is taken apart again, and has no [~] in it. *)
Lemma decompose_tokenize header (payload q : JWTPayload C) (auth_fn : option SignatureProvider) token :
  reads_as payload q -> tokenize header payload auth_fn = Ok token ->
  exists signature unverified, decompose_token token = Ok (mkDecomposedJwt header q signature unverified) /\
    match auth_fn with Some f => sign (SignatureProvider := f) unverified = Some signature | None => signature = EmptyString end /\
    count_char tilde token = 0%nat /\ count_char dot token <> 0%nat.
Proof.
  intros (ps & Hp & Hq & Hps) Ht. unfold tokenize in Ht. destruct (header_roundtrip header) as (hs & Hh & Hhf & Hhs).
  rewrite Hh, Hp in Ht. cbn [ok_or mbind res_bind] in Ht. destruct (encode_part hs) as (h & Heh & Hxh), (encode_part ps) as (p & Hep & Hxp).
  rewrite Heh, Hep in Ht. cbn [mbind res_bind] in Ht.
  assert (forall e, all_chars is_b64url e = true -> count_char tilde e = 0%nat) as Htil by (intros e; by apply all_chars_count).
  pose proof (Htil h ltac:(apply Hxh)) as Hth. pose proof (Htil p ltac:(apply Hxp)) as Htp.
  pose proof (decompose_parts header q hs ps EmptyString h p [] Hxh Hxp Hhs Hps Hhf Hq ltac:(by left)) as Hunsigned.
  assert (count_char tilde (h ++ String dot p) = 0 /\ count_char dot (h ++ String dot p) <> 0)%nat as [Hct Hcd].
  { rewrite !count_app_dot. cbn. lia. }
  destruct auth_fn as [f|]; [|injection Ht as <-; by eexists _, _].
  destruct (sign (h ++ String dot p)) as [sg|] eqn:Hs; cbn [ok_or mbind res_bind] in Ht; [|done].
  destruct sg as [|a sg]; [injection Ht as <-; by eexists _, _|].
  destruct (encode_part (String a sg)) as (e & Hee & Hxe). rewrite Hee in Ht. cbn [mbind res_bind] in Ht. injection Ht as <-.
  exists (String a sg), (h ++ String dot p)%string.
  split; [apply (decompose_parts header q hs ps (String a sg) h p [e]); try done; right; eauto|]. split; [done|].
  rewrite !count_app_dot. rewrite (Htil e) by apply Hxe. rewrite Hth, Htp. cbn. lia.
Qed.

Lemma tokenize_ok header (payload q : JWTPayload C) (f : SignatureProvider) : reads_as payload q ->
  (forall m, is_Some (sign (SignatureProvider := f) m)) -> exists token, tokenize header payload (Some f) = Ok token.
Proof.
  intros (ps & Hp & _) Hs. unfold tokenize. destruct (header_roundtrip header) as (hs & Hh & _). rewrite Hh, Hp. cbn [ok_or mbind res_bind].
  destruct (encode_part hs) as (h & -> & _), (encode_part ps) as (p & -> & _). cbn [mbind res_bind].
  destruct (Hs (h ++ String dot p)%string) as [sg ->]. cbn [ok_or mbind res_bind]. destruct sg as [|a sg]; [by eexists|].
  destruct (encode_part (String a sg)) as (e & -> & _). by eexists.
Qed.
End jwt_roundtrip.
