(* ===== verification/SdFlow.v ===== *)
(** * SD-JWT credentials from the issuer to the verifier

    The functions of credential_formatter/sdjwt/mod.rs: [format_credential]
    issues a token, [prepare_sd_presentation] selects the disclosures of a
    presentation, [append_key_binding_token] and [verify_holder_binding] bind a
    presentation to the key of the holder, and
    [build_from_token_with_disclosures] reads the claims of a token. *)

From S2P Require Import Prelude Paths SdValue SdDisclosures SdIssue SdToken Jwt.
From Stdlib Require Import Ascii String.
#[local] Notation length := Datatypes.length.
#[local] Arguments String.append !_ _ / : simpl nomatch.

(** ** Data *)

Record CredentialPresentation := mkCredentialPresentation { cp_token : string; cp_disclosed_keys : list string }.
Record HolderBindingCtx := mkHolderBindingCtx { hb_nonce : string; hb_audience : string }.
Record KeyBindingPayload := mkKeyBindingPayload { kb_nonce : string; kb_sd_hash : string }.
Record SdJwtHolderBindingParams := mkHolderBindingParams { hp_context : option HolderBindingCtx; hp_leeway : Z }.

(** The identifier of the holder: its type, its DID and its key. *)
Inductive HolderIdentifierType := HolderDid | HolderKey | HolderOther.
Record HolderIdentifier := mkHolderIdentifier {
  hi_type : HolderIdentifierType;
  hi_did : option string;
  hi_key : option string
}.

(** The parts of a [VcdmCredential] and of [SdJwtFormattingInputs] that go into
    the token. *)
Record FormattingInputs := mkFormattingInputs {
  fi_issuer : string;
  fi_id : option string;
  fi_valid_from : option Z;
  fi_issuance_date : option Z;
  fi_valid_until : option Z;
  fi_expiration_date : option Z;
  fi_holder_identifier : option HolderIdentifier;
  fi_holder_key_id : option string;
  fi_token_type : string;
  fi_key_id : option string;
  fi_issuer_certificate : option string
}.

Record CertificateDetails := mkCertificateDetails {
  cd_chain : string;
  cd_fingerprint : string;
  cd_expiry : Z;
  cd_subject_common_name : option string
}.

Inductive IdentifierDetails `{Jwks} :=
| DetailsDid (did : string)
| DetailsCertificate (details : CertificateDetails)
| DetailsKey (jwk : PublicJwk).

(** The providers: DIDs, keys, the JWKS of an issuer, certificate chains.
    [parse_chain] is [None] when no certificate validator was passed. *)
Class SdProviders `{Jwks} := {
  did_assertion_key : string -> option string -> option (option PublicJwk);
  key_as_jwk : string -> option PublicJwk;
  valid_did : string -> bool;
  resolve_jwks_url : string -> option (list PublicJwk);
  parse_url : string -> option string;
  parse_chain : option (list string -> option CertificateDetails);
  pem_chain_into_x5c : string -> option (list string)
}.

(** [Option::or]. *)
Definition option_or {A : Type} (a b : option A) : option A := match a with Some _ => a | None => b end.

Definition KEY_BINDING_TYPE : string := "kb+jwt".

(** [CryptoProvider::get_hasher] with its one hasher. *)
Definition get_hasher (alg : string) : bool := String.eqb alg "sha-256".

Definition nested {A : Type} (m : res TokenError A) : res FormatterError A := map_err (fun _ => NestedFormatterError) m.

(** ** Issuing *)

Section flow.
Context `{SdCodec} `{Hasher} `{HashOrder} `{HeaderCodec}.

Definition format_hashed_credential {T : Type} (claims : Value)
  (digests_to_payload : list string -> res FormatterError T) (sd_array_elements : bool) :
  M nat FormatterError (T * list string) :=
  r ← compute_object_disclosures sd_array_elements claims;
  payload ← lift (digests_to_payload (snd r));
  mret (payload, fst r).

Definition proof_of_possession_key `{!SdProviders} (holder_key_id : option string) (holder : option HolderIdentifier) :
  res FormatterError (option ProofOfPossessionKey) :=
  match holder with
  | None => Ok None
  | Some identifier =>
      match hi_type identifier with
      | HolderDid =>
          did ← ok_or (hi_did identifier) (CouldNotFormat MissingDid);
          jwk ← ok_or (did_assertion_key did holder_key_id) NestedFormatterError;
          Ok (option_map (mkProofOfPossessionKey None) jwk)
      | HolderKey =>
          key ← ok_or (hi_key identifier) (CouldNotFormat MissingKey);
          jwk ← ok_or (key_as_jwk key) NestedFormatterError;
          Ok (Some (mkProofOfPossessionKey None jwk))
      | HolderOther => Err UnsupportedIdentifierType
      end
  end.

Definition format_credential {T : Type} `{!PayloadCodec T} `{!SdProviders} (inputs : FormattingInputs) (claims : Value)
  (auth_fn : SignatureProvider) (digests_to_payload : list string -> res FormatterError T)
  (sd_array_elements : bool) (now : Z) : M nat FormatterError string :=
  r ← format_hashed_credential claims digests_to_payload sd_array_elements;
  pop ← lift (proof_of_possession_key (fi_holder_key_id inputs) (fi_holder_identifier inputs));
  let payload := mkJWTPayload (Some now)
    (option_or (fi_valid_until inputs) (fi_expiration_date inputs))
    (option_or (fi_valid_from inputs) (fi_issuance_date inputs)) (Some (fi_issuer inputs))
    (fi_holder_identifier inputs ≫= hi_did) None (fi_id inputs) pop (fst r) in
  alg ← lift (ok_or jose_alg NestedFormatterError);
  info ← lift match fi_issuer_certificate inputs with
              | None => Ok None
              | Some chain => x5c ← ok_or (pem_chain_into_x5c chain) NestedFormatterError; Ok (Some (InfoX5c x5c))
              end;
  token ← lift (nested (tokenize (new_header (fi_token_type inputs) alg (fi_key_id inputs) info) payload (Some auth_fn)));
  mret (append_disclosures token (snd r)).

(** ** Presenting *)

Definition prepare_sd_presentation `{!PayloadCodec Value} (depth : nat) (presentation : CredentialPresentation)
  (user_claim_path : list string) : res FormatterError string :=
  t ← parse_token (cp_token presentation);
  jwt ← nested (decompose_token (C := Value) (dt_jwt t));
  let disclosed_keys :=
    match user_claim_path with
    | [] => cp_disclosed_keys presentation
    | _ => (fun disclosed_key => (join_path user_claim_path ++ marker_str ++ disclosed_key)%string)
             <$> cp_disclosed_keys presentation
    end in
  disclosures ← select_disclosures depth disclosed_keys (jp_custom (dj_payload jwt)) (dt_disclosures t);
  Ok (append_disclosures (dt_jwt t) disclosures).

Definition append_key_binding_token `{!PayloadCodec KeyBindingPayload} (holder_binding_ctx : HolderBindingCtx)
  (holder_binding_fn : SignatureProvider) (token : string) (now : Z) : res FormatterError string :=
  alg ← ok_or jose_alg (CouldNotFormat InvalidKeyAlgorithm);
  sd_hash ← hash token;
  let payload := mkJWTPayload (Some now) None None None None (Some [hb_audience holder_binding_ctx]) None None
    (mkKeyBindingPayload (hb_nonce holder_binding_ctx) sd_hash) in
  kb_token ← nested (tokenize (new_header KEY_BINDING_TYPE alg None None) payload (Some holder_binding_fn));
  Ok (token ++ kb_token)%string.

(** ** Reading *)

Definition x5c_source `{!SdProviders} (x5c : list string) : res FormatterError (PublicKeySource * IdentifierDetails) :=
  certificate_validator ← ok_or parse_chain (CouldNotExtractCredentials X5cNotSupported);
  details ← ok_or (certificate_validator x5c) NestedFormatterError;
  Ok (SourceX5c x5c, DetailsCertificate details).

Definition issuer_source `{!SdProviders} (issuer : option string) (key_id : option string) (x5c : option (list string)) :
  res FormatterError (PublicKeySource * IdentifierDetails) :=
  match issuer, x5c with
  | Some iss, _ =>
      if starts_with "did:" iss then
        if valid_did iss then Ok (SourceDid iss key_id, DetailsDid iss) else Err NestedFormatterError
      else match x5c with
           | None =>
               url ← ok_or (parse_url iss) (CouldNotExtractCredentials InvalidJwksUrl);
               jwks ← ok_or (resolve_jwks_url url) NestedFormatterError;
               jwk ← ok_or (match List.find (fun jwk => bool_decide (jwk_kid jwk = key_id)) jwks with
                            | Some jwk => Some jwk
                            | None => head jwks
                            end) (CouldNotExtractCredentials EmptyJwkList);
               Ok (SourceJwk jwk, DetailsKey jwk)
           | Some x5c => x5c_source x5c
           end
  | None, Some x5c => x5c_source x5c
  | None, None => Err (CouldNotExtractCredentials MissingIssuer)
  end.

(** The hash algorithm a payload names. *)
Definition sd_alg (custom : Value) : string :=
  default "sha-256"%string
    match as_object custom with
    | Some m => match map_get "_sd_alg"%string m with Some alg => as_str alg | None => None end
    | None => None
    end.

(** The signature is checked when a verifier is given. *)
Definition check_signature {C : Type} (verification : option TokenVerifier) (jwt : DecomposedJwt C)
  (source : PublicKeySource) : res FormatterError unit :=
  match verification with
  | Some verification => nested (verify_signature verification jwt source)
  | None => Ok tt
  end.

Definition hash_disclosures (disclosures : list Disclosure) : res FormatterError (list HashedDisclosure) :=
  try_map (fun disclosure =>
    h1 ← hash_disclosure disclosure; h2 ← hash_disclosure_array disclosure; Ok (disclosure, (h1, h2))) disclosures.

(** The trait [SettableClaims] of a typed payload, with its deserialization. *)
Class SettableClaims (P : Type) := {
  claims_from_value : Value -> option P;
  set_claims : P -> CredentialClaim -> res FormatterError P
}.

(** The payload that is returned: the one of the token, with the claims in
    place of the custom part and without the audience. *)
Definition with_claims {P : Type} (p : JWTPayload Value) (custom : P) : JWTPayload P :=
  mkJWTPayload (jp_issued_at p) (jp_expires_at p) (jp_invalid_before p) (jp_issuer p) (jp_subject p) None (jp_jwt_id p)
    (jp_proof_of_possession_key p) custom.

(** The typed payload of the expanded claims. *)
Definition typed_payload {P : Type} `{!SettableClaims P} (custom : Value) (claims : CredentialClaim) : res FormatterError P :=
  extended_payload ← ok_or (claims_from_value custom) JsonSerialization;
  set_claims extended_payload claims.

Definition build_from_token_with_disclosures {P : Type} `{!SettableClaims P} `{!PayloadCodec Value} `{!SdProviders} (depth : nat)
  (token : string) (verification : option TokenVerifier) :
  res FormatterError (JWTHeader * JWTPayload P * IdentifierDetails * option string) :=
  t ← parse_token token;
  decomposed_token ← nested (decompose_token (C := Value) (dt_jwt t));
  let custom := jp_custom (dj_payload decomposed_token) in
  _ ← fail_if (negb (get_hasher (sd_alg custom))) (CouldNotExtractCredentials InvalidHashAlgorithm);
  source ← issuer_source (jp_issuer (dj_payload decomposed_token)) (jh_key_id (dj_header decomposed_token))
             (jh_x5c (dj_header decomposed_token));
  _ ← check_signature verification decomposed_token (fst source);
  disclosures_with_hashes ← hash_disclosures (dt_disclosures t);
  payload_before_expanding ← claim_try_from custom;
  expanded ← recursively_expand_disclosures depth disclosures_with_hashes payload_before_expanding;
  expanded_payload ← typed_payload custom expanded;
  Ok (dj_header decomposed_token, with_claims (dj_payload decomposed_token) expanded_payload, snd source, dt_key_binding_token t).

(** The token up to its last [~], the [~] included. *)
Definition bound_part (token : string) : option string :=
  match rsplit_once tilde token with Some (t, _) => Some (t ++ tilde_str)%string | None => None end.

Definition verify_holder_binding `{!PayloadCodec KeyBindingPayload} (cnf : ProofOfPossessionKey) (token : string)
  (key_binding_token : option string) (verification : option TokenVerifier) (params : SdJwtHolderBindingParams) (now : Z) :
  res FormatterError (JWTPayload KeyBindingPayload) :=
  let decomposed_kb_token := decompose_token (C := KeyBindingPayload) <$> key_binding_token in
  match hp_context params with
  | None =>
      match decomposed_kb_token with
      | Some decomposed_kb_token => token ← nested decomposed_kb_token; Ok (dj_payload token)
      | None => Err (CouldNotExtractCredentials MissingKeyBindingToken)
      end
  | Some holder_binding_context =>
      decomposed_kb_token ← match decomposed_kb_token with
                            | Some d => nested d
                            | None => Err (CouldNotExtractCredentials MissingKeyBindingToken)
                            end;
      _ ← check_signature verification decomposed_kb_token (SourceJwk (pop_jwk cnf));
      let kb_payload := dj_payload decomposed_kb_token in
      payload ← ok_or (bound_part token) (CouldNotExtractCredentials InvalidCredentialFormat);
      expected_hash ← hash payload;
      _ ← fail_if (negb (String.eqb (kb_sd_hash (jp_custom kb_payload)) expected_hash))
            (CouldNotExtractCredentials InvalidSdHash);
      iat ← ok_or (jp_issued_at kb_payload) (CouldNotExtractCredentials MissingIat);
      _ ← fail_if (Z.ltb now (iat - hp_leeway params)) (CouldNotExtractCredentials IssuedInTheFuture);
      audience ← ok_or (jp_audience kb_payload) (CouldNotExtractCredentials MissingAud);
      _ ← fail_if (negb (existsb (String.eqb (hb_audience holder_binding_context)) audience))
            (CouldNotExtractCredentials InvalidAud);
      _ ← fail_if (negb (String.eqb (kb_nonce (jp_custom kb_payload)) (hb_nonce holder_binding_context)))
            (CouldNotExtractCredentials InvalidNonce);
      Ok kb_payload
  end.
End flow.
