(* ===== verification/SdClaims.v ===== *)
(** * The typed payloads of SD-JWT credentials

    What becomes of the expanded claims of a token: [VcClaim] of
    credential_formatter/sdjwt/model.rs and [SdJwtVc] of
    sdjwtvc_formatter/model.rs, their [set_claims] and the claims they report as
    metadata. Deserialization and URLs are parameters. *)

From S2P Require Import Prelude SdValue SdDisclosures SdIssue SdPresent Jwt SdFlow.
From Stdlib Require Import Ascii String.
#[local] Notation length := Datatypes.length.

(** ** Data *)

Record VcdmCredentialSubject := mkSubject { cs_id : option string; cs_claims : list (string * CredentialClaim) }.

(** Of the credential [vc] the subjects are kept. *)
Record VcClaim := mkVcClaim {
  vcc_digests : list string;
  vcc_credential_subject : list VcdmCredentialSubject;
  vcc_hash_alg : option string;
  vcc_all_claims : option CredentialClaim
}.

Record SdJwtVcStatusList := mkSdJwtVcStatusList { ssl_index : Z; ssl_uri : string }.
Record SdJwtVcStatus := mkSdJwtVcStatus { svs_status_list : SdJwtVcStatusList; svs_custom_claims : list (string * Value) }.
Record SdJwtVc := mkSdJwtVc {
  svc_vc_type : string;
  svc_vct_integrity : option string;
  svc_digests : list string;
  svc_hash_alg : option string;
  svc_status : option SdJwtVcStatus;
  svc_public_claims : list (string * CredentialClaim)
}.

(** ** Metadata *)

Fixpoint claim_set_metadata (metadata : bool) (c : CredentialClaim) : CredentialClaim :=
  let '(mkCredentialClaim sd _ v) := c in mkCredentialClaim sd metadata (value_set_metadata metadata v)
with value_set_metadata (metadata : bool) (v : CredentialClaimValue) : CredentialClaimValue :=
  match v with
  | CArray arr => CArray (map (claim_set_metadata metadata) arr)
  | CObject obj => CObject (map (fun '(k, c) => (k, claim_set_metadata metadata c)) obj)
  | _ => v
  end.

Definition vc_get_metadata_claims (c : VcClaim) : list (string * CredentialClaim) :=
  match vcc_all_claims c with
  | None => []
  | Some claims =>
      match claim_as_object (claim_value claims) ≫= map_get "vc"%string with
      | None => []
      | Some (mkCredentialClaim sd metadata v) =>
          let v := match v with
                   | CObject obj => CObject (List.filter (fun e => String.eqb (fst e) "type" || String.eqb (fst e) "id") obj)
                   | _ => v
                   end in
          [("vc"%string, claim_set_metadata true (mkCredentialClaim sd metadata v))]
      end
  end.

Definition sdjwtvc_get_metadata_claims (c : SdJwtVc) : list (string * CredentialClaim) :=
  [("vct"%string, mkCredentialClaim false true (CString (svc_vc_type c)))].

(** ** Setting the claims *)

(** [Url::parse], which returns the normalized URL, and serde for the two
    payloads. *)
Class UrlParser := { url_parse : string -> option string }.
Class TypedPayloads := { vc_from_value : Value -> option VcClaim; sdjwtvc_from_value : Value -> option SdJwtVc }.

Section set_claims.
Context `{HashOrder} `{UrlParser}.

(** The object of claims of the first subject. *)
Definition subject_claims (claims : CredentialClaim) : res FormatterError (list (string * CredentialClaim)) :=
  first_level ← ok_or (claim_as_object (claim_value claims)) (CouldNotExtractCredentials ClaimsNotObject);
  vc ← ok_or (map_get "vc"%string first_level) (CouldNotExtractCredentials VcNotFound);
  vc ← ok_or (claim_as_object (claim_value vc)) (CouldNotExtractCredentials VcNotObject);
  credential_subject ← ok_or (map_get "credentialSubject"%string vc) (CouldNotExtractCredentials MissingCredentialSubject);
  match claim_value credential_subject with
  | CArray arr =>
      first ← ok_or (head arr) (CouldNotExtractCredentials EmptyCredentialSubject);
      ok_or (claim_as_object (claim_value first)) (CouldNotExtractCredentials SubjectNotObject)
  | CObject obj => Ok obj
  | _ => Err (CouldNotExtractCredentials SubjectNotArrayOrObject)
  end.

Definition vc_set_claims (c : VcClaim) (claims : CredentialClaim) : res FormatterError VcClaim :=
  match vcc_credential_subject c with
  | [] => Err (CouldNotExtractCredentials MissingSubjectOfVc)
  | subject :: subjects =>
      subject_claims ← subject_claims claims;
      id ← match map_get "id"%string subject_claims with
           | None => Ok (cs_id subject)
           | Some id =>
               s ← ok_or (claim_as_str (claim_value id)) (CouldNotExtractCredentials IdNotUrlString);
               url ← ok_or (url_parse s) UrlError;
               Ok (Some url)
           end;
      Ok (mkVcClaim (vcc_digests c) (mkSubject id (hash_order _ (map_remove "id"%string subject_claims)) :: subjects)
            (vcc_hash_alg c) (Some claims))
  end.

Definition reserved_claims : list string := ["vct"; "vct#integrity"; "_sd"; "_sd_alg"; "status"]%string.

Definition sdjwtvc_set_claims (c : SdJwtVc) (claims : CredentialClaim) : res FormatterError SdJwtVc :=
  claims ← ok_or (claim_as_object (claim_value claims)) JsonMapping;
  Ok (mkSdJwtVc (svc_vc_type c) (svc_vct_integrity c) (svc_digests c) (svc_hash_alg c) (svc_status c)
        (foldl (fun claims k => map_remove k claims) claims reserved_claims)).
End set_claims.

#[export] Instance vc_settable `{HashOrder} `{UrlParser} `{TypedPayloads} : SettableClaims VcClaim :=
  {| claims_from_value := vc_from_value; set_claims := vc_set_claims |}.
#[export] Instance sdjwtvc_settable `{TypedPayloads} : SettableClaims SdJwtVc :=
  {| claims_from_value := sdjwtvc_from_value; set_claims := sdjwtvc_set_claims |}.

(** ** What they do *)

Lemma vc_set_claims_ok `{HashOrder} `{UrlParser} c claims subject subjects m :
  claim_at (claim_value claims) ["vc"; "credentialSubject"]%string = Some (CObject m) -> map_get "id"%string m = None ->
  vcc_credential_subject c = subject :: subjects ->
  vc_set_claims c claims =
    Ok (mkVcClaim (vcc_digests c) (mkSubject (cs_id subject) (hash_order _ m) :: subjects) (vcc_hash_alg c) (Some claims)).
Proof.
  intros Hat Hid Hs. unfold vc_set_claims, subject_claims. rewrite Hs. cbn [claim_at] in Hat.
  destruct (claim_as_object (claim_value claims)) as [first_level|]; [|done]. cbn [ok_or mbind res_bind option_bind] in *.
  destruct (map_get "vc"%string first_level) as [vc|]; [|done]. cbn [ok_or mbind res_bind option_bind] in *.
  destruct (claim_as_object (claim_value vc)) as [vc'|]; [|done]. cbn [ok_or mbind res_bind option_bind] in *.
  destruct (map_get "credentialSubject"%string vc') as [s|]; [|done]. cbn [ok_or mbind res_bind option_bind] in *.
  injection Hat as ->. cbn [mbind res_bind]. rewrite Hid. cbn [mbind res_bind]. by rewrite map_remove_none.
Qed.

Lemma map_remove_elem {A : Type} k q (a : A) m : (q, a) ∈ map_remove k m <-> (q, a) ∈ m /\ q <> k.
Proof. unfold map_remove. rewrite !list_elem_of_In, List.filter_In, negb_true_iff, String.eqb_neq. done. Qed.

Lemma sdjwtvc_set_claims_ok c claims m : claim_value claims = CObject m ->
  exists public, sdjwtvc_set_claims c claims =
    Ok (mkSdJwtVc (svc_vc_type c) (svc_vct_integrity c) (svc_digests c) (svc_hash_alg c) (svc_status c) public) /\
    forall k v, (k, v) ∈ public <-> (k, v) ∈ m /\ k ∉ reserved_claims.
Proof.
  intros Hm. unfold sdjwtvc_set_claims. rewrite Hm. cbn [claim_as_object ok_or mbind res_bind]. eexists. split; [done|].
  intros k v. assert (forall ks m, (k, v) ∈ foldl (fun claims k => map_remove k claims) m ks <-> (k, v) ∈ m /\ k ∉ ks) as Hf; [|apply Hf].
  clear. induction ks as [|q ks IH]; intros m; cbn [foldl]; [split; [|by intros []]|].
  - intros Hin. split; [done|]. apply not_elem_of_nil.
  - rewrite IH, map_remove_elem, not_elem_of_cons. tauto.
Qed.
