(* ===== verification/SdTheorems.v ===== *)
(** * SD-JWT: properties

    The claims on SD-JWT credentials: what a verifier sees of an issued
    credential when the holder presents some keys, the selection of
    disclosures, the binding of a presentation to the key of its holder, and
    the text of tokens. *)

From S2P Require Import Prelude Paths SdValue SdDisclosures SdTree SdSelect SdIssue SdView SdPresent SdToken Jwt SdFlow SdClaims.
From Stdlib Require Import Ascii String Sorted.
#[local] Notation length := Datatypes.length.

(** ** Heights *)

Lemma list_max_bound (l : list nat) (b : nat) : (forall n, n ∈ l -> (n <= b)%nat) -> (list_max l <= b)%nat.
Proof. intros Hl. apply List.list_max_le. by apply Forall_forall. Qed.

Lemma issued_height `{Hasher} `{DigestStyle} sd (v : Value) : forall t, issued sd v t -> (height t <= value_height v + 2)%nat.
Proof.
  induction v as [| | | |l IH|m IH] using value_rec; intros t Hs;
    try (apply issued_leaf_inv in Hs as ->; [cbn; lia|done|done]).
  - inversion Hs as [| |? es Hsd HF]; subst; [cbn; lia|]. cbn [height value_height Nat.add]. apply le_n_S, Nat.max_lub; [lia|].
    apply list_max_bound. intros n ([od t] & -> & Hin)%list_elem_of_fmap.
    destruct (Forall2_elem_r _ _ _ _ HF Hin) as (v & Hv & d & _ & _ & Hi). specialize (IH v Hv t Hi).
    apply (value_height_elem v) in Hv. cbn [value_height] in Hv. lia.
  - destruct (issued_object_inv sd m t Hs) as (hs & hs' & -> & Hp & HF). cbn [height value_height Nat.add]. apply le_n_S, Nat.max_lub; [cbn; lia|].
    apply list_max_bound. intros n ([d t] & -> & Hin)%list_elem_of_fmap.
    destruct (member_elem sd m hs hs' d t Hp HF Hin) as (k & v & Hm & _ & _ & Hi). specialize (IH k v Hm t Hi).
    apply (value_height_member k v) in Hm. cbn [value_height] in Hm. lia.
Qed.

Lemma leafs_height members k t (v : Value) : (k, t) ∈ leafs members ->
  (forall w, (k, w) ∈ members -> (value_height w < value_height v)%nat) -> (height t < value_height v)%nat.
Proof. intros (w & -> & Hw)%leafs_elem Hlt. cbn [height]. auto. Qed.

Lemma map_get_insert_elem {A : Type} (k : string) (a : A) m : map_ok m -> (k, a) ∈ map_insert k a m.
Proof. intros Hm. apply map_get_elem. by rewrite map_get_insert, decide_True. Qed.

Lemma map_insert_keeps {A : Type} (k q : string) (a b : A) m : map_ok m -> q <> k -> (q, b) ∈ m -> (q, b) ∈ map_insert k a m.
Proof. intros Hm Hq Hin. apply map_get_elem. rewrite map_get_insert, decide_False by done. by apply map_elem_get. Qed.

Lemma subject_height `{Hasher} `{DigestStyle} members hs digests : plain_members members ->
  (height (TObject (leafs members) (Some hs)) <= value_height (subject members digests) + height (TObject [] (Some hs)))%nat.
Proof.
  intros (Hok & Hm & _). cbn [height map].
  enough (list_max (map (fun '(_, t) => height t) (leafs members)) <= value_height (subject members digests))%nat.
  { cbn [list_max List.list_max fold_right]. lia. }
  apply list_max_bound. intros n ([k t] & -> & Hin)%list_elem_of_fmap. apply Nat.lt_le_incl. eapply leafs_height; [exact Hin|].
  intros w Hw. apply (value_height_member k). apply map_insert_keeps; [done| |done].
  by destruct (markerless_member members k w Hm Hw) as (? & _).
Qed.

Lemma plug_height ctx t (v : Value) : plain_context ctx ->
  (height (plug_tree ctx t) <= value_height (plug ctx v) + height t)%nat.
Proof.
  induction ctx as [|[members k] ctx IH]; cbn [plug_tree plug plain_context]; [lia|]. intros ((Hok & Hm & _) & Hk & Hc). specialize (IH Hc).
  assert (map_ok (leafs members)) as Hlok by (by apply (map_ok_map TLeaf)).
  pose proof (value_height_member k (plug ctx v) _ (map_get_insert_elem k (plug ctx v) members Hok)) as Hlt.
  cbn [height]. rewrite Nat.max_0_r. apply Nat.le_succ_l. apply Nat.le_lt_trans with
    (value_height (VObject (map_insert k (plug ctx v) members)) - 1 + height t)%nat; [|lia].
  apply list_max_bound. intros n ([q s] & -> & Hin)%list_elem_of_fmap.
  apply map_elem_get in Hin; [|by apply map_insert_ok]. rewrite map_get_insert in Hin by done. case_decide as Hq.
  - injection Hin as <-. lia.
  - apply map_get_elem in Hin. assert (height s < value_height (VObject (map_insert k (plug ctx v) members)))%nat; [|lia].
    eapply leafs_height; [exact Hin|]. intros w Hw. apply (value_height_member q). by apply map_insert_keeps.
Qed.

(** ** Keys *)

Lemma starts_with_cancel (x y z : string) : starts_with (x ++ y) (x ++ z) = starts_with y z.
Proof.
  unfold starts_with. induction x as [|a x IH]; [done|].
  change (String a x ++ y)%string with (String a (x ++ y)). change (String a x ++ z)%string with (String a (x ++ z)).
  cbn [String.prefix]. destruct (ascii_dec a a); [exact IH|done].
Qed.

Definition prefixed (up : list string) (keys : list string) : list string :=
  match up with
  | [] => keys
  | _ => (fun key => (join_path up ++ marker_str ++ key)%string) <$> keys
  end.

Lemma prefixed_leaf up keys q : is_leaf_key (prefixed up keys) q <->
  exists k, is_leaf_key keys k /\ q = match up with [] => k | _ => (join_path up ++ marker_str ++ k)%string end.
Proof.
  destruct up as [|u up]; cbn [prefixed]; [split; [eauto|by intros (k & ? & ->)]|].
  set (P := join_path (u :: up)). clearbody P. unfold is_leaf_key.
  assert (forall a b, ancestor (P ++ marker_str ++ a) (P ++ marker_str ++ b) <-> ancestor a b) as Hanc.
  { intros a b. rewrite !ancestor_iff, !str_app_assoc, !starts_with_cancel. done. }
  split.
  - intros [(k & -> & Hk)%list_elem_of_fmap Hno]. exists k. split; [|done]. split; [done|]. intros k' Hk' Ha.
    apply (Hno (P ++ marker_str ++ k')%string); [apply list_elem_of_fmap; eauto|by apply Hanc].
  - intros (k & [Hk Hno] & ->). split; [apply list_elem_of_fmap; eauto|].
    intros k' (b & -> & Hb)%list_elem_of_fmap Ha. apply (proj1 (Hanc k b)) in Ha. by apply Hno in Ha.
Qed.

Lemma prefixed_split up k : (forall x, x ∈ up -> depth x = 0%nat) ->
  split_on marker match up with [] => k | _ => (join_path up ++ marker_str ++ k)%string end = up ++ split_on marker k.
Proof.
  intros Hup. destruct up as [|u up]; [done|]. change (marker_str ++ k)%string with (String marker k).
  rewrite split_app, split_join; done.
Qed.

(** A key that can be followed through the claims can be followed through the
    tree that was issued for them. *)
Lemma issued_walk `{Hasher} `{DigestStyle} reads_back sd (p : list string) : forall v t, json_ok reads_back v = true ->
  issued sd v t -> is_ok (walk_tree (TLeaf v) p) = true -> is_ok (walk_tree t p) = true.
Proof.
  induction p as [|k p IH]; intros v t Hj Hs Hok; [done|].
  assert (forall (A B : Type) (r : res FormatterError A) (f : A -> B), is_ok r = true -> is_ok (x ← r; Ok (f x)) = true) as Hbind
    by (intros A B r f; by destruct r).
  inversion Hs as [? Ho Ha|m hs hs' Hp HF|l es Hsd HF]; subst; [done|..].
  - cbn [walk_tree] in Hok. destruct (map_get k m) as [w|] eqn:Hk.
    + apply map_get_elem in Hk. assert (exists d s, (d, s) ∈ hs' /\ d_key d = Some k /\ issued sd w s) as (d & s & Hin & Hd & Hi).
      { apply list_elem_of_lookup_1 in Hk as [i0 Hi0]. destruct (Forall2_lookup_l _ _ _ _ _ HF Hi0) as ([d s] & Hl & ? & _ & ?).
        exists d, s. split; [rewrite Hp; by eapply list_elem_of_lookup_2|done]. }
      destruct (json_object reads_back m Hj) as [Hmap Hvs]. rewrite (selection_member hs' k p d s).
      * apply (Hbind _ _ (walk_tree s p) (fun r => (d :: fst r, snd r))). eapply IH; [|exact Hi|done]. by eapply Hvs.
      * rewrite Hp, (member_keys sd m hs) by done. by apply map_ok_NoDup.
      * intros e r Her. destruct (member_elem sd m hs hs' e r Hp HF Her) as (? & ? & _ & -> & _). done.
      * done.
      * done.
    + rewrite selection_no_member; [done|]. intros e s Hin He.
      destruct (member_elem sd m hs hs' e s Hp HF Hin) as (k' & w & Hm & Hk' & _). assert (k' = k) as -> by congruence.
      by eapply map_get_None in Hk.
  - cbn [walk_tree] in Hok |- *. destruct (usize_from_str k) as [i|]; [|done]. cbn [ok_or mbind res_bind] in *.
    destruct (l !! Z.to_nat i) as [w|] eqn:Hw; [|done]. cbn [ok_or mbind res_bind] in Hok.
    destruct (Forall2_lookup_l _ _ _ _ _ HF Hw) as ([od s] & Hl & d & _ & _ & Hi). rewrite Hl. cbn [ok_or mbind res_bind fst snd].
    apply (Hbind _ _ (walk_tree s p) (fun r => (of_option od ++ fst r, snd r))). eapply IH; [|exact Hi|done].
    cbn [json_ok] in Hj. rewrite List.forallb_forall in Hj. apply Hj, list_elem_of_In. by eapply list_elem_of_lookup_2.
Qed.

(** ** Presenting an issued credential *)

Section presenting.
Context `{SdCodecLaws} `{HasherLaws} `{!HashText} `{HashOrderLaws}.
#[local] Existing Instance current_style.

Lemma issue_shape sd m n texts digests n' : json_ok number_reads_back (VObject m) = true ->
  compute_object_disclosures sd (VObject m) n = (Ok (texts, digests), n') ->
  exists hs hs0, texts = map d_text (nodes (TObject [] (Some hs))) /\ digests = map (fun h => d_digest (fst h)) hs /\
    hs ≡ₚ hs0 /\ Forall2 (member_of sd) m hs0 /\ forall d, d ∈ nodes (TObject [] (Some hs)) -> genuine d.
Proof.
  intros Hj Hc. destruct (object_issued sd m Hj) with (n := n) as (hs & n1 & Hc' & Hi & Hg).
  { intros k v Hin. apply nested_issued. by apply (keys_json_ok m k). }
  rewrite Hc in Hc'. injection Hc' as -> -> ->. destruct (issued_object_inv sd m _ Hi) as (hs0 & hs1 & [= <-] & Hp & HF).
  by exists hs, hs0.
Qed.

Lemma read_genuine d : genuine d -> read_disclosure (d_text d) = Ok d.
Proof. intros [Hdec Hu Hp _ _]. unfold read_disclosure. rewrite Hdec. cbn. rewrite Hu. exact Hp. Qed.

Lemma read_all ds : (forall d, d ∈ ds -> genuine d) -> try_map read_disclosure (map d_text ds) = Ok ds.
Proof. intros Hg. rewrite try_map_map. apply try_map_id. intros d Hd. by apply read_genuine, Hg. Qed.

Lemma read_some (all : list Disclosure) out : (forall d, d ∈ all -> genuine d) -> (forall x, x ∈ out -> exists d, d ∈ all /\ x = d_text d) ->
  exists ds, out = map d_text ds /\ forall d, d ∈ ds -> d ∈ all.
Proof.
  intros Hg. induction out as [|x out IH]; intros Hx; [exists []; split; [done|by intros d ?%not_elem_of_nil]|].
  destruct (Hx x) as (d & Hd & ->); [left|]. destruct IH as (ds & -> & Hds); [intros y Hy; apply Hx; by right|].
  exists (d :: ds). split; [done|]. intros e [->|He]%elem_of_cons; auto.
Qed.

Lemma distinct_NoDup ds : distinct ds -> NoDup ds.
Proof. unfold distinct. intros (Hnd & _ & _)%NoDup_app. by apply NoDup_fmap_1 in Hnd. Qed.

Lemma hash_disclosures_ok ds : hash_disclosures ds = Ok (map hashed ds).
Proof.
  unfold hash_disclosures. apply try_map_all_ok. intros d _. unfold hash_disclosure, hash_disclosure_array. by rewrite !hash_ok.
Qed.

(** What the expansion finds among the presented disclosures. *)
Lemma presented_known all ds out t : distinct all -> (forall d, d ∈ nodes t -> d ∈ all) -> out = map d_text ds ->
  (forall d, d ∈ ds -> d ∈ all) -> knows (fun d => bool_decide (d_text d ∈ out)) (map hashed ds) t.
Proof.
  intros Hd Hsub -> Hds d Hn%Hsub. destruct (hashed_find all ds d Hd Hn Hds) as [Hin Hout].
  case_bool_decide as Ht.
  - apply list_elem_of_fmap in Ht as (e & He & Hin'). apply Hin. assert (d = e) as ->; [|done].
    apply (distinct_inj all); [done|done|auto|]. rewrite He. by left.
  - apply Hout. intros Hd'. apply Ht, list_elem_of_fmap. eauto.
Qed.

Lemma user_path_plain ctx : plain_context ctx -> SELECTIVE_DISCLOSURE_MARKER ∉ user_path ctx.
Proof.
  induction ctx as [|[ms x] ctx IH]; cbn; [by intros _ ?%not_elem_of_nil|]. intros (_ & [Hx _] & Hc).
  apply not_elem_of_cons. auto.
Qed.

Variables (sd : bool) (members m : list (string * Value)) (ctx : SdPresent.Context) (hs hs' hs0 : list (Disclosure * SdTree)).
Variables (keys : list string) (depth : nat).
#[local] Notation whole := (TObject (leafs members) (Some hs')).
#[local] Notation all := (nodes (TObject [] (Some hs))).
#[local] Notation up := (user_path ctx).

Lemma present_view :
  plain_members members -> plain_context ctx -> (forall x, x ∈ up -> Paths.depth x = 0%nat) ->
  json_ok number_reads_back (VObject m) = true -> issuable sd (VObject m) = true ->
  hs' ≡ₚ hs -> hs ≡ₚ hs0 -> Forall2 (member_of sd) m hs0 -> (forall k v, (k, v) ∈ m -> map_get k members = None) ->
  (forall d, d ∈ all -> genuine d) -> distinct all ->
  (forall k, is_leaf_key keys k -> SELECTIVE_DISCLOSURE_MARKER ∉ split_on marker k /\
     is_ok (walk_tree (TLeaf (VObject members)) (split_on marker k)) = true /\
     is_ok (walk_tree (TLeaf (VObject m)) (split_on marker k)) = true) ->
  (height (plug_tree ctx whole) <= depth)%nat ->
  exists ds c cs, select_disclosures depth (prefixed up keys) (payload (plug_tree ctx whole)) all = Ok (map d_text ds) /\
    (forall d, d ∈ ds -> d ∈ all) /\
    claim_value_try_from (payload (plug_tree ctx whole)) = Ok (enclosed (plug_tree ctx whole)) /\
    recursively_expand_disclosures depth (map hashed ds) (plain_claim (enclosed (plug_tree ctx whole))) = Ok (plain_claim c) /\
    claim_at c up = Some (CObject (map_extend (map (fun '(k, v) => (k, plain_claim (leaf_claim v))) members) cs)) /\
    shows sd (split_on marker <$> paths_to_leafs keys) (VObject m) (CObject cs).
Proof.
  intros Hmem Hctx Hup Hj Hi Hp Hp0 HF Hdis Hg Hd Hkeys Hdepth. assert (hs' ≡ₚ hs0) as Hp' by (by rewrite Hp).
  pose proof (whole_wf number_reads_back sd members m hs0 hs' Hmem Hj Hi Hp' HF Hdis) as Hwf.
  pose proof (plug_wf ctx whole Hctx Hwf) as HwfT.
  assert (nodes whole ≡ₚ all) as Hnodes by (rewrite whole_nodes; cbn [nodes flat_map app]; by apply Permutation_flat_map).
  assert (forall d, d ∈ nodes (plug_tree ctx whole) -> d ∈ all) as Hsub by (intros d Hn; rewrite (plug_nodes ctx _ d Hctx), Hnodes in Hn; exact Hn).
  assert (forall k, is_leaf_key keys k -> is_ok (walk_tree whole (split_on marker k)) = true) as Hwalk.
  { intros k Hk. destruct (Hkeys k Hk) as (_ & H1' & H2'). pose proof (split_on_nonempty marker k) as Hne.
    destruct (split_on marker k) as [|x p]; [done|]. cbn [walk_tree] in H1' |- *. rewrite leafs_get.
    destruct (map_get x members) as [v|] eqn:Hx; [exact H1'|].
    exact (issued_walk number_reads_back sd (x :: p) (VObject m) _ Hj (alone_issued sd m hs0 hs' Hp' HF) H2'). }
  destruct (select_tree_spec all (plug_tree ctx whole) depth (prefixed up keys)) as (out & Hout & _ & Hiff); [done..| |].
  { intros q (k & Hk & ->)%prefixed_leaf. rewrite prefixed_split by done. destruct (Hkeys k Hk) as (Hno & _). split.
    - intros [Hin|Hin]%elem_of_app; [by apply user_path_plain in Hin|done].
    - rewrite plug_walk by done. auto. }
  destruct (read_some all out) as (ds & -> & Hds); [done| |].
  { intros x (k & d & _ & Hsel & ->)%Hiff. exists d. split; [|done]. by eapply Hsub, selection_nodes. }
  destruct (whole_shows number_reads_back sd members m hs0 hs' Hmem Hj Hi Hp' HF Hdis (fun d => bool_decide (d_text d ∈ map d_text ds))
    (split_on marker <$> paths_to_leafs keys)) as (cs & Hreveal & Hshows).
  - rewrite Hnodes. by apply distinct_NoDup.
  - intros (k & Hk & _)%list_elem_of_fmap. symmetry in Hk. by apply split_on_nonempty in Hk.
  - intros p (k & -> & Hk%paths_to_leafs_spec)%list_elem_of_fmap. auto.
  - intros d Hn. rewrite bool_decide_eq_true, Hiff. rewrite Hnodes in Hn. split.
    + intros (q & e & (k & Hk & ->)%prefixed_leaf & Hsel & Heq). rewrite prefixed_split, plug_selection in Hsel by done.
      exists (split_on marker k). split; [apply list_elem_of_fmap; exists k; split; [done|by apply paths_to_leafs_spec]|].
      assert (d = e) as ->; [|done]. apply (distinct_inj all); [done|done| |left; by rewrite Heq].
      rewrite <- Hnodes. by eapply selection_nodes.
    + intros (p & (k & -> & Hk%paths_to_leafs_spec)%list_elem_of_fmap & Hsel).
      exists match up with [] => k | _ => (join_path up ++ marker_str ++ k)%string end, d.
      split; [apply prefixed_leaf; eauto|]. by rewrite prefixed_split, plug_selection.
  - exists ds, (reveal (fun d => bool_decide (d_text d ∈ map d_text ds)) (plug_tree ctx whole)), cs.
    split; [done|]. split; [done|]. split; [by apply convert|]. split.
    + apply expand_tree; [done| |done]. by apply (presented_known all).
    + split; [|done]. by rewrite plug_claim_at, Hreveal.
Qed.
End presenting.

(** ** Tokens of issued credentials *)

(** Where the formatter puts the digests: [to_payload] places them, in any
    order, at the path of [ctx] next to plain [members], in a payload that is
    read back as it was printed. *)
Record places `{SdCodec} `{Jwks} `{!PayloadCodec Value} (to_payload : list string -> res FormatterError Value)
  (ctx : SdPresent.Context) (members : list (string * Value)) : Prop := {
  places_digests : forall digests, exists digests', to_payload digests = Ok (plug ctx (subject members digests')) /\ digests' ≡ₚ digests;
  places_reads : forall (p : JWTPayload Value) digests, jp_custom p = plug ctx (subject members digests) -> reads_as p (at_seconds p);
  places_members : plain_members members;
  places_context : plain_context ctx;
  places_path : forall x, x ∈ user_path ctx -> depth x = 0%nat
}.

(** The claims that are issued next to these members. *)
Record claims_ok `{SdCodecLaws} (sd : bool) (m members : list (string * Value)) : Prop := {
  claims_json : json_ok number_reads_back (VObject m) = true;
  claims_issuable : issuable sd (VObject m) = true;
  claims_disjoint : forall k v, (k, v) ∈ m -> map_get k members = None
}.

Section tokens_of_credentials.
Context `{SdCodecLaws} `{HasherLaws} `{!HashText} `{HashOrderLaws} `{HeaderLaws} `{!PayloadCodec Value} `{!SdProviders}.
#[local] Existing Instance current_style.

Lemma genuine_tilde d : genuine d -> count_char tilde (d_text d) = 0%nat.
Proof. intros Hg. by apply (all_chars_count is_b64url), genuine_text. Qed.

Lemma parse_appended jwt ds : count_char tilde jwt = 0%nat -> (forall d, d ∈ ds -> genuine d) ->
  parse_token (append_disclosures jwt (map d_text ds)) = Ok (mkDecomposedToken jwt ds None).
Proof.
  intros Hj Hg. rewrite append_disclosures_eq.
  - rewrite <- (str_app_nil tilde_str). apply (parse_parts jwt (map d_text ds) None); [done| |done|by apply read_all].
    intros x (d & -> & Hd)%list_elem_of_fmap. by apply genuine_tilde, Hg.
  - intros x (d & -> & Hd)%list_elem_of_fmap. by apply genuine_nonempty, Hg.
Qed.

(** Issuing returns the token of a JWT with the digests, and the disclosures. *)
Lemma format_shape inputs m auth_fn to_payload sd now n token n' ctx members :
  places to_payload ctx members -> claims_ok sd m members ->
  format_credential inputs (VObject m) auth_fn to_payload sd now n = (Ok token, n') ->
  exists hs hs' hs0 jwt_text jwt, token = append_disclosures jwt_text (map d_text (nodes (TObject [] (Some hs)))) /\
    count_char tilde jwt_text = 0%nat /\ decompose_token jwt_text = Ok jwt /\
    jp_custom (dj_payload jwt) = payload (plug_tree ctx (TObject (leafs members) (Some hs'))) /\
    sign (SignatureProvider := auth_fn) (dj_unverified_jwt jwt) = Some (dj_signature jwt) /\
    hs' ≡ₚ hs /\ hs ≡ₚ hs0 /\ Forall2 (member_of sd) m hs0 /\ forall d, d ∈ nodes (TObject [] (Some hs)) -> genuine d.
Proof.
  intros [Hplace Hreads Hmem Hctx Hup] [Hj Hi Hdis] Hf. unfold format_credential, format_hashed_credential, mbind, M_bind in Hf.
  destruct (compute_object_disclosures sd (VObject m) n) as [[[texts digests]|e|] n1] eqn:Hc; [|done..].
  destruct (issue_shape sd m n texts digests n1 Hj Hc) as (hs & hs0 & -> & -> & Hp & HF & Hg).
  cbn [fst snd] in Hf. destruct (Hplace (map (fun h => d_digest (fst h)) hs)) as (digests' & Hto & Hpd). rewrite Hto in Hf.
  cbn [lift mret M_ret fst snd] in Hf. destruct (proof_of_possession_key _ _) as [pop|e|]; cbn [lift] in Hf; [|done..].
  destruct (ok_or jose_alg _) as [alg|e|]; cbn [lift] in Hf; [|done..].
  destruct (match fi_issuer_certificate inputs with Some _ => _ | None => _ end) as [info|e|]; cbn [lift] in Hf; [|done..].
  match type of Hf with context [tokenize ?h ?p ?a] => destruct (tokenize h p a) as [jwt_text|e|] eqn:Ht; [|done..] end.
  cbn [nested map_err mret M_ret] in Hf. injection Hf as <- <-. apply Permutation_map_inv in Hpd as (hs' & -> & Hp').
  eapply decompose_tokenize in Ht as (sg & unv & Hdec & Hsg & Htil & _); [|by eapply Hreads].
  eexists hs, hs', hs0, jwt_text, _. split; [done|]. split; [done|]. split; [exact Hdec|].
  split; [cbn; by rewrite plug_payload, subject_payload|]. by split_and!.
Qed.
End tokens_of_credentials.

(** ** Claims *)

(** A key of a presentation names no marker, and does not lead into a scalar
    or out of an array; a member that does not exist is allowed. *)
Definition presentable (m members : list (string * Value)) (key : string) : Prop :=
  SELECTIVE_DISCLOSURE_MARKER ∉ split_on marker key /\
  is_ok (walk_tree (TLeaf (VObject members)) (split_on marker key)) = true /\
  is_ok (walk_tree (TLeaf (VObject m)) (split_on marker key)) = true.

(** The depth of the call stack that is enough for a payload and claims. *)
Definition stack_depth (payload : Value) (m : list (string * Value)) : nat :=
  2 * value_height payload + value_height (VObject m) + 2.

(** The verifier takes the signature of the issuer on the JWT. *)
Definition trusted `{SdCodec} `{Jwks} `{!SdProviders} (verification : option TokenVerifier) (jwt : DecomposedJwt Value)
  (issuer : IdentifierDetails) : Prop :=
  get_hasher (sd_alg (jp_custom (dj_payload jwt))) = true /\
  exists source, issuer_source (jp_issuer (dj_payload jwt)) (jh_key_id (dj_header jwt)) (jh_x5c (dj_header jwt)) = Ok (source, issuer) /\
    check_signature verification jwt source = Ok tt.

Section claims.
Context `{SdCodecLaws} `{HasherLaws} `{!HashText} `{HashOrderLaws} `{HeaderLaws} `{!PayloadCodec Value} `{!SdProviders}.
#[local] Existing Instance current_style.

Lemma depth_enough sd m members ctx hs' hs0 depth : plain_members members -> plain_context ctx -> hs' ≡ₚ hs0 ->
  Forall2 (member_of sd) m hs0 ->
  (stack_depth (payload (plug_tree ctx (TObject (leafs members) (Some hs')))) m <= depth)%nat ->
  (height (plug_tree ctx (TObject (leafs members) (Some hs'))) <= depth)%nat.
Proof.
  intros Hmem Hctx Hp HF. unfold stack_depth. rewrite plug_payload, subject_payload.
  pose proof (plug_height ctx (TObject (leafs members) (Some hs')) (subject members (map (fun h => d_digest (fst h)) hs')) Hctx) as Hh.
  pose proof (subject_height members hs' (map (fun h => d_digest (fst h)) hs') Hmem) as Hs.
  pose proof (issued_height sd (VObject m) _ (alone_issued sd m hs0 hs' Hp HF)) as Hi.
  assert (value_height (subject members (map (fun h => d_digest (fst h)) hs')) <=
    value_height (plug ctx (subject members (map (fun h => d_digest (fst h)) hs'))))%nat as Hle.
  { clear -Hctx. induction ctx as [|[ms k] ctx IH]; [done|]. cbn [plug plain_context] in *. destruct Hctx as ((Hok & _) & _ & Hc).
    pose proof (value_height_member k _ _ (map_get_insert_elem k (plug ctx (subject members (map (fun h => d_digest (fst h)) hs'))) ms Hok)).
    specialize (IH Hc). lia. }
  lia.
Qed.

(** A credential that [format_credential] issued can be read: its token
    is taken apart into the JWT and the disclosures, the signature is the
    issuer's over the JWT, the payload holds at the place of the claims one
    digest per top-level claim and none of the claims themselves, and each
    disclosure is read from its own text. *)
Theorem issued_token_reads inputs m auth_fn to_payload sd now n token n' ctx members :
  places to_payload ctx members -> claims_ok sd m members ->
  format_credential inputs (VObject m) auth_fn to_payload sd now n = (Ok token, n') ->
  exists t jwt digests, parse_token token = Ok t /\ dt_key_binding_token t = None /\
    decompose_token (dt_jwt t) = Ok jwt /\
    sign (SignatureProvider := auth_fn) (dj_unverified_jwt jwt) = Some (dj_signature jwt) /\
    jp_custom (dj_payload jwt) = plug ctx (subject members digests) /\ length digests = length m /\
    (forall h, h ∈ digests -> exists d, d ∈ dt_disclosures t /\ h = digest (d_text d)) /\
    (forall d, d ∈ dt_disclosures t -> genuine d).
Proof.
  intros Hpl Hcl Hf. destruct (format_shape inputs m auth_fn to_payload sd now n token n' ctx members Hpl Hcl Hf)
    as (hs & hs' & hs0 & jwt_text & jwt & -> & Htil & Hdec & Hcustom & Hsign & Hp & Hp0 & HF & Hg).
  rewrite plug_payload, subject_payload in Hcustom.
  eexists (mkDecomposedToken jwt_text (nodes (TObject [] (Some hs))) None), jwt, _.
  split; [by apply parse_appended|]. split; [done|]. split; [exact Hdec|]. split; [exact Hsign|]. split; [exact Hcustom|].
  split; [|split; [|exact Hg]].
  - rewrite length_map, Hp, Hp0. symmetry. by eapply Forall2_length.
  - intros h ([d s] & -> & Hin)%list_elem_of_fmap. rewrite Hp in Hin. exists d. split; [|done].
    exact (proj1 (nodes_hidden d s [] hs Hin)).
Qed.

(** The presentation of a credential and what is read from it, for any typed
    payload. *)
Lemma present_and_read inputs m auth_fn to_payload sd now n token n' ctx members t jwt keys depth verification issuer :
  places to_payload ctx members -> claims_ok sd m members ->
  format_credential inputs (VObject m) auth_fn to_payload sd now n = (Ok token, n') ->
  parse_token token = Ok t -> decompose_token (dt_jwt t) = Ok jwt -> distinct (dt_disclosures t) ->
  (forall k, k ∈ paths_to_leafs keys -> presentable m members k) ->
  (stack_depth (jp_custom (dj_payload jwt)) m <= depth)%nat ->
  trusted verification jwt issuer ->
  exists presented c cs,
    prepare_sd_presentation depth (mkCredentialPresentation token keys) (user_path ctx) = Ok presented /\
    (forall (P : Type) (HP : SettableClaims P),
      build_from_token_with_disclosures (P := P) depth presented verification =
      p ← typed_payload (jp_custom (dj_payload jwt)) (plain_claim c);
      Ok (dj_header jwt, with_claims (dj_payload jwt) p, issuer, None)) /\
    claim_at c (user_path ctx) = Some (CObject (map_extend (map (fun '(k, v) => (k, plain_claim (leaf_claim v))) members) cs)) /\
    shows sd (split_on marker <$> paths_to_leafs keys) (VObject m) (CObject cs).
Proof.
  intros Hpl Hcl Hf Hparse Hdec Hdist Hkeys Hdepth (Hhash & source & Hsrc & Hsig).
  destruct (format_shape inputs m auth_fn to_payload sd now n token n' ctx members Hpl Hcl Hf)
    as (hs & hs' & hs0 & jwt_text & jwt' & -> & Htil & Hdec' & Hcustom & _ & Hp & Hp0 & HF & Hg).
  rewrite parse_appended in Hparse by done. injection Hparse as <-. cbn [dt_jwt dt_disclosures] in *.
  rewrite Hdec' in Hdec. injection Hdec as <-. destruct Hpl as [_ _ Hmem Hctx Hup], Hcl as [Hj Hi Hdis].
  destruct (present_view sd members m ctx hs hs' hs0 keys depth) as (ds & c & cs & Hsel & Hds & Hconv & Hexp & Hat & Hsh); try done.
  { intros k Hk. apply Hkeys. by apply paths_to_leafs_spec. }
  { apply (depth_enough sd m members ctx hs' hs0); [done|done|by rewrite Hp|done|by rewrite <- Hcustom]. }
  exists (append_disclosures jwt_text (map d_text ds)), c, cs. split; [|split; [|done]].
  - unfold prepare_sd_presentation. cbn [cp_token cp_disclosed_keys]. rewrite parse_appended by done. cbn [mbind res_bind dt_jwt dt_disclosures].
    rewrite Hdec'. cbn [nested map_err mbind res_bind]. rewrite Hcustom.
    change (match user_path ctx with [] => keys | _ => _ end) with (prefixed (user_path ctx) keys). by rewrite Hsel.
  - intros P HP. unfold build_from_token_with_disclosures. rewrite parse_appended by auto. cbn [mbind res_bind dt_jwt dt_disclosures dt_key_binding_token].
    rewrite Hdec'. cbn [nested map_err mbind res_bind]. rewrite Hhash. cbn [negb fail_if mbind res_bind]. rewrite Hsrc.
    cbn [mbind res_bind fst snd]. rewrite Hsig. cbn [mbind res_bind]. rewrite hash_disclosures_ok. cbn [mbind res_bind].
    unfold claim_try_from. rewrite Hcustom, Hconv. cbn [mbind res_bind]. unfold plain_claim in Hexp at 1. by rewrite Hexp.
Qed.
Lemma shown_keys sd K m cs k c : shows sd K (VObject m) (CObject cs) -> (k, c) ∈ cs -> exists v, (k, v) ∈ m.
Proof.
  inversion 1 as [? ? Ho|? ? ? HF|]; subst; [done|]. intros Hin.
  destruct (Forall2_elem_r _ _ _ _ HF Hin) as ([q v] & Hm & Hk & _). cbn in Hk. subst q. exists v.
  rewrite list_elem_of_In, List.filter_In in Hm. destruct Hm as [Hm _]. by apply list_elem_of_In.
Qed.

Lemma no_such_key sd K m cs members k : shows sd K (VObject m) (CObject cs) -> k ∉ m.*1 -> k ∉ members.*1 ->
  map_get k (map_extend (map (fun '(k, v) => (k, plain_claim (leaf_claim v))) members) cs) = None.
Proof.
  intros Hs Hm Hmem. destruct (map_get k _) as [c|] eqn:Hg; [exfalso|done].
  apply map_get_elem, map_extend_elem in Hg as [([q v] & [= -> ->] & Hin)%list_elem_of_fmap|Hin].
  - apply Hmem, list_elem_of_fmap. by exists (q, v).
  - destruct (shown_keys sd K m cs k c Hs Hin) as [v Hv]. apply Hm, list_elem_of_fmap. by exists (k, v).
Qed.

(** C25: what a verifier sees of a presented SD-JWT credential. When the
    credential was issued with its claims in [vc.credentialSubject], without an
    [id] among them, and the holder presents some keys, then
    [prepare_sd_presentation] and, on its result,
    [build_from_token_with_disclosures] return, and the claims of the first
    subject that the verifier gets are the plain members and, of the claims
    that were issued, exactly those that lie on the way to a presented key or
    below one (a key above another presented key does not count), each marked
    as selectively disclosable; of the array elements that are not disclosed
    the digest is left. *)
Theorem vc_presentation_shows `{UrlParser} `{TypedPayloads} inputs m auth_fn to_payload sd now n token n' ctx members t jwt keys depth
  verification issuer p subject subjects :
  places to_payload ctx members -> claims_ok sd m members ->
  format_credential inputs (VObject m) auth_fn to_payload sd now n = (Ok token, n') ->
  parse_token token = Ok t -> decompose_token (dt_jwt t) = Ok jwt -> distinct (dt_disclosures t) ->
  (forall k, k ∈ paths_to_leafs keys -> presentable m members k) ->
  (stack_depth (jp_custom (dj_payload jwt)) m <= depth)%nat ->
  trusted verification jwt issuer ->
  user_path ctx = ["vc"; "credentialSubject"]%string -> "id"%string ∉ m.*1 -> "id"%string ∉ members.*1 ->
  vc_from_value (jp_custom (dj_payload jwt)) = Some p -> vcc_credential_subject p = subject :: subjects ->
  exists presented payload subject' cs,
    prepare_sd_presentation depth (mkCredentialPresentation token keys) (user_path ctx) = Ok presented /\
    build_from_token_with_disclosures (P := VcClaim) depth presented verification = Ok (dj_header jwt, payload, issuer, None) /\
    vcc_credential_subject (jp_custom payload) = subject' :: subjects /\ cs_id subject' = cs_id subject /\
    cs_claims subject' ≡ₚ map_extend (map (fun '(k, v) => (k, plain_claim (leaf_claim v))) members) cs /\
    shows sd (split_on marker <$> paths_to_leafs keys) (VObject m) (CObject cs).
Proof.
  intros Hpl Hcl Hf Hp Hd Hdist Hkeys Hdepth Htr Hpath Hm Hmem Hfrom Hsub.
  destruct (present_and_read inputs m auth_fn to_payload sd now n token n' ctx members t jwt keys depth verification issuer)
    as (presented & c & cs & Hprep & Hbuild & Hat & Hshows); [done..|].
  exists presented. rewrite Hbuild. unfold typed_payload. cbn [claims_from_value set_claims vc_settable]. rewrite Hfrom.
  cbn [ok_or mbind res_bind]. rewrite Hpath in Hat.
  erewrite (vc_set_claims_ok p (plain_claim c) subject subjects); [|exact Hat|by eapply no_such_key|done]. cbn [mbind res_bind].
  eexists _, _, cs. split; [done|]. split; [done|]. split; [done|]. split; [done|]. split; [apply hash_order_perm|done].
Qed.

(** The claims of a presented SD-JWT VC. When the credential was issued
    with its claims at the top of the payload, the verifier's [SdJwtVc] keeps
    its type, digests and status and has as public claims exactly the plain
    members and the claims on the way to a presented key or below one, less
    the names that are reserved: a disclosure cannot replace the type or the
    status of the credential. *)
Theorem sdjwtvc_presentation_shows `{TypedPayloads} inputs m auth_fn to_payload sd now n token n' members t jwt keys depth
  verification issuer p :
  places to_payload [] members -> claims_ok sd m members ->
  format_credential inputs (VObject m) auth_fn to_payload sd now n = (Ok token, n') ->
  parse_token token = Ok t -> decompose_token (dt_jwt t) = Ok jwt -> distinct (dt_disclosures t) ->
  (forall k, k ∈ paths_to_leafs keys -> presentable m members k) ->
  (stack_depth (jp_custom (dj_payload jwt)) m <= depth)%nat ->
  trusted verification jwt issuer -> sdjwtvc_from_value (jp_custom (dj_payload jwt)) = Some p ->
  exists presented payload public cs,
    prepare_sd_presentation depth (mkCredentialPresentation token keys) [] = Ok presented /\
    build_from_token_with_disclosures (P := SdJwtVc) depth presented verification = Ok (dj_header jwt, payload, issuer, None) /\
    jp_custom payload = mkSdJwtVc (svc_vc_type p) (svc_vct_integrity p) (svc_digests p) (svc_hash_alg p) (svc_status p) public /\
    (forall k v, (k, v) ∈ public <->
       (k, v) ∈ map_extend (map (fun '(k, v) => (k, plain_claim (leaf_claim v))) members) cs /\ k ∉ reserved_claims) /\
    shows sd (split_on marker <$> paths_to_leafs keys) (VObject m) (CObject cs).
Proof.
  intros Hpl Hcl Hf Hp Hd Hdist Hkeys Hdepth Htr Hfrom.
  destruct (present_and_read inputs m auth_fn to_payload sd now n token n' [] members t jwt keys depth verification issuer)
    as (presented & c & cs & Hprep & Hbuild & Hat & Hshows); [done..|].
  exists presented. rewrite Hbuild. unfold typed_payload. cbn [claims_from_value set_claims sdjwtvc_settable]. rewrite Hfrom.
  cbn [ok_or mbind res_bind]. injection Hat as Hat.
  destruct (sdjwtvc_set_claims_ok p (plain_claim c) _ Hat) as (public & -> & Hpub). cbn [mbind res_bind].
  eexists _, public, cs. split; [done|]. split; [done|]. split; [done|]. split; [exact Hpub|done].
Qed.
End claims.

(** ** Key binding *)

(** [KeyBindingPayload] is read back as it was printed. *)
Class KeyBindingLaws `{Jwks} `{!PayloadCodec KeyBindingPayload} := {
  key_binding_reads : forall p : JWTPayload KeyBindingPayload, reads_as p (at_seconds p)
}.

(** What [verify_holder_binding] has checked when it accepts. *)
Record bound `{SdCodec} `{Hasher} `{HeaderCodec} `{!PayloadCodec KeyBindingPayload} (cnf : ProofOfPossessionKey)
  (token kb : string) (verification : option TokenVerifier) (ctx : HolderBindingCtx) (leeway now : Z)
  (jwt : DecomposedJwt KeyBindingPayload) : Prop := {
  bound_jwt : decompose_token kb = Ok jwt;
  bound_signature : check_signature verification jwt (SourceJwk (pop_jwk cnf)) = Ok tt;
  bound_hash : hash <$> bound_part token = Some (Ok (kb_sd_hash (jp_custom (dj_payload jwt))));
  bound_nonce : kb_nonce (jp_custom (dj_payload jwt)) = hb_nonce ctx;
  bound_audience : exists audience, jp_audience (dj_payload jwt) = Some audience /\ hb_audience ctx ∈ audience;
  bound_time : exists iat, jp_issued_at (dj_payload jwt) = Some iat /\ (iat - leeway <= now)%Z
}.

Section key_binding.
Context `{SdCodecLaws} `{HasherLaws} `{HeaderLaws} `{!PayloadCodec KeyBindingPayload} `{!KeyBindingLaws}.

Lemma existsb_eqb (x : string) (l : list string) : existsb (String.eqb x) l = true <-> x ∈ l.
Proof.
  rewrite existsb_elem. split; [intros (y & Hy & He%String.eqb_eq); by subst|]. intros Hx. exists x. split; [done|]. apply String.eqb_refl.
Qed.

(** [verify_holder_binding] accepts a key binding token in a context if and
    only if all the checks hold. *)
Lemma verify_holder_binding_spec cnf token kb verification ctx leeway now p :
  verify_holder_binding cnf token kb verification (mkHolderBindingParams (Some ctx) leeway) now = Ok p <->
  exists k jwt, kb = Some k /\ p = dj_payload jwt /\ bound cnf token k verification ctx leeway now jwt.
Proof.
  unfold verify_holder_binding. cbn [hp_context hp_leeway]. split.
  - intros Hv. destruct kb as [k|]; cbn [fmap option_fmap option_map] in Hv; [|done].
    destruct (decompose_token k) as [jwt|e|] eqn:Hd; cbn [nested map_err mbind res_bind] in Hv; [|done..].
    destruct (check_signature verification jwt _) as [[]|e|] eqn:Hs; cbn [mbind res_bind] in Hv; [|done..].
    destruct (bound_part token) as [part|] eqn:Hb; cbn [ok_or mbind res_bind] in Hv; [|done].
    rewrite hash_ok in Hv. cbn [mbind res_bind] in Hv.
    destruct (String.eqb _ (digest part)) eqn:Hh; cbn [negb fail_if mbind res_bind] in Hv; [|done].
    destruct (jp_issued_at (dj_payload jwt)) as [iat|] eqn:Hi; cbn [ok_or mbind res_bind] in Hv; [|done].
    destruct (now <? iat - leeway)%Z eqn:Ht; cbn [fail_if mbind res_bind] in Hv; [done|].
    destruct (jp_audience (dj_payload jwt)) as [aud|] eqn:Ha; cbn [ok_or mbind res_bind] in Hv; [|done].
    destruct (existsb _ aud) eqn:He; cbn [negb fail_if mbind res_bind] in Hv; [|done].
    destruct (String.eqb (kb_nonce _) _) eqn:Hn; cbn [negb fail_if mbind res_bind] in Hv; [|done]. injection Hv as <-.
    apply String.eqb_eq in Hh, Hn. apply existsb_eqb in He. apply Z.ltb_ge in Ht.
    exists k, jwt. split; [done|]. split; [done|]. constructor; [done|done| |done|eauto|eauto].
    rewrite Hb. cbn. by rewrite hash_ok, Hh.
  - intros (k & jwt & -> & -> & [Hd Hs Hb Hn (aud & Ha & Hin) (iat & Hi & Ht)]). cbn [fmap option_fmap option_map].
    rewrite Hd. cbn [nested map_err mbind res_bind]. rewrite Hs. cbn [mbind res_bind].
    destruct (bound_part token) as [part|]; [|done]. cbn in Hb. injection Hb as Hb. rewrite hash_ok in Hb. injection Hb as Hb.
    cbn [ok_or mbind res_bind]. rewrite hash_ok. cbn [mbind res_bind]. rewrite Hb, String.eqb_refl. cbn [negb fail_if mbind res_bind].
    rewrite Hi. cbn [ok_or mbind res_bind]. rewrite (proj2 (Z.ltb_ge _ _) Ht). cbn [fail_if mbind res_bind].
    rewrite Ha. cbn [ok_or mbind res_bind]. rewrite (proj2 (existsb_eqb _ _) Hin). cbn [negb fail_if mbind res_bind].
    by rewrite Hn, String.eqb_refl.
Qed.

Lemma whole_seconds_le t : (whole_seconds t <= t)%Z.
Proof. unfold whole_seconds. pose proof (Z.mul_div_le t 1000000000). lia. Qed.

Lemma bound_part_appended t kb : count_char tilde kb = 0%nat -> bound_part ((t ++ tilde_str) ++ kb) = Some (t ++ tilde_str)%string.
Proof. intros Hk. unfold bound_part. rewrite str_app_assoc. change (tilde_str ++ kb)%string with (String tilde kb). by rewrite rsplit_once_app. Qed.

(** The key binding token that is appended. *)
Lemma append_shape ctx f token now vp : append_key_binding_token ctx f token now = Ok vp ->
  exists kb jwt alg, vp = (token ++ kb)%string /\ decompose_token kb = Ok jwt /\ count_char tilde kb = 0%nat /\ count_char dot kb <> 0%nat /\
    jose_alg (SignatureProvider := f) = Some alg /\ jh_algorithm (dj_header jwt) = alg /\
    sign (SignatureProvider := f) (dj_unverified_jwt jwt) = Some (dj_signature jwt) /\
    dj_payload jwt = at_seconds (mkJWTPayload (Some now) None None None None (Some [hb_audience ctx]) None None
                                   (mkKeyBindingPayload (hb_nonce ctx) (digest token))).
Proof.
  unfold append_key_binding_token. intros Ha. destruct jose_alg as [alg|] eqn:Halg; cbn [ok_or mbind res_bind] in Ha; [|done].
  rewrite hash_ok in Ha. cbn [mbind res_bind] in Ha.
  match type of Ha with context [tokenize ?h ?p ?a] => destruct (tokenize h p a) as [kb|e|] eqn:Ht; [|done..] end.
  cbn [nested map_err mbind res_bind] in Ha. injection Ha as <-.
  eapply decompose_tokenize in Ht as (sg & unv & Hd & Hs & Ht1 & Ht2); [|apply key_binding_reads].
  eexists kb, _, alg. by split_and!.
Qed.

(** The key binding of a holder is accepted. When a key binding token was
    appended to a presentation (which ends in [~]), then the verifier that
    takes the signatures of the holder's key, expects the same nonce and
    audience and whose clock is not behind by more than the leeway, accepts
    the result. *)
Theorem key_binding_accepted ctx f t now vp cnf verification leeway now' :
  append_key_binding_token ctx f (t ++ tilde_str) now = Ok vp ->
  (forall jwt : DecomposedJwt KeyBindingPayload, jose_alg (SignatureProvider := f) = Some (jh_algorithm (dj_header jwt)) ->
     sign (SignatureProvider := f) (dj_unverified_jwt jwt) = Some (dj_signature jwt) ->
     check_signature verification jwt (SourceJwk (pop_jwk cnf)) = Ok tt) ->
  (now - leeway <= now')%Z ->
  exists kb p, vp = ((t ++ tilde_str) ++ kb)%string /\
    verify_holder_binding cnf vp (Some kb) verification (mkHolderBindingParams (Some ctx) leeway) now' = Ok p /\
    jp_custom p = mkKeyBindingPayload (hb_nonce ctx) (digest (t ++ tilde_str)).
Proof.
  intros (kb & jwt & alg & -> & Hd & Ht & Hdot & Halg & Hh & Hs & Hp)%append_shape Hsig Hnow.
  exists kb, (dj_payload jwt). split; [done|]. split; [|by rewrite Hp]. apply verify_holder_binding_spec. exists kb, jwt.
  split; [done|]. split; [done|]. constructor; rewrite ?Hp; cbn.
  - done.
  - apply Hsig; [by rewrite Hh|done].
  - rewrite bound_part_appended by done. cbn. by rewrite hash_ok.
  - done.
  - eexists. split; [done|]. left.
  - eexists. split; [done|]. pose proof (whole_seconds_le now). lia.
Qed.

(** C26: a key binding token binds the presentation it was made for. When a
    verifier accepts the key binding token that a holder appended to a
    presentation, but with other text [t'] in front of it, or in a context of
    its own, then the two texts have the same hash (so they are equal unless
    the hash collides), and nonce and audience are those the holder was asked
    for: disclosures cannot be added, dropped or swapped, and a presentation
    cannot be replayed to another verifier. *)
Theorem key_binding_binds ctx f t now vp cnf verification leeway now' t' ctx' kb p :
  append_key_binding_token ctx f (t ++ tilde_str) now = Ok vp -> vp = ((t ++ tilde_str) ++ kb)%string ->
  verify_holder_binding cnf ((t' ++ tilde_str) ++ kb) (Some kb) verification (mkHolderBindingParams (Some ctx') leeway) now' = Ok p ->
  digest (t' ++ tilde_str) = digest (t ++ tilde_str) /\ hb_nonce ctx' = hb_nonce ctx /\ hb_audience ctx' = hb_audience ctx.
Proof.
  intros (kb' & jwt & alg & -> & Hd & Ht & Hdot & Halg & Hh & Hs & Hp)%append_shape Heq Hv.
  apply verify_holder_binding_spec in Hv as (k & jwt' & [= <-] & -> & [Hd' _ Hb Hn (aud & Ha & Hin) _]).
  apply (f_equal list_ascii_of_string) in Heq. rewrite !list_ascii_app in Heq. apply app_inv_head in Heq.
  assert (kb' = kb) as ->.
  { rewrite <- (string_of_list_ascii_of_string kb'), <- (string_of_list_ascii_of_string kb). by rewrite Heq. }
  rewrite Hd in Hd'. injection Hd' as <-. rewrite Hp in *. cbn in Hb, Hn, Ha. injection Ha as <-.
  rewrite bound_part_appended in Hb by done. cbn in Hb. injection Hb as Hb. rewrite hash_ok in Hb. injection Hb as Hb.
  apply list_elem_of_singleton in Hin. done.
Qed.
End key_binding.
