(* ===== verification/SdExample.v ===== *)
(** * A concrete SD-JWT deployment

    Codecs, a hash and providers that satisfy the laws the theorems assume:
    texts are numbered by [Countable], base64 is hexadecimal, the hash is a
    polynomial. The examples issue, present and verify credentials with
    them. *)

From S2P Require Import Prelude Paths SdValue SdDisclosures SdTree SdSelect SdIssue SdView SdPresent SdToken Jwt SdFlow SdClaims SdTheorems.
From stdpp Require Import countable.
From Stdlib Require Import Ascii String.
#[local] Notation length := Datatypes.length.

(** ** Texts *)

Fixpoint pos_string (p : positive) : string :=
  match p with
  | xH => "e" | xO xH => "f" | xI xH => "g"
  | xO (xO p) => String "0" (pos_string p) | xO (xI p) => String "1" (pos_string p)
  | xI (xO p) => String "2" (pos_string p) | xI (xI p) => String "3" (pos_string p)
  end.
Fixpoint string_pos (s : string) : option positive :=
  match s with
  | EmptyString => None
  | String a s =>
      if Ascii.eqb a "0" then (fun p => xO (xO p)) <$> string_pos s
      else if Ascii.eqb a "1" then (fun p => xO (xI p)) <$> string_pos s
      else if Ascii.eqb a "2" then (fun p => xI (xO p)) <$> string_pos s
      else if Ascii.eqb a "3" then (fun p => xI (xI p)) <$> string_pos s
      else Some (if Ascii.eqb a "e" then xH else if Ascii.eqb a "f" then xO xH else xI xH)
  end.

Definition text {A : Type} `{Countable A} (a : A) : string := pos_string (encode a).
Definition untext {A : Type} `{Countable A} (s : string) : option A := string_pos s ≫= decode.

Lemma untext_text {A : Type} `{Countable A} (a : A) : untext (text a) = Some a.
Proof.
  unfold untext, text. assert (forall p, string_pos (pos_string p) = Some p) as Hp.
  { fix IH 1. intros [[p|p|]|[p|p|]|]; cbn [pos_string string_pos Ascii.eqb Bool.eqb]; rewrite ?IH; reflexivity. }
  rewrite Hp. cbn. apply decode_encode.
Qed.

Lemma text_chars {A : Type} `{Countable A} (a : A) : all_chars is_b64url (text a) = true.
Proof.
  unfold text. generalize (encode a). fix IH 1.
  intros [[p|p|]|[p|p|]|]; cbn [pos_string all_chars]; [exact (IH p)|exact (IH p)|done|exact (IH p)|exact (IH p)|done|done].
Qed.

Lemma text_nonempty {A : Type} `{Countable A} (a : A) : text a <> EmptyString.
Proof. unfold text. by destruct (encode a) as [[]|[]|]. Qed.

(** Values as trees. *)
Fixpoint value_tree (v : Value) : gen_tree string :=
  match v with
  | VNull => GenNode 0 []
  | VBool b => GenNode (if b then 2 else 1) []
  | VNumber n => GenNode 3 [GenLeaf n]
  | VString s => GenNode 4 [GenLeaf s]
  | VArray l => GenNode 5 (map value_tree l)
  | VObject m => GenNode 6 (map (fun '(k, v) => GenNode 7 [GenLeaf k; value_tree v]) m)
  end.
Fixpoint tree_value (t : gen_tree string) : Value :=
  match t with
  | GenNode 1 _ => VBool false
  | GenNode 2 _ => VBool true
  | GenNode 3 [GenLeaf n] => VNumber n
  | GenNode 4 [GenLeaf s] => VString s
  | GenNode 5 l => VArray (map tree_value l)
  | GenNode 6 l => VObject (map (fun t => match t with GenNode _ [GenLeaf k; t] => (k, tree_value t) | _ => (EmptyString, VNull) end) l)
  | _ => VNull
  end.

Lemma tree_value_tree (v : Value) : tree_value (value_tree v) = v.
Proof.
  induction v as [|[]| | |l IH|m IH] using value_rec; [done..| |].
  - cbn. f_equal. rewrite List.map_map. rewrite <- (List.map_id l) at 2. apply List.map_ext_in. intros v Hv. by apply IH, list_elem_of_In.
  - cbn. f_equal. rewrite List.map_map. rewrite <- (List.map_id m) at 2. apply List.map_ext_in. intros [k v] Hv.
    by rewrite (IH k v) by (by apply list_elem_of_In).
Qed.

(** ** Hexadecimal *)

Definition hex_digit (n : N) : ascii := ascii_of_N (if (n <? 10)%N then 48 + n else 87 + n)%N.
Definition digit_value (a : ascii) : N := let n := N_of_ascii a in (if n <? 97 then n - 48 else n - 87)%N.
Fixpoint to_hex (s : string) : string :=
  match s with
  | EmptyString => EmptyString
  | String a s => String (hex_digit (N_of_ascii a / 16)) (String (hex_digit (N_of_ascii a mod 16)) (to_hex s))
  end.
Fixpoint of_hex (s : string) : string :=
  match s with
  | String a (String b s) => String (ascii_of_N (16 * digit_value a + digit_value b)) (of_hex s)
  | _ => EmptyString
  end.

Definition byte_ok (a : ascii) : bool :=
  is_b64url (hex_digit (N_of_ascii a / 16)) && is_b64url (hex_digit (N_of_ascii a mod 16)) &&
  Ascii.eqb (ascii_of_N (16 * digit_value (hex_digit (N_of_ascii a / 16)) + digit_value (hex_digit (N_of_ascii a mod 16)))) a.
Lemma bytes_ok (a : ascii) : byte_ok a = true.
Proof. destruct a as [[] [] [] [] [] [] [] []]; vm_compute; reflexivity. Qed.

Lemma of_hex_to_hex (s : string) : of_hex (to_hex s) = s /\ all_chars is_b64url (to_hex s) = true.
Proof.
  induction s as [|a s [IH1 IH2]]; [done|]. pose proof (bytes_ok a) as Ha. unfold byte_ok in Ha.
  apply andb_true_iff in Ha as [[H1 H2]%andb_true_iff H3%Ascii.eqb_eq]. cbn [to_hex of_hex all_chars]. by rewrite H1, H2, H3, IH1, IH2.
Qed.

(** Texts that need no coding are marked and kept. *)
Definition armor (s : string) : string := if all_chars is_b64url s then String "A" s else String "B" (to_hex s).
Definition unarmor (s : string) : string :=
  match s with EmptyString => EmptyString | String a s => if Ascii.eqb a "A" then s else of_hex s end.
Lemma unarmor_armor (s : string) : unarmor (armor s) = s /\ all_chars is_b64url (armor s) = true.
Proof. unfold armor. destruct (all_chars is_b64url s) eqn:Hs; [done|]. cbn. by destruct (of_hex_to_hex s) as [-> ->]. Qed.

(** ** Instances *)

#[export] Instance ex_codec : SdCodec := {
  b64url_encode s := Some (armor s);
  b64url_decode s := Some (unarmor s);
  value_to_string v := text (value_tree v);
  disclosure_array_from_str s :=
    match tree_value <$> untext s with
    | Some (VArray [VString salt; VString key; v]) => Some (salt, key, v)
    | _ => None
    end;
  disclosure_array_element_from_str s :=
    match tree_value <$> untext s with Some (VArray [VString salt; v]) => Some (salt, v) | _ => None end;
  salt_at n := to_hex (usize_to_string (Z.of_nat n))
}.

Fixpoint poly (s : string) (h : N) : N :=
  match s with EmptyString => h | String a s => poly s ((h * 257 + N_of_ascii a + 1) mod 4294967291)%N end.
Definition four_bytes (n : N) : string :=
  string_of_list_ascii (ascii_of_N <$> [n mod 256; n / 256 mod 256; n / 65536 mod 256; n / 16777216 mod 256]%N).

#[export] Instance ex_hasher : Hasher := { hash_base64_url s := Some (to_hex (four_bytes (poly s 7))) }.
#[export] Instance ex_hasher_laws : HasherLaws.
Proof. split. intros s. by eexists. Qed.
#[export] Instance ex_hash_text : HashText.
Proof. split. intros s h Hh. apply (inj Some) in Hh as <-. apply of_hex_to_hex. Qed.
#[export] Instance ex_order : HashOrder := { hash_order A l := l }.
#[export] Instance ex_order_laws : HashOrderLaws.
Proof. split. done. Qed.

#[export] Instance ex_codec_laws : SdCodecLaws.
Proof.
  refine {| number_reads_back := fun _ => true |}.
  - intros s. exists (armor s). split; [done|]. cbn [b64url_decode ex_codec]. destruct (unarmor_armor s) as [-> ->]. done.
  - intros s Hs. apply (inj Some) in Hs. unfold armor in Hs. by destruct (all_chars is_b64url s).
  - intros v _. apply b64url_utf8, text_chars.
  - intros v. apply text_nonempty.
  - intros salt key v _. cbn [disclosure_array_from_str value_to_string ex_codec]. rewrite untext_text. cbn [fmap option_fmap option_map].
    by rewrite tree_value_tree.
  - intros salt v _. cbn [disclosure_array_from_str disclosure_array_element_from_str value_to_string ex_codec].
    rewrite untext_text. cbn [fmap option_fmap option_map]. rewrite tree_value_tree. split; [by destruct v|done].
  - intros n. apply b64url_utf8, of_hex_to_hex.
Defined.

(** ** JWTs *)

#[export] Instance ex_jwks : Jwks := { PublicJwk := string; jwk_kid _ := None }.

(** The fields as values, and back. *)
Definition of_str (s : string) : Value := VString s.
Definition to_str (v : Value) : string := default EmptyString (as_str v).
Definition of_z (z : Z) : Value := VString (text z).
Definition to_z (v : Value) : Z := default 0%Z (untext (to_str v)).
Definition of_strs (l : list string) : Value := VArray (map VString l).
Definition to_strs (v : Value) : list string := map to_str (default [] (as_array v)).
Definition of_opt {A : Type} (f : A -> Value) (o : option A) : Value := match o with Some a => VArray [f a] | None => VNull end.
Definition to_opt {A : Type} (g : Value -> A) (v : Value) : option A := match v with VArray [w] => Some (g w) | _ => None end.
Definition of_pop (k : ProofOfPossessionKey) : Value := VArray [of_opt of_str (pop_key_id k); of_str (pop_jwk k)].
Definition to_pop (v : Value) : ProofOfPossessionKey :=
  match v with
  | VArray [k; j] => mkProofOfPossessionKey (to_opt to_str k) (to_str j : PublicJwk (Jwks := ex_jwks))
  | _ => mkProofOfPossessionKey None (EmptyString : PublicJwk (Jwks := ex_jwks))
  end.

Lemma to_of_opt {A : Type} (f : A -> Value) (g : Value -> A) (o : option A) : (forall a, g (f a) = a) -> to_opt g (of_opt f o) = o.
Proof. intros Hg. destruct o as [a|]; [|done]. cbn. by rewrite Hg. Qed.
Lemma to_of_z (z : Z) : to_z (of_z z) = z.
Proof. unfold to_z. change (to_str (of_z z)) with (text z). by rewrite untext_text. Qed.
Lemma to_of_strs (l : list string) : to_strs (of_strs l) = l.
Proof. unfold to_strs, of_strs. cbn. rewrite List.map_map. apply List.map_id. Qed.
Lemma to_of_pop (k : ProofOfPossessionKey) : to_pop (of_pop k) = k.
Proof. destruct k as [o j]. unfold to_pop, of_pop. cbn [pop_key_id pop_jwk]. by rewrite to_of_opt. Qed.

#[export] Instance ex_header_codec : HeaderCodec := {
  header_to_string h := Some (text (value_tree (VArray [of_str (jh_algorithm h); of_opt of_str (jh_key_id h); of_opt of_str (jh_type h);
    of_opt of_str (jh_jwk h); of_opt of_str (jh_jwt h); of_opt of_str (jh_key_attestation h); of_opt of_strs (jh_x5c h)])));
  header_from_slice s :=
    match tree_value <$> untext s with
    | Some (VArray [alg; kid; typ; jwk; jwt; att; x5c]) =>
        Some (mkJWTHeader (to_str alg) (to_opt to_str kid) (to_opt to_str typ) (to_opt to_str jwk : option (PublicJwk (Jwks := ex_jwks)))
          (to_opt to_str jwt) (to_opt to_str att) (to_opt to_strs x5c))
    | _ => None
    end
}.
#[export] Instance ex_header_laws : HeaderLaws.
Proof.
  split. intros [alg kid typ jwk jwt att x5c]. eexists. split; [done|]. split; [|apply text_nonempty]. cbn [header_from_slice ex_header_codec].
  rewrite untext_text. cbn [fmap option_fmap option_map]. rewrite tree_value_tree.
  cbn [jh_algorithm jh_key_id jh_type jh_jwk jh_jwt jh_key_attestation jh_x5c].
  rewrite !(to_of_opt of_str to_str) by done. by rewrite (to_of_opt of_strs to_strs) by apply to_of_strs.
Qed.

Definition value_codec {C : Type} (f : C -> Value) (g : Value -> C) : PayloadCodec C := {|
  payload_to_string p := let p := at_seconds p in
    Some (text (value_tree (VArray [of_opt of_z (jp_issued_at p); of_opt of_z (jp_expires_at p); of_opt of_z (jp_invalid_before p);
      of_opt of_str (jp_issuer p); of_opt of_str (jp_subject p); of_opt of_strs (jp_audience p); of_opt of_str (jp_jwt_id p);
      of_opt of_pop (jp_proof_of_possession_key p); f (jp_custom p)])));
  payload_from_slice s :=
    match tree_value <$> untext s with
    | Some (VArray [iat; exp; nbf; iss; sub; aud; jti; cnf; custom]) =>
        Some (mkJWTPayload (to_opt to_z iat) (to_opt to_z exp) (to_opt to_z nbf) (to_opt to_str iss) (to_opt to_str sub)
          (to_opt to_strs aud) (to_opt to_str jti) (to_opt to_pop cnf) (g custom))
    | _ => None
    end
|}.

Lemma value_codec_reads {C : Type} (f : C -> Value) (g : Value -> C) (p : JWTPayload C) :
  (forall c, g (f c) = c) -> reads_as (PayloadCodec0 := value_codec f g) p (at_seconds p).
Proof.
  intros Hg. eexists. split; [done|]. split; [|apply text_nonempty]. cbn [payload_from_slice value_codec]. rewrite untext_text.
  cbn [fmap option_fmap option_map]. rewrite tree_value_tree. destruct (at_seconds p) as [iat exp nbf iss sub aud jti cnf c].
  cbn [jp_issued_at jp_expires_at jp_invalid_before jp_issuer jp_subject jp_audience jp_jwt_id jp_proof_of_possession_key jp_custom].
  rewrite !(to_of_opt of_z to_z) by apply to_of_z. rewrite !(to_of_opt of_str to_str) by done.
  rewrite (to_of_opt of_strs to_strs) by apply to_of_strs. by rewrite (to_of_opt of_pop to_pop), Hg by apply to_of_pop.
Qed.

#[export] Instance ex_value_codec : PayloadCodec Value := value_codec id id.
#[export] Instance ex_kb_codec : PayloadCodec KeyBindingPayload :=
  value_codec (fun p => VArray [VString (kb_nonce p); VString (kb_sd_hash p)])
    (fun v => match v with VArray [n; h] => mkKeyBindingPayload (to_str n) (to_str h) | _ => mkKeyBindingPayload EmptyString EmptyString end).
#[export] Instance ex_kb_laws : KeyBindingLaws.
Proof. split. intros p. apply value_codec_reads. by intros []. Qed.

(** The issuer and the holder sign with the name of their key. *)
Definition ex_signer (key : string) : SignatureProvider := {| jose_alg := Some "EdDSA"%string; sign m := Some (to_hex (four_bytes (poly (key ++ m) 7))) |}.
Definition ex_verifier (issuer_key : string) : TokenVerifier := {|
  known_jose_alg alg := String.eqb alg "EdDSA";
  verify source alg m s :=
    match source with
    | SourceJwk key => bool_decide (sign (SignatureProvider := ex_signer key) m = Some s)
    | SourceDid _ _ => bool_decide (sign (SignatureProvider := ex_signer issuer_key) m = Some s)
    | SourceX5c _ => false
    end
|}.
#[export] Instance ex_providers : SdProviders := {|
  did_assertion_key _ _ := Some (Some "holder-key"%string);
  key_as_jwk k := Some k;
  valid_did _ := true;
  resolve_jwks_url _ := None;
  parse_url _ := None;
  parse_chain := None;
  pem_chain_into_x5c _ := None
|}.

(** ** A credential *)

(** The claims: an address with a city and a street, and two nationalities. *)
Definition ex_claims : list (string * Value) :=
  [("adr"%string, VObject [("city"%string, VString "B"); ("str"%string, VString "G")]);
   ("nat"%string, VArray [VString "C"; VString "D"])].
Definition ex_ctx : SdPresent.Context := [([], "vc"%string); ([("type"%string, VString "VC")], "credentialSubject"%string)].
Definition ex_payload (digests : list string) : res FormatterError Value := Ok (plug ex_ctx (subject [] (reverse digests))).
Definition ex_inputs : FormattingInputs :=
  mkFormattingInputs "did:key:issuer" None None None None None (Some (mkHolderIdentifier HolderKey None (Some "holder-key"%string)))
    None "vc+sd-jwt" None None.
Definition ok_value {E A : Type} (d : A) (r : res E A) : A := match r with Ok a => a | _ => d end.
Definition ex_token : string :=
  ok_value EmptyString (fst (format_credential ex_inputs (VObject ex_claims) (ex_signer "issuer-key") ex_payload true 5000000000 0)).
Definition ex_parsed : DecomposedToken := ok_value (mkDecomposedToken EmptyString [] None) (parse_token ex_token).
Definition ex_keys : list string := ["adr"; "adr/city"; "nat/1"]%string.
Definition ex_presented : string :=
  ok_value EmptyString (prepare_sd_presentation 40 (mkCredentialPresentation ex_token ex_keys) (user_path ex_ctx)).

(** The payloads: a credential with one subject, and a type. *)
#[export] Instance ex_urls : UrlParser := { url_parse s := Some s }.
#[export] Instance ex_typed : TypedPayloads := {
  vc_from_value _ := Some (mkVcClaim [] [mkSubject None []] None None);
  sdjwtvc_from_value v :=
    match v with
    | VObject m => match map_get "vct"%string m with Some (VString t) => Some (mkSdJwtVc t None [] None None []) | _ => None end
    | _ => None
    end
}.

Definition ex_verified (token : string) : option (list (list (string * CredentialClaim))) :=
  match build_from_token_with_disclosures (P := VcClaim) 40 token (Some (ex_verifier "issuer-key")) with
  | Ok (_, p, _, _) => Some (map cs_claims (vcc_credential_subject (jp_custom p)))
  | _ => None
  end.

(** Of the keys [adr], [adr/city] and [nat/1], the city and the second
    nationality are shown. *)
Example ex_presentation : ex_verified ex_presented = Some [
  [("adr"%string, shown_claim (CObject [("city"%string, shown_claim (CString "B"))]));
   ("nat"%string, shown_claim (CArray [sealed_element "2e03c2f0"; shown_claim (CString "D")]))]].
Proof. vm_compute. reflexivity. Qed.

Lemma ex_places : places ex_payload ex_ctx [].
Proof.
  constructor.
  - intros digests. exists (reverse digests). split; [done|]. apply reverse_Permutation.
  - intros p digests _. by apply value_codec_reads.
  - split; [constructor|]. split; [done|]. by intros k v ?%not_elem_of_nil.
  - cbn. unfold plain_members, plain_name. split; [|split; [done|split; [|done]]].
    + split; [constructor|]. split; [done|]. by intros k v ?%not_elem_of_nil.
    + split; [by repeat constructor|]. split; [done|]. by intros k v [= -> ->]%list_elem_of_singleton.
  - intros x Hx. cbn in Hx. repeat (apply elem_of_cons in Hx as [->|Hx]; [done|]). by apply not_elem_of_nil in Hx.
Qed.

Lemma ex_claims_ok : claims_ok true ex_claims [].
Proof. by constructor. Qed.

Definition ex_jwt : DecomposedJwt Value :=
  ok_value (mkDecomposedJwt (mkJWTHeader EmptyString None None None None None None)
    (mkJWTPayload None None None None None None None None VNull) EmptyString EmptyString) (decompose_token (dt_jwt ex_parsed)).

Lemma ex_format : format_credential ex_inputs (VObject ex_claims) (ex_signer "issuer-key") ex_payload true 5000000000 0 = (Ok ex_token, 6%nat).
Proof. vm_cast_no_check (eq_refl (Ok ex_token : res FormatterError string, 6%nat)). Qed.
Lemma ex_parse : parse_token ex_token = Ok ex_parsed.
Proof. vm_cast_no_check (eq_refl (Ok ex_parsed : res FormatterError DecomposedToken)). Qed.
Lemma ex_decompose : decompose_token (dt_jwt ex_parsed) = Ok ex_jwt.
Proof. vm_cast_no_check (eq_refl (Ok ex_jwt : res TokenError (DecomposedJwt Value))). Qed.
Lemma ex_distinct : distinct (dt_disclosures ex_parsed).
Proof. unfold distinct. apply (bool_decide_eq_true_1 (NoDup _)). vm_cast_no_check (eq_refl true). Qed.
Lemma ex_depth : (stack_depth (jp_custom (dj_payload ex_jwt)) ex_claims <= 40)%nat.
Proof. apply Nat.leb_le. vm_cast_no_check (eq_refl true). Qed.
Lemma ex_trusted : trusted (Some (ex_verifier "issuer-key")) ex_jwt (DetailsDid "did:key:issuer").
Proof.
  split; [vm_cast_no_check (eq_refl true)|]. exists (SourceDid "did:key:issuer" None).
  split; [vm_cast_no_check (eq_refl (Ok (SourceDid "did:key:issuer" None, DetailsDid "did:key:issuer") : res FormatterError _))|].
  vm_cast_no_check (eq_refl (Ok tt : res FormatterError unit)).
Qed.
Lemma ex_keys_leafs : paths_to_leafs ex_keys = ["adr/city"; "nat/1"]%string.
Proof. vm_compute. reflexivity. Qed.

(** ** Witnesses *)

Lemma issued_token_reads_witness : exists t, parse_token ex_token = Ok t /\ dt_key_binding_token t = None.
Proof.
  destruct (issued_token_reads ex_inputs ex_claims (ex_signer "issuer-key") ex_payload true 5000000000 0 ex_token 6 ex_ctx []
    ex_places ex_claims_ok ex_format) as (t & _ & _ & Hp & Hk & _). exact (ex_intro _ t (conj Hp Hk)).
Defined.

Lemma ex_presentable k : k ∈ paths_to_leafs ex_keys -> presentable ex_claims [] k.
Proof.
  rewrite ex_keys_leafs. intros [->|[->|[]%not_elem_of_nil]%elem_of_cons]%elem_of_cons; (split; [|split; reflexivity]);
    apply (bool_decide_eq_true_1 (_ ∉ _)); vm_compute; reflexivity.
Qed.

Lemma ex_no_id : "id"%string ∉ ex_claims.*1.
Proof. apply (bool_decide_eq_true_1 (_ ∉ _)). vm_compute. reflexivity. Qed.

Lemma ex_from : vc_from_value (jp_custom (dj_payload ex_jwt)) = Some (mkVcClaim [] [mkSubject None []] None None).
Proof. reflexivity. Qed.

Lemma vc_presentation_shows_witness : exists presented p issuer cs,
  prepare_sd_presentation 40 (mkCredentialPresentation ex_token ex_keys) (user_path ex_ctx) = Ok presented /\
  build_from_token_with_disclosures (P := VcClaim) 40 presented (Some (ex_verifier "issuer-key")) = Ok (dj_header ex_jwt, p, issuer, None) /\
  shows true [["adr"; "city"]; ["nat"; "1"]]%string (VObject ex_claims) (CObject cs).
Proof.
  destruct (vc_presentation_shows ex_inputs ex_claims (ex_signer "issuer-key") ex_payload true 5000000000 0 ex_token 6 ex_ctx []
    ex_parsed ex_jwt ex_keys 40 (Some (ex_verifier "issuer-key")) (DetailsDid "did:key:issuer")
    (mkVcClaim [] [mkSubject None []] None None) (mkSubject None []) []
    ex_places ex_claims_ok ex_format ex_parse ex_decompose ex_distinct ex_presentable ex_depth ex_trusted
    eq_refl ex_no_id (not_elem_of_nil _) ex_from eq_refl)
    as (presented & p & s & cs & Hp & Hb & _ & _ & _ & Hs).
  rewrite ex_keys_leafs in Hs.
  exact (ex_intro _ presented (ex_intro _ p (ex_intro _ (DetailsDid "did:key:issuer") (ex_intro _ cs (conj Hp (conj Hb Hs)))))).
Defined.

(** A credential with its type at the top of the payload and one claim. *)
Definition ex_vc_members : list (string * Value) := [("vct"%string, VString "t")].
Definition ex_vc_claims : list (string * Value) := [("a"%string, VString "x")].
Definition ex_vc_payload (digests : list string) : res FormatterError Value := Ok (subject ex_vc_members digests).
Definition ex_vc_token : string :=
  ok_value EmptyString (fst (format_credential ex_inputs (VObject ex_vc_claims) (ex_signer "issuer-key") ex_vc_payload true 5000000000 0)).
Definition ex_vc_parsed : DecomposedToken := ok_value (mkDecomposedToken EmptyString [] None) (parse_token ex_vc_token).
Definition ex_vc_jwt : DecomposedJwt Value :=
  ok_value (mkDecomposedJwt (mkJWTHeader EmptyString None None None None None None)
    (mkJWTPayload None None None None None None None None VNull) EmptyString EmptyString) (decompose_token (dt_jwt ex_vc_parsed)).

Lemma ex_vc_places : places ex_vc_payload [] ex_vc_members.
Proof.
  constructor.
  - intros digests. by exists digests.
  - intros p digests _. by apply value_codec_reads.
  - unfold plain_members, plain_name. split; [by repeat constructor|]. split; [done|]. by intros k v [= -> ->]%list_elem_of_singleton.
  - done.
  - by intros x ?%not_elem_of_nil.
Qed.
Lemma ex_vc_claims_ok : claims_ok true ex_vc_claims ex_vc_members.
Proof. constructor; [done|done|]. by intros k v [= -> ->]%list_elem_of_singleton. Qed.
Lemma ex_vc_format : format_credential ex_inputs (VObject ex_vc_claims) (ex_signer "issuer-key") ex_vc_payload true 5000000000 0 = (Ok ex_vc_token, 1%nat).
Proof. vm_cast_no_check (eq_refl (Ok ex_vc_token : res FormatterError string, 1%nat)). Qed.
Lemma ex_vc_parse : parse_token ex_vc_token = Ok ex_vc_parsed.
Proof. vm_cast_no_check (eq_refl (Ok ex_vc_parsed : res FormatterError DecomposedToken)). Qed.
Lemma ex_vc_decompose : decompose_token (dt_jwt ex_vc_parsed) = Ok ex_vc_jwt.
Proof. vm_cast_no_check (eq_refl (Ok ex_vc_jwt : res TokenError (DecomposedJwt Value))). Qed.
Lemma ex_vc_distinct : distinct (dt_disclosures ex_vc_parsed).
Proof. unfold distinct. apply (bool_decide_eq_true_1 (NoDup _)). vm_cast_no_check (eq_refl true). Qed.
Lemma ex_vc_depth : (stack_depth (jp_custom (dj_payload ex_vc_jwt)) ex_vc_claims <= 40)%nat.
Proof. apply Nat.leb_le. vm_cast_no_check (eq_refl true). Qed.
Lemma ex_vc_trusted : trusted (Some (ex_verifier "issuer-key")) ex_vc_jwt (DetailsDid "did:key:issuer").
Proof.
  split; [vm_cast_no_check (eq_refl true)|]. exists (SourceDid "did:key:issuer" None).
  split; [vm_cast_no_check (eq_refl (Ok (SourceDid "did:key:issuer" None, DetailsDid "did:key:issuer") : res FormatterError _))|].
  vm_cast_no_check (eq_refl (Ok tt : res FormatterError unit)).
Qed.
Lemma ex_vc_presentable k : k ∈ paths_to_leafs [] -> presentable ex_vc_claims ex_vc_members k.
Proof. by intros ?%not_elem_of_nil. Qed.
Lemma ex_vc_from : sdjwtvc_from_value (jp_custom (dj_payload ex_vc_jwt)) = Some (mkSdJwtVc "t" None [] None None []).
Proof. vm_cast_no_check (eq_refl (Some (mkSdJwtVc "t" None [] None None []))). Qed.

Lemma sdjwtvc_presentation_shows_witness : exists presented payload public,
  prepare_sd_presentation 40 (mkCredentialPresentation ex_vc_token []) [] = Ok presented /\
  build_from_token_with_disclosures (P := SdJwtVc) 40 presented (Some (ex_verifier "issuer-key")) =
    Ok (dj_header ex_vc_jwt, payload, DetailsDid "did:key:issuer", None) /\
  jp_custom payload = mkSdJwtVc "t" None [] None None public.
Proof.
  destruct (sdjwtvc_presentation_shows ex_inputs ex_vc_claims (ex_signer "issuer-key") ex_vc_payload true 5000000000 0 ex_vc_token 1
    ex_vc_members ex_vc_parsed ex_vc_jwt [] 40 (Some (ex_verifier "issuer-key")) (DetailsDid "did:key:issuer")
    (mkSdJwtVc "t" None [] None None [])
    ex_vc_places ex_vc_claims_ok ex_vc_format ex_vc_parse ex_vc_decompose ex_vc_distinct ex_vc_presentable ex_vc_depth ex_vc_trusted
    ex_vc_from) as (presented & payload & public & cs & Hp & Hb & Hc & _).
  exact (ex_intro _ presented (ex_intro _ payload (ex_intro _ public (conj Hp (conj Hb Hc))))).
Defined.

Definition ex_binding : HolderBindingCtx := mkHolderBindingCtx "nonce" "verifier".
Definition ex_cnf : ProofOfPossessionKey := mkProofOfPossessionKey None ("holder-key"%string : PublicJwk (Jwks := ex_jwks)).
Definition ex_vp : string := ok_value EmptyString (append_key_binding_token ex_binding (ex_signer "holder-key") ("a" ++ tilde_str) 7000000000).
Definition ex_kb : string := String.substring 2 (String.length ex_vp - 2) ex_vp.
Lemma ex_append : append_key_binding_token ex_binding (ex_signer "holder-key") ("a" ++ tilde_str) 7000000000 = Ok ex_vp.
Proof. vm_cast_no_check (eq_refl (Ok ex_vp : res FormatterError string)). Qed.
Lemma ex_holder_signature (jwt : DecomposedJwt KeyBindingPayload) :
  jose_alg (SignatureProvider := ex_signer "holder-key") = Some (jh_algorithm (dj_header jwt)) ->
  sign (SignatureProvider := ex_signer "holder-key") (dj_unverified_jwt jwt) = Some (dj_signature jwt) ->
  check_signature (Some (ex_verifier "issuer-key")) jwt (SourceJwk (pop_jwk ex_cnf)) = Ok tt.
Proof.
  intros Ha Hs. cbn in Ha. injection Ha as Ha. unfold check_signature, verify_signature. cbn [known_jose_alg verify ex_verifier].
  rewrite <- Ha. change (pop_jwk ex_cnf) with "holder-key"%string. by rewrite bool_decide_eq_true_2.
Qed.

Lemma key_binding_accepted_witness : exists kb p, ex_vp = (("a" ++ tilde_str) ++ kb)%string /\
  verify_holder_binding ex_cnf ex_vp (Some kb) (Some (ex_verifier "issuer-key")) (mkHolderBindingParams (Some ex_binding) 1) 7000000000 = Ok p.
Proof.
  destruct (key_binding_accepted ex_binding (ex_signer "holder-key") "a" 7000000000 ex_vp ex_cnf (Some (ex_verifier "issuer-key")) 1 7000000000
    ex_append ex_holder_signature ltac:(lia)) as (kb & p & H1 & H2 & _).
  exact (ex_intro _ kb (ex_intro _ p (conj H1 H2))).
Defined.

Lemma key_binding_binds_witness : digest ("a" ++ tilde_str) = digest ("a" ++ tilde_str) /\ hb_nonce ex_binding = "nonce"%string.
Proof.
  assert (ex_vp = (("a" ++ tilde_str) ++ ex_kb)%string) as Hvp by (vm_cast_no_check (eq_refl ex_vp)).
  assert (exists p, verify_holder_binding ex_cnf (("a" ++ tilde_str) ++ ex_kb) (Some ex_kb) (Some (ex_verifier "issuer-key"))
    (mkHolderBindingParams (Some ex_binding) 1) 7000000000 = Ok p) as [p Hp] by (eexists; vm_compute; reflexivity).
  destruct (key_binding_binds ex_binding (ex_signer "holder-key") "a" 7000000000 ex_vp ex_cnf (Some (ex_verifier "issuer-key")) 1 7000000000
    "a" ex_binding ex_kb p ex_append Hvp Hp) as (Hd & Hn & _). exact (conj Hd eq_refl).
Defined.

(** Below a plain member of a selected claim, nothing is selected: with the
    key [a], the disclosure of [a] is presented and not the one of [c], which
    lies below [a] in the plain object [b]; the key [a/b] selects both. *)
Definition ex_inner : Disclosure := mkDisclosure "s1" (Some "c"%string) (VString "x") "inner array" "inner".
Definition ex_outer : Disclosure :=
  mkDisclosure "s2" (Some "a"%string) (VObject [("b"%string, nested_sd [digest "inner"])]) "outer array" "outer".
Example plain_member_not_collected :
  select_disclosures 40 ["a"%string] (nested_sd [digest "outer"]) [ex_inner; ex_outer] = Ok ["outer"%string] /\
  select_disclosures 40 ["a/b"%string] (nested_sd [digest "outer"]) [ex_inner; ex_outer] = Ok ["outer"; "inner"]%string.
Proof. split; vm_compute; reflexivity. Qed.
