(* ===== verification/VciStore.v ===== *)
(** * OpenID4VCI issuance: the tables

    The state that the issuer side of OpenID4VCI keeps: credentials with the
    columns that issuance writes, interactions with their nonces
    (sql-data-provider/src/interaction/repository.rs), blobs, and the mdocs that
    were issued. The credential table and the revocation lists are those of
    [Validity.v]. *)

From S2P Require Import Prelude KeySelection RevocationRepo RevocationMethod TokenMethod ListFilter Validity.
#[local] Open Scope Z_scope.

(** ** Data *)

Inductive InteractionType := Issuance | Verification.

Record Interaction := mkInteraction {
  in_created_date : Z;
  in_data : option string;
  in_organisation : Z;
  in_nonce_id : option Z;
  in_type : InteractionType;
  in_expires_at : option Z
}.

(** The columns of a credential that issuance reads and writes. *)
Record IssuanceColumns := mkColumns {
  ic_protocol : string;
  ic_interaction_id : option Z;
  ic_redirect_uri : option string;
  ic_holder_identifier_id : option Z;
  ic_issuance_date : option Z;
  ic_wallet_unit_attestation_blob_id : option Z;
  ic_wallet_instance_attestation_blob_id : option Z
}.
Definition no_columns : IssuanceColumns := mkColumns EmptyString None None None None None None.

(** A row of the table of validity credentials. *)
Record Mdoc := mkMdoc { md_credential_id : Z; md_created_date : Z; md_credential : string }.

(** [supply] counts the random values that were drawn. *)
Record VciDb (R : Type) := mkVciDb {
  store : Store R;
  columns : gmap Z IssuanceColumns;
  interactions : gmap Z Interaction;
  blobs : gmap Z string;
  mdocs : list Mdoc;
  supply : nat
}.
Arguments mkVciDb {R} _ _ _ _ _ _.
Arguments store {R} _.
Arguments columns {R} _.
Arguments interactions {R} _.
Arguments blobs {R} _.
Arguments mdocs {R} _.
Arguments supply {R} _.

(** The fields of [UpdateCredentialRequest] that are set here. *)
Record CredentialUpdate := mkCredentialUpdate {
  cu_state : option CredentialStateEnum;
  cu_credential_blob_id : option Z;
  cu_interaction : option Z;
  cu_holder_identifier_id : option Z;
  cu_issuance_date : option Z;
  cu_wallet_unit_attestation_blob_id : option Z;
  cu_wallet_instance_attestation_blob_id : option Z
}.
Definition no_update : CredentialUpdate := mkCredentialUpdate None None None None None None None.
Definition state_update (state : CredentialStateEnum) : CredentialUpdate :=
  mkCredentialUpdate (Some state) None None None None None None.

(** [generate_alphanumeric] and [generate_numeric]. *)
Class Randoms := { alphanumeric_at : nat -> Z -> string; numeric_at : nat -> Z -> string }.

(** ** Operations *)

Section repositories.
Context {R : Type} `{UuidSupply} `{Randoms}.
#[local] Notation Vci E A := (M (VciDb R) E A).

Definition with_store (st : Store R) (s : VciDb R) : VciDb R :=
  mkVciDb st (columns s) (interactions s) (blobs s) (mdocs s) (supply s).
Definition with_interactions (m : gmap Z Interaction) (s : VciDb R) : VciDb R :=
  mkVciDb (store s) (columns s) m (blobs s) (mdocs s) (supply s).
Definition with_blobs (m : gmap Z string) (s : VciDb R) : VciDb R :=
  mkVciDb (store s) (columns s) (interactions s) m (mdocs s) (supply s).
Definition draw (s : VciDb R) : VciDb R :=
  mkVciDb (store s) (columns s) (interactions s) (blobs s) (mdocs s) (S (supply s)).

Definition now_utc {E : Type} : Vci E Z := fun s => (Ok (clock (store s)), s).
Definition new_uuid {E : Type} : Vci E Z := fun s => (Ok (uuid_at (supply s)), draw s).
Definition generate_alphanumeric {E : Type} (length : Z) : Vci E string := fun s => (Ok (alphanumeric_at (supply s) length), draw s).
Definition generate_numeric {E : Type} (length : Z) : Vci E string := fun s => (Ok (numeric_at (supply s) length), draw s).

(** ** Interactions *)

Definition create_interaction (id : Z) (i : Interaction) : Vci DataLayerError unit := fun s =>
  match interactions s !! id with
  | Some _ => (Err AlreadyExists, s)
  | None => (Ok tt, with_interactions (<[id := i]> (interactions s)) s)
  end.

Definition set_data (data : option string) (i : Interaction) : Interaction :=
  mkInteraction (in_created_date i) data (in_organisation i) (in_nonce_id i) (in_type i) (in_expires_at i).
Definition set_nonce (nonce : Z) (i : Interaction) : Interaction :=
  mkInteraction (in_created_date i) (in_data i) (in_organisation i) (Some nonce) (in_type i) (in_expires_at i).

(** [update_interaction] with the field of the request set. *)
Definition update_interaction (id : Z) (data : option string) : Vci DataLayerError unit := fun s =>
  match interactions s !! id with
  | None => (Err RecordNotUpdated, s)
  | Some i => (Ok tt, with_interactions (<[id := set_data data i]> (interactions s)) s)
  end.

Definition get_interaction {E : Type} (id : Z) : Vci E (option Interaction) := fun s => (Ok (interactions s !! id), s).

(** The unique index on the nonces. *)
Definition nonce_taken (nonce : Z) (s : VciDb R) : bool :=
  existsb (fun '(_, i) => bool_decide (in_nonce_id i = Some nonce)) (map_to_list (interactions s)).

(** One [UPDATE] of the row that has no nonce yet. *)
Definition mark_nonce_as_used (interaction_id nonce_id : Z) : Vci DataLayerError unit := fun s =>
  match interactions s !! interaction_id with
  | Some i =>
      if bool_decide (in_nonce_id i = None) then
        if nonce_taken nonce_id s then (Err AlreadyExists, s)
        else (Ok tt, with_interactions (<[interaction_id := set_nonce nonce_id i]> (interactions s)) s)
      else (Err RecordNotUpdated, s)
  | None => (Err RecordNotUpdated, s)
  end.

Definition delete_interaction {E : Type} (id : Z) : Vci E unit := fun s => (Ok tt, with_interactions (delete id (interactions s)) s).

(** ** Credentials *)

Definition columns_of (id : Z) (s : VciDb R) : IssuanceColumns := default no_columns (columns s !! id).

Definition or_old {A : Type} (new old : option A) : option A := match new with Some a => Some a | None => old end.

Definition update_columns (u : CredentialUpdate) (c : IssuanceColumns) : IssuanceColumns :=
  mkColumns (ic_protocol c) (or_old (cu_interaction u) (ic_interaction_id c)) (ic_redirect_uri c)
    (or_old (cu_holder_identifier_id u) (ic_holder_identifier_id c)) (or_old (cu_issuance_date u) (ic_issuance_date c))
    (or_old (cu_wallet_unit_attestation_blob_id u) (ic_wallet_unit_attestation_blob_id c))
    (or_old (cu_wallet_instance_attestation_blob_id u) (ic_wallet_instance_attestation_blob_id c)).

Definition row_update (u : CredentialUpdate) : UpdateCredentialRequest :=
  mkUpdateRequest (cu_state u) DontTouch (cu_credential_blob_id u).

Definition update_row (id : Z) (u : CredentialUpdate) (s : VciDb R) : VciDb R :=
  mkVciDb (set_credentials (apply_update id (row_update u) <$> credentials (store s)) (store s))
    (<[id := update_columns u (columns_of id s)]> (columns s)) (interactions s) (blobs s) (mdocs s) (supply s).

Definition vci_update_credential (id : Z) (u : CredentialUpdate) : Vci DataLayerError unit := fun s =>
  match find_credential id (store s) with
  | None => (Err RecordNotUpdated, s)
  | Some _ => (Ok tt, update_row id u s)
  end.

Definition vci_get_credential {E : Type} (id : Z) : Vci E (option Credential) := fun s => (Ok (find_credential id (store s)), s).

(** Rows that are deleted are found too. *)
Definition of_interaction (interaction_id : Z) (s : VciDb R) : list Credential :=
  List.filter (fun c => bool_decide (ic_interaction_id (columns_of (credential_id c) s) = Some interaction_id)) (credentials (store s)).
Definition get_credentials_by_interaction_id {E : Type} (interaction_id : Z) : Vci E (list Credential) := fun s =>
  (Ok (of_interaction interaction_id s), s).

(** [update_expired_credentials]: the pending credentials whose interaction has
    expired, by the clock in milliseconds. *)
Definition now_truncated_to_milliseconds (s : VciDb R) : Z := clock (store s) / 1000000 * 1000000.
Definition interaction_expired (s : VciDb R) (c : Credential) : bool :=
  bool_decide (credential_state c = CsPending) &&
  match ic_interaction_id (columns_of (credential_id c) s) ≫= fun id => interactions s !! id with
  | Some i => match in_expires_at i with Some t => t <? now_truncated_to_milliseconds s | None => false end
  | None => false
  end.
Definition update_expired_credentials {E : Type} : Vci E (list Z) := fun s =>
  let expired := List.filter (interaction_expired s) (credentials (store s)) in
  (Ok (credential_id <$> expired),
   with_store (set_credentials ((fun c => if interaction_expired s c
     then apply_update (credential_id c) (row_update (state_update CsInteractionExpired)) c else c) <$> credentials (store s)) (store s)) s).

(** ** Blobs and mdocs *)

Definition create_blob (value : string) : Vci DataLayerError Z :=
  id ← new_uuid;
  s ← get;
  match blobs s !! id with
  | Some _ => throw AlreadyExists
  | None => put (with_blobs (<[id := value]> (blobs s)) s);; mret id
  end.
Definition get_blob {E : Type} (id : Z) : Vci E (option string) := fun s => (Ok (blobs s !! id), s).
Definition update_blob (id : Z) (value : string) : Vci DataLayerError unit := fun s =>
  match blobs s !! id with
  | None => (Err RecordNotUpdated, s)
  | Some _ => (Ok tt, with_blobs (<[id := value]> (blobs s)) s)
  end.

Definition insert_mdoc {E : Type} (m : Mdoc) : Vci E unit := fun s =>
  (Ok tt, mkVciDb (store s) (columns s) (interactions s) (blobs s) (mdocs s ++ [m]) (supply s)).

(** [get_latest_by_credential_id]: the newest row. *)
Definition newer (a b : Mdoc) : bool := md_created_date b <=? md_created_date a.
Definition get_latest_mdoc {E : Type} (credential_id : Z) : Vci E (option Mdoc) := fun s =>
  (Ok (head (sort_by newer (List.filter (fun m => md_credential_id m =? credential_id) (mdocs s)))), s).

(** A call of a revocation method. *)
Definition with_revocation {A : Type} (m : M R RevocationError A) : Vci RevocationError A := fun s =>
  let '(r, rev) := m (revocation (store s)) in
  (r, with_store (mkStore (credentials (store s)) rev (clock (store s))) s).
End repositories.
