(* ===== verification/VciService.v ===== *)
(** * OpenID4VCI issuance: the service

    The issuer side of OpenID4VCI 1.0: [share_credential] of the credential
    service with [issuer_share_credential] of
    provider/issuance_protocol/openid4vci_final1_0/mod.rs makes an offer,
    service/oid4vci_final1_0 exchanges the code of the offer for an access token,
    issues the credential against a proof of the holder's key, and takes the
    notifications of the wallet. Credentials are formatted by the formatters, and
    identifiers of holders are kept by the identifier service: both are
    parameters. *)

From S2P Require Import Prelude Paths StatusBits KeySelection RevocationRepo RevocationMethod TokenMethod ListFilter Validity.
From S2P Require Import SdDisclosures SdIssue SdToken Jwt VciStore.
From Stdlib Require Import Ascii String.
#[local] Open Scope Z_scope.
#[local] Notation length := Datatypes.length.

(** ** Errors *)

Inductive OpenID4VCIError :=
| UnsupportedGrantType
| InvalidGrant
| InvalidRequest
| InvalidToken
| InvalidNonce
| InvalidOrMissingProof
| UnsupportedCredentialFormat
| UnsupportedCredentialType
| CredentialRequestDenied
| InvalidNotificationId
| InvalidNotificationRequest
| RuntimeError.

Inductive OpenIDIssuanceError :=
| OiInvalidCredentialState (state : CredentialStateEnum)
| OiValidationError
| OiOpenID4VCI (e : OpenID4VCIError).

(** The errors that issuing returns. *)
Inductive IssuanceProtocolError :=
| IpSuspended
| IpRefreshTooSoon
| IpInvalidRequest
| IpFailed
| IpRevocation (e : RevocationError)
| IpData (e : DataLayerError)
| IpNested.

(** [OID4VCIFinal1_0ServiceError]; nested errors keep what they wrap. *)
Inductive VciError :=
| MissingInteractionForAccessToken (interaction_id : Z)
| MissingCredentialsForInteraction (interaction_id : Z)
| MissingCredentialSchema (schema : Z)
| MissingCredential (credential : Z)
| InvalidCredentialState (state : CredentialStateEnum)
| VciValidationError
| VciMappingError
| OpenId (e : OpenID4VCIError)
| NestedIssuance (e : IssuanceProtocolError)
| VciRevocation (e : RevocationError)
| VciData (e : DataLayerError)
| VciConfigError
| VciTokenError (e : TokenError)
| VciNested.

(** [From<OpenIDIssuanceError>]. *)
Definition of_issuance_error (e : OpenIDIssuanceError) : VciError :=
  match e with
  | OiInvalidCredentialState state => InvalidCredentialState state
  | OiValidationError => VciValidationError
  | OiOpenID4VCI e => OpenId e
  end.

(** ** Data *)

Inductive IssuanceProtocolType := OpenId4VciDraft13 | OpenId4VciFinal1_0 | OpenId4VciFinal1_0Swiyu.
#[export] Instance IssuanceProtocolType_eq_dec : EqDecision IssuanceProtocolType.
Proof. solve_decision. Defined.

Inductive FormatType := FtJwt | FtSdJwt | FtSdJwtVc | FtJsonLdClassic | FtJsonLdBbsPlus | FtMdoc.
#[export] Instance FormatType_eq_dec : EqDecision FormatType.
Proof. solve_decision. Defined.

Inductive KeyStorageSecurityLevel := KsHigh | KsModerate | KsEnhancedBasic | KsBasic.
#[export] Instance KeyStorageSecurityLevel_eq_dec : EqDecision KeyStorageSecurityLevel.
Proof. solve_decision. Defined.

Inductive TransactionCodeType := Numeric | Alphanumeric.
Record TransactionCode := mkTransactionCode { tc_type : TransactionCodeType; tc_length : Z }.

(** A credential schema, as the schema repository returns it. *)
Record IssuanceSchema := mkIssuanceSchema {
  is_id : Z;
  is_schema_id : string;
  is_format : string;
  is_requires_wallet_instance_attestation : bool;
  is_key_storage_security : option KeyStorageSecurityLevel;
  is_transaction_code : option TransactionCode
}.

Record OpenID4VCNonceParams := mkNonceParams { np_signing_key : string; np_expiration : option Z; np_leeway : Z }.
Record OpenID4VCIParams := mkVciParams {
  vp_pre_authorized_code_expires_in : Z;
  vp_token_expires_in : Z;
  vp_refresh_expires_in : Z;
  vp_nonce : option OpenID4VCNonceParams;
  vp_oauth_attestation_leeway : Z;
  vp_key_attestation_leeway : Z
}.

(** The configuration: the protocols with their parameters ([None] when they
    do not parse), the formats, and the minimum refresh time of mdocs. *)
Record VciConfig := mkVciConfig {
  vc_issuance_protocol : list (string * (IssuanceProtocolType * option OpenID4VCIParams));
  vc_format : string -> option FormatType;
  vc_mso_minimum_refresh_time : string -> option Z
}.

(** The service: its type, its addresses, and whether blobs can be stored in
    the database. *)
Record OID4VCIService := mkVciService {
  sv_protocol_type : IssuanceProtocolType;
  sv_protocol_base_url : option string;
  sv_base_url : option string;
  sv_config : VciConfig;
  sv_db_blob_storage : bool
}.

Inductive OpenID4VCITokenRequestDTO :=
| PreAuthorizedCode (pre_authorized_code : string) (tx_code : option string)
| AuthorizationCode (authorization_code client_id : string)
| RefreshToken (refresh_token : string).

Record OpenID4VCITokenResponseDTO := mkTokenResponse {
  tr_access_token : string;
  tr_token_type : string;
  tr_expires_in : Z;
  tr_refresh_token : option string;
  tr_refresh_token_expires_in : option Z
}.

Record OpenID4VCIIssuerInteractionDataDTO := mkInteractionData {
  id_pre_authorized_code_used : bool;
  id_access_token_hash : string;
  id_access_token_expires_at : option Z;
  id_refresh_token_hash : option string;
  id_refresh_token_expires_at : option Z;
  id_notification_id : option string;
  id_transaction_code : option string
}.

Inductive OpenID4VCICredentialRequestIdentifier :=
| CredentialConfigurationId (id : string)
| CredentialIdentifier (id : string).
Inductive OpenID4VCICredentialRequestProofs := ProofsJwt (jwts : list string) | ProofsDiVp (vps : list string) | ProofsAttestation (jwt : string).
Record OpenID4VCICredentialRequestDTO := mkCredentialRequest {
  cr_credential : OpenID4VCICredentialRequestIdentifier;
  cr_proofs : option OpenID4VCICredentialRequestProofs
}.
Record OpenID4VCICredentialResponseDTO := mkCredentialResponse {
  resp_redirect_uri : option string;
  resp_credentials : list string;
  resp_notification_id : option string
}.

Inductive OpenID4VCINotificationEvent := CredentialAccepted | CredentialFailure | CredentialDeleted.
Record OpenID4VCINotificationRequestDTO := mkNotification { nr_notification_id : string; nr_event : OpenID4VCINotificationEvent }.

(** Claims of tokens. *)
Record NonceJwtPayload := mkNoncePayload { nj_context : string }.
Record ProofOfPossession := mkProofOfPossession { pp_nonce : option string }.
Record WalletInstanceAttestationClaims := mkWiaClaims { wi_wallet_name : option string; wi_wallet_link : option string }.
Record WalletUnitAttestationClaims `{Jwks} := mkWuaClaims { wu_key_storage : list KeyStorageSecurityLevel; wu_attested_keys : list PublicJwk }.
Record WalletInstanceAttestationDTO := mkWiaDto { wd_name : string; wd_link : string; wd_attestation : string }.

Inductive OpenID4VCIProofHolderBinding `{Jwks} := BindingDid (did key_id : string) | BindingJwk (jwk : PublicJwk).
Record OpenID4VCIVerifiedProof `{Jwks} := mkVerifiedProof {
  vp_holder_binding : OpenID4VCIProofHolderBinding;
  vp_proof_nonce : option string;
  vp_key_attestation : option string
}.
Arguments mkVerifiedProof {_}.

(** ** What the service calls *)

(** Hashes, UUIDs as text, serde of the stored data. *)
Class VciCodec := {
  sha256 : string -> option string;
  create_hmac : string -> string -> option string;
  uuid_from_str : string -> option Z;
  interaction_data_to_vec : OpenID4VCIIssuerInteractionDataDTO -> option string;
  interaction_data_from_slice : string -> option OpenID4VCIIssuerInteractionDataDTO;
  wia_dto_to_vec : WalletInstanceAttestationDTO -> option string;
  wia_dto_from_slice : string -> option WalletInstanceAttestationDTO;
  wua_dto_to_vec : string -> option string
}.

(** Keys and DIDs, the status of attestations, the identifiers of holders, and
    the credential that the formatter makes. *)
Class VciProviders `{Jwks} := {
  authentication_verifier : TokenVerifier;
  assertion_verifier : TokenVerifier;
  jwk_verifies : string -> PublicJwk -> string -> string -> bool;
  parse_did : string -> option string;
  did_authentication_key : string -> string -> option PublicJwk;
  wallet_unit_attestation_revoked : string -> option bool;
  did_holder_identifier : option Z -> string -> option Z;
  key_holder_identifier : option Z -> PublicJwk -> option (Z * string);
  format_issued_credential : Credential -> Z -> string -> list CredentialStatus -> option string;
  protocol_found : string -> bool
}.

(** The revocation methods, with the entry of an issued credential. *)
Record IssuanceMethodOps (R : Type) := mkIssuanceMethod {
  im_add_issued_credential : Credential -> M R RevocationError (list CredentialStatus);
  im_mark : Credential -> RevocationState -> M R RevocationError unit;
  im_supports_revocation : bool
}.
Arguments im_add_issued_credential {R} _ _ _.
Arguments im_mark {R} _ _ _ _.
Arguments im_supports_revocation {R} _.
Class IssuanceMethods (R : Type) := { issuance_method : string -> option (IssuanceMethodOps R) }.

(** ** Dates *)

(** [OffsetDateTime] in nanoseconds: the years -9999 to 9999; an addition that
    leaves them panics. *)
Definition nanos (seconds : Z) : Z := seconds * 1000000000.
Definition date_ok (t : Z) : bool := (nanos (-377705116800) <=? t) && (t <? nanos 253402300800).
Definition add_duration {E : Type} (t d : Z) : res E Z := if date_ok (t + d) then Ok (t + d) else Panic.
Definition unix_timestamp (t : Z) : Z := t / 1000000000.
Definition from_unix_timestamp (seconds : Z) : option Z := if date_ok (nanos seconds) then Some (nanos seconds) else None.

(** The checks of validator/mod.rs, at the time [now]. *)
Definition validate_issuance_time (now : Z) (issued_at : option Z) (leeway : Z) : res VciError unit :=
  match issued_at with Some t => fail_if (now + nanos leeway <? t) VciNested | None => Ok tt end.
Definition validate_not_before_time (now : Z) (not_before : option Z) (leeway : Z) : res VciError unit :=
  match not_before with Some t => fail_if (now + nanos leeway <? t) VciNested | None => Ok tt end.
Definition validate_expiration_time (now : Z) (expires_at : option Z) (leeway : Z) : res VciError unit :=
  match expires_at with Some t => fail_if (t <? now - nanos leeway) VciNested | None => Ok tt end.

(** ** Checks of tokens *)

Section checks.
Context `{VciCodec} `{UuidSupply}.

Definition throw_if_token_request_invalid (request : OpenID4VCITokenRequestDTO) : res OpenIDIssuanceError unit :=
  match request with
  | PreAuthorizedCode EmptyString _ => Err (OiOpenID4VCI InvalidRequest)
  | RefreshToken EmptyString => Err (OiOpenID4VCI InvalidRequest)
  | _ => Ok tt
  end.

Definition throw_if_tx_code_invalid (expected_code : option string) (request : OpenID4VCITokenRequestDTO) : res OpenID4VCIError unit :=
  match expected_code, request with
  | Some expected_code, PreAuthorizedCode _ (Some request_code) =>
      fail_if (negb (String.eqb expected_code request_code)) InvalidGrant
  | Some _, _ => Err InvalidRequest
  | None, PreAuthorizedCode _ (Some _) => Err InvalidRequest
  | None, _ => Ok tt
  end.

Definition throw_if_interaction_created_date (now pre_authorization_expires_in : Z) (interaction : Interaction) : res OpenIDIssuanceError unit :=
  t ← add_duration (in_created_date interaction) pre_authorization_expires_in;
  fail_if (t <? now) (OiOpenID4VCI InvalidGrant).

Definition throw_if_interaction_pre_authorized_code_used (interaction_data : OpenID4VCIIssuerInteractionDataDTO) : res OpenIDIssuanceError unit :=
  fail_if (id_pre_authorized_code_used interaction_data) (OiOpenID4VCI InvalidGrant).

Definition throw_if_credential_state_not_eq (credential : Credential) (state : CredentialStateEnum) : res OpenIDIssuanceError unit :=
  fail_if (negb (bool_decide (credential_state credential = state))) (OiInvalidCredentialState (credential_state credential)).

Definition validate_refresh_token (now : Z) (interaction_data : OpenID4VCIIssuerInteractionDataDTO) (refresh_token : string) :
  res OpenIDIssuanceError unit :=
  stored_refresh_token_hash ← ok_or (id_refresh_token_hash interaction_data) (OiOpenID4VCI InvalidRequest);
  refresh_token_hash ← ok_or (sha256 refresh_token) OiValidationError;
  _ ← fail_if (negb (String.eqb stored_refresh_token_hash refresh_token_hash)) (OiOpenID4VCI InvalidToken);
  expires_at ← ok_or (id_refresh_token_expires_at interaction_data) (OiOpenID4VCI InvalidRequest);
  fail_if (expires_at <? now) (OiOpenID4VCI InvalidToken).

Definition is_access_token_valid (now : Z) (interaction_data : OpenID4VCIIssuerInteractionDataDTO) (access_token : string) : bool :=
  id_pre_authorized_code_used interaction_data &&
  match sha256 access_token with Some hash => String.eqb hash (id_access_token_hash interaction_data) | None => false end &&
  match id_access_token_expires_at interaction_data with Some expires_at => now <? expires_at | None => false end.

Definition throw_if_access_token_invalid (now : Z) (interaction_data : OpenID4VCIIssuerInteractionDataDTO) (access_token : string) :
  res VciError unit :=
  fail_if (negb (is_access_token_valid now interaction_data access_token)) (OpenId InvalidToken).

Definition parse_access_token (access_token : string) : res OpenID4VCIError Z :=
  match split_on dot access_token with
  | [id; _] => ok_or (uuid_from_str id) RuntimeError
  | _ => Err InvalidToken
  end.
Definition parse_refresh_token (token : string) : res OpenID4VCIError Z := parse_access_token token.

Definition interaction_data_to_dto (interaction : Interaction) : res VciError OpenID4VCIIssuerInteractionDataDTO :=
  interaction_data ← ok_or (in_data interaction) VciMappingError;
  ok_or (interaction_data_from_slice interaction_data) VciMappingError.

(** [TryFrom<&OpenID4VCITokenResponseDTO>]. *)
Definition interaction_data_of_response (value : OpenID4VCITokenResponseDTO) : res OpenID4VCIError OpenID4VCIIssuerInteractionDataDTO :=
  access_token_hash ← ok_or (sha256 (tr_access_token value)) RuntimeError;
  access_token_expires_at ← ok_or (from_unix_timestamp (tr_expires_in value)) RuntimeError;
  refresh_token_hash ← match tr_refresh_token value with
                       | Some t => h ← ok_or (sha256 t) RuntimeError; Ok (Some h)
                       | None => Ok None
                       end;
  refresh_token_expires_at ← match tr_refresh_token_expires_in value with
                             | Some t => d ← ok_or (from_unix_timestamp t) RuntimeError; Ok (Some d)
                             | None => Ok None
                             end;
  Ok (mkInteractionData true access_token_hash (Some access_token_expires_at) refresh_token_hash refresh_token_expires_at None None).
End checks.

(** ** Nonces, proofs and attestations *)

Section tokens.
Context `{SdCodec} `{HeaderCodec} `{!EqDecision PublicJwk} `{!PayloadCodec NonceJwtPayload} `{!PayloadCodec ProofOfPossession}
  `{!PayloadCodec WalletInstanceAttestationClaims} `{!PayloadCodec WalletUnitAttestationClaims} `{!PayloadCodec unit}
  `{VciCodec} `{UuidSupply} `{!VciProviders}.

Definition NONCE_CONTEXT : string := "issuance-openidvci-final-1.0-nonce".
Definition hs256_signer (signing_key : string) : SignatureProvider :=
  {| jose_alg := Some "HS256"%string; sign := create_hmac signing_key |}.

(** [generate_nonce] of nonce.rs; [id] is the fresh UUID. *)
Definition generate_nonce (params : OpenID4VCNonceParams) (base_url : option string) (id now : Z) : res VciError string :=
  let expiration := default 300 (np_expiration params) in
  expires_at ← add_duration now (nanos expiration);
  let payload := mkJWTPayload (Some now) (Some expires_at) None base_url None None (Some (uuid_to_string id)) None
    (mkNoncePayload NONCE_CONTEXT) in
  map_err VciTokenError (tokenize (new_header "JWT" "HS256" None None) payload (Some (hs256_signer (np_signing_key params)))).

Definition validate_nonce (params : OpenID4VCNonceParams) (base_url : option string) (nonce : string) (now : Z) : res VciError Z :=
  jwt ← map_err VciTokenError (decompose_token (C := NonceJwtPayload) nonce);
  let payload := dj_payload jwt in
  _ ← fail_if (negb (String.eqb (jh_algorithm (dj_header jwt)) "HS256")) VciNested;
  issued_at ← ok_or (jp_issued_at payload) VciNested;
  expires_at ← ok_or (jp_expires_at payload) VciNested;
  issuer ← ok_or (jp_issuer payload) VciNested;
  _ ← validate_issuance_time now (Some issued_at) (np_leeway params);
  _ ← validate_expiration_time now (Some expires_at) (np_leeway params);
  _ ← fail_if (negb (bool_decide (Some issuer = base_url))) VciNested;
  _ ← fail_if (negb (String.eqb (nj_context (jp_custom payload)) NONCE_CONTEXT)) VciNested;
  id ← ok_or (jp_jwt_id payload) VciNested;
  id ← ok_or (uuid_from_str id) VciNested;
  expected_signature ← ok_or (create_hmac (np_signing_key params) (dj_unverified_jwt jwt)) VciNested;
  _ ← fail_if (negb (String.eqb expected_signature (dj_signature jwt))) VciNested;
  Ok id.

Definition JWT_PROOF_TYPE : string := "openid4vci-proof+jwt".

(** The part of a key id in front of the first [#]. *)
Fixpoint before_hash (s : string) : option string :=
  match s with
  | EmptyString => None
  | String c s => if Ascii.eqb c "#" then Some EmptyString else String c <$> before_hash s
  end.

(** The key that signed a proof, as its header names it. *)
Definition proof_key (header : JWTHeader) : res VciError (OpenID4VCIProofHolderBinding * PublicKeySource) :=
  match jh_key_id header, jh_jwk header with
  | Some _, Some _ => Err VciNested
  | None, None => Err VciNested
  | None, Some jwk => Ok (BindingJwk jwk, SourceJwk jwk)
  | Some key_id, None =>
      if starts_with "did:" key_id then
        let '(did, fragment) := match before_hash key_id with Some did => (did, Some key_id) | None => (key_id, None) end in
        did ← ok_or (parse_did did) VciNested;
        Ok (BindingDid did key_id, SourceDid did fragment)
      else
        match jh_key_attestation header with
        | Some key_attestation_jwt =>
            attested_key_index ← ok_or (usize_from_str key_id) VciNested;
            wua ← map_err VciTokenError (decompose_token (C := WalletUnitAttestationClaims) key_attestation_jwt);
            attested_key ← ok_or (wu_attested_keys (jp_custom (dj_payload wua)) !! Z.to_nat attested_key_index) VciNested;
            Ok (BindingJwk attested_key, SourceJwk attested_key)
        | None => Err VciNested
        end
  end.

Definition verify_proof (jwt : string) (verifier : TokenVerifier) : res VciError OpenID4VCIVerifiedProof :=
  proof_jwt ← map_err VciTokenError (decompose_token (C := ProofOfPossession) jwt);
  _ ← fail_if (negb (bool_decide (jh_type (dj_header proof_jwt) = Some JWT_PROOF_TYPE))) VciNested;
  key ← proof_key (dj_header proof_jwt);
  _ ← map_err VciTokenError (verify_signature verifier proof_jwt (snd key));
  Ok (mkVerifiedProof (fst key) (pp_nonce (jp_custom (dj_payload proof_jwt))) (jh_key_attestation (dj_header proof_jwt))).

Definition validate_timestamps {C : Type} (now : Z) (token : DecomposedJwt C) (leeway : Z) : res VciError unit :=
  _ ← validate_issuance_time now (jp_issued_at (dj_payload token)) leeway;
  _ ← validate_not_before_time now (jp_invalid_before (dj_payload token)) leeway;
  validate_expiration_time now (jp_expires_at (dj_payload token)) leeway.

(** The issuer of an attestation: the one key of its header. *)
Definition attestation_issuer (header : JWTHeader) : res VciError PublicKeySource :=
  match jh_jwk header, jh_x5c header with
  | Some jwk, None => Ok (SourceJwk jwk)
  | None, Some x5c => Ok (SourceX5c x5c)
  | _, _ => Err (OpenId InvalidRequest)
  end.

Definition validate_key_attestation (now : Z) (key_attestation_jwt : string) (verifier : TokenVerifier)
  (expected : KeyStorageSecurityLevel) (leeway : Z) : res VciError (list PublicJwk) :=
  wua ← map_err VciTokenError (decompose_token (C := WalletUnitAttestationClaims) key_attestation_jwt);
  _ ← validate_timestamps now wua leeway;
  _ ← fail_if (negb (bool_decide (expected ∈ wu_key_storage (jp_custom (dj_payload wua))))) (OpenId InvalidRequest);
  wua_issuer_key ← attestation_issuer (dj_header wua);
  _ ← map_err VciTokenError (verify_signature verifier wua wua_issuer_key);
  Ok (wu_attested_keys (jp_custom (dj_payload wua))).

Definition verify_wua_wia_issuers_match (wua_jwt : string) (wia : DecomposedJwt WalletInstanceAttestationClaims) : res VciError unit :=
  wua ← map_err VciTokenError (decompose_token (C := WalletUnitAttestationClaims) wua_jwt);
  fail_if (negb (bool_decide ((jh_jwk (dj_header wia), jh_x5c (dj_header wia)) = (jh_jwk (dj_header wua), jh_x5c (dj_header wua)))))
    (OpenId InvalidRequest).

Definition validate_pop_audience (pop_token : DecomposedJwt unit) (expected_audience : string) : res VciError unit :=
  fail_if (negb (bool_decide (expected_audience ∈ default [] (jp_audience (dj_payload pop_token))))) (OpenId InvalidRequest).

(** [jwk_verifies] looks up the algorithm and parses the key. *)
Definition verify_pop_signature (pop_token : DecomposedJwt unit) (wia : DecomposedJwt WalletInstanceAttestationClaims) : res VciError unit :=
  key ← ok_or (jp_proof_of_possession_key (dj_payload wia)) (OpenId InvalidRequest);
  fail_if (negb (jwk_verifies (jh_algorithm (dj_header pop_token)) (pop_jwk key) (dj_unverified_jwt pop_token) (dj_signature pop_token)))
    (OpenId InvalidRequest).

Definition verify_wia_signature (wia : DecomposedJwt WalletInstanceAttestationClaims) (verifier : TokenVerifier) : res VciError unit :=
  source ← attestation_issuer (dj_header wia);
  map_err (fun _ => OpenId InvalidRequest) (verify_signature verifier wia source).

Definition extract_wallet_metadata (wia : DecomposedJwt WalletInstanceAttestationClaims) : res VciError (string * string) :=
  name ← ok_or (wi_wallet_name (jp_custom (dj_payload wia))) (OpenId InvalidRequest);
  link ← ok_or (wi_wallet_link (jp_custom (dj_payload wia))) (OpenId InvalidRequest);
  Ok (name, link).

Definition validate_oauth_client_attestation (self : OID4VCIService) (now : Z) (oauth_client_attestation oauth_client_attestation_pop : option string)
  (schema : IssuanceSchema) (protocol_id : string) (leeway : Z) : res VciError (option WalletInstanceAttestationDTO) :=
  if is_requires_wallet_instance_attestation schema then
    wia_token ← ok_or oauth_client_attestation (OpenId InvalidRequest);
    pop_token ← ok_or oauth_client_attestation_pop (OpenId InvalidRequest);
    wia ← map_err VciTokenError (decompose_token (C := WalletInstanceAttestationClaims) wia_token);
    pop ← map_err VciTokenError (decompose_token (C := unit) pop_token);
    _ ← validate_timestamps now wia leeway;
    _ ← validate_timestamps now pop leeway;
    base_url ← ok_or (sv_protocol_base_url self) (OpenId InvalidRequest);
    _ ← validate_pop_audience pop (base_url ++ "/" ++ protocol_id ++ "/" ++ uuid_to_string (is_id schema));
    _ ← verify_pop_signature pop wia;
    _ ← verify_wia_signature wia assertion_verifier;
    metadata ← extract_wallet_metadata wia;
    Ok (Some (mkWiaDto (fst metadata) (snd metadata) wia_token))
  else if bool_decide (oauth_client_attestation <> None) || bool_decide (oauth_client_attestation_pop <> None)
  then Err (OpenId InvalidRequest)
  else Ok None.
End tokens.

(** ** The service *)

Section service.
Context {R : Type} `{SdCodec} `{HeaderCodec} `{!EqDecision PublicJwk} `{!PayloadCodec NonceJwtPayload} `{!PayloadCodec ProofOfPossession}
  `{!PayloadCodec WalletInstanceAttestationClaims} `{!PayloadCodec WalletUnitAttestationClaims} `{!PayloadCodec unit}
  `{VciCodec} `{UuidSupply} `{Randoms} `{!VciProviders} `{IssuanceMethods R}.
Context (self : OID4VCIService) (schemas : Z -> option IssuanceSchema).
#[local] Notation Vci E A := (M (VciDb R) E A).

(** ** Configuration *)

Definition get_fields (protocol : string) : res VciError (IssuanceProtocolType * option OpenID4VCIParams) :=
  ok_or (snd <$> find_first (fun e => String.eqb (fst e) protocol) (vc_issuance_protocol (sv_config self))) VciConfigError.
Definition validate_issuance_protocol_type (protocol : string) : res VciError unit :=
  fields ← get_fields protocol;
  fail_if (negb (bool_decide (fst fields = sv_protocol_type self))) VciConfigError.
Definition protocol_params (protocol : string) : res VciError OpenID4VCIParams :=
  fields ← get_fields protocol;
  ok_or (snd fields) VciConfigError.
Definition get_config_entity : res VciError OpenID4VCIParams :=
  entry ← ok_or (find_first (fun e => bool_decide (fst (snd e) = OpenId4VciFinal1_0)) (vc_issuance_protocol (sv_config self))) VciConfigError;
  ok_or (snd (snd entry)) VciConfigError.
Definition get_schema (credential_schema_id : Z) : res VciError IssuanceSchema :=
  ok_or (schemas credential_schema_id) (MissingCredentialSchema credential_schema_id).

(** A call of the repository, and what other clients commit in between. *)
Definition data {A : Type} (m : Vci DataLayerError A) : Vci VciError A := M_map_err VciData m.
Definition try_ {E F A : Type} (m : Vci E A) : Vci F (res E A) := fun s =>
  match m s with (Panic, s') => (Panic, s') | (r, s') => (Ok r, s') end.
Definition others {E : Type} (interfere : VciDb R -> VciDb R) : Vci E unit := fun s => (Ok tt, interfere s).

(** ** The token endpoint *)

Definition generate_new_token {E : Type} (interaction_id : Z) : Vci E string :=
  secret ← generate_alphanumeric 32;
  mret (uuid_to_string interaction_id ++ "." ++ secret)%string.

Definition oidc_issuer_create_token (interaction_data : OpenID4VCIIssuerInteractionDataDTO) (credentials : list Credential)
  (interaction_id : Z) (interaction : Interaction) (request : OpenID4VCITokenRequestDTO)
  (pre_authorization_expires_in access_token_expires_in refresh_token_expires_in : Z) : Vci OpenIDIssuanceError OpenID4VCITokenResponseDTO :=
  _ ← lift (throw_if_token_request_invalid request);
  _ ← lift (map_err OiOpenID4VCI (throw_if_tx_code_invalid (id_transaction_code interaction_data) request));
  now ← now_utc;
  match request with
  | PreAuthorizedCode _ _ =>
      _ ← lift (throw_if_interaction_created_date now pre_authorization_expires_in interaction);
      _ ← lift (throw_if_interaction_pre_authorized_code_used interaction_data);
      _ ← lift (try_fold (fun _ credential => throw_if_credential_state_not_eq credential CsPending) tt credentials);
      access_token ← generate_new_token interaction_id;
      expires_at ← lift (add_duration now access_token_expires_in);
      mret (mkTokenResponse access_token "bearer" (unix_timestamp expires_at) None None)
  | RefreshToken refresh_token =>
      _ ← lift (validate_refresh_token now interaction_data refresh_token);
      access_token ← generate_new_token interaction_id;
      expires_at ← lift (add_duration now access_token_expires_in);
      new_refresh_token ← generate_new_token interaction_id;
      refresh_expires_at ← lift (add_duration now refresh_token_expires_in);
      mret (mkTokenResponse access_token "bearer" (unix_timestamp expires_at) (Some new_refresh_token) (Some (unix_timestamp refresh_expires_at)))
  | AuthorizationCode _ _ => throw (OiOpenID4VCI InvalidGrant)
  end.

(** A blob for the attestation of the wallet instance, when there is one. *)
Definition store_wia (token : option WalletInstanceAttestationDTO) : Vci VciError (option Z) :=
  match token with
  | None => mret None
  | Some token =>
      _ ← lift (fail_if (negb (sv_db_blob_storage self)) VciNested);
      value ← lift (ok_or (wia_dto_to_vec token) VciMappingError);
      id ← data (create_blob value);
      mret (Some id)
  end.

Definition is_pre_authorized (request : OpenID4VCITokenRequestDTO) : bool :=
  match request with PreAuthorizedCode _ _ => true | _ => false end.

(** The update of one credential after a token was made. *)
Definition offer_credential (request : OpenID4VCITokenRequestDTO) (wia : option WalletInstanceAttestationDTO) (credential : Credential) :
  Vci VciError unit :=
  blob_id ← store_wia wia;
  let state := if is_pre_authorized request then Some CsOffered else None in
  if bool_decide (blob_id <> None) || bool_decide (state <> None)
  then data (vci_update_credential (credential_id credential) (mkCredentialUpdate state None None None None None blob_id))
  else mret tt.

(** The refresh token that mdocs get. *)
Definition with_refresh_token (schema : IssuanceSchema) (interaction_id now refresh_token_expires_in : Z)
  (response : OpenID4VCITokenResponseDTO) : Vci VciError OpenID4VCITokenResponseDTO :=
  format_type ← lift (ok_or (vc_format (sv_config self) (is_format schema)) VciConfigError);
  if bool_decide (format_type = FtMdoc) then
    refresh_token ← generate_new_token interaction_id;
    expires_at ← lift (add_duration now refresh_token_expires_in);
    mret (mkTokenResponse (tr_access_token response) (tr_token_type response) (tr_expires_in response) (Some refresh_token)
            (Some (unix_timestamp expires_at)))
  else mret response.

(** The body of the transaction of [create_token]. *)
Definition token_tx (schema : IssuanceSchema) (interaction_id : Z) (credentials : list Credential) (request : OpenID4VCITokenRequestDTO)
  (wia : option WalletInstanceAttestationDTO) (pre_expires access_expires refresh_expires : Z) : Vci VciError OpenID4VCITokenResponseDTO :=
  found ← get_interaction interaction_id;
  interaction ← lift (ok_or found VciMappingError);
  interaction_data ← lift (interaction_data_to_dto interaction);
  response ← M_map_err of_issuance_error
    (oidc_issuer_create_token interaction_data credentials interaction_id interaction request pre_expires access_expires refresh_expires);
  now ← now_utc;
  _ ← for_each (offer_credential request wia) credentials;
  response ← with_refresh_token schema interaction_id now refresh_expires response;
  interaction_data ← lift (map_err OpenId (interaction_data_of_response response));
  value ← lift (ok_or (interaction_data_to_vec interaction_data) VciMappingError);
  _ ← data (update_interaction interaction_id (Some value));
  mret response.

(** A wrong transaction code ends the issuance. *)
Definition ends_issuance (request : OpenID4VCITokenRequestDTO) (e : VciError) : bool :=
  match e, request with OpenId InvalidGrant, PreAuthorizedCode _ (Some _) => true | _, _ => false end.

(** The interaction that a token request names. *)
Definition requested_interaction (request : OpenID4VCITokenRequestDTO) : res VciError Z :=
  match request with
  | PreAuthorizedCode pre_authorized_code _ => ok_or (uuid_from_str pre_authorized_code) (OpenId InvalidRequest)
  | AuthorizationCode _ _ => Err (OpenId InvalidGrant)
  | RefreshToken refresh_token => map_err OpenId (parse_refresh_token refresh_token)
  end.

Definition create_token (interfere : VciDb R -> VciDb R) (credential_schema_id : Z) (request : OpenID4VCITokenRequestDTO)
  (oauth_client_attestation oauth_client_attestation_pop : option string) : Vci VciError OpenID4VCITokenResponseDTO :=
  params ← lift get_config_entity;
  schema ← lift (get_schema credential_schema_id);
  interaction_id ← lift (requested_interaction request);
  credentials ← get_credentials_by_interaction_id interaction_id;
  credential ← lift (ok_or (head credentials) (MissingCredentialsForInteraction interaction_id));
  s ← Prelude.get;
  let protocol := ic_protocol (columns_of (credential_id credential) s) in
  _ ← lift (validate_issuance_protocol_type protocol);
  now ← now_utc;
  wia ← lift (validate_oauth_client_attestation self now oauth_client_attestation oauth_client_attestation_pop schema protocol
                (vp_oauth_attestation_leeway params));
  protocol_params ← lift (protocol_params protocol);
  _ ← others interfere;
  r ← try_ (transaction (token_tx schema interaction_id credentials request wia (vp_pre_authorized_code_expires_in protocol_params)
                           (vp_token_expires_in protocol_params) (vp_refresh_expires_in protocol_params)));
  match r with
  | Ok response => mret response
  | Err e =>
      _ ← (if ends_issuance request e
           then for_each (fun credential => data (vci_update_credential (credential_id credential) (state_update CsError))) credentials
           else mret tt);
      throw e
  | Panic => fun s => (Panic, s)
  end.

(** ** The credential endpoint *)

Definition throw_if_credential_request_invalid (schema : IssuanceSchema) (request : OpenID4VCICredentialRequestDTO) : res VciError unit :=
  match cr_credential request with
  | CredentialConfigurationId id => fail_if (negb (String.eqb (is_schema_id schema) id)) (OpenId UnsupportedCredentialType)
  | CredentialIdentifier _ => Err (OpenId InvalidRequest)
  end.

(** The token of the credential, in a new blob or in place of the old one. *)
Definition upsert_credential_blob (credential : Credential) (token : string) : Vci IssuanceProtocolError Z :=
  _ ← lift (fail_if (negb (sv_db_blob_storage self)) IpNested);
  match credential_blob_id credential with
  | None => M_map_err IpData (create_blob token)
  | Some blob_id => M_map_err IpData (update_blob blob_id token);; mret blob_id
  end.

Definition validate_credential_issuable (id : Z) (latest_state : CredentialStateEnum) (format : string) (format_type : FormatType) :
  Vci IssuanceProtocolError unit :=
  match latest_state, format_type with
  | CsAccepted, FtMdoc =>
      latest ← get_latest_mdoc id;
      mdoc ← lift (ok_or latest IpFailed);
      minimum ← lift (ok_or (vc_mso_minimum_refresh_time (sv_config self) format) IpNested);
      can_be_updated_at ← lift (add_duration (md_created_date mdoc) minimum);
      now ← now_utc;
      lift (fail_if (now <? can_be_updated_at) IpRefreshTooSoon)
  | CsSuspended, FtMdoc => throw IpSuspended
  | CsOffered, _ => mret tt
  | _, _ => throw IpInvalidRequest
  end.

(** [get_issued_credential_update]. *)
Definition issued_update (credential_blob_id holder_identifier_id : Z) : CredentialUpdate :=
  mkCredentialUpdate (Some CsAccepted) (Some credential_blob_id) None (Some holder_identifier_id) None None None.

Definition accept_credential (credential : Credential) (holder_identifier_id : Z) (token : string) : Vci IssuanceProtocolError unit :=
  credential_blob_id ← upsert_credential_blob credential token;
  M_map_err IpData (vci_update_credential (credential_id credential) (issued_update credential_blob_id holder_identifier_id)).

Definition record_mdoc (credential_id : Z) (token : string) : Vci IssuanceProtocolError unit :=
  now ← now_utc;
  insert_mdoc (mkMdoc credential_id now token).

(** The credential as it was formatted, and the id of its notification. The
    formatter with the signature, the contexts and the details of the issuer is
    [format_issued_credential]. *)
Definition issuer_issue_credential (id holder_identifier_id : Z) (holder_key_id : string) : Vci IssuanceProtocolError (string * string) :=
  found ← vci_get_credential id;
  credential ← lift (ok_or found IpFailed);
  schema ← lift (ok_or (credential_schema credential) IpFailed);
  format_type ← lift (ok_or (vc_format (sv_config self) (schema_format schema)) IpNested);
  _ ← validate_credential_issuable id (credential_state credential) (schema_format schema) format_type;
  credential_status ← match revocation_method schema with
                      | Some method_id =>
                          method ← lift (ok_or (issuance_method method_id) IpFailed);
                          M_map_err IpRevocation (with_revocation (im_add_issued_credential method credential))
                      | None => mret []
                      end;
  token ← lift (ok_or (format_issued_credential credential holder_identifier_id holder_key_id credential_status) IpNested);
  _ ← match format_type, credential_state credential with
      | FtMdoc, CsAccepted => record_mdoc id token
      | FtMdoc, CsOffered => accept_credential credential holder_identifier_id token;; record_mdoc id token
      | _, _ => accept_credential credential holder_identifier_id token
      end;
  notification_id ← generate_alphanumeric 32;
  mret (token, notification_id).

Definition store_wua (key_attestation : option string) : Vci VciError (option Z) :=
  match key_attestation with
  | None => mret None
  | Some attestation =>
      _ ← lift (fail_if (negb (sv_db_blob_storage self)) VciNested);
      value ← lift (ok_or (wua_dto_to_vec attestation) VciMappingError);
      id ← data (create_blob value);
      mret (Some id)
  end.

(** The body of the transaction of [create_credential]. *)
Definition issue_tx (interaction_id holder_identifier_id : Z) (holder_key_id : string) (credential : Credential)
  (key_attestation : option string) : Vci VciError OpenID4VCICredentialResponseDTO :=
  found ← get_interaction interaction_id;
  interaction ← lift (ok_or found (MissingInteractionForAccessToken interaction_id));
  interaction_data ← lift (interaction_data_to_dto interaction);
  wua_blob_id ← store_wua key_attestation;
  s ← Prelude.get;
  _ ← lift (fail_if (negb (protocol_found (ic_protocol (columns_of (credential_id credential) s)))) VciMappingError);
  issued ← try_ (issuer_issue_credential (credential_id credential) holder_identifier_id holder_key_id);
  match issued with
  | Ok (token, notification_id) =>
      now ← now_utc;
      _ ← data (vci_update_credential (credential_id credential)
                  (mkCredentialUpdate None None None (Some holder_identifier_id) (Some now) wua_blob_id None));
      value ← lift (ok_or (interaction_data_to_vec
        (mkInteractionData (id_pre_authorized_code_used interaction_data) (id_access_token_hash interaction_data)
          (id_access_token_expires_at interaction_data) (id_refresh_token_hash interaction_data)
          (id_refresh_token_expires_at interaction_data) (Some notification_id) (id_transaction_code interaction_data))) VciMappingError);
      _ ← data (update_interaction interaction_id (Some value));
      s ← Prelude.get;
      mret (mkCredentialResponse (ic_redirect_uri (columns_of (credential_id credential) s)) [token] (Some notification_id))
  | Err IpSuspended => throw (NestedIssuance IpSuspended)
  | Err IpRefreshTooSoon => throw (NestedIssuance IpRefreshTooSoon)
  | Err error =>
      _ ← data (vci_update_credential (credential_id credential) (state_update CsError));
      throw (NestedIssuance error)
  | Panic => fun s => (Panic, s)
  end.

(** The attestation of the wallet instance that came with the token request. *)
Definition stored_wia (credential_id : Z) : Vci VciError (DecomposedJwt WalletInstanceAttestationClaims) :=
  s ← Prelude.get;
  blob_id ← lift (ok_or (ic_wallet_instance_attestation_blob_id (columns_of credential_id s)) (OpenId InvalidOrMissingProof));
  _ ← lift (fail_if (negb (sv_db_blob_storage self)) VciNested);
  found ← get_blob blob_id;
  blob ← lift (ok_or found VciMappingError);
  wia_dto ← lift (ok_or (wia_dto_from_slice blob) VciMappingError);
  lift (map_err VciTokenError (decompose_token (wd_attestation wia_dto))).

(** The checks of the key attestation, which a schema demands or forbids. *)
Definition check_key_attestation (schema : IssuanceSchema) (id leeway : Z) (proof : OpenID4VCIVerifiedProof) : Vci VciError unit :=
  match is_key_storage_security schema, vp_key_attestation proof with
  | Some level, Some key_attestation_jwt =>
      now ← now_utc;
      attested_keys ← lift (validate_key_attestation now key_attestation_jwt authentication_verifier level leeway);
      revoked ← lift (ok_or (wallet_unit_attestation_revoked key_attestation_jwt) VciNested);
      _ ← lift (fail_if revoked (OpenId InvalidOrMissingProof));
      _ ← (if is_requires_wallet_instance_attestation schema
           then wia ← stored_wia id; lift (verify_wua_wia_issuers_match key_attestation_jwt wia)
           else mret tt);
      proof_signing_key ← lift match vp_holder_binding proof with
                               | BindingDid did key_id => ok_or (did_authentication_key did key_id) (OpenId InvalidOrMissingProof)
                               | BindingJwk jwk => Ok jwk
                               end;
      lift (fail_if (negb (bool_decide (proof_signing_key ∈ attested_keys))) (OpenId InvalidOrMissingProof))
  | Some _, None => throw (OpenId InvalidOrMissingProof)
  | None, Some _ => throw (OpenId InvalidOrMissingProof)
  | None, None => mret tt
  end.

(** The identifier of the holder, and the id of its key. *)
Definition holder_of (organisation : option Z) (binding : OpenID4VCIProofHolderBinding) : res VciError (Z * string) :=
  match binding with
  | BindingDid did key_id => identifier ← ok_or (did_holder_identifier organisation did) VciNested; Ok (identifier, key_id)
  | BindingJwk jwk => ok_or (key_holder_identifier organisation jwk) VciNested
  end.

Definition nonce_error (e : DataLayerError) : VciError :=
  match e with RecordNotUpdated | AlreadyExists => OpenId InvalidNonce | e => VciData e end.

Definition first_proof (proofs : option OpenID4VCICredentialRequestProofs) : res VciError string :=
  match proofs with Some (ProofsJwt (jwt :: _)) => Ok jwt | _ => Err (OpenId InvalidOrMissingProof) end.

Definition has_schema (credential_schema_id : Z) (credential : Credential) : bool :=
  match credential_schema credential with Some schema => schema_id schema =? credential_schema_id | None => false end.

Definition create_credential (interfere : VciDb R -> VciDb R) (credential_schema_id : Z) (access_token : string)
  (request : OpenID4VCICredentialRequestDTO) : Vci VciError OpenID4VCICredentialResponseDTO :=
  schema ← lift (get_schema credential_schema_id);
  _ ← lift (throw_if_credential_request_invalid schema request);
  interaction_id ← lift (map_err OpenId (parse_access_token access_token));
  found ← get_interaction interaction_id;
  interaction ← lift (ok_or found (MissingInteractionForAccessToken interaction_id));
  interaction_data ← lift (interaction_data_to_dto interaction);
  now ← now_utc;
  _ ← lift (throw_if_access_token_invalid now interaction_data access_token);
  credentials ← get_credentials_by_interaction_id interaction_id;
  credential ← lift (ok_or (find_first (has_schema credential_schema_id) credentials) (MissingCredentialsForInteraction interaction_id));
  s ← Prelude.get;
  let protocol := ic_protocol (columns_of (credential_id credential) s) in
  _ ← lift (validate_issuance_protocol_type protocol);
  jwt ← lift (first_proof (cr_proofs request));
  proof ← lift (map_err (fun _ => OpenId InvalidOrMissingProof) (verify_proof jwt authentication_verifier));
  nonce ← lift (ok_or (vp_proof_nonce proof) (OpenId InvalidNonce));
  params ← lift (protocol_params protocol);
  nonce_params ← lift (ok_or (vp_nonce params) VciConfigError);
  nonce_id ← lift (map_err (fun _ => OpenId InvalidNonce) (validate_nonce nonce_params (sv_base_url self) nonce now));
  _ ← others interfere;
  _ ← M_map_err nonce_error (mark_nonce_as_used interaction_id nonce_id);
  _ ← check_key_attestation schema (credential_id credential) (vp_key_attestation_leeway params) proof;
  holder ← lift (holder_of (credential_schema credential ≫= schema_organisation) (vp_holder_binding proof));
  _ ← others interfere;
  transaction (issue_tx interaction_id (fst holder) (snd holder) credential (vp_key_attestation proof)).

(** The nonce endpoint. *)
Definition nonce_endpoint (protocol_id : string) : Vci VciError string :=
  _ ← lift (validate_issuance_protocol_type protocol_id);
  params ← lift (protocol_params protocol_id);
  nonce_params ← lift (ok_or (vp_nonce params) VciConfigError);
  now ← now_utc;
  id ← new_uuid;
  lift (generate_nonce nonce_params (sv_base_url self) id now).

(** ** The notification endpoint *)

Definition event_state (event : OpenID4VCINotificationEvent) : option CredentialStateEnum :=
  match event with CredentialAccepted => None | CredentialFailure => Some CsError | CredentialDeleted => Some CsRejected end.

(** The states in which a notification is taken, and the repetitions that are
    ignored. *)
Definition notifiable (state : CredentialStateEnum) (event : OpenID4VCINotificationEvent) : res VciError bool :=
  match state, event with
  | CsAccepted, _ | CsSuspended, _ | CsRevoked, _ => Ok true
  | CsError, CredentialFailure | CsRejected, CredentialDeleted => Ok false
  | _, _ => Err (OpenId InvalidNotificationRequest)
  end.

Definition handle_notification (credential_schema_id : Z) (access_token : string) (request : OpenID4VCINotificationRequestDTO) :
  Vci VciError unit :=
  interaction_id ← lift (map_err OpenId (parse_access_token access_token));
  found ← get_interaction interaction_id;
  interaction ← lift (ok_or found (OpenId InvalidNotificationRequest));
  interaction_data ← lift (interaction_data_to_dto interaction);
  now ← now_utc;
  _ ← lift (throw_if_access_token_invalid now interaction_data access_token);
  _ ← lift (fail_if (negb (bool_decide (Some (nr_notification_id request) = id_notification_id interaction_data))) (OpenId InvalidNotificationId));
  credentials ← get_credentials_by_interaction_id interaction_id;
  credential ← lift (ok_or (find_first (has_schema credential_schema_id) credentials) (OpenId InvalidNotificationRequest));
  s ← Prelude.get;
  _ ← lift (validate_issuance_protocol_type (ic_protocol (columns_of (credential_id credential) s)));
  processed ← lift (notifiable (credential_state credential) (nr_event request));
  match (if processed : bool then event_state (nr_event request) else None) with
  | None => mret tt
  | Some new_state =>
      if bool_decide (credential_state credential = new_state) then mret tt
      else
        schema ← lift (ok_or (credential_schema credential) VciMappingError);
        method ← lift match revocation_method schema with
                      | Some method_id => m ← ok_or (issuance_method method_id) VciNested; Ok (Some m)
                      | None => Ok None
                      end;
        _ ← data (vci_update_credential (credential_id credential) (state_update new_state));
        match method with
        | Some method =>
            if bool_decide (credential_state credential ∈ [CsAccepted; CsSuspended]) && im_supports_revocation method
            then M_map_err VciRevocation (with_revocation (im_mark method credential Revoked))
            else mret tt
        | None => mret tt
        end
  end.
End service.

(** ** Offers *)

Inductive ShareError :=
| ShNotFound (credential : Z)
| ShMappingError
| ShForbidden
| ShInvalidState (state : CredentialStateEnum)
| ShIdentifierIsDeactivated
| ShMissingProvider
| ShIssuance
| ShData (e : DataLayerError).

Record CredentialOffer := mkCredentialOffer {
  co_credential_issuer : string;
  co_credential_configuration_ids : list string;
  co_pre_authorized_code : string;
  co_tx_code : option TransactionCode
}.
Record ShareResponse := mkShareResponse {
  sr_offer : CredentialOffer;
  sr_interaction_id : Z;
  sr_interaction_data : string;
  sr_expires_at : Z;
  sr_transaction_code : option string
}.

(** The state of an identifier, and the other exchange protocols, which have
    offers of their own. *)
Class ShareWorld := { identifier_active : Z -> bool; has_protocol : string -> bool }.

Section share.
Context {R : Type} `{VciCodec} `{UuidSupply} `{Randoms} `{ShareWorld}.
Context (self : OID4VCIService) (schemas : Z -> option IssuanceSchema) (session : option Session).
#[local] Notation Vci E A := (M (VciDb R) E A).

Definition generate_transaction_code {E : Type} (prescription : TransactionCode) : Vci E string :=
  match tc_type prescription with
  | Numeric => generate_numeric (tc_length prescription)
  | Alphanumeric => generate_alphanumeric (tc_length prescription)
  end.

Definition create_credential_offer (protocol_base_url protocol_id pre_authorized_code : string) (schema : IssuanceSchema) : CredentialOffer :=
  mkCredentialOffer (protocol_base_url ++ "/" ++ protocol_id ++ "/" ++ uuid_to_string (is_id schema)) [is_schema_id schema]
    pre_authorized_code (is_transaction_code schema).

(** The invitation URL carries the offer or its address; here it is the offer. *)
Definition issuer_share_credential (params : OpenID4VCIParams) (credential : Credential) (protocol : string) : Vci ShareError ShareResponse :=
  interaction_id ← new_uuid;
  schema ← lift (ok_or (credential_schema credential ≫= fun s => schemas (schema_id s)) ShIssuance);
  protocol_base_url ← lift (ok_or (sv_protocol_base_url self) ShIssuance);
  let offer := create_credential_offer protocol_base_url protocol (uuid_to_string interaction_id) schema in
  transaction_code ← match is_transaction_code schema with
                     | Some prescription => code ← generate_transaction_code prescription; mret (Some code)
                     | None => mret None
                     end;
  interaction_data ← lift (ok_or (interaction_data_to_vec (mkInteractionData false EmptyString None None None None transaction_code)) ShIssuance);
  now ← now_utc;
  expires_at ← lift (add_duration now (vp_pre_authorized_code_expires_in params));
  mret (mkShareResponse offer interaction_id interaction_data expires_at transaction_code).

Definition shareable (state : CredentialStateEnum) : bool :=
  match state with CsCreated | CsPending | CsInteractionExpired => true | _ => false end.

Definition share_credential (id : Z) : Vci ShareError ShareResponse :=
  found ← vci_get_credential id;
  credential ← lift (ok_or found (ShNotFound id));
  _ ← lift (fail_if (bool_decide (deleted_at credential <> None)) (ShNotFound id));
  schema ← lift (ok_or (credential_schema credential) ShMappingError);
  _ ← lift (map_err (fun _ => ShForbidden) (throw_if_org_relation_not_matching_session (schema_organisation schema) session));
  _ ← lift (fail_if (negb (shareable (credential_state credential))) (ShInvalidState (credential_state credential)));
  issuer ← lift (ok_or (issuer_identifier credential) ShMappingError);
  _ ← lift (fail_if (negb (identifier_active (identifier_id issuer))) ShIdentifierIsDeactivated);
  organisation ← lift (ok_or (schema_organisation schema) ShMappingError);
  s ← Prelude.get;
  let protocol := ic_protocol (columns_of id s) in
  _ ← lift (fail_if (negb (has_protocol protocol)) ShMissingProvider);
  params ← lift (map_err (fun _ => ShIssuance) (protocol_params self protocol));
  response ← issuer_share_credential params credential protocol;
  now ← now_utc;
  _ ← M_map_err ShData (create_interaction (sr_interaction_id response)
        (mkInteraction now (Some (sr_interaction_data response)) organisation None Issuance (Some (sr_expires_at response))));
  _ ← M_map_err ShData (vci_update_credential id
        (mkCredentialUpdate (if bool_decide (credential_state credential = CsPending) then None else Some CsPending) None
           (Some (sr_interaction_id response)) None None None None));
  _ ← match ic_interaction_id (columns_of id s) with
      | Some previous => delete_interaction previous
      | None => mret tt
      end;
  mret response.
End share.
