(* ===== verification/VciSpec.v ===== *)
(** * OpenID4VCI issuance: what the operations do

    The relations between the tables before and after a call that the theorems
    on OpenID4VCI are made of: what a call leaves alone, how interactions
    progress, and what the token and credential endpoints have checked when they
    return. *)

From S2P Require Import Prelude Paths StatusBits KeySelection RevocationRepo RevocationMethod TokenMethod ListFilter Validity.
From S2P Require Import SdDisclosures SdIssue SdToken Jwt VciStore VciService.
From Stdlib Require Import Ascii String.
#[local] Open Scope Z_scope.
#[local] Notation length := Datatypes.length.

(** ** Laws *)

(** Stored data is read back; UUIDs are fresh and are read back from their
    text, in which there is no dot, as there is none in a random text. *)
Class VciLaws `{VciCodec} `{UuidSupply} `{Randoms} := {
  interaction_data_reads : forall d v, interaction_data_to_vec d = Some v -> interaction_data_from_slice v = Some d;
  uuid_fresh : forall j k, uuid_at j = uuid_at k -> j = k;
  uuid_reads : forall u, uuid_from_str (uuid_to_string u) = Some u;
  uuid_no_dot : forall u, count_char dot (uuid_to_string u) = 0%nat;
  alphanumeric_no_dot : forall n l, count_char dot (alphanumeric_at n l) = 0%nat
}.

(** ** What is preserved *)

Section preserved.
Context {S : Type} (P : S -> S -> Prop) `{!PreOrder P}.

Lemma preserves_get {E : Type} : preserves P (Prelude.get : M S E S).
Proof. intros s. reflexivity. Qed.

Lemma preserves_throw {E A : Type} (e : E) : preserves P (throw e : M S E A).
Proof. intros s. reflexivity. Qed.

Lemma preserves_panic {E A : Type} : preserves P (fun s => (Panic, s) : res E A * S).
Proof. intros s. reflexivity. Qed.

Lemma preserves_transaction {E A : Type} (m : M S E A) : preserves P m -> preserves P (transaction m).
Proof. intros Hm s. specialize (Hm s). unfold transaction. destruct (m s) as [[a|e|] s']; [exact Hm|reflexivity..]. Qed.
End preserved.

#[export] Hint Resolve preserves_get preserves_throw preserves_panic : core_db.

Ltac preserve :=
  repeat match goal with
  | |- preserves _ (mbind _ _) => apply preserves_bind; [typeclasses eauto| |intros ?]
  | |- preserves _ (for_each _ _) => apply preserves_for_each; [typeclasses eauto|intros ?]
  | |- preserves _ (M_map_err _ _) => apply preserves_map_err
  | |- preserves _ (if ?b then _ else _) => destruct b
  | |- preserves _ (match ?x with _ => _ end) => destruct x
  | |- preserves _ (let '(_, _) := ?x in _) => destruct x
  | |- preserves _ _ => solve [auto with core_db typeclass_instances | eauto with core_db typeclass_instances]
  | |- preserves _ (transaction _) => apply preserves_transaction; [typeclasses eauto|]
  end.

(** ** Interactions *)

Section interactions.
Context {R : Type} `{VciLaws}.
Implicit Types (s : VciDb R).

(** The interactions are the same; random values may have been drawn. *)
Record frame s s' : Prop := { fr_interactions : interactions s' = interactions s; fr_supply : (supply s <= supply s')%nat }.
#[export] Instance frame_preorder : PreOrder frame.
Proof. split; [by split|]. intros s1 s2 s3 [H1' H2'] [H3' H4']. split; [congruence|lia]. Qed.

(** The code of the interaction was exchanged. *)
Definition used_code (i : Interaction) : bool :=
  match in_data i ≫= interaction_data_from_slice with Some d => id_pre_authorized_code_used d | None => false end.

(** An interaction keeps its nonce and the mark that its code was used; when it
    is gone it stays so. *)
Definition row_step (a b : option Interaction) : Prop :=
  match b with
  | None => True
  | Some i' => exists i, a = Some i /\ (forall n, in_nonce_id i = Some n -> in_nonce_id i' = Some n) /\ (used_code i = true -> used_code i' = true)
  end.
#[export] Instance row_step_preorder : PreOrder row_step.
Proof.
  split; [intros [i|]; [by exists i|done]|]. intros a b [i3|] Hab Hbc; [|done].
  destruct Hbc as (i2 & -> & Hn2 & Hu2), Hab as (i1 & -> & Hn1 & Hu1). exists i1. split; [done|]. split; auto.
Qed.

(** An id that is still to be drawn. *)
Definition undrawn s (id : Z) : Prop := exists k, (supply s <= k)%nat /\ id = uuid_at k.
(** No interaction has such an id. *)
Definition ids_drawn s : Prop := forall id, is_Some (interactions s !! id) -> ~ undrawn s id.

Record progress s s' : Prop := {
  pg_supply : (supply s <= supply s')%nat;
  pg_rows : forall id, ~ undrawn s id -> row_step (interactions s !! id) (interactions s' !! id);
  pg_drawn : ids_drawn s -> ids_drawn s'
}.

Lemma undrawn_mono s s' id : (supply s <= supply s')%nat -> undrawn s' id -> undrawn s id.
Proof. intros Hs (k & Hk & ->). exists k. split; [lia|done]. Qed.

#[export] Instance progress_preorder : PreOrder progress.
Proof.
  split; [by split|]. intros s1 s2 s3 [H1' H2' H3'] [H4' H5' H6']. split; [lia| |auto].
  intros id Hid. etrans; [by apply H2'|]. apply H5'. intros Hu. apply Hid. by eapply undrawn_mono.
Qed.

Lemma frame_progress s s' : frame s s' -> progress s s'.
Proof.
  intros [Hi Hs]. split; [done|by rewrite Hi|]. intros Hd id. rewrite Hi. intros Hid Hu. apply (Hd id Hid). by eapply undrawn_mono.
Qed.

Lemma preserves_frame_progress {E A : Type} (m : M (VciDb R) E A) : preserves frame m -> preserves progress m.
Proof. intros Hm s. apply frame_progress, Hm. Qed.

(** A row is overwritten by one that has progressed. *)
Lemma insert_progress s s' id i i' : interactions s !! id = Some i -> (forall n, in_nonce_id i = Some n -> in_nonce_id i' = Some n) ->
  (used_code i = true -> used_code i' = true) -> interactions s' = <[id := i']> (interactions s) -> (supply s <= supply s')%nat -> progress s s'.
Proof.
  intros Hi Hn Hu Hs' Hsup. split; [done| |].
  - intros k _. rewrite Hs'. destruct (decide (id = k)) as [->|].
    + rewrite lookup_insert_eq. by exists i.
    + rewrite lookup_insert_ne by done. reflexivity.
  - intros Hd k. rewrite Hs', lookup_insert_is_Some. intros [<-|[_ Hk]] Hun; (eapply Hd; [|by eapply undrawn_mono]); [by eexists|done].
Qed.

(** ** Operations that leave the interactions alone *)

Lemma frame_now {E : Type} : preserves frame (now_utc : M (VciDb R) E Z).
Proof. intros s. reflexivity. Qed.
Lemma frame_uuid {E : Type} : preserves frame (new_uuid : M (VciDb R) E Z).
Proof. intros s. split; cbn; [done|lia]. Qed.
Lemma frame_alphanumeric {E : Type} n : preserves frame (generate_alphanumeric n : M (VciDb R) E string).
Proof. intros s. split; cbn; [done|lia]. Qed.
Lemma frame_numeric {E : Type} n : preserves frame (generate_numeric n : M (VciDb R) E string).
Proof. intros s. split; cbn; [done|lia]. Qed.
Lemma frame_get_interaction {E : Type} id : preserves frame (get_interaction id : M (VciDb R) E _).
Proof. intros s. reflexivity. Qed.
Lemma frame_get_credential {E : Type} id : preserves frame (vci_get_credential id : M (VciDb R) E _).
Proof. intros s. reflexivity. Qed.
Lemma frame_get_credentials {E : Type} id : preserves frame (get_credentials_by_interaction_id id : M (VciDb R) E _).
Proof. intros s. reflexivity. Qed.
Lemma frame_update id u : preserves frame (vci_update_credential id u : M (VciDb R) _ _).
Proof. intros s. unfold vci_update_credential. by destruct (find_credential _ _). Qed.
Lemma frame_get_blob {E : Type} id : preserves frame (get_blob id : M (VciDb R) E _).
Proof. intros s. reflexivity. Qed.
Lemma frame_create_blob v : preserves frame (create_blob v : M (VciDb R) _ _).
Proof.
  intros s. unfold create_blob, mbind, M_bind, new_uuid. cbn. destruct (blobs s !! _); split; cbn; (done || lia).
Qed.
Lemma frame_update_blob id v : preserves frame (update_blob id v : M (VciDb R) _ _).
Proof. intros s. unfold update_blob. by destruct (blobs s !! id). Qed.
Lemma frame_insert_mdoc {E : Type} m : preserves frame (insert_mdoc m : M (VciDb R) E _).
Proof. intros s. by split. Qed.
Lemma frame_latest_mdoc {E : Type} id : preserves frame (get_latest_mdoc id : M (VciDb R) E _).
Proof. intros s. reflexivity. Qed.
Lemma frame_revocation {A : Type} (m : M R RevocationError A) : preserves frame (with_revocation m : M (VciDb R) _ A).
Proof. intros s. unfold with_revocation. by destruct (m _). Qed.
Lemma preserves_try {E F A : Type} (P : VciDb R -> VciDb R -> Prop) (m : M (VciDb R) E A) :
  preserves P m -> preserves P (try_ m : M (VciDb R) F _).
Proof. intros Hm s. specialize (Hm s). unfold try_. by destruct (m s) as [[]]. Qed.
Lemma frame_expired {E : Type} : preserves frame (update_expired_credentials : M (VciDb R) E _).
Proof. intros s. by split. Qed.
End interactions.

#[export] Hint Resolve frame_now frame_uuid frame_alphanumeric frame_numeric frame_get_interaction frame_get_credential frame_get_credentials
  frame_update frame_get_blob frame_create_blob frame_update_blob frame_insert_mdoc frame_latest_mdoc frame_revocation frame_expired : core_db.
#[export] Hint Resolve preserves_try preserves_frame_progress : core_db.

(** ** Runs *)

Section runs.
Context {S E : Type}.

Lemma bind_run {A B : Type} (f : A -> M S E B) (m : M S E A) (b : B) (s s' : S) :
  (m ≫= f) s = (Ok b, s') -> exists a s1, m s = (Ok a, s1) /\ f a s1 = (Ok b, s').
Proof. unfold mbind, M_bind. destruct (m s) as [[a|e|] s1]; [by eauto|done..]. Qed.

Lemma lift_run {A : Type} (r : res E A) (a : A) (s s' : S) : lift r s = (Ok a, s') -> r = Ok a /\ s' = s.
Proof. by intros [= -> ->]. Qed.

Lemma ret_run {A : Type} (a b : A) (s s' : S) : (mret a : M S E A) s = (Ok b, s') -> a = b /\ s = s'.
Proof. by intros [= -> ->]. Qed.

Lemma map_err_run {F A : Type} (f : F -> E) (m : M S F A) (a : A) (s s' : S) :
  M_map_err f m s = (Ok a, s') -> m s = (Ok a, s').
Proof. unfold M_map_err. destruct (m s) as [[]]; simpl; [by intros [= -> ->]|done..]. Qed.

Lemma transaction_run {A : Type} (m : M S E A) (a : A) (s s' : S) : transaction m s = (Ok a, s') -> m s = (Ok a, s').
Proof. unfold transaction. destruct (m s) as [[]]; [done..]. Qed.

Lemma bind_cases {A B : Type} (m : M S E A) (k : A -> M S E B) (s s' : S) (r : res E B) : (m ≫= k) s = (r, s') ->
  (exists a s1, m s = (Ok a, s1) /\ k a s1 = (r, s')) \/ (is_ok r = false /\ exists r0, m s = (r0, s') /\ is_ok r0 = false).
Proof.
  unfold mbind, M_bind. destruct (m s) as [[a|e|] s1] eqn:Hm; intros Hrun; [left; eauto|right|right]; injection Hrun as <- <-; (split; [done|]); eauto.
Qed.

Lemma lift_cases {A B : Type} (m : res E A) (k : A -> M S E B) (s s' : S) (r : res E B) : (lift m ≫= k) s = (r, s') ->
  (exists a, m = Ok a /\ k a s = (r, s')) \/ (is_ok r = false /\ s' = s).
Proof. intros [(a & s1 & [= -> ->] & Hk)|(Hr & r0 & [= _ ->] & _)]%bind_cases; [left|right]; eauto. Qed.
End runs.

(** Follow a run that returned. *)
Ltac inv_run H :=
  repeat match type of H with
  | (mbind _ _) _ = (Ok _, _) =>
      let a := fresh "a" in let s := fresh "s" in let Hr := fresh "Hr" in
      apply bind_run in H as (a & s & Hr & H);
      match type of Hr with
      | lift _ _ = _ => let Hq := fresh "Hq" in apply lift_run in Hr as [Hq ->]; try (apply ok_or_ok in Hq); try (apply fail_if_ok in Hq)
      | Prelude.get _ = _ => injection Hr as <- <-
      | now_utc _ = _ => injection Hr as <- <-
      | get_interaction _ _ = _ => injection Hr as <- <-
      | get_credentials_by_interaction_id _ _ = _ => injection Hr as <- <-
      | vci_get_credential _ _ = _ => injection Hr as <- <-
      | M_map_err _ _ _ = _ => apply map_err_run in Hr
      | _ => idtac
      end
  | (mret _) _ = (Ok _, _) => apply ret_run in H as [<- <-]
  end.

(** ** The endpoints *)

Section endpoints.
Context {R : Type} `{SdCodec} `{HeaderCodec} `{!EqDecision PublicJwk} `{!PayloadCodec NonceJwtPayload} `{!PayloadCodec ProofOfPossession}
  `{!PayloadCodec WalletInstanceAttestationClaims} `{!PayloadCodec WalletUnitAttestationClaims} `{!PayloadCodec unit}
  `{VciLaws} `{!VciProviders} `{IssuanceMethods R}.
Context (self : OID4VCIService) (schemas : Z -> option IssuanceSchema).
Implicit Types (s : VciDb R).

Lemma frame_new_token {E : Type} id : preserves frame (generate_new_token id : M (VciDb R) E _).
Proof. unfold generate_new_token. preserve. Qed.
#[local] Hint Resolve frame_new_token : core_db.

Lemma frame_oidc_token d cs id i request a b c : preserves frame (oidc_issuer_create_token (R := R) d cs id i request a b c).
Proof. unfold oidc_issuer_create_token. preserve. Qed.

Lemma frame_store_wia w : preserves frame (store_wia (R := R) self w).
Proof. unfold store_wia, data. preserve. Qed.
#[local] Hint Resolve frame_oidc_token frame_store_wia : core_db.

Lemma frame_offer request w c : preserves frame (offer_credential (R := R) self request w c).
Proof. unfold offer_credential, data. preserve. Qed.
Lemma frame_refresh_token sch id now e r : preserves frame (with_refresh_token (R := R) self sch id now e r).
Proof. unfold with_refresh_token. preserve. Qed.
#[local] Hint Resolve frame_offer frame_refresh_token : core_db.

Lemma frame_issuable id st f ft : preserves frame (validate_credential_issuable (R := R) self id st f ft).
Proof. unfold validate_credential_issuable. preserve. Qed.
Lemma frame_accept c h t : preserves frame (accept_credential (R := R) self c h t).
Proof. unfold accept_credential, upsert_credential_blob. preserve. Qed.
Lemma frame_record_mdoc id t : preserves frame (record_mdoc (R := R) id t).
Proof. unfold record_mdoc. preserve. Qed.
#[local] Hint Resolve frame_issuable frame_accept frame_record_mdoc : core_db.

Lemma frame_issue id h k : preserves frame (issuer_issue_credential (R := R) self id h k).
Proof. unfold issuer_issue_credential. preserve. Qed.
Lemma frame_store_wua k : preserves frame (store_wua (R := R) self k).
Proof. unfold store_wua, data. preserve. Qed.
Lemma frame_stored_wia id : preserves frame (stored_wia (R := R) self id).
Proof. unfold stored_wia. preserve. Qed.
#[local] Hint Resolve frame_issue frame_store_wua frame_stored_wia : core_db.

Lemma frame_check_attestation sch id l p : preserves frame (check_key_attestation (R := R) self sch id l p).
Proof. unfold check_key_attestation. preserve. Qed.
Lemma frame_notification id t r : preserves frame (handle_notification (R := R) self id t r).
Proof. unfold handle_notification, data. preserve. Qed.
Lemma frame_nonce_endpoint p : preserves frame (nonce_endpoint (R := R) self p).
Proof. unfold nonce_endpoint. preserve. Qed.
End endpoints.

#[export] Hint Resolve frame_new_token frame_oidc_token frame_store_wia frame_offer frame_refresh_token frame_issuable frame_accept
  frame_record_mdoc frame_issue frame_store_wua frame_stored_wia frame_check_attestation frame_notification frame_nonce_endpoint : core_db.

Lemma run_preserves {S E A : Type} (P : S -> S -> Prop) (m : M S E A) r s s' : preserves P m -> m s = (r, s') -> P s s'.
Proof. intros Hm Hr. specialize (Hm s). by rewrite Hr in Hm. Qed.

Section progress_of_endpoints.
Context {R : Type} `{SdCodec} `{HeaderCodec} `{!EqDecision PublicJwk} `{!PayloadCodec NonceJwtPayload} `{!PayloadCodec ProofOfPossession}
  `{!PayloadCodec WalletInstanceAttestationClaims} `{!PayloadCodec WalletUnitAttestationClaims} `{!PayloadCodec unit}
  `{VciLaws} `{!VciProviders} `{IssuanceMethods R}.
Context (self : OID4VCIService) (schemas : Z -> option IssuanceSchema).
Implicit Types (s : VciDb R).

Lemma data_of_response r d : interaction_data_of_response r = Ok d -> id_pre_authorized_code_used d = true /\ id_transaction_code d = None /\
  Some (id_access_token_hash d) = sha256 (tr_access_token r) /\ id_access_token_expires_at d = Some (nanos (tr_expires_in r)).
Proof.
  unfold interaction_data_of_response. intros Hd. inv_res. subst. split_and!; try done. cbn.
  unfold from_unix_timestamp in *. by destruct (date_ok _); simplify_eq.
Qed.

Lemma update_interaction_run id v s s' : update_interaction id v s = (Ok tt, s') ->
  exists i, interactions s !! id = Some i /\ s' = with_interactions (<[id := set_data v i]> (interactions s)) s.
Proof. unfold update_interaction. destruct (interactions s !! id) as [i|]; [|done]. intros [= <-]. by exists i. Qed.

(** A token is made when the checks of the request pass on the row that is
    locked; the row is overwritten by data that marks the code as used. *)
Lemma token_tx_run schema id cs request wia a b c s r s' :
  token_tx self schema id cs request wia a b c s = (Ok r, s') ->
  exists i d r0 s1 s2 s3 d' v, interactions s !! id = Some i /\ interaction_data_to_dto i = Ok d /\
    oidc_issuer_create_token d cs id i request a b c s = (Ok r0, s1) /\
    for_each (offer_credential self request wia) cs s1 = (Ok tt, s2) /\
    with_refresh_token self schema id (clock (store s1)) c r0 s2 = (Ok r, s3) /\
    interaction_data_of_response r = Ok d' /\ interaction_data_to_vec d' = Some v /\ frame s s3 /\
    s' = with_interactions (<[id := set_data (Some v) i]> (interactions s3)) s3.
Proof.
  unfold token_tx, data. intros Hr. inv_run Hr.
  apply map_err_ok in Hq1. destruct a3, a7. apply update_interaction_run in Hr3 as (i' & Hi' & ->).
  assert (Hf : frame s s2).
  { etrans; [by eapply run_preserves; [apply frame_oidc_token|]|]. etrans; [|by eapply run_preserves; [apply frame_refresh_token|]].
    eapply run_preserves; [|done]. apply preserves_for_each; [typeclasses eauto|]. intros; apply frame_offer. }
  rewrite (fr_interactions _ _ Hf), Hq in Hi'. simplify_eq. by eauto 20.
Qed.

Lemma used_code_data i v d : interaction_data_to_vec d = Some v -> used_code (set_data (Some v) i) = id_pre_authorized_code_used d.
Proof. intros Hv. unfold used_code. simpl. by rewrite (interaction_data_reads _ _ Hv). Qed.

Lemma used_code_dto i d : interaction_data_to_dto i = Ok d -> used_code i = id_pre_authorized_code_used d.
Proof. unfold interaction_data_to_dto, used_code. destruct (in_data i) as [v|]; simpl; [|done].
  by intros ->%ok_or_ok. Qed.

Lemma token_tx_progress schema id cs request wia a b c s r s' :
  token_tx self schema id cs request wia a b c s = (Ok r, s') -> progress s s'.
Proof.
  intros (i & d & r0 & s1 & s2 & s3 & d' & v & Hi & _ & _ & _ & _ & Hd' & Hv & Hf & ->)%token_tx_run.
  etrans; [by apply frame_progress|]. eapply (insert_progress _ _ id i (set_data (Some v) i)); [by rewrite (fr_interactions _ _ Hf)|done| |done|done].
  intros _. rewrite (used_code_data _ _ _ Hv). by destruct (data_of_response _ _ Hd').
Qed.

Lemma transaction_progress {E A : Type} (m : M (VciDb R) E A) :
  (forall s a s', m s = (Ok a, s') -> progress s s') -> preserves progress (transaction m).
Proof. intros Hm s. unfold transaction. destruct (m s) as [[a|e|] s'] eqn:Hr; [by eapply Hm|reflexivity..]. Qed.

(** What others do while a call runs: anything that is [progress]. *)
Lemma others_progress {E : Type} interfere : (forall s, progress s (interfere s)) -> preserves progress (others interfere : M (VciDb R) E unit).
Proof. intros Hi s. apply Hi. Qed.

Lemma create_token_progress interfere sid request w p : (forall s, progress s (interfere s)) ->
  preserves progress (create_token self schemas interfere sid request w p).
Proof.
  intros Hi. unfold create_token, data. preserve.
  eapply preserves_try, transaction_progress. intros. by eapply token_tx_progress.
Qed.

(** What is left of an issuance that succeeds. *)
Lemma issue_tx_run id holder key c ka s r s' : issue_tx self id holder key c ka s = (Ok r, s') ->
  exists i d blob s1 token n s2 s3 v, interactions s !! id = Some i /\ interaction_data_to_dto i = Ok d /\ store_wua self ka s = (Ok blob, s1) /\ issuer_issue_credential self (credential_id c) holder key s1 = (Ok (token, n), s2) /\ vci_update_credential (credential_id c)
      (mkCredentialUpdate None None None (Some holder) (Some (clock (store s2))) blob None) s2 = (Ok tt, s3) /\ interaction_data_to_vec (mkInteractionData (id_pre_authorized_code_used d) (id_access_token_hash d)
          (id_access_token_expires_at d) (id_refresh_token_hash d)
          (id_refresh_token_expires_at d) (Some n) (id_transaction_code d)) = Some v /\ frame s s3 /\ s' = with_interactions (<[id := set_data (Some v) i]> (interactions s3)) s3 /\ r = mkCredentialResponse (ic_redirect_uri (columns_of (credential_id c) s')) [token] (Some n).
Proof.
  unfold issue_tx, data. intros Hr. apply bind_run in Hr as (? & ? & [= <- <-] & Hr). apply bind_run in Hr as (i & ? & Hi & Hr).
  apply lift_run in Hi as [Hi%ok_or_ok ->]. apply bind_run in Hr as (d & ? & Hd & Hr). apply lift_run in Hd as [Hd ->].
  apply bind_run in Hr as (blob & s1 & Hb & Hr). apply bind_run in Hr as (? & ? & [= <- <-] & Hr).
  apply bind_run in Hr as ([] & ? & Hpf & Hr). apply lift_run in Hpf as [_ ->]. apply bind_run in Hr as (issued & s2 & Ht & Hr).
  unfold try_ in Ht. destruct (issuer_issue_credential self _ holder key s1) as [[[token n]|e|] s2'] eqn:Hs2; [injection Ht as <- <-| |done].
  2:{ injection Ht as <- <-. exfalso. destruct e; try done; (apply bind_run in Hr as (? & ? & _ & ?); done). }
  inv_run Hr.
  destruct a, a1. apply update_interaction_run in Hr1 as (i' & Hi' & ->).
  assert (Hf : frame s s0).
  { etrans; [by eapply run_preserves; [apply frame_store_wua|]|]. etrans; [by eapply run_preserves; [apply frame_issue|]|].
    by eapply run_preserves; [apply frame_update|]. }
  rewrite (fr_interactions _ _ Hf), Hi in Hi'. simplify_eq. by eauto 20.
Qed.

Lemma issue_tx_progress id holder key c ka s r s' : issue_tx self id holder key c ka s = (Ok r, s') -> progress s s'.
Proof.
  intros (i & d & blob & s1 & token & n & s2 & s3 & v & Hi & Hd & _ & _ & _ & Hv & Hf & -> & _)%issue_tx_run.
  etrans; [by apply frame_progress|]. eapply (insert_progress _ _ id i (set_data (Some v) i)); [by rewrite (fr_interactions _ _ Hf)|done| |done|done].
  rewrite (used_code_data _ _ _ Hv), (used_code_dto _ _ Hd). done.
Qed.

Lemma mark_nonce_run id n s s' : mark_nonce_as_used id n s = (Ok tt, s') ->
  exists i, interactions s !! id = Some i /\ in_nonce_id i = None /\ nonce_taken n s = false /\ s' = with_interactions (<[id := set_nonce n i]> (interactions s)) s.
Proof.
  unfold mark_nonce_as_used. destruct (interactions s !! id) as [i|]; [|done]. case_bool_decide; [|done].
  destruct (nonce_taken n s) eqn:Hn; [done|]. intros [= <-]. eauto.
Qed.

Lemma mark_nonce_progress id n : preserves progress (mark_nonce_as_used id n : M (VciDb R) _ _).
Proof.
  intros s. destruct (mark_nonce_as_used id n s) as [[[]|e|] s'] eqn:Hr.
  - apply mark_nonce_run in Hr as (i & Hi & Hn & _ & ->). eapply (insert_progress _ _ id i (set_nonce n i)); [done| |done|done|done]. intros m Hm. congruence.
  - unfold mark_nonce_as_used in Hr. repeat case_match; simplify_eq; reflexivity.
  - unfold mark_nonce_as_used in Hr. repeat case_match; simplify_eq.
Qed.
#[local] Hint Resolve mark_nonce_progress : core_db.

Lemma issue_transaction_progress id holder key c ka : preserves progress (transaction (issue_tx (R := R) self id holder key c ka)).
Proof. apply transaction_progress. intros. by eapply issue_tx_progress. Qed.
#[local] Hint Resolve issue_transaction_progress : core_db.

Lemma create_credential_progress interfere sid t request : (forall s, progress s (interfere s)) ->
  preserves progress (create_credential self schemas interfere sid t request).
Proof. intros Hi. unfold create_credential. preserve. Qed.
End progress_of_endpoints.

#[export] Hint Resolve mark_nonce_progress issue_transaction_progress create_token_progress create_credential_progress : core_db.

(** ** Offers *)

Lemma bind_post {S E A B : Type} (Q : S -> Prop) (f : A -> M S E B) (m : M S E A) s :
  Q (m s).2 -> (forall a s1, m s = (Ok a, s1) -> Q (f a s1).2) -> Q ((m ≫= f) s).2.
Proof. unfold mbind, M_bind. intros Hm Hf. destruct (m s) as [[a|e|] s1] eqn:Hr; [by apply Hf|done..]. Qed.

Section offers.
Context {R : Type} `{VciLaws} `{ShareWorld}.
Context (self : OID4VCIService) (schemas : Z -> option IssuanceSchema).
Implicit Types (s : VciDb R).

Lemma frame_issuer_share params c p : preserves frame (issuer_share_credential (R := R) self schemas params c p).
Proof. unfold issuer_share_credential, generate_transaction_code. preserve. Qed.

Lemma delete_progress {E : Type} id : preserves progress (delete_interaction id : M (VciDb R) E unit).
Proof.
  intros s. split; [done| |].
  - intros k _. cbn. destruct (decide (id = k)) as [->|]; [by rewrite lookup_delete_eq|]. by rewrite lookup_delete_ne.
  - intros Hd k [i Hi] Hu. cbn in Hi. apply lookup_delete_Some in Hi as [_ Hi]. by apply (Hd k).
Qed.

#[local] Hint Resolve delete_progress : core_db.

(** The row of an id that was just drawn. *)
Lemma create_progress s0 s id i : progress s0 s -> undrawn s0 id -> ~ undrawn s id -> progress s0 (create_interaction id i s).2.
Proof.
  intros [Hs Hrows Hd] Hun Hdr. unfold create_interaction. destruct (interactions s !! id) as [i0|] eqn:Hid; [by split|].
  split; [done| |]; cbn.
  - intros k Hk. rewrite lookup_insert_ne by congruence. by apply Hrows.
  - intros Hs0 k. cbn. rewrite lookup_insert_is_Some. intros [<-|[_ Hk]] Hu; [done|]. by apply (Hd Hs0 k).
Qed.

(** The id of an offer is the first value that it draws. *)
Lemma issuer_share_run params c p s r s' : issuer_share_credential self schemas params c p s = (Ok r, s') ->
  sr_interaction_id r = uuid_at (supply s) /\ (supply s < supply s')%nat /\
  exists schema code, credential_schema c ≫= (fun sc => schemas (schema_id sc)) = Some schema /\
    (is_Some (is_transaction_code schema) <-> is_Some code) /\ sr_transaction_code r = code /\
    co_pre_authorized_code (sr_offer r) = uuid_to_string (sr_interaction_id r) /\
    interaction_data_to_vec (mkInteractionData false EmptyString None None None None code) = Some (sr_interaction_data r) /\
    sr_expires_at r = clock (store s') + vp_pre_authorized_code_expires_in params.
Proof.
  unfold issuer_share_credential. intros Hr. apply bind_run in Hr as (id & s1 & [= <- <-] & Hr).
  apply bind_run in Hr as (schema & ? & Hsc & Hr). apply lift_run in Hsc as [Hsc%ok_or_ok ->].
  apply bind_run in Hr as (url & ? & Hu & Hr). apply lift_run in Hu as [_ ->]. cbn zeta in Hr.
  apply bind_run in Hr as (code & s2 & Hc & Hr).
  assert (Hf : (supply s < supply s2)%nat /\ (is_Some (is_transaction_code schema) <-> is_Some code) /\ store s2 = store s).
  { destruct (is_transaction_code schema) as [p0|].
    - apply bind_run in Hc as (c0 & s3 & Hg & Hc). apply ret_run in Hc as [<- <-]. unfold generate_transaction_code in Hg.
      destruct (tc_type p0); injection Hg as <- <-; cbn; split_and!; [lia|naive_solver|done|lia|naive_solver|done].
    - apply ret_run in Hc as [<- <-]. cbn. split_and!; [lia|split; intros []; done|done]. }
  destruct Hf as (Hf & Hcode & Hst). inv_run Hr. cbn. split; [done|]. split; [done|]. exists schema, code.
  split_and!; [done|done|done|done|done|]. unfold add_duration in Hq0. case_match; [by simplify_eq|done].
Qed.

Lemma share_progress session id : preserves progress (share_credential (R := R) self schemas session id).
Proof.
  unfold share_credential. cbv zeta.
  repeat lazymatch goal with
  | |- preserves _ (issuer_share_credential _ _ _ _ _ ≫= _) => fail
  | |- preserves _ (_ ≫= _) => apply preserves_bind; [typeclasses eauto|solve [preserve]|intros ?]
  end.
  intros s. apply (bind_post (progress s)); [apply frame_progress, frame_issuer_share|].
  intros r s1 Hr. assert (Hp : progress s s1) by (apply frame_progress; eapply run_preserves; [apply frame_issuer_share|done]).
  apply issuer_share_run in Hr as (Hid & Hs1 & _). apply (bind_post (progress s)); [done|]. intros now s2 [= <- <-].
  assert (Hc : forall i, progress s (create_interaction (sr_interaction_id r) i s1).2).
  { intros i. apply create_progress; [done|exists (supply s); split; [lia|done]|]. intros (k & Hk & Heq).
    rewrite Hid in Heq. apply uuid_fresh in Heq. lia. }
  apply (bind_post (progress s)); [unfold M_map_err; match goal with |- context [create_interaction _ ?i _] => specialize (Hc i) end;
    by destruct (create_interaction _ _ s1)|].
  intros [] s2 Hr2. apply map_err_run in Hr2. assert (Hs2 : progress s s2) by (eapply eq_ind; [apply Hc|by rewrite Hr2]).
  etrans; [exact Hs2|]. match goal with |- progress _ (?m s2).2 => enough (Hm : preserves progress m) by apply Hm end.
  preserve.
Qed.
End offers.

#[export] Hint Resolve delete_progress share_progress frame_issuer_share : core_db.

(** ** Calls that returned *)

Section returned.
Context {R : Type} `{SdCodec} `{HeaderCodec} `{!EqDecision PublicJwk} `{!PayloadCodec NonceJwtPayload} `{!PayloadCodec ProofOfPossession}
  `{!PayloadCodec WalletInstanceAttestationClaims} `{!PayloadCodec WalletUnitAttestationClaims} `{!PayloadCodec unit}
  `{VciLaws} `{!VciProviders} `{IssuanceMethods R}.
Context (self : OID4VCIService) (schemas : Z -> option IssuanceSchema).
Implicit Types (s : VciDb R).

(** The protocol of a credential. *)
Definition protocol_of (c : Credential) s : string := ic_protocol (columns_of (credential_id c) s).

(** The parts of [create_token] before the transaction. *)
Record token_admitted (s : VciDb R) sid request w p schema id c params pp wia : Prop := {
  ta_params : get_config_entity self = Ok params;
  ta_schema : schemas sid = Some schema;
  ta_interaction : requested_interaction request = Ok id;
  ta_credential : head (of_interaction id s) = Some c;
  ta_type : validate_issuance_protocol_type self (protocol_of c s) = Ok tt;
  ta_wia : validate_oauth_client_attestation self (clock (store s)) w p schema (protocol_of c s) (vp_oauth_attestation_leeway params) = Ok wia;
  ta_protocol : protocol_params self (protocol_of c s) = Ok pp
}.

Lemma create_token_run interfere sid request w p s r s' : create_token self schemas interfere sid request w p s = (Ok r, s') ->
  exists schema id c params pp wia, token_admitted s sid request w p schema id c params pp wia /\
    token_tx self schema id (of_interaction id s) request wia (vp_pre_authorized_code_expires_in pp)
      (vp_token_expires_in pp) (vp_refresh_expires_in pp) (interfere s) = (Ok r, s').
Proof.
  unfold create_token. cbv zeta. intros Hr. inv_run Hr. repeat match goal with H : map_err _ _ = Ok _ |- _ => apply map_err_ok in H end.
  destruct a3. injection Hr0 as <- <-. unfold try_ in Hr1.
  destruct (transaction _ _) as [[r0|e|] st] eqn:Ht; [injection Hr1 as <- <-..|done].
  - apply ret_run in Hr as [<- <-]. apply transaction_run in Ht. do 6 eexists. split; [by constructor|done].
  - apply bind_run in Hr as (? & ? & _ & ?). done.
Qed.

(** The parts of [create_credential] before the nonce is used. *)
Record credential_admitted (s : VciDb R) sid token request schema id i d c jwt proof nonce params np nonce_id : Prop := {
  ca_schema : schemas sid = Some schema;
  ca_request : throw_if_credential_request_invalid schema request = Ok tt;
  ca_token : parse_access_token token = Ok id;
  ca_interaction : interactions s !! id = Some i;
  ca_data : interaction_data_to_dto i = Ok d;
  ca_valid : is_access_token_valid (clock (store s)) d token = true;
  ca_credential : find_first (has_schema sid) (of_interaction id s) = Some c;
  ca_type : validate_issuance_protocol_type self (protocol_of c s) = Ok tt;
  ca_jwt : first_proof (cr_proofs request) = Ok jwt;
  ca_proof : verify_proof jwt authentication_verifier = Ok proof;
  ca_nonce : vp_proof_nonce proof = Some nonce;
  ca_params : protocol_params self (protocol_of c s) = Ok params;
  ca_nonce_params : vp_nonce params = Some np;
  ca_nonce_id : validate_nonce np (sv_base_url self) nonce (clock (store s)) = Ok nonce_id
}.

Lemma check_attestation_reads schema id l proof s r s' : check_key_attestation self schema id l proof s = (r, s') -> s' = s.
Proof.
  assert (Hp : preserves eq (check_key_attestation (R := R) self schema id l proof)).
  { unfold check_key_attestation, stored_wia. preserve; intros ?; reflexivity. }
  intros Hr. by apply (run_preserves _ _ _ _ _ Hp) in Hr.
Qed.

Lemma create_credential_run interfere sid token request s r s' : create_credential self schemas interfere sid token request s = (Ok r, s') ->
  exists schema id i d c jwt proof nonce params np nonce_id holder s1,
    credential_admitted s sid token request schema id i d c jwt proof nonce params np nonce_id /\
    mark_nonce_as_used id nonce_id (interfere s) = (Ok tt, s1) /\
    check_key_attestation self schema (credential_id c) (vp_key_attestation_leeway params) proof s1 = (Ok tt, s1) /\
    holder_of (credential_schema c ≫= schema_organisation) (vp_holder_binding proof) = Ok holder /\
    issue_tx self id (fst holder) (snd holder) c (vp_key_attestation proof) (interfere s1) = (Ok r, s').
Proof.
  unfold create_credential. cbv zeta. intros Hr. inv_run Hr. repeat match goal with H : map_err _ _ = Ok _ |- _ => apply map_err_ok in H end.
  repeat match goal with a : () |- _ => destruct a end. injection Hr0 as <-. injection Hr3 as <-. apply transaction_run in Hr.
  apply check_attestation_reads in Hr2 as Heq. subst s2. unfold throw_if_access_token_invalid in Hq4. apply fail_if_ok, negb_false_iff in Hq4.
  do 13 eexists. split_and!; [by constructor|done..].
Qed.
End returned.

(** ** The exchange of a code *)

Section exchange.
Context {R : Type} `{VciLaws}.
Implicit Types (s : VciDb R).

Lemma tx_code_ok expected code tx : throw_if_tx_code_invalid expected (PreAuthorizedCode code tx) = Ok tt <-> tx = expected.
Proof.
  destruct expected as [e|], tx as [t|]; simpl; [|done..]. rewrite fail_if_ok, negb_false_iff, String.eqb_eq. naive_solver.
Qed.

Lemma all_pending_ok cs : try_fold (fun _ c => throw_if_credential_state_not_eq c CsPending) tt cs = Ok tt <->
  forall c, c ∈ cs -> credential_state c = CsPending.
Proof.
  induction cs as [|c cs IH]; simpl; [split; [by intros _ ? ?%elem_of_nil|done]|].
  change (throw_if_credential_state_not_eq c CsPending) with (fail_if (negb (bool_decide (credential_state c = CsPending))) (OiInvalidCredentialState (credential_state c))).
  destruct (bool_decide_reflect (credential_state c = CsPending)) as [Hc|Hc]; simpl.
  - rewrite IH. split; [by intros Hcs x [->|Hx]%elem_of_cons; auto|]. intros Hcs x Hx. apply Hcs. by right.
  - split; [done|]. intros Hcs. destruct Hc. apply Hcs. left.
Qed.

(** The conditions of an exchange: the transaction code is the one of the
    offer, the offer has not expired, its code is unused, and all credentials
    are pending. *)
Record exchangeable (now : Z) (d : OpenID4VCIIssuerInteractionDataDTO) (cs : list Credential) (i : Interaction) (code : string)
  (tx : option string) (expires_in : Z) : Prop := {
  ex_code : code <> EmptyString;
  ex_tx : tx = id_transaction_code d;
  ex_date : date_ok (in_created_date i + expires_in) = true;
  ex_fresh : now <= in_created_date i + expires_in;
  ex_unused : id_pre_authorized_code_used d = false;
  ex_pending : forall c, c ∈ cs -> credential_state c = CsPending
}.

(** The token that the service makes up. *)
Definition drawn_token (id : Z) (k : nat) : string := (uuid_to_string id ++ "." ++ alphanumeric_at k 32)%string.

Lemma oidc_preauthorized_run d cs id i code tx a b c s r s' :
  oidc_issuer_create_token d cs id i (PreAuthorizedCode code tx) a b c s = (Ok r, s') <->
  exchangeable (clock (store s)) d cs i code tx a /\ date_ok (clock (store s) + b) = true /\ s' = draw s /\
  r = mkTokenResponse (drawn_token id (supply s)) "bearer" (unix_timestamp (clock (store s) + b)) None None.
Proof.
  unfold oidc_issuer_create_token, throw_if_interaction_created_date, throw_if_interaction_pre_authorized_code_used, generate_new_token,
    add_duration. run_M. split.
  - destruct code as [|ch code]; simpl; [done|]. destruct (throw_if_tx_code_invalid _ _) as [[]|e|] eqn:Htx; simpl; [|done..].
    apply tx_code_ok in Htx. destruct (date_ok (in_created_date i + a)) eqn:Hd; simpl; [|done].
    destruct (in_created_date i + a <? clock (store s)) eqn:Hlt; simpl; [done|].
    destruct (id_pre_authorized_code_used d) eqn:Hu; simpl; [done|].
    destruct (try_fold _ tt cs) as [[]|e|] eqn:Hcs; simpl; [|done..]. pose proof (proj1 (all_pending_ok _) Hcs) as Hpending.
    destruct (date_ok (clock (store s) + b)) eqn:Hb; simpl; [|done]. intros [= <- <-]. split_and!; [|done..]. split; (done || lia).
  - intros ([Hc Htx Hd Hf Hu Hp] & Hb & -> & ->). destruct code as [|ch code]; [done|]. simpl.
    apply (tx_code_ok _ (String ch code)) in Htx. rewrite Htx. simpl. rewrite Hd. simpl. rewrite (proj2 (Z.ltb_ge _ _) Hf). simpl. rewrite Hu. simpl.
    rewrite (proj2 (all_pending_ok _) Hp). simpl. by rewrite Hb.
Qed.
End exchange.
