(* ===== verification/VciLife.v ===== *)
(** * OpenID4VCI issuance: the life of a credential

    How the calls of the issuer move the states of credentials, when they do
    not run at the same time. [moves] relates the rows before and after a call,
    [vci_inv] is the invariant of the tables. *)

From S2P Require Import Prelude Paths StatusBits KeySelection RevocationRepo RevocationMethod TokenMethod ListFilter Validity.
From S2P Require Import SdDisclosures SdIssue SdToken Jwt VciStore VciService VciSpec.
From Stdlib Require Import Ascii String.
#[local] Open Scope Z_scope.
#[local] Notation length := Datatypes.length.

(** ** The credential table keeps its rows *)

Section same_ids.
Context {R : Type} `{RevocationMethodProvider R} (session : option Session).

Definition same_ids (s s' : Store R) : Prop := credential_id <$> credentials s' = credential_id <$> credentials s.
#[export] Instance same_ids_preorder : PreOrder same_ids.
Proof. split; [done|]. unfold same_ids. intros ? ? ? ? ?. congruence. Qed.

Lemma same_ids_map (f : Credential -> Credential) s rev now :
  (forall c, credential_id (f c) = credential_id c) -> same_ids s (mkStore (f <$> credentials s) rev now).
Proof. intros Hf. unfold same_ids. simpl. rewrite <-list_fmap_compose. apply list_fmap_ext. intros ? c _. apply Hf. Qed.

Lemma same_ids_get id : preserves same_ids (get_credential (R := R) id).
Proof. intros s. reflexivity. Qed.
Lemma same_ids_update id req : preserves same_ids (update_credential (R := R) id req).
Proof.
  intros s. unfold update_credential. destruct (find_credential id s); [|reflexivity]. apply same_ids_map. intros ?. apply apply_update_id.
Qed.
Lemma same_ids_revocation {A : Type} (m : M R RevocationError A) : preserves same_ids (on_revocation m).
Proof. intros s. unfold on_revocation. by destruct (m _). Qed.
Lemma same_ids_delete_row id : preserves same_ids (delete_credential_row (R := R) id).
Proof.
  intros s. unfold delete_credential_row. destruct (find_credential id s); [|reflexivity]. case_match; [|reflexivity].
  apply same_ids_map. intros c'. by destruct (mark_deleted_same id (clock s) c').
Qed.
#[local] Hint Resolve same_ids_get same_ids_update same_ids_revocation same_ids_delete_row : core_db.

Lemma same_ids_change id st : preserves same_ids (change_credential_validity_state (R := R) session id st).
Proof. unfold change_credential_validity_state. preserve. Qed.
Lemma same_ids_delete config id : preserves same_ids (delete_credential (R := R) session config id).
Proof. unfold delete_credential. preserve. Qed.
#[local] Hint Resolve same_ids_change : core_db.

Lemma same_ids_suspend_check any_empty : preserves same_ids (suspend_check (R := R) session any_empty).
Proof. unfold suspend_check. preserve. Qed.

Context `{HolderWorld}.

Lemma same_ids_mdoc c detail force : preserves same_ids (update_mdoc (R := R) c detail force).
Proof.
  assert (Hobtain : preserves same_ids (obtain_and_update_new_mso (R := R) c)) by (unfold obtain_and_update_new_mso; preserve).
  unfold update_mdoc, check_mdoc_update. preserve. intros s. specialize (Hobtain s). by destruct (obtain_and_update_new_mso c s) as [[]].
Qed.
Lemma same_ids_statuses c schema sts force : preserves same_ids (check_statuses (R := R) c schema sts force).
Proof. unfold check_statuses. cbv zeta. preserve. Qed.
#[local] Hint Resolve same_ids_mdoc same_ids_statuses : core_db.

Lemma same_ids_check ids force : preserves same_ids (check_revocation (R := R) session ids force).
Proof.
  induction ids as [|id ids IH]; simpl; [preserve|]. unfold check_holder_credential_validity. preserve.
Qed.
End same_ids.

Lemma validity_same_ids {R : Type} `{RevocationMethodProvider R} (s s' : Store R) : validity_step s s' -> same_ids s s'.
Proof.
  destruct 1.
  - apply same_ids_change.
  - apply same_ids_change.
  - apply same_ids_change.
  - apply same_ids_delete.
  - apply same_ids_suspend_check.
  - apply same_ids_check.
  - done.
Qed.

(** ** Moves of states *)

Section moves.
Context {R : Type}.
Implicit Types (s : VciDb R) (T : Z -> CredentialStateEnum -> CredentialStateEnum -> Prop).

(** A row before and after: its state moved by [T]. *)
Record row_moves T (c c' : Credential) : Prop := {
  rm_id : credential_id c' = credential_id c;
  rm_role : credential_role c' = credential_role c;
  rm_schema : credential_schema c' = credential_schema c;
  rm_deleted : deleted_at c' = deleted_at c;
  rm_state : T (credential_id c) (credential_state c) (credential_state c')
}.

Record moves T s s' : Prop := {
  mv_frame : frame s s';
  mv_rows : Forall2 (row_moves T) (credentials (store s)) (credentials (store s'));
  mv_columns : forall id, ic_interaction_id (columns_of id s') = ic_interaction_id (columns_of id s);
  mv_protocol : forall id, ic_protocol (columns_of id s') = ic_protocol (columns_of id s);
  mv_clock : clock (store s') = clock (store s)
}.

(** Some of the credentials [ids] have the state [st] now. *)
Definition set_some (ids : list Z) (st : CredentialStateEnum) (id : Z) (a b : CredentialStateEnum) : Prop := b = a \/ id ∈ ids /\ b = st.
Definition quiet : VciDb R -> VciDb R -> Prop := moves (fun _ a b => b = a).

Lemma moves_trans T1 T2 T3 s1 s2 s3 : (forall id a b c, T1 id a b -> T2 id b c -> T3 id a c) ->
  moves T1 s1 s2 -> moves T2 s2 s3 -> moves T3 s1 s3.
Proof.
  intros HT [Hf1 Hr1 Hc1 Hp1 Ht1] [Hf2 Hr2 Hc2 Hp2 Ht2].
  split; [by etrans| |intros id; by rewrite Hc2|intros id; by rewrite Hp2|congruence].
  revert Hr2. generalize (credentials (store s3)). induction Hr1 as [|c c' l l' Hc _ IH]; intros l'' Hr2; inversion Hr2; subst; constructor.
  - destruct Hc. match goal with H : row_moves T2 _ _ |- _ => destruct H end. split; [congruence..|].
    eapply HT; [done|]. by rewrite <-rm_id0.
  - by apply IH.
Qed.

#[export] Instance moves_preorder T `{!forall id, PreOrder (T id)} : PreOrder (moves T).
Proof.
  split.
  - intros s. split; try done. apply Forall_Forall2_diag, Forall_true. intros c. by split.
  - intros s1 s2 s3. apply moves_trans. intros id a b c. apply transitivity.
Qed.
#[export] Instance set_some_preorder ids st id : PreOrder (set_some ids st id).
Proof. split; [by left|]. unfold set_some. intros a b c. naive_solver. Qed.
#[export] Instance same_preorder : PreOrder (fun a b : CredentialStateEnum => b = a).
Proof. split; [done|]. congruence. Qed.
#[export] Instance quiet_preorder : PreOrder quiet.
Proof. unfold quiet. typeclasses eauto. Qed.

Lemma moves_weaken T (T' : Z -> CredentialStateEnum -> CredentialStateEnum -> Prop) s s' :
  (forall id a b, T id a b -> T' id a b) -> moves T s s' -> moves T' s s'.
Proof.
  intros HT [Hf Hr Hc Hp Ht]. split; [done| |done..]. eapply Forall2_impl; [done|]. intros c c' []. split; auto.
Qed.

Lemma quiet_moves T s s' : (forall id, Reflexive (T id)) -> quiet s s' -> moves T s s'.
Proof. intros HT. apply moves_weaken. intros id a b ->. apply HT. Qed.

Lemma preserves_quiet_moves {E A : Type} ids st (m : M (VciDb R) E A) : preserves quiet m -> preserves (moves (set_some ids st)) m.
Proof. intros Hm s. apply quiet_moves; [|apply Hm]. intros id a. by left. Qed.

(** Changes that are no moves. *)
Lemma quiet_intro s s' : frame s s' -> credentials (store s') = credentials (store s) -> columns s' = columns s -> clock (store s') = clock (store s) ->
  quiet s s'.
Proof.
  intros Hf Hc Hcol Ht. split; [done| |unfold columns_of; by rewrite Hcol..|done].
  rewrite Hc. apply Forall_Forall2_diag, Forall_true. intros c. by split.
Qed.

Lemma update_row_moves id u s : cu_interaction u = None ->
  moves (fun x a b => b = if x =? id then default a (cu_state u) else a) s (update_row id u s).
Proof.
  intros Hu. split; [by split| | | |done].
  - cbn. apply Forall2_fmap_r, Forall_Forall2_diag, Forall_true. intros c. unfold apply_update.
    destruct (credential_id c =? id) eqn:Hid; split; cbn; rewrite ?Hid; done.
  - intros x. unfold columns_of at 1. cbn. destruct (decide (x = id)) as [->|].
    + rewrite lookup_insert_eq. cbn. by rewrite Hu.
    + by rewrite lookup_insert_ne.
  - intros x. unfold columns_of at 1. cbn. destruct (decide (x = id)) as [->|].
    + by rewrite lookup_insert_eq.
    + by rewrite lookup_insert_ne.
Qed.

Lemma quiet_update id u : cu_state u = None -> cu_interaction u = None -> preserves quiet (vci_update_credential id u : M (VciDb R) _ _).
Proof.
  intros Hst Hi s. unfold vci_update_credential. destruct (find_credential id (store s)); [|reflexivity].
  eapply moves_weaken; [|by apply update_row_moves]. rewrite Hst. intros x a b ->. by destruct (x =? id).
Qed.

Lemma set_update id u st ids : cu_interaction u = None -> default st (cu_state u) = st -> id ∈ ids ->
  preserves (moves (set_some ids st)) (vci_update_credential id u : M (VciDb R) _ _).
Proof.
  intros Hi Hst Hid s. unfold vci_update_credential. destruct (find_credential id (store s)); [|reflexivity].
  eapply moves_weaken; [|by apply update_row_moves]. intros x a b ->. unfold set_some. destruct (Z.eqb_spec x id) as [->|]; [|by left].
  destruct (cu_state u); cbn in *; [right|left]; naive_solver.
Qed.
End moves.

#[export] Hint Resolve preserves_quiet_moves : core_db.
#[export] Hint Extern 2 (preserves quiet (vci_update_credential _ _)) => apply quiet_update; reflexivity : core_db.

Section quiet_operations.
Context {R : Type} `{VciLaws}.
Implicit Types (s : VciDb R).

Lemma quiet_now {E : Type} : preserves quiet (now_utc : M (VciDb R) E Z).
Proof. intros s. reflexivity. Qed.
Lemma quiet_uuid {E : Type} : preserves quiet (new_uuid : M (VciDb R) E Z).
Proof. intros s. apply quiet_intro; [apply frame_uuid|done..]. Qed.
Lemma quiet_alphanumeric {E : Type} n : preserves quiet (generate_alphanumeric n : M (VciDb R) E string).
Proof. intros s. apply quiet_intro; [apply frame_alphanumeric|done..]. Qed.
Lemma quiet_numeric {E : Type} n : preserves quiet (generate_numeric n : M (VciDb R) E string).
Proof. intros s. apply quiet_intro; [apply frame_numeric|done..]. Qed.
Lemma quiet_get_interaction {E : Type} id : preserves quiet (get_interaction id : M (VciDb R) E _).
Proof. intros s. reflexivity. Qed.
Lemma quiet_get_credential {E : Type} id : preserves quiet (vci_get_credential id : M (VciDb R) E _).
Proof. intros s. reflexivity. Qed.
Lemma quiet_get_credentials {E : Type} id : preserves quiet (get_credentials_by_interaction_id id : M (VciDb R) E _).
Proof. intros s. reflexivity. Qed.
Lemma quiet_get_blob {E : Type} id : preserves quiet (get_blob id : M (VciDb R) E _).
Proof. intros s. reflexivity. Qed.
Lemma quiet_create_blob v : preserves quiet (create_blob v : M (VciDb R) _ _).
Proof.
  intros s. apply quiet_intro; [apply frame_create_blob|..]; unfold create_blob; run_M; cbn; by destruct (blobs s !! _).
Qed.
Lemma quiet_update_blob id v : preserves quiet (update_blob id v : M (VciDb R) _ _).
Proof. intros s. apply quiet_intro; [apply frame_update_blob|..]; unfold update_blob; by destruct (blobs s !! _). Qed.
Lemma quiet_insert_mdoc {E : Type} m : preserves quiet (insert_mdoc m : M (VciDb R) E _).
Proof. intros s. apply quiet_intro; [apply frame_insert_mdoc|done..]. Qed.
Lemma quiet_latest_mdoc {E : Type} id : preserves quiet (get_latest_mdoc id : M (VciDb R) E _).
Proof. intros s. reflexivity. Qed.
Lemma quiet_revocation {A : Type} (m : M R RevocationError A) : preserves quiet (with_revocation m : M (VciDb R) _ A).
Proof. intros s. apply quiet_intro; [apply frame_revocation|..]; unfold with_revocation; by destruct (m _). Qed.
End quiet_operations.

#[export] Hint Resolve quiet_now quiet_uuid quiet_alphanumeric quiet_numeric quiet_get_interaction quiet_get_credential quiet_get_credentials
  quiet_get_blob quiet_create_blob quiet_update_blob quiet_insert_mdoc quiet_latest_mdoc quiet_revocation : core_db.

Section endpoint_moves.
Context {R : Type} `{SdCodec} `{HeaderCodec} `{!EqDecision PublicJwk} `{!PayloadCodec NonceJwtPayload} `{!PayloadCodec ProofOfPossession}
  `{!PayloadCodec WalletInstanceAttestationClaims} `{!PayloadCodec WalletUnitAttestationClaims} `{!PayloadCodec unit}
  `{VciLaws} `{!VciProviders} `{IssuanceMethods R}.
Context (self : OID4VCIService) (schemas : Z -> option IssuanceSchema).
Implicit Types (s : VciDb R).

Lemma quiet_new_token {E : Type} id : preserves quiet (generate_new_token id : M (VciDb R) E _).
Proof. unfold generate_new_token. preserve. Qed.
#[local] Hint Resolve quiet_new_token : core_db.

Lemma quiet_oidc_token d cs id i request a b c : preserves quiet (oidc_issuer_create_token (R := R) d cs id i request a b c).
Proof. unfold oidc_issuer_create_token. preserve. Qed.
Lemma quiet_store_wia w : preserves quiet (store_wia (R := R) self w).
Proof. unfold store_wia, data. preserve. Qed.
Lemma quiet_refresh_token sch id now e r : preserves quiet (with_refresh_token (R := R) self sch id now e r).
Proof. unfold with_refresh_token. preserve. Qed.
Lemma quiet_store_wua k : preserves quiet (store_wua (R := R) self k).
Proof. unfold store_wua, data. preserve. Qed.
Lemma quiet_nonce_endpoint p : preserves quiet (nonce_endpoint (R := R) self p).
Proof. unfold nonce_endpoint. preserve. Qed.
Lemma quiet_upsert c t : preserves quiet (upsert_credential_blob (R := R) self c t).
Proof. unfold upsert_credential_blob. preserve. Qed.
Lemma quiet_record_mdoc id t : preserves quiet (record_mdoc (R := R) id t).
Proof. unfold record_mdoc. preserve. Qed.
Lemma quiet_issuable id st f ft : preserves quiet (validate_credential_issuable (R := R) self id st f ft).
Proof. unfold validate_credential_issuable. preserve. Qed.
#[local] Hint Resolve quiet_store_wia quiet_upsert quiet_record_mdoc quiet_issuable : core_db.

(** Offers of credentials after an exchange. *)
Lemma offer_moves request w c ids : credential_id c ∈ ids -> preserves (moves (set_some ids CsOffered)) (offer_credential (R := R) self request w c).
Proof.
  intros Hc. unfold offer_credential, data. apply preserves_bind; [typeclasses eauto|auto with core_db|]. intros blob. cbv zeta.
  case_match; [|auto with core_db typeclass_instances]. apply preserves_map_err, set_update; [done| |done].
  cbn. by destruct (is_pre_authorized request).
Qed.
Lemma offers_move request w cs : preserves (moves (set_some (credential_id <$> cs) CsOffered)) (for_each (offer_credential (R := R) self request w) cs).
Proof.
  assert (Hsub : forall l, l ⊆ cs -> preserves (moves (set_some (credential_id <$> cs) CsOffered)) (for_each (offer_credential (R := R) self request w) l)).
  { induction l as [|c l IH]; intros Hl; cbn [for_each]; [auto with core_db typeclass_instances|].
    apply preserves_bind; [typeclasses eauto| |intros _; apply IH; set_solver].
    apply offer_moves. apply list_elem_of_fmap_2. set_solver. }
  by apply Hsub.
Qed.

(** The end of an issuance after a wrong code. *)
Lemma ended_move cs : preserves (moves (set_some (credential_id <$> cs) CsError))
  (for_each (fun c => data (vci_update_credential (R := R) (credential_id c) (state_update CsError))) cs).
Proof.
  assert (Hsub : forall l, l ⊆ cs -> preserves (moves (set_some (credential_id <$> cs) CsError))
    (for_each (fun c => data (vci_update_credential (R := R) (credential_id c) (state_update CsError))) l)).
  { induction l as [|c l IH]; intros Hl; cbn [for_each]; [auto with core_db typeclass_instances|].
    apply preserves_bind; [typeclasses eauto| |intros _; apply IH; set_solver].
    apply preserves_map_err, set_update; [done..|]. apply list_elem_of_fmap_2. set_solver. }
  by apply Hsub.
Qed.

(** What an issuance does to the rows. *)
Lemma accept_moves c h t : preserves (moves (set_some [credential_id c] CsAccepted)) (accept_credential (R := R) self c h t).
Proof.
  unfold accept_credential. apply preserves_bind; [typeclasses eauto|auto with core_db|]. intros b.
  apply preserves_map_err, set_update; [done..|]. left.
Qed.
End endpoint_moves.

#[export] Hint Resolve quiet_new_token quiet_oidc_token quiet_store_wia quiet_refresh_token quiet_store_wua quiet_nonce_endpoint quiet_upsert
  quiet_record_mdoc quiet_issuable offers_move ended_move accept_moves : core_db.

(** ** Rows after a call *)

Section rows.
Context {R : Type}.
Implicit Types (s : VciDb R) (T : Z -> CredentialStateEnum -> CredentialStateEnum -> Prop).

Lemma rows_find T id (l l' : list Credential) c : Forall2 (row_moves T) l l' -> find_first (fun c => credential_id c =? id) l = Some c ->
  exists c', find_first (fun c => credential_id c =? id) l' = Some c' /\ row_moves T c c'.
Proof.
  unfold find_first. induction 1 as [|x x' l l' Hx _ IH]; [done|]. simpl. rewrite (rm_id _ _ _ Hx).
  destruct (credential_id x =? id); [intros [= <-]; eauto|done].
Qed.

Lemma moves_find T s s' id c : moves T s s' -> find_credential id (store s) = Some c ->
  exists c', find_credential id (store s') = Some c' /\ row_moves T c c'.
Proof. intros Hm. apply rows_find, Hm. Qed.

(** The row of a credential after an update. *)
Lemma update_find id u s s' : vci_update_credential id u s = (Ok tt, s') ->
  exists c c', find_credential id (store s) = Some c /\ find_credential id (store s') = Some c' /\
    credential_state c' = default (credential_state c) (cu_state u).
Proof.
  unfold vci_update_credential. destruct (find_credential id (store s)) as [c|] eqn:Hc; [|done]. intros [= <-].
  exists c, (apply_update id (row_update u) c). split; [done|]. unfold update_row. cbn [store].
  rewrite find_credential_map, Hc by (intros ?; apply apply_update_id). split; [done|]. apply find_credential_Some in Hc as [_ Hid].
  unfold apply_update. by rewrite Hid, Z.eqb_refl.
Qed.
End rows.

Section issuance.
Context {R : Type} `{SdCodec} `{HeaderCodec} `{!EqDecision PublicJwk} `{!PayloadCodec NonceJwtPayload} `{!PayloadCodec ProofOfPossession}
  `{!PayloadCodec WalletInstanceAttestationClaims} `{!PayloadCodec WalletUnitAttestationClaims} `{!PayloadCodec unit}
  `{VciLaws} `{!VciProviders} `{IssuanceMethods R}.
Context (self : OID4VCIService).
Implicit Types (s : VciDb R).

Lemma quiet_run {E A : Type} (m : M (VciDb R) E A) r s s' id c st : preserves quiet m -> m s = (r, s') ->
  find_credential id (store s) = Some c -> credential_state c = st ->
  exists c', find_credential id (store s') = Some c' /\ credential_state c' = st.
Proof.
  intros Hm Hr Hc Hst. pose proof (run_preserves _ _ _ _ _ Hm Hr) as Hq. destruct (moves_find _ _ _ _ _ Hq Hc) as (c' & Hc' & Hmv).
  exists c'. split; [done|]. rewrite (rm_state _ _ _ Hmv). done.
Qed.

Lemma accept_run c h t s s' : accept_credential self c h t s = (Ok tt, s') ->
  exists c', find_credential (credential_id c) (store s') = Some c' /\ credential_state c' = CsAccepted.
Proof.
  unfold accept_credential. intros Hr. apply bind_run in Hr as (b & s1 & _ & Hr). apply map_err_run, update_find in Hr as (c0 & c' & _ & Hc' & Hst).
  by exists c'.
Qed.

(** The state in which a credential is issued. *)
Definition issuable (c : Credential) (ft : FormatType) : Prop := credential_state c = CsOffered \/ credential_state c = CsAccepted /\ ft = FtMdoc.

Lemma issuable_run id st f ft s s' : validate_credential_issuable self id st f ft s = (Ok tt, s') ->
  (st = CsOffered \/ st = CsAccepted /\ ft = FtMdoc) /\ s' = s.
Proof.
  unfold validate_credential_issuable. destruct st; try done; [intros [= <-]; by split; [left|]| |by destruct ft].
  destruct ft; try done. unfold get_latest_mdoc. intros Hr. inv_run Hr. injection Hr0 as <- <-. apply lift_run in Hr as [_ ->].
  split; [by right|done].
Qed.

(** The entry of a credential in the lists of its revocation method. *)
Definition status_entry (schema : CredentialSchema) (c : Credential) s (status : list CredentialStatus) : Prop :=
  match revocation_method schema with
  | Some m => exists method rev, issuance_method m = Some method /\ im_add_issued_credential method c (revocation (store s)) = (Ok status, rev)
  | None => status = []
  end.

Lemma issue_run id h k s token n s' : issuer_issue_credential self id h k s = (Ok (token, n), s') ->
  exists c schema ft status c', find_credential id (store s) = Some c /\ credential_schema c = Some schema /\
    vc_format (sv_config self) (schema_format schema) = Some ft /\ issuable c ft /\ status_entry schema c s status /\
    format_issued_credential c h k status = Some token /\
    find_credential id (store s') = Some c' /\ credential_state c' = CsAccepted /\ moves (set_some [id] CsAccepted) s s'.
Proof.
  unfold issuer_issue_credential. intros Hr. apply bind_run in Hr as (? & ? & [= <- <-] & Hr).
  apply bind_run in Hr as (c & ? & Hc & Hr). apply lift_run in Hc as [Hc%ok_or_ok ->].
  apply bind_run in Hr as (schema & ? & Hs & Hr). apply lift_run in Hs as [Hs%ok_or_ok ->].
  apply bind_run in Hr as (ft & ? & Hft & Hr). apply lift_run in Hft as [Hft%ok_or_ok ->].
  apply bind_run in Hr as ([] & ? & Hi & Hr). apply issuable_run in Hi as [Hi ->].
  apply bind_run in Hr as (status & s1 & Hst & Hr). apply bind_run in Hr as (t & ? & Ht & Hr). apply lift_run in Ht as [Ht%ok_or_ok ->].
  apply bind_run in Hr as ([] & s2 & Ha & Hr). apply bind_run in Hr as (n' & s3 & Hn & Hr). apply ret_run in Hr as [[= -> ->] <-].
  assert (Hentry : status_entry schema c s status /\ quiet s s1).
  { unfold status_entry. destruct (revocation_method schema) as [m|]; [|by apply ret_run in Hst as [<- <-]].
    apply bind_run in Hst as (method & ? & Hm & Hst). apply lift_run in Hm as [Hm%ok_or_ok ->]. apply map_err_run in Hst.
    split; [|by eapply run_preserves; [apply quiet_revocation|]]. unfold with_revocation in Hst.
    destruct (im_add_issued_credential _ _ _) as [r rev] eqn:Hadd. injection Hst as -> <-. by eauto. }
  destruct Hentry as [Hentry Hq1]. apply find_credential_Some in Hc as Hcid. destruct Hcid as [_ Hcid].
  assert (Hacc : (exists c', find_credential id (store s2) = Some c' /\ credential_state c' = CsAccepted) /\
                 moves (set_some [id] CsAccepted) s1 s2).
  { destruct (moves_find _ _ _ _ _ Hq1 Hc) as (c1 & Hc1 & Hm1).
    rewrite <-Hcid. rewrite <-Hcid in Hc1. pose proof (accept_moves (R := R) self c h token) as Hmv.
    destruct ft, (credential_state c) eqn:Hstate; try (split; [by eapply accept_run|by eapply run_preserves; [apply Hmv|]]).
    - apply bind_run in Ha as ([] & s4 & Ha & Hd). pose proof (accept_run _ _ _ _ _ Ha) as (c4 & Hc4 & Hst4). split.
      + eapply quiet_run; [apply quiet_record_mdoc|exact Hd|exact Hc4|done].
      + etrans; [by eapply run_preserves; [apply Hmv|]|]. eapply run_preserves; [|exact Hd]. apply preserves_quiet_moves, quiet_record_mdoc.
    - split; [|eapply run_preserves; [|exact Ha]; apply preserves_quiet_moves, quiet_record_mdoc].
      eapply quiet_run; [apply quiet_record_mdoc|exact Ha|exact Hc1|]. by rewrite (rm_state _ _ _ Hm1). }
  destruct Hacc as [(c2 & Hc2 & Hst2) Hm2]. destruct (quiet_run _ _ _ _ _ _ _ (quiet_alphanumeric 32) Hn Hc2 Hst2) as (c3 & Hc3 & Hst3).
  exists c, schema, ft, status, c3. split_and!; try done.
  etrans; [by apply quiet_moves; [intros ? ?; left|exact Hq1]|]. etrans; [exact Hm2|].
  eapply run_preserves; [|exact Hn]. apply preserves_quiet_moves, quiet_alphanumeric.
Qed.
End issuance.

(** ** The invariant *)

(** The states that a credential can get to. *)
Definition leads_to (a b : CredentialStateEnum) : bool :=
  match a, b with
  | CsCreated, _ => true
  | (CsPending | CsInteractionExpired), CsCreated => false
  | (CsPending | CsInteractionExpired), _ => true
  | CsOffered, (CsCreated | CsPending | CsInteractionExpired) => false
  | CsOffered, _ => true
  | (CsAccepted | CsSuspended), (CsAccepted | CsSuspended | CsRevoked | CsRejected | CsError) => true
  | CsRevoked, (CsRevoked | CsRejected | CsError) => true
  | CsRejected, CsRejected => true
  | CsError, CsError => true
  | _, _ => false
  end.

Lemma leads_to_refl a : leads_to a a = true.
Proof. by destruct a. Qed.
Lemma leads_to_trans a b c : leads_to a b = true -> leads_to b c = true -> leads_to a c = true.
Proof. by destruct a, b, c. Qed.
Lemma leads_to_shareable a b : leads_to a b = true -> shareable a = false -> shareable b = false.
Proof. by destruct a, b. Qed.

Section invariant.
Context {R : Type} `{VciLaws}.
Implicit Types (s : VciDb R).

(** The interaction of a credential, and offers whose code was not exchanged. *)
Definition points_to s (c : Credential) (id : Z) : Prop := ic_interaction_id (columns_of (credential_id c) s) = Some id.
Definition data_of (i : Interaction) : option OpenID4VCIIssuerInteractionDataDTO := in_data i ≫= interaction_data_from_slice.
Definition open_offer (i : Interaction) : Prop := exists d, data_of i = Some d /\ id_pre_authorized_code_used d = false.
Definition before_exchange (st : CredentialStateEnum) : Prop := st = CsPending \/ st = CsInteractionExpired \/ st = CsError.

(** A credential is only offered or issued after the code of its interaction
    was exchanged; a transaction code is only stored until then. *)
Record vci_inv s : Prop := {
  vi_unique : unique_ids (store s);
  vi_drawn : ids_drawn s;
  vi_columns : forall c id, c ∈ credentials (store s) -> points_to s c id -> ~ undrawn s id;
  vi_open : forall c id i, c ∈ credentials (store s) -> points_to s c id -> interactions s !! id = Some i -> open_offer i ->
    before_exchange (credential_state c);
  vi_code : forall id i d, interactions s !! id = Some i -> data_of i = Some d -> is_Some (id_transaction_code d) ->
    id_pre_authorized_code_used d = false
}.

(** Credentials stay in the table and move along [leads_to]; the interaction of
    one that cannot be shared any more stays. *)
Definition life s s' : Prop := forall id c, find_credential id (store s) = Some c ->
  exists c', find_credential id (store s') = Some c' /\ leads_to (credential_state c) (credential_state c') = true /\
    credential_role c' = credential_role c /\ credential_schema c' = credential_schema c /\
    (shareable (credential_state c) = false -> ic_interaction_id (columns_of id s') = ic_interaction_id (columns_of id s)).

Definition lives s s' : Prop := vci_inv s -> vci_inv s' /\ life s s'.
#[export] Instance life_preorder : PreOrder life.
Proof.
  split.
  - intros s id c Hc. exists c. by rewrite leads_to_refl.
  - intros s1 s2 s3 H12 H23 id c Hc. destruct (H12 id c Hc) as (c2 & Hc2 & Hl2 & Hr2 & Hs2 & Hi2).
    destruct (H23 id c2 Hc2) as (c3 & Hc3 & Hl3 & Hr3 & Hs3 & Hi3). exists c3.
    split_and!; [done|by eapply leads_to_trans|congruence..|]. intros Hsh. rewrite Hi3; [by apply Hi2|by eapply leads_to_shareable].
Qed.
#[export] Instance lives_preorder : PreOrder lives.
Proof.
  split; [by intros s Hs|]. intros s1 s2 s3 H12 H23 Hi1. destruct (H12 Hi1) as [Hi2 Hl2], (H23 Hi2) as [Hi3 Hl3]. split; [done|by etrans].
Qed.

Lemma rows_elem T (l l' : list Credential) c' : Forall2 (row_moves T) l l' -> c' ∈ l' -> exists c, c ∈ l /\ row_moves T c c'.
Proof.
  intros Hl Hc'. destruct (list_elem_of_lookup_1 _ _ Hc') as [k Hk].
  destruct (Forall2_lookup_r _ _ _ _ _ Hl Hk) as (c & Hc & Hm). exists c. split; [by eapply list_elem_of_lookup_2|done].
Qed.

Lemma rows_unique T (l l' : list Credential) : Forall2 (row_moves T) l l' -> credential_id <$> l' = credential_id <$> l.
Proof. induction 1 as [|c c' l l' Hc _ IH]; [done|]. rewrite !fmap_cons, IH. by rewrite (rm_id _ _ _ Hc). Qed.

(** Moves that are allowed keep the invariant. *)
Lemma moves_lives T s s' : moves T s s' ->
  (vci_inv s -> forall c b, c ∈ credentials (store s) -> T (credential_id c) (credential_state c) b -> leads_to (credential_state c) b = true /\
     (forall id i, points_to s c id -> interactions s !! id = Some i -> open_offer i -> before_exchange b)) ->
  lives s s'.
Proof.
  intros Hm HT Hinv. specialize (HT Hinv). destruct Hm as [[Hint Hsup] Hrows Hcol _ _]. destruct Hinv as [Hu Hd Hc Ho Hcode].
  assert (Hpts : forall c c' id, row_moves T c c' -> points_to s' c' id -> points_to s c id).
  { intros c c' id Hrow. unfold points_to. by rewrite Hcol, (rm_id _ _ _ Hrow). }
  split; [split|].
  - unfold unique_ids. by rewrite (rows_unique _ _ _ Hrows).
  - intros id. rewrite Hint. intros Hid Hun. apply (Hd id Hid). by eapply undrawn_mono.
  - intros c' id Hc' Hp Hun. destruct (rows_elem _ _ _ _ Hrows Hc') as (c & Hin & Hrow).
    apply (Hc c id Hin); [by eapply Hpts|]. by eapply undrawn_mono.
  - intros c' id i Hc' Hp Hi Hopen. destruct (rows_elem _ _ _ _ Hrows Hc') as (c & Hin & Hrow). rewrite Hint in Hi.
    destruct (HT c (credential_state c') Hin (rm_state _ _ _ Hrow)) as [_ Hb]. eapply Hb; [by eapply Hpts|done..].
  - intros id i d. rewrite Hint. apply Hcode.
  - intros id c Hfind. destruct (rows_find _ _ _ _ _ Hrows Hfind) as (c' & Hc' & Hrow). exists c'.
    apply find_credential_Some in Hfind as [Hin _]. destruct (HT c _ Hin (rm_state _ _ _ Hrow)) as [Hl _].
    split_and!; [done..|apply Hrow|apply Hrow|intros _; apply Hcol].
Qed.

Lemma quiet_lives s s' : quiet s s' -> lives s s'.
Proof.
  intros Hq. eapply moves_lives; [exact Hq|]. intros Hinv c b Hc ->. rewrite leads_to_refl. split; [done|]. intros id i. by apply Hinv.
Qed.

(** A row of the interactions is overwritten: the offer is not reopened. *)
Lemma interaction_lives s id i i' : interactions s !! id = Some i -> (open_offer i' -> open_offer i) ->
  (forall d, data_of i' = Some d -> is_Some (id_transaction_code d) -> id_pre_authorized_code_used d = false) ->
  lives s (with_interactions (<[id := i']> (interactions s)) s).
Proof.
  intros Hi Hopen Hcd [Hu Hd Hc Ho Hcode]. split; [|intros x c Hx; exists c; by rewrite leads_to_refl]. split; [done| |done| |].
  - intros x. cbn. rewrite lookup_insert_is_Some. intros [<-|[_ Hx]]; [by apply Hd; eexists|by apply Hd].
  - intros c x j Hin Hp Hj Hoj. cbn in Hj. destruct (decide (id = x)) as [->|]; [rewrite lookup_insert_eq in Hj|rewrite lookup_insert_ne in Hj by done].
    + injection Hj as <-. eapply Ho; [done|exact Hp|done|by apply Hopen].
    + by eapply Ho.
  - intros x j d Hj. cbn in Hj. destruct (decide (id = x)) as [->|]; [rewrite lookup_insert_eq in Hj|rewrite lookup_insert_ne in Hj by done].
    + injection Hj as <-. apply Hcd.
    + by eapply Hcode.
Qed.

Lemma delete_lives {E : Type} id : preserves lives (delete_interaction id : M (VciDb R) E unit).
Proof.
  intros s [Hu Hd Hc Ho Hcode]. split; [|intros x c Hx; exists c; by rewrite leads_to_refl]. split; [done| |done| |].
  - intros x [j Hj]. cbn in Hj. apply lookup_delete_Some in Hj as [_ Hj]. apply Hd. by eexists.
  - intros c x j Hin Hp Hj. cbn in Hj. apply lookup_delete_Some in Hj as [_ Hj]. by eapply Ho.
  - intros x j d Hj. cbn in Hj. apply lookup_delete_Some in Hj as [_ Hj]. by eapply Hcode.
Qed.

Lemma data_of_dto i d : interaction_data_to_dto i = Ok d <-> data_of i = Some d.
Proof. unfold interaction_data_to_dto, data_of. destruct (in_data i); simpl; [by rewrite ok_or_ok|done]. Qed.
Lemma data_of_set i v d : interaction_data_to_vec d = Some v -> data_of (set_data (Some v) i) = Some d.
Proof. apply interaction_data_reads. Qed.

Lemma mark_nonce_lives id n : preserves lives (mark_nonce_as_used id n : M (VciDb R) _ _).
Proof.
  intros s. destruct (mark_nonce_as_used id n s) as [[[]|e|] s'] eqn:Hr.
  - apply mark_nonce_run in Hr as (i & Hi & Hn & _ & ->). intros Hinv.
    eapply (interaction_lives s id i (set_nonce n i)); [done..| |done]. intros d. by apply (vi_code _ Hinv id i).
  - unfold mark_nonce_as_used in Hr. repeat case_match; simplify_eq; reflexivity.
  - unfold mark_nonce_as_used in Hr. repeat case_match; simplify_eq.
Qed.
End invariant.

#[export] Hint Resolve delete_lives mark_nonce_lives : core_db.

(** ** Which errors *)

(** [fails_with P m]: an error of [m] satisfies [P]. *)
Definition fails_with {E A : Type} (P : E -> Prop) (m : res E A) : Prop := forall e, m = Err e -> P e.

Section fails_with.
Context {E : Type} (P : E -> Prop).

Lemma fails_bind {A B : Type} (m : res E A) (f : A -> res E B) : fails_with P m -> (forall a, fails_with P (f a)) -> fails_with P (m ≫= f).
Proof. intros Hm Hf e. destruct m as [a|e'|]; simpl; [apply Hf|by intros [= <-]; apply Hm|done]. Qed.
Lemma fails_ok {A : Type} (a : A) : fails_with P (Ok a).
Proof. done. Qed.
Lemma fails_ok_or {A : Type} (o : option A) e : P e -> fails_with P (ok_or o e).
Proof. by destruct o; intros ? ? [= <-]. Qed.
Lemma fails_if c e : P e -> fails_with P (fail_if c e).
Proof. by destruct c; intros ? ? [= <-]. Qed.
Lemma fails_map_err {F A : Type} (f : F -> E) (m : res F A) : (forall e, P (f e)) -> fails_with P (map_err f m).
Proof. by destruct m; intros ? ? [= <-]. Qed.
Lemma fails_err {A : Type} e : P e -> fails_with P (Err e : res E A).
Proof. by intros ? ? [= <-]. Qed.
End fails_with.

Ltac fails :=
  repeat match goal with
  | |- fails_with _ (_ ≫= _) => apply fails_bind; [|intros ?]
  | |- fails_with _ (Ok _) => apply fails_ok
  | |- fails_with _ (ok_or _ _) => apply fails_ok_or; done
  | |- fails_with _ (fail_if _ _) => apply fails_if; done
  | |- fails_with _ (map_err _ _) => apply fails_map_err; done
  | |- fails_with _ (Err _) => apply fails_err; done
  | |- fails_with _ (if ?b then _ else _) => destruct b
  | |- fails_with _ (match ?x with _ => _ end) => destruct x
  end.

(** ** The token endpoint *)

Section token_lives.
Context {R : Type} `{SdCodec} `{HeaderCodec} `{!EqDecision PublicJwk} `{!PayloadCodec NonceJwtPayload} `{!PayloadCodec ProofOfPossession}
  `{!PayloadCodec WalletInstanceAttestationClaims} `{!PayloadCodec WalletUnitAttestationClaims} `{!PayloadCodec unit}
  `{VciLaws} `{!VciProviders} `{IssuanceMethods R}.
Context (self : OID4VCIService) (schemas : Z -> option IssuanceSchema).
Implicit Types (s : VciDb R).

Lemma attestation_no_grant now w p schema protocol leeway :
  fails_with (fun e => e <> OpenId InvalidGrant) (validate_oauth_client_attestation self now w p schema protocol leeway).
Proof.
  unfold validate_oauth_client_attestation, validate_timestamps, validate_issuance_time, validate_not_before_time, validate_expiration_time,
    validate_pop_audience, verify_pop_signature, verify_wia_signature, extract_wallet_metadata, attestation_issuer. fails.
Qed.

(** The loop that ends an issuance. *)
Definition end_issuance (cs : list Credential) : M (VciDb R) VciError unit :=
  for_each (fun c => data (vci_update_credential (credential_id c) (state_update CsError))) cs.

(** The outcomes of [create_token]: a check before the transaction fails; the
    transaction commits; it fails, and the issuance may be ended. *)
Lemma create_token_cases f sid request w p s : let '(r, s') := create_token self schemas f sid request w p s in
  (forall a, r <> Ok a) /\ (is_pre_authorized request = true -> r <> Err (OpenId InvalidGrant)) /\ s' = s \/
  exists schema id c params pp wia, token_admitted self schemas s sid request w p schema id c params pp wia /\
    match token_tx self schema id (of_interaction id s) request wia (vp_pre_authorized_code_expires_in pp)
            (vp_token_expires_in pp) (vp_refresh_expires_in pp) (f s) with
    | (Ok a, s1) => r = Ok a /\ s' = s1
    | (Err e, _) => (forall a, r <> Ok a) /\ (ends_issuance request e = false -> r = Err e) /\ s' = if ends_issuance request e then (end_issuance (of_interaction id s) (f s)).2 else f s
    | (Panic, _) => r = Panic /\ s' = f s
    end.
Proof.
  destruct (create_token self schemas f sid request w p s) as [r s'] eqn:Hr. unfold create_token in Hr. revert Hr.
  run_M. assert (Hcfg : fails_with (fun e => e <> OpenId InvalidGrant) (get_config_entity self)) by (unfold get_config_entity; fails).
  destruct (get_config_entity self) as [params|e|] eqn:Hp; [|intros [= <- <-]; left; split_and!; [done|intros _ [= ->]; by apply (Hcfg _ eq_refl)|done]|by intros [= <- <-]; left].
  unfold get_schema. destruct (schemas sid) as [schema|] eqn:Hs; cbn [ok_or]; [|by intros [= <- <-]; left].
  destruct (requested_interaction request) as [id|e|] eqn:Hid; [|intros [= <- <-]; left; split_and!; [done| |done]|by intros [= <- <-]; left].
  2:{ intros Hpre [= ->]. destruct request as [code tx| |]; [|done..]. simpl in Hid. by destruct (uuid_from_str code). }
  unfold get_credentials_by_interaction_id. destruct (head (of_interaction id s)) as [c|] eqn:Hc; cbn [ok_or]; [|by intros [= <- <-]; left].
  match goal with |- context [validate_issuance_protocol_type self ?pr] =>
    assert (Htype : fails_with (fun e => e <> OpenId InvalidGrant) (validate_issuance_protocol_type self pr)) by (unfold validate_issuance_protocol_type, get_fields; fails);
    assert (Hpar : fails_with (fun e => e <> OpenId InvalidGrant) (protocol_params self pr)) by (unfold protocol_params, get_fields; fails) end.
  destruct (validate_issuance_protocol_type self _) as [[]|e|] eqn:Ht; [|intros [= <- <-]; left; split_and!; [done|intros _ [= ->]; by apply (Htype _ eq_refl)|done]|by intros [= <- <-]; left]. unfold now_utc.
  destruct (validate_oauth_client_attestation _ _ _ _ _ _ _) as [wia|e|] eqn:Hw;
    [|intros [= <- <-]; left; split_and!; [done|intros _ [= ->]; by apply attestation_no_grant in Hw|done]|by intros [= <- <-]; left].
  destruct (protocol_params self _) as [pp|e|] eqn:Hpp; [|intros [= <- <-]; left; split_and!; [done|intros _ [= ->]; by apply (Hpar _ eq_refl)|done]|by intros [= <- <-]; left]. unfold others, try_, transaction.
  intros Hr. right. exists schema, id, c, params, pp, wia. split; [by constructor|].
  destruct (token_tx _ _ _ _ _ _ _ _ _ (f s)) as [[a|e|] s1]; [by injection Hr as <- <-| |by injection Hr as <- <-].
  destruct (ends_issuance request e); [|by injection Hr as <- <-]. 
  change (match end_issuance (of_interaction id s) (f s) with
          | (Ok _, s2) => (Err e, s2) | (Err e', s2) => (Err e', s2) | (Panic, s2) => (Panic, s2) end = (r, s')) in Hr.
  by destruct (end_issuance (of_interaction id s) (f s)) as [[[]|e'|] s2]; injection Hr as <- <-.
Qed.

Lemma token_tx_grant schema id cs code tx wia a b c s s' :
  token_tx self schema id cs (PreAuthorizedCode code (Some tx)) wia a b c s = (Err (OpenId InvalidGrant), s') ->
  exists i d, interactions s !! id = Some i /\ data_of i = Some d /\ is_Some (id_transaction_code d).
Proof.
  unfold token_tx, get_interaction, M_map_err. run_M. destruct (interactions s !! id) as [i|] eqn:Hi; cbn [ok_or]; [|done].
  unfold interaction_data_to_dto, data_of. destruct (in_data i) as [v|] eqn:Hv; simpl; [|done].
  destruct (interaction_data_from_slice v) as [d|] eqn:Hd; simpl; [|done]. destruct (id_transaction_code d) as [tc|] eqn:Htc.
  - intros _. exists i, d. rewrite Hv. simpl. rewrite Htc. by eauto.
  - unfold oidc_issuer_create_token. run_M. rewrite Htc. destruct code; done.
Qed.

Lemma of_interaction_elem id s c : c ∈ of_interaction id s <-> c ∈ credentials (store s) /\ points_to s c id.
Proof. unfold of_interaction. rewrite list_elem_of_In, filter_In, <-list_elem_of_In, bool_decide_eq_true. done. Qed.

(** The credentials of an id in the list, when ids are unique. *)
Lemma ids_of_interaction id s c : vci_inv s -> c ∈ credentials (store s) -> credential_id c ∈ (credential_id <$> of_interaction id s) ->
  c ∈ of_interaction id s.
Proof.
  intros Hinv Hc (c' & Heq & Hc')%list_elem_of_fmap. assert (c = c') as ->; [|done]. apply of_interaction_elem in Hc' as [Hc' _].
  apply (find_credential_unique _ _ (vi_unique _ Hinv)) in Hc, Hc'. rewrite Heq in Hc. congruence.
Qed.

Lemma moves_with_interactions T id i s s' : moves T s s' ->
  moves T (with_interactions (<[id := i]> (interactions s)) s) (with_interactions (<[id := i]> (interactions s')) s').
Proof. intros [[Hi Hs] Hr Hc Hp Ht]. split; [|done..]. split; cbn; [by rewrite Hi|done]. Qed.

(** Only pending credentials are offered. *)
Lemma token_tx_moves d cs id i request wia schema a b c r0 r s s1 s2 s3 :
  oidc_issuer_create_token d cs id i request a b c s = (Ok r0, s1) -> for_each (offer_credential self request wia) cs s1 = (Ok tt, s2) ->
  with_refresh_token self schema id (clock (store s1)) c r0 s2 = (Ok r, s3) ->
  moves (set_some (credential_id <$> List.filter (fun _ => is_pre_authorized request) cs) CsOffered) s s3 /\
  (is_pre_authorized request = true -> forall c, c ∈ cs -> credential_state c = CsPending).
Proof.
  intros Ho Hfor Href. split.
  - etrans; [by eapply run_preserves; [apply preserves_quiet_moves, quiet_oidc_token|]|].
    etrans; [|by eapply run_preserves; [apply preserves_quiet_moves, quiet_refresh_token|]].
    eapply run_preserves; [|exact Hfor]. destruct (is_pre_authorized request) eqn:Hpre.
    + rewrite filter_true. apply offers_move.
    + apply preserves_quiet_moves, preserves_for_each; [typeclasses eauto|]. intros x. unfold offer_credential, data. rewrite Hpre. preserve.
  - destruct request as [code tx| |]; [|done..]. intros _. apply oidc_preauthorized_run in Ho as [Hex _]. apply Hex.
Qed.

Lemma create_token_lives f sid request w p : (forall s, f s = s) -> preserves lives (create_token (R := R) self schemas f sid request w p).
Proof.
  intros Hf s. pose proof (create_token_cases f sid request w p s) as Hcase. rewrite Hf in Hcase.
  destruct (create_token self schemas f sid request w p s) as [r s']. cbn [snd].
  destruct Hcase as [(_ & _ & ->)|(schema & id & c & params & pp & wia & _ & Hcase)]; [reflexivity|].
  destruct (token_tx _ _ _ _ _ _ _ _ _ s) as [[a|e|] s1] eqn:Ht; [..|by destruct Hcase as [_ ->]].
  - destruct Hcase as [_ ->].
    apply token_tx_run in Ht as (i & d & r0 & sa & sb & sc & d' & v & Hi & Hd & Ho & Hfor & Href & Hd' & Hv & Hfr & ->).
    destruct (token_tx_moves _ _ _ _ _ _ _ _ _ _ _ _ _ _ _ _ Ho Hfor Href) as [Hm Hpend].
    intros Hinv0. set (i' := set_data (Some v) i). destruct (data_of_response _ _ Hd') as (Hused & Hnone & _).
    assert (Hclosed : ~ open_offer i').
    { intros (d0 & Hd0 & Hu0). unfold i' in Hd0. rewrite (data_of_set _ _ _ Hv) in Hd0. congruence. }
    pose proof Hinv0 as Hinv. revert Hinv. change (lives s (with_interactions (<[id := i']> (interactions sc)) sc)).
    etrans; [apply (interaction_lives s id i i'); [done..|]|].
    { intros d0. unfold i'. rewrite (data_of_set _ _ _ Hv). intros [= <-] [tc Htc]. congruence. }
    eapply moves_lives; [by apply moves_with_interactions|].
    intros Hinv x b Hx [->|[Hin ->]]; [rewrite leads_to_refl; split; [done|]; intros; by eapply vi_open|].
    destruct (is_pre_authorized request); [rewrite filter_true in Hin|rewrite filter_false in Hin; by apply elem_of_nil in Hin].
    apply (ids_of_interaction id s x Hinv0 Hx) in Hin. rewrite (Hpend eq_refl x Hin). split; [done|]. intros id' j Hp Hj Hoj. exfalso.
    apply of_interaction_elem in Hin as [_ Hp']. change (points_to s x id') in Hp. assert (id' = id) as -> by (unfold points_to in *; congruence).
    cbn in Hj. rewrite lookup_insert_eq in Hj. injection Hj as <-. done.
  - destruct Hcase as (_ & _ & ->). destruct (ends_issuance request e) eqn:He; [|reflexivity].
    eapply moves_lives; [apply ended_move|]. intros Hinv x b Hx [->|[Hin ->]]; [rewrite leads_to_refl; split; [done|]; intros; by eapply vi_open|].
    unfold ends_issuance in He. repeat case_match; try done. subst. apply token_tx_grant in Ht as (i & d & Hi & Hd & Htc).
    apply ids_of_interaction, of_interaction_elem in Hin as [_ Hp]; [|done..].
    destruct (vi_open _ Hinv x id i Hx Hp Hi) as [-> |[-> | ->]]; [exists d; split; [done|by eapply vi_code]|..];
      (split; [done|]; intros; right; by right).
Qed.
End token_lives.

(** ** The credential endpoint *)

Section credential_lives.
Context {R : Type} `{SdCodec} `{HeaderCodec} `{!EqDecision PublicJwk} `{!PayloadCodec NonceJwtPayload} `{!PayloadCodec ProofOfPossession}
  `{!PayloadCodec WalletInstanceAttestationClaims} `{!PayloadCodec WalletUnitAttestationClaims} `{!PayloadCodec unit}
  `{VciLaws} `{!VciProviders} `{IssuanceMethods R}.
Context (self : OID4VCIService) (schemas : Z -> option IssuanceSchema).
Implicit Types (s : VciDb R).

(** The outcomes of [create_credential]: a check before the nonce is used
    fails; the nonce cannot be used; a check after it fails; the transaction
    fails or commits. *)
Lemma create_credential_cases f sid token request s : let '(r, s') := create_credential self schemas f sid token request s in
  (forall a, r <> Ok a) /\ s' = s \/
  exists schema id i d c jwt proof nonce params np nonce_id,
    credential_admitted self schemas s sid token request schema id i d c jwt proof nonce params np nonce_id /\
    match mark_nonce_as_used id nonce_id (f s) with
    | (Ok _, s1) =>
        (forall a, r <> Ok a) /\ s' = s1 \/
        exists holder, check_key_attestation self schema (credential_id c) (vp_key_attestation_leeway params) proof s1 = (Ok tt, s1) /\
          holder_of (credential_schema c ≫= schema_organisation) (vp_holder_binding proof) = Ok holder /\
          match issue_tx self id (fst holder) (snd holder) c (vp_key_attestation proof) (f s1) with
          | (Ok a, s2) => r = Ok a /\ s' = s2
          | (_, _) => (forall a, r <> Ok a) /\ s' = f s1
          end
    | (_, s1) => (forall a, r <> Ok a) /\ s' = s1
    end.
Proof.
  destruct (create_credential self schemas f sid token request s) as [r s'] eqn:Hr. unfold create_credential in Hr. revert Hr. run_M.
  unfold get_schema. destruct (schemas sid) as [schema|] eqn:Hs; cbn [ok_or]; [|by intros [= <- <-]; left].
  destruct (throw_if_credential_request_invalid schema request) as [[]|e|] eqn:Hreq; [|by intros [= <- <-]; left..].
  destruct (parse_access_token token) as [id|e|] eqn:Hid; cbn [map_err]; [|by intros [= <- <-]; left..]. unfold get_interaction.
  destruct (interactions s !! id) as [i|] eqn:Hi; cbn [ok_or]; [|by intros [= <- <-]; left].
  destruct (interaction_data_to_dto i) as [d|e|] eqn:Hd; [|by intros [= <- <-]; left..]. unfold now_utc, throw_if_access_token_invalid.
  destruct (is_access_token_valid (clock (store s)) d token) eqn:Hv; cbn [negb fail_if]; [|by intros [= <- <-]; left].
  unfold get_credentials_by_interaction_id.
  destruct (find_first (has_schema sid) (of_interaction id s)) as [c|] eqn:Hc; cbn [ok_or]; [|by intros [= <- <-]; left].
  destruct (validate_issuance_protocol_type self _) as [[]|e|] eqn:Ht; [|by intros [= <- <-]; left..].
  destruct (first_proof (cr_proofs request)) as [jwt|e|] eqn:Hj; [|by intros [= <- <-]; left..].
  destruct (verify_proof jwt authentication_verifier) as [proof|e|] eqn:Hp; cbn [map_err]; [|by intros [= <- <-]; left..].
  destruct (vp_proof_nonce proof) as [nonce|] eqn:Hn; cbn [ok_or]; [|by intros [= <- <-]; left].
  destruct (protocol_params self _) as [params|e|] eqn:Hpp; [|by intros [= <- <-]; left..].
  destruct (vp_nonce params) as [np|] eqn:Hnp; cbn [ok_or]; [|by intros [= <- <-]; left].
  destruct (validate_nonce np (sv_base_url self) nonce (clock (store s))) as [nonce_id|e|] eqn:Hnid; cbn [map_err]; [|by intros [= <- <-]; left..].
  unfold others, M_map_err at 1. intros Hr. right. exists schema, id, i, d, c, jwt, proof, nonce, params, np, nonce_id. split; [by constructor|].
  destruct (mark_nonce_as_used id nonce_id (f s)) as [[[]|e|] s1]; cbn [map_err] in Hr; [|by injection Hr as <- <-..].
  destruct (check_key_attestation _ _ _ _ _ s1) as [rk s2] eqn:Hk. apply check_attestation_reads in Hk as Heq. subst s2.
  destruct rk as [[]|e|]; [|by injection Hr as <- <-; left..].
  destruct (holder_of _ _) as [holder|e|] eqn:Hh; [|by injection Hr as <- <-; left..]. right. exists holder. split_and!; [done..|].
  unfold transaction in Hr. destruct (issue_tx _ _ _ _ _ _ (f s1)) as [[a|e|] s2]; by injection Hr as <- <-.
Qed.

(** What an admitted request knows of its interaction and its credential. *)
Lemma admitted_used s sid token request schema id i d c jwt proof nonce params np nonce_id :
  credential_admitted self schemas s sid token request schema id i d c jwt proof nonce params np nonce_id ->
  ~ open_offer i /\ c ∈ credentials (store s) /\ points_to s c id.
Proof.
  intros Ha. split.
  - intros (d0 & Hd0 & Hu). apply data_of_dto in Hd0. pose proof (ca_data _ _ _ _ _ _ _ _ _ _ _ _ _ _ _ _ _ Ha) as Hd. assert (d0 = d) as -> by congruence.
    pose proof (ca_valid _ _ _ _ _ _ _ _ _ _ _ _ _ _ _ _ _ Ha) as Hv. unfold is_access_token_valid in Hv. by rewrite Hu in Hv.
  - apply of_interaction_elem. eapply find_first_Some, Ha.
Qed.

(** The transaction of an issuance, for a credential whose code was exchanged. *)
Lemma issue_tx_lives id h k c ka s a s' i : issue_tx self id h k c ka s = (Ok a, s') -> interactions s !! id = Some i -> ~ open_offer i ->
  c ∈ credentials (store s) -> points_to s c id -> lives s s'.
Proof.
  intros Ht Hi Hclosed Hin Hp.
  apply issue_tx_run in Ht as (i2 & d2 & blob & sa & t & n & sb & sc & v & Hi2 & Hd2 & Hwua & Hiss & Hupd & Hv & Hfr & -> & _).
  assert (i2 = i) as -> by congruence.
  set (i' := set_data (Some v) i). apply data_of_dto in Hd2.
  assert (Hclosed' : ~ open_offer i').
  { intros (d0 & Hd0 & Hu0). apply Hclosed. exists d2. split; [done|]. unfold i' in Hd0. rewrite (data_of_set _ _ _ Hv) in Hd0. by simplify_eq. }
  apply issue_run in Hiss as (c0 & _ & ft & _ & _ & Hc0 & _ & _ & Hiss & _ & _ & _ & _ & Hmv).
  assert (Hq : quiet s sa) by (eapply run_preserves; [apply quiet_store_wua|exact Hwua]).
  assert (Hmoves : moves (set_some [credential_id c] CsAccepted) s sc).
  { etrans; [by apply quiet_moves; [intros ? ?; left|exact Hq]|]. etrans; [exact Hmv|]. apply quiet_moves; [intros ? ?; by left|].
    eapply run_preserves; [|exact Hupd]. by apply quiet_update. }
  intros Hinv0. pose proof Hinv0 as Hinv. revert Hinv. change (lives s (with_interactions (<[id := i']> (interactions sc)) sc)).
  etrans; [apply (interaction_lives s id _ i' Hi); [done|]|].
  { intros d0. unfold i'. rewrite (data_of_set _ _ _ Hv). intros [= <-]. cbn. by apply (vi_code _ Hinv0 id _ d2 Hi). }
  eapply moves_lives; [by apply moves_with_interactions|].
  intros Hinv x b Hx [->|[Heq%list_elem_of_singleton ->]]; [rewrite leads_to_refl; split; [done|]; intros; by eapply vi_open|].
  change (x ∈ credentials (store s)) in Hx.
  assert (x = c) as ->.
  { apply (find_credential_unique _ _ (vi_unique _ Hinv0)) in Hx, Hin. rewrite Heq in Hx. congruence. }
  split.
  - destruct (moves_find _ _ _ _ _ Hq (find_credential_unique _ _ (vi_unique _ Hinv0) Hin)) as (c1 & Hc1 & Hrow).
    assert (c1 = c0) as -> by congruence. pose proof (rm_state _ _ _ Hrow) as Hst. unfold issuable in Hiss.
    destruct Hiss as [Ho|[Ho _]]; rewrite Hst in Ho; by rewrite Ho.
  - intros id' j Hp' Hj Hoj. exfalso. change (points_to s c id') in Hp'. assert (id' = id) as -> by (unfold points_to in *; congruence).
    cbn in Hj. rewrite lookup_insert_eq in Hj. injection Hj as <-. done.
Qed.

Lemma create_credential_lives f sid token request : (forall s, f s = s) -> preserves lives (create_credential (R := R) self schemas f sid token request).
Proof.
  intros Hf s. pose proof (create_credential_cases f sid token request s) as Hcase. rewrite Hf in Hcase.
  destruct (create_credential self schemas f sid token request s) as [r s']. cbn [snd].
  destruct Hcase as [[_ ->]|(schema & id & i & d & c & jwt & proof & nonce & params & np & nonce_id & Ha & Hcase)]; [reflexivity|].
  pose proof (mark_nonce_lives id nonce_id s) as Hmark.
  destruct (mark_nonce_as_used id nonce_id s) as [[[]|e|] s1] eqn:Hm; [|by destruct Hcase as [_ ->]..].
  destruct Hcase as [[_ ->]|(holder & _ & _ & Hcase)]; [done|]. rewrite Hf in Hcase. etrans; [exact Hmark|].
  destruct (issue_tx _ _ _ _ _ _ s1) as [[a|e|] s2] eqn:Ht; [|by destruct Hcase as [_ ->]..]. destruct Hcase as [_ ->].
  destruct (admitted_used _ _ _ _ _ _ _ _ _ _ _ _ _ _ _ Ha) as (Hclosed & Hin & Hp).
  apply mark_nonce_run in Hm as (i0 & Hi0 & _ & _ & ->). set (s1 := with_interactions _ s) in *.
  pose proof (ca_interaction _ _ _ _ _ _ _ _ _ _ _ _ _ _ _ _ _ Ha) as Hi. assert (i0 = i) as -> by congruence. cbn [snd] in Hmark |- *.
  assert (Hi1 : interactions s1 !! id = Some (set_nonce nonce_id i)) by (unfold s1; cbn; by rewrite lookup_insert_eq).
  by eapply (issue_tx_lives id _ _ _ _ s1).
Qed.
End credential_lives.

(** ** The other operations *)

Section other_lives.
Context {R : Type} `{SdCodec} `{HeaderCodec} `{!EqDecision PublicJwk} `{!PayloadCodec NonceJwtPayload} `{!PayloadCodec ProofOfPossession}
  `{!PayloadCodec WalletInstanceAttestationClaims} `{!PayloadCodec WalletUnitAttestationClaims} `{!PayloadCodec unit}
  `{VciLaws} `{!VciProviders} `{IssuanceMethods R}.
Context (self : OID4VCIService) (schemas : Z -> option IssuanceSchema).
Implicit Types (s : VciDb R).

Lemma notifiable_states st event new : notifiable st event = Ok true -> event_state event = Some new ->
  leads_to st new = true.
Proof. by destruct st, event; intros [=]; intros [= <-]. Qed.

Lemma notification_lives sid token request : preserves lives (handle_notification (R := R) self sid token request).
Proof.
  intros s. unfold handle_notification. run_M.
  destruct (map_err OpenId (parse_access_token token)) as [id|e|]; [|reflexivity..]. unfold get_interaction.
  destruct (interactions s !! id) as [i|] eqn:Hi; cbn [ok_or]; [|reflexivity].
  destruct (interaction_data_to_dto i) as [d|e|] eqn:Hd; [|reflexivity..]. unfold now_utc, throw_if_access_token_invalid.
  destruct (is_access_token_valid (clock (store s)) d token) eqn:Hv; cbn [negb fail_if]; [|reflexivity].
  destruct (fail_if _ _) as [[]|e|]; [|reflexivity..]. unfold get_credentials_by_interaction_id.
  destruct (find_first (has_schema sid) (of_interaction id s)) as [c|] eqn:Hc; cbn [ok_or]; [|reflexivity].
  destruct (validate_issuance_protocol_type self _) as [[]|e|]; [|reflexivity..].
  destruct (notifiable _ _) as [processed|e|] eqn:Hn; [|reflexivity..].
  destruct (if processed then _ else _) as [new|] eqn:Hnew; [|reflexivity]. destruct processed; [|done].
  destruct (bool_decide _); [reflexivity|]. destruct (ok_or (credential_schema c) _) as [schema|e|]; [|reflexivity..].
  destruct (match revocation_method schema with Some _ => _ | None => _ end) as [method|e|]; [|reflexivity..].
  assert (Hclosed : ~ open_offer i).
  { intros (d0 & Hd0%data_of_dto & Hu). assert (d0 = d) as -> by congruence. unfold is_access_token_valid in Hv. by rewrite Hu in Hv. }
  apply find_first_Some in Hc as [[Hin Hp]%of_interaction_elem _].
  match goal with |- lives s ?s' => assert (Hm : moves (set_some [credential_id c] new) s s') end.
  { match goal with |- moves _ s (match data ?u s with _ => _ end).2 => pose proof (set_update (R := R) (credential_id c) (state_update new) new [credential_id c]
      eq_refl eq_refl ltac:(left) s) as Hu; unfold data, M_map_err; destruct (vci_update_credential _ _ s) as [[[]|e|] s1] end; cbn in Hu |- *; [|done..].
    destruct method as [method|]; [|done]. destruct (_ && _); [|done]. etrans; [exact Hu|].
    eapply (preserves_quiet_moves _ _ (M_map_err VciRevocation _)). apply preserves_map_err, quiet_revocation. }
  eapply moves_lives; [exact Hm|]. intros Hinv x b Hx [->|[Heq%list_elem_of_singleton ->]];
    [rewrite leads_to_refl; split; [done|]; intros; by eapply vi_open|].
  assert (x = c) as ->.
  { apply (find_credential_unique _ _ (vi_unique _ Hinv)) in Hx, Hin. rewrite Heq in Hx. congruence. }
  split; [by eapply notifiable_states|]. intros id' j Hp' Hj Hoj. exfalso. unfold points_to in *. simplify_eq. done.
Qed.

Lemma expired_lives {E : Type} : preserves lives (update_expired_credentials (R := R) (E := E)).
Proof.
  intros s. eapply (moves_lives (fun _ a b => b = a \/ a = CsPending /\ b = CsInteractionExpired)).
  - split; [by split| |done..]. cbn. apply Forall2_fmap_r, Forall_Forall2_diag, Forall_true. intros c. cbn.
    destruct (interaction_expired s c) eqn:Hb; [|split; try done; by left].
    unfold interaction_expired in Hb. apply andb_prop in Hb as [Hst%bool_decide_eq_true _]. unfold apply_update. rewrite Z.eqb_refl. split; try done. right. done.
  - intros Hinv c b Hc [->|[-> ->]]; [rewrite leads_to_refl; split; [done|]; intros; by eapply vi_open|].
    split; [done|]. intros. right. by left.
Qed.

End other_lives.

Lemma store_lives {R : Type} `{VciLaws} `{RevocationMethodProvider R} (s : VciDb R) (st : Store R) : validity_step (store s) st -> lives s (with_store st s).
Proof.
  intros Hstep. pose proof (validity_same_ids _ _ Hstep) as Hids. pose proof (validity_step_evolves _ _ Hstep) as Hev. intros [Hu Hd Hc Ho Hcode].
  assert (Hu' : unique_ids st) by (unfold unique_ids, same_ids in *; by rewrite Hids).
  assert (Hback : forall c', c' ∈ credentials st -> exists c, c ∈ credentials (store s) /\ credential_id c = credential_id c' /\
            lifecycle (credential_state c) (credential_state c')).
  { intros c' Hc'. assert (Hin : credential_id c' ∈ credential_id <$> credentials (store s)).
    { rewrite <-Hids. by apply list_elem_of_fmap_2. }
    apply list_elem_of_fmap in Hin as (c & Heq & Hin). exists c. split_and!; [done..|].
    destruct (Hev _ _ (find_credential_unique _ _ Hu Hin)) as (c2 & Hc2 & Hl & _).
    apply (find_credential_unique _ _ Hu') in Hc'. rewrite <-Heq in Hc2. assert (c2 = c') as -> by congruence. done. }
  split; [split|].
  - done.
  - done.
  - intros c' id Hc' Hp. destruct (Hback c' Hc') as (c & Hin & Heq & _). apply (Hc c); [done|]. unfold points_to in *. by rewrite Heq.
  - intros c' id i Hc' Hp Hi Hop. destruct (Hback c' Hc') as (c & Hin & Heq & Hl).
    assert (Hb : before_exchange (credential_state c)) by (eapply Ho; [done| |done..]; unfold points_to in *; by rewrite Heq).
    unfold before_exchange, lifecycle in *. intuition congruence.
  - done.
  - intros id c Hfind. destruct (Hev id c Hfind) as (c' & Hc' & Hl & Hr & Hs & _). exists c'. split_and!; try done.
    unfold lifecycle in Hl. destruct Hl as [->|[[-> | ->] [-> |[-> | ->]]]]; try done. apply leads_to_refl.
Qed.

(** ** Offers *)

Section share_lives.
Context {R : Type} `{VciLaws} `{ShareWorld}.
Context (self : OID4VCIService) (schemas : Z -> option IssuanceSchema).
Implicit Types (s : VciDb R).

Lemma quiet_issuer_share params c p : preserves quiet (issuer_share_credential (R := R) self schemas params c p).
Proof. unfold issuer_share_credential, generate_transaction_code. preserve. Qed.

(** A new interaction that no credential has. *)
Lemma create_lives id i s : (forall c, c ∈ credentials (store s) -> ~ points_to s c id) -> ~ undrawn s id ->
  (forall d, data_of i = Some d -> is_Some (id_transaction_code d) -> id_pre_authorized_code_used d = false) ->
  lives s (create_interaction id i s).2.
Proof.
  intros Hfree Hdrawn Hcd. unfold create_interaction. destruct (interactions s !! id) as [i0|] eqn:Hid; [reflexivity|].
  intros [Hu Hd Hc Ho Hcode]. split; [|intros x c Hx; exists c; by rewrite leads_to_refl]. split; [done| |done| |].
  - intros x. cbn. rewrite lookup_insert_is_Some. intros [<-|[_ Hx]]; [done|by apply Hd].
  - intros c x j Hin Hp Hj. cbn in Hj. destruct (decide (id = x)) as [->|]; [by destruct (Hfree c Hin)|].
    rewrite lookup_insert_ne in Hj by done. by eapply Ho.
  - intros x j d Hj. cbn in Hj. destruct (decide (id = x)) as [->|]; [rewrite lookup_insert_eq in Hj|rewrite lookup_insert_ne in Hj by done].
    + injection Hj as <-. apply Hcd.
    + by eapply Hcode.
Qed.

(** A credential that can be shared gets a new interaction. *)
Lemma offer_lives id u new s c : find_credential id (store s) = Some c -> shareable (credential_state c) = true -> ~ undrawn s new ->
  default (credential_state c) (cu_state u) = CsPending -> cu_interaction u = Some new -> lives s (update_row id u s).
Proof.
  intros Hfind Hsh Hdrawn Hst Hnew [Hu Hd Hc Ho Hcode]. apply find_credential_Some in Hfind as Hin. destruct Hin as [Hin Hid].
  assert (Hcols : forall x, x <> id -> columns_of x (update_row id u s) = columns_of x s).
  { intros x Hx. unfold columns_of, update_row. cbn. by rewrite lookup_insert_ne. }
  assert (Hcol : ic_interaction_id (columns_of id (update_row id u s)) = Some new).
  { unfold columns_of, update_row. cbn. rewrite lookup_insert_eq. cbn. by rewrite Hnew. }
  assert (Hrow : forall c', c' ∈ credentials (store (update_row id u s)) -> exists c0, c0 ∈ credentials (store s) /\ credential_id c' = credential_id c0 /\
            (credential_id c0 = id -> credential_state c' = CsPending) /\ (credential_id c0 <> id -> c' = c0)).
  { intros c' (c0 & -> & Hc0)%list_elem_of_fmap. exists c0. split; [done|]. split; [apply apply_update_id|]. split; [|apply apply_update_other].
    intros Heq. assert (c0 = c) as ->. { apply (find_credential_unique _ _ Hu) in Hc0. rewrite Heq in Hc0. congruence. }
    unfold apply_update. rewrite Heq, Z.eqb_refl. done. }
  split; [split|].
  - apply unique_ids_map; [|done]. intros ?. apply apply_update_id.
  - done.
  - intros c' x Hc' Hp. destruct (Hrow c' Hc') as (c0 & Hc0 & Heq & _ & Hother). unfold points_to in Hp. rewrite Heq in Hp.
    destruct (decide (credential_id c0 = id)) as [Heq'|Hne]; [rewrite Heq', Hcol in Hp; by simplify_eq|].
    rewrite Hcols in Hp by done. by apply (Hc c0).
  - intros c' x i Hc' Hp Hi Hop. destruct (Hrow c' Hc') as (c0 & Hc0 & Heq & Hpend & Hother). unfold points_to in Hp. rewrite Heq in Hp.
    destruct (decide (credential_id c0 = id)) as [Heq'|Hne]; [left; by apply Hpend|]. rewrite Hcols in Hp by done. rewrite (Hother Hne). by eapply Ho.
  - done.
  - intros x cx Hx. exists (apply_update id (row_update u) cx). unfold update_row at 1. cbn [store].
    rewrite find_credential_map, Hx by (intros ?; apply apply_update_id). split; [done|]. apply find_credential_Some in Hx as Hxin. destruct Hxin as [_ Hxid].
    destruct (decide (x = id)) as [->|Hne].
    + assert (cx = c) as -> by congruence. unfold apply_update. rewrite Hid, Z.eqb_refl. cbn. rewrite Hst.
      split_and!; [|done..|by rewrite Hsh]. destruct (credential_state c); done.
    + rewrite apply_update_other by congruence. rewrite leads_to_refl. split_and!; [done..|]. intros _. by rewrite Hcols.
Qed.

(** The writes of an offer. *)
Lemma share_writes_live {A : Type} id c new i (previous : option Z) (r : A) s : find_credential id (store s) = Some c ->
  shareable (credential_state c) = true -> ~ undrawn s new -> (forall c, c ∈ credentials (store s) -> ~ points_to s c new) ->
  (forall d, data_of i = Some d -> is_Some (id_transaction_code d) -> id_pre_authorized_code_used d = false) ->
  lives s ((_ ← M_map_err ShData (create_interaction new i);
            _ ← M_map_err ShData (vci_update_credential id
                  (mkCredentialUpdate (if bool_decide (credential_state c = CsPending) then None else Some CsPending) None (Some new) None None None None));
            _ ← match previous with Some previous => delete_interaction previous | None => mret tt end;
            mret r) s).2.
Proof.
  intros Hc Hsh Hdrawn Hfree Hcd. pose proof (create_lives new i s Hfree Hdrawn Hcd) as Hl. apply (bind_post (lives s)).
  - unfold M_map_err. by destruct (create_interaction new i s).
  - intros [] s1 Hr%map_err_run. rewrite Hr in Hl. cbn [snd] in Hl. etrans; [exact Hl|].
    assert (Hs1 : store s1 = store s /\ supply s1 = supply s).
    { unfold create_interaction in Hr. destruct (interactions s !! new); [done|]. by injection Hr as <-. }
    destruct Hs1 as [Hst Hsup]. set (u := mkCredentialUpdate _ _ _ _ _ _ _). assert (Hoffer : lives s1 (update_row id u s1)).
    { apply (offer_lives id u new s1 c); [by rewrite Hst|done| |unfold u; cbn; by case_bool_decide|done].
      intros (k & Hk & Heq). apply Hdrawn. exists k. by rewrite <-Hsup. }
    apply (bind_post (lives s1)); [unfold M_map_err, vci_update_credential; by rewrite Hst, Hc|].
    intros [] s2 Hr2%map_err_run. unfold vci_update_credential in Hr2. rewrite Hst, Hc in Hr2. injection Hr2 as <-. etrans; [exact Hoffer|].
    match goal with |- lives ?x (?m ?x).2 => enough (Hm : preserves lives m) by apply Hm end. destruct previous; preserve.
Qed.

Lemma share_lives session id : preserves lives (share_credential (R := R) self schemas session id).
Proof.
  intros s. unfold share_credential. run_M. unfold vci_get_credential.
  destruct (find_credential id (store s)) as [c|] eqn:Hc; cbn [ok_or]; [|reflexivity].
  destruct (fail_if (bool_decide (deleted_at c <> None)) _) as [[]|e|]; [|reflexivity..].
  destruct (ok_or (credential_schema c) _) as [schema|e|]; [|reflexivity..].
  destruct (map_err _ (throw_if_org_relation_not_matching_session _ _)) as [[]|e|]; [|reflexivity..].
  destruct (shareable (credential_state c)) eqn:Hsh; cbn [negb fail_if]; [|reflexivity].
  destruct (ok_or (issuer_identifier c) _) as [issuer|e|]; [|reflexivity..].
  destruct (fail_if (negb (identifier_active _)) _) as [[]|e|]; [|reflexivity..].
  destruct (ok_or (schema_organisation schema) _) as [org|e|]; [|reflexivity..].
  destruct (fail_if (negb (has_protocol _)) _) as [[]|e|]; [|reflexivity..].
  destruct (map_err _ (protocol_params self _)) as [params|e|]; [|reflexivity..].
  pose proof (quiet_issuer_share params c (ic_protocol (columns_of id s)) s) as Hq.
  destruct (issuer_share_credential self schemas params c _ s) as [[r|e|] s1] eqn:Hr; cbn [snd] in Hq; [|by apply quiet_lives..].
  apply issuer_share_run in Hr as (Hid & Hsup & schema' & code & _ & _ & _ & _ & Hdata & _). unfold now_utc.
  intros Hinv. destruct (quiet_lives _ _ Hq Hinv) as [Hinv1 Hlife1]. destruct (moves_find _ _ _ _ _ Hq Hc) as (c1 & Hc1 & Hrow1).
  set (ni := mkInteraction (clock (store s1)) (Some (sr_interaction_data r)) org None Issuance (Some (sr_expires_at r))).
  assert (Htail := share_writes_live (A := ShareResponse) id c1 (sr_interaction_id r) ni (ic_interaction_id (columns_of id s)) r s1 Hc1).
  rewrite (rm_state _ _ _ Hrow1) in Htail. destruct (Htail Hsh) as [Hinv2 Hlife2]; [..|exact Hinv1|].
  - intros (k & Hk & Heq). rewrite Hid in Heq. apply uuid_fresh in Heq. lia.
  - intros c0 Hc0 Hp. destruct (rows_elem _ _ _ _ (mv_rows _ _ _ Hq) Hc0) as (cs & Hcs & Hrow).
    apply (vi_columns _ Hinv cs (sr_interaction_id r) Hcs); [|exists (supply s); by split].
    unfold points_to in *. by rewrite <-(mv_columns _ _ _ Hq), <-(rm_id _ _ _ Hrow).
  - intros d. unfold data_of, ni. cbn. rewrite (interaction_data_reads _ _ Hdata). by intros [= <-].
  - split; [exact Hinv2|]. etrans; [exact Hlife1|exact Hlife2].
Qed.
End share_lives.

Section lockout.
Context {R : Type} `{SdCodec} `{HeaderCodec} `{!EqDecision PublicJwk} `{!PayloadCodec NonceJwtPayload} `{!PayloadCodec ProofOfPossession}
  `{!PayloadCodec WalletInstanceAttestationClaims} `{!PayloadCodec WalletUnitAttestationClaims} `{!PayloadCodec unit}
  `{VciLaws} `{!VciProviders} `{IssuanceMethods R}.
Context (self : OID4VCIService) (schemas : Z -> option IssuanceSchema).
Implicit Types (s : VciDb R).

(** Ended credentials are in the error state. *)
Lemma end_issuance_rows cs s c : (forall x, x ∈ cs -> is_Some (find_credential (credential_id x) (store s))) -> c ∈ cs ->
  exists c', find_credential (credential_id c) (store (end_issuance cs s).2) = Some c' /\ credential_state c' = CsError.
Proof.
  revert s. induction cs as [|x cs IH]; intros s Hall Hc; [by apply elem_of_nil in Hc|].
  destruct (Hall x ltac:(left)) as [cx Hx]. 
  pose proof (set_update (R := R) (credential_id x) (state_update CsError) CsError [credential_id x] eq_refl eq_refl ltac:(left) s) as Hmv.
  destruct (vci_update_credential (credential_id x) (state_update CsError) s) as [r s1] eqn:Hu.
  assert (r = Ok tt) as -> by (unfold vci_update_credential in Hu; rewrite Hx in Hu; by injection Hu as <-). cbn [snd] in Hmv.
  assert (Heq : end_issuance (x :: cs) s = end_issuance cs s1).
  { change (match M_map_err VciData (vci_update_credential (credential_id x) (state_update CsError)) s with
            | (Ok _, s') => end_issuance cs s' | (Err e, s') => (Err e, s') | (Panic, s') => (Panic, s') end = end_issuance cs s1).
    unfold M_map_err. by rewrite Hu. }
  rewrite Heq. apply update_find in Hu as (c0 & c1 & _ & Hc1 & Hst1). apply elem_of_cons in Hc as [->|Hc].
  - destruct (moves_find _ _ _ _ _ (ended_move cs s1) Hc1) as (c2 & Hc2 & Hrow). exists c2. split; [exact Hc2|].
    destruct (rm_state _ _ _ Hrow) as [->|[_ ->]]; [by rewrite Hst1|done].
  - apply IH; [|done]. intros y Hy. destruct (Hall y ltac:(by right)) as [cy Hcy].
    destruct (moves_find _ _ _ _ _ Hmv Hcy) as (cy' & Hcy' & _). by eexists.
Qed.
End lockout.

(** ** The result of an exchange *)

Section exchanged.
Context {R : Type} `{SdCodec} `{HeaderCodec} `{!EqDecision PublicJwk} `{!PayloadCodec NonceJwtPayload} `{!PayloadCodec ProofOfPossession}
  `{!PayloadCodec WalletInstanceAttestationClaims} `{!PayloadCodec WalletUnitAttestationClaims} `{!PayloadCodec unit}
  `{VciLaws} `{!VciProviders} `{IssuanceMethods R}.
Context (self : OID4VCIService).
Implicit Types (s : VciDb R).

Lemma offers_rows request w cs s s' c : is_pre_authorized request = true ->
  for_each (offer_credential self request w) cs s = (Ok tt, s') -> c ∈ cs ->
  exists c', find_credential (credential_id c) (store s') = Some c' /\ credential_state c' = CsOffered.
Proof.
  intros Hpre. revert s. induction cs as [|x cs IH]; intros s Hr Hc; [by apply elem_of_nil in Hc|].
  cbn [for_each] in Hr. apply bind_run in Hr as ([] & s1 & Hx & Hr). apply elem_of_cons in Hc as [->|Hc]; [|by eapply IH].
  unfold offer_credential, data in Hx. rewrite Hpre in Hx. apply bind_run in Hx as (blob & s0 & _ & Hx). cbv zeta in Hx.
  rewrite orb_true_r in Hx. apply map_err_run, update_find in Hx as (c0 & c1 & _ & Hc1 & Hst1).
  destruct (moves_find _ _ _ _ _ (run_preserves _ _ _ _ _ (offers_move self request w cs) Hr) Hc1) as (c2 & Hc2 & Hrow).
  exists c2. split; [exact Hc2|]. destruct (rm_state _ _ _ Hrow) as [->|[_ ->]]; [by rewrite Hst1|done].
Qed.

Lemma refresh_run schema id now e r0 r s s' : with_refresh_token self schema id now e r0 s = (Ok r, s') ->
  tr_access_token r = tr_access_token r0 /\ tr_expires_in r = tr_expires_in r0.
Proof.
  unfold with_refresh_token. intros Hr. apply bind_run in Hr as (ft & s1 & _ & Hr). destruct (bool_decide _).
  - by inv_run Hr.
  - by apply ret_run in Hr as [<- _].
Qed.

(** The stored data admits the token until it expires. *)
Lemma response_admits r d now : interaction_data_of_response r = Ok d ->
  is_access_token_valid now d (tr_access_token r) = (now <? nanos (tr_expires_in r)).
Proof.
  intros (Hu & _ & Hh & He)%data_of_response. unfold is_access_token_valid. by rewrite Hu, <-Hh, String.eqb_refl, He.
Qed.

Lemma drawn_token_parses id k : parse_access_token (drawn_token id k) = Ok id.
Proof.
  unfold parse_access_token, drawn_token. change ("." ++ alphanumeric_at k 32)%string with (String dot (alphanumeric_at k 32)).
  rewrite split_on_app by apply uuid_no_dot. rewrite split_on_plain by apply alphanumeric_no_dot. by rewrite uuid_reads.
Qed.
End exchanged.
