(* ===== verification/VciTheorems.v ===== *)
(** * OpenID4VCI issuance: theorems

    What the issuer side of OpenID4VCI promises: a code is exchanged once, a
    credential is issued once, to the holder of the key that signed the proof,
    and only for a token, a nonce and attestations that are valid. Other clients
    may commit between the reads of a call and its transaction: the theorems
    that say so hold whatever they do, as long as it is [progress], which every
    operation of the service is. *)

From S2P Require Import Prelude Paths StatusBits KeySelection RevocationRepo RevocationMethod TokenMethod ListFilter Validity.
From S2P Require Import SdDisclosures SdIssue SdToken Jwt VciStore VciService VciSpec VciLife.
From Stdlib Require Import Ascii String.
#[local] Open Scope Z_scope.
#[local] Notation length := Datatypes.length.

Section theorems.
Context {R : Type} `{SdCodec} `{HeaderCodec} `{!EqDecision PublicJwk} `{!PayloadCodec NonceJwtPayload} `{!PayloadCodec ProofOfPossession}
  `{!PayloadCodec WalletInstanceAttestationClaims} `{!PayloadCodec WalletUnitAttestationClaims} `{!PayloadCodec unit}
  `{VciLaws} `{!VciProviders} `{IssuanceMethods R} `{RevocationMethodProvider R} `{ShareWorld}.
Implicit Types (s : VciDb R) (self : OID4VCIService) (schemas : Z -> option IssuanceSchema).

(** What can happen to the tables: the endpoints, for any instance of the
    service, offers, expiry, and the operations on the validity of credentials,
    with the passing of time. [rely] is what other calls may do in between. *)
Inductive vci_step (rely : (VciDb R -> VciDb R) -> Prop) s : VciDb R -> Prop :=
| StepShare self schemas session id : vci_step rely s (share_credential self schemas session id s).2
| StepToken self schemas interfere sid request w p : rely interfere ->
    vci_step rely s (create_token self schemas interfere sid request w p s).2
| StepNonce self protocol : vci_step rely s (nonce_endpoint self protocol s).2
| StepCredential self schemas interfere sid token request : rely interfere ->
    vci_step rely s (create_credential self schemas interfere sid token request s).2
| StepNotification self sid token request : vci_step rely s (handle_notification self sid token request s).2
| StepExpire : vci_step rely s (update_expired_credentials (E := VciError) s).2
| StepStore st : validity_step (store s) st -> vci_step rely s (with_store st s).

(** Other calls run at the same time, or not at all. *)
Definition concurrent (f : VciDb R -> VciDb R) : Prop := forall s, progress s (f s).
Definition alone (f : VciDb R -> VciDb R) : Prop := forall s, f s = s.

Lemma step_progress s s' : vci_step concurrent s s' -> progress s s'.
Proof.
  destruct 1.
  - apply share_progress.
  - by apply create_token_progress.
  - apply frame_progress, frame_nonce_endpoint.
  - by apply create_credential_progress.
  - apply frame_progress, frame_notification.
  - apply frame_progress, frame_expired.
  - apply frame_progress. by split.
Qed.

Lemma steps_progress s s' : rtc (vci_step concurrent) s s' -> progress s s'.
Proof. induction 1 as [|s1 s2 s3 H12 _ IH]; [reflexivity|]. etrans; [by apply step_progress|done]. Qed.

(** After a row was seen it has progressed. *)
Lemma row_later s s' id i i' : ids_drawn s -> progress s s' -> interactions s !! id = Some i -> interactions s' !! id = Some i' ->
  (forall n, in_nonce_id i = Some n -> in_nonce_id i' = Some n) /\ (used_code i = true -> used_code i' = true).
Proof.
  intros Hd Hp Hi Hi'. pose proof (pg_rows _ _ Hp id) as Hrow. rewrite Hi, Hi' in Hrow.
  destruct Hrow as (i0 & [= <-] & Hn & Hu); [|done]. apply Hd. by eexists.
Qed.

(** A token was made for a code that was not used, which is used after it. *)
Lemma token_uses_code self schemas interfere sid code tx w p s r s' :
  create_token self schemas interfere sid (PreAuthorizedCode code tx) w p s = (Ok r, s') ->
  exists id i i', uuid_from_str code = Some id /\ interactions (interfere s) !! id = Some i /\ used_code i = false /\
    interactions s' !! id = Some i' /\ used_code i' = true.
Proof.
  intros (schema & id & c & params & pp & wia & Ha & Ht)%create_token_run.
  apply token_tx_run in Ht as (i & d & r0 & s1 & s2 & s3 & d' & v & Hi & Hd & Ho & _ & _ & Hd' & Hv & Hf & ->).
  exists id, i, (set_data (Some v) i). pose proof (ta_interaction _ _ _ _ _ _ _ _ _ _ _ _ _ Ha) as Hid%ok_or_ok.
  apply oidc_preauthorized_run in Ho as (Hex & _). split_and!; [done|done| |cbn; by rewrite lookup_insert_eq|].
  - rewrite (used_code_dto _ _ Hd). apply Hex.
  - rewrite (used_code_data _ _ _ Hv). by destruct (data_of_response _ _ Hd').
Qed.

(** C7: a pre-authorized code is exchanged at most once. After a token request
    with the code succeeded, whatever calls run, alone or at the same time, no
    request with the code succeeds, at any instance of the service, also when
    other calls commit between its reads and its transaction. *)
Theorem token_once self schemas f sid code tx w p s r s1 s2 self' schemas' g sid' code' tx' w' p' r' s3 :
  ids_drawn s -> concurrent f -> concurrent g ->
  create_token self schemas f sid (PreAuthorizedCode code tx) w p s = (Ok r, s1) -> rtc (vci_step concurrent) s1 s2 ->
  uuid_from_str code' = uuid_from_str code ->
  create_token self' schemas' g sid' (PreAuthorizedCode code' tx') w' p' s2 <> (Ok r', s3).
Proof.
  intros Hd Hf Hg Hfst Hsteps Hcode Hsnd.
  assert (Hp1 : progress s s1) by (eapply run_preserves; [|exact Hfst]; by apply create_token_progress).
  apply token_uses_code in Hfst as (id & _ & i & Hid & _ & _ & Hi & Hu).
  apply token_uses_code in Hsnd as (id' & i' & _ & Hid' & Hi' & Hu' & _). assert (id' = id) as -> by congruence.
  assert (Hp : progress s1 (g s2)) by (etrans; [by apply steps_progress|apply Hg]).
  destruct (row_later _ _ id i i' (pg_drawn _ _ Hp1 Hd) Hp Hi Hi') as [_ Hused]. rewrite Hused in Hu'; done.
Qed.

(** The nonce of an interaction is set by the issuance of its credential. *)
Lemma issuance_uses_nonce self schemas interfere sid token request s r s' : concurrent interfere -> ids_drawn s ->
  create_credential self schemas interfere sid token request s = (Ok r, s') ->
  exists id i i' n, parse_access_token token = Ok id /\ interactions (interfere s) !! id = Some i /\ in_nonce_id i = None /\
    interactions s' !! id = Some i' /\ in_nonce_id i' = Some n.
Proof.
  intros Hi Hd (schema & id & i0 & d & c & jwt & proof & nonce & params & np & nonce_id & holder & s1 & Ha & Hm & _ & _ & Ht)%create_credential_run.
  apply mark_nonce_run in Hm as (i & Hrow & Hn & _ & ->). set (s1 := with_interactions _ _) in *.
  apply issue_tx_run in Ht as (i2 & d2 & blob & sa & t & n & sb & sc & v & Hi2 & _ & _ & _ & _ & _ & Hf & -> & _).
  assert (Hp : progress (interfere s) s1).
  { eapply (insert_progress _ _ id i (set_nonce nonce_id i)); try done. intros m Hm. congruence. }
  assert (Hd1 : ids_drawn s1) by (eapply pg_drawn; [exact Hp|eapply pg_drawn; [apply Hi|done]]).
  assert (Hi1 : interactions s1 !! id = Some (set_nonce nonce_id i)) by (unfold s1; cbn; by rewrite lookup_insert_eq).
  destruct (row_later _ _ id _ _ Hd1 (Hi s1) Hi1 Hi2) as [Hnon _]. exists id, i, (set_data (Some v) i2), nonce_id.
  split_and!; [apply Ha|done|done|cbn; by rewrite lookup_insert_eq|by apply Hnon].
Qed.

(** C8: an interaction yields at most one credential. After a credential was
    issued for an access token, whatever calls run, no request succeeds with an
    access token of the same interaction, also when requests run at the same
    time: the nonce of the interaction is set in one statement, before anything
    is issued. *)
Theorem issue_once self schemas f sid token request s r s1 s2 self' schemas' g sid' token' request' r' s3 :
  ids_drawn s -> concurrent f -> concurrent g ->
  create_credential self schemas f sid token request s = (Ok r, s1) -> rtc (vci_step concurrent) s1 s2 ->
  parse_access_token token' = parse_access_token token ->
  create_credential self' schemas' g sid' token' request' s2 <> (Ok r', s3).
Proof.
  intros Hd Hf Hg Hfst Hsteps Htok Hsnd.
  assert (Hp1 : progress s s1) by (eapply run_preserves; [|exact Hfst]; by apply create_credential_progress).
  assert (Hd1 := pg_drawn _ _ Hp1 Hd). pose proof (steps_progress _ _ Hsteps) as Hp2.
  apply issuance_uses_nonce in Hfst as (id & _ & i & n & Hid & _ & _ & Hi & Hn); [|done..].
  apply issuance_uses_nonce in Hsnd as (id' & i' & _ & _ & Hid' & Hi' & Hn' & _); [|done|by apply (pg_drawn _ _ Hp2)].
  assert (id' = id) as -> by congruence.
  destruct (row_later _ _ id i i' Hd1 (transitivity Hp2 (Hg s2)) Hi Hi') as [Hnonce _]. rewrite (Hnonce n) in Hn'; done.
Qed.

Lemma step_lives s s' : vci_step alone s s' -> lives s s'.
Proof.
  destruct 1.
  - apply share_lives.
  - by apply create_token_lives.
  - apply quiet_lives, quiet_nonce_endpoint.
  - by apply create_credential_lives.
  - apply notification_lives.
  - apply expired_lives.
  - by eapply store_lives.
Qed.

Lemma steps_live s s' : rtc (vci_step alone) s s' -> lives s s'.
Proof. induction 1 as [|s1 s2 s3 H12 _ IH]; [reflexivity|]. etrans; [by apply step_lives|done]. Qed.

(** C15: the life of an issued credential, over any sequence of offers, token,
    nonce, credential and notification requests, expiries, operations on the
    validity and the passing of time, whether they succeed or fail. The
    invariant is kept: as long as the code of an offer was not exchanged, its
    credentials are pending, expired or failed. No credential is lost; a state
    leads only to the states after it: what was offered is never pending again,
    what was issued is never offered again, and errors and rejections are
    final. *)
Theorem vci_lifecycle s s' : vci_inv s -> rtc (vci_step alone) s s' ->
  vci_inv s' /\
  forall id c, find_credential id (store s) = Some c ->
    exists c', find_credential id (store s') = Some c' /\ leads_to (credential_state c) (credential_state c') = true /\
      credential_role c' = credential_role c /\ credential_schema c' = credential_schema c /\
      (shareable (credential_state c) = false -> ic_interaction_id (columns_of id s') = ic_interaction_id (columns_of id s)).
Proof. intros Hinv Hsteps. by apply steps_live. Qed.
End theorems.

Section token_theorems.
Context {R : Type} `{SdCodec} `{HeaderCodec} `{!EqDecision PublicJwk} `{!PayloadCodec NonceJwtPayload} `{!PayloadCodec ProofOfPossession}
  `{!PayloadCodec WalletInstanceAttestationClaims} `{!PayloadCodec WalletUnitAttestationClaims} `{!PayloadCodec unit}
  `{VciLaws} `{!VciProviders} `{IssuanceMethods R} `{RevocationMethodProvider R} `{ShareWorld}.
Implicit Types (s : VciDb R) (self : OID4VCIService) (schemas : Z -> option IssuanceSchema).

End token_theorems.

Section token_results.
Context {R : Type} `{SdCodec} `{HeaderCodec} `{!EqDecision PublicJwk} `{!PayloadCodec NonceJwtPayload} `{!PayloadCodec ProofOfPossession}
  `{!PayloadCodec WalletInstanceAttestationClaims} `{!PayloadCodec WalletUnitAttestationClaims} `{!PayloadCodec unit}
  `{VciLaws} `{!VciProviders} `{IssuanceMethods R}.
Implicit Types (s : VciDb R) (self : OID4VCIService) (schemas : Z -> option IssuanceSchema).

(** The credentials of an interaction have the state [st], all others the one
    that they had. *)
Definition moved_to (id : Z) (st : CredentialStateEnum) s s' : Prop := forall c, c ∈ credentials (store s) ->
  exists c', find_credential (credential_id c) (store s') = Some c' /\
    (c ∈ of_interaction id s -> credential_state c' = st) /\ (c ∉ of_interaction id s -> credential_state c' = credential_state c).

Lemma moved_to_intro id st s s' : vci_inv s -> moves (set_some (credential_id <$> of_interaction id s) st) s s' ->
  (forall c, c ∈ of_interaction id s -> exists c', find_credential (credential_id c) (store s') = Some c' /\ credential_state c' = st) ->
  moved_to id st s s'.
Proof.
  intros Hinv Hm Hrows c Hc.
  destruct (moves_find _ _ _ _ _ Hm (find_credential_unique _ _ (vi_unique _ Hinv) Hc)) as (c' & Hc' & Hrow). exists c'. split; [done|]. split.
  - intros (c2 & Hc2 & Hst)%Hrows. congruence.
  - intros Hout. destruct (rm_state _ _ _ Hrow) as [->|[Hid _]]; [done|]. by apply (ids_of_interaction id s c Hinv Hc) in Hid.
Qed.

End token_results.

(** ** Nonces *)

(** The payload of a nonce is read back. *)
Class NonceLaws `{Jwks} `{!PayloadCodec NonceJwtPayload} := {
  nonce_reads : forall p : JWTPayload NonceJwtPayload, reads_as p (at_seconds p)
}.

Section nonces.
Context `{SdCodecLaws} `{HeaderLaws} `{!PayloadCodec NonceJwtPayload} `{!NonceLaws} `{VciLaws}.

(** C36: a nonce that the service made is accepted, with the id that was drawn
    for it, exactly from the second of its issuance to the second of its
    expiry, both widened by the leeway, and refused at any other time. *)
Theorem nonce_roundtrip params url id now now' nonce : generate_nonce params (Some url) id now = Ok nonce ->
  (validate_nonce params (Some url) nonce now' = Ok id <->
   whole_seconds now <= now' + nanos (np_leeway params) /\
   now' - nanos (np_leeway params) <= whole_seconds (now + nanos (default 300 (np_expiration params)))) /\
  (validate_nonce params (Some url) nonce now' = Ok id \/ validate_nonce params (Some url) nonce now' = Err VciNested).
Proof.
  unfold generate_nonce, add_duration. destruct (date_ok _); simpl; [|done]. intros Ht%map_err_ok.
  apply (decompose_tokenize _ _ _ _ _ (nonce_reads _)) in Ht as (signature & unverified & Hdec & Hsig & _).
  unfold validate_nonce. rewrite Hdec. cbn. unfold validate_issuance_time, validate_expiration_time. cbn in Hsig. rewrite Hsig.
  rewrite bool_decide_eq_true_2 by done. cbn. rewrite uuid_reads. cbn. rewrite String.eqb_refl. cbn.
  set (a := whole_seconds now). set (b := whole_seconds (now + _)).
  destruct (Z.ltb_spec (now' + nanos (np_leeway params)) a); cbn; [split; [split; [done|lia]|by right]|].
  destruct (Z.ltb_spec b (now' - nanos (np_leeway params))); cbn; [split; [split; [done|lia]|by right]|].
  split; [split; [lia|done]|by left].
Qed.
End nonces.

(** ** What was checked before a credential is issued *)

Section checked.
Context {R : Type} `{SdCodec} `{HeaderCodec} `{!EqDecision PublicJwk} `{!PayloadCodec NonceJwtPayload} `{!PayloadCodec ProofOfPossession}
  `{!PayloadCodec WalletInstanceAttestationClaims} `{!PayloadCodec WalletUnitAttestationClaims} `{!PayloadCodec unit}
  `{VciLaws} `{!VciProviders} `{IssuanceMethods R}.
Context (self : OID4VCIService) (schemas : Z -> option IssuanceSchema).
Implicit Types (s : VciDb R).

(** A token whose signature is that of a key. *)
Definition signed_by {C : Type} (verifier : TokenVerifier) (t : DecomposedJwt C) (key : PublicKeySource) : Prop :=
  known_jose_alg (jh_algorithm (dj_header t)) = true /\
  verify key (jh_algorithm (dj_header t)) (dj_unverified_jwt t) (dj_signature t) = true.

Lemma signed_by_ok {C : Type} verifier (t : DecomposedJwt C) key : verify_signature verifier t key = Ok tt <-> signed_by verifier t key.
Proof. unfold verify_signature, signed_by. destruct (known_jose_alg _), (verify _ _ _ _); naive_solver. Qed.

(** A proof: a token of the right type, signed by the key that its header
    names. *)
Definition proves (jwt : string) (proof : OpenID4VCIVerifiedProof) : Prop :=
  exists t key, decompose_token (C := ProofOfPossession) jwt = Ok t /\ jh_type (dj_header t) = Some JWT_PROOF_TYPE /\
    proof_key (dj_header t) = Ok (vp_holder_binding proof, key) /\ signed_by authentication_verifier t key /\
    vp_proof_nonce proof = pp_nonce (jp_custom (dj_payload t)) /\ vp_key_attestation proof = jh_key_attestation (dj_header t).

Lemma verify_proof_ok jwt proof : verify_proof jwt authentication_verifier = Ok proof -> proves jwt proof.
Proof.
  unfold verify_proof. intros Hp. apply res_bind_ok in Hp as (t & Ht%map_err_ok & Hp). apply res_bind_ok in Hp as ([] & Hty%fail_if_ok & Hp).
  apply res_bind_ok in Hp as ([binding key] & Hk & Hp). apply res_bind_ok in Hp as ([] & Hs%map_err_ok%signed_by_ok & Hp). injection Hp as <-.
  apply negb_false_iff, bool_decide_eq_true in Hty. exists t, key. by split_and!.
Qed.

(** A nonce: made by this service, with its key, and not expired. *)
Definition own_nonce (np : OpenID4VCNonceParams) (nonce : string) (now id : Z) : Prop :=
  exists t expires_at, decompose_token (C := NonceJwtPayload) nonce = Ok t /\
    create_hmac (np_signing_key np) (dj_unverified_jwt t) = Some (dj_signature t) /\
    jp_issuer (dj_payload t) = sv_base_url self /\ jp_expires_at (dj_payload t) = Some expires_at /\
    now <= expires_at + nanos (np_leeway np) /\ jp_jwt_id (dj_payload t) ≫= uuid_from_str = Some id.

Lemma validate_nonce_ok np nonce now id : validate_nonce np (sv_base_url self) nonce now = Ok id -> own_nonce np nonce now id.
Proof.
  unfold validate_nonce. intros Hn. apply res_bind_ok in Hn as (t & Ht%map_err_ok & Hn). apply res_bind_ok in Hn as ([] & _ & Hn).
  apply res_bind_ok in Hn as (iat & _ & Hn). apply res_bind_ok in Hn as (exp & Hexp%ok_or_ok & Hn).
  apply res_bind_ok in Hn as (iss & Hiss%ok_or_ok & Hn). apply res_bind_ok in Hn as ([] & _ & Hn). apply res_bind_ok in Hn as ([] & Htime%fail_if_ok & Hn).
  apply res_bind_ok in Hn as ([] & Hurl%fail_if_ok & Hn). apply res_bind_ok in Hn as ([] & _ & Hn). apply res_bind_ok in Hn as (jti & Hjti%ok_or_ok & Hn).
  apply res_bind_ok in Hn as (id' & Hid%ok_or_ok & Hn). apply res_bind_ok in Hn as (sig & Hsig%ok_or_ok & Hn).
  apply res_bind_ok in Hn as ([] & Heq%fail_if_ok & Hn). injection Hn as ->.
  apply negb_false_iff, bool_decide_eq_true in Hurl. apply negb_false_iff, String.eqb_eq in Heq. subst sig.
  exists t, exp. split_and!; [done|done|congruence|done|lia|]. rewrite Hjti. done.
Qed.

(** The key attestation that a schema demands: signed, with the level of the
    schema and the key of the proof in it, and not revoked; when the schema
    demands none there is none. *)
Definition attested (schema : IssuanceSchema) (proof : OpenID4VCIVerifiedProof) : Prop :=
  match is_key_storage_security schema, vp_key_attestation proof with
  | None, None => True
  | Some level, Some attestation =>
      exists t issuer key, decompose_token (C := WalletUnitAttestationClaims) attestation = Ok t /\
        attestation_issuer (dj_header t) = Ok issuer /\ signed_by authentication_verifier t issuer /\
        level ∈ wu_key_storage (jp_custom (dj_payload t)) /\ wallet_unit_attestation_revoked attestation = Some false /\
        match vp_holder_binding proof with BindingDid did key_id => did_authentication_key did key_id = Some key | BindingJwk jwk => key = jwk end /\
        key ∈ wu_attested_keys (jp_custom (dj_payload t))
  | _, _ => False
  end.

Lemma key_attestation_ok now jwt level leeway keys : validate_key_attestation now jwt authentication_verifier level leeway = Ok keys ->
  exists t issuer, decompose_token (C := WalletUnitAttestationClaims) jwt = Ok t /\ attestation_issuer (dj_header t) = Ok issuer /\
    signed_by authentication_verifier t issuer /\ level ∈ wu_key_storage (jp_custom (dj_payload t)) /\ keys = wu_attested_keys (jp_custom (dj_payload t)).
Proof.
  unfold validate_key_attestation. intros Hk. apply res_bind_ok in Hk as (t & Ht%map_err_ok & Hk). apply res_bind_ok in Hk as ([] & _ & Hk).
  apply res_bind_ok in Hk as ([] & Hl%fail_if_ok & Hk). apply res_bind_ok in Hk as (issuer & Hi & Hk).
  apply res_bind_ok in Hk as ([] & Hs%map_err_ok%signed_by_ok & Hk). injection Hk as <-. apply negb_false_iff, bool_decide_eq_true in Hl. eauto 10.
Qed.

Lemma check_attestation_ok schema id leeway proof s s' : check_key_attestation self schema id leeway proof s = (Ok tt, s') -> attested schema proof.
Proof.
  unfold check_key_attestation, attested. destruct (is_key_storage_security schema) as [level|], (vp_key_attestation proof) as [attestation|]; try done.
  intros Hr. inv_run Hr. apply lift_run in Hr as [Hin%fail_if_ok _]. apply key_attestation_ok in Hq as (t & issuer & Ht & Hi & Hs & Hl & ->).
  destruct a0; [done|]. apply negb_false_iff, bool_decide_eq_true in Hin. exists t, issuer, a3. split_and!; try done.
  destruct (vp_holder_binding proof); [by apply ok_or_ok in Hq2|by injection Hq2].
Qed.

(** Storing the attestation leaves the credentials alone. *)
Lemma store_wua_store k s r s' : store_wua self k s = (r, s') -> store s' = store s.
Proof.
  assert (Hp : preserves (fun s s' => store s' = store s) (store_wua (R := R) self k)).
  { assert (PreOrder (fun s s' : VciDb R => store s' = store s)) by (split; [done|intros ? ? ?; congruence]).
    unfold store_wua, data. preserve. intros sx. unfold create_blob. run_M. cbn. by destruct (blobs sx !! _). }
  intros Hr. by apply (run_preserves _ _ _ _ _ Hp) in Hr.
Qed.

Lemma issued_holder_update id u s s' h : vci_update_credential id u s = (Ok tt, s') -> cu_holder_identifier_id u = Some h ->
  ic_holder_identifier_id (columns_of id s') = Some h.
Proof.
  unfold vci_update_credential. destruct (find_credential id (store s)); [|done]. intros [= <-] Hh. unfold columns_of, update_row. cbn.
  rewrite lookup_insert_eq. cbn. by rewrite Hh.
Qed.

End checked.

Section failures.
Context {R : Type} `{SdCodec} `{HeaderCodec} `{!EqDecision PublicJwk} `{!PayloadCodec NonceJwtPayload} `{!PayloadCodec ProofOfPossession}
  `{!PayloadCodec WalletInstanceAttestationClaims} `{!PayloadCodec WalletUnitAttestationClaims} `{!PayloadCodec unit}
  `{VciLaws} `{!VciProviders} `{IssuanceMethods R}.
Implicit Types (s : VciDb R) (self : OID4VCIService) (schemas : Z -> option IssuanceSchema).

End failures.
