(* ===== verification/VciExample.v ===== *)
(** * OpenID4VCI issuance: an example

    A small issuer: one credential that needs a transaction code, codecs and
    providers that satisfy the laws of the theorems, and the runs that the
    witnesses are about: an offer, an exchange, a nonce, an issuance. *)

From S2P Require Import Prelude Paths StatusBits KeySelection RevocationRepo RevocationMethod TokenMethod ListFilter Validity.
From S2P Require Import SdValue SdDisclosures SdIssue SdToken Jwt SdExample VciStore VciService VciSpec VciLife VciTheorems.
From stdpp Require Import countable.
From Stdlib Require Import Ascii String.
#[local] Open Scope Z_scope.
#[local] Notation length := Datatypes.length.

(** ** Instances *)

#[export] Instance vx_jwk_eq_dec : EqDecision PublicJwk := String.string_dec.
#[export] Instance vx_uuids : UuidSupply := { uuid_at := Z.of_nat; uuid_to_string := text }.
#[export] Instance vx_randoms : Randoms := { alphanumeric_at k _ := text (Z.of_nat k); numeric_at k _ := text (Z.of_nat k) }.

(** The stored data as a value. *)
Definition data_value (d : OpenID4VCIIssuerInteractionDataDTO) : Value :=
  VArray [VBool (id_pre_authorized_code_used d); of_str (id_access_token_hash d); of_opt of_z (id_access_token_expires_at d);
    of_opt of_str (id_refresh_token_hash d); of_opt of_z (id_refresh_token_expires_at d); of_opt of_str (id_notification_id d);
    of_opt of_str (id_transaction_code d)].
Definition value_data (v : Value) : option OpenID4VCIIssuerInteractionDataDTO :=
  match v with
  | VArray [VBool used; hash; expires; rhash; rexpires; notification; code] =>
      Some (mkInteractionData used (to_str hash) (to_opt to_z expires) (to_opt to_str rhash) (to_opt to_z rexpires)
        (to_opt to_str notification) (to_opt to_str code))
  | _ => None
  end.
Lemma value_data_value d : value_data (data_value d) = Some d.
Proof.
  destruct d as [u h e rh re n c]. unfold value_data, data_value. cbn [id_pre_authorized_code_used id_access_token_hash id_access_token_expires_at
    id_refresh_token_hash id_refresh_token_expires_at id_notification_id id_transaction_code].
  rewrite !(to_of_opt of_str to_str) by done. by rewrite !(to_of_opt of_z to_z) by apply to_of_z.
Qed.

Definition short_hash (s : string) : string := to_hex (four_bytes (poly s 7)).
#[export] Instance vx_codec : VciCodec := {
  sha256 s := Some (short_hash s);
  create_hmac key m := Some (short_hash (key ++ m));
  uuid_from_str := untext;
  interaction_data_to_vec d := Some (text (value_tree (data_value d)));
  interaction_data_from_slice s := (tree_value <$> untext s) ≫= value_data;
  wia_dto_to_vec w := Some (wd_attestation w);
  wia_dto_from_slice s := Some (mkWiaDto EmptyString EmptyString s);
  wua_dto_to_vec := Some
}.

Lemma text_no_dot {A : Type} `{Countable A} (a : A) : count_char dot (text a) = 0%nat.
Proof. apply (all_chars_count is_b64url); [reflexivity|apply text_chars]. Qed.

#[export] Instance vx_laws : VciLaws.
Proof.
  split.
  - intros d v [= <-]. cbn [interaction_data_from_slice vx_codec]. rewrite untext_text. cbn [fmap option_fmap option_map mbind option_bind].
    change (value_data (tree_value (value_tree (data_value d))) = Some d). rewrite tree_value_tree. apply value_data_value.
  - intros j k Hjk. cbn in Hjk. lia.
  - intros u. apply untext_text.
  - intros u. apply text_no_dot.
  - intros n l. apply text_no_dot.
Qed.

(** ** Tokens *)

(** Headers and payloads of the tokens of this issuer, in short. *)
#[export] Instance vx_header_codec : HeaderCodec := {
  header_to_string h := Some (if String.eqb (jh_algorithm h) "HS256" then "n" else "p")%string;
  header_from_slice s :=
    if String.eqb s "n" then Some (mkJWTHeader "HS256" None (Some "JWT"%string) None None None None)
    else Some (mkJWTHeader "EdDSA" None (Some JWT_PROOF_TYPE) (Some ("k"%string : PublicJwk (Jwks := ex_jwks))) None None None)
}.
#[export] Instance vx_nonce_codec : PayloadCodec NonceJwtPayload := {
  payload_to_string p := Some (default EmptyString (jp_jwt_id p));
  payload_from_slice s := Some (mkJWTPayload (Some 0) (Some (nanos 2000)) None (Some "base"%string) None None (Some s) None (mkNoncePayload NONCE_CONTEXT))
}.
#[export] Instance vx_proof_codec : PayloadCodec ProofOfPossession := {
  payload_to_string p := pp_nonce (jp_custom p);
  payload_from_slice s := Some (mkJWTPayload None None None None None None None None (mkProofOfPossession (Some s)))
}.
#[export] Instance vx_wia_codec : PayloadCodec WalletInstanceAttestationClaims := { payload_to_string _ := None; payload_from_slice _ := None }.
#[export] Instance vx_wua_codec : PayloadCodec WalletUnitAttestationClaims := { payload_to_string _ := None; payload_from_slice _ := None }.
#[export] Instance vx_unit_codec : PayloadCodec unit := { payload_to_string _ := None; payload_from_slice _ := None }.

Definition vx_signer : SignatureProvider := {| jose_alg := Some "EdDSA"%string; sign m := Some (short_hash ("k" ++ m)) |}.
Definition vx_verifier : TokenVerifier := {|
  known_jose_alg alg := String.eqb alg "EdDSA";
  verify source _ m s := match source with SourceJwk key => String.eqb s (short_hash (key ++ m)) | _ => false end
|}.
#[export] Instance vx_providers : VciProviders := {|
  authentication_verifier := vx_verifier;
  assertion_verifier := vx_verifier;
  jwk_verifies _ _ _ _ := false;
  parse_did _ := None;
  did_authentication_key _ _ := None;
  wallet_unit_attestation_revoked _ := None;
  did_holder_identifier _ _ := None;
  key_holder_identifier _ key := Some (7, key);
  format_issued_credential c holder _ _ := Some ("credential for " ++ text holder)%string;
  protocol_found _ := true
|}.
#[export] Instance vx_methods : IssuanceMethods unit := { issuance_method _ := None }.
#[export] Instance vx_revocation : RevocationMethodProvider unit := { get_revocation_method _ := None }.
#[export] Instance vx_world : ShareWorld := { identifier_active _ := true; has_protocol _ := true }.

(** ** The issuer *)

Definition vx_params : OpenID4VCIParams := mkVciParams (nanos 300) (nanos 600) (nanos 900) (Some (mkNonceParams "hmac-key" None 60)) 60 60.
Definition vx_service : OID4VCIService :=
  mkVciService OpenId4VciFinal1_0 (Some "https://issuer"%string) (Some "base"%string)
    (mkVciConfig [("OID4VCI"%string, (OpenId4VciFinal1_0, Some vx_params))] (fun _ => Some FtSdJwtVc) (fun _ => None)) true.
Definition vx_schemas (id : Z) : option IssuanceSchema :=
  if id =? 5 then Some (mkIssuanceSchema 5 "vct" "SD_JWT_VC" false None (Some (mkTransactionCode Numeric 4))) else None.
Definition vx_credential (state : CredentialStateEnum) : Credential :=
  mkCredential 1 None Issuer state None None (Some (mkIdentifier 2 TypeKey false None None None)) None
    (Some (mkCredentialSchema 5 false None (Some 3) "SD_JWT_VC")).
Definition vx_start : VciDb unit :=
  mkVciDb (mkStore [vx_credential CsCreated] tt (nanos 1000)) (<[1 := mkColumns "OID4VCI" None None None None None None]> ∅) ∅ ∅ [] 0.

(** ** The runs *)

Definition run_ok {S E A : Type} (d : A) (p : res E A * S) : A := ok_value d (fst p).
Definition no_offer : ShareResponse := mkShareResponse (mkCredentialOffer EmptyString [] EmptyString None) 0 EmptyString 0 None.
Definition no_token : OpenID4VCITokenResponseDTO := mkTokenResponse EmptyString EmptyString 0 None None.

Definition vx_share := Eval vm_compute in share_credential vx_service vx_schemas None 1 vx_start.
Definition vx_offer : ShareResponse := run_ok no_offer vx_share.
Definition vx_offered : VciDb unit := snd vx_share.
Definition vx_code : string := co_pre_authorized_code (sr_offer vx_offer).
Definition vx_exchange := Eval vm_compute in
  create_token vx_service vx_schemas (fun s => s) 5 (PreAuthorizedCode vx_code (sr_transaction_code vx_offer)) None None vx_offered.
Definition vx_refused := Eval vm_compute in
  create_token vx_service vx_schemas (fun s => s) 5 (PreAuthorizedCode vx_code (Some "wrong"%string)) None None vx_offered.
Definition vx_token : string := tr_access_token (run_ok no_token vx_exchange).
Definition vx_nonce := Eval vm_compute in nonce_endpoint vx_service "OID4VCI" (snd vx_exchange).
Definition vx_proof : string := Eval vm_compute in
  ok_value EmptyString (tokenize (mkJWTHeader "EdDSA" None (Some JWT_PROOF_TYPE) (Some ("k"%string : PublicJwk (Jwks := ex_jwks))) None None None)
    (mkJWTPayload None None None None None None None None (mkProofOfPossession (Some (run_ok EmptyString vx_nonce)))) (Some vx_signer)).
Definition vx_request : OpenID4VCICredentialRequestDTO := mkCredentialRequest (CredentialConfigurationId "vct") (Some (ProofsJwt [vx_proof])).
Definition vx_issue := Eval vm_compute in create_credential vx_service vx_schemas (fun s => s) 5 vx_token vx_request (snd vx_nonce).

(** ** The runs evaluate *)

Lemma vx_share_run : share_credential vx_service vx_schemas None 1 vx_start = (Ok vx_offer, vx_offered).
Proof. vm_cast_no_check (eq_refl vx_share). Qed.
Lemma vx_exchange_run : create_token vx_service vx_schemas (fun s => s) 5 (PreAuthorizedCode vx_code (sr_transaction_code vx_offer)) None None
  vx_offered = (Ok (run_ok no_token vx_exchange), snd vx_exchange).
Proof. vm_cast_no_check (eq_refl vx_exchange). Qed.
Lemma vx_refused_run : create_token vx_service vx_schemas (fun s => s) 5 (PreAuthorizedCode vx_code (Some "wrong"%string)) None None
  vx_offered = (Err (OpenId InvalidGrant), snd vx_refused).
Proof. vm_cast_no_check (eq_refl vx_refused). Qed.
Definition no_response : OpenID4VCICredentialResponseDTO := mkCredentialResponse None [] None.
Lemma vx_issue_run : create_credential vx_service vx_schemas (fun s => s) 5 vx_token vx_request (snd vx_nonce) =
  (Ok (run_ok no_response vx_issue), snd vx_issue).
Proof. vm_cast_no_check (eq_refl vx_issue). Qed.

(** ** The invariant holds *)

Lemma vx_start_inv : vci_inv vx_start.
Proof.
  split.
  - unfold unique_ids. cbn. repeat constructor. set_solver.
  - intros id [i Hi]. done.
  - intros c id Hc Hp. apply list_elem_of_singleton in Hc as ->. done.
  - intros c id i Hc Hp Hi. done.
  - intros id i d Hi. done.
Qed.
Lemma vx_offered_inv : vci_inv vx_offered.
Proof. destruct (share_lives vx_service vx_schemas None 1 vx_start vx_start_inv) as [Hinv _]. by rewrite vx_share_run in Hinv. Qed.
Lemma vx_alone : alone (fun s : VciDb unit => s).
Proof. done. Qed.
Lemma vx_concurrent : concurrent (fun s : VciDb unit => s).
Proof. intros s. reflexivity. Qed.
Lemma vx_exchanged_inv : vci_inv (snd vx_exchange).
Proof.
  destruct (create_token_lives vx_service vx_schemas (fun s => s) 5 (PreAuthorizedCode vx_code (sr_transaction_code vx_offer)) None None vx_alone
    vx_offered vx_offered_inv) as [Hinv _]. by rewrite vx_exchange_run in Hinv.
Qed.
Lemma vx_nonce_run : nonce_endpoint vx_service "OID4VCI" (snd vx_exchange) = (Ok (run_ok EmptyString vx_nonce), snd vx_nonce).
Proof. vm_cast_no_check (eq_refl vx_nonce). Qed.
Lemma vx_nonce_inv : vci_inv (snd vx_nonce).
Proof.
  destruct (quiet_lives _ _ (quiet_nonce_endpoint vx_service "OID4VCI" (snd vx_exchange)) vx_exchanged_inv) as [Hinv _].
  by rewrite vx_nonce_run in Hinv.
Qed.

(** ** Witnesses *)

Lemma token_once_witness : create_token vx_service vx_schemas (fun s => s) 5 (PreAuthorizedCode vx_code None) None None (snd vx_exchange)
  <> (Ok no_token, vx_offered).
Proof.
  exact (token_once vx_service vx_schemas (fun s => s) 5 vx_code (sr_transaction_code vx_offer) None None vx_offered (run_ok no_token vx_exchange)
    (snd vx_exchange) (snd vx_exchange) vx_service vx_schemas (fun s => s) 5 vx_code None None None no_token vx_offered
    (vi_drawn _ vx_offered_inv) vx_concurrent vx_concurrent vx_exchange_run (rtc_refl _ _) eq_refl).
Defined.

Lemma issue_once_witness : create_credential vx_service vx_schemas (fun s => s) 5 vx_token vx_request (snd vx_issue) <> (Ok no_response, vx_offered).
Proof.
  exact (issue_once vx_service vx_schemas (fun s => s) 5 vx_token vx_request (snd vx_nonce) (run_ok no_response vx_issue)
    (snd vx_issue) (snd vx_issue) vx_service vx_schemas (fun s => s) 5 vx_token vx_request no_response vx_offered
    (vi_drawn _ vx_nonce_inv) vx_concurrent vx_concurrent vx_issue_run (rtc_refl _ _) eq_refl).
Defined.


Lemma vci_lifecycle_witness : vci_inv (snd vx_refused) /\ exists c, find_credential 1 (store (snd vx_refused)) = Some c /\
  leads_to CsPending (credential_state c) = true.
Proof.
  destruct (vci_lifecycle vx_offered (snd vx_refused) vx_offered_inv) as [Hinv Hlife].
  - apply rtc_once. change (snd vx_refused) with (snd (Err (OpenId InvalidGrant) : res VciError OpenID4VCITokenResponseDTO, snd vx_refused)).
    rewrite <-vx_refused_run. apply StepToken. exact vx_alone.
  - destruct (Hlife 1 (vx_credential CsPending) eq_refl) as (c & Hc & Hl & _). exact (conj Hinv (ex_intro _ c (conj Hc Hl))).
Defined.



(** The nonce of a codec that keeps the whole payload. *)
Module NonceExample.
#[local] Existing Instance ex_header_codec.
#[local] Instance full_codec : PayloadCodec NonceJwtPayload := value_codec (fun p => VString (nj_context p)) (fun v => mkNoncePayload (to_str v)).
#[local] Instance full_laws : NonceLaws.
Proof. split. intros p. apply value_codec_reads. by intros []. Qed.

Definition params : OpenID4VCNonceParams := mkNonceParams "k" (Some 10) 1.
Definition nonce : string := ok_value EmptyString (generate_nonce params (Some "b"%string) 3 (nanos 5)).
Lemma nonce_made : generate_nonce params (Some "b"%string) 3 (nanos 5) = Ok nonce.
Proof. vm_cast_no_check (eq_refl (Ok nonce : res VciError string)). Qed.

Lemma nonce_roundtrip_witness : validate_nonce params (Some "b"%string) nonce (nanos 16) = Ok 3 /\
  validate_nonce params (Some "b"%string) nonce (nanos 17) <> Ok 3.
Proof.
  split.
  - apply (nonce_roundtrip params "b" 3 (nanos 5) (nanos 16) nonce nonce_made). vm_compute. by split.
  - intros Hv. apply (nonce_roundtrip params "b" 3 (nanos 5) (nanos 17) nonce nonce_made) in Hv as [_ Hv]. by vm_compute in Hv.
Defined.
End NonceExample.

(** ** What the model shows *)

(** Two requests at the same time get two attempts at the transaction code: the
    credentials are read before the lock is taken, so a request that was
    admitted while a wrong code was refused still sees them pending, and makes
    the failed credential an offered one. *)
Definition vx_wrong_first (s : VciDb unit) : VciDb unit :=
  snd (create_token vx_service vx_schemas (fun s => s) 5 (PreAuthorizedCode vx_code (Some "wrong"%string)) None None s).
Example lockout_race :
  (credential_state <$> credentials (store (vx_wrong_first vx_offered))) = [CsError] /\
  exists r s', create_token vx_service vx_schemas vx_wrong_first 5 (PreAuthorizedCode vx_code (sr_transaction_code vx_offer)) None None
    vx_offered = (Ok r, s') /\ (credential_state <$> credentials (store s')) = [CsOffered].
Proof. split; [vm_compute; reflexivity|]. eexists _, _. split; vm_compute; reflexivity. Qed.

(** A credential that was deleted after it was offered is exchanged and issued
    all the same: its row is still found by its interaction. *)
Definition vx_deleted : VciDb unit := with_store (snd (delete_credential None (fun _ => inr tt) 1 (store vx_offered))) vx_offered.
Definition vx_late := Eval vm_compute in
  create_token vx_service vx_schemas (fun s => s) 5 (PreAuthorizedCode vx_code (sr_transaction_code vx_offer)) None None vx_deleted.
Definition vx_late_nonce := Eval vm_compute in nonce_endpoint vx_service "OID4VCI" (snd vx_late).
Example deleted_offer_issued :
  (deleted_at <$> credentials (store vx_deleted)) = [Some (nanos 1000)] /\
  exists r s', create_credential vx_service vx_schemas (fun s => s) 5 vx_token vx_request (snd vx_late_nonce) = (Ok r, s') /\
    ((fun c => (deleted_at c, credential_state c)) <$> credentials (store s')) = [(Some (nanos 1000), CsAccepted)].
Proof. split; [vm_compute; reflexivity|]. eexists _, _. split; vm_compute; reflexivity. Qed.
