(* ===== verification/VpStore.v ===== *)
(** * OpenID4VP: proofs and their tables

    Proof requests of a verifier (model/proof.rs, model/proof_schema.rs), the
    tables of proofs, of the claims that were proved and of the claims of
    credentials, and the repositories sql-data-provider/src/proof and claim, with
    [create_credential] of sql-data-provider/src/credential. The tables of the
    issuance are below them: the state [VpDb] has a [VciDb] inside. Proof schemas
    are read only, and are an argument. *)

From S2P Require Import Prelude Paths StatusBits KeySelection RevocationRepo RevocationMethod TokenMethod ListFilter Validity.
From S2P Require Import Dcql VciStore.
#[local] Open Scope Z_scope.

(** ** Data *)

Inductive ProofStateEnum :=
| PsCreated | PsPending | PsRequested | PsAccepted | PsRejected | PsRetracted | PsError | PsInteractionExpired.
#[export] Instance ProofStateEnum_eq_dec : EqDecision ProofStateEnum.
Proof. solve_decision. Defined.

Inductive ProofRole := PrHolder | PrVerifier.

(** The credential schema of a proof input: the columns that credentials keep,
    the id on the wire, the name, and the claims when they were loaded. *)
Record RequestedSchema := mkRequestedSchema {
  rs_schema : CredentialSchema;
  rs_schema_id : string;
  rs_name : string;
  rs_claim_schemas : option (list ClaimSchema)
}.
Definition rs_id (r : RequestedSchema) : Z := schema_id (rs_schema r).
Definition rs_format (r : RequestedSchema) : string := schema_format (rs_schema r).

Record ProofInputClaimSchema := mkProofInputClaim { pc_schema : ClaimSchema; pc_required : bool; pc_order : Z }.
Record ProofInputSchema := mkProofInput {
  pi_claim_schemas : option (list ProofInputClaimSchema);
  pi_credential_schema : option RequestedSchema
}.
Record ProofSchema := mkProofSchema {
  ps_id : Z;
  ps_deleted_at : option Z;
  ps_organisation : option Z;
  ps_input_schemas : option (list ProofInputSchema)
}.

(** A row of [proof]. *)
Record ProofRow := mkProofRow {
  pr_id : Z;
  pr_last_modified : Z;
  pr_protocol : string;
  pr_transport : string;
  pr_redirect_uri : option string;
  pr_state : ProofStateEnum;
  pr_role : ProofRole;
  pr_requested_date : option Z;
  pr_completed_date : option Z;
  pr_profile : option string;
  pr_proof_blob_id : option Z;
  pr_engagement : option string;
  pr_verifier_identifier_id : option Z;
  pr_proof_schema_id : option Z;
  pr_interaction_id : option Z
}.

(** [Proof]: a row with the relations that were asked for. *)
Record ProofModel := mkProofModel {
  pm_row : ProofRow;
  pm_schema : option ProofSchema;
  pm_interaction : option (Z * Interaction)
}.

Record UpdateProofRequest := mkUpdateProof {
  up_verifier_identifier_id : option Z;
  up_state : option ProofStateEnum;
  up_interaction : option (option Z);
  up_redirect_uri : option (option string);
  up_transport : option string;
  up_requested_date : option (option Z);
  up_proof_blob_id : option (option Z);
  up_engagement : option (option string)
}.

(** [claims] has the claims by their credential, [proof_claims] the pairs of a
    claim and a proof. *)
Record VpDb (R : Type) := mkVpDb {
  base : VciDb R;
  proofs : list ProofRow;
  claims : list (Z * Claim);
  proof_claims : list (Z * Z)
}.
Arguments mkVpDb {R} _ _ _ _.
Arguments base {R} _.
Arguments proofs {R} _.
Arguments claims {R} _.
Arguments proof_claims {R} _.

(** [insert_many] of no rows: what the statement does is up to the database. *)
Class SqlDialect := { insert_none : res DataLayerError unit }.

Section repositories.
Context {R : Type} `{UuidSupply} `{Randoms} `{SqlDialect} (proof_schemas : Z -> option ProofSchema).
#[local] Notation Vp E A := (M (VpDb R) E A).

(** A call of a repository of the tables below. *)
Definition on_base {E A : Type} (m : M (VciDb R) E A) : Vp E A := fun s =>
  let '(r, b) := m (base s) in (r, mkVpDb b (proofs s) (claims s) (proof_claims s)).
Definition vp_now {E : Type} : Vp E Z := on_base now_utc.
Definition with_proofs (rows : list ProofRow) (s : VpDb R) : VpDb R := mkVpDb (base s) rows (claims s) (proof_claims s).

(** ** Proofs *)

Definition find_proof (id : Z) (s : VpDb R) : option ProofRow := find_first (fun p => pr_id p =? id) (proofs s).

Definition create_proof_row (row : ProofRow) : Vp DataLayerError Z := fun s =>
  match find_proof (pr_id row) s with
  | Some _ => (Err AlreadyExists, s)
  | None => (Ok (pr_id row), with_proofs (proofs s ++ [row]) s)
  end.

(** [resolve_proof_relations] for the schema and the interaction. *)
Definition resolve_proof_relations (row : ProofRow) : Vp DataLayerError ProofModel :=
  schema ← match pr_proof_schema_id row with
           | Some id => found ← lift (ok_or (proof_schemas id) (MissingRequiredRelation "proof-proof_schema" id)); mret (Some found)
           | None => mret None
           end;
  interaction ← match pr_interaction_id row with
                | Some id =>
                    found ← on_base (get_interaction id);
                    i ← lift (ok_or found (MissingRequiredRelation "proof-interaction" id));
                    mret (Some (id, i))
                | None => mret None
                end;
  mret (mkProofModel row schema interaction).

(** [get_proof] without relations, and with them. *)
Definition get_proof_row {E : Type} (id : Z) : Vp E (option ProofRow) := fun s => (Ok (find_proof id s), s).
Definition get_proof (id : Z) : Vp DataLayerError (option ProofModel) :=
  row ← get_proof_row id;
  match row with
  | Some row => proof ← resolve_proof_relations row; mret (Some proof)
  | None => mret None
  end.

Definition get_proof_by_interaction_id (interaction_id : Z) : Vp DataLayerError (option ProofModel) :=
  s ← Prelude.get;
  match find_first (fun p => bool_decide (pr_interaction_id p = Some interaction_id)) (proofs s) with
  | Some row => proof ← resolve_proof_relations row; mret (Some proof)
  | None => mret None
  end.

Definition requested_at (u : UpdateProofRequest) (now : Z) (old : option Z) : option Z :=
  match up_state u with Some PsPending => Some now | _ => default old (up_requested_date u) end.
Definition completed_at (u : UpdateProofRequest) (now : Z) (old : option Z) : option Z :=
  match up_state u with Some (PsAccepted | PsRejected | PsError | PsRetracted) => Some now | _ => old end.

Definition apply_proof_update (u : UpdateProofRequest) (now : Z) (p : ProofRow) : ProofRow :=
  mkProofRow (pr_id p) now (pr_protocol p) (default (pr_transport p) (up_transport u))
    (default (pr_redirect_uri p) (up_redirect_uri u)) (default (pr_state p) (up_state u)) (pr_role p)
    (requested_at u now (pr_requested_date p)) (completed_at u now (pr_completed_date p)) (pr_profile p)
    (default (pr_proof_blob_id p) (up_proof_blob_id u)) (default (pr_engagement p) (up_engagement u))
    (match up_verifier_identifier_id u with Some id => Some id | None => pr_verifier_identifier_id p end)
    (pr_proof_schema_id p) (default (pr_interaction_id p) (up_interaction u)).

Definition update_proof (id : Z) (u : UpdateProofRequest) : Vp DataLayerError unit := fun s =>
  match find_proof id s with
  | None => (Err RecordNotUpdated, s)
  | Some _ =>
      (Ok tt, with_proofs ((fun p => if pr_id p =? id then apply_proof_update u (clock (store (base s))) p else p) <$> proofs s) s)
  end.

Definition delete_proof_row {E : Type} (id : Z) : Vp E unit := fun s =>
  (Ok tt, with_proofs (List.filter (fun p => negb (pr_id p =? id)) (proofs s)) s).

(** One [UPDATE] of the pending proofs whose interaction has expired. *)
Definition proof_expired (s : VpDb R) (p : ProofRow) : bool :=
  bool_decide (pr_state p = PsPending) &&
  match pr_interaction_id p ≫= fun id => interactions (base s) !! id with
  | Some i => match in_expires_at i with Some t => t <? now_truncated_to_milliseconds (base s) | None => false end
  | None => false
  end.
Definition expire_proof (now : Z) (p : ProofRow) : ProofRow :=
  mkProofRow (pr_id p) now (pr_protocol p) (pr_transport p) (pr_redirect_uri p) PsInteractionExpired (pr_role p) (pr_requested_date p)
    (pr_completed_date p) (pr_profile p) (pr_proof_blob_id p) (pr_engagement p) (pr_verifier_identifier_id p) (pr_proof_schema_id p)
    (pr_interaction_id p).
Definition update_expired_proofs {E : Type} : Vp E (list Z) := fun s =>
  let now := now_truncated_to_milliseconds (base s) in
  let rows := (fun p => if proof_expired s p then expire_proof now p else p) <$> proofs s in
  (Ok (pr_id <$> List.filter (fun p => bool_decide (pr_state p = PsInteractionExpired) && (pr_last_modified p =? now)) rows), with_proofs rows s).

(** ** Claims *)

Definition has_claim (id : Z) (s : VpDb R) : bool := existsb (fun e => claim_id (snd e) =? id) (claims s).
Definition distinct_ids (ids : list Z) : bool := bool_decide (NoDup ids).

(** [create_claim_list]: one [INSERT], which fails on an id that is taken. *)
Definition create_claim_list (credential_id : Z) (new : list Claim) : Vp DataLayerError unit := fun s =>
  if negb (distinct_ids (claim_id <$> new)) || existsb (fun c => has_claim (claim_id c) s) new then (Err AlreadyExists, s)
  else (Ok tt, mkVpDb (base s) (proofs s) (claims s ++ ((fun c => (credential_id, c)) <$> new)) (proof_claims s)).

Definition set_proof_claims (proof_id : Z) (new : list Z) : Vp DataLayerError unit := fun s =>
  match new with
  | [] => (insert_none, s)
  | _ =>
      if negb (distinct_ids new) || existsb (fun id => negb (has_claim id s) || existsb (fun e => bool_decide (e = (id, proof_id))) (proof_claims s)) new
      then (Err DlDb, s)
      else (Ok tt, mkVpDb (base s) (proofs s) (claims s) (proof_claims s ++ ((fun id => (id, proof_id)) <$> new)))
  end.

Definition delete_proof_claim_rows {E : Type} (proof_id : Z) : Vp E unit := fun s =>
  (Ok tt, mkVpDb (base s) (proofs s) (claims s) (List.filter (fun e => negb (snd e =? proof_id)) (proof_claims s))).
Definition delete_claims_for_credentials {E : Type} (ids : list Z) : Vp E unit := fun s =>
  (Ok tt, mkVpDb (base s) (proofs s) (List.filter (fun e => negb (bool_decide (fst e ∈ ids))) (claims s)) (proof_claims s)).

(** ** Credentials *)

(** [create_credential] with the claims of the credential. *)
Definition create_credential_row (c : Credential) (columns_of_c : IssuanceColumns) (new : list Claim) : Vp DataLayerError Z :=
  _ ← (fun s => match find_credential (credential_id c) (store (base s)) with
       | Some _ => (Err AlreadyExists, s)
       | None =>
           let b := base s in
           let st := mkStore (credentials (store b) ++ [c]) (revocation (store b)) (clock (store b)) in
           (Ok tt, mkVpDb (mkVciDb st (<[credential_id c := columns_of_c]> (columns b)) (interactions b) (blobs b) (mdocs b) (supply b))
                     (proofs s) (claims s) (proof_claims s))
       end : res DataLayerError unit * VpDb R);
  _ ← match new with [] => mret tt | _ => create_claim_list (credential_id c) new end;
  mret (credential_id c).
End repositories.
