(* ===== verification/VpValidator.v ===== *)
(** * OpenID4VP: the validation of a submission

    The verifier's checks of a response
    (proto/openid4vp_proof_validator/validator.rs and validated_proof_result.rs)
    with what they call of provider/verification_protocol/openid4vp/mapper.rs and
    mapper/mod.rs. A response answers a DCQL query, or a presentation definition
    of the older drafts. Formatters, DID resolution, the parsers of certificates
    and mdocs and the checks of the status are those of other components and
    crates, and are classes. *)

From S2P Require Import Prelude Paths StatusBits KeySelection RevocationRepo RevocationMethod TokenMethod ListFilter Validity.
From S2P Require Import SdValue Dcql VciStore VciService VpStore.
From Stdlib Require Import Ascii String.
#[local] Open Scope Z_scope.
#[local] Notation length := Datatypes.length.
#[local] Notation concat := List.concat.

(** ** Data *)

Inductive OpenID4VCError :=
| CredentialIsRevokedOrSuspended
| VpMappingError
| MissingClaimSchemas
| MissingRevocationProviderForType (type : string)
| VpOther
| VpValidation (what : string)
| VpInvalidRequest
| VPFormatsNotSupported
| VCFormatsNotSupported.

Inductive VerificationProtocolType :=
| OpenId4VpDraft20 | OpenId4VpDraft20Swiyu | OpenId4VpDraft25 | OpenId4VpFinal1_0 | IsoMdl | OpenId4VpProximityDraft00.
#[export] Instance VerificationProtocolType_eq_dec : EqDecision VerificationProtocolType.
Proof. solve_decision. Defined.

Inductive DidType := DidTypeKey | DidTypeWeb | DidTypeJwk | DidTypeUniversal | DidTypeWebVh.
#[export] Instance DidType_eq_dec : EqDecision DidType.
Proof. solve_decision. Defined.
#[export] Instance IdentifierDetails_eq_dec : EqDecision IdentifierDetails.
Proof. solve_decision. Defined.

(** Presentation exchange. *)
Record ConstraintField := mkField { fd_path : list string; fd_filter : option string }.
Record InputDescriptor := mkDescriptor { ds_id : string; ds_formats : list string; ds_fields : list ConstraintField }.
Record PresentationDefinition := mkDefinition { pd_id : string; pd_input_descriptors : list InputDescriptor }.
Record SubmissionDescriptor := mkSubmitted {
  sd_id : string;
  sd_format : string;
  sd_path : string;
  sd_path_nested : option (string * string)
}.
Record PresentationSubmission := mkSubmission { sb_definition_id : string; sb_descriptor_map : list SubmissionDescriptor }.

Inductive VpSubmissionData :=
| SubDcql (vp_token : gmap string (list string))
| SubDcqlEudi (vp_token : gmap string string)
| SubPex (vp_token : list string) (presentation_submission : PresentationSubmission)
| SubEncrypted (response : string).

Record SubmissionRequestData := mkSubmissionRequest {
  sr_submission_data : VpSubmissionData;
  sr_state : Z;
  sr_mdoc_generated_nonce : option string;
  sr_encryption_key : option Z
}.

(** [OpenID4VPVerifierInteractionContent]; of the encryption key its [kid], and
    the key as text. *)
Record VerifierInteractionContent := mkContent {
  vc_nonce : string;
  vc_presentation_definition : option PresentationDefinition;
  vc_dcql_query : option DcqlQuery;
  vc_client_id : string;
  vc_response_uri : option string;
  vc_encryption_key : option (option string * string)
}.

(** [ExtractPresentationCtx]; the fields that the verifier leaves empty are not
    listed. *)
Record ExtractPresentationCtx := mkCtx {
  cx_verification_protocol_type : VerificationProtocolType;
  cx_nonce : option string;
  cx_format_nonce : option string;
  cx_client_id : option string;
  cx_response_uri : option string;
  cx_verifier_key : option string
}.

Record ExtractedPresentation := mkPresentation {
  ep_issued_at : option Z;
  ep_expires_at : option Z;
  ep_issuer : option IdentifierDetails;
  ep_nonce : option string;
  ep_credentials : list string
}.

(** [DetailCredential] as a formatter extracts it from a presented token. *)
Record PresentedCredential := mkPresented {
  xc_issuance_date : option Z;
  xc_valid_from : option Z;
  xc_valid_until : option Z;
  xc_issuer : IdentifierDetails;
  xc_subject : option IdentifierDetails;
  xc_claims : list (string * CredentialClaim);
  xc_status : list CredentialStatus
}.

(** Whether a formatter refused the format, or failed otherwise. *)
Inductive FormatterFailure := NotExtractable | FormatterFailed.

Record PresentationFormatterOps := mkPresentationFormatter {
  pf_extract_presentation : string -> ExtractPresentationCtx -> FormatterFailure + ExtractedPresentation;
  pf_leeway : Z
}.
Record CredentialFormatterOps := mkCredentialFormatter {
  vf_extract_credentials : string -> option RequestedSchema -> FormatterFailure + PresentedCredential;
  vf_leeway : Z;
  vf_holder_did_methods : list DidType;
  vf_user_claims_path : list string
}.

(** A DID document: its verification methods with their keys. *)
Record DidDocument := mkDidDocument { dd_id : string; dd_verification_method : list (string * string) }.
#[export] Instance DidDocument_eq_dec : EqDecision DidDocument.
Proof. solve_decision. Defined.

Class VpProviders := {
  presentation_formatter_by_type : FormatType -> option string;
  presentation_formatter : string -> option PresentationFormatterOps;
  credential_formatter : string -> option CredentialFormatterOps;
  detect_sdjwt_type_is_vc : string -> option bool;
  get_crypto_suite : string -> option string;
  revocation_check_by_status_type : string -> option (CredentialStatus -> IdentifierDetails -> bool -> res RevocationError RevocationState);
  resolve_did : string -> option DidDocument;
  did_method : string -> string;
  did_type_from_str : string -> option DidType;
  get_akis_for_pem_chain : string -> option (list string);
  extract_mso : string -> option string;
  json_string_list : string -> option (list string)
}.

(** [ValidatedProofClaimDTO]. *)
Record ValidatedProofClaim := mkValidatedClaim {
  vl_proof_input_claim : ProofInputClaimSchema;
  vl_credential : PresentedCredential;
  vl_credential_schema : RequestedSchema;
  vl_value : CredentialClaim;
  vl_mdoc_mso : option string
}.

(** [ProvedCredential]: of the credential, what is set here. *)
Record ProvedCredential := mkProved {
  pv_id : Z;
  pv_schema : RequestedSchema;
  pv_protocol : string;
  pv_issuance_date : option Z;
  pv_claims : list Claim;
  pv_issuer_details : IdentifierDetails;
  pv_holder_details : IdentifierDetails;
  pv_mdoc_mso : option string
}.

(** ** Claims of a credential *)

Fixpoint resolve_claim_inner (fuel : nat) (claim_name : string) (claim : CredentialClaim) : option CredentialClaim :=
  let object := claim_as_object (SdValue.claim_value claim) in
  match object ≫= map_get claim_name with
  | Some value => Some value
  | None =>
      match split_once marker claim_name, fuel with
      | Some (prefix, rest), S fuel => (object ≫= map_get prefix) ≫= resolve_claim_inner fuel rest
      | _, _ => None
      end
  end.

(** The code returns [Ok] always. The recursion takes one segment off the name. *)
Definition resolve_claim (claim_name : string) (claims : list (string * CredentialClaim)) : option CredentialClaim :=
  match map_get claim_name claims with
  | Some value => Some value
  | None =>
      match split_once marker claim_name with
      | None => None
      | Some (prefix, rest) => map_get prefix claims ≫= resolve_claim_inner (depth rest) rest
      end
  end.

Definition validate_claims (received : PresentedCredential) (input : ProofInputSchema) (mso : option string) :
  res OpenID4VCError (list ValidatedProofClaim) :=
  expected ← ok_or (pi_claim_schemas input) VpMappingError;
  schema ← ok_or (pi_credential_schema input) VpMappingError;
  proved ← try_map (fun claim =>
    match resolve_claim (cs_key (pc_schema claim)) (xc_claims received) with
    | Some value => Ok [mkValidatedClaim claim received schema value mso]
    | None => _ ← fail_if (pc_required claim) (VpValidation "Required claim not submitted"); Ok []
    end) expected;
  Ok (concat proved).

(** ** Identifiers *)

Section validator.
Context `{VpProviders}.

Definition check_did_method_allowed (did : string) (allowed : list DidType) : res OpenID4VCError unit :=
  did_type ← (if String.eqb (did_method did) "webvh" then Ok DidTypeWebVh
              else ok_or (did_type_from_str (did_method did)) (VpValidation "Unsupported holder DID method"));
  fail_if (negb (existsb (fun d => bool_decide (d = did_type)) allowed)) (VpValidation "Unsupported holder DID method").

Definition check_matching_key_with_did (key did : string) : res OpenID4VCError unit :=
  document ← ok_or (resolve_did did) (VpValidation "DID resolution");
  fail_if (negb (existsb (fun vm => String.eqb (snd vm) key) (dd_verification_method document)))
    (VpValidation "Presentation signer DID not matching credential holder binding key").

Definition check_matching_dids (a b : string) : res OpenID4VCError unit :=
  claim_subject_document ← ok_or (resolve_did a) (VpValidation "DID resolution");
  holder_document ← ok_or (resolve_did b) (VpValidation "DID resolution");
  if bool_decide (claim_subject_document = holder_document) then Ok tt
  else
    holder_key ← ok_or (head (dd_verification_method holder_document))
                   (VpValidation "Presentation signer DID document contains no verification methods");
    fail_if (negb (existsb (fun vm => String.eqb (snd vm) (snd holder_key)) (dd_verification_method claim_subject_document)))
      (VpValidation "Presentation signer key not found in claim subject DID document").

Definition check_matching_identifiers (a b : IdentifierDetails) (allowed : list DidType) : res OpenID4VCError unit :=
  if bool_decide (a = b) then Ok tt
  else match a, b with
       | IdDid a, IdDid b =>
           _ ← check_did_method_allowed a allowed;
           _ ← check_did_method_allowed b allowed;
           check_matching_dids a b
       | IdDid did, IdKey key | IdKey key, IdDid did =>
           _ ← check_did_method_allowed did allowed;
           check_matching_key_with_did key did
       | _, _ => Err (VpValidation "Mismatching holder identifiers")
       end.

Definition get_trusted_akis (authorities : list TrustedAuthority) : list string :=
  concat ((fun a => match a with AuthorityKeyId values => values | _ => [] end) <$> authorities).

Definition check_issuer_is_trusted_authority (issuer : IdentifierDetails) (authorities : list TrustedAuthority) : res OpenID4VCError unit :=
  match issuer with
  | IdCertificate chain _ _ _ =>
      issuer_akis ← ok_or (get_akis_for_pem_chain chain) (VpValidation "Failed to retrieve Authority Key Identifier for credential issuer");
      fail_if (negb (existsb (fun trusted => existsb (String.eqb trusted) issuer_akis) (get_trusted_akis authorities)))
        (VpValidation "Issuer is not in Trusted Authorities list")
  | _ => Err (VpValidation "Issuer is not in Trusted Authorities list")
  end.

(** ** Times *)

Definition vp_validate_issuance_time (now : Z) (issued_at : option Z) (leeway : Z) : res OpenID4VCError unit :=
  match issued_at with Some t => fail_if (now + nanos leeway <? t) (VpValidation "Issued in future") | None => Ok tt end.
Definition vp_validate_expiration_time (now : Z) (expires_at : option Z) (leeway : Z) : res OpenID4VCError unit :=
  match expires_at with Some t => fail_if (t <? now - nanos leeway) (VpValidation "Expired") | None => Ok tt end.

(** ** Credentials and presentations *)

Definition check_status (issuer : IdentifierDetails) (status : CredentialStatus) : res OpenID4VCError unit :=
  check ← ok_or (revocation_check_by_status_type (cst_type status)) (MissingRevocationProviderForType (cst_type status));
  state ← map_err (fun _ => VpValidation "revocation status") (check status issuer false);
  match state with
  | Valid => Ok tt
  | Revoked | Suspended _ => Err CredentialIsRevokedOrSuspended
  end.

Definition validate_credential (now : Z) (holder_details : option IdentifierDetails) (credential_token : string) (input : ProofInputSchema)
  (trusted_authorities : option (list TrustedAuthority)) : res OpenID4VCError (PresentedCredential * option string) :=
  format ← ok_or (rs_format <$> pi_credential_schema input) VCFormatsNotSupported;
  formatter ← ok_or (credential_formatter format) VCFormatsNotSupported;
  credential ← map_err (fun e => match e with NotExtractable => VCFormatsNotSupported | FormatterFailed => VpOther end)
                 (of_sum (vf_extract_credentials formatter credential_token (pi_credential_schema input)));
  _ ← vp_validate_issuance_time now (xc_valid_from credential) (vf_leeway formatter);
  _ ← vp_validate_expiration_time now (xc_valid_until credential) (vf_leeway formatter);
  _ ← try_map (check_status (xc_issuer credential)) (xc_status credential);
  _ ← match holder_details with
      | Some holder_details =>
          subject ← ok_or (xc_subject credential) (VpValidation "Claim Holder DID missing");
          check_matching_identifiers subject holder_details (vf_holder_did_methods formatter)
      | None => Ok tt
      end;
  _ ← match trusted_authorities with
      | Some authorities => check_issuer_is_trusted_authority (xc_issuer credential) authorities
      | None => Ok tt
      end;
  mso ← (if String.eqb format "MDOC"
         then m ← ok_or (extract_mso credential_token) (VpValidation "MSO"); Ok (Some m)
         else Ok None);
  Ok (credential, mso).

Definition validate_presentation (now : Z) (presentation_string nonce presentation_format : string) (context : ExtractPresentationCtx) :
  res OpenID4VCError ExtractedPresentation :=
  formatter ← ok_or (presentation_formatter presentation_format) VCFormatsNotSupported;
  presentation ← map_err (fun e => match e with NotExtractable => VPFormatsNotSupported | FormatterFailed => VpOther end)
                   (of_sum (pf_extract_presentation formatter presentation_string context));
  _ ← vp_validate_issuance_time now (ep_issued_at presentation) (pf_leeway formatter);
  _ ← vp_validate_expiration_time now (ep_expires_at presentation) (pf_leeway formatter);
  _ ← fail_if (negb (bool_decide (ep_nonce presentation = Some nonce))) (VpValidation "Nonce not matched");
  Ok presentation.

(** [map_from_oidc_format_to_core_detailed] with a token. *)
Definition map_from_oidc_format_to_core_detailed (format token : string) : res OpenID4VCError FormatType :=
  if String.eqb format "jwt_vc_json" then Ok FtJwt
  else if existsb (String.eqb format) ["vc+sd-jwt"; "dc+sd-jwt"; "vc sd-jwt"]%string then
    is_vc ← ok_or (detect_sdjwt_type_is_vc token) VCFormatsNotSupported;
    Ok (if is_vc : bool then FtSdJwtVc else FtSdJwt)
  else if String.eqb format "ldp_vc" then
    suite ← ok_or (get_crypto_suite token) VCFormatsNotSupported;
    Ok (if String.eqb suite "bbs-2023" then FtJsonLdBbsPlus else FtJsonLdClassic)
  else if String.eqb format "jwt_vp_json" then Ok FtJwt
  else if String.eqb format "ldp_vp" then Ok FtJsonLdClassic
  else if String.eqb format "mso_mdoc" then Ok FtMdoc
  else Err VCFormatsNotSupported.

(** [Display] of the format of a query. *)
Definition query_format_to_string (f : CredentialFormat) : string :=
  match f with
  | JwtVc => "jwt_vc_json"
  | LdpVc => "ldp_vc"
  | MsoMdoc => "mso_mdoc"
  | SdJwt => "dc+sd-jwt"
  | W3cSdJwt => "vc+sd-jwt"
  end.

Definition presentation_context (content : VerifierInteractionContent) (protocol_type : VerificationProtocolType) (mdoc : bool)
  (mdoc_generated_nonce : option string) : ExtractPresentationCtx :=
  if mdoc
  then mkCtx protocol_type (Some (vc_nonce content)) mdoc_generated_nonce (Some (vc_client_id content)) (vc_response_uri content)
         (snd <$> vc_encryption_key content)
  else mkCtx protocol_type (Some (vc_nonce content)) None (Some (vc_client_id content)) None None.

(** ** DCQL *)

(** The tokens to check, and the holder when a binding is required: the first
    presentation is opened. *)
Definition presented_tokens (now : Z) (query : CredentialQuery) (content : VerifierInteractionContent) (presentation_strings : list string)
  (context : ExtractPresentationCtx) : res OpenID4VCError (option IdentifierDetails * list string) :=
  if query_require_cryptographic_holder_binding query then
    _ ← fail_if (negb (query_multiple query) && negb (Nat.eqb (length presentation_strings) 1))
          (VpValidation "Expected one presentation for credential query");
    presentation_string ← ok_or (head presentation_strings) (VpValidation "No presentations for credential query");
    format_type ← match query_format query with
                  | W3cSdJwt => Ok FtJwt
                  | _ => map_from_oidc_format_to_core_detailed (query_format_to_string (query_format query)) presentation_string
                  end;
    presentation_format ← ok_or (presentation_formatter_by_type format_type) VCFormatsNotSupported;
    presentation ← validate_presentation now presentation_string (vc_nonce content) presentation_format context;
    holder_details ← ok_or (ep_issuer presentation) (VpValidation "Presentation missing holder id");
    Ok (Some holder_details, ep_credentials presentation)
  else Ok (None, presentation_strings).

(** The check on the claim sets of the query, as it is written: it fails when a
    claim set is covered by the keys of the proved claims. *)
Definition claim_set_check (query : CredentialQuery) (proved : list ValidatedProofClaim) : res OpenID4VCError unit :=
  match query_claim_sets query with
  | Some claim_sets =>
      fail_if (existsb (fun claim_set => forallb (fun claim =>
                 existsb (fun p => String.eqb (cs_key (pc_schema (vl_proof_input_claim p))) claim) proved) claim_set) claim_sets)
        (VpValidation "Claim set is not satisfied")
  | None => Ok tt
  end.

Definition validate_token (now : Z) (query : CredentialQuery) (input : ProofInputSchema) (holder_details : option IdentifierDetails)
  (credential_token : string) : res OpenID4VCError (list ValidatedProofClaim) :=
  credential_mso ← validate_credential now holder_details credential_token input (query_trusted_authorities query);
  proved ← validate_claims (fst credential_mso) input (snd credential_mso);
  _ ← claim_set_check query proved;
  Ok proved.

Definition validate_credential_query (now : Z) (query : CredentialQuery) (content : VerifierInteractionContent) (input : ProofInputSchema)
  (presentation_strings : list string) (context : ExtractPresentationCtx) : res OpenID4VCError (list ValidatedProofClaim) :=
  tokens ← presented_tokens now query content presentation_strings context;
  proved ← try_map (validate_token now query input (fst tokens)) (snd tokens);
  Ok (concat proved).

Context `{UuidSupply}.

(** The proof input that a query was made of. *)
Definition input_of_query (inputs : list ProofInputSchema) (query : CredentialQuery) : option ProofInputSchema :=
  find_first (fun input => match pi_credential_schema input with
                           | Some schema => String.eqb (uuid_to_string (rs_id schema)) (query_id query)
                           | None => false
                           end) inputs.

Definition validate_query (now : Z) (vp_token : gmap string (list string)) (mdoc_generated_nonce : option string) (inputs : list ProofInputSchema)
  (content : VerifierInteractionContent) (protocol_type : VerificationProtocolType) (query : CredentialQuery) :
  res OpenID4VCError (list ValidatedProofClaim) :=
  input ← ok_or (input_of_query inputs query) VpOther;
  presentation_strings ← ok_or (vp_token !! query_id query) (VpValidation "No presentation found for credential query");
  validate_credential_query now query content input presentation_strings
    (presentation_context content protocol_type (bool_decide (query_format query = MsoMdoc)) mdoc_generated_nonce).

Definition process_proof_submission_dcql_query (now : Z) (submission : SubmissionRequestData) (proof : ProofModel)
  (content : VerifierInteractionContent) (protocol_type : VerificationProtocolType) : res OpenID4VCError (list ValidatedProofClaim) :=
  vp_token ← match sr_submission_data submission with SubDcql vp_token => Ok vp_token | _ => Err (VpValidation "Missing DCQL VP token") end;
  dcql_query ← ok_or (vc_dcql_query content) (VpValidation "Missing DCQL query in interaction data");
  inputs ← ok_or (pm_schema proof ≫= ps_input_schemas) VpMappingError;
  _ ← fail_if (negb (Nat.eqb (size vp_token) (length (dcql_credentials dcql_query))))
        (VpValidation "Different count of requested and submitted credentials");
  proved ← try_map (validate_query now vp_token (sr_mdoc_generated_nonce submission) inputs content protocol_type) (dcql_credentials dcql_query);
  Ok (concat proved).

(** ** Presentation exchange *)

(** [path.rfind(c)]. *)
Definition rfind (c : ascii) (s : string) : option Z := (fun p => Z.of_nat (String.length (fst p))) <$> rsplit_once c s.

(** A range of a string panics when its end is before its start. *)
Definition str_range {E : Type} (s : string) (a b : Z) : res E string :=
  if a <=? b then Ok (String.substring (Z.to_nat a) (Z.to_nat (b - a)) s) else Panic.

Definition vec_last_position_from_token_path (path : string) : res OpenID4VCError Z :=
  match rfind "["%char path with
  | Some open_bracket =>
      close_bracket ← ok_or (rfind "]"%char path) VpMappingError;
      value ← str_range path (open_bracket + 1) close_bracket;
      ok_or (usize_from_str value) VpMappingError
  | None => Ok 0
  end.

Definition target_schema_id (descriptor : InputDescriptor) : res OpenID4VCError string :=
  if existsb (String.eqb "mso_mdoc") (ds_formats descriptor) then Ok (ds_id descriptor)
  else
    field ← ok_or (find_first (fun field =>
                     (match fd_filter field with Some _ => true | None => false end && existsb (String.eqb "$.credentialSchema.id") (fd_path field))
                     || existsb (String.eqb "$.vct") (fd_path field)) (ds_fields descriptor))
              (VpValidation "Cannot find filter for schemaId");
    ok_or (fd_filter field) (VpValidation "Cannot find filter for schemaId").

(** One entry of the descriptor map. *)
Definition validate_submitted (now : Z) (presentation_strings : list string) (mdoc_generated_nonce : option string) (inputs : list ProofInputSchema)
  (content : VerifierInteractionContent) (definition : PresentationDefinition) (protocol_type : VerificationProtocolType)
  (submitted : SubmissionDescriptor) : res OpenID4VCError (list ValidatedProofClaim) :=
  descriptor ← ok_or (find_first (fun d => String.eqb (ds_id d) (sd_id submitted)) (pd_input_descriptors definition))
                 (VpValidation "Could not find input descriptor id");
  index ← vec_last_position_from_token_path (sd_path submitted);
  presentation_string ← ok_or (get_at presentation_strings index) (VpValidation "Could not find presentation at index");
  format_type ← map_from_oidc_format_to_core_detailed (sd_format submitted) presentation_string;
  presentation_format ← ok_or (presentation_formatter_by_type format_type) VCFormatsNotSupported;
  presentation ← validate_presentation now presentation_string (vc_nonce content) presentation_format
                   (presentation_context content protocol_type (String.eqb (sd_format submitted) "mso_mdoc") mdoc_generated_nonce);
  _ ← match sd_path_nested submitted with
      | Some (format, _) => fail_if (negb (existsb (String.eqb format) (ds_formats descriptor))) (VpValidation "Could not find entry for format")
      | None => Ok tt
      end;
  target ← target_schema_id descriptor;
  input ← ok_or (find_first (fun input => match pi_credential_schema input with
                                          | Some schema => String.eqb (rs_schema_id schema) target
                                          | None => false
                                          end) inputs) VpOther;
  holder_details ← ok_or (ep_issuer presentation) (VpValidation "Presentation missing holder id");
  credential_index ← match sd_path_nested submitted with
                     | Some (_, path) => vec_last_position_from_token_path path
                     | None => Ok 0
                     end;
  credential_token ← ok_or (get_at (ep_credentials presentation) credential_index) (VpValidation "Credential at index not found");
  credential_mso ← validate_credential now (Some holder_details) credential_token input None;
  validate_claims (fst credential_mso) input (snd credential_mso).

Definition process_proof_submission_presentation_exchange (now : Z) (submission : SubmissionRequestData) (proof : ProofModel)
  (content : VerifierInteractionContent) (protocol_type : VerificationProtocolType) : res OpenID4VCError (list ValidatedProofClaim) :=
  '(vp_token, presentation_submission) ← match sr_submission_data submission with
                                         | SubPex vp_token presentation_submission => Ok (vp_token, presentation_submission)
                                         | _ => Err (VpValidation "Missing presentation submission")
                                         end;
  _ ← fail_if (negb (String.eqb (sb_definition_id presentation_submission) (uuid_to_string (sr_state submission))))
        (VpValidation "Invalid submission state");
  presentation_strings ← match vp_token with
                         | [String "["%char _ as token] => ok_or (json_string_list token) (VpValidation "vp_token")
                         | _ => Ok vp_token
                         end;
  schema ← ok_or (pm_schema proof) VpMappingError;
  inputs ← match ps_input_schemas schema with Some (input :: inputs) => Ok (input :: inputs) | _ => Err VpOther end;
  definition ← ok_or (vc_presentation_definition content) (VpValidation "Missing presentation definition");
  _ ← fail_if (negb (Nat.eqb (length (sb_descriptor_map presentation_submission)) (length (pd_input_descriptors definition))))
        (VpValidation "different count of requested and submitted credentials");
  _ ← fail_if (existsb (fun descriptor => forallb (fun entry => negb (String.eqb (sd_id entry) (ds_id descriptor)))
                          (sb_descriptor_map presentation_submission)) (pd_input_descriptors definition))
        (VpValidation "No descriptor map entry for input descriptor");
  proved ← try_map (validate_submitted now presentation_strings (sr_mdoc_generated_nonce submission) inputs content definition protocol_type)
             (sb_descriptor_map presentation_submission);
  Ok (concat proved).

Definition throw_if_proof_state_not_in {E : Type} (e : E) (proof : ProofRow) (valid_states : list ProofStateEnum) : res E unit :=
  fail_if (negb (existsb (fun st => bool_decide (st = pr_state proof)) valid_states)) e.

(** The checks of [validate_submission], before the result is put together. *)
Definition proved_by_submission (now : Z) (request : SubmissionRequestData) (proof : ProofModel) (content : VerifierInteractionContent)
  (protocol_type : VerificationProtocolType) : res OpenID4VCError (list ValidatedProofClaim) :=
  _ ← throw_if_proof_state_not_in (VpValidation "Invalid proof state") (pm_row proof) [PsPending; PsRequested];
  match vc_dcql_query content, vc_presentation_definition content with
  | Some _, Some _ => Err (VpValidation "DCQL query and presentation submission are not allowed at the same time")
  | Some _, None => process_proof_submission_dcql_query now request proof content protocol_type
  | None, Some _ => process_proof_submission_presentation_exchange now request proof content protocol_type
  | None, None => Err (VpValidation "Missing DCQL query and presentation submission")
  end.

(** ** The result *)

Definition validate_proof_completeness (schema : ProofSchema) (proved : list ValidatedProofClaim) : res OpenID4VCError unit :=
  inputs ← ok_or (ps_input_schemas schema) (VpValidation "Missing proof input schemas");
  _ ← try_map (fun input =>
        credential_schema ← ok_or (pi_credential_schema input) (VpValidation "Missing credential schema");
        claim_schemas ← ok_or (pi_claim_schemas input) (VpValidation "Missing claim input schemas");
        try_map (fun claim => fail_if (pc_required claim && negb (existsb (fun p => (rs_id credential_schema =? rs_id (vl_credential_schema p)) &&
                    (cs_id (pc_schema claim) =? cs_id (pc_schema (vl_proof_input_claim p)))) proved))
                 (VpValidation "Claim is required but not found in proof submission")) claim_schemas) inputs;
  Ok tt.
End validator.

(** ** The claims that are stored *)

Fixpoint mapi {A B : Type} (f : nat -> A -> B) (n : nat) (l : list A) : list B :=
  match l with [] => [] | x :: l => f n x :: mapi f (S n) l end.
Fixpoint sequence {S E A : Type} (l : list (M S E A)) : M S E (list A) :=
  match l with [] => mret [] | m :: l => x ← m; xs ← sequence l; mret (x :: xs) end.

Section result.
Context {R : Type} `{UuidSupply} `{HashOrder}.
#[local] Notation Vp E A := (M (VpDb R) E A).

(** [value_to_model_claims]; the members of an object come in the order of a
    hash map. *)
Fixpoint value_to_model_claims (claim_schemas : list ClaimSchema) (value : CredentialClaim) (schema : ClaimSchema) (path : string) {struct value} :
  Vp OpenID4VCError (list Claim) :=
  let 'mkCredentialClaim selectively_disclosable _ v := value in
  id ← on_base new_uuid;
  let stub v := mkClaim id v path selectively_disclosable (Some schema) in
  match v with
  | CString s => mret [stub (Some s)]
  | CBool b => mret [stub (Some (if b then "true" else "false")%string)]
  | CNumber n => mret [stub (Some n)]
  | CObject object =>
      children ← sequence (hash_order _ (map (fun '(key, value) =>
        child ← lift (ok_or (find_first (fun s => String.eqb (cs_key s) (cs_key schema ++ "/" ++ key)%string) claim_schemas) MissingClaimSchemas);
        value_to_model_claims claim_schemas value child (path ++ "/" ++ key)%string) object));
      mret (stub None :: concat children)
  | CArray array =>
      children ← sequence (mapi (fun index value =>
        value_to_model_claims claim_schemas value schema (path ++ "/" ++ usize_to_string (Z.of_nat index))%string) 0 array);
      mret (stub None :: concat children)
  end.

Definition extracted_credential_to_model (claim_schemas : list ClaimSchema) (schema : RequestedSchema) (values : list (CredentialClaim * ClaimSchema))
  (issuer_details holder_details : IdentifierDetails) (mdoc_mso : option string) (protocol : string) (issuance_date : option Z) :
  Vp OpenID4VCError ProvedCredential :=
  credential_id ← on_base new_uuid;
  model_claims ← sequence ((fun '(value, claim_schema) => value_to_model_claims claim_schemas value claim_schema (cs_key claim_schema)) <$> values);
  mret (mkProved credential_id schema protocol issuance_date (concat model_claims) issuer_details holder_details mdoc_mso).

(** The claims of the credential schemas of the inputs, by the id of the schema. *)
Definition claim_schemas_by_id (inputs : list ProofInputSchema) : res OpenID4VCError (list (Z * list ClaimSchema)) :=
  try_map (fun input =>
    schema ← ok_or (pi_credential_schema input) VpMappingError;
    claim_schemas ← ok_or (rs_claim_schemas schema) VpMappingError;
    Ok (rs_id schema, claim_schemas)) inputs.

Definition claim_schemas_of_id (id : Z) (by_id : list (Z * list ClaimSchema)) : option (list ClaimSchema) :=
  match List.filter (fun e => fst e =? id) by_id with [] => None | l => Some (concat (snd <$> l)) end.

(** The proved claims by the id of their credential schema. *)
Definition claims_per_credential (proved : list ValidatedProofClaim) : list (Z * list ValidatedProofClaim) :=
  (fun id => (id, List.filter (fun p => rs_id (vl_credential_schema p) =? id) proved)) <$>
    remove_dups ((fun p => rs_id (vl_credential_schema p)) <$> proved).

Definition prove_credential (protocol : string) (by_id : list (Z * list ClaimSchema)) (group : Z * list ValidatedProofClaim) :
  Vp OpenID4VCError ProvedCredential :=
  let '(schema_id, group) := group in
  first_claim ← lift (ok_or (head group) VpMappingError);
  let credential := vl_credential first_claim in
  holder_details ← lift (ok_or (xc_subject credential) VpMappingError);
  claim_schemas ← lift (ok_or (claim_schemas_of_id schema_id by_id) VpMappingError);
  extracted_credential_to_model claim_schemas (vl_credential_schema first_claim)
    ((fun p => (vl_value p, pc_schema (vl_proof_input_claim p))) <$> group) (xc_issuer credential) holder_details (vl_mdoc_mso first_claim)
    protocol (xc_issuance_date credential).

(** [ValidatedProofResult::new]: the credentials and all their claims. *)
Definition validate_proof (proof : ProofModel) (proved : list ValidatedProofClaim) : Vp OpenID4VCError (list ProvedCredential * list Claim) :=
  schema ← lift (ok_or (pm_schema proof) VpMappingError);
  _ ← lift (validate_proof_completeness schema proved);
  inputs ← lift (ok_or (ps_input_schemas schema) VpMappingError);
  by_id ← lift (claim_schemas_by_id inputs);
  credentials ← sequence (prove_credential (pr_protocol (pm_row proof)) by_id <$> hash_order _ (claims_per_credential proved));
  mret (credentials, concat (pv_claims <$> credentials)).

(** [validate_submission]: the result, and the redirect URI of the response. *)
Definition validate_submission `{VpProviders} (request : SubmissionRequestData) (proof : ProofModel) (content : VerifierInteractionContent)
  (protocol_type : VerificationProtocolType) : Vp OpenID4VCError ((list ProvedCredential * list Claim) * option string) :=
  now ← vp_now;
  proved ← lift (proved_by_submission now request proof content protocol_type);
  result ← validate_proof proof proved;
  mret (result, pr_redirect_uri (pm_row proof)).
End result.
