(* ===== verification/VpService.v ===== *)
(** * OpenID4VP: the verifier's service

    The response endpoint of service/oid4vp_final1_0/service.rs, which persists
    an accepted proof with util/openid4vp.rs and mapper/openid4vp.rs; the DCQL
    query of a proof request (provider/verification_protocol/openid4vp/final1_0),
    and the operations of service/proof/service.rs that share, retract and delete
    a proof request and the claims that were proved. [interfere] is what other
    calls commit between the checks of a response and the transaction that
    accepts it. *)

From S2P Require Import Prelude Paths StatusBits KeySelection RevocationRepo RevocationMethod TokenMethod ListFilter Validity.
From S2P Require Import SdValue Dcql VciStore VciService VpStore VpValidator.
From Stdlib Require Import Ascii String.
#[local] Open Scope Z_scope.
#[local] Notation length := Datatypes.length.
#[local] Notation concat := List.concat.

(** ** Data *)

(** [OID4VPFinal1_0ServiceError]. *)
Inductive VpServiceError :=
| VsMissingProof (id : Z)
| VsMissingProofForInteraction (interaction_id : Z)
| VsValidationError
| VsOpenID4VC (e : OpenID4VCError)
| VsMappingError
| VsInvalidProofState (state : ProofStateEnum)
| VsData (e : DataLayerError)
| VsNested.

Record DirectPostRequest := mkDirectPost { dp_submission_data : VpSubmissionData; dp_state : option Z }.

(** The configured protocols, and whether blobs can be stored in the database. *)
Record OID4VPService := mkVpService {
  vs_verification_protocol : list (string * VerificationProtocolType);
  vs_db_blob_storage : bool
}.

Inductive IdentifierRole := RoleIssuer | RoleHolder.

(** Serde of the stored data, UUIDs as text, the identifiers of remote parties,
    CBOR, and the decryption of responses. *)
Class VpWorld := {
  vp_uuid_from_str : string -> option Z;
  content_from_slice : string -> option VerifierInteractionContent;
  content_to_vec : VerifierInteractionContent -> option string;
  submission_to_string : VpSubmissionData -> option string;
  get_or_create_remote_identifier : Z -> IdentifierDetails -> IdentifierRole -> option (Identifier * option Certificate);
  encode_mso : string -> option string;
  extract_jwe_header : string -> option (string * option string);
  jwe_private_key : Z -> res VpServiceError string;
  decrypt_jwe_payload : string -> string -> option string;
  jwe_payload_from_json : string -> option (VpSubmissionData * option string)
}.

Definition state_proof_update (state : ProofStateEnum) (proof_blob_id : option Z) : UpdateProofRequest :=
  mkUpdateProof None (Some state) None None None None (Some <$> proof_blob_id) None.

Section service.
Context {R : Type} `{UuidSupply} `{Randoms} `{SqlDialect} `{HashOrder} `{VpProviders} `{VpWorld}.
Context (self : OID4VPService) (proof_schemas : Z -> option ProofSchema).
#[local] Notation Vp E A := (M (VpDb R) E A).

Definition vp_data {A : Type} (m : Vp DataLayerError A) : Vp VpServiceError A := M_map_err VsData m.
Definition attempt {E F A : Type} (m : Vp E A) : Vp F (res E A) := fun s =>
  match m s with (Panic, s') => (Panic, s') | (r, s') => (Ok r, s') end.
Definition vp_others {E : Type} (interfere : VpDb R -> VpDb R) : Vp E unit := fun s => (Ok tt, interfere s).

(** ** The accepted proof *)

Definition credential_from_proved (organisation : Z) (p : ProvedCredential) : res VpServiceError (Credential * IssuanceColumns) :=
  '(issuer, certificate) ← ok_or (get_or_create_remote_identifier organisation (pv_issuer_details p) RoleIssuer) VsNested;
  '(holder, _) ← ok_or (get_or_create_remote_identifier organisation (pv_holder_details p) RoleHolder) VsNested;
  let schema := rs_schema (pv_schema p) in
  Ok (mkCredential (pv_id p) None Verifier CsAccepted None None (Some issuer) certificate
        (Some (mkCredentialSchema (schema_id schema) (allow_suspension schema) (revocation_method schema) (Some organisation) (schema_format schema))),
      mkColumns (pv_protocol p) None None (Some (identifier_id holder)) (pv_issuance_date p) None None).

Definition persist_credential (organisation : Z) (p : ProvedCredential) : Vp VpServiceError unit :=
  '(credential, columns) ← lift (credential_from_proved organisation p);
  _ ← vp_data (create_credential_row credential columns (pv_claims p));
  match pv_mdoc_mso p with
  | Some mso =>
      mso_cbor ← lift (ok_or (encode_mso mso) VsNested);
      now ← vp_now;
      on_base (insert_mdoc (mkMdoc (pv_id p) now mso_cbor))
  | None => mret tt
  end.

Definition persist_accepted_proof (proof_id : Z) (result : list ProvedCredential * list Claim) (organisation proof_blob_id : Z) :
  Vp VpServiceError unit :=
  transaction (
    found ← get_proof_row proof_id;
    proof ← lift (ok_or found (VsMissingProof proof_id));
    _ ← lift (throw_if_proof_state_not_in (VsInvalidProofState (pr_state proof)) proof [PsPending; PsRequested]);
    _ ← for_each (persist_credential organisation) (fst result);
    _ ← vp_data (set_proof_claims (pr_id proof) (claim_id <$> snd result));
    vp_data (update_proof (pr_id proof) (state_proof_update PsAccepted (Some proof_blob_id)))).

(** ** The response endpoint *)

Definition parse_interaction_content (data : option string) : res VpServiceError VerifierInteractionContent :=
  data ← ok_or data VsMappingError;
  ok_or (content_from_slice data) VsMappingError.

Definition validate_verification_protocol_config_exists (protocols : list VerificationProtocolType) : res VpServiceError unit :=
  fail_if (negb (existsb (fun e => existsb (fun p => bool_decide (p = snd e)) protocols) (vs_verification_protocol self))) VsNested.

Definition unpack_direct_post_request (request : DirectPostRequest) : res VpServiceError SubmissionRequestData :=
  match dp_submission_data request, dp_state request with
  | SubDcql _ as data, Some state | SubPex _ _ as data, Some state => Ok (mkSubmissionRequest data state None None)
  | SubEncrypted jwe, _ =>
      header ← ok_or (extract_jwe_header jwe) VsValidationError;
      key_id ← ok_or (vp_uuid_from_str (fst header)) VsValidationError;
      key ← jwe_private_key key_id;
      payload ← ok_or (decrypt_jwe_payload jwe key) VsValidationError;
      payload ← ok_or (jwe_payload_from_json payload) VsValidationError;
      state ← ok_or (snd payload) VsValidationError;
      state ← ok_or (vp_uuid_from_str state) VsValidationError;
      Ok (mkSubmissionRequest (fst payload) state (snd header) (Some key_id))
  | _, _ => Err (VsOpenID4VC VpInvalidRequest)
  end.

Definition check_encryption_key (request : SubmissionRequestData) (content : VerifierInteractionContent) : res VpServiceError unit :=
  match sr_encryption_key request with
  | Some used_key_id =>
      encryption_key_id ← ok_or (vc_encryption_key content ≫= fst) VsMappingError;
      fail_if (negb (String.eqb (uuid_to_string used_key_id) encryption_key_id))
        (VsOpenID4VC (VpValidation "Proof encrypted with an incorrect key"))
  | None => Ok tt
  end.

(** A failure to write the state is only logged. *)
Definition mark_proof_as_failed (id proof_blob_id : Z) : Vp VpServiceError unit :=
  _ ← attempt (update_proof id (state_proof_update PsError (Some proof_blob_id)));
  mret tt.

Definition verify_submission (interfere : VpDb R -> VpDb R) (proof : ProofModel) (request : SubmissionRequestData) :
  Vp VpServiceError (option string) :=
  schema ← lift (ok_or (pm_schema proof) VsMappingError);
  organisation ← lift (ok_or (ps_organisation schema) VsMappingError);
  interaction ← lift (ok_or (pm_interaction proof) VsMappingError);
  content ← lift (parse_interaction_content (in_data (snd interaction)));
  _ ← lift (check_encryption_key request content);
  _ ← lift (fail_if (negb (vs_db_blob_storage self)) VsNested);
  blob_value ← lift (ok_or (submission_to_string (sr_submission_data request)) VsMappingError);
  proof_blob_id ← vp_data (on_base (create_blob blob_value));
  validated ← attempt (validate_submission request proof content OpenId4VpFinal1_0);
  _ ← vp_others interfere;
  match validated with
  | Ok (result, redirect_uri) =>
      _ ← persist_accepted_proof (pr_id (pm_row proof)) result organisation proof_blob_id;
      mret redirect_uri
  | Err e =>
      _ ← mark_proof_as_failed (pr_id (pm_row proof)) proof_blob_id;
      throw (VsOpenID4VC e)
  | Panic => fun s => (Panic, s)
  end.

Definition direct_post (interfere : VpDb R -> VpDb R) (request : DirectPostRequest) : Vp VpServiceError (option string) :=
  _ ← lift (validate_verification_protocol_config_exists [OpenId4VpFinal1_0]);
  unpacked ← lift (unpack_direct_post_request request);
  found ← vp_data (get_proof_by_interaction_id proof_schemas (sr_state unpacked));
  proof ← lift (ok_or found (VsMissingProofForInteraction (sr_state unpacked)));
  verify_submission interfere proof unpacked.
End service.
