(* ===== verification/VpProofs.v ===== *)
(** * OpenID4VP: proof requests

    The life of a proof request before and after its response: the DCQL query
    that is made of the proof schema
    (provider/verification_protocol/openid4vp/final1_0/dcql.rs), the sharing of a
    request ([share_proof] of service/proof/service.rs with [verifier_share_proof]
    of final1_0/mod.rs), retraction and deletion, and the deletion of the claims
    that were proved. Of the authorization request the parts that are stored are
    modelled; that it can be signed and put into a URL is a parameter. *)

From S2P Require Import Prelude Paths StatusBits KeySelection RevocationRepo RevocationMethod TokenMethod ListFilter Validity.
From S2P Require Import SdValue Dcql VciStore VciService VpStore VpValidator VpService.
From Stdlib Require Import Ascii String.
#[local] Open Scope Z_scope.
#[local] Notation length := Datatypes.length.
#[local] Notation concat := List.concat.

(** ** Data *)

Inductive ProofServiceError :=
| PeNotFound (id : Z)
| PeInvalidState (state : ProofStateEnum)
| PeInvalidEngagement
| PeMappingError
| PeMissingProtocol (protocol : string)
| PeProtocol
| PeSession (e : ValidityError)
| PeData (e : DataLayerError)
| PeMissingBlobStorage.

Definition DEFAULT_ENGAGEMENT : string := "QR_CODE".

Inductive ClientIdScheme := SchemeRedirectUri | SchemeVerifierAttestation | SchemeDid | SchemeX509SanDns | SchemeX509Hash.
#[export] Instance ClientIdScheme_eq_dec : EqDecision ClientIdScheme.
Proof. solve_decision. Defined.

(** The type of a configured format and the Pascal case of a name; the parameters
    of the protocol; the verifier's identifier, certificate and key, relations of
    a proof; URLs, the base64 of a fingerprint and the JWK of an encryption key,
    with no JWK for a key that has no key agreement; whether the authorization
    request can be made; and the protocols: whether one is configured, and how it
    retracts a request. *)
Class ProofWorld := {
  format_type_of : string -> option FormatType;
  pascal_case : string -> string;
  base_url : option string;
  supported_client_id_schemes : list ClientIdScheme;
  interaction_expires_in : option Z;
  verifier_identifier : ProofModel -> option Identifier;
  verifier_certificate : ProofModel -> option Certificate;
  verifier_key : ProofModel -> option Key;
  url_parses : string -> bool;
  url_domain : string -> option (option string);
  fingerprint_base64 : string -> option string;
  encryption_jwk : Key -> option (option string);
  authorization_request_made : ProofModel -> ClientIdScheme -> DcqlQuery -> bool;
  verification_protocol_found : string -> bool;
  retract : ProofModel -> option unit
}.

(** ** The query *)

(** [From<FormatType> for CredentialFormat]. *)
Definition dcql_format (f : FormatType) : CredentialFormat :=
  match f with
  | FtJwt => JwtVc
  | FtSdJwt => W3cSdJwt
  | FtSdJwtVc => SdJwt
  | FtJsonLdClassic | FtJsonLdBbsPlus => LdpVc
  | FtMdoc => MsoMdoc
  end.

Section queries.
Context `{UuidSupply} `{VpProviders} `{ProofWorld}.

Definition claim_query_id (claim : ProofInputClaimSchema) : string := uuid_to_string (cs_id (pc_schema claim)).

Definition build_claim_sets (claim_schemas : list ProofInputClaimSchema) : option (list (list string)) :=
  let required := List.filter pc_required claim_schemas in
  let optional := List.filter (fun c => negb (pc_required c)) claim_schemas in
  match optional with
  | [] => None
  | _ => Some [(claim_query_id <$> required) ++ (claim_query_id <$> optional); claim_query_id <$> required]
  end.

Definition w3c_credential_query_type_values (schema : RequestedSchema) : list (list string) :=
  let credential_type := pascal_case (rs_name schema) in
  [["https://www.w3.org/2018/credentials#VerifiableCredential"; rs_schema_id schema ++ "#" ++ credential_type]; [credential_type]]%string.

Definition format_dcql_path (claim_key : string) (user_claim_path : list string) : ClaimPath :=
  PropertyName <$> (user_claim_path ++ split_on marker claim_key).

Definition query_meta_of (format : CredentialFormat) (schema : RequestedSchema) : CredentialMeta :=
  match format with
  | MsoMdoc => MetaMsoMdoc (rs_schema_id schema)
  | SdJwt => MetaSdJwtVc [rs_schema_id schema]
  | LdpVc | JwtVc | W3cSdJwt => MetaW3cVc (w3c_credential_query_type_values schema)
  end.

(** The query for one input of the proof schema. *)
Definition query_of_input (input : ProofInputSchema) : res ProofServiceError CredentialQuery :=
  schema ← ok_or (pi_credential_schema input) PeProtocol;
  claim_schemas ← ok_or (pi_claim_schemas input) PeProtocol;
  formatter ← ok_or (credential_formatter (rs_format schema)) PeProtocol;
  format ← ok_or (format_type_of (rs_format schema)) PeProtocol;
  let claim_queries := (fun claim => mkClaimQuery (Some (claim_query_id claim))
                          (format_dcql_path (cs_key (pc_schema claim)) (vf_user_claims_path formatter)) None (Some (pc_required claim))) <$>
                       claim_schemas in
  Ok (mkCredentialQuery (uuid_to_string (rs_id schema)) (dcql_format format) (query_meta_of (dcql_format format) schema) (Some claim_queries)
        (build_claim_sets claim_schemas) None false true).

Definition create_dcql_query (schema : ProofSchema) : res ProofServiceError DcqlQuery :=
  inputs ← ok_or (ps_input_schemas schema) PeProtocol;
  queries ← try_map query_of_input inputs;
  Ok (mkDcqlQuery queries None).
End queries.

(** ** The client id *)

Section client.
Context `{UuidSupply} `{ProofWorld}.

Definition get_supported_client_id_scheme_for_identifier (type : IdentifierType) : list ClientIdScheme :=
  match type with
  | TypeKey => []
  | TypeDid => [SchemeDid; SchemeVerifierAttestation; SchemeRedirectUri]
  | TypeCertificate => [SchemeX509SanDns; SchemeX509Hash]
  | TypeCertificateAuthority => []
  end.

Definition has_scheme (schemes : list ClientIdScheme) (scheme : ClientIdScheme) : bool := existsb (fun x => bool_decide (x = scheme)) schemes.

Definition get_client_id_scheme (params : option ClientIdScheme) (supported : list ClientIdScheme) (identifier : Identifier) :
  res ProofServiceError ClientIdScheme :=
  match params with
  | Some scheme => Ok scheme
  | None => ok_or (find_first (has_scheme (get_supported_client_id_scheme_for_identifier (identifier_type identifier))) supported) PeProtocol
  end.

Definition client_id_scheme_to_string (scheme : ClientIdScheme) : string :=
  match scheme with
  | SchemeRedirectUri => "redirect_uri"
  | SchemeVerifierAttestation => "verifier_attestation"
  | SchemeDid => "did"
  | SchemeX509SanDns => "x509_san_dns"
  | SchemeX509Hash => "x509_hash"
  end.

Definition encode_client_id_with_scheme (client_id_without_prefix : string) (scheme : ClientIdScheme) : string :=
  match scheme with
  | SchemeDid => "decentralized_identifier:" ++ client_id_without_prefix
  | _ => client_id_scheme_to_string scheme ++ ":" ++ client_id_without_prefix
  end.

(** [ClientIdScheme::from_str], and the reading of a client id by the holder. *)
Definition client_id_scheme_from_str (s : string) : option ClientIdScheme :=
  find_first (fun scheme => String.eqb (client_id_scheme_to_string scheme) s)
    [SchemeRedirectUri; SchemeVerifierAttestation; SchemeDid; SchemeX509SanDns; SchemeX509Hash].

Definition decode_client_id_with_scheme (client_id : string) : res ProofServiceError (string * ClientIdScheme) :=
  parts ← ok_or (split_once ":"%char client_id) PeProtocol;
  _ ← fail_if (String.eqb (fst parts) "did") PeProtocol;
  scheme ← (if String.eqb (fst parts) "decentralized_identifier" then Ok SchemeDid else ok_or (client_id_scheme_from_str (fst parts)) PeProtocol);
  Ok (snd parts, scheme).

Definition client_id_without_prefix (proof : ProofModel) (url response_uri : string) (scheme : ClientIdScheme) : res ProofServiceError string :=
  match scheme with
  | SchemeRedirectUri | SchemeVerifierAttestation => Ok response_uri
  | SchemeX509SanDns => domain ← ok_or (url_domain url) PeProtocol; ok_or domain PeProtocol
  | SchemeX509Hash =>
      certificate ← ok_or (verifier_certificate proof) PeProtocol;
      ok_or (fingerprint_base64 (cert_fingerprint certificate)) PeProtocol
  | SchemeDid =>
      identifier ← ok_or (verifier_identifier proof) PeProtocol;
      did ← ok_or (idn_did identifier) PeProtocol;
      Ok (did_value did)
  end.

(** The key of a DID, when it is for key agreement, or the first key that is. *)
Definition agreement_key_of_did (did : Did) (key : Key) : res ProofServiceError (option Key) :=
  match find_key did (key_id key) (role_filter KeyAgreementRole) with
  | Ok related => Ok (Some (rk_key related))
  | _ => map_err (fun _ => PeProtocol) (found ← find_first_matching_key did (role_filter KeyAgreementRole); Ok (option_map rk_key found))
  end.

(** The key to encrypt the response with. *)
Definition candidate_encryption_key (identifier : Identifier) (key : Key) : res ProofServiceError (option Key) :=
  match identifier_type identifier with
  | TypeCertificate | TypeKey => Ok (Some key)
  | TypeDid =>
      did ← ok_or (idn_did identifier) PeProtocol;
      agreement_key_of_did did key
  | TypeCertificateAuthority => Err PeProtocol
  end.

(** The JWK with the id of its key. *)
Definition select_key_agreement_key_from_proof (proof : ProofModel) : res ProofServiceError (option (option string * string)) :=
  identifier ← ok_or (verifier_identifier proof) PeProtocol;
  key ← ok_or (verifier_key proof) PeProtocol;
  candidate ← candidate_encryption_key identifier key;
  match candidate with
  | None => Ok None
  | Some candidate =>
      jwk ← ok_or (encryption_jwk candidate) PeProtocol;
      Ok (option_map (fun j => (Some (uuid_to_string (key_id candidate)), j)) jwk)
  end.
End client.

(** ** Sharing *)

Section proofs.
Context {R : Type} `{UuidSupply} `{Randoms} `{VpProviders} `{VpWorld} `{ProofWorld}.
Context (self : OID4VPService) (proof_schemas : Z -> option ProofSchema) (session : option Session).
#[local] Notation Vp E A := (M (VpDb R) E A).

Definition pe_data {A : Type} (m : Vp DataLayerError A) : Vp ProofServiceError A := M_map_err PeData m.

Record VpShareResponse := mkVpShare { vh_interaction_id : Z; vh_interaction_data : string; vh_expires_at : option Z }.

(** [params] is the scheme that the request asks for. *)
Definition verifier_share_proof (proof : ProofModel) (params : option ClientIdScheme) : Vp ProofServiceError VpShareResponse :=
  interaction_id ← on_base new_uuid;
  url ← lift (ok_or base_url PeProtocol);
  let response_uri := (url ++ "/ssi/openid4vp/final-1.0/response")%string in
  nonce ← on_base (generate_alphanumeric 32);
  identifier ← lift (ok_or (verifier_identifier proof) PeProtocol);
  scheme ← lift (get_client_id_scheme params supported_client_id_schemes identifier);
  _ ← lift (fail_if (negb (has_scheme supported_client_id_schemes scheme)) PeProtocol);
  without_prefix ← lift (client_id_without_prefix proof url response_uri scheme);
  schema ← lift (ok_or (pm_schema proof) PeProtocol);
  encryption_key ← lift (select_key_agreement_key_from_proof proof);
  query ← lift (create_dcql_query schema);
  _ ← lift (fail_if (negb (url_parses response_uri)) PeProtocol);
  let content := mkContent nonce None (Some query) (encode_client_id_with_scheme without_prefix scheme) (Some response_uri) encryption_key in
  _ ← lift (fail_if (negb (authorization_request_made proof scheme query)) PeProtocol);
  now ← vp_now;
  value ← lift (ok_or (content_to_vec content) PeProtocol);
  mret (mkVpShare interaction_id value ((fun d => now + d) <$> interaction_expires_in)).

Definition load_proof (id : Z) : Vp ProofServiceError ProofModel :=
  found ← pe_data (get_proof proof_schemas id);
  lift (ok_or found (PeNotFound id)).

(** The organisation of a proof: of its schema for a verifier, of its
    interaction for a holder. *)
Definition throw_if_proof_not_in_session_org (proof : ProofModel) : res ProofServiceError unit :=
  organisation ← match pm_schema proof, pm_interaction proof with
                 | Some schema, _ => Ok (ps_organisation schema)
                 | None, Some (_, interaction) => Ok (Some (in_organisation interaction))
                 | None, None => Err PeMappingError
                 end;
  map_err PeSession (throw_if_org_relation_not_matching_session organisation session).

Definition proof_shareable (state : ProofStateEnum) : bool :=
  match state with PsCreated | PsPending | PsInteractionExpired => true | _ => false end.

Definition share_proof (id : Z) (params : option ClientIdScheme) : Vp ProofServiceError VpShareResponse :=
  proof ← load_proof id;
  _ ← lift (throw_if_proof_not_in_session_org proof);
  let row := pm_row proof in
  _ ← lift (fail_if (negb (proof_shareable (pr_state row))) (PeInvalidState (pr_state row)));
  _ ← lift (fail_if (match pr_engagement row with Some e => negb (String.eqb e DEFAULT_ENGAGEMENT) | None => false end) PeInvalidEngagement);
  organisation ← lift (ok_or (pm_schema proof ≫= ps_organisation) PeMappingError);
  _ ← lift (fail_if (negb (verification_protocol_found (pr_protocol row))) (PeMissingProtocol (pr_protocol row)));
  response ← verifier_share_proof proof params;
  now ← vp_now;
  _ ← pe_data (on_base (create_interaction (vh_interaction_id response)
        (mkInteraction now (Some (vh_interaction_data response)) organisation None Verification (vh_expires_at response))));
  _ ← pe_data (update_proof (pr_id row)
        (mkUpdateProof None (if bool_decide (pr_state row <> PsPending) then Some PsPending else None) (Some (Some (vh_interaction_id response)))
           None None None None (Some (Some DEFAULT_ENGAGEMENT))));
  _ ← match pm_interaction proof with Some (previous, _) => on_base (delete_interaction previous) | None => mret tt end;
  mret response.

(** ** Deletion *)

Definition delete_blob {E : Type} (id : Z) : Vp E unit := on_base (fun b => (Ok tt, with_blobs (delete id (blobs b)) b)).

Definition exchange_retract_proof (proof : ProofModel) : res ProofServiceError unit :=
  if verification_protocol_found (pr_protocol (pm_row proof)) then ok_or (retract proof) PeProtocol else Ok tt.

Definition hard_delete_proof (proof : ProofModel) : Vp ProofServiceError unit :=
  _ ← delete_proof_row (pr_id (pm_row proof));
  match pm_interaction proof with Some (id, _) => on_base (delete_interaction id) | None => mret tt end.

Definition delete_stored_blob (proof : ProofModel) : Vp ProofServiceError unit :=
  match pr_proof_blob_id (pm_row proof) with
  | Some blob =>
      _ ← lift (fail_if (negb (vs_db_blob_storage self)) PeMissingBlobStorage);
      delete_blob blob
  | None => mret tt
  end.

Definition delete_proof (id : Z) : Vp ProofServiceError unit :=
  proof ← load_proof id;
  _ ← lift (throw_if_proof_not_in_session_org proof);
  _ ← match pr_state (pm_row proof) with
      | PsCreated | PsPending | PsInteractionExpired =>
          _ ← lift (exchange_retract_proof proof);
          hard_delete_proof proof
      | PsRequested =>
          _ ← lift (exchange_retract_proof proof);
          pe_data (update_proof (pr_id (pm_row proof)) (state_proof_update PsRetracted None))
      | state => throw (PeInvalidState state)
      end;
  delete_stored_blob proof.

(** The credentials whose claims the proof has. *)
Definition proved_credential_ids (proof_id : Z) (s : VpDb R) : res ProofServiceError (list Z) :=
  ids ← try_map (fun e =>
    claim ← ok_or (find_first (fun c => claim_id (snd c) =? fst e) (claims s)) (PeData IncorrectParameters);
    _ ← ok_or (find_credential (fst claim) (store (base s))) (PeData DlDb);
    Ok (fst claim)) (List.filter (fun e => snd e =? proof_id) (proof_claims s));
  Ok (remove_dups ids).

Definition without_blob (ids : list Z) (c : Credential) : Credential :=
  if bool_decide (credential_id c ∈ ids)
  then mkCredential (credential_id c) (deleted_at c) (credential_role c) (credential_state c) (suspend_end_date c) None (issuer_identifier c)
         (issuer_certificate c) (credential_schema c)
  else c.

(** [delete_proof_claims] of the service: the claims, the blobs of the
    credentials that are not deleted, and the blob of the proof. *)
Definition delete_proof_claims (id : Z) : Vp ProofServiceError unit :=
  proof ← load_proof id;
  _ ← lift (throw_if_proof_not_in_session_org proof);
  s ← Prelude.get;
  credential_ids ← lift (proved_credential_ids (pr_id (pm_row proof)) s);
  _ ← delete_proof_claim_rows (pr_id (pm_row proof));
  _ ← delete_claims_for_credentials credential_ids;
  _ ← lift (fail_if (negb (vs_db_blob_storage self)) PeMissingBlobStorage);
  let blobs_of := omap credential_blob_id (List.filter (fun c => bool_decide (credential_id c ∈ credential_ids) && bool_decide (deleted_at c = None))
                     (credentials (store (base s)))) in
  _ ← for_each delete_blob blobs_of;
  _ ← on_base (fun b => (Ok tt, with_store (mkStore (without_blob credential_ids <$> credentials (store b)) (revocation (store b)) (clock (store b))) b));
  delete_stored_blob proof.
End proofs.
