(* ===== verification/VpSpec.v ===== *)
(** * OpenID4VP: what a checked response means

    A presented credential is genuine, what the checks of a response establish of
    the claims that it proves, how the value of a claim is found and stored, and
    when a response passes. *)

From S2P Require Import Prelude Paths StatusBits KeySelection RevocationRepo RevocationMethod TokenMethod ListFilter Validity.
From S2P Require Import SdValue Dcql VciStore VciService VciSpec VpStore VpValidator VpService VpProofs.
From Stdlib Require Import Ascii String.
#[local] Open Scope Z_scope.
#[local] Notation length := Datatypes.length.
#[local] Notation concat := List.concat.

(** ** Genuine credentials *)

Section genuine.
Context `{VpProviders}.

Definition in_time (now leeway : Z) (from until : option Z) : Prop :=
  (forall t, from = Some t -> t <= now + nanos leeway) /\ (forall t, until = Some t -> now - nanos leeway <= t).

(** The subject of a credential and the signer of a presentation are one: the
    same identifier, or DIDs and keys that share a key. *)
Inductive same_holder : IdentifierDetails -> IdentifierDetails -> Prop :=
| SameIdentifier a : same_holder a a
| SameDocument a b d : resolve_did a = Some d -> resolve_did b = Some d -> same_holder (IdDid a) (IdDid b)
| SharedKey a b d d' name key rest : resolve_did a = Some d -> resolve_did b = Some d' -> dd_verification_method d' = (name, key) :: rest ->
    key ∈ (dd_verification_method d).*2 -> same_holder (IdDid a) (IdDid b)
| KeyOfDid did d key : resolve_did did = Some d -> key ∈ (dd_verification_method d).*2 -> same_holder (IdDid did) (IdKey key)
| DidOfKey did d key : resolve_did did = Some d -> key ∈ (dd_verification_method d).*2 -> same_holder (IdKey key) (IdDid did).

Definition trusted_issuer (issuer : IdentifierDetails) (authorities : list TrustedAuthority) : Prop :=
  exists chain fingerprint expiry name akis aki values, issuer = IdCertificate chain fingerprint expiry name /\
    get_akis_for_pem_chain chain = Some akis /\ aki ∈ akis /\ AuthorityKeyId values ∈ authorities /\ aki ∈ values.

(** The token was read and verified as a credential of the schema, it is in its
    time and not revoked or suspended, its subject is the holder, and its issuer
    is trusted. *)
Record genuine (now : Z) (holder : option IdentifierDetails) (token : string) (schema : RequestedSchema) (authorities : option (list TrustedAuthority))
  (c : PresentedCredential) : Prop := {
  ge_read : exists formatter, credential_formatter (rs_format schema) = Some formatter /\
    vf_extract_credentials formatter token (Some schema) = inr c /\ in_time now (vf_leeway formatter) (xc_valid_from c) (xc_valid_until c);
  ge_status : forall status, status ∈ xc_status c -> exists check, revocation_check_by_status_type (cst_type status) = Some check /\
    check status (xc_issuer c) false = Ok Valid;
  ge_holder : forall h, holder = Some h -> exists subject, xc_subject c = Some subject /\ same_holder subject h;
  ge_trusted : forall l, authorities = Some l -> trusted_issuer (xc_issuer c) l
}.

Lemma in_time_intro now leeway from until : vp_validate_issuance_time now from leeway = Ok tt -> vp_validate_expiration_time now until leeway = Ok tt ->
  in_time now leeway from until.
Proof.
  unfold vp_validate_issuance_time, vp_validate_expiration_time, in_time. intros Hi He. split.
  - intros t ->. apply fail_if_ok, Z.ltb_ge in Hi. lia.
  - intros t ->. apply fail_if_ok, Z.ltb_ge in He. lia.
Qed.

Lemma existsb_snd (key : string) (l : list (string * string)) : existsb (fun vm => String.eqb (snd vm) key) l = true -> key ∈ l.*2.
Proof.
  intros ([n k] & Hin & Heq)%List.existsb_exists. apply String.eqb_eq in Heq as <-. apply list_elem_of_fmap. exists (n, k).
  split; [done|]. by apply list_elem_of_In.
Qed.

Lemma matching_dids_ok a b : check_matching_dids a b = Ok tt -> same_holder (IdDid a) (IdDid b).
Proof.
  unfold check_matching_dids. intros (d & Hd%ok_or_ok & (d' & Hd'%ok_or_ok & Hc)%res_bind_ok)%res_bind_ok.
  case_bool_decide as Heq; [subst; by eapply SameDocument|].
  apply res_bind_ok in Hc as ([name key] & Hk%ok_or_ok & Hc%fail_if_ok%negb_false_iff%existsb_snd).
  destruct (dd_verification_method d') as [|vm rest] eqn:Hl; [done|]. simplify_eq/=. by eapply SharedKey.
Qed.

Lemma matching_key_ok key did : check_matching_key_with_did key did = Ok tt ->
  exists d, resolve_did did = Some d /\ key ∈ (dd_verification_method d).*2.
Proof. unfold check_matching_key_with_did. intros (d & Hd%ok_or_ok & Hc%fail_if_ok%negb_false_iff%existsb_snd)%res_bind_ok. eauto. Qed.

Lemma matching_identifiers_ok a b allowed : check_matching_identifiers a b allowed = Ok tt -> same_holder a b.
Proof.
  unfold check_matching_identifiers. case_bool_decide as Heq; [subst; constructor|].
  destruct a as [da|? ? ? ?|ka], b as [db|? ? ? ?|kb]; try discriminate.
  - intros ([] & _ & ([] & _ & Hc)%res_bind_ok)%res_bind_ok. by apply matching_dids_ok.
  - intros ([] & _ & (d & Hd & Hk)%matching_key_ok)%res_bind_ok. by eapply KeyOfDid.
  - intros ([] & _ & (d & Hd & Hk)%matching_key_ok)%res_bind_ok. by eapply DidOfKey.
Qed.

Lemma trusted_akis_elem aki l : aki ∈ get_trusted_akis l <-> exists values, AuthorityKeyId values ∈ l /\ aki ∈ values.
Proof.
  unfold get_trusted_akis. rewrite list_elem_of_In, in_concat. split.
  - intros (values & (a & Ha & Hin)%list_elem_of_In%list_elem_of_fmap & Haki). destruct a as [v|v|v|? v]; simpl in Ha; subst values; try (by destruct Haki).
    exists v. split; [done|]. by apply list_elem_of_In.
  - intros (values & Hin & Haki). exists values. split; [|by apply list_elem_of_In].
    apply list_elem_of_In, list_elem_of_fmap. by exists (AuthorityKeyId values).
Qed.

Lemma trusted_ok issuer l : check_issuer_is_trusted_authority issuer l = Ok tt -> trusted_issuer issuer l.
Proof.
  unfold check_issuer_is_trusted_authority. destruct issuer as [d|chain fp e n|k]; try discriminate.
  intros (akis & Ha%ok_or_ok & Hc%fail_if_ok%negb_false_iff)%res_bind_ok.
  apply List.existsb_exists in Hc as (aki & Hin%list_elem_of_In & (aki' & Hin'%list_elem_of_In & <-%String.eqb_eq)%List.existsb_exists).
  apply trusted_akis_elem in Hin as (values & Hv & Hin). unfold trusted_issuer. eauto 15.
Qed.

Lemma check_status_ok issuer status : check_status issuer status = Ok tt ->
  exists check, revocation_check_by_status_type (cst_type status) = Some check /\ check status issuer false = Ok Valid.
Proof.
  unfold check_status. intros (check & Hc%ok_or_ok & (st & Hst%map_err_ok & Hv)%res_bind_ok)%res_bind_ok. exists check. split; [done|].
  by destruct st.
Qed.

Lemma try_map_elem {E A B : Type} (f : A -> res E B) (l : list A) (ys : list B) (x : A) : try_map f l = Ok ys -> x ∈ l -> exists y, y ∈ ys /\ f x = Ok y.
Proof.
  intros Hl%try_map_ok Hx. induction Hl as [|a b l ys Hab Hl IH]; [by apply elem_of_nil in Hx|].
  apply elem_of_cons in Hx as [->|Hx]; [exists b; split; [left|done]|]. destruct (IH Hx) as (y & Hy & He). exists y. split; [by right|done].
Qed.

Lemma try_map_result {E A B : Type} (f : A -> res E B) (l : list A) (ys : list B) (y : B) : try_map f l = Ok ys -> y ∈ ys -> exists x, x ∈ l /\ f x = Ok y.
Proof.
  intros Hl%try_map_ok Hy. induction Hl as [|a b l ys Hab Hl IH]; [by apply elem_of_nil in Hy|].
  apply elem_of_cons in Hy as [->|Hy]; [exists a; split; [left|done]|]. destruct (IH Hy) as (x & Hx & He). exists x. split; [by right|done].
Qed.

Lemma validate_credential_ok now holder token input auths c mso : validate_credential now holder token input auths = Ok (c, mso) ->
  exists schema, pi_credential_schema input = Some schema /\ genuine now holder token schema auths c.
Proof.
  unfold validate_credential. intros (format & Hf%ok_or_ok & Hrest)%res_bind_ok.
  destruct (pi_credential_schema input) as [schema|] eqn:Hs; [|done]. simpl in Hf. injection Hf as <-. exists schema. split; [done|].
  apply res_bind_ok in Hrest as (formatter & Hfm%ok_or_ok & Hrest). apply res_bind_ok in Hrest as (c' & Hc%map_err_ok%of_sum_ok & Hrest).
  apply res_bind_ok in Hrest as ([] & Hi & Hrest). apply res_bind_ok in Hrest as ([] & He & Hrest).
  apply res_bind_ok in Hrest as (oks & Hst & Hrest). apply res_bind_ok in Hrest as ([] & Hh & Hrest).
  apply res_bind_ok in Hrest as ([] & Ht & Hrest). apply res_bind_ok in Hrest as (m & Hm & [= <- <-]). split.
  - exists formatter. split_and!; [done..|]. by apply in_time_intro.
  - intros status Hin. destruct (try_map_elem _ _ _ _ Hst Hin) as ([] & _ & Hok). by apply check_status_ok.
  - intros h ->. apply res_bind_ok in Hh as (subject & Hsub%ok_or_ok & Hm'). exists subject. split; [done|]. by eapply matching_identifiers_ok.
  - intros l ->. by apply trusted_ok.
Qed.

Lemma validate_presentation_ok now p nonce format ctx pres : validate_presentation now p nonce format ctx = Ok pres ->
  exists formatter, presentation_formatter format = Some formatter /\ pf_extract_presentation formatter p ctx = inr pres /\
    in_time now (pf_leeway formatter) (ep_issued_at pres) (ep_expires_at pres) /\ ep_nonce pres = Some nonce.
Proof.
  unfold validate_presentation. intros (formatter & Hf%ok_or_ok & (pres' & Hp%map_err_ok%of_sum_ok & Hrest)%res_bind_ok)%res_bind_ok.
  apply res_bind_ok in Hrest as ([] & Hi & Hrest). apply res_bind_ok in Hrest as ([] & He & Hrest).
  apply res_bind_ok in Hrest as ([] & Hn%fail_if_ok%negb_false_iff%bool_decide_eq_true & [= ->]). exists formatter.
  split_and!; [done..| |done]. by apply in_time_intro.
Qed.
End genuine.

(** ** Claims that a response proves *)

Section proved.
Context `{VpProviders} `{UuidSupply}.

(** A token that was presented for a query: in a presentation of its holder for
    the nonce of the request, or, when no binding is required, by itself. *)
Definition presented (now : Z) (q : CredentialQuery) (content : VerifierInteractionContent) (ctx : ExtractPresentationCtx) (strings : list string)
  (holder : option IdentifierDetails) (token : string) : Prop :=
  if query_require_cryptographic_holder_binding q
  then exists p rest name formatter pres h, strings = p :: rest /\ (query_multiple q = false -> rest = []) /\
         presentation_formatter name = Some formatter /\ pf_extract_presentation formatter p ctx = inr pres /\
         in_time now (pf_leeway formatter) (ep_issued_at pres) (ep_expires_at pres) /\ ep_nonce pres = Some (vc_nonce content) /\
         ep_issuer pres = Some h /\ holder = Some h /\ token ∈ ep_credentials pres
  else holder = None /\ token ∈ strings.

(** A claim of an input that a credential has. *)
Definition claim_of_input (input : ProofInputSchema) (schema : RequestedSchema) (p : ValidatedProofClaim) : Prop :=
  pi_credential_schema input = Some schema /\ vl_credential_schema p = schema /\
  (exists expected, pi_claim_schemas input = Some expected /\ vl_proof_input_claim p ∈ expected) /\
  resolve_claim (cs_key (pc_schema (vl_proof_input_claim p))) (xc_claims (vl_credential p)) = Some (vl_value p).

(** A claim that a genuine credential proves, which was presented for the query. *)
Definition proved_by (now : Z) (vp_token : gmap string (list string)) (mdoc_nonce : option string) (inputs : list ProofInputSchema)
  (content : VerifierInteractionContent) (protocol_type : VerificationProtocolType) (q : CredentialQuery) (p : ValidatedProofClaim) : Prop :=
  exists input schema strings holder token, input_of_query inputs q = Some input /\ claim_of_input input schema p /\
    vp_token !! query_id q = Some strings /\
    presented now q content (presentation_context content protocol_type (bool_decide (query_format q = MsoMdoc)) mdoc_nonce) strings holder token /\
    genuine now holder token schema (query_trusted_authorities q) (vl_credential p).

Lemma elem_of_concat {A : Type} (x : A) (ls : list (list A)) : x ∈ concat ls <-> exists l, l ∈ ls /\ x ∈ l.
Proof. rewrite list_elem_of_In, in_concat. by setoid_rewrite list_elem_of_In. Qed.

Lemma presented_claims_ok c input mso proved : validate_claims c input mso = Ok proved ->
  exists schema, pi_credential_schema input = Some schema /\
  (forall p, p ∈ proved -> claim_of_input input schema p /\ vl_credential p = c /\ vl_mdoc_mso p = mso) /\
  (forall expected claim, pi_claim_schemas input = Some expected -> claim ∈ expected -> pc_required claim = true ->
     exists p, p ∈ proved /\ vl_proof_input_claim p = claim).
Proof.
  unfold validate_claims. intros (expected & He%ok_or_ok & Hrest)%res_bind_ok. apply res_bind_ok in Hrest as (schema & Hs%ok_or_ok & Hrest).
  apply res_bind_ok in Hrest as (ls & Hls & [= <-]). exists schema. split; [done|]. split.
  - intros p (l & Hl & Hp)%elem_of_concat. destruct (try_map_result _ _ _ _ Hls Hl) as (claim & Hc & Hcl).
    destruct (resolve_claim _ _) as [v|] eqn:Hr.
    + injection Hcl as <-. apply list_elem_of_singleton in Hp as ->. unfold claim_of_input. cbn. eauto 10.
    + destruct (pc_required claim); [done|]. injection Hcl as <-. by apply elem_of_nil in Hp.
  - intros expected' claim He' Hc Hreq. assert (expected' = expected) as -> by congruence.
    destruct (try_map_elem _ _ _ _ Hls Hc) as (l & Hl & Hcl). rewrite Hreq in Hcl. destruct (resolve_claim _ _) as [v|]; [|done].
    injection Hcl as <-. eexists. split; [apply elem_of_concat; eexists; split; [exact Hl|by apply list_elem_of_singleton]|done].
Qed.

Lemma presented_tokens_ok now q content strings ctx holder tokens token : presented_tokens now q content strings ctx = Ok (holder, tokens) ->
  token ∈ tokens -> presented now q content ctx strings holder token.
Proof.
  unfold presented_tokens, presented. destruct (query_require_cryptographic_holder_binding q); [|by intros [= <- <-]].
  intros ([] & Hone%fail_if_ok & Hrest)%res_bind_ok Htok. apply res_bind_ok in Hrest as (p & Hp%ok_or_ok & Hrest).
  apply res_bind_ok in Hrest as (ft & _ & Hrest). apply res_bind_ok in Hrest as (name & _ & Hrest).
  apply res_bind_ok in Hrest as (pres & (formatter & Hf & Hx & Ht & Hn)%validate_presentation_ok & Hrest).
  apply res_bind_ok in Hrest as (h & Hh%ok_or_ok & [= <- <-]).
  destruct strings as [|p' rest]; [done|]. simpl in Hp. injection Hp as ->. exists p, rest, name, formatter, pres, h.
  split_and!; try done. intros Hm. rewrite Hm in Hone. simpl in Hone. by destruct rest.
Qed.

Lemma validate_query_ok now vp_token mdoc inputs content pt q proved p : validate_query now vp_token mdoc inputs content pt q = Ok proved ->
  p ∈ proved -> proved_by now vp_token mdoc inputs content pt q p.
Proof.
  unfold validate_query, validate_credential_query. intros (input & Hi%ok_or_ok & Hrest)%res_bind_ok Hp.
  apply res_bind_ok in Hrest as (strings & Hs%ok_or_ok & Hrest). apply res_bind_ok in Hrest as ([holder tokens] & Htok & Hrest).
  apply res_bind_ok in Hrest as (ls & Hls & [= <-]). apply elem_of_concat in Hp as (l & Hl & Hp).
  destruct (try_map_result _ _ _ _ Hls Hl) as (token & Hin & Hv). unfold validate_token in Hv.
  apply res_bind_ok in Hv as ([c mso] & (schema & Hsch & Hg)%validate_credential_ok & Hv).
  apply res_bind_ok in Hv as (l' & (schema' & Hsch' & Hcl & _)%presented_claims_ok & Hv). apply res_bind_ok in Hv as ([] & _ & [= ->]).
  assert (schema' = schema) as -> by congruence. destruct (Hcl p Hp) as (Hclaim & Hc & _). simpl in Hc. subst c.
  exists input, schema, strings, holder, token. split_and!; try done. by eapply presented_tokens_ok.
Qed.

(** What a checked DCQL response proves. *)
Lemma dcql_submission_ok now request proof content pt proved : process_proof_submission_dcql_query now request proof content pt = Ok proved ->
  exists vp_token query inputs, sr_submission_data request = SubDcql vp_token /\ vc_dcql_query content = Some query /\
    pm_schema proof ≫= ps_input_schemas = Some inputs /\ size vp_token = length (dcql_credentials query) /\
    forall p, p ∈ proved -> exists q, q ∈ dcql_credentials query /\ proved_by now vp_token (sr_mdoc_generated_nonce request) inputs content pt q p.
Proof.
  unfold process_proof_submission_dcql_query. intros (vp_token & Hd & Hrest)%res_bind_ok.
  apply res_bind_ok in Hrest as (query & Hq%ok_or_ok & Hrest). apply res_bind_ok in Hrest as (inputs & Hi%ok_or_ok & Hrest).
  apply res_bind_ok in Hrest as ([] & Hn%fail_if_ok%negb_false_iff%Nat.eqb_eq & Hrest). apply res_bind_ok in Hrest as (ls & Hls & [= <-]).
  exists vp_token, query, inputs. split; [by destruct (sr_submission_data request); simplify_eq|]. split_and!; try done.
  intros p (l & Hl & Hp)%elem_of_concat. destruct (try_map_result _ _ _ _ Hls Hl) as (q & Hin & Hv). exists q. split; [done|].
  by eapply validate_query_ok.
Qed.
End proved.

(** ** Claims that are stored *)

Section claim_induction.
Context (P : CredentialClaim -> Prop).
Context (Hleaf : forall sd md v, claim_as_array v = None -> claim_as_object v = None -> P (mkCredentialClaim sd md v)).
Context (Harray : forall sd md l, (forall c, c ∈ l -> P c) -> P (mkCredentialClaim sd md (CArray l))).
Context (Hobject : forall sd md m, (forall k c, (k, c) ∈ m -> P c) -> P (mkCredentialClaim sd md (CObject m))).

Lemma credential_claim_induction (c : CredentialClaim) : P c.
Proof.
  revert c. fix IH 1. intros [sd md v]. destruct v as [b|n|s|l|m].
  - by apply Hleaf.
  - by apply Hleaf.
  - by apply Hleaf.
  - apply Harray. apply Forall_forall. induction l as [|c l IHl]; constructor; [apply IH|exact IHl].
  - assert (Hm : Forall (fun e => P (snd e)) m) by (induction m as [|[k c] m IHm]; constructor; [apply IH|exact IHm]).
    apply Hobject. intros k c Hc. rewrite Forall_forall in Hm. exact (Hm _ Hc).
Qed.
End claim_induction.

(** The text that is stored for a value; objects and arrays have none. *)
Definition leaf_text (c : CredentialClaim) : option string :=
  match SdValue.claim_value c with
  | CString s => Some s
  | CBool b => Some (if b then "true" else "false")%string
  | CNumber n => Some n
  | CArray _ | CObject _ => None
  end.
Definition claim_disclosable (c : CredentialClaim) : bool := let 'mkCredentialClaim sd _ _ := c in sd.

(** [part schemas c s p c' s' p']: the value [c'] with its schema and path is the
    value [c] itself, or is below it. *)
Inductive part (schemas : list ClaimSchema) : CredentialClaim -> ClaimSchema -> string -> CredentialClaim -> ClaimSchema -> string -> Prop :=
| PartSelf c s p : part schemas c s p c s p
| PartMember sd md m k d t s p c' s' p' : (k, d) ∈ m -> find_first (fun x => String.eqb (cs_key x) (cs_key s ++ "/" ++ k)%string) schemas = Some t ->
    part schemas d t (p ++ "/" ++ k)%string c' s' p' -> part schemas (mkCredentialClaim sd md (CObject m)) s p c' s' p'
| PartElement sd md l i d s p c' s' p' : l !! i = Some d -> part schemas d s (p ++ "/" ++ usize_to_string (Z.of_nat i))%string c' s' p' ->
    part schemas (mkCredentialClaim sd md (CArray l)) s p c' s' p'.

Definition stored_as (c : CredentialClaim) (s : ClaimSchema) (p : string) (cl : Claim) : Prop :=
  Dcql.claim_value cl = leaf_text c /\ claim_path cl = p /\ selectively_disclosable cl = claim_disclosable c /\ claim_schema cl = Some s.

(** The claims are those of the value and of all its parts. *)
Definition stores_parts (schemas : list ClaimSchema) (c : CredentialClaim) (s : ClaimSchema) (p : string) (cls : list Claim) : Prop :=
  (forall cl, cl ∈ cls -> exists c' s' p', part schemas c s p c' s' p' /\ stored_as c' s' p' cl) /\
  (forall c' s' p', part schemas c s p c' s' p' -> exists cl, cl ∈ cls /\ stored_as c' s' p' cl).

Section storing.
Context {R : Type} `{UuidSupply} `{HashOrderLaws}.
#[local] Notation Vp E A := (M (VpDb R) E A).

Lemma sequence_ok {E A : Type} (ms : list (Vp E A)) (s : VpDb R) rs s' : sequence ms s = (Ok rs, s') ->
  Forall2 (fun (m : Vp E A) r => exists s1 s2, m s1 = (Ok r, s2)) ms rs.
Proof.
  revert s rs. induction ms as [|m ms IH]; intros s rs; simpl; [by intros [= <- _]|].
  unfold mbind, M_bind. destruct (m s) as [[a|e|] s1] eqn:Hm; [|done..].
  destruct (sequence ms s1) as [[as_|e|] s2] eqn:Hs; [|done..]. intros [= <- <-]. constructor; [eauto|by eapply IH].
Qed.

Lemma Forall2_elem_l {A B : Type} (P : A -> B -> Prop) l k x : Forall2 P l k -> x ∈ l -> exists y, y ∈ k /\ P x y.
Proof. intros Hl (i & Hi)%list_elem_of_lookup. destruct (Forall2_lookup_l _ _ _ _ _ Hl Hi) as (y & Hy & HP). exists y. split; [by eapply list_elem_of_lookup_2|done]. Qed.
Lemma Forall2_elem_r' {A B : Type} (P : A -> B -> Prop) l k y : Forall2 P l k -> y ∈ k -> exists x, x ∈ l /\ P x y.
Proof. intros Hl (i & Hi)%list_elem_of_lookup. destruct (Forall2_lookup_r _ _ _ _ _ Hl Hi) as (x & Hx & HP). exists x. split; [by eapply list_elem_of_lookup_2|done]. Qed.

Lemma mapi_lookup {A B : Type} (f : nat -> A -> B) n l i : mapi f n l !! i = f (n + i)%nat <$> l !! i.
Proof.
  revert n i. induction l as [|x l IH]; intros n [|i]; simpl; [done..|by rewrite Nat.add_0_r|]. rewrite IH. by rewrite Nat.add_succ_comm.
Qed.

(** The steps of a computation that gives the claims of parts. *)
Lemma stores_children schemas c s p (ms : list (Vp OpenID4VCError (list Claim))) (below : CredentialClaim -> ClaimSchema -> string -> Prop)
  (st : VpDb R) rs st' stub :
  sequence ms st = (Ok rs, st') ->
  (forall m s1 r s2, m ∈ ms -> m s1 = (Ok r, s2) -> exists d t q, below d t q /\ stores_parts schemas d t q r) ->
  (forall d t q, below d t q -> exists m, m ∈ ms /\ forall s1 r s2, m s1 = (Ok r, s2) -> stores_parts schemas d t q r) ->
  (forall c' s' p', part schemas c s p c' s' p' <-> (c' = c /\ s' = s /\ p' = p) \/ exists d t q, below d t q /\ part schemas d t q c' s' p') ->
  stored_as c s p stub -> stores_parts schemas c s p (stub :: concat rs).
Proof.
  intros Hrun%sequence_ok Hall Hof Hpart Hstub. split.
  - intros cl [->|(r & Hr & Hcl)%elem_of_concat]%elem_of_cons; [exists c, s, p; split; [constructor|done]|].
    destruct (Forall2_elem_r' _ _ _ _ Hrun Hr) as (m & Hm & s1 & s2 & Hms). destruct (Hall m _ _ _ Hm Hms) as (d & t & q & Hb & Hst1 & _).
    destruct (Hst1 cl Hcl) as (c' & s' & p' & Hp & Hs'). exists c', s', p'. split; [|done].
    apply Hpart. right. eauto.
  - intros c' s' p' [(-> & -> & ->)|(d & t & q & Hb & Hp)]%Hpart; [exists stub; split; [left|done]|].
    destruct (Hof d t q Hb) as (m & Hm & Hst). destruct (Forall2_elem_l _ _ _ _ Hrun Hm) as (r & Hr & s1 & s2 & Hms).
    destruct (Hst _ _ _ Hms) as [_ Hst2]. destruct (Hst2 _ _ _ Hp) as (cl & Hcl & Hs'). exists cl. split; [|done].
    right. apply elem_of_concat. eauto.
Qed.
End storing.

Section storing_values.
Context {R : Type} `{UuidSupply} `{HashOrderLaws}.
#[local] Notation Vp E A := (M (VpDb R) E A).

Lemma value_to_model_claims_stores schemas c s p (db : VpDb R) cls db' : value_to_model_claims schemas c s p db = (Ok cls, db') ->
  stores_parts schemas c s p cls.
Proof.
  revert s p db cls db'. induction c as [sd md v Ha Ho|sd md l IH|sd md m IH] using credential_claim_induction; intros s p db cls db'.
  - intros Hrun. assert (exists id, cls = [mkClaim id (leaf_text (mkCredentialClaim sd md v)) p sd (Some s)]) as (id & ->)
      by (destruct v; try discriminate; cbn in Hrun; injection Hrun as <- _; eauto).
    split.
    + intros cl ->%list_elem_of_singleton. exists (mkCredentialClaim sd md v), s, p. split; [constructor|done].
    + intros c' s' p' Hp. inversion Hp; subst; [|done..]. eexists. split; [by apply list_elem_of_singleton|done].
  - cbn [value_to_model_claims]. intros Hrun. apply bind_run in Hrun as (id & s1 & _ & Hrun). apply bind_run in Hrun as (rs & s2 & Hseq & [= <- _]).
    eapply (stores_children _ _ _ _ _ (fun d t q => exists i, l !! i = Some d /\ t = s /\ q = (p ++ "/" ++ usize_to_string (Z.of_nat i))%string)); [exact Hseq| | | |done].
    + intros m s1' r s2' (i & Hi)%list_elem_of_lookup Hr. rewrite mapi_lookup in Hi. destruct (l !! i) as [d|] eqn:Hd; [|done]. simpl in Hi. injection Hi as <-.
      exists d, s, (p ++ "/" ++ usize_to_string (Z.of_nat i))%string. split; [eauto|]. eapply IH; [|exact Hr]. by eapply list_elem_of_lookup_2.
    + intros d t q (i & Hi & -> & ->). eexists. split; [apply (list_elem_of_lookup_2 _ i); rewrite mapi_lookup, Hi; reflexivity|].
      intros s1' r s2' Hr. eapply IH; [|exact Hr]. by eapply list_elem_of_lookup_2.
    + intros c' s' p'. split.
      * inversion 1; subst; [by left|right]. eauto 10.
      * intros [(-> & -> & ->)|(d & t & q & (i & Hi & -> & ->) & Hp)]; [constructor|]. by eapply PartElement.
  - cbn [value_to_model_claims]. intros Hrun. apply bind_run in Hrun as (id & s1 & _ & Hrun). apply bind_run in Hrun as (rs & s2 & Hseq & [= <- _]).
    eapply (stores_children _ _ _ _ _ (fun d t q => exists k, (k, d) ∈ m /\
              find_first (fun x => String.eqb (cs_key x) (cs_key s ++ "/" ++ k)%string) schemas = Some t /\ q = (p ++ "/" ++ k)%string));
      [exact Hseq| | | |done].
    + intros f s1' r s2' Hf Hr. rewrite hash_order_perm in Hf. apply list_elem_of_fmap in Hf as ([k d] & -> & Hin).
      apply bind_run in Hr as (t & s3 & Ht & Hr). apply lift_run in Ht as [Ht%ok_or_ok ->].
      exists d, t, (p ++ "/" ++ k)%string. split; [eauto|]. by eapply IH.
    + intros d t q (k & Hin & Ht & ->). eexists. split; [rewrite hash_order_perm; apply list_elem_of_fmap; by exists (k, d)|].
      intros s1' r s2' Hr. cbn beta iota in Hr. apply bind_run in Hr as (t' & s3 & Ht' & Hr). apply lift_run in Ht' as [Ht'%ok_or_ok ->].
      assert (t' = t) as -> by congruence. by eapply IH.
    + intros c' s' p'. split.
      * inversion 1; subst; [by left|right]. eauto 10.
      * intros [(-> & -> & ->)|(d & t & q & (i & Hi & Ht & ->) & Hp)]; [constructor|]. by eapply PartMember.
Qed.
End storing_values.

(** ** Fresh ids *)

Section drawing.
Context {R : Type} `{UuidSupply}.
#[local] Notation Vp E A := (M (VpDb R) E A).

Definition supply_of (s : VpDb R) : nat := supply (base s).
Definition with_supply (n : nat) (s : VpDb R) : VpDb R :=
  let b := base s in
  mkVpDb (mkVciDb (store b) (columns b) (interactions b) (blobs b) (mdocs b) n) (proofs s) (claims s) (proof_claims s).

(** Nothing happened but that random values were drawn. *)
Definition drawing (s s' : VpDb R) : Prop := (supply_of s <= supply_of s')%nat /\ s' = with_supply (supply_of s') s.

#[export] Instance drawing_preorder : PreOrder drawing.
Proof.
  split; [intros [[] ? ? ?]; by split|]. intros [[] ? ? ?] [[] ? ? ?] [[] ? ? ?] [Hl1 H1'] [Hl2 H2']. unfold drawing, supply_of, with_supply in *.
  cbn in *. simplify_eq. split; [lia|done].
Qed.

Lemma drawing_uuid {E : Type} : preserves drawing (on_base new_uuid : Vp E Z).
Proof. intros s. unfold drawing, supply_of. cbn. split; [lia|done]. Qed.
Lemma drawing_now {E : Type} : preserves drawing (vp_now : Vp E Z).
Proof. intros [[] ? ? ?]. unfold drawing, supply_of. cbn. split; [lia|done]. Qed.

Lemma preserves_sequence {E A : Type} (P : VpDb R -> VpDb R -> Prop) `{!PreOrder P} (ms : list (Vp E A)) :
  (forall m, m ∈ ms -> preserves P m) -> preserves P (sequence ms).
Proof.
  induction ms as [|m ms IH]; intros Hms; cbn; [apply preserves_ret; typeclasses eauto|].
  apply preserves_bind; [typeclasses eauto|apply Hms; left|]. intros a. apply preserves_bind; [typeclasses eauto| |intros; by apply preserves_ret].
  apply IH. intros m' Hm'. apply Hms. by right.
Qed.

(** The ids are among those drawn from [n] to [n'], and distinct. *)
Definition fresh_ids (n n' : nat) (ids : list Z) : Prop :=
  exists ks, ids = uuid_at <$> ks /\ NoDup ks /\ forall k, k ∈ ks -> (n <= k < n')%nat.

Lemma fresh_nil n n' : fresh_ids n n' [].
Proof. exists []. split; [done|]. split; [constructor|]. by intros k ?%elem_of_nil. Qed.
Lemma fresh_one n n' : (n < n')%nat -> fresh_ids n n' [uuid_at n].
Proof. intros Hn. exists [n]. split; [done|]. split; [apply NoDup_singleton|]. intros k ->%list_elem_of_singleton. lia. Qed.
Lemma fresh_app n1 n2 n3 a b : (n1 <= n2)%nat -> (n2 <= n3)%nat -> fresh_ids n1 n2 a -> fresh_ids n2 n3 b -> fresh_ids n1 n3 (a ++ b).
Proof.
  intros H12 H23 (ka & -> & Ha & Hra) (kb & -> & Hb & Hrb). exists (ka ++ kb). split; [by rewrite fmap_app|]. split.
  - apply NoDup_app. split_and!; try done. intros k Hk Hk'. specialize (Hra k Hk). specialize (Hrb k Hk'). lia.
  - intros k [Hk|Hk]%elem_of_app; [specialize (Hra k Hk)|specialize (Hrb k Hk)]; lia.
Qed.

(** A computation that draws the ids of its result. *)
Definition yields_fresh {E A : Type} (ids_of : A -> list Z) (m : Vp E A) : Prop :=
  preserves drawing m /\ forall s a s', m s = (Ok a, s') -> fresh_ids (supply_of s) (supply_of s') (ids_of a).

Lemma drawing_run {E A : Type} (m : Vp E A) s r s' : preserves drawing m -> m s = (r, s') -> drawing s s'.
Proof. intros Hm Hr. specialize (Hm s). by rewrite Hr in Hm. Qed.

Lemma fresh_uuid {E : Type} : yields_fresh (fun id => [id]) (on_base new_uuid : Vp E Z).
Proof. split; [apply drawing_uuid|]. intros s a s' [= <- <-]. apply fresh_one. cbn. unfold supply_of. lia. Qed.

Lemma fresh_bind {E A B : Type} (f : A -> list Z) (g : B -> list Z) (m : Vp E A) (k : A -> Vp E B) (h : A -> B -> list Z) :
  yields_fresh f m -> (forall a, yields_fresh (h a) (k a)) -> (forall a b s s', k a s = (Ok b, s') -> g b = f a ++ h a b) -> yields_fresh g (m ≫= k).
Proof.
  intros [Hm Hf] Hk Hg. split; [apply preserves_bind; [typeclasses eauto|done|]; intros a; apply Hk|].
  intros s b s' (a & s1 & Ha & Hb)%bind_run. rewrite (Hg _ _ _ _ Hb). destruct (Hk a) as [Hkd Hkf].
  eapply fresh_app; [apply (drawing_run _ _ _ _ Hm Ha)|apply (drawing_run _ _ _ _ Hkd Hb)|by eapply Hf|by eapply Hkf].
Qed.

Lemma fresh_ret {E A : Type} (f : A -> list Z) (a : A) : f a = [] -> yields_fresh f (mret a : Vp E A).
Proof. intros Hf. split; [apply preserves_ret; typeclasses eauto|]. intros s b s' [= <- <-]. rewrite Hf. apply fresh_nil. Qed.

Lemma fresh_lift {E A : Type} (r : res E A) : yields_fresh (fun _ => []) (lift r : Vp E A).
Proof. split; [apply preserves_lift; typeclasses eauto|]. intros s a s' _. apply fresh_nil. Qed.

Lemma fresh_sequence {E A : Type} (f : A -> list Z) (ms : list (Vp E A)) : (forall m, m ∈ ms -> yields_fresh f m) ->
  yields_fresh (fun l => concat (f <$> l)) (sequence ms).
Proof.
  induction ms as [|m ms IH]; intros Hms; cbn [sequence]; [by apply fresh_ret|].
  eapply (fresh_bind f _ _ _ (fun _ b => concat (f <$> tail b))); [apply Hms; left| |].
  - intros a. eapply (fresh_bind (fun l => concat (f <$> l)) _ _ _ (fun _ _ => [])).
    + apply IH. intros m' Hm'. apply Hms. by right.
    + intros l. by apply fresh_ret.
    + intros l b s s' [= <- _]. by rewrite app_nil_r.
  - intros a b s s' (l & s1 & _ & [= <- _])%bind_run. done.
Qed.
End drawing.

Section fresh_claims.
Context {R : Type} `{UuidSupply} `{HashOrderLaws}.
#[local] Notation Vp E A := (M (VpDb R) E A).

Lemma concat_fmap_concat {A B : Type} (f : A -> B) (ls : list (list A)) : (f <$> concat ls : list B) = concat ((fmap f : list A -> list B) <$> ls).
Proof. induction ls as [|l ls IH]; [done|]. cbn. by rewrite fmap_app, IH. Qed.

(** The claims below an array or an object, after the id of the claim itself. *)
Lemma fresh_children (stub : Z -> Claim) (ms : list (Vp OpenID4VCError (list Claim))) : (forall id, claim_id (stub id) = id) ->
  (forall m, m ∈ ms -> yields_fresh (fmap claim_id) m) ->
  yields_fresh (fmap claim_id) (id ← on_base new_uuid; children ← sequence ms; mret (stub id :: concat children)).
Proof.
  intros Hstub Hms. eapply (fresh_bind (fun id => [id]) _ _ _ (fun _ b => claim_id <$> tail b)); [apply fresh_uuid| |].
  - intros id. eapply (fresh_bind (fun l => concat (fmap claim_id <$> l)) _ _ _ (fun _ _ => [])); [by apply fresh_sequence|intros l; by apply fresh_ret|].
    intros l b s s' [= <- _]. cbn. by rewrite app_nil_r, concat_fmap_concat.
  - intros id b s s' (l & s1 & _ & [= <- _])%bind_run. cbn. by rewrite Hstub.
Qed.

Lemma value_to_model_claims_fresh schemas c s p : yields_fresh (fmap claim_id) (value_to_model_claims (R := R) schemas c s p).
Proof.
  revert s p. induction c as [sd md v Ha Ho|sd md l IH|sd md m IH] using credential_claim_induction; intros s p.
  - assert (Hleaf : forall text, yields_fresh (fmap claim_id) (id ← on_base new_uuid; mret [mkClaim id text p sd (Some s)] : Vp OpenID4VCError (list Claim))).
    { intros text. eapply (fresh_bind (fun id => [id]) _ _ _ (fun _ _ => [])); [apply fresh_uuid|intros id; by apply fresh_ret|by intros id b s1 s2 [= <- _]]. }
    destruct v; try discriminate; apply Hleaf.
  - apply (fresh_children (fun id => mkClaim id None p sd (Some s))); [done|]. intros m (i & Hi)%list_elem_of_lookup.
    rewrite mapi_lookup in Hi. destruct (l !! i) as [d|] eqn:Hd; [|done]. simpl in Hi. injection Hi as <-. apply IH. by eapply list_elem_of_lookup_2.
  - apply (fresh_children (fun id => mkClaim id None p sd (Some s))); [done|]. intros f Hf. rewrite hash_order_perm in Hf.
    apply list_elem_of_fmap in Hf as ([k d] & -> & Hin).
    eapply (fresh_bind (fun _ => []) _ _ _ (fun _ => fmap claim_id)); [apply fresh_lift|intros t; by eapply IH|done].
Qed.
End fresh_claims.

(** ** The result of the validation *)

Section results.
Context {R : Type} `{UuidSupply} `{HashOrderLaws}.
#[local] Notation Vp E A := (M (VpDb R) E A).

Definition claim_key (p : ValidatedProofClaim) : string := cs_key (pc_schema (vl_proof_input_claim p)).

(** A credential that is put together from proved claims: it has the issuer and
    the subject of the first of them, and the values of all of them. *)
Record assembled (group : list ValidatedProofClaim) (pv : ProvedCredential) : Prop := {
  as_first : exists p, head group = Some p /\ pv_schema pv = vl_credential_schema p /\ pv_issuer_details pv = xc_issuer (vl_credential p) /\
    xc_subject (vl_credential p) = Some (pv_holder_details pv) /\ pv_issuance_date pv = xc_issuance_date (vl_credential p) /\
    pv_mdoc_mso pv = vl_mdoc_mso p;
  as_claims : exists schemas lists, pv_claims pv = concat lists /\
    Forall2 (fun p cls => stores_parts schemas (vl_value p) (pc_schema (vl_proof_input_claim p)) (claim_key p) cls) group lists
}.

Definition of_schema (id : Z) (proved : list ValidatedProofClaim) : list ValidatedProofClaim :=
  List.filter (fun p => rs_id (vl_credential_schema p) =? id) proved.

Lemma elem_of_schema id proved p : p ∈ of_schema id proved <-> p ∈ proved /\ rs_id (vl_credential_schema p) = id.
Proof. unfold of_schema. rewrite elem_of_filter_bool, Z.eqb_eq. tauto. Qed.

Lemma groups_elem proved g : g ∈ claims_per_credential proved <->
  exists p, p ∈ proved /\ g = (rs_id (vl_credential_schema p), of_schema (rs_id (vl_credential_schema p)) proved).
Proof.
  unfold claims_per_credential. rewrite list_elem_of_fmap. setoid_rewrite elem_of_remove_dups. setoid_rewrite list_elem_of_fmap. split.
  - intros (id & -> & p & -> & Hp). eauto.
  - intros (p & Hp & ->). eexists. split; [reflexivity|]. eauto.
Qed.

Lemma prove_credential_ok protocol by_id id group (s : VpDb R) pv s' : prove_credential protocol by_id (id, group) s = (Ok pv, s') -> assembled group pv.
Proof.
  unfold prove_credential, extracted_credential_to_model. intros Hrun. inv_run Hrun. cbn in *.
  match goal with Hs : sequence _ _ = _ |- _ => apply sequence_ok in Hs as Hseq end. split; cbn.
  - eauto 10.
  - eexists _, _. split; [reflexivity|]. rewrite <-list_fmap_compose, Forall2_fmap_l in Hseq. eapply Forall2_impl; [exact Hseq|].
    intros p cls Hpc. cbn in Hpc. destruct Hpc as (st1 & st2 & Hpc). by eapply value_to_model_claims_stores.
Qed.

Definition credential_ids_of (pv : ProvedCredential) : list Z := pv_id pv :: (claim_id <$> pv_claims pv).

Lemma prove_credential_fresh protocol by_id g : yields_fresh credential_ids_of (prove_credential (R := R) protocol by_id g).
Proof.
  unfold prove_credential. destruct g as [id group].
  eapply (fresh_bind (fun _ => []) _ _ _ (fun _ => credential_ids_of)); [apply fresh_lift| |done]. intros first.
  eapply (fresh_bind (fun _ => []) _ _ _ (fun _ => credential_ids_of)); [apply fresh_lift| |done]. intros holder.
  eapply (fresh_bind (fun _ => []) _ _ _ (fun _ => credential_ids_of)); [apply fresh_lift| |done]. intros schemas.
  unfold extracted_credential_to_model.
  eapply (fresh_bind (fun id => [id]) _ _ _ (fun _ pv => claim_id <$> pv_claims pv)); [apply fresh_uuid| |].
  - intros cid. eapply (fresh_bind (fun l => concat ((fmap claim_id : list Claim -> list Z) <$> l)) _ _ _ (fun _ _ => [])).
    + apply fresh_sequence. intros m ([v sch] & -> & _)%list_elem_of_fmap. apply value_to_model_claims_fresh.
    + intros l. by apply fresh_ret.
    + intros l pv s s' [= <- _]. cbn. by rewrite app_nil_r, concat_fmap_concat.
  - intros cid pv s s' (l & s1 & _ & [= <- _])%bind_run. done.
Qed.

Lemma completeness_ok schema proved : validate_proof_completeness schema proved = Ok tt -> exists inputs, ps_input_schemas schema = Some inputs /\
  forall input, input ∈ inputs -> exists sch expected, pi_credential_schema input = Some sch /\ pi_claim_schemas input = Some expected /\
    forall claim, claim ∈ expected -> pc_required claim = true ->
      exists p, p ∈ proved /\ rs_id (vl_credential_schema p) = rs_id sch /\ cs_id (pc_schema (vl_proof_input_claim p)) = cs_id (pc_schema claim).
Proof.
  unfold validate_proof_completeness. intros (inputs & Hi%ok_or_ok & (oks & Hoks & _)%res_bind_ok)%res_bind_ok. exists inputs. split; [done|].
  intros input Hin. destruct (try_map_elem _ _ _ _ Hoks Hin) as (l & _ & Hl). apply res_bind_ok in Hl as (sch & Hs%ok_or_ok & Hl).
  apply res_bind_ok in Hl as (expected & He%ok_or_ok & Hl). exists sch, expected. split_and!; try done. intros claim Hc Hreq.
  destruct (try_map_elem _ _ _ _ Hl Hc) as ([] & _ & Hf%fail_if_ok). rewrite Hreq in Hf. apply negb_false_iff, List.existsb_exists in Hf as (p & Hp & Hpe).
  apply andb_true_iff in Hpe as [H1'%Z.eqb_eq H2'%Z.eqb_eq]. exists p. split_and!; [by apply list_elem_of_In|done..].
Qed.

(** What the validation returns for the claims that were proved. *)
Lemma validate_proof_ok proof proved (s : VpDb R) creds cls s' : validate_proof proof proved s = (Ok (creds, cls), s') ->
  exists schema, pm_schema proof = Some schema /\ validate_proof_completeness schema proved = Ok tt /\ cls = concat (pv_claims <$> creds) /\
    (forall pv, pv ∈ creds -> exists p, p ∈ proved /\ rs_id (pv_schema pv) = rs_id (vl_credential_schema p) /\
       assembled (of_schema (rs_id (vl_credential_schema p)) proved) pv) /\
    (forall p, p ∈ proved -> exists pv, pv ∈ creds /\ assembled (of_schema (rs_id (vl_credential_schema p)) proved) pv) /\
    fresh_ids (supply_of s) (supply_of s') (concat (credential_ids_of <$> creds)).
Proof.
  unfold validate_proof. intros Hrun. inv_run Hrun. injection Hrun as <- <- <-. eexists. split; [eassumption|].
  match goal with Hc : validate_proof_completeness _ _ = Ok ?u |- _ => destruct u end. split; [done|]. split; [done|].
  match goal with Hs : sequence _ _ = _ |- _ => pose proof (sequence_ok _ _ _ _ Hs) as Hseq; rename Hs into Hrun end.
  split_and!.
  - intros pv Hpv. destruct (Forall2_elem_r' _ _ _ _ Hseq Hpv) as (m & Hm & s1 & s2 & Hms). apply list_elem_of_fmap in Hm as ([id g] & -> & Hg).
    rewrite hash_order_perm in Hg. apply groups_elem in Hg as (p & Hp & [= -> ->]). exists p. split; [done|].
    pose proof (prove_credential_ok _ _ _ _ _ _ _ Hms) as Ha. split; [|done]. destruct (as_first _ _ Ha) as (q & Hfst & -> & _).
    destruct (of_schema _ _) as [|q' l] eqn:Hl; [done|]. simpl in Hfst. injection Hfst as ->.
    assert (Hin : q ∈ of_schema (rs_id (vl_credential_schema p)) proved) by (rewrite Hl; left). by apply elem_of_schema in Hin as [_ ->].
  - intros p Hp. assert (Hg : (rs_id (vl_credential_schema p), of_schema (rs_id (vl_credential_schema p)) proved) ∈ hash_order _ (claims_per_credential proved)).
    { rewrite hash_order_perm. apply groups_elem. eauto. }
    eapply (list_elem_of_fmap_2 (prove_credential _ _)) in Hg. destruct (Forall2_elem_l _ _ _ _ Hseq Hg) as (pv & Hpv & s1 & s2 & Hms).
    exists pv. split; [done|]. by eapply prove_credential_ok.
  - eapply (fresh_sequence credential_ids_of); [|exact Hrun]. intros m ([id g] & -> & _)%list_elem_of_fmap. apply prove_credential_fresh.
Qed.

Lemma validate_proof_drawing proof proved : preserves drawing (validate_proof (R := R) proof proved).
Proof.
  unfold validate_proof. preserve. apply preserves_sequence; [typeclasses eauto|]. intros m ([id g] & -> & _)%list_elem_of_fmap. apply prove_credential_fresh.
Qed.
End results.
