(* ===== verification/VpLife.v ===== *)
(** * OpenID4VP: the life of a proof request

    What accepting a response writes, and that a request that was answered stays
    so: its state changes at most to an error, and no claims are added to it. *)

From S2P Require Import Prelude Paths StatusBits KeySelection RevocationRepo RevocationMethod TokenMethod ListFilter Validity.
From S2P Require Import SdValue Dcql VciStore VciService VciSpec VpStore VpValidator VpService VpProofs VpSpec.
From Stdlib Require Import Ascii String.
#[local] Open Scope Z_scope.
#[local] Notation length := Datatypes.length.
#[local] Notation concat := List.concat.

(** ** What is stored of an accepted response *)

Section persisted.
Context {R : Type} `{UuidSupply} `{Randoms} `{SqlDialect} `{HashOrder} `{VpProviders} `{VpWorld}.
Implicit Types (s : VpDb R).

Definition has_credential (id : Z) s : Prop := is_Some (find_credential id (store (base s))).

(** The credentials and their claims are added, and nothing else but the
    security objects of mdocs. *)
Record persisted (organisation : Z) (creds : list ProvedCredential) s s' : Prop := {
  pd_credentials : exists new, credentials (store (base s')) = credentials (store (base s)) ++ new /\
    Forall2 (fun p c => credential_id c = pv_id p /\ exists cols, credential_from_proved organisation p = Ok (c, cols) /\
      columns (base s') !! pv_id p = Some cols) creds new;
  pd_claims : claims s' = claims s ++ concat ((fun p => (fun c => (pv_id p, c)) <$> pv_claims p) <$> creds);
  pd_columns : forall id, has_credential id s -> columns (base s') !! id = columns (base s) !! id;
  pd_proofs : proofs s' = proofs s;
  pd_proof_claims : proof_claims s' = proof_claims s;
  pd_interactions : interactions (base s') = interactions (base s);
  pd_blobs : blobs (base s') = blobs (base s);
  pd_lists : revocation (store (base s')) = revocation (store (base s));
  pd_clock : clock (store (base s')) = clock (store (base s))
}.

Lemma persisted_nil organisation s : persisted organisation [] s s.
Proof. split; try done; [exists []; by rewrite app_nil_r|by rewrite app_nil_r]. Qed.

Lemma find_credential_app id (st : Store R) new : is_Some (find_credential id st) ->
  is_Some (find_credential id (mkStore (credentials st ++ new) (revocation st) (clock st))).
Proof.
  intros Hc. unfold find_credential in *. cbn [credentials]. by rewrite find_first_app.
Qed.

Lemma from_proved_id organisation p c cols : credential_from_proved organisation p = Ok (c, cols) -> credential_id c = pv_id p.
Proof.
  unfold credential_from_proved. intros ([issuer cert] & _ & ([holder ?] & _ & [= <- <-])%res_bind_ok)%res_bind_ok. done.
Qed.

Lemma create_row_run c cols new s id s' : create_credential_row c cols new s = (Ok id, s') ->
  find_credential (credential_id c) (store (base s)) = None /\
  s' = mkVpDb (mkVciDb (mkStore (credentials (store (base s)) ++ [c]) (revocation (store (base s))) (clock (store (base s))))
                (<[credential_id c := cols]> (columns (base s))) (interactions (base s)) (blobs (base s)) (mdocs (base s)) (supply (base s)))
         (proofs s) (claims s ++ ((fun cl => (credential_id c, cl)) <$> new)) (proof_claims s).
Proof.
  unfold create_credential_row. intros Hrun. apply bind_run in Hrun as ([] & s1 & Hc & Hrun).
  destruct (find_credential _ _) eqn:Hfind; [done|]. injection Hc as <-. split; [done|]. apply bind_run in Hrun as ([] & s2 & Hcl & [= _ <-]).
  destruct new as [|cl new]; [injection Hcl as <-; cbn; by rewrite app_nil_r|].
  unfold create_claim_list in Hcl. by destruct (_ || _); simplify_eq.
Qed.

Lemma persist_credential_run organisation p s s' : persist_credential organisation p s = (Ok tt, s') ->
  persisted organisation [p] s s' /\ has_credential (pv_id p) s'.
Proof.
  unfold persist_credential, vp_data. intros Hrun. apply bind_run in Hrun as ([c cols] & s1 & Hc & Hrun).
  apply lift_run in Hc as [Hc ->]. apply bind_run in Hrun as (id & s2 & Hrow%map_err_run%create_row_run & Hrun).
  apply from_proved_id in Hc as Hid. rewrite Hid in Hrow. destruct Hrow as [Hnone ->].
  assert (Hs' : exists m, s' = mkVpDb (mkVciDb (mkStore (credentials (store (base s)) ++ [c]) (revocation (store (base s))) (clock (store (base s))))
                (<[pv_id p := cols]> (columns (base s))) (interactions (base s)) (blobs (base s)) m (supply (base s)))
         (proofs s) (claims s ++ ((fun cl => (pv_id p, cl)) <$> pv_claims p)) (proof_claims s)).
  { destruct (pv_mdoc_mso p); [|injection Hrun as <-; eauto]. apply bind_run in Hrun as (mso & s3 & [_ ->]%lift_run & Hrun).
    apply bind_run in Hrun as (now & s4 & [= _ <-] & [= <-]). cbn. eauto. }
  destruct Hs' as [m ->]. split.
  - split; try done; cbn.
    + exists [c]. split; [done|]. constructor; [|constructor]. split; [done|]. exists cols. by rewrite lookup_insert_eq.
    + by rewrite app_nil_r.
    + intros x Hx. rewrite lookup_insert_ne; [done|]. intros <-. unfold has_credential in Hx. rewrite Hnone in Hx. by destruct Hx.
  - unfold has_credential, find_credential. cbn [base store credentials].
    destruct (find_first_exists (fun x => credential_id x =? pv_id p) (credentials (store (base s)) ++ [c]) c) as (y & -> & _);
      [apply elem_of_app; right; by apply list_elem_of_singleton|by rewrite Hid, Z.eqb_refl|by eexists].
Qed.

Lemma persisted_keeps organisation creds s s' id : persisted organisation creds s s' -> has_credential id s -> has_credential id s'.
Proof.
  intros Hp Hc. destruct (pd_credentials _ _ _ _ Hp) as (new & Hnew & _). unfold has_credential, find_credential in *. rewrite Hnew.
  by rewrite find_first_app.
Qed.

Lemma persisted_app organisation p creds s1 s2 s3 : persisted organisation [p] s1 s2 -> has_credential (pv_id p) s2 -> persisted organisation creds s2 s3 ->
  persisted organisation (p :: creds) s1 s3.
Proof.
  intros H12 Hp H23. pose proof (pd_columns _ _ _ _ H23 _ Hp) as Hcol. destruct (pd_credentials _ _ _ _ H12) as (new & Hnew & Hall).
  destruct (pd_credentials _ _ _ _ H23) as (new' & Hnew' & Hall').
  split; try (destruct H12, H23; congruence).
  - exists (new ++ new'). split; [by rewrite Hnew', Hnew, app_assoc|]. change (p :: creds) with ([p] ++ creds). apply Forall2_app; [|done].
    apply Forall2_cons_inv_l in Hall as (c & rest & (Hid & cols & Hc & Hcols) & Hrest & ->). apply Forall2_nil_inv_l in Hrest as ->.
    constructor; [|constructor]. split; [done|]. exists cols. by rewrite Hcol.
  - rewrite (pd_claims _ _ _ _ H23), (pd_claims _ _ _ _ H12). cbn. by rewrite app_nil_r, app_assoc.
  - intros id Hid. rewrite (pd_columns _ _ _ _ H23) by (by eapply persisted_keeps). by apply (pd_columns _ _ _ _ H12).
Qed.

Lemma persist_all_run organisation creds s s' : for_each (persist_credential organisation) creds s = (Ok tt, s') -> persisted organisation creds s s'.
Proof.
  revert s. induction creds as [|p creds IH]; intros s Hrun; [injection Hrun as <-; apply persisted_nil|].
  cbn [for_each] in Hrun. apply bind_run in Hrun as ([] & s1 & [Hp Hhas]%persist_credential_run & Hrun). eapply persisted_app; eauto.
Qed.

Definition open_state (st : ProofStateEnum) : bool := match st with PsPending | PsRequested => true | _ => false end.

Lemma state_in_open {E : Type} (e : E) row u : throw_if_proof_state_not_in e row [PsPending; PsRequested] = Ok u -> open_state (pr_state row) = true.
Proof. unfold throw_if_proof_state_not_in. by destruct (pr_state row). Qed.

(** An accepted proof: the tables after the transaction. *)
Record accepted (id organisation blob : Z) (creds : list ProvedCredential) (cls : list Claim) s s' : Prop := {
  ac_open : exists row, find_proof id s = Some row /\ open_state (pr_state row) = true;
  ac_persisted : exists s1, persisted organisation creds s s1 /\ base s' = base s1 /\ claims s' = claims s1;
  ac_proofs : proofs s' = (fun p => if pr_id p =? id then apply_proof_update (state_proof_update PsAccepted (Some blob)) (clock (store (base s))) p else p) <$> proofs s;
  ac_proof_claims : cls <> [] -> proof_claims s' = proof_claims s ++ ((fun c => (claim_id c, id)) <$> cls);
  ac_no_claims : cls = [] -> proof_claims s' = proof_claims s
}.

Lemma find_proof_id id s row : find_proof id s = Some row -> pr_id row = id.
Proof. by intros [_ Hid%Z.eqb_eq]%find_first_Some. Qed.

Lemma persist_run id creds cls organisation blob s s' : persist_accepted_proof id (creds, cls) organisation blob s = (Ok tt, s') ->
  accepted id organisation blob creds cls s s'.
Proof.
  unfold persist_accepted_proof, vp_data. intros Hrun%transaction_run. apply bind_run in Hrun as (found & s1 & [= <- <-] & Hrun).
  apply bind_run in Hrun as (row & s1 & [Hrow%ok_or_ok ->]%lift_run & Hrun). apply bind_run in Hrun as (u & s1 & [Hst%state_in_open ->]%lift_run & Hrun).
  apply bind_run in Hrun as ([] & s1 & Hp%persist_all_run & Hrun). cbn [fst snd] in *. apply bind_run in Hrun as ([] & s2 & Hcl%map_err_run & Hup%map_err_run).
  rewrite (find_proof_id _ _ _ Hrow) in *. unfold update_proof in Hup. destruct (find_proof id s2); [|done]. injection Hup as <-.
  assert (Hs2 : base s2 = base s1 /\ claims s2 = claims s1 /\ proofs s2 = proofs s1 /\ (cls <> [] -> proof_claims s2 = proof_claims s1 ++ ((fun c => (claim_id c, id)) <$> cls)) /\
    (cls = [] -> proof_claims s2 = proof_claims s1)).
  { unfold set_proof_claims in Hcl. destruct cls as [|c cls]; cbn [fmap list_fmap] in Hcl; [by injection Hcl as _ <-|].
    destruct (_ || _); [done|]. injection Hcl as <-. split_and!; try done. intros _. cbn. by rewrite <-list_fmap_compose. }
  destruct Hs2 as (Hb & Hc & Hpr & Hpc & Hpc'). split.
  - eauto.
  - by exists s1.
  - cbn. by rewrite Hpr, (pd_proofs _ _ _ _ Hp), Hb, (pd_clock _ _ _ _ Hp).
  - intros Hne. cbn. by rewrite Hpc, (pd_proof_claims _ _ _ _ Hp).
  - intros Hne. cbn. by rewrite Hpc', (pd_proof_claims _ _ _ _ Hp).
Qed.
End persisted.

(** ** The course of a response *)

Section course.
Context {R : Type} `{UuidSupply} `{Randoms} `{SqlDialect} `{HashOrderLaws} `{VpProviders} `{VpWorld}.
Context (self : OID4VPService) (proof_schemas : Z -> option ProofSchema).
Implicit Types (s : VpDb R).

Definition add_blob (id : Z) (value : string) s : VpDb R :=
  mkVpDb (with_blobs (<[id := value]> (blobs (base s))) (base s)) (proofs s) (claims s) (proof_claims s).

(** The proof that a request is for. *)
Definition addressed (unpacked : SubmissionRequestData) s : option ProofRow :=
  find_first (fun p => bool_decide (pr_interaction_id p = Some (sr_state unpacked))) (proofs s).

Definition marked_failed (id blob : Z) s : VpDb R :=
  match find_proof id s with
  | None => s
  | Some _ => with_proofs ((fun p => if pr_id p =? id then apply_proof_update (state_proof_update PsError (Some blob)) (clock (store (base s))) p else p) <$> proofs s) s
  end.

Lemma mark_run id blob s : mark_proof_as_failed id blob s = (Ok tt, marked_failed id blob s).
Proof. unfold mark_proof_as_failed, attempt, update_proof, marked_failed, mbind, M_bind. by destruct (find_proof id s). Qed.

(** What the proof with its relations, the request and the stored content are
    when the response is checked. *)
Record received (unpacked : SubmissionRequestData) (proof : ProofModel) (content : VerifierInteractionContent) (organisation : Z) (value : string) s : Prop := {
  rc_row : addressed unpacked s = Some (pm_row proof);
  rc_schema : exists id schema, pr_proof_schema_id (pm_row proof) = Some id /\ proof_schemas id = Some schema /\ pm_schema proof = Some schema /\
    ps_organisation schema = Some organisation;
  rc_content : exists i data, pm_interaction proof = Some (sr_state unpacked, i) /\ interactions (base s) !! sr_state unpacked = Some i /\ in_data i = Some data /\ content_from_slice data = Some content;
  rc_key : check_encryption_key unpacked content = Ok tt;
  rc_value : submission_to_string (sr_submission_data unpacked) = Some value
}.

(** How a response is handled: it is turned away before it is looked at, or it
    is stored, checked, and accepted or refused. *)
Inductive course (f : VpDb R -> VpDb R) (request : DirectPostRequest) s : res VpServiceError (option string) -> VpDb R -> Prop :=
| CourseTurnedAway r s' : is_ok r = false -> drawing s s' -> course f request s r s'
| CourseChecked unpacked proof content organisation value blob s1 checked s2 r s' :
    unpack_direct_post_request request = Ok unpacked -> received unpacked proof content organisation value s ->
    drawing s s1 -> validate_submission unpacked proof content OpenId4VpFinal1_0 (add_blob blob value s1) = (checked, s2) ->
    drawing (add_blob blob value s1) s2 ->
    match checked with
    | Ok (result, uri) =>
        let id := pr_id (pm_row proof) in
        (r = Ok uri /\ accepted id organisation blob (fst result) (snd result) (f s2) s') \/ (is_ok r = false /\ s' = f s2)
    | Err e => r = Err (VsOpenID4VC e) /\ s' = marked_failed (pr_id (pm_row proof)) blob (f s2)
    | Panic => r = Panic /\ s' = s2
    end -> course f request s r s'.

Lemma transaction_rolled_back {S E A : Type} (m : M S E A) (s : S) : is_ok (transaction m s).1 = false -> (transaction m s).2 = s.
Proof. unfold transaction. by destruct (m s) as [[]]. Qed.

Lemma create_blob_run value s r s' : M_map_err VsData (on_base (create_blob value)) s = (r, s') ->
  match r with Ok blob => exists s1, drawing s s1 /\ s' = add_blob blob value s1 | _ => drawing s s' end.
Proof.
  destruct s as [[st co ins bl md su] pr cl pc]. unfold create_blob, on_base, M_map_err, add_blob, new_uuid, draw, with_blobs. run_M. cbn.
  destruct (bl !! uuid_at su) eqn:Hb; intros [= <- <-]; [|exists (mkVpDb (mkVciDb st co ins bl md (Datatypes.S su)) pr cl pc)];
    unfold drawing, with_supply, supply_of; cbn; try split; try split; try done; lia.
Qed.

Lemma resolve_run row s r s' : resolve_proof_relations proof_schemas row s = (r, s') -> s' = s /\
  forall proof, r = Ok proof -> pm_row proof = row /\
    (forall schema, pm_schema proof = Some schema -> exists id, pr_proof_schema_id row = Some id /\ proof_schemas id = Some schema) /\
    (forall id i, pm_interaction proof = Some (id, i) -> pr_interaction_id row = Some id /\ interactions (base s) !! id = Some i).
Proof.
  unfold resolve_proof_relations, on_base, get_interaction. destruct s as [b pr cl pc]. run_M. cbn.
  destruct (pr_proof_schema_id row) as [id|]; [destruct (proof_schemas id) as [schema|] eqn:Hs; [|cbn; by intros [= <- <-]]|];
  (destruct (pr_interaction_id row) as [k|]; cbn; [destruct (interactions b !! k) as [i|] eqn:Hi; cbn|]);
  intros [= <- <-]; (split; [done|]); intros proof Hok; simplify_eq/=; (split; [done|]); split; intros; simplify_eq/=; eauto.
Qed.

Lemma validate_submission_drawing request proof content pt : preserves drawing (validate_submission (R := R) request proof content pt).
Proof. unfold validate_submission. preserve; [apply drawing_now|apply validate_proof_drawing]. Qed.

(** What follows when the response is stored. *)
Definition conclude (f : VpDb R -> VpDb R) (unpacked : SubmissionRequestData) (proof : ProofModel) (content : VerifierInteractionContent)
  (organisation blob : Z) : M (VpDb R) VpServiceError (option string) :=
  validated ← attempt (validate_submission unpacked proof content OpenId4VpFinal1_0);
  _ ← vp_others f;
  match validated with
  | Ok (result, redirect_uri) => _ ← persist_accepted_proof (pr_id (pm_row proof)) result organisation blob; mret redirect_uri
  | Err e => _ ← mark_proof_as_failed (pr_id (pm_row proof)) blob; throw (VsOpenID4VC e)
  | Panic => fun s => (Panic, s)
  end.

Lemma checked_course f unpacked proof content organisation value blob s1 r s' :
  conclude f unpacked proof content organisation blob (add_blob blob value s1) = (r, s') ->
  exists checked s2, validate_submission unpacked proof content OpenId4VpFinal1_0 (add_blob blob value s1) = (checked, s2) /\
    match checked with
    | Ok (result, uri) => (r = Ok uri /\ accepted (pr_id (pm_row proof)) organisation blob (fst result) (snd result) (f s2) s') \/ (is_ok r = false /\ s' = f s2)
    | Err e => r = Err (VsOpenID4VC e) /\ s' = marked_failed (pr_id (pm_row proof)) blob (f s2)
    | Panic => r = Panic /\ s' = s2
    end.
Proof.
  unfold conclude. intros Hrun. unfold attempt, vp_others in Hrun. unfold mbind at 1, M_bind at 1 in Hrun.
  destruct (validate_submission _ _ _ _ _) as [[[[creds cls] uri]|e|] s2]; eexists _, s2; (split; [reflexivity|]); cbn [fst snd].
  - change ((_ ← persist_accepted_proof (pr_id (pm_row proof)) (creds, cls) organisation blob; mret uri) (f s2) = (r, s')) in Hrun.
    apply bind_cases in Hrun as [([] & s3 & Hp%persist_run & [= <- <-])|(Hr & r0 & Hp & Hr0)]; [by left|right]. split; [done|].
    pose proof (transaction_rolled_back _ (f s2) ltac:(unfold persist_accepted_proof in Hp; rewrite Hp; exact Hr0)) as Hback. unfold persist_accepted_proof in Hp.
    by rewrite Hp in Hback.
  - change ((_ ← mark_proof_as_failed (pr_id (pm_row proof)) blob; throw (VsOpenID4VC e)) (f s2) = (r, s')) in Hrun.
    unfold mbind, M_bind in Hrun. rewrite mark_run in Hrun. by injection Hrun as <- <-.
  - by injection Hrun as <- <-.
Qed.

Lemma direct_post_course f request s r s' : direct_post self proof_schemas f request s = (r, s') -> course f request s r s'.
Proof.
  unfold direct_post, verify_submission, vp_data. intros Hrun.
  assert (Haway : is_ok r = false -> s' = s -> course f request s r s') by (intros ? ->; by apply CourseTurnedAway).
  apply lift_cases in Hrun as [(? & _ & Hrun)|[]]; [|by apply Haway].
  apply lift_cases in Hrun as [(unpacked & Hu & Hrun)|[]]; [|by apply Haway].
  apply bind_cases in Hrun as [(found & s1 & Hfound & Hrun)|(Hr & r0 & Hfound & Hr0)].
  - assert (Hf : s1 = s /\ forall proof, found = Some proof -> addressed unpacked s = Some (pm_row proof) /\
      (forall schema, pm_schema proof = Some schema -> exists id, pr_proof_schema_id (pm_row proof) = Some id /\ proof_schemas id = Some schema) /\
      (forall id i, pm_interaction proof = Some (id, i) -> pr_interaction_id (pm_row proof) = Some id /\ interactions (base s) !! id = Some i)).
    { apply map_err_run in Hfound. unfold get_proof_by_interaction_id in Hfound. apply bind_run in Hfound as (s0 & s2 & [= <- <-] & Hfound).
      unfold addressed. destruct (find_first _ (proofs s)) as [row|]; [|by injection Hfound as <- <-].
      apply bind_run in Hfound as (proof & s3 & Hres & [= <- <-]). apply resolve_run in Hres as [-> Hres]. split; [done|].
      intros proof' [= <-]. destruct (Hres proof eq_refl) as (<- & Hrest). done. }
    destruct Hf as [-> Hf]. apply lift_cases in Hrun as [(proof & Hp%ok_or_ok & Hrun)|[]]; [|by apply Haway]. destruct (Hf proof Hp) as (Hrow & Hs & Hi).
    apply lift_cases in Hrun as [(schema & Hsch%ok_or_ok & Hrun)|[]]; [|by apply Haway].
    apply lift_cases in Hrun as [(organisation & Horg%ok_or_ok & Hrun)|[]]; [|by apply Haway].
    apply lift_cases in Hrun as [([iid i] & Hint%ok_or_ok & Hrun)|[]]; [|by apply Haway].
    apply lift_cases in Hrun as [(content & Hcon & Hrun)|[]]; [|by apply Haway]. cbn [snd] in Hcon.
    apply lift_cases in Hrun as [([] & Hkey & Hrun)|[]]; [|by apply Haway].
    apply lift_cases in Hrun as [([] & _ & Hrun)|[]]; [|by apply Haway].
    apply lift_cases in Hrun as [(value & Hval%ok_or_ok & Hrun)|[]]; [|by apply Haway].
    apply bind_cases in Hrun as [(blob & s2 & Hb%create_blob_run & Hrun)|(Hr & r0 & Hb%create_blob_run & Hr0)]; [|apply CourseTurnedAway; [done|by destruct r0]].
    destruct Hb as (s1 & Hd & ->). apply checked_course in Hrun as (checked & s2 & Hv & Hrest).
    eapply CourseChecked; try eassumption; [|by eapply run_preserves; [apply validate_submission_drawing|]].
    destruct (Hs schema Hsch) as (sid & Hsid & Hps). destruct (Hi iid i Hint) as (Hii & Hrowi).
    unfold parse_interaction_content in Hcon. apply res_bind_ok in Hcon as (data & Hdata%ok_or_ok & Hcs%ok_or_ok).
    assert (iid = sr_state unpacked) as -> by (apply find_first_Some in Hrow as [_ Heq%bool_decide_eq_true]; congruence).
    split; try done; [eauto 10|]. by exists i, data.
  - apply Haway; [done|]. unfold M_map_err, get_proof_by_interaction_id in Hfound.
    unfold mbind at 1, M_bind at 1, Prelude.get in Hfound. destruct (find_first _ _) as [row|]; [|by injection Hfound].
    unfold mbind, M_bind in Hfound. destruct (resolve_proof_relations proof_schemas row s) as [r1 s1] eqn:Hres. apply resolve_run in Hres as [-> _].
    by destruct r1; injection Hfound.
Qed.

(** A response that can be looked at is stored and checked. *)
Lemma received_runs f request unpacked proof content organisation value s :
  validate_verification_protocol_config_exists self [OpenId4VpFinal1_0] = Ok tt -> vs_db_blob_storage self = true ->
  unpack_direct_post_request request = Ok unpacked -> received unpacked proof content organisation value s ->
  blobs (base s) !! uuid_at (supply_of s) = None ->
  direct_post self proof_schemas f request s =
    conclude f unpacked proof content organisation (uuid_at (supply_of s)) (add_blob (uuid_at (supply_of s)) value (with_supply (S (supply_of s)) s)).
Proof.
  intros Hconf Hdb Hu [Hrow (sid & schema & Hsid & Hps & Hsch & Horg) (i & data & Hpi & Hi & Hdata & Hcs) Hkey Hval] Hblob.
  pose proof Hrow as [_ Hint%bool_decide_eq_true]%find_first_Some. destruct proof as [row sch int]. cbn in *. subst sch int.
  unfold direct_post, vp_data, M_map_err, get_proof_by_interaction_id, resolve_proof_relations, on_base. fold (addressed unpacked s).
  unfold mbind at 1, M_bind at 1, lift at 1. rewrite Hconf. unfold mbind at 1, M_bind at 1, lift at 1. rewrite Hu.
  unfold mbind at 1, M_bind at 1. run_M. unfold addressed in Hrow. rewrite Hrow, Hsid, Hps, Hint. cbn [ok_or]. unfold get_interaction. rewrite Hi. cbn [ok_or map_err].
  unfold verify_submission. run_M. cbn [ok_or pm_schema pm_interaction snd]. rewrite Horg. unfold parse_interaction_content. rewrite Hdata. cbn [ok_or].
  unfold mbind, res_bind. rewrite Hcs. cbn [ok_or]. rewrite Hkey, Hdb, Hval. cbn [negb fail_if ok_or].
  unfold vp_data, M_map_err, on_base, create_blob, new_uuid, draw. run_M. cbn. unfold supply_of in Hblob. rewrite Hblob. done.
Qed.
End course.

(** ** Requests that were answered *)

Section settled.
Context {R : Type} `{UuidSupply} `{Randoms} `{SqlDialect} `{HashOrderLaws} `{VpProviders} `{VpWorld} `{ProofWorld}.
Implicit Types (s : VpDb R).

Definition finished (st : ProofStateEnum) : bool :=
  match st with PsAccepted | PsRejected | PsRetracted | PsError => true | _ => false end.

(** A request that is finished stays so, in its state or in an error, and gets
    no claims. *)
Definition settled s s' : Prop := forall id row, find_proof id s = Some row -> finished (pr_state row) = true ->
  (exists row', find_proof id s' = Some row' /\ (pr_state row' = pr_state row \/ pr_state row' = PsError)) /\
  forall c, (c, id) ∈ proof_claims s' -> (c, id) ∈ proof_claims s.

#[export] Instance settled_preorder : PreOrder settled.
Proof.
  split; [intros s id row Hrow _; split; [by exists row; auto|done]|]. intros s1 s2 s3 H12 H23 id row Hrow Hfin.
  destruct (H12 id row Hrow Hfin) as [(row2 & Hrow2 & Hst2) Hc2]. destruct (H23 id row2 Hrow2) as [(row3 & Hrow3 & Hst3) Hc3].
  { destruct Hst2 as [->| ->]; done. }
  split; [|auto]. exists row3. split; [done|]. destruct Hst3 as [->| ->]; auto.
Qed.

(** The proofs and what they proved are as they were. *)
Definition same_proofs s s' : Prop := proofs s' = proofs s /\ proof_claims s' = proof_claims s.
#[export] Instance same_proofs_preorder : PreOrder same_proofs.
Proof. split; [done|]. intros s1 s2 s3 [] []. split; congruence. Qed.

Lemma same_settled s s' : same_proofs s s' -> settled s s'.
Proof. intros [Hp Hc] id row Hrow _. unfold find_proof in *. rewrite Hp, Hc. split; [exists row; auto|done]. Qed.

Lemma drawing_same s s' : drawing s s' -> same_proofs s s'.
Proof. intros [_ ->]. done. Qed.

(** Rows are changed in place; claims are taken away, or are of an open request. *)
Lemma rows_settled (g : ProofRow -> ProofRow) s s' : (forall p, pr_id (g p) = pr_id p) -> proofs s' = g <$> proofs s ->
  (forall id row, find_proof id s = Some row -> finished (pr_state row) = true ->
     (pr_state (g row) = pr_state row \/ pr_state (g row) = PsError) /\ forall c, (c, id) ∈ proof_claims s' -> (c, id) ∈ proof_claims s) ->
  settled s s'.
Proof.
  intros Hid Hp Hg id row Hrow Hfin. destruct (Hg id row Hrow Hfin) as [Hst Hc]. split; [|done]. exists (g row). split; [|done].
  unfold find_proof, find_first in *. rewrite Hp. clear -Hid Hrow. induction (proofs s) as [|p ps IH]; [done|]. cbn in *. rewrite Hid.
  destruct (pr_id p =? id); [by injection Hrow as ->|auto].
Qed.

Definition update_in (id : Z) (u : UpdateProofRequest) (now : Z) (p : ProofRow) : ProofRow := if pr_id p =? id then apply_proof_update u now p else p.

(** An update of one proof: to an error, or of a request that is not finished. *)
Lemma update_settled id u now s s' : proofs s' = update_in id u now <$> proofs s ->
  (forall row c, find_proof id s = Some row -> finished (pr_state row) = true -> up_state u = Some PsError /\ ((c, id) ∈ proof_claims s' -> (c, id) ∈ proof_claims s)) ->
  (forall x c, x <> id -> (c, x) ∈ proof_claims s' -> (c, x) ∈ proof_claims s) -> settled s s'.
Proof.
  intros Hp Hu Hother. apply (rows_settled (update_in id u now)); [|done|].
  - intros p. unfold update_in. by destruct (pr_id p =? id).
  - intros x row Hrow Hfin. pose proof (find_proof_id _ _ _ Hrow) as Hx. unfold update_in. destruct (Z.eqb_spec (pr_id row) id) as [Heq|Hne].
    + rewrite <-Hx, Heq in *. split; [right; cbn; by destruct (Hu row 0 Hrow Hfin) as [-> _]|]. intros c. by apply (Hu row c).
    + split; [by left|]. intros c. apply Hother. congruence.
Qed.

Lemma marked_settled id blob s : settled s (marked_failed id blob s).
Proof.
  unfold marked_failed. destruct (find_proof id s) eqn:Hf; [|done].
  apply (update_settled id (state_proof_update PsError (Some blob)) (clock (store (base s)))); [done| |done]. intros; split; [done|done].
Qed.

Lemma accepted_settled id organisation blob creds cls s s' : accepted id organisation blob creds cls s s' -> settled s s'.
Proof.
  intros Ha. destruct (ac_open _ _ _ _ _ _ _ Ha) as (row & Hrow & Hopen).
  apply (update_settled id (state_proof_update PsAccepted (Some blob)) (clock (store (base s)))).
  - apply Ha.
  - intros row' c Hrow' Hfin. assert (row' = row) as -> by congruence. by destruct (pr_state row).
  - intros x c Hx. destruct cls as [|cl cls]; [by rewrite (ac_no_claims _ _ _ _ _ _ _ Ha)|]. rewrite (ac_proof_claims _ _ _ _ _ _ _ Ha) by done.
    intros [Hin|Hin]%elem_of_app; [done|]. apply list_elem_of_fmap in Hin as (? & [= _ ?] & _). done.
Qed.

Definition vp_concurrent (f : VpDb R -> VpDb R) : Prop := forall s, settled s (f s).

Lemma course_settled proof_schemas f request s r s' : vp_concurrent f -> course proof_schemas f request s r s' -> settled s s'.
Proof.
  intros Hf [r' s'' _ Hd|unpacked proof content organisation value blob s1 checked s2 r' s'' _ _ H1' _ H2' Hend].
  - by apply same_settled, drawing_same.
  - assert (H12 : settled s s2).
    { apply same_settled. etrans; [by apply drawing_same|]. apply drawing_same in H2'. by etrans; [|exact H2']. }
    destruct checked as [[result uri]|e|].
    + etrans; [exact H12|]. etrans; [apply Hf|]. destruct Hend as [[_ Ha]|[_ ->]]; [by eapply accepted_settled|reflexivity].
    + destruct Hend as [_ ->]. etrans; [exact H12|]. etrans; [apply Hf|]. apply marked_settled.
    + by destruct Hend as [_ ->].
Qed.
End settled.

(** ** The other operations on requests *)

Section operations.
Context {R : Type} `{UuidSupply} `{Randoms} `{SqlDialect} `{HashOrderLaws} `{VpProviders} `{VpWorld} `{ProofWorld}.
Context (self : OID4VPService) (proof_schemas : Z -> option ProofSchema) (session : option Session).
Implicit Types (s : VpDb R).

Lemma same_on_base {E A : Type} (m : M (VciDb R) E A) : preserves same_proofs (on_base m).
Proof. intros s. unfold on_base. by destruct (m (base s)). Qed.
Lemma same_now {E : Type} : preserves same_proofs (vp_now : M (VpDb R) E Z).
Proof. apply same_on_base. Qed.
#[local] Hint Resolve same_on_base same_now : core_db.

Lemma same_verifier_share proof params : preserves same_proofs (verifier_share_proof (R := R) proof params).
Proof. unfold verifier_share_proof. preserve. Qed.

Lemma load_run id s r s' : load_proof proof_schemas id s = (r, s') -> s' = s /\ forall proof, r = Ok proof -> find_proof id s = Some (pm_row proof).
Proof.
  unfold load_proof, pe_data, get_proof, get_proof_row, M_map_err. run_M. destruct (find_proof id s) as [row|]; [|intros [= <- <-]; by split].
  destruct (resolve_proof_relations proof_schemas row s) as [r1 s1] eqn:Hres. apply resolve_run in Hres as [-> Hres].
  destruct r1 as [proof|e|]; cbn; intros [= <- <-]; (split; [done|]); [|done..]. intros proof' [= <-]. by destruct (Hres proof eq_refl) as [-> _].
Qed.

(** The update of a request that was seen, and is not finished. *)
Lemma open_update_settled id u s1 s row : find_proof id s1 = Some row -> finished (pr_state row) = false -> same_proofs s1 s ->
  settled s (update_proof id u s).2.
Proof.
  intros Hrow Hst [Hp Hc]. unfold update_proof. destruct (find_proof id s) as [row'|] eqn:Hrow'; [|reflexivity].
  apply (update_settled id u (clock (store (base s)))); [done| |done].
  intros row2 c Hrow2. assert (row2 = row) as -> by (unfold find_proof in *; congruence). by rewrite Hst.
Qed.

Lemma bind_settled {E A B : Type} (m : M (VpDb R) E A) (k : A -> M (VpDb R) E B) s : settled s (m s).2 ->
  (forall a s1, m s = (Ok a, s1) -> settled s1 (k a s1).2) -> settled s ((m ≫= k) s).2.
Proof. intros Hm Hk. unfold mbind, M_bind. destruct (m s) as [[a|e|] s1]; [|done..]. etrans; [exact Hm|]. by apply Hk. Qed.

Lemma same_bind_settled {E A B : Type} (m : M (VpDb R) E A) (k : A -> M (VpDb R) E B) s : preserves same_proofs m ->
  (forall a s1, m s = (Ok a, s1) -> same_proofs s s1 -> settled s1 (k a s1).2) -> settled s ((m ≫= k) s).2.
Proof.
  intros Hm Hk. apply bind_settled; [apply same_settled, Hm|]. intros a s1 Hr. apply Hk; [done|]. by eapply run_preserves.
Qed.

Lemma load_settled {A : Type} id (k : ProofModel -> M (VpDb R) ProofServiceError A) s :
  (forall proof, find_proof id s = Some (pm_row proof) -> settled s (k proof s).2) -> settled s ((load_proof proof_schemas id ≫= k) s).2.
Proof.
  intros Hk. unfold mbind, M_bind. destruct (load_proof proof_schemas id s) as [r s1] eqn:Hr. apply load_run in Hr as [-> Hr].
  destruct r as [proof|e|]; [|done..]. by apply Hk, Hr.
Qed.

Lemma lift_settled {E A B : Type} (m : res E A) (k : A -> M (VpDb R) E B) s : (forall a, m = Ok a -> settled s (k a s).2) ->
  settled s ((lift m ≫= k) s).2.
Proof. intros Hk. unfold mbind, M_bind, lift. destruct m; [by apply Hk|done..]. Qed.

Lemma share_settled id params : preserves settled (share_proof (R := R) proof_schemas session id params).
Proof.
  intros s. unfold share_proof. apply load_settled. intros proof Hrow. apply lift_settled. intros _ _. cbv zeta.
  apply lift_settled. intros [] Hst%fail_if_ok%negb_false_iff. apply lift_settled. intros _ _. apply lift_settled. intros organisation _.
  apply lift_settled. intros _ _. apply same_bind_settled; [apply same_verifier_share|]. intros response s1 _ H1'.
  apply same_bind_settled; [apply same_now|]. intros now s2 _ H2'. unfold pe_data.
  apply same_bind_settled; [apply preserves_map_err, same_on_base|]. intros [] s3 _ H3'. apply bind_settled.
  - assert (Hu : forall u, settled s3 (update_proof (pr_id (pm_row proof)) u s3).2).
    { intros u. apply (open_update_settled _ _ s _ (pm_row proof)); [by rewrite (find_proof_id _ _ _ Hrow)|by destruct (pr_state (pm_row proof))|].
      by etrans; [exact H1'|etrans; [exact H2'|exact H3']]. }
    unfold M_map_err. match goal with |- context [update_proof ?x ?u s3] => specialize (Hu u); by destruct (update_proof x u s3) end.
  - intros [] s4 _. match goal with |- settled s4 (?m s4).2 => enough (Hm : preserves same_proofs m) by apply same_settled, Hm end. preserve.
Qed.

Lemma delete_blob_same {E : Type} blob : preserves same_proofs (delete_blob blob : M (VpDb R) E unit).
Proof. intros s. done. Qed.
#[local] Hint Resolve delete_blob_same : core_db.

Lemma delete_stored_same proof : preserves same_proofs (delete_stored_blob (R := R) self proof).
Proof. unfold delete_stored_blob. preserve. Qed.

Lemma delete_row_settled {E : Type} id s : (forall row, find_proof id s = Some row -> finished (pr_state row) = false) ->
  settled s (delete_proof_row (E := E) id s).2.
Proof.
  intros Hopen x row Hrow Hfin. split; [|done]. exists row. split; [|by left]. assert (x <> id) by (intros ->; by rewrite (Hopen row Hrow) in Hfin).
  unfold find_proof, find_first in *. cbn. clear Hopen Hfin. induction (proofs s) as [|p ps IH]; [done|]. cbn in *.
  destruct (Z.eqb_spec (pr_id p) id) as [Hp|Hp]; cbn; destruct (Z.eqb_spec (pr_id p) x); [congruence|auto|done|auto].
Qed.

Lemma delete_settled id : preserves settled (delete_proof (R := R) self proof_schemas session id).
Proof.
  intros s. unfold delete_proof. apply load_settled. intros proof Hrow. apply lift_settled. intros _ _. pose proof (find_proof_id _ _ _ Hrow) as Hid.
  apply bind_settled; [|intros [] s1 _; apply same_settled, delete_stored_same].
  assert (Hdel : finished (pr_state (pm_row proof)) = false ->
    settled s ((_ ← lift (exchange_retract_proof proof); hard_delete_proof proof) s).2).
  { intros Hst. apply lift_settled. intros _ _. unfold hard_delete_proof. apply bind_settled.
    - apply delete_row_settled. intros row Hr. rewrite Hid in Hr. congruence.
    - intros [] s1 _. apply same_settled. destruct (pm_interaction proof) as [[]|]; [apply same_on_base|reflexivity]. }
  assert (Hret : pr_state (pm_row proof) = PsRequested -> settled s ((_ ← lift (exchange_retract_proof proof);
    pe_data (update_proof (pr_id (pm_row proof)) (state_proof_update PsRetracted None))) s).2).
  { intros Hst. apply lift_settled. intros _ _. rewrite Hid.
    pose proof (open_update_settled id (state_proof_update PsRetracted None) s s (pm_row proof) Hrow ltac:(by rewrite Hst) ltac:(done)) as Hu.
    unfold pe_data, M_map_err. by destruct (update_proof _ _ _). }
  destruct (pr_state (pm_row proof)); auto; reflexivity.
Qed.

Lemma delete_claims_settled id : preserves settled (delete_proof_claims (R := R) self proof_schemas session id).
Proof.
  intros s. unfold delete_proof_claims. apply load_settled. intros proof Hrow. apply lift_settled. intros _ _.
  apply same_bind_settled; [apply preserves_get; typeclasses eauto|]. intros s0 s1 [= <- <-] _. apply lift_settled. intros ids _.
  apply bind_settled.
  - intros x row Hx _. split; [exists row; auto|]. cbn. intros c. rewrite elem_of_filter_bool. by intros [].
  - intros [] s2 _. match goal with |- settled s2 (?m s2).2 => enough (Hm : preserves same_proofs m) by apply same_settled, Hm end.
    preserve; [done|apply delete_stored_same].
Qed.

Lemma create_settled row : preserves settled (create_proof_row (R := R) row).
Proof.
  intros s. unfold create_proof_row. destruct (find_proof (pr_id row) s); [reflexivity|]. intros id r Hr _. split; [|done].
  exists r. split; [|by left]. unfold find_proof in *. cbn. rewrite find_first_app; [done|by eexists].
Qed.

Lemma expire_settled {E : Type} : preserves settled (update_expired_proofs (E := E) (R := R)).
Proof.
  intros s. apply (rows_settled (fun p => if proof_expired s p then expire_proof (now_truncated_to_milliseconds (base s)) p else p)); [|done|].
  - intros p. by destruct (proof_expired s p).
  - intros id row _ Hfin. split; [left|done]. destruct (proof_expired s row) eqn:Hexp; [|done]. unfold proof_expired in Hexp.
    apply andb_true_iff in Hexp as [Hst%bool_decide_eq_true _]. by rewrite Hst in Hfin.
Qed.
End operations.

(** ** Responses that pass *)

Section accepted_again.
Context {R : Type} `{UuidSupply} `{Randoms} `{SqlDialect} `{HashOrderLaws} `{VpProviders} `{VpWorld}.
Implicit Types (s : VpDb R).

(** The ids are distinct, and no credential and no claim has one of them. *)
Definition unused (ids : list Z) s : Prop := NoDup ids /\ forall id, id ∈ ids -> find_credential id (store (base s)) = None /\ has_claim id s = false.

(** The identifiers of the issuer and the holder can be stored, and so can the
    security object of an mdoc. *)
Definition storable (organisation : Z) (p : ProvedCredential) : Prop :=
  is_Some (get_or_create_remote_identifier organisation (pv_issuer_details p) RoleIssuer) /\
  is_Some (get_or_create_remote_identifier organisation (pv_holder_details p) RoleHolder) /\
  forall mso, pv_mdoc_mso p = Some mso -> is_Some (encode_mso mso).

Lemma storable_credential organisation p : storable organisation p -> exists c cols, credential_from_proved organisation p = Ok (c, cols).
Proof. intros ([[issuer cert] Hi] & [[holder ?] Hh] & _). unfold credential_from_proved. rewrite Hi. cbn. rewrite Hh. cbn. eauto. Qed.

Lemma persist_credential_ok organisation p s : storable organisation p -> unused (credential_ids_of p) s ->
  exists s', persist_credential organisation p s = (Ok tt, s').
Proof.
  intros Hst [Hnd Hun]. destruct (storable_credential _ _ Hst) as (c & cols & Hc). pose proof (from_proved_id _ _ _ _ Hc) as Hid.
  unfold persist_credential, vp_data, M_map_err, create_credential_row. run_M. rewrite Hc, Hid. unfold credential_ids_of in *.
  destruct (Hun (pv_id p)) as [-> _]; [left|]. apply NoDup_cons in Hnd as [_ Hnd].
  assert (Hrest : exists s1, (match pv_claims p with [] => mret tt | _ => create_claim_list (pv_id p) (pv_claims p) end : M (VpDb R) DataLayerError unit)
     (mkVpDb (mkVciDb (mkStore (credentials (store (base s)) ++ [c]) (revocation (store (base s))) (clock (store (base s))))
        (<[pv_id p := cols]> (columns (base s))) (interactions (base s)) (blobs (base s)) (mdocs (base s)) (supply (base s))) (proofs s) (claims s) (proof_claims s)) = (Ok tt, s1)).
  { destruct (pv_claims p) as [|cl cls]; [by eexists|]. unfold create_claim_list. rewrite (proj2 (orb_false_iff _ _)); [by eexists|]. split.
    - apply negb_false_iff, bool_decide_eq_true. exact Hnd.
    - apply not_true_iff_false. intros (x & Hin & Hx)%List.existsb_exists. destruct (Hun (claim_id x)) as [_ Hno]; [right; apply list_elem_of_fmap_2; by apply list_elem_of_In|].
      unfold has_claim in *. cbn [claims] in Hx. congruence. }
  destruct Hrest as (s1 & Hrest). unfold mret, M_ret in Hrest. rewrite Hrest. cbn [map_err]. destruct Hst as (_ & _ & Hmso).
  destruct (pv_mdoc_mso p) as [mso|]; [|by eexists]. destruct (Hmso mso eq_refl) as [cbor ->]. cbn. by eexists.
Qed.

Lemma unused_later organisation p ids s s' : persisted organisation [p] s s' -> unused (credential_ids_of p ++ ids) s -> unused ids s'.
Proof.
  intros Hp [Hnd Hun]. apply NoDup_app in Hnd as (_ & Hdis & Hnd). split; [done|]. intros id Hid.
  assert (Hnew : id ∉ credential_ids_of p) by (intros Hin; by apply (Hdis id)). destruct (Hun id) as [Hc Hcl]; [apply elem_of_app; by right|].
  unfold credential_ids_of in Hnew. apply not_elem_of_cons in Hnew as [Hne Hnew]. split.
  - destruct (pd_credentials _ _ _ _ Hp) as (new & Hcs & Hall). apply Forall2_cons_inv_l in Hall as (c & rest & (Hcid & _) & Hrest & ->).
    apply Forall2_nil_inv_l in Hrest as ->. unfold find_credential, find_first in *. rewrite Hcs.
    clear -Hc Hne Hcid. induction (credentials (store (base s))) as [|x xs IH]; cbn in *.
    + destruct (Z.eqb_spec (credential_id c) id); congruence.
    + destruct (credential_id x =? id); [done|auto].
  - unfold has_claim in *. rewrite (pd_claims _ _ _ _ Hp). cbn. rewrite app_nil_r, List.existsb_app, Hcl. cbn.
    apply not_true_iff_false. intros (x & Hin & Hx)%List.existsb_exists. apply list_elem_of_In, list_elem_of_fmap in Hin as (cl & -> & Hin).
    apply Z.eqb_eq in Hx. apply Hnew, list_elem_of_fmap. by exists cl.
Qed.

Lemma persist_all_ok organisation creds s : (forall p, p ∈ creds -> storable organisation p) -> unused (concat (credential_ids_of <$> creds)) s ->
  exists s', for_each (persist_credential organisation) creds s = (Ok tt, s').
Proof.
  revert s. induction creds as [|p creds IH]; intros s Hst Hun; [by eexists|]. cbn [for_each].
  change (unused (credential_ids_of p ++ concat (credential_ids_of <$> creds)) s) in Hun.
  destruct (persist_credential_ok organisation p s) as (s1 & Hs1); [apply Hst; left| |].
  { destruct Hun as [Hnd Hun]. apply NoDup_app in Hnd as (Hnd & _). split; [done|]. intros id Hid. apply Hun. apply elem_of_app. by left. }
  unfold mbind, M_bind. rewrite Hs1. apply persist_credential_run in Hs1 as [Hp _]. apply IH; [intros; apply Hst; by right|].
  by eapply unused_later.
Qed.

(** The claims of the credentials, once they are stored, can be entered. *)
Lemma set_claims_ok id creds s s1 : claims s1 = claims s ++ concat ((fun p => (fun c => (pv_id p, c)) <$> pv_claims p) <$> creds) ->
  NoDup (claim_id <$> concat (pv_claims <$> creds)) -> (forall c, c ∈ claim_id <$> concat (pv_claims <$> creds) -> forall x, (c, x) ∉ proof_claims s1) ->
  (concat (pv_claims <$> creds) = [] -> insert_none = Ok tt) ->
  exists s', set_proof_claims id (claim_id <$> concat (pv_claims <$> creds)) s1 = (Ok tt, s') /\ proofs s' = proofs s1.
Proof.
  intros Hcl Hnd Hpc Hnone. unfold set_proof_claims. destruct (claim_id <$> concat (pv_claims <$> creds)) as [|x xs] eqn:Hl.
  { exists s1. rewrite Hnone; [done|]. by destruct (concat (pv_claims <$> creds)). }
  rewrite (proj2 (orb_false_iff _ _)); [by eexists|]. split; [apply negb_false_iff, bool_decide_eq_true; exact Hnd|].
  apply not_true_iff_false. intros (c & Hin%list_elem_of_In & Hbad)%List.existsb_exists. apply orb_true_iff in Hbad as [Hbad|Hbad].
  - apply negb_true_iff in Hbad. rewrite <-Hl in Hin. apply list_elem_of_fmap in Hin as (cl & -> & Hin).
    apply elem_of_concat in Hin as (l & Hl1 & Hin). apply list_elem_of_fmap in Hl1 as (p & -> & Hp).
    assert (Hh : has_claim (claim_id cl) s1 = true); [|congruence]. unfold has_claim. apply List.existsb_exists. exists (pv_id p, cl). split; [|by apply Z.eqb_eq].
    apply list_elem_of_In. rewrite Hcl. apply elem_of_app. right. apply elem_of_concat. eexists. split; [apply list_elem_of_fmap; by exists p|].
    apply list_elem_of_fmap. by exists cl.
  - apply List.existsb_exists in Hbad as (e & He%list_elem_of_In & Heq%bool_decide_eq_true). subst e. by apply (Hpc c Hin id).
Qed.

Lemma persist_ok id creds organisation blob s row : find_proof id s = Some row -> open_state (pr_state row) = true ->
  (forall p, p ∈ creds -> storable organisation p) -> unused (concat (credential_ids_of <$> creds)) s ->
  (forall c, c ∈ claim_id <$> concat (pv_claims <$> creds) -> forall x, (c, x) ∉ proof_claims s) ->
  (concat (pv_claims <$> creds) = [] -> insert_none = Ok tt) ->
  exists s', persist_accepted_proof id (creds, concat (pv_claims <$> creds)) organisation blob s = (Ok tt, s').
Proof.
  intros Hrow Hst Hstore Hun Hpc Hnone. destruct (persist_all_ok organisation creds s Hstore Hun) as (s1 & Hs1). apply persist_all_run in Hs1 as Hp.
  destruct (set_claims_ok id creds s s1) as (s2 & Hs2 & Hpr); [apply Hp| |by rewrite (pd_proof_claims _ _ _ _ Hp)|done|].
  { destruct Hun as [Hnd _]. clear -Hnd. induction creds as [|p creds IH]; cbn in *; [constructor|]. rewrite fmap_app.
    apply NoDup_cons in Hnd as [_ Hnd]. apply NoDup_app in Hnd as (H1' & H2' & H3'). apply NoDup_app. split_and!; [done| |auto].
    intros x Hx Hin. apply (H2' x Hx). clear -Hin. rewrite concat_fmap_concat in Hin. apply elem_of_concat in Hin as (l & Hl & Hx).
    apply elem_of_concat. rewrite <-list_fmap_compose in Hl. apply list_elem_of_fmap in Hl as (p & -> & Hp).
    exists (credential_ids_of p). split; [by apply list_elem_of_fmap_2|by right]. }
  assert (Hfind2 : find_proof id s2 = Some row) by (unfold find_proof in *; by rewrite Hpr, (pd_proofs _ _ _ _ Hp)).
  unfold persist_accepted_proof, transaction, get_proof_row, vp_data, M_map_err. run_M. rewrite Hrow. cbn [ok_or].
  assert (throw_if_proof_state_not_in (VsInvalidProofState (pr_state row)) row [PsPending; PsRequested] = Ok tt) as ->
    by (unfold throw_if_proof_state_not_in; destruct (pr_state row); done).
  cbn [fst snd]. rewrite Hs1, (find_proof_id _ _ _ Hrow), Hs2. cbn [map_err]. unfold update_proof. rewrite Hfind2. cbn. by eexists.
Qed.
End accepted_again.

(** ** Requests that are shared *)

Section shared.
Context {R : Type} `{UuidSupply} `{Randoms} `{SqlDialect} `{HashOrderLaws} `{VpProviders} `{VpWorld} `{ProofWorld}.
Context (proof_schemas : Z -> option ProofSchema) (session : option Session).
Implicit Types (s : VpDb R).

Lemma verifier_share_run proof params s r s' : verifier_share_proof proof params s = (Ok r, s') ->
  exists client uri key schema query value, pm_schema proof = Some schema /\ create_dcql_query schema = Ok query /\
    content_to_vec (mkContent (alphanumeric_at (S (supply_of s)) 32) None (Some query) client (Some uri) key) = Some value /\
    r = mkVpShare (uuid_at (supply_of s)) value ((fun d => clock (store (base s)) + d) <$> interaction_expires_in) /\
    s' = with_supply (S (S (supply_of s))) s.
Proof.
  unfold verifier_share_proof. intros Hrun. apply bind_run in Hrun as (iid & s1 & Hi & Hrun). injection Hi as <- <-.
  apply bind_run in Hrun as (url & s1 & [_ ->]%lift_run & Hrun). cbv zeta in Hrun. apply bind_run in Hrun as (nonce & s2 & Hn & Hrun). injection Hn as <- <-.
  do 4 (apply bind_run in Hrun as (? & s1 & [_ ->]%lift_run & Hrun)). apply bind_run in Hrun as (schema & s1 & [Hs%ok_or_ok ->]%lift_run & Hrun).
  apply bind_run in Hrun as (key & s1 & [_ ->]%lift_run & Hrun). apply bind_run in Hrun as (query & s1 & [Hq ->]%lift_run & Hrun).
  do 2 (apply bind_run in Hrun as (? & s1 & [_ ->]%lift_run & Hrun)). apply bind_run in Hrun as (now & s3 & Hnow & Hrun). injection Hnow as <- <-.
  apply bind_run in Hrun as (value & s3 & [Hv%ok_or_ok ->]%lift_run & Hrun). injection Hrun as <- <-. eexists _, _, key, schema, query, value. done.
Qed.

(** What the operation has done when a request is shared. *)
Record shares (id : Z) (row : ProofRow) (schema : ProofSchema) (content : VerifierInteractionContent) (organisation : Z) (r : VpShareResponse) s s' : Prop := {
  sh_row : find_proof id s = Some row;
  sh_shareable : proof_shareable (pr_state row) = true;
  sh_schema : exists sid, pr_proof_schema_id row = Some sid /\ proof_schemas sid = Some schema;
  sh_organisation : ps_organisation schema = Some organisation;
  sh_id : vh_interaction_id r = uuid_at (supply_of s);
  sh_query : exists query, create_dcql_query schema = Ok query /\ vc_dcql_query content = Some query /\ vc_presentation_definition content = None;
  sh_nonce : vc_nonce content = alphanumeric_at (S (supply_of s)) 32;
  sh_data : content_to_vec content = Some (vh_interaction_data r);
  sh_interaction : exists i, in_data i = Some (vh_interaction_data r) /\
    (interactions (base s') = <[vh_interaction_id r := i]> (interactions (base s)) \/
     exists previous, pr_interaction_id row = Some previous /\
       interactions (base s') = delete previous (<[vh_interaction_id r := i]> (interactions (base s))));
  sh_proofs : exists u, up_state u = (if bool_decide (pr_state row <> PsPending) then Some PsPending else None) /\
    up_interaction u = Some (Some (vh_interaction_id r)) /\ proofs s' = update_in id u (clock (store (base s))) <$> proofs s
}.

Lemma share_run id params s r s' : share_proof proof_schemas session id params s = (Ok r, s') ->
  exists row schema content organisation, shares id row schema content organisation r s s'.
Proof.
  unfold share_proof, pe_data. intros Hrun. apply bind_run in Hrun as (proof & s1 & Hload & Hrun).
  assert (Hproof : s1 = s /\ find_proof id s = Some (pm_row proof) /\
     (forall schema, pm_schema proof = Some schema -> exists sid, pr_proof_schema_id (pm_row proof) = Some sid /\ proof_schemas sid = Some schema) /\
     (forall k i, pm_interaction proof = Some (k, i) -> pr_interaction_id (pm_row proof) = Some k)).
  { unfold load_proof, pe_data, get_proof, get_proof_row in Hload. apply bind_run in Hload as (found & s2 & Hf%map_err_run & Hload).
    apply lift_run in Hload as [Hload%ok_or_ok ->]. subst found. apply bind_run in Hf as (row & s3 & [= <- <-] & Hf).
    destruct (find_proof id s) as [row|]; [|done]. apply bind_run in Hf as (proof' & s4 & Hres & [= -> <-]).
    apply resolve_run in Hres as [-> Hres]. destruct (Hres proof eq_refl) as (-> & Hs & Hi). split_and!; try done. intros k i Hki. by destruct (Hi k i Hki). }
  destruct Hproof as (-> & Hrow & Hsch & Hint). rewrite (find_proof_id _ _ _ Hrow) in Hrun.
  apply bind_run in Hrun as (? & s1 & [_ ->]%lift_run & Hrun). cbv zeta in Hrun.
  apply bind_run in Hrun as ([] & s1 & [Hst%fail_if_ok%negb_false_iff ->]%lift_run & Hrun). apply bind_run in Hrun as (? & s1 & [_ ->]%lift_run & Hrun).
  apply bind_run in Hrun as (organisation & s1 & [Horg%ok_or_ok ->]%lift_run & Hrun). apply bind_run in Hrun as (? & s1 & [_ ->]%lift_run & Hrun).
  apply bind_run in Hrun as (response & s1 & Hsh & Hrun).
  apply verifier_share_run in Hsh as (client & uri & key & schema & query & value & Hs & Hq & Hv & -> & ->).
  apply bind_run in Hrun as (now & s1 & [= Hnow <-] & Hrun). cbn [vh_interaction_id vh_interaction_data vh_expires_at] in Hrun.
  apply bind_run in Hrun as ([] & s2 & Hcr%map_err_run & Hrun). unfold on_base, create_interaction in Hcr.
  destruct (interactions _ !! _); [done|]. injection Hcr as <-.
  apply bind_run in Hrun as ([] & s3 & Hup%map_err_run & Hrun). unfold update_proof in Hup. destruct (find_proof id _) in Hup; [|done]. injection Hup as <-.
  apply bind_run in Hrun as ([] & s4 & Hdel & [= <- <-]). rewrite Hs in Horg. cbn in Horg.
  exists (pm_row proof), schema, (mkContent (alphanumeric_at (S (supply_of s)) 32) None (Some query) client (Some uri) key), organisation.
  assert (Hrest : proofs s4 = update_in id (mkUpdateProof None (if bool_decide (pr_state (pm_row proof) <> PsPending) then Some PsPending else None)
        (Some (Some (uuid_at (supply_of s)))) None None None None (Some (Some DEFAULT_ENGAGEMENT))) (clock (store (base s))) <$> proofs s /\
     (interactions (base s4) = <[uuid_at (supply_of s) := mkInteraction now (Some value) organisation None Verification
          ((fun d => clock (store (base s)) + d) <$> interaction_expires_in)]> (interactions (base s)) \/
      exists previous, pr_interaction_id (pm_row proof) = Some previous /\ interactions (base s4) =
        delete previous (<[uuid_at (supply_of s) := mkInteraction now (Some value) organisation None Verification
          ((fun d => clock (store (base s)) + d) <$> interaction_expires_in)]> (interactions (base s))))).
  { destruct (pm_interaction proof) as [[previous i]|]; injection Hdel as <-; (split; [done|]); [right|by left].
    exists previous. split; [by eapply Hint|done]. }
  destruct Hrest as [Hpr Hin]. split.
  - done.
  - done.
  - by apply Hsch.
  - done.
  - done.
  - by exists query.
  - done.
  - done.
  - eexists. split; [|exact Hin]. done.
  - eexists. split; [|split; [|exact Hpr]]; done.
Qed.
End shared.
