(* ===== verification/VpTheorems.v ===== *)
(** * OpenID4VP: theorems

    What the verifier may conclude from a response that it accepted, that a
    request is accepted once, and what a response does to the tables. *)

From S2P Require Import Prelude Paths StatusBits KeySelection RevocationRepo RevocationMethod TokenMethod ListFilter Validity.
From S2P Require Import SdValue Dcql VciStore VciService VciSpec VpStore VpValidator VpService VpProofs VpSpec VpLife.
From Stdlib Require Import Ascii String.
#[local] Open Scope Z_scope.
#[local] Notation length := Datatypes.length.
#[local] Notation concat := List.concat.

(** ** What an accepted response proves *)

Section soundness.
Context {R : Type} `{UuidSupply} `{HashOrderLaws} `{VpProviders}.

(** The claim is a part of the value that was proved. *)
Definition part_of (p : ValidatedProofClaim) (cl : Claim) : Prop :=
  exists schemas c' s' path, part schemas (vl_value p) (pc_schema (vl_proof_input_claim p)) (claim_key p) c' s' path /\ stored_as c' s' path cl.

Lemma proved_states now request proof content pt proved : proved_by_submission now request proof content pt = Ok proved ->
  (pr_state (pm_row proof) = PsPending \/ pr_state (pm_row proof) = PsRequested) /\
  (forall query, vc_dcql_query content = Some query -> process_proof_submission_dcql_query now request proof content pt = Ok proved).
Proof.
  unfold proved_by_submission, throw_if_proof_state_not_in. intros ([] & Hst%fail_if_ok%negb_false_iff & Hrest)%res_bind_ok. split.
  - apply List.existsb_exists in Hst as (st & Hin%list_elem_of_In & Heq%bool_decide_eq_true). subst st. set_solver.
  - intros query Hq. rewrite Hq in Hrest. by destruct (vc_presentation_definition content).
Qed.

Lemma assembled_claim group pv cl : assembled group pv -> cl ∈ pv_claims pv -> exists p, p ∈ group /\ part_of p cl.
Proof.
  intros [_ (schemas & lists & -> & Hall)] (l & Hl & Hcl)%elem_of_concat. destruct (Forall2_elem_r' _ _ _ _ Hall Hl) as (p & Hp & Hst & _).
  exists p. split; [done|]. destruct (Hst cl Hcl) as (c' & s' & path & Hpart & Has). unfold part_of. eauto 10.
Qed.

Lemma assembled_value group pv p : assembled group pv -> p ∈ group -> exists cl, cl ∈ pv_claims pv /\
  stored_as (vl_value p) (pc_schema (vl_proof_input_claim p)) (claim_key p) cl.
Proof.
  intros [_ (schemas & lists & -> & Hall)] Hp. destruct (Forall2_elem_l _ _ _ _ Hall Hp) as (l & Hl & _ & Hst).
  destruct (Hst _ _ _ (PartSelf _ _ _ _)) as (cl & Hcl & Has). exists cl. split; [|done]. apply elem_of_concat. eauto.
Qed.

End soundness.

(** ** One response for a request *)

Section once.
Context {R : Type} `{UuidSupply} `{Randoms} `{SqlDialect} `{HashOrderLaws} `{VpProviders} `{VpWorld} `{ProofWorld}.
Implicit Types (s : VpDb R) (self : OID4VPService) (proof_schemas : Z -> option ProofSchema).

(** What can happen to proof requests: responses, for any instance of the
    service, with what others do in between; requests that are made, shared,
    retracted or deleted, claims that are deleted, expiry; and any change of the
    tables below. *)
Inductive vp_step s : VpDb R -> Prop :=
| VpRespond self proof_schemas interfere request : vp_concurrent interfere -> vp_step s (direct_post self proof_schemas interfere request s).2
| VpCreate row : vp_step s (create_proof_row row s).2
| VpShare proof_schemas session id params : vp_step s (share_proof proof_schemas session id params s).2
| VpDelete self proof_schemas session id : vp_step s (delete_proof self proof_schemas session id s).2
| VpDeleteClaims self proof_schemas session id : vp_step s (delete_proof_claims self proof_schemas session id s).2
| VpExpire : vp_step s (update_expired_proofs (E := VpServiceError) s).2
| VpBase b : vp_step s (mkVpDb b (proofs s) (claims s) (proof_claims s)).

Lemma vp_step_settled s s' : vp_step s s' -> settled s s'.
Proof.
  destruct 1 as [self schemas f request Hf| | | | | |].
  - eapply course_settled; [exact Hf|]. eapply direct_post_course, surjective_pairing.
  - apply create_settled.
  - apply share_settled.
  - apply delete_settled.
  - apply delete_claims_settled.
  - apply expire_settled.
  - by apply same_settled.
Qed.

Lemma vp_steps_settled s s' : rtc vp_step s s' -> settled s s'.
Proof. induction 1 as [|s1 s2 s3 H12 _ IH]; [reflexivity|]. etrans; [by apply vp_step_settled|done]. Qed.

(** The proof that a response is for. *)
Definition responds_to (request : DirectPostRequest) (id : Z) s : Prop :=
  exists unpacked row, unpack_direct_post_request request = Ok unpacked /\ addressed unpacked s = Some row /\ pr_id row = id.

Lemma find_updated id u now s s' row : find_proof id s = Some row -> proofs s' = update_in id u now <$> proofs s ->
  find_proof id s' = Some (apply_proof_update u now row).
Proof.
  intros Hrow Hp. unfold find_proof, find_first in *. rewrite Hp. clear Hp. induction (proofs s) as [|p ps IH]; [done|]. cbn in *.
  destruct (pr_id p =? id) eqn:Heq.
  - injection Hrow as ->. unfold update_in at 1 2. by rewrite Heq; cbn; rewrite Heq.
  - unfold update_in at 1 2. rewrite Heq. cbn. rewrite Heq. auto.
Qed.

(** A response was accepted: the request was open just before the transaction,
    and is accepted after it. *)
Lemma success_run self proof_schemas f request s uri s' : direct_post self proof_schemas f request s = (Ok uri, s') ->
  exists id s2 row row', responds_to request id s /\ same_proofs s s2 /\ find_proof id (f s2) = Some row /\ open_state (pr_state row) = true /\
    find_proof id s' = Some row' /\ pr_state row' = PsAccepted.
Proof.
  intros Hc%direct_post_course. inversion Hc as [r0 s0 Hr _|unpacked proof content organisation value blob s1 checked s2 r0 s0 Hu Hrc H1' _ H2' Hend]; subst; [done|].
  destruct checked as [[[creds cls] uri']|e|]; [|by destruct Hend..]. destruct Hend as [[[= <-] Ha]|[Hr _]]; [|done].
  destruct (ac_open _ _ _ _ _ _ _ Ha) as (row & Hrow & Hst). exists (pr_id (pm_row proof)), s2, row. eexists. split_and!; try done.
  - exists unpacked, (pm_row proof). split_and!; try done. apply Hrc.
  - apply drawing_same in H1', H2'. by etrans; [exact H1'|exact H2'].
  - eapply find_updated; [exact Hrow|apply Ha].
  - done.
Qed.

End once.

(** ** Responses one at a time *)

Section alone.
Context {R : Type} `{UuidSupply} `{Randoms} `{SqlDialect} `{HashOrderLaws} `{VpProviders} `{VpWorld} `{ProofWorld}.
Implicit Types (s : VpDb R) (self : OID4VPService) (proof_schemas : Z -> option ProofSchema).

(** The tables after a response was accepted: the request is accepted and has the
    response as its blob, the credentials and claims that it proves are added,
    and nothing else has changed. *)
Record response_accepted (id organisation blob : Z) (value : string) (creds : list ProvedCredential) (cls : list Claim) s s' : Prop := {
  ra_row : exists row, find_proof id s = Some row /\ open_state (pr_state row) = true /\
    find_proof id s' = Some (apply_proof_update (state_proof_update PsAccepted (Some blob)) (clock (store (base s))) row);
  ra_others : forall x, x <> id -> find_proof x s' = find_proof x s;
  ra_blobs : blobs (base s') = <[blob := value]> (blobs (base s));
  ra_credentials : exists new, credentials (store (base s')) = credentials (store (base s)) ++ new /\
    Forall2 (fun p c => credential_id c = pv_id p /\ exists cols, credential_from_proved organisation p = Ok (c, cols) /\
      columns (base s') !! pv_id p = Some cols) creds new;
  ra_claims : claims s' = claims s ++ concat ((fun p => (fun c => (pv_id p, c)) <$> pv_claims p) <$> creds);
  ra_proof_claims : proof_claims s' = proof_claims s ++ ((fun c => (claim_id c, id)) <$> cls);
  ra_interactions : interactions (base s') = interactions (base s)
}.

(** After a response was refused: nothing is stored but the response, and the
    request may be in an error. *)
Record response_refused (request : DirectPostRequest) (r : res VpServiceError (option string)) s s' : Prop := {
  rr_store : store (base s') = store (base s);
  rr_columns : columns (base s') = columns (base s);
  rr_interactions : interactions (base s') = interactions (base s);
  rr_claims : claims s' = claims s;
  rr_proof_claims : proof_claims s' = proof_claims s;
  rr_blobs : blobs (base s') = blobs (base s) \/ exists blob value, blobs (base s') = <[blob := value]> (blobs (base s));
  rr_proofs : proofs s' = proofs s \/ exists e id blob row, r = Err (VsOpenID4VC e) /\ responds_to request id s /\ find_proof id s = Some row /\
    find_proof id s' = Some (apply_proof_update (state_proof_update PsError (Some blob)) (clock (store (base s))) row) /\
    forall x, x <> id -> find_proof x s' = find_proof x s
}.

Lemma find_not_updated id u now x s s' : x <> id -> proofs s' = update_in id u now <$> proofs s -> find_proof x s' = find_proof x s.
Proof.
  intros Hx Hp. unfold find_proof, find_first in *. rewrite Hp. clear Hp. induction (proofs s) as [|p ps IH]; [done|]. cbn.
  unfold update_in at 1 2. destruct (Z.eqb_spec (pr_id p) id) as [Heq|Hne]; cbn; destruct (Z.eqb_spec (pr_id p) x); congruence.
Qed.

(** C11: a response, handled alone. When it is accepted, it was for the request of
    its interaction, it passed the check with the stored nonce, query and key,
    the request was open, and the tables have exactly what was proved. When it is
    refused, nothing is stored but the response itself, and at most the request
    is set to the error state. *)
Theorem direct_post_correct self proof_schemas request s r s' : direct_post self proof_schemas (fun s => s) request s = (r, s') ->
  match r with
  | Ok uri => exists unpacked proof content organisation value blob creds cls s1 s2,
      unpack_direct_post_request request = Ok unpacked /\ received proof_schemas unpacked proof content organisation value s /\
      clock (store (base s1)) = clock (store (base s)) /\
      validate_submission unpacked proof content OpenId4VpFinal1_0 s1 = (Ok (creds, cls, uri), s2) /\
      response_accepted (pr_id (pm_row proof)) organisation blob value creds cls s s'
  | _ => response_refused request r s s'
  end.
Proof.
  intros Hc%direct_post_course. destruct Hc as [r s' Hr [_ ->]|unpacked proof content organisation value blob s1 checked s2 r s' Hu Hrc [_ Hs1] Hv [_ Hs2] Hend].
  { destruct r; [done|split; try done; by left..]. }
  assert (Hrefused : forall r, response_refused request r s s2).
  { intros r'. rewrite Hs2, Hs1. split; try done; [right; by exists blob, value|by left]. }
  destruct checked as [[[creds cls] uri]|e|].
  - cbn in Hend. destruct Hend as [[-> Ha]|[Hr Hs']]; [|subst s'; destruct r; [done|apply Hrefused..]].
    exists unpacked, proof, content, organisation, value, blob, creds, cls. eexists _, s2. split; [done|]. split; [done|].
    split; [|split; [exact Hv|]]; [by rewrite Hs1|]. destruct (ac_open _ _ _ _ _ _ _ Ha) as (row & Hrow & Hst).
    destruct (ac_persisted _ _ _ _ _ _ _ Ha) as (s3 & Hp & Hb & Hcl). pose proof (ac_proofs _ _ _ _ _ _ _ Ha) as Hpr.
    assert (Hrow' : find_proof (pr_id (pm_row proof)) s = Some row) by (rewrite Hs2, Hs1 in Hrow; exact Hrow).
    assert (Hpr' : proofs s' = update_in (pr_id (pm_row proof)) (state_proof_update PsAccepted (Some blob)) (clock (store (base s))) <$> proofs s)
      by (rewrite Hpr, Hs2, Hs1; done).
    split.
    + exists row. split_and!; try done. by eapply find_updated.
    + intros x Hx. by eapply find_not_updated.
    + by rewrite Hb, (pd_blobs _ _ _ _ Hp), Hs2, Hs1.
    + destruct (pd_credentials _ _ _ _ Hp) as (new & Hnew & Hall). exists new. rewrite Hb, Hnew, Hs2, Hs1. done.
    + by rewrite Hcl, (pd_claims _ _ _ _ Hp), Hs2, Hs1.
    + destruct cls as [|cl cls]; [rewrite (ac_no_claims _ _ _ _ _ _ _ Ha), app_nil_r by done|rewrite (ac_proof_claims _ _ _ _ _ _ _ Ha) by done];
        by rewrite Hs2, Hs1.
    + by rewrite Hb, (pd_interactions _ _ _ _ Hp), Hs2, Hs1.
  - destruct Hend as [-> ->]. unfold marked_failed. destruct (find_proof _ s2) as [row|] eqn:Hrow; [|apply Hrefused].
    rewrite Hs2, Hs1 in *. split; try done; [right; by exists blob, value|].
    right. exists e, (pr_id (pm_row proof)), blob, row. split_and!; try done.
    + exists unpacked, (pm_row proof). split_and!; try done. apply Hrc.
    + by eapply (find_updated _ _ _ s).
    + intros x Hx. by eapply (find_not_updated _ _ _ _ s).
  - destruct Hend as [-> ->]. apply Hrefused.
Qed.
End alone.

(** ** Responses that are looked at *)

Section looked_at.
Context {R : Type} `{UuidSupply} `{Randoms} `{SqlDialect} `{HashOrderLaws} `{VpProviders} `{VpWorld}.
Implicit Types (s : VpDb R) (self : OID4VPService) (proof_schemas : Z -> option ProofSchema).

(** The service can look at the response: the protocol is configured, the request
    is found with what is stored for it, and the response can be stored. *)
Record readable self proof_schemas (request : DirectPostRequest) (unpacked : SubmissionRequestData) (proof : ProofModel)
  (content : VerifierInteractionContent) (organisation : Z) (value : string) s : Prop := {
  rd_config : validate_verification_protocol_config_exists self [OpenId4VpFinal1_0] = Ok tt;
  rd_storage : vs_db_blob_storage self = true;
  rd_unpacked : unpack_direct_post_request request = Ok unpacked;
  rd_received : received proof_schemas unpacked proof content organisation value s;
  rd_blob : blobs (base s) !! uuid_at (supply_of s) = None
}.

(** The tables when the response is checked. *)
Definition at_check (value : string) s : VpDb R := add_blob (uuid_at (supply_of s)) value (with_supply (S (supply_of s)) s).

Lemma addressed_found unpacked row s : addressed unpacked s = Some row -> is_Some (find_proof (pr_id row) s).
Proof.
  intros [Hin _]%find_first_Some. destruct (find_first_exists (fun p => pr_id p =? pr_id row) (proofs s) row Hin) as (y & Hy & _).
  - apply Z.eqb_refl.
  - by exists y.
Qed.

(** C18: a response for a request that is not open is refused, and it sets the
    request to the error state, also when the request was accepted before. *)
Theorem replay_discards_proof self proof_schemas request unpacked proof content organisation value s :
  readable self proof_schemas request unpacked proof content organisation value s -> open_state (pr_state (pm_row proof)) = false ->
  exists s' row, direct_post self proof_schemas (fun s => s) request s = (Err (VsOpenID4VC (VpValidation "Invalid proof state")), s') /\
    find_proof (pr_id (pm_row proof)) s' = Some row /\ pr_state row = PsError.
Proof.
  intros [Hconf Hdb Hu Hrc Hb] Hst. rewrite (received_runs self proof_schemas _ request unpacked proof content organisation value s) by done.
  assert (Hv : validate_submission unpacked proof content OpenId4VpFinal1_0 (at_check value s) = (Err (VpValidation "Invalid proof state"), at_check value s)).
  { unfold validate_submission, proved_by_submission. run_M. unfold vp_now, on_base, now_utc.
    assert (throw_if_proof_state_not_in (VpValidation "Invalid proof state") (pm_row proof) [PsPending; PsRequested] = Err (VpValidation "Invalid proof state")) as ->
      by (unfold throw_if_proof_state_not_in; destruct (pr_state (pm_row proof)); done). done. }
  destruct (addressed_found _ _ _ (rc_row _ _ _ _ _ _ _ Hrc)) as [row Hrow]. eexists _, _. split.
  - unfold conclude, attempt, vp_others. run_M. fold (at_check value s). rewrite Hv, mark_run. reflexivity.
  - unfold marked_failed. change (find_proof (pr_id (pm_row proof)) (at_check value s)) with (find_proof (pr_id (pm_row proof)) s). rewrite Hrow.
    split; [by eapply (find_updated _ _ _ s)|done].
Qed.

(** Ids in use were drawn before. *)
Definition vp_undrawn s (id : Z) : Prop := exists k, (supply_of s <= k)%nat /\ id = uuid_at k.
Record vp_ids_drawn s : Prop := {
  dr_credentials : forall c, c ∈ credentials (store (base s)) -> ~ vp_undrawn s (credential_id c);
  dr_claims : forall e, e ∈ claims s -> ~ vp_undrawn s (claim_id (snd e));
  dr_proof_claims : forall e, e ∈ proof_claims s -> ~ vp_undrawn s (fst e)
}.

Lemma fresh_unused n n' ids s : (forall j k, uuid_at j = uuid_at k -> j = k) -> vp_ids_drawn s -> (supply_of s <= n)%nat -> fresh_ids n n' ids ->
  unused ids s /\ forall id x, id ∈ ids -> (id, x) ∉ proof_claims s.
Proof.
  intros Hinj [Hc Hcl Hpc] Hn (ks & -> & Hnd & Hks).
  assert (Hun : forall id, id ∈ uuid_at <$> ks -> vp_undrawn s id).
  { intros id (k & -> & Hk)%list_elem_of_fmap. exists k. split; [|done]. specialize (Hks k Hk). lia. }
  split; [split|].
  - apply NoDup_fmap_2_strong; [|done]. intros x y _ _. apply Hinj.
  - intros id Hid%Hun. split.
    + destruct (find_credential id (store (base s))) as [c|] eqn:Hf; [|done]. apply find_credential_Some in Hf as [Hin <-]. by destruct (Hc c Hin).
    + apply not_true_iff_false. intros (e & Hin%list_elem_of_In & He%Z.eqb_eq)%List.existsb_exists. subst id. by destruct (Hcl e Hin).
  - intros id x Hid%Hun Hin. by destruct (Hpc _ Hin).
Qed.

(** C12: a response that passes the check is accepted: when the request is open,
    the issuers and holders of its credentials can be stored, and UUIDs do not
    repeat those in use, the call returns the redirect URI of the request, and
    nothing that is needed for it can fail later. *)
Theorem checked_response_accepted self proof_schemas request unpacked proof content organisation value s creds cls uri s2 :
  (forall j k, uuid_at j = uuid_at k -> j = k) -> vp_ids_drawn s ->
  readable self proof_schemas request unpacked proof content organisation value s -> find_proof (pr_id (pm_row proof)) s = Some (pm_row proof) ->
  validate_submission unpacked proof content OpenId4VpFinal1_0 (at_check value s) = (Ok (creds, cls, uri), s2) ->
  (forall p, p ∈ creds -> storable organisation p) -> (cls = [] -> insert_none = Ok tt) ->
  exists s', direct_post self proof_schemas (fun s => s) request s = (Ok uri, s') /\ uri = pr_redirect_uri (pm_row proof).
Proof.
  intros Hinj Hdr [Hconf Hdb Hu Hrc Hb] Hfind Hv Hstore Hnone. rewrite (received_runs self proof_schemas _ request unpacked proof content organisation value s) by done.
  pose proof (run_preserves _ _ _ _ _ (validate_submission_drawing unpacked proof content _) Hv) as [_ Hs2].
  pose proof Hv as Hrun. unfold validate_submission in Hrun. apply bind_run in Hrun as (now & s0 & [= _ Hnow] & Hrun).
  apply bind_run in Hrun as (proved & s1 & [[Hopen _]%proved_states ->]%lift_run & Hrun). apply bind_run in Hrun as ([creds' cls'] & s3 & Hp & [= <- <- <- <-]).
  apply validate_proof_ok in Hp as (schema & _ & _ & Hcls & _ & _ & Hfresh).
  assert (Hn : (supply_of s <= supply_of s0)%nat) by (rewrite <-Hnow; unfold supply_of; cbn; lia).
  destruct (fresh_unused _ _ _ s Hinj Hdr Hn Hfresh) as [Hun Hpc].
  rewrite Hcls in *. destruct (persist_ok (pr_id (pm_row proof)) creds' organisation (uuid_at (supply_of s)) s3 (pm_row proof)) as (s' & Hs').
  - by rewrite Hs2.
  - by destruct Hopen as [-> | ->].
  - done.
  - destruct Hun as [Hnd Hun]. split; [done|]. intros id Hid. rewrite Hs2. by apply Hun.
  - intros c Hc x Hin. rewrite Hs2 in Hin. apply (Hpc c x); [|exact Hin]. rewrite concat_fmap_concat, <-list_fmap_compose in Hc.
    apply elem_of_concat in Hc as (l & Hl & Hcl). apply list_elem_of_fmap in Hl as (p & -> & Hin'). apply elem_of_concat.
    exists (credential_ids_of p). split; [by apply list_elem_of_fmap_2|by right].
  - done.
  - exists s'. split; [|done]. unfold conclude, attempt, vp_others. run_M. fold (at_check value s). rewrite Hv, Hs'. done.
Qed.
End looked_at.

(** ** From a request to its response *)

Section requests.
Context {R : Type} `{UuidSupply} `{Randoms} `{SqlDialect} `{HashOrderLaws} `{VpProviders} `{VpWorld} `{ProofWorld}.
Implicit Types (s : VpDb R) (proof_schemas : Z -> option ProofSchema).

Lemma query_of_input_id input q : query_of_input input = Ok q ->
  exists schema, pi_credential_schema input = Some schema /\ query_id q = uuid_to_string (rs_id schema).
Proof.
  unfold query_of_input. intros (schema & Hs%ok_or_ok & Hrest)%res_bind_ok. exists schema. split; [done|].
  apply res_bind_ok in Hrest as (cs & _ & Hrest). apply res_bind_ok in Hrest as (fm & _ & Hrest). by apply res_bind_ok in Hrest as (ft & _ & [= <-]).
Qed.

(** With one input per credential schema, the query made of an input leads back
    to it. *)
Lemma query_finds_input inputs input q : (forall a b, uuid_to_string a = uuid_to_string b -> a = b) ->
  NoDup ((fun i => rs_id <$> pi_credential_schema i) <$> inputs) -> input ∈ inputs -> query_of_input input = Ok q -> input_of_query inputs q = Some input.
Proof.
  intros Hinj Hnd Hin (schema & Hs & Hq)%query_of_input_id. unfold input_of_query.
  induction inputs as [|x inputs IH]; [by apply elem_of_nil in Hin|]. rewrite fmap_cons, NoDup_cons in Hnd. destruct Hnd as [Hnew Hnd].
  rewrite find_first_cons. apply elem_of_cons in Hin as [->|Hin]; [by rewrite Hs, Hq, String.eqb_refl|].
  rewrite IH by done. destruct (pi_credential_schema x) as [t|] eqn:Ht; [|done]. destruct (String.eqb_spec (uuid_to_string (rs_id t)) (query_id q)) as [Heq|]; [|done].
  rewrite Hq in Heq. apply Hinj in Heq. destruct Hnew. apply list_elem_of_fmap. exists input. split; [|done]. cbn. rewrite Hs. cbn. by rewrite Heq.
Qed.

Lemma addressed_updated id u now new s s' row unpacked : find_proof id s = Some row -> (forall p, p ∈ proofs s -> pr_interaction_id p <> Some new) ->
  up_interaction u = Some (Some new) -> proofs s' = update_in id u now <$> proofs s -> sr_state unpacked = new ->
  addressed unpacked s' = Some (apply_proof_update u now row).
Proof.
  intros Hrow Hnew Hu Hp Hst. unfold addressed, find_proof in *. rewrite Hp, Hst. clear Hp. induction (proofs s) as [|p ps IH]; [done|].
  rewrite fmap_cons. rewrite find_first_cons in *.
  assert (Hg : update_in id u now p = if pr_id p =? id then apply_proof_update u now p else p) by done. rewrite !Hg. destruct (pr_id p =? id).
  - injection Hrow as ->. rewrite bool_decide_eq_true_2; [done|]. cbn. by rewrite Hu.
  - rewrite bool_decide_eq_false_2 by (apply Hnew; left). apply IH; [done|]. intros p' Hp'. apply Hnew. by right.
Qed.


(** C19: when all the claims that are asked of a credential are optional, no
    response is accepted: the query that is made of the input has an empty claim
    set, and the check on claim sets refuses what it should accept. *)
Theorem optional_claims_refused now input q holder token claims : query_of_input input = Ok q -> pi_claim_schemas input = Some claims ->
  claims <> [] -> (forall c, c ∈ claims -> pc_required c = false) -> is_ok (validate_token now q input holder token) = false.
Proof.
  intros Hq Hc Hne Hopt. assert (Hsets : exists l, query_claim_sets q = Some [l; []]).
  { unfold query_of_input in Hq. apply res_bind_ok in Hq as (schema & _ & Hq). apply res_bind_ok in Hq as (cs & Hcs%ok_or_ok & Hq).
    assert (cs = claims) as -> by congruence. apply res_bind_ok in Hq as (fm & _ & Hq). apply res_bind_ok in Hq as (ft & _ & [= <-]).
    cbn. unfold build_claim_sets. assert (List.filter pc_required claims = []) as ->.
    { clear -Hopt. induction claims as [|c cs IH]; [done|]. cbn. rewrite Hopt by left. apply IH. intros; apply Hopt. by right. }
    destruct claims as [|c cs]; [done|]. cbn. rewrite Hopt by left. cbn. eauto. }
  destruct Hsets as (l & Hl). unfold validate_token. destruct (validate_credential _ _ _ _ _) as [cm|e|]; [|done..]. cbn.
  destruct (validate_claims _ _ _) as [proved|e|]; [|done..]. cbn. unfold claim_set_check. rewrite Hl. cbn. by rewrite orb_true_r.
Qed.
End requests.

(** ** Client ids *)

Lemma split_once_Some (c : ascii) (s p q : string) : split_once c s = Some (p, q) -> s = (p ++ String c q)%string.
Proof.
  revert p q. induction s as [|a s IH]; intros p q; cbn; [done|]. destruct (Ascii.eqb_spec a c) as [->|]; [by intros [= <- <-]|].
  destruct (split_once c s) as [[p' q']|]; [|done]. intros [= <- <-]. cbn. by rewrite (IH _ _ eq_refl).
Qed.

(** The client ids of version 1.0: what is read as a scheme and an id is
    exactly what is written for them, so that no two pairs share a client id and
    the prefix [did] is not accepted. *)
Lemma client_id_roundtrip client_id id scheme :
  decode_client_id_with_scheme client_id = Ok (id, scheme) <-> client_id = encode_client_id_with_scheme id scheme.
Proof.
  split.
  - unfold decode_client_id_with_scheme. intros ([p q] & Hs%ok_or_ok%split_once_Some & Hrest)%res_bind_ok. cbn [fst snd] in Hrest. subst client_id.
    apply res_bind_ok in Hrest as ([] & Hd%fail_if_ok & Hrest). destruct (String.eqb_spec p "decentralized_identifier") as [->|Hne]; [by injection Hrest as <- <-|].
    apply res_bind_ok in Hrest as (sch & Hsch%ok_or_ok & [= <- <-]). apply find_first_Some in Hsch as [_ <-%String.eqb_eq]. by destruct sch.
  - intros ->. by destruct scheme.
Qed.
