(* ===== verification/VpStatus.v ===== *)
(** * From the issuer's status list to the verifier

    The state that an issuer sets with a token status list decides what a verifier
    makes of a presented credential: the credential service, the token method and
    the check of a response, put together. *)

From S2P Require Import Prelude StatusBits KeySelection RevocationRepo RevocationMethod BitstringMethod TokenMethod ListFilter Validity StatusMethods.
From S2P Require Import Dcql VciStore VciService VpStore VpValidator VpService VpProofs VpSpec.
From Stdlib Require Import Ascii String.
#[local] Open Scope Z_scope.

Section end_to_end.
Context `{UuidSupply} `{!UuidLaws} `{SP : StatusProviders} `{X509}.
Context `{BV : BitVec V} `{!BitVecLaws V} `{SC : StatusCodec} `{!StatusCodecLaws}.
Context `{!StatusListReader} `{TR : TokenListReader} `{!TokenListReaderLaws} `{VP : VpProviders}.
Context (configured : string -> option StatusMethod).

#[local] Instance service_methods : RevocationMethodProvider Db := status_methods (V := V) configured.

(** The status of the credential is checked with the token method. *)
Definition checks_tokens (status : CredentialStatus) : Prop :=
  revocation_check_by_status_type (cst_type status) = Some (token_check_credential_revocation_status (V := V)).

Lemma refused_status now holder token input authorities formatter schema c status e :
  pi_credential_schema input = Some schema -> credential_formatter (rs_format schema) = Some formatter ->
  vf_extract_credentials formatter token (Some schema) = inr c -> status ∈ xc_status c -> check_status (xc_issuer c) status = Err e ->
  is_ok (validate_credential now holder token input authorities) = false.
Proof.
  intros Hs Hf Hx Hin He. destruct (validate_credential now holder token input authorities) as [[c' mso]|e'|] eqn:Hv; [|done..]. exfalso.
  destruct (validate_credential_ok _ _ _ _ _ _ _ Hv) as (schema' & Hs' & Hg). assert (schema' = schema) as -> by congruence.
  destruct (ge_read _ _ _ _ _ _ Hg) as (formatter' & Hf' & Hx' & _). assert (formatter' = formatter) as -> by congruence.
  assert (c' = c) as -> by congruence. destruct (ge_status _ _ _ _ _ _ Hg status Hin) as (check & Hc & Hok). unfold check_status in He.
  rewrite Hc in He. cbn in He. by rewrite Hok in He.
Qed.

End end_to_end.

(** ** A credential that was suspended *)

Module VerifierWitness.
Import RepoWitness Concrete TokenWitness.

Definition presented : PresentedCredential :=
  mkPresented None None None (IdDid "did:key:issuer") (Some (IdDid "did:key:holder")) [] [status_0].
Definition requested : RequestedSchema := mkRequestedSchema ServiceWitness.schema "vct" "name" (Some []).
Definition input : ProofInputSchema := mkProofInput (Some []) (Some requested).
Definition formatter : CredentialFormatterOps := mkCredentialFormatter (fun _ _ => inr presented) 60 [] [].

Definition providers_with (check : CredentialStatus -> IdentifierDetails -> bool -> res RevocationError RevocationState) : VpProviders := {|
  presentation_formatter_by_type _ := None;
  presentation_formatter _ := None;
  credential_formatter _ := Some formatter;
  detect_sdjwt_type_is_vc _ := None;
  get_crypto_suite _ := None;
  revocation_check_by_status_type _ := Some check;
  resolve_did _ := None;
  did_method _ := "key"%string;
  did_type_from_str _ := None;
  get_akis_for_pem_chain _ := None;
  extract_mso _ := None;
  json_string_list _ := None
|}.
Definition verifier : VpProviders :=
  providers_with (@token_check_credential_revocation_status vec vec_BitVec codec ServiceWitness.token_reader).

End VerifierWitness.
