(* ===== verification/VpExample.v ===== *)
(** * OpenID4VP: an example

    A verifier that asks for a name and an address: the request is shared, a
    holder presents a credential, and the response is sent again. The runs are
    those that the witnesses are about. *)

From S2P Require Import Prelude Paths StatusBits KeySelection RevocationRepo RevocationMethod TokenMethod ListFilter Validity.
From S2P Require Import SdValue Dcql SdExample VciStore VciService VciSpec VciExample VpStore VpValidator VpService VpProofs VpSpec VpLife VpTheorems.
From stdpp Require Import countable.
From Stdlib Require Import Ascii String.
#[local] Open Scope Z_scope.
#[local] Notation length := Datatypes.length.
#[local] Notation concat := List.concat.

(** ** The request *)

Definition vy_name : ClaimSchema := mkClaimSchema 51 "name" "STRING" false false true.
Definition vy_address : ClaimSchema := mkClaimSchema 52 "address" "OBJECT" false false true.
Definition vy_city : ClaimSchema := mkClaimSchema 53 "address/city" "STRING" false false true.
Definition vy_schema : RequestedSchema :=
  mkRequestedSchema (mkCredentialSchema 5 false None (Some 3) "SD_JWT_VC") "https://vct" "person" (Some [vy_name; vy_address; vy_city]).
Definition vy_input : ProofInputSchema := mkProofInput (Some [mkProofInputClaim vy_name true 0; mkProofInputClaim vy_address true 1]) (Some vy_schema).
Definition vy_proof_schema : ProofSchema := mkProofSchema 6 None (Some 3) (Some [vy_input]).
Definition vy_proof_schemas (id : Z) : option ProofSchema := if id =? 6 then Some vy_proof_schema else None.

Definition vy_row : ProofRow :=
  mkProofRow 1 0 "OPENID4VP_FINAL1" "HTTP" (Some "https://done"%string) PsCreated PrVerifier None None None None None None (Some 6) None.
Definition vy_start : VpDb unit := mkVpDb (mkVciDb (mkStore [] tt (nanos 1000)) ∅ ∅ ∅ [] 100) [vy_row] [] [].
Definition vy_service : OID4VPService := mkVpService [("OPENID4VP_FINAL1"%string, OpenId4VpFinal1_0)] true.

(** ** Instances *)

Definition vy_holder : IdentifierDetails := IdDid "did:key:h".
Definition vy_leaf (v : CredentialClaimValue) : CredentialClaim := mkCredentialClaim true false v.
Definition vy_credential : PresentedCredential :=
  mkPresented (Some (nanos 900)) None (Some (nanos 2000)) (IdDid "did:web:issuer") (Some vy_holder)
    [("name"%string, vy_leaf (CString "Ada")); ("address"%string, vy_leaf (CObject [("city"%string, vy_leaf (CString "Zug"))]))]
    [mkCredentialStatus (Some "urn:entry"%string) "list" None ∅].

(** A presentation is the nonce it was made for; it has one credential. *)
#[export] Instance vy_providers : VpProviders := {|
  presentation_formatter_by_type f := match f with FtSdJwtVc => Some "SD_JWT_VC"%string | _ => None end;
  presentation_formatter name := Some (mkPresentationFormatter (fun token _ =>
    inr (mkPresentation (Some (nanos 999)) (Some (nanos 1100)) (Some vy_holder) (Some token) ["credential"%string])) 60);
  credential_formatter name := Some (mkCredentialFormatter (fun token _ =>
    if String.eqb token "credential" then inr vy_credential else inl NotExtractable) 60 [DidTypeKey] []);
  detect_sdjwt_type_is_vc _ := Some true;
  get_crypto_suite _ := None;
  revocation_check_by_status_type type := if String.eqb type "list" then Some (fun _ _ _ => Ok Valid) else None;
  resolve_did _ := None;
  did_method _ := "key"%string;
  did_type_from_str _ := Some DidTypeKey;
  get_akis_for_pem_chain _ := None;
  extract_mso _ := None;
  json_string_list _ := None
|}.
#[export] Instance vy_dialect : SqlDialect := { insert_none := Ok tt }.

#[export] Instance vy_claim_value_eq_dec : EqDecision ClaimValue.
Proof. solve_decision. Defined.
#[export] Instance vy_segment_eq_dec : EqDecision PathSegment.
Proof. solve_decision. Defined.
#[export] Instance vy_claim_query_eq_dec : EqDecision ClaimQuery.
Proof. solve_decision. Defined.
#[export] Instance vy_meta_eq_dec : EqDecision CredentialMeta.
Proof. solve_decision. Defined.
#[export] Instance vy_authority_eq_dec : EqDecision TrustedAuthority.
Proof. solve_decision. Defined.
#[export] Instance vy_query_eq_dec : EqDecision CredentialQuery.
Proof. solve_decision. Defined.
#[export] Instance vy_set_eq_dec : EqDecision CredentialSet.
Proof. solve_decision. Defined.
#[export] Instance vy_dcql_eq_dec : EqDecision DcqlQuery.
Proof. solve_decision. Defined.
#[export] Instance vy_field_eq_dec : EqDecision ConstraintField.
Proof. solve_decision. Defined.
#[export] Instance vy_descriptor_eq_dec : EqDecision InputDescriptor.
Proof. solve_decision. Defined.
#[export] Instance vy_definition_eq_dec : EqDecision PresentationDefinition.
Proof. solve_decision. Defined.
#[export] Instance vy_content_eq_dec : EqDecision VerifierInteractionContent.
Proof. solve_decision. Defined.

(** This verifier stores one kind of content, by its nonce. *)
Definition vy_path (id : Z) (key : string) : ClaimQuery := mkClaimQuery (Some (text id)) [PropertyName key] None (Some true).
Definition vy_query : DcqlQuery :=
  mkDcqlQuery [mkCredentialQuery (text 5) SdJwt (MetaSdJwtVc ["https://vct"%string]) (Some [vy_path 51 "name"; vy_path 52 "address"]) None None false true] None.
Definition vy_content (nonce : string) : VerifierInteractionContent := mkContent nonce None (Some vy_query)
  "redirect_uri:https://verifier/ssi/openid4vp/final-1.0/response" (Some "https://verifier/ssi/openid4vp/final-1.0/response"%string) None.

#[export] Instance vy_world : VpWorld := {|
  vp_uuid_from_str := untext;
  content_from_slice v := Some (vy_content v);
  content_to_vec c := if decide (c = vy_content (vc_nonce c)) then Some (vc_nonce c) else None;
  submission_to_string _ := Some "response"%string;
  get_or_create_remote_identifier _ details role := Some (mkIdentifier (match role with RoleIssuer => 8 | RoleHolder => 9 end) TypeDid true None None None, None);
  encode_mso := Some;
  extract_jwe_header _ := None;
  jwe_private_key _ := Err VsValidationError;
  decrypt_jwe_payload _ _ := None;
  jwe_payload_from_json _ := None
|}.
#[export] Instance vy_proof_world : ProofWorld := {|
  format_type_of _ := Some FtSdJwtVc;
  pascal_case name := name;
  base_url := Some "https://verifier"%string;
  supported_client_id_schemes := [SchemeRedirectUri; SchemeDid];
  interaction_expires_in := Some (nanos 300);
  verifier_identifier _ := Some (mkIdentifier 7 TypeDid false (Some (mkDid 4 "did:web:verifier" false (Some []))) None None);
  verifier_certificate _ := None;
  verifier_key _ := Some (mkKey 5 "EDDSA" None);
  url_parses _ := true;
  url_domain _ := None;
  fingerprint_base64 _ := None;
  encryption_jwk _ := Some None;
  authorization_request_made _ _ _ := true;
  verification_protocol_found _ := true;
  retract _ := Some tt
|}.

(** ** The runs *)

Definition no_share : VpShareResponse := mkVpShare 0 EmptyString None.
Definition vy_share := Eval vm_compute in share_proof vy_proof_schemas None 1 None vy_start.
Definition vy_shared : VpDb unit := snd vy_share.
Definition vy_interaction : Z := vh_interaction_id (run_ok no_share vy_share).
Definition vy_nonce : string := Eval vm_compute in alphanumeric_at 101 32.
Definition vy_token : gmap string (list string) := <[text 5 := [vy_nonce]]> ∅.
Definition vy_request : DirectPostRequest := mkDirectPost (SubDcql vy_token) (Some vy_interaction).
Definition vy_unpacked : SubmissionRequestData := mkSubmissionRequest (SubDcql vy_token) vy_interaction None None.
Definition vy_answer := Eval vm_compute in direct_post vy_service vy_proof_schemas (fun s => s) vy_request vy_shared.
Definition vy_answered : VpDb unit := snd vy_answer.
Definition vy_replay := Eval vm_compute in direct_post vy_service vy_proof_schemas (fun s => s) vy_request vy_answered.

Lemma vy_share_run : share_proof vy_proof_schemas None 1 None vy_start = (Ok (run_ok no_share vy_share), vy_shared).
Proof. vm_cast_no_check (eq_refl vy_share). Qed.
Lemma vy_answer_run : direct_post vy_service vy_proof_schemas (fun s => s) vy_request vy_shared = (Ok (Some "https://done"%string), vy_answered).
Proof. vm_cast_no_check (eq_refl vy_answer). Qed.

(** What is stored: the credential, its three claims with their paths, and the
    claims of the proof. *)
Example vy_stored : pr_state <$> proofs vy_answered = [PsAccepted] /\
  (fun e => (fst e, claim_path (snd e), Dcql.claim_value (snd e))) <$> claims vy_answered =
    [(103, "name", Some "Ada"); (103, "address", None); (103, "address/city", Some "Zug")]%string /\
  proof_claims vy_answered = [(104, 1); (105, 1); (106, 1)] /\
  ic_holder_identifier_id <$> columns (base vy_answered) !! 103 = Some (Some 9).
Proof. vm_compute. repeat split. Qed.

(** ** Laws *)

Lemma vy_content_reads c v : content_to_vec c = Some v -> content_from_slice v = Some c.
Proof. cbn. destruct (decide (c = vy_content (vc_nonce c))) as [Heq|]; [|done]. intros [= <-]. by rewrite <-Heq. Qed.
Lemma vy_text_inj (a b : Z) : uuid_to_string a = uuid_to_string b -> a = b.
Proof. change (text a = text b -> a = b). intros Hab. apply (f_equal (untext (A := Z))) in Hab. rewrite !untext_text in Hab. by injection Hab. Qed.
Lemma vy_uuid_inj (j k : nat) : uuid_at j = uuid_at k -> j = k.
Proof. cbn. lia. Qed.
Lemma vy_concurrent : vp_concurrent (fun s : VpDb unit => s).
Proof. intros s. reflexivity. Qed.

(** ** Witnesses *)

Definition vy_open : ProofRow := default vy_row (head (proofs vy_shared)).
Definition vy_stored_interaction : Interaction := default (mkInteraction 0 None 0 None Verification None) (interactions (base vy_shared) !! vy_interaction).
Definition vy_proof (row : ProofRow) : ProofModel := mkProofModel row (Some vy_proof_schema) (Some (vy_interaction, vy_stored_interaction)).

Lemma vy_readable : readable vy_service vy_proof_schemas vy_request vy_unpacked (vy_proof vy_open) (vy_content vy_nonce) 3 "response" vy_shared.
Proof.
  split; try (vm_compute; reflexivity). split; try (vm_compute; reflexivity).
  - exists 6, vy_proof_schema. repeat split; vm_compute; reflexivity.
  - exists vy_stored_interaction, vy_nonce. repeat split; vm_compute; reflexivity.
Qed.

Definition vy_checked := Eval vm_compute in validate_submission vy_unpacked (vy_proof vy_open) (vy_content vy_nonce) OpenId4VpFinal1_0 (at_check "response" vy_shared).
Definition vy_creds : list ProvedCredential := fst (fst (run_ok ([], [], None) vy_checked)).
Definition vy_cls : list Claim := snd (fst (run_ok ([], [], None) vy_checked)).
Lemma vy_checked_run : validate_submission vy_unpacked (vy_proof vy_open) (vy_content vy_nonce) OpenId4VpFinal1_0 (at_check "response" vy_shared) =
  (Ok (vy_creds, vy_cls, Some "https://done"%string), snd vy_checked).
Proof. vm_cast_no_check (eq_refl vy_checked). Qed.


Lemma vy_addressed : responds_to vy_request 1 vy_shared.
Proof. exists vy_unpacked, vy_open. repeat split; vm_compute; reflexivity. Qed.
Lemma vy_addressed_again : responds_to vy_request 1 vy_answered.
Proof. exists vy_unpacked, (default vy_row (head (proofs vy_answered))). repeat split; vm_compute; reflexivity. Qed.


Lemma direct_post_correct_witness : exists organisation blob creds cls,
  response_accepted 1 organisation blob "response" creds cls vy_shared vy_answered.
Proof.
  destruct (direct_post_correct vy_service vy_proof_schemas vy_request vy_shared _ _ vy_answer_run)
    as (unpacked & proof & content & organisation & value & blob & creds & cls & s1 & s2 & [= <-] & Hrc & _ & _ & Ha).
  assert (Some vy_open = Some (pm_row proof)) as [= Hrow] by exact (rc_row _ _ _ _ _ _ _ Hrc).
  assert (Some "response"%string = Some value) as [= <-] by exact (rc_value _ _ _ _ _ _ _ Hrc).
  rewrite <-Hrow in Ha. exact (ex_intro _ organisation (ex_intro _ blob (ex_intro _ creds (ex_intro _ cls Ha)))).
Defined.

Definition vy_done : ProofRow := default vy_row (head (proofs vy_answered)).
Lemma vy_readable_again : readable vy_service vy_proof_schemas vy_request vy_unpacked (vy_proof vy_done) (vy_content vy_nonce) 3 "response" vy_answered.
Proof.
  split; try (vm_compute; reflexivity). split; try (vm_compute; reflexivity).
  - exists 6, vy_proof_schema. repeat split; vm_compute; reflexivity.
  - exists vy_stored_interaction, vy_nonce. repeat split; vm_compute; reflexivity.
Qed.

Lemma replay_discards_proof_witness : pr_state vy_done = PsAccepted /\ exists s' row,
  direct_post vy_service vy_proof_schemas (fun s => s) vy_request vy_answered = (Err (VsOpenID4VC (VpValidation "Invalid proof state")), s') /\
  find_proof 1 s' = Some row /\ pr_state row = PsError.
Proof.
  split; [reflexivity|]. exact (replay_discards_proof vy_service vy_proof_schemas vy_request vy_unpacked (vy_proof vy_done) (vy_content vy_nonce) 3 "response"
    vy_answered vy_readable_again eq_refl).
Defined.

Lemma vy_drawn : vp_ids_drawn vy_shared.
Proof. split; intros e He; by apply elem_of_nil in He. Qed.
Lemma vy_storable p : p ∈ vy_creds -> storable 3 p.
Proof. intros _. repeat split; [by eexists..|]. intros mso _. by eexists. Qed.

Lemma vy_insert : vy_cls = [] -> insert_none = Ok tt.
Proof. done. Qed.

Lemma checked_response_accepted_witness : exists s',
  direct_post vy_service vy_proof_schemas (fun s => s) vy_request vy_shared = (Ok (Some "https://done"%string), s').
Proof.
  destruct (checked_response_accepted vy_service vy_proof_schemas vy_request vy_unpacked (vy_proof vy_open) (vy_content vy_nonce) 3 "response" vy_shared
    vy_creds vy_cls (Some "https://done"%string) (snd vy_checked) vy_uuid_inj vy_drawn vy_readable eq_refl vy_checked_run vy_storable vy_insert)
    as (s' & Hs' & _). exact (ex_intro _ s' Hs').
Defined.

Lemma vy_unused_interaction p : p ∈ proofs vy_start -> pr_interaction_id p <> Some (uuid_at (supply_of vy_start)).
Proof. by intros ->%list_elem_of_singleton. Qed.


(** An input with one optional claim. *)
Definition vy_optional : ProofInputSchema := mkProofInput (Some [mkProofInputClaim vy_name false 0]) (Some vy_schema).
Definition vy_optional_query : CredentialQuery :=
  mkCredentialQuery (text 5) SdJwt (MetaSdJwtVc ["https://vct"%string]) (Some [mkClaimQuery (Some (text 51)) [PropertyName "name"] None (Some false)])
    (Some [[text 51]; []]) None false true.
Lemma optional_claims_refused_witness : is_ok (validate_token (nanos 1000) vy_optional_query vy_optional (Some vy_holder) "credential") = false.
Proof.
  apply (optional_claims_refused (nanos 1000) vy_optional vy_optional_query (Some vy_holder) "credential" [mkProofInputClaim vy_name false 0]).
  - reflexivity.
  - reflexivity.
  - done.
  - intros c ->%list_elem_of_singleton. reflexivity.
Defined.

(** The same credential is accepted when no claim set is asked for. *)
Example vy_without_sets : exists proved,
  validate_token (nanos 1000) (mkCredentialQuery (text 5) SdJwt (MetaSdJwtVc []) None None None false true) vy_optional (Some vy_holder) "credential" = Ok proved.
Proof. eexists. vm_compute. reflexivity. Qed.

(** A path of a received descriptor map with its last brackets the wrong way
    round makes the verifier panic. *)
Example token_path_panics : vec_last_position_from_token_path "$][" = Panic /\ vec_last_position_from_token_path "$[1]" = Ok 1 /\
  vec_last_position_from_token_path "$" = Ok 0.
Proof. vm_compute. done. Qed.
